(* ===== verification/_CoqProject ===== *)
-Q . S2P
Prelude.v
CLib.v
CDouble.v
AtUtil.v
Chprintf.v
AtCommands.v
Prog.v
ThreadQueue.v
Kernel.v
ChVt.v
ChSchd.v
ChSem.v
ChThreads.v
ChSys.v
ChMbox.v
ChEvents.v
ChMtx.v
ChHeap.v
Checks.v
HalQueues.v
HalSerial.v
HalMmcsd.v
AppState.v
HalMmcSpi.v
MmcProtocol.v
CardRegisters.v
Sim8xx.v
BoardMonitor.v
GpsReader.v
SystemThread.v
Peripherals.v
CardDriver.v
Shell.v
SerialChannel.v
UsbRegs.v
UsbLld.v
HalUsb.v
UsbIsr.v
UsbBus.v
UsbTransfer.v
UsbControl.v
UsbRequests.v
UsbCfg.v
HalBuffers.v
BuffersSpec.v
BuffersThreads.v
SerialUsb.v
SerialUsbSpec.v
SerialPort.v
UsbDriver.v
ShellPort.v
Firmware.v
Machine.v
Board.v
Witnesses.v
AppWitnesses.v
HeapWitnesses.v
ShellWitnesses.v
MmcWitnesses.v
UsbWitnesses.v
SerialWitnesses.v
