(* ===== verification/Prelude.v ===== *)
(** * A verification development of the g-track firmware

    The firmware is a motorbike tracker on an STM32 microcontroller: it switches a SIM8xx
    modem on when the ignition is switched on, reads positions from the modem's GNSS receiver
    every five seconds, shows them on a dashboard record and logs them on an SD card.  It is
    written in C on the real-time kernel ChibiOS/RT and its hardware abstraction layer, which
    are part of the repository (paths below are under src/software/).  This library models the
    application, the kernel it runs on and the drivers between, as executable definitions,
    and proves what makes each part correct.

    ** The parts, and where they are modelled

    - Basis.  [Prelude]: tactics, hint databases and lemmas.  [CLib]: machine integers, C
      strings in memory and the functions of the C library the code calls.  [CDouble]: binary64
      arithmetic.  [Prog]: code with effects.  [M S A] is a critical section (a state
      transformer that may be undefined), [prog S A] the code of a thread, with the points where
      others run; [run] executes it to the next such point, [exec] is its big-step semantics
      among others, [wp] the program logic, [within] says what a program leaves alone.
    - Text.  [AtUtil] and [AtCommands]: the AT commands and the parser of the GNSS report
      (source/sim8xx/at).  [Chprintf]: formatted output (ChibiOS/os/hal/lib/streams).
    - Kernel (ChibiOS/os/rt and ChibiOS/os/common/oslib).  [ThreadQueue]: the doubly linked queues on a heap of
      pointers, which implement lists.  [Kernel]: the state [ch_system] of all kernel objects, the queues
      as lists.  [ChVt]: virtual timers; [ChSchd]: the scheduler; [ChSem]: semaphores;
      [ChThreads]: threads, thread references and queues; [ChSys]: initialisation and the end of
      interrupts; [ChMbox]: mailboxes; [ChEvents]: events; [ChMtx]: mutexes with priority
      inheritance; [ChHeap]: the heap and the core memory, on a memory of words.  [Checks]: executable
      checkers of the invariants of the kernel objects.
    - Drivers (ChibiOS/os/hal).  [HalQueues]: the byte queues between threads and interrupts;
      [HalSerial]: the serial driver; [SerialChannel]: the serial driver implements the channel
      the application uses; [HalMmcsd] and [HalMmcSpi]: the card driver over SPI, with the registers
      of the card; [CardRegisters]: these registers taken to pieces; [MmcProtocol]: what it says on the bus; [CardDriver]: it implements the interface
      of the application.
    - USB (ChibiOS/os/hal, hal/ports/STM32/LLD/USBv1).  [UsbRegs]: the registers of the device, and the
      macros that access those that toggle; [UsbLld]: the low level driver; [HalUsb]: the driver, with the
      standard requests and the machine of endpoint zero; [UsbIsr]: the interrupt handler; [UsbBus]: the
      packets of a host as steps of the device; [UsbTransfer]: transfers on an endpoint; [UsbControl]:
      control transfers; [UsbRequests]: the standard requests; [UsbCfg]: the descriptors and the endpoints
      (config/usbcfg.c); [HalBuffers]: the queues of buffers; [BuffersSpec]: they are streams of bytes;
      [BuffersThreads]: threads that read and write them while the driver works;
      [SerialUsb]: the serial driver over USB, with the callbacks of config/usbcfg.c; [SerialUsbSpec]: the
      serial port is a pair of byte streams between a thread and the host; [SerialPort]: in both directions
      at once; [ShellPort]: the shell on it; [UsbDriver]: the drivers implement the interface [Usb] of the
      application.
    - Application (source/).  [AppState]: its variables, and as classes the parts it relies on;
      [Sim8xx]: the modem driver and its reader thread; [BoardMonitor]: polling and debouncing;
      [GpsReader]: the GPS thread and the dashboard; [SystemThread]: the state machine;
      [Peripherals]: SD card, debug shell and their manager; [Shell]: the shell
      (ChibiOS/os/various/shell) with its line editor, its words and its commands.
    - The whole.  [Firmware]: main.c and the machine that runs the nine threads under the
      kernel, with interrupts between any two steps; [Machine]: rely/guarantee reasoning over that
      machine; [Board]: a concrete board on which the program is run from reset by computation.
      [Witnesses], [AppWitnesses], [HeapWitnesses], [ShellWitnesses], [MmcWitnesses],
      [UsbWitnesses] and [SerialWitnesses] apply the theorems at concrete states.

    ** How the parts interact

    One state [S] has the kernel, the byte queues, the serial drivers and the application as
    components (class [Prog.Component], pairwise [Apart]); code of a component is lifted to the
    whole.  A thread calls the kernel inside critical sections; a call that blocks ends with a
    yield, and whatever the others do until the thread runs again is the parameter [R] of
    [exec].  A theorem on a blocking call therefore holds for every interleaving that respects
    the stated rely.  [Machine] shows for the system thread how such relies are discharged from the code
    of all threads.  Memory errors, null pointers and integer overflow of signed [int] are
    [None]; [deref] is a pointer access.  Machine integers are [Z] with the wrap-around of their
    type written out ([u8], [u32], [i32]).

    The interfaces are classes: [Serial] (with laws [SerialSpec], discharged by
    [SerialChannel]), [FatFs], [Mmc] (implemented in [CardDriver] over [Spi]), [Usb] (implemented in [UsbDriver]), [Heap], [UsbDevice] and
    [UsbEngine] (what the USB device makes of a write to a register and of a packet on the bus, laws
    [UsbDeviceSpec] and [UsbEngineSpec]), and the low-level parts of drivers.  Code
    behind them that is not modelled is only assumed to leave the application's variables
    alone (the [...Spec] classes); [Board] gives an instance of each.

    ** What the theorems show

    - Text: a complete report is parsed into the record it denotes, a truncated one is
      rejected, no byte outside the buffer is touched; printing and reading integers is a
      round trip; bounded printing stays in its buffer.
    - Kernel: the pointer queues refine lists; every operation keeps its invariants (ready list
      sorted by priority, the running thread among the highest, counters of semaphores against
      queues, timers in order of deadlines, events never lost, chains of mutex owners); the
      priority rule, round robin and first-come-first-served order; priority inheritance;
      deadlines of timers, modulo 2^32; what each blocking call returns in each case.  The free list of
      a heap is a list of blocks in order of addresses with no two adjacent: allocation is first fit, freeing
      merges, and the two are inverse.
    - Drivers: the block operations of the byte queues are repetitions of the single-byte ones; bytes are
      never lost, repeated or reordered between interrupt and thread.
    - Card: connecting, reading and writing speak the protocol of the card, a grammar of the events on
      the bus; check sums, the fields of registers (but for slips that are stated) and the capacity are
      those of the standards; the states of the driver follow their diagram.
    - USB: each register macro changes the bits it names and no other, whatever the device does between its
      read and its write; a transfer of any size is cut into packets and arrives whole; a control
      transfer with data in or out, zero length packets included, follows the machine of endpoint zero to
      its end; the standard requests that read are answered as the table of the specification
      has it, or with a stall, and a new address is used only after the status stage.
    - The serial port over USB: the bytes a thread writes are those the host reads, and the bytes the host
      sends those a thread reads, whatever is done between any two steps of the thread by the interrupts of
      transfers and frames.  One thread writes and one reads at a time; packets of the host fill a
      buffer exactly or end with a short one.  The two directions leave each other alone, so the
      line the shell gets is what the host types, and the host reads the echo.
    - Shell: a line is what was typed and what the terminal shows, is cut into the words it denotes, and
      runs the command it names.
    - Application: status lines of the modem; a command either times out or returns the answer
      received for it; debouncing; the GPS thread's turn; the state machine, refined by every
      run of the whole machine; the program boots and rides on the concrete board.

    ** Bounds and fuel

    Loops of the code that are unbounded are [Prog.Loop] or inductive.  Loops bounded by a data
    structure are fixpoints with fuel, always supplied by the definition itself: the length of
    the queue or string that is scanned, 32 for the bits of an event mask, the number of threads
    or mutexes for the chain of owners, the size of the memory for the free blocks.  The theorems show that this fuel is enough ([None] would be undefined
    behaviour, and the theorems give a result).  [Board] uses 1000 thread steps per interrupt and 2000
    alarms per wait, which suffice since the runs return a result.

    ** Configuration

    As compiled: tick-less timers of 32 bits at 10 kHz with a minimal distance of two ticks, no
    time slices, mutexes not recursive, events and mailboxes enabled, debug checks disabled.

    ** Not modelled

    FatFs (third party) and the SPI driver: behind interfaces.  The shell's commands on the
    registry of threads and on the test suites, its history and completion (not compiled in).  The working area of a
    thread is behind the interface [Heap], not a block of [ChHeap].
    The registry, condition variables and synchronous messages: not used by the program.
    Low-level drivers but that of USB, start-up code, the context switch itself: register accesses and
    assembly.  The other HAL drivers, ports, demos and tests of ChibiOS: not compiled into
    the program.  The memory of the stacks (working areas) is not modelled; a listener on a
    stack is a kernel object with a name. *)

From Stdlib Require Export ZArith Lia Ascii String.
From stdpp Require Export base tactics option list list_numbers gmap strings.
#[global] Open Scope Z_scope.

(** The error monad of every executable definition is [option], with stdpp's
    notation [x ← e; k]: [None] is undefined behaviour of the C code (a read past
    the end of an object, a dangling or null pointer, ...). *)

(** Rewriting database of the executable definitions. *)
Create Rewrite HintDb gtrack.

(** ** Tactics *)

(** Case analysis on every [match] and [if] of a hypothesis or of the goal. *)
Ltac split_matches :=
  repeat first
    [ progress simplify_option_eq
    | match goal with
      | H : context [ match ?x with _ => _ end ] |- _ => destruct x eqn:?
      | |- context [ match ?x with _ => _ end ] => destruct x eqn:?
      end ].

(** Turn boolean comparisons into linear facts. *)
Ltac zbool :=
  repeat match goal with
    | H : (_ <? _) = true |- _ => apply Z.ltb_lt in H
    | H : (_ <? _) = false |- _ => apply Z.ltb_ge in H
    | H : (_ <=? _) = true |- _ => apply Z.leb_le in H
    | H : (_ <=? _) = false |- _ => apply Z.leb_gt in H
    | H : (_ =? _) = true |- _ => apply Z.eqb_eq in H
    | H : (_ =? _) = false |- _ => apply Z.eqb_neq in H
    end.

(** Linear arithmetic with quotients and remainders by constants. *)
Ltac dlia := Z.to_euclidean_division_equations; lia.

(** ** Options *)

Lemma mbind_Some_inv {A B} (f : A -> option B) (o : option A) (b : B) :
  o ≫= f = Some b -> exists a, o = Some a /\ f a = Some b.
Proof. destruct o as [a|]; simpl; [eauto|discriminate]. Qed.

(** ** Lists *)

Section lists.
Context {A : Type}.
Implicit Types (l k : list A) (x : A) (n : nat).

Lemma insert_insert_list l n x y : <[n:=x]> (<[n:=y]> l) = <[n:=x]> l.
Proof. apply list_insert_insert_eq. Qed.

Lemma insert_back l n x y : l !! n = Some x -> <[n:=x]> (<[n:=y]> l) = l.
Proof. intros H. rewrite insert_insert_list. by apply list_insert_id. Qed.

Lemma insert_app_mid l k x y : <[length l := y]> (l ++ x :: k) = l ++ y :: k.
Proof. induction l; simpl; [done|by f_equal]. Qed.

Lemma lookup_app_mid l k x : (l ++ x :: k) !! length l = Some x.
Proof. induction l; done. Qed.

(** The longest prefix satisfying a test, and the rest. *)
Fixpoint span (b : A -> bool) l : list A * list A :=
  match l with
  | [] => ([], [])
  | x :: l' => if b x then let '(l1, l2) := span b l' in (x :: l1, l2) else ([], l)
  end.

Lemma span_app (b : A -> bool) l : l = fst (span b l) ++ snd (span b l).
Proof.
  induction l as [|x l IH]; simpl; [done|].
  destruct (b x); [|done]. destruct (span b l). simpl in *. by f_equal.
Qed.

Lemma filter_none (P : A -> Prop) `{!forall x, Decision (P x)} l :
  (forall x, x ∈ l -> ~ P x) -> filter P l = [].
Proof.
  induction l as [|x l IH]; intros Hn; [done|].
  rewrite filter_cons_False by (apply Hn; by left). apply IH. intros y Hy. apply Hn. by right.
Qed.

Lemma list_filter_all (P : A -> Prop) `{!forall x, Decision (P x)} l :
  (forall x, x ∈ l -> P x) -> filter P l = l.
Proof.
  induction l as [|x l IH]; intros Hp; [done|].
  rewrite filter_cons_True by (apply Hp; by left). f_equal. apply IH.
  intros y Hy. apply Hp. by right.
Qed.

Lemma filter_ext_in (P Q : A -> Prop) `{!forall x, Decision (P x), !forall x, Decision (Q x)} l :
  (forall x, x ∈ l -> P x <-> Q x) -> filter P l = filter Q l.
Proof.
  induction l as [|x l IH]; intros Hpq; [done|]. rewrite !filter_cons.
  assert (filter P l = filter Q l) as -> by (apply IH; intros y Hy; apply Hpq; by right).
  destruct (Hpq x) as [H1 H2]; [by left|]. by repeat case_decide; try tauto.
Qed.

End lists.

#[export] Hint Rewrite @length_app @length_insert @length_replicate @length_take
  @length_drop : gtrack.
