(* ===== verification/CLib.v ===== *)
(** * The part of the C language and of its standard library the firmware uses

    Machine integers are [Z] with their wrap-around written out, a [char] is an
    [ascii] (plain [char] is unsigned on the ARM target), an object of type
    [char[]] is a [list ascii] of the object's size and a [char *] into it is an
    offset.  Reading a string beyond the last byte of its object is undefined
    behaviour and gives [None]. *)

From S2P Require Import Prelude.

(** ** Integers *)

Definition u8 (z : Z) : Z := z mod 2 ^ 8.
Definition u16 (z : Z) : Z := z mod 2 ^ 16.
Definition u32 (z : Z) : Z := z mod 2 ^ 32.
Definition u64 (z : Z) : Z := z mod 2 ^ 64.
(** [int], [long], [msg_t] and [cnt_t]: 32-bit two's complement. *)
Definition i32 (z : Z) : Z := (z + 2 ^ 31) mod 2 ^ 32 - 2 ^ 31.

Lemma u32_range z : 0 <= u32 z < 2 ^ 32.
Proof. apply Z.mod_pos_bound. lia. Qed.

Lemma i32_range z : - 2 ^ 31 <= i32 z < 2 ^ 31.
Proof. unfold i32. pose proof (Z.mod_pos_bound (z + 2^31) (2^32)). lia. Qed.

Lemma i32_id z : - 2 ^ 31 <= z < 2 ^ 31 -> i32 z = z.
Proof. intros. unfold i32. rewrite Z.mod_small; lia. Qed.

Lemma u32_id z : 0 <= z < 2 ^ 32 -> u32 z = z.
Proof. intros. unfold u32. rewrite Z.mod_small; lia. Qed.

Lemma u8_id z : 0 <= z < 2 ^ 8 -> u8 z = z.
Proof. intros. unfold u8. rewrite Z.mod_small; lia. Qed.

(** ** Characters *)

Definition NUL : ascii := "000"%char.
Definition CR : ascii := "013"%char.
Definition LF : ascii := "010"%char.

(** The integer a [char] is promoted to. *)
Definition zchar (c : ascii) : Z := Z.of_N (N_of_ascii c).
(** The conversion of an integer to [char]. *)
Definition charz (z : Z) : ascii := ascii_of_N (Z.to_N (u8 z)).

Definition str (s : string) : list ascii := list_ascii_of_string s.

Lemma zchar_range c : 0 <= zchar c < 256.
Proof. unfold zchar. pose proof (N_ascii_bounded c). lia. Qed.

Lemma charz_zchar c : charz (zchar c) = c.
Proof.
  unfold charz. rewrite u8_id by (pose proof (zchar_range c); lia).
  unfold zchar. by rewrite N2Z.id, ascii_N_embedding.
Qed.

(** ** Strings *)

(** The characters of the string at the head of [l], without its terminator. *)
Fixpoint cstr (l : list ascii) : option (list ascii) :=
  match l with
  | [] => None
  | c :: l' => if decide (c = NUL) then Some [] else cons c <$> cstr l'
  end.

Definition cstr_at (b : list ascii) (p : nat) : option (list ascii) := cstr (drop p b).

Definition strlen (b : list ascii) (p : nat) : option nat := length <$> cstr_at b p.

(** [*(b + p) = c] *)
Definition store (b : list ascii) (p : nat) (c : ascii) : option (list ascii) :=
  if decide (p < length b)%nat then Some (<[p := c]> b) else None.

(** [strchr]: [Some None] is the null pointer. *)
Fixpoint strchr_l (l : list ascii) (c : ascii) : option (option nat) :=
  match l with
  | [] => None
  | x :: l' =>
      if decide (x = c) then Some (Some O)
      else if decide (x = NUL) then Some None
      else fmap (M := option) (fmap (M := option) S) (strchr_l l' c)
  end.

Definition strchr (b : list ascii) (p : nat) (c : ascii) : option (option nat) :=
  fmap (M := option) (fmap (M := option) (Nat.add p)) (strchr_l (drop p b) c).

(** [strncpy(dst, src, n)] writes exactly [n] characters. *)
Fixpoint strncpy_l (src : list ascii) (n : nat) {struct n} : option (list ascii) :=
  match n with
  | O => Some []
  | S n' =>
      match src with
      | [] => None
      | c :: src' =>
          if decide (c = NUL) then Some (replicate n NUL)
          else cons c <$> strncpy_l src' n'
      end
  end.

(** The new contents of a destination object [dst] (written from its start). *)
Definition write_prefix (dst bytes : list ascii) : option (list ascii) :=
  if decide (length bytes <= length dst)%nat
  then Some (bytes ++ drop (length bytes) dst) else None.

Definition strncpy (dst : list ascii) (b : list ascii) (p n : nat) : option (list ascii) :=
  bytes ← strncpy_l (drop p b) n; write_prefix dst bytes.

(** [strcpy(dst, b + p)]: the characters and the terminator. *)
Definition strcpy (dst : list ascii) (b : list ascii) (p : nat) : option (list ascii) :=
  s ← cstr_at b p; write_prefix dst (s ++ [NUL]).

(** [strcmp(b + p, s) == 0] for a string literal [s]. *)
Definition streq (b : list ascii) (p : nat) (s : string) : option bool :=
  t ← cstr_at b p; Some (bool_decide (t = str s)).

(** [strstr(b + p, needle)] for a non-empty literal. *)
Fixpoint strstr_l (s needle : list ascii) : option nat :=
  if bool_decide (take (length needle) s = needle) then Some O
  else match s with [] => None | _ :: s' => S <$> strstr_l s' needle end.

Definition strstr (b : list ascii) (p : nat) (needle : string) : option (option nat) :=
  s ← cstr_at b p; Some (Nat.add p <$> strstr_l s (str needle)).

(** [strspn(b + p, set)], the number of characters of [set] at the head. *)
Fixpoint strspn_l (l set : list ascii) : option nat :=
  match l with
  | [] => None
  | c :: l => if decide (c <> NUL /\ c ∈ set) then S <$> strspn_l l set else Some O
  end.
Definition strspn (b : list ascii) (p : nat) (set : list ascii) : option nat := strspn_l (drop p b) set.

(** [strpbrk(b + p, set)], the first character of [set]; [Some None] is the null pointer. *)
Fixpoint strpbrk_l (l set : list ascii) : option (option nat) :=
  match l with
  | [] => None
  | c :: l =>
      if decide (c = NUL) then Some None
      else if decide (c ∈ set) then Some (Some O)
      else fmap (M := option) (fmap (M := option) S) (strpbrk_l l set)
  end.
Definition strpbrk (b : list ascii) (p : nat) (set : list ascii) : option (option nat) :=
  fmap (M := option) (fmap (M := option) (Nat.add p)) (strpbrk_l (drop p b) set).

(** [memset(b, 0, n)] of a whole object. *)
Definition zeros (n : nat) : list ascii := replicate n NUL.

(** ** [atoi], i.e. [(int)strtol(s, NULL, 10)] *)

Definition isspace (c : ascii) : bool :=
  bool_decide (c = " "%char) || ((9 <=? zchar c) && (zchar c <=? 13)).
Definition isdigit (c : ascii) : bool := (48 <=? zchar c) && (zchar c <=? 57).

Fixpoint skip_space (s : list ascii) : list ascii :=
  match s with
  | c :: s' => if isspace c then skip_space s' else s
  | [] => []
  end.

(** The value of the longest prefix of digits, on top of [acc]. *)
Fixpoint digits_val (acc : Z) (s : list ascii) : Z :=
  match s with
  | c :: s' => if isdigit c then digits_val (10 * acc + (zchar c - 48)) s' else acc
  | [] => acc
  end.

Definition INT_MAX : Z := 2 ^ 31 - 1.
Definition INT_MIN : Z := - 2 ^ 31.

(** [strtol] saturates; [long] and [int] have the same range on the target. *)
Definition strtol_l (s : list ascii) : Z :=
  let s := skip_space s in
  let v := match s with
           | c :: s' => if decide (c = "-"%char) then - digits_val 0 s'
                        else if decide (c = "+"%char) then digits_val 0 s'
                        else digits_val 0 s
           | [] => 0
           end in
  Z.max INT_MIN (Z.min INT_MAX v).

Definition atoi (b : list ascii) (p : nat) : option Z := strtol_l <$> cstr_at b p.

(** ** Lemmas on strings *)

Lemma cstr_app s l : NUL ∉ s -> cstr (s ++ NUL :: l) = Some s.
Proof.
  induction s as [|c s IH]; intros H; simpl; [done|].
  apply not_elem_of_cons in H as [Hc Hs].
  rewrite decide_False by congruence. by rewrite IH.
Qed.

Lemma cstr_Some l s : cstr l = Some s -> exists r, l = s ++ NUL :: r /\ NUL ∉ s.
Proof.
  revert s. induction l as [|c l IH]; intros s; simpl; [done|].
  case_decide as Hc.
  - intros [= <-]. subst. exists l. split; [done|apply not_elem_of_nil].
  - intros H. destruct (cstr l) as [t|] eqn:E; [|done]. simplify_eq/=.
    destruct (IH _ eq_refl) as (r & -> & Hn). exists r. split; [done|].
    apply not_elem_of_cons. split; congruence.
Qed.

Lemma cstr_no_nul l s : cstr l = Some s -> NUL ∉ s.
Proof. intros H. by destruct (cstr_Some _ _ H) as (r & _ & ?). Qed.

Lemma cstr_at_iff b p s :
  cstr_at b p = Some s <->
  exists r, drop p b = s ++ NUL :: r /\ NUL ∉ s.
Proof.
  unfold cstr_at. split; [apply cstr_Some|].
  intros (r & -> & H). by apply cstr_app.
Qed.

(** The tail of a string is a string. *)
Lemma cstr_drop l s n : cstr l = Some s -> (n <= length s)%nat ->
  cstr (drop n l) = Some (drop n s).
Proof.
  intros H Hn. destruct (cstr_Some _ _ H) as (r & -> & Hs).
  rewrite drop_app_le by done. apply cstr_app.
  intros Hin. apply Hs. apply list_elem_of_lookup in Hin as [i Hi].
  rewrite lookup_drop in Hi. by eapply list_elem_of_lookup_2.
Qed.

Lemma cstr_at_add b p n s : cstr_at b p = Some s -> (n <= length s)%nat ->
  cstr_at b (p + n) = Some (drop n s).
Proof.
  unfold cstr_at. intros H Hn. rewrite <- drop_drop. by apply cstr_drop.
Qed.

Lemma cstr_at_bound b p s : cstr_at b p = Some s -> (p + length s < length b)%nat.
Proof.
  intros (r & E & _)%cstr_at_iff. apply (f_equal length) in E.
  rewrite length_drop, length_app in E. simpl in E. lia.
Qed.

Lemma strchr_l_absent l s c : cstr l = Some s -> c <> NUL -> c ∉ s ->
  strchr_l l c = Some None.
Proof.
  intros (r & -> & Hs)%cstr_Some Hc Hin.
  induction s as [|x s IH]; simpl.
  - by repeat case_decide.
  - apply not_elem_of_cons in Hs as [? ?]. apply not_elem_of_cons in Hin as [? ?].
    repeat case_decide; try congruence. by rewrite IH.
Qed.

Lemma strchr_l_app s c l : NUL ∉ s -> c ∉ s ->
  strchr_l (s ++ c :: l) c = Some (Some (length s)).
Proof.
  intros Hs Hc. induction s as [|x s IH]; simpl; [by rewrite decide_True|].
  apply not_elem_of_cons in Hs as [? ?]. apply not_elem_of_cons in Hc as [? ?].
  repeat case_decide; try congruence. by rewrite IH.
Qed.

Lemma strchr_absent b p s c : cstr_at b p = Some s -> c <> NUL -> c ∉ s ->
  strchr b p c = Some None.
Proof.
  unfold cstr_at, strchr. intros H Hc Hs. by erewrite strchr_l_absent.
Qed.

Lemma strchr_found b p s1 s2 c : cstr_at b p = Some (s1 ++ c :: s2) -> c ∉ s1 ->
  strchr b p c = Some (Some (p + length s1)%nat).
Proof.
  intros (r & E & Hs)%cstr_at_iff Hc. unfold strchr. rewrite E, <- app_assoc.
  simpl. rewrite strchr_l_app; [done| |done]. set_solver.
Qed.

(** The first occurrence of a character splits the list. *)
Lemma split_first (c : ascii) (s : list ascii) :
  c ∉ s \/ exists s1 s2, s = s1 ++ c :: s2 /\ c ∉ s1.
Proof.
  induction s as [|x s IH]; [left; apply not_elem_of_nil|].
  destruct (decide (x = c)) as [->|Hx].
  - right. exists [], s. split; [done|apply not_elem_of_nil].
  - destruct IH as [H|(s1 & s2 & -> & H)].
    + left. apply not_elem_of_cons. split; congruence.
    + right. exists (x :: s1), s2. split; [done|].
      apply not_elem_of_cons. split; congruence.
Qed.

Lemma strncpy_l_short s l n : NUL ∉ s -> (length s <= n)%nat ->
  strncpy_l (s ++ NUL :: l) n = Some (s ++ zeros (n - length s)).
Proof.
  revert n. induction s as [|c s IH]; intros n Hs Hn; simpl.
  - destruct n; simpl; [done|]. done.
  - apply not_elem_of_cons in Hs as [? ?]. destruct n as [|n]; simpl in *; [lia|].
    rewrite decide_False by congruence. rewrite IH by (done || lia). done.
Qed.

Lemma strncpy_l_length l n t : strncpy_l l n = Some t -> length t = n.
Proof.
  revert l t. induction n as [|n IH]; intros l t; simpl; [by intros [= <-]|].
  destruct l as [|c l]; simpl; [done|]. case_decide.
  - intros [= <-]. simpl. by rewrite length_replicate.
  - intros (u & E & ->)%fmap_Some. simpl. by rewrite (IH _ _ E).
Qed.

(** [strstr] finds an occurrence, and none before it. *)
Lemma strstr_l_first s needle j : (j <= length s)%nat ->
  take (length needle) (drop j s) = needle ->
  exists i, (i <= j)%nat /\ strstr_l s needle = Some i /\ take (length needle) (drop i s) = needle.
Proof.
  revert j. induction s as [|c s IH]; intros j Hj Ht; cbn [strstr_l length] in *.
  - assert (j = 0%nat) as -> by lia. rewrite drop_0 in Ht.
    rewrite bool_decide_eq_true_2 by done. by exists 0%nat.
  - case_bool_decide as H0; [exists 0%nat; split; [lia|done]|].
    destruct j as [|j]; [done|]. destruct (IH j) as (i & Hi & E & Hti); [lia|done|].
    rewrite E. exists (S i). split; [lia|done].
Qed.

Lemma store_run b p c : (p < length b)%nat -> store b p c = Some (<[p := c]> b).
Proof. intros H. unfold store. by rewrite decide_True. Qed.

(** The string [s] in an object. *)
Section in_string.
Context (set : list ascii) (junk : list ascii).

Lemma strspn_l_app s1 c s2 : NUL ∉ s1 -> Forall (fun x => x ∈ set) s1 -> c = NUL \/ c ∉ set ->
  strspn_l (s1 ++ c :: s2) set = Some (length s1).
Proof.
  intros Hn Hs Hc. induction s1 as [|x s1 IH]; cbn.
  - rewrite decide_False; [done|]. tauto.
  - apply not_elem_of_cons in Hn as [? ?]. apply Forall_cons in Hs as [? ?].
    rewrite decide_True by done. by rewrite IH.
Qed.
Lemma strpbrk_l_none s : NUL ∉ s -> Forall (fun x => x ∉ set) s -> strpbrk_l (s ++ NUL :: junk) set = Some None.
Proof.
  intros Hn Hs. induction s as [|x s IH]; cbn; [done|].
  apply not_elem_of_cons in Hn as [? ?]. apply Forall_cons in Hs as [? ?].
  rewrite !decide_False by done. by rewrite IH.
Qed.
Lemma strpbrk_l_some s1 c s2 : NUL ∉ s1 -> Forall (fun x => x ∉ set) s1 -> c <> NUL -> c ∈ set ->
  strpbrk_l (s1 ++ c :: s2) set = Some (Some (length s1)).
Proof.
  intros Hn Hs Hc Hin. induction s1 as [|x s1 IH]; cbn.
  - by rewrite decide_False, decide_True.
  - apply not_elem_of_cons in Hn as [? ?]. apply Forall_cons in Hs as [? ?].
    rewrite !decide_False by done. by rewrite IH.
Qed.
End in_string.
