(* ===== verification/CDouble.v ===== *)
(** * IEEE 754 arithmetic: [double] and the conversion to [float]

    The firmware is built without the FPU ([USE_FPU = no] in [Makefile]), so
    [double] is binary64 in software, rounded to nearest even.  The operations are
    those of the Standard Library's [SpecFloat], which compute.  The lemmas show
    that arithmetic on integers below 2^53 is exact. *)

From Stdlib Require Import SpecFloat.
From S2P Require Import Prelude.

Definition double := spec_float.
#[global] Instance double_eq_dec : EqDecision double.
Proof. unfold double. solve_decision. Defined.

Definition d_zero : double := S754_zero false.
Definition d_of_Z (z : Z) : double := binary_normalize 53 1024 z 0 false.
Definition d_add : double -> double -> double := SFadd 53 1024.
Definition d_sub : double -> double -> double := SFsub 53 1024.
Definition d_mul : double -> double -> double := SFmul 53 1024.
Definition d_div : double -> double -> double := SFdiv 53 1024.
(** The literals: a decimal literal denotes the nearest [double]. *)
Definition d_one : double := d_of_Z 1.
Definition d_tenth : double := d_div (d_of_Z 1) (d_of_Z 10).

(** [(float)x], kept as a [double]: 24 bits of mantissa, exponents up to 127. *)
Definition f_of_d (x : double) : double :=
  match x with
  | S754_finite s m e => binary_round 24 128 s m e
  | _ => x
  end.

(** A [float] widened to [double]: the same number, renormalised. *)
Definition d_of_f (x : double) : double :=
  match x with
  | S754_finite s m e => binary_round 53 1024 s m e
  | _ => x
  end.

Definition d_ltz (x : double) : bool := SFltb x d_zero.
Definition d_opp (x : double) : double := SFopp x.

(** [(long)x], rounding towards zero; out of the range of [long] the conversion
    is undefined. *)
Definition d_to_long (x : double) : option Z :=
  match x with
  | S754_zero _ => Some 0
  | S754_finite s m e =>
      let a := if 0 <=? e then Zpos m * 2 ^ e else Zpos m / 2 ^ (- e) in
      let v := if s then - a else a in
      if (- 2 ^ 31 <=? v) && (v <? 2 ^ 31) then Some v else None
  | _ => None
  end.

#[global] Arguments d_of_Z : simpl never.
#[global] Arguments d_add : simpl never.
#[global] Arguments d_sub : simpl never.
#[global] Arguments d_mul : simpl never.
#[global] Arguments d_div : simpl never.

(** ** Exactness on integers *)

Lemma digits2_log2 p : Zpos (digits2_pos p) = Z.log2 (Zpos p) + 1.
Proof.
  assert (H : forall q, Z.log2 (Zpos q~0) = Z.log2 (Zpos q) + 1 /\
                        Z.log2 (Zpos q~1) = Z.log2 (Zpos q) + 1).
  { intros q. split.
    - rewrite Pos2Z.inj_xO, Z.log2_double by lia. lia.
    - rewrite Pos2Z.inj_xI, Z.log2_succ_double by lia. lia. }
  induction p as [p IH|p IH|]; simpl digits2_pos;
    try rewrite Pos2Z.inj_succ; try (rewrite IH; destruct (H p); lia).
  reflexivity.
Qed.

Lemma Pos_iter_xO p d : Zpos (Pos.iter xO p d) = Zpos p * 2 ^ Zpos d.
Proof.
  induction d as [|d IH] using Pos.peano_ind; [simpl; lia|].
  rewrite Pos.iter_succ, Pos2Z.inj_xO, IH, Pos2Z.inj_succ, Z.pow_succ_r by lia. lia.
Qed.

Lemma iter_pos_iter {A} (f : A -> A) n x : SpecFloat.iter_pos f n x = Pos.iter f x n.
Proof.
  revert x. induction n as [n IH|n IH|]; intros x; simpl; rewrite ?IH; try reflexivity.
  by rewrite <- !Pos.iter_swap.
Qed.

Lemma iter_pos_succ {A} (f : A -> A) n x :
  SpecFloat.iter_pos f (Pos.succ n) x = SpecFloat.iter_pos f n (f x).
Proof. by rewrite !iter_pos_iter, Pos.iter_succ_r. Qed.

Lemma shr_exact z d : 0 < z ->
  SpecFloat.iter_pos shr_1 d (Build_shr_record (z * 2 ^ Zpos d) false false) =
  Build_shr_record z false false.
Proof.
  revert z. induction d as [|d IH] using Pos.peano_ind; intros z Hz.
  - destruct z as [|p|p]; try lia. simpl. by rewrite Pos.mul_comm.
  - rewrite iter_pos_succ, Pos2Z.inj_succ, Z.pow_succ_r by lia.
    replace (z * (2 * 2 ^ Zpos d)) with (2 * (z * 2 ^ Zpos d)) by lia.
    assert (Hp : 0 < z * 2 ^ Zpos d) by (apply Z.mul_pos_pos; [|apply Z.pow_pos_nonneg]; lia).
    destruct (z * 2 ^ Zpos d) as [|p|p] eqn:E; try lia.
    change (2 * Zpos p) with (Zpos p~0). simpl. rewrite <- E. by apply IH.
Qed.

(** The normal form of a positive integer of at most 53 bits. *)
Definition canon (z : Z) : double :=
  S754_finite false (Z.to_pos (z * 2 ^ (52 - Z.log2 z))) (Z.log2 z - 52).

Lemma log2_shift z k : 0 < z -> 0 <= k -> Z.log2 (z * 2 ^ k) = Z.log2 z + k.
Proof. intros. rewrite Z.log2_mul_pow2 by lia. lia. Qed.

Lemma pow2_pos k : 0 <= k -> 0 < 2 ^ k.
Proof. intros. apply Z.pow_pos_nonneg; lia. Qed.

(** Rounding a 53-bit mantissa followed by [k] zero bits is exact. *)
Lemma round_aux_exact m k e : Z.log2 (Zpos m) = 52 -> 0 <= k ->
  -1074 <= e + k <= 971 ->
  forall M, Zpos M = Zpos m * 2 ^ k ->
  binary_round_aux 53 1024 false (Zpos M) e loc_Exact = S754_finite false m (e + k).
Proof.
  intros Hm Hk He M HM. unfold binary_round_aux, shr_fexp.
  assert (HF : fexp 53 1024 (Zdigits2 (Zpos M) + e) - e = k).
  { simpl Zdigits2. rewrite digits2_log2, HM, log2_shift by lia.
    unfold fexp, emin. lia. }
  rewrite HF, HM. simpl shr_record_of_loc.
  assert (HS : shr (Build_shr_record (Zpos m * 2 ^ k) false false) e k =
               (Build_shr_record (Zpos m) false false, e + k)).
  { destruct k as [|k|k]; [|unfold shr; by rewrite shr_exact|lia].
    rewrite Z.pow_0_r, Z.mul_1_r, Z.add_0_r. reflexivity. }
  rewrite HS. simpl shr_m. simpl loc_of_shr_record. simpl round_nearest_even.
  assert (HF2 : fexp 53 1024 (Zdigits2 (Zpos m) + (e + k)) - (e + k) = 0).
  { simpl Zdigits2. rewrite digits2_log2, Hm. unfold fexp, emin. lia. }
  rewrite HF2. simpl.
  by rewrite (proj2 (Z.leb_le _ _)) by lia.
Qed.

Lemma round_exact z j M : 0 < z -> Z.log2 z <= 52 -> 0 <= j <= 52 ->
  Zpos M = z * 2 ^ j -> binary_round 53 1024 false M (- j) = canon z.
Proof.
  intros Hz Hl Hj HM. pose proof (Z.log2_nonneg z).
  set (m := Z.to_pos (z * 2 ^ (52 - Z.log2 z))).
  assert (Hm : Zpos m = z * 2 ^ (52 - Z.log2 z)).
  { apply Z2Pos.id. apply Z.mul_pos_pos; [|apply pow2_pos]; lia. }
  assert (Hlm : Z.log2 (Zpos m) = 52) by (rewrite Hm, log2_shift; lia).
  unfold binary_round.
  assert (HF : fexp 53 1024 (Zpos (digits2_pos M) + - j) = Z.log2 z - 52).
  { rewrite digits2_log2, HM, log2_shift by lia. unfold fexp, emin. lia. }
  rewrite HF. unfold shl_align.
  destruct (Z.log2 z - 52 - - j) as [|p|p] eqn:Ed.
  - rewrite (round_aux_exact m 0); try lia.
    + unfold canon. fold m. f_equal. lia.
    + rewrite HM, Hm, Z.pow_0_r, Z.mul_1_r. do 2 f_equal. lia.
  - rewrite (round_aux_exact m (Zpos p)); try lia.
    + unfold canon. fold m. f_equal. lia.
    + rewrite HM, Hm, <- Z.mul_assoc, <- Z.pow_add_r by lia. do 2 f_equal. lia.
  - rewrite (round_aux_exact m 0); try lia.
    + unfold canon. fold m. f_equal. lia.
    + rewrite Pos_iter_xO, HM, Hm, Z.pow_0_r, Z.mul_1_r, <- Z.mul_assoc,
        <- Z.pow_add_r by lia. do 2 f_equal. lia.
Qed.

Lemma lt53_log2 z : 0 < z < 2 ^ 53 -> Z.log2 z <= 52.
Proof. intros. assert (Z.log2 z < 53) by (apply Z.log2_lt_pow2; lia). lia. Qed.

Lemma d_of_Z_canon z : 0 < z < 2 ^ 53 -> d_of_Z z = canon z.
Proof.
  intros H. pose proof (lt53_log2 z H). destruct z as [|p|p]; try lia.
  unfold d_of_Z, binary_normalize. apply (round_exact (Zpos p) 0); lia.
Qed.

(** Products of integers are exact below 2^53. *)
Lemma d_mul_exact a b : 0 <= a -> 0 <= b -> a < 2 ^ 53 -> b < 2 ^ 53 -> a * b < 2 ^ 53 ->
  d_mul (d_of_Z a) (d_of_Z b) = d_of_Z (a * b).
Proof.
  intros Ha Hb Ha' Hb' Hab.
  destruct (decide (a = 0)) as [->|]; [destruct b as [|b|b]; try lia|
  destruct (decide (b = 0)) as [->|]].
  - done.
  - rewrite (d_of_Z_canon (Zpos b)) by lia. done.
  - rewrite (d_of_Z_canon a), Z.mul_0_r by lia. done.
  - assert (Hp : 0 < a * b) by nia.
    rewrite !d_of_Z_canon by lia.
    pose proof (Z.log2_nonneg a). pose proof (Z.log2_nonneg b).
    pose proof (lt53_log2 a ltac:(lia)). pose proof (lt53_log2 b ltac:(lia)).
    pose proof (lt53_log2 (a * b) ltac:(lia)).
    pose proof (Z.log2_mul_below a b ltac:(lia) ltac:(lia)).
    pose proof (Z.log2_mul_above a b ltac:(lia) ltac:(lia)).
    pose proof (Z.log2_nonneg (a * b)).
    unfold canon at 1 2, d_mul, SFmul. simpl xorb.
    set (m := Z.to_pos (a * b * 2 ^ (52 - Z.log2 (a * b)))).
    assert (HP : forall x k, 0 < x -> 0 <= k -> Zpos (Z.to_pos (x * 2 ^ k)) = x * 2 ^ k).
    { intros. apply Z2Pos.id. apply Z.mul_pos_pos; [|apply pow2_pos]; lia. }
    rewrite (round_aux_exact m (52 + Z.log2 (a * b) - Z.log2 a - Z.log2 b)).
    + unfold canon. fold m. f_equal. lia.
    + unfold m. rewrite HP, log2_shift by lia. lia.
    + lia.
    + lia.
    + unfold m. rewrite Pos2Z.inj_mul, !HP by lia.
      rewrite <- (Z.mul_assoc (a * b)), <- Z.pow_add_r by lia.
      replace (52 - Z.log2 (a * b) + (52 + Z.log2 (a * b) - Z.log2 a - Z.log2 b))
        with ((52 - Z.log2 a) + (52 - Z.log2 b)) by lia.
      rewrite Z.pow_add_r by lia. lia.
Qed.

Lemma shl_align_val m e e' : e' <= e ->
  Zpos (fst (shl_align m e e')) = Zpos m * 2 ^ (e - e').
Proof.
  intros H. unfold shl_align. destruct (e' - e) as [|p|p] eqn:E; simpl fst.
  - replace (e - e') with 0 by lia. lia.
  - lia.
  - rewrite Pos_iter_xO. do 2 f_equal. lia.
Qed.

(** Sums of integers are exact below 2^53. *)
Lemma d_add_exact a b : 0 <= a -> 0 <= b -> a + b < 2 ^ 53 ->
  d_add (d_of_Z a) (d_of_Z b) = d_of_Z (a + b).
Proof.
  intros Ha Hb Hab.
  destruct (decide (a = 0)) as [->|]; [destruct (decide (b = 0)) as [->|]|
  destruct (decide (b = 0)) as [->|]].
  - done.
  - rewrite (d_of_Z_canon b) by lia. rewrite Z.add_0_l, (d_of_Z_canon b) by lia. done.
  - rewrite (d_of_Z_canon a) by lia. rewrite Z.add_0_r, (d_of_Z_canon a) by lia. done.
  - rewrite !d_of_Z_canon by lia.
    pose proof (Z.log2_nonneg a). pose proof (Z.log2_nonneg b).
    pose proof (lt53_log2 a ltac:(lia)). pose proof (lt53_log2 b ltac:(lia)).
    pose proof (lt53_log2 (a + b) ltac:(lia)).
    unfold canon at 1 2, d_add, SFadd. simpl cond_Zopp.
    set (ez := Z.min _ _).
    assert (HP : forall x k, 0 < x -> 0 <= k -> Zpos (Z.to_pos (x * 2 ^ k)) = x * 2 ^ k).
    { intros. apply Z2Pos.id. apply Z.mul_pos_pos; [|apply pow2_pos]; lia. }
    rewrite !shl_align_val, !HP by lia.
    rewrite <- !Z.mul_assoc, <- !Z.pow_add_r by lia.
    replace (52 - Z.log2 a + (Z.log2 a - 52 - ez)) with (- ez) by lia.
    replace (52 - Z.log2 b + (Z.log2 b - 52 - ez)) with (- ez) by lia.
    rewrite <- Z.mul_add_distr_r.
    assert (0 < (a + b) * 2 ^ (- ez)) by (apply Z.mul_pos_pos; [|apply pow2_pos]; lia).
    destruct ((a + b) * 2 ^ (- ez)) as [|M|M] eqn:EM; try lia.
    unfold binary_normalize.
    replace ez with (- - ez) by lia. apply round_exact; lia.
Qed.
