(* ===== verification/AtUtil.v ===== *)
(** * AT utilities: the field scanner of [source/sim8xx/at/commands/AtUtil.c]

    Every function of the file works on one character buffer [b] and a cursor
    [*start] into it.  A function that returns [false] leaves everything as it was,
    which the model writes [Some (b, None)]; on success it gives the buffer after
    the call, the value and the new cursor. *)

From S2P Require Import Prelude CLib CDouble.

Module AtUtil.

(** [*end = '\0'; *value = atoi( *start); *end = delim; *start = end + 1] *)
Definition atGetNextInt (b : list ascii) (start : nat) (delim : ascii)
    : option (list ascii * option (Z * nat)) :=
  e ← strchr b start delim;
  match e with
  | None => Some (b, None)
  | Some e =>
      b1 ← store b e NUL;
      v ← atoi b1 start;
      b2 ← store b1 e delim;
      Some (b2, Some (v, S e))
  end.

(** The loop over the integer part: stops at the end of the string or at a ['.'],
    which it leaves in the rest. *)
Fixpoint ascii_int_loop (val : double) (s : list ascii) : double * list ascii :=
  match s with
  | [] => (val, [])
  | c :: s' =>
      if decide (c = "."%char) then (val, s)
      else ascii_int_loop (d_add (d_mul (d_of_Z 10) val) (d_of_Z (zchar c - 48))) s'
  end.

(** The loop over the decimals. *)
Fixpoint ascii_frac_loop (val f : double) (s : list ascii) : double :=
  match s with
  | [] => val
  | c :: s' =>
      let f := d_mul f d_tenth in
      ascii_frac_loop (d_add val (d_mul f (d_of_Z (zchar c - 48)))) f s'
  end.

Definition atAsciiToDouble (b : list ascii) (p : nat) : option double :=
  s ← cstr_at b p;
  match s with
  | [] => Some d_zero
  | _ =>
      match ascii_int_loop d_zero s with
      | (val, []) => Some val
      | (val, _ :: s') => Some (ascii_frac_loop val d_one s')
      end
  end.

Definition atGetNextDouble (b : list ascii) (start : nat) (delim : ascii)
    : option (list ascii * option (double * nat)) :=
  e ← strchr b start delim;
  match e with
  | None => Some (b, None)
  | Some e =>
      b1 ← store b e NUL;
      v ← atAsciiToDouble b1 start;
      b2 ← store b1 e delim;
      Some (b2, Some (v, S e))
  end.

(** The destination [buf] is another object: its new contents is the value. *)
Definition atGetNextString (b : list ascii) (start : nat) (buf : list ascii) (length : nat)
    (delim : ascii) : option (list ascii * option (list ascii * nat)) :=
  e ← strchr b start delim;
  match e with
  | None => Some (b, None)
  | Some e =>
      b1 ← store b e NUL;
      v ← strncpy buf b1 start length;
      b2 ← store b1 e delim;
      Some (b2, Some (v, S e))
  end.

(** The cursor moves over the delimiters found before a failure. *)
Fixpoint atSkipReserved (b : list ascii) (start : nat) (num : nat) (delim : ascii)
    : option (bool * nat) :=
  match num with
  | O => Some (true, start)
  | S num' =>
      e ← strchr b start delim;
      match e with
      | None => Some (false, start)
      | Some e => atSkipReserved b (S e) num' delim
      end
  end.

(** [*tmp = *c; *c = '\0'] *)
Definition atExchangeChar (b : list ascii) (c : nat) : option (list ascii * ascii) :=
  tmp ← b !! c;
  b' ← store b c NUL;
  Some (b', tmp).

Definition atRestoreChar (b : list ascii) (c : nat) (tmp : ascii) : option (list ascii) :=
  store b c tmp.

(** ** The scanner, on any conversion *)

Section scanner.
Context {V : Type} (conv : list ascii -> nat -> option V).

Definition getNext (b : list ascii) (start : nat) (delim : ascii)
    : option (list ascii * option (V * nat)) :=
  e ← strchr b start delim;
  match e with
  | None => Some (b, None)
  | Some e =>
      b1 ← store b e NUL;
      v ← conv b1 start;
      b2 ← store b1 e delim;
      Some (b2, Some (v, S e))
  end.

(** The buffer after the temporary terminator is written. *)
Lemma store_delim b p s1 s2 c : cstr_at b p = Some (s1 ++ c :: s2) ->
  exists b1, store b (p + length s1) NUL = Some b1 /\
    (exists r, drop p b1 = s1 ++ NUL :: r) /\
    store b1 (p + length s1) c = Some b.
Proof.
  intros H. pose proof (cstr_at_bound _ _ _ H) as Hb.
  rewrite length_app in Hb. simpl in Hb.
  apply cstr_at_iff in H as (r & E & Hs). unfold store.
  rewrite decide_True by lia. eexists. split; [done|]. split.
  - exists (s2 ++ NUL :: r). rewrite drop_insert_ge by lia.
    replace (p + length s1 - p)%nat with (length s1) by lia.
    rewrite E, <- app_assoc. simpl. by rewrite insert_app_mid.
  - rewrite length_insert, decide_True by lia. f_equal. apply insert_back.
    replace (p + length s1)%nat with (length s1 + p)%nat by lia.
    rewrite Nat.add_comm, <- lookup_drop, E, <- app_assoc. simpl. apply lookup_app_mid.
Qed.

(** A field terminated by the delimiter: the conversion sees exactly the field,
    as a terminated string, and the buffer is as before. *)
Lemma getNext_field b p s1 s2 c v :
  cstr_at b p = Some (s1 ++ c :: s2) -> c ∉ s1 ->
  (forall b1 r, drop p b1 = s1 ++ NUL :: r -> conv b1 p = Some v) ->
  getNext b p c = Some (b, Some (v, S (p + length s1))).
Proof.
  intros H Hc Hv. unfold getNext. rewrite (strchr_found _ _ _ _ _ H Hc). simpl.
  destruct (store_delim _ _ _ _ _ H) as (b1 & -> & (r & Hr) & E2). simpl.
  rewrite (Hv _ _ Hr). simpl. by rewrite E2.
Qed.

Lemma getNext_last b p s c : cstr_at b p = Some s -> c <> NUL -> c ∉ s ->
  getNext b p c = Some (b, None).
Proof. intros. unfold getNext. by erewrite strchr_absent. Qed.

End scanner.

Lemma atGetNextInt_getNext : atGetNextInt = getNext atoi.
Proof. reflexivity. Qed.
Lemma atGetNextDouble_getNext : atGetNextDouble = getNext atAsciiToDouble.
Proof. reflexivity. Qed.
Lemma atGetNextString_getNext b p buf n c :
  atGetNextString b p buf n c = getNext (fun b p => strncpy buf b p n) b p c.
Proof. reflexivity. Qed.

(** The value of a double field. *)
Definition ascii_to_double (s : list ascii) : double :=
  match s with
  | [] => d_zero
  | _ => match ascii_int_loop d_zero s with
         | (val, []) => val
         | (val, _ :: s') => ascii_frac_loop val d_one s'
         end
  end.

Lemma atAsciiToDouble_cstr b p s : cstr_at b p = Some s ->
  atAsciiToDouble b p = Some (ascii_to_double s).
Proof.
  intros H. unfold atAsciiToDouble, ascii_to_double. rewrite H. simpl.
  destruct s; [done|]. by destruct (ascii_int_loop _ _) as [? []].
Qed.

(** The value of a string field copied into an object of [n] bytes. *)
Definition field_bytes (s : list ascii) (n : nat) : list ascii :=
  take n s ++ zeros (n - length s).

Lemma strncpy_l_spec s r n : NUL ∉ s -> strncpy_l (s ++ NUL :: r) n = Some (field_bytes s n).
Proof.
  revert n. unfold field_bytes.
  induction s as [|c s IH]; intros n Hs; destruct n as [|n]; simpl; try done.
  apply not_elem_of_cons in Hs as [? ?].
  case_decide; [congruence|]. by rewrite IH.
Qed.

Lemma field_bytes_length s n : length (field_bytes s n) = n.
Proof.
  unfold field_bytes, zeros. rewrite length_app, length_take, length_replicate. lia.
Qed.

Lemma strncpy_field buf b p s r n : NUL ∉ s -> drop p b = s ++ NUL :: r ->
  length buf = n -> strncpy buf b p n = Some (field_bytes s n).
Proof.
  intros Hs E Hn. unfold strncpy. rewrite E, strncpy_l_spec by done. simpl.
  unfold write_prefix. rewrite decide_True by (rewrite field_bytes_length; lia).
  by rewrite field_bytes_length, <- Hn, drop_all, app_nil_r.
Qed.

Lemma cstr_at_field b p s r : NUL ∉ s -> drop p b = s ++ NUL :: r -> cstr_at b p = Some s.
Proof. intros Hs E. apply cstr_at_iff. eauto. Qed.

(** ** The operations on a field *)

Section fields.
Context (b : list ascii) (p : nat) (s1 s2 : list ascii) (c : ascii).
Context (Hb : cstr_at b p = Some (s1 ++ c :: s2)) (Hc : c ∉ s1).

Lemma field_no_nul : NUL ∉ s1.
Proof. pose proof (cstr_no_nul _ _ Hb). set_solver. Qed.

Lemma atGetNextInt_field :
  atGetNextInt b p c = Some (b, Some (strtol_l s1, S (p + length s1))).
Proof.
  apply (getNext_field _ _ _ _ _ _ _ Hb Hc). intros b1 r E. unfold atoi.
  by rewrite (cstr_at_field _ _ _ _ field_no_nul E).
Qed.

Lemma atGetNextDouble_field :
  atGetNextDouble b p c = Some (b, Some (ascii_to_double s1, S (p + length s1))).
Proof.
  apply (getNext_field _ _ _ _ _ _ _ Hb Hc). intros b1 r E.
  eapply atAsciiToDouble_cstr, cstr_at_field; [apply field_no_nul|done].
Qed.

Lemma atGetNextString_field buf n : length buf = n ->
  atGetNextString b p buf n c = Some (b, Some (field_bytes s1 n, S (p + length s1))).
Proof.
  intros Hn. rewrite atGetNextString_getNext. apply (getNext_field _ _ _ _ _ _ _ Hb Hc). intros b1 r E.
  eapply strncpy_field; [apply field_no_nul|done..].
Qed.

Lemma atSkipReserved_field n :
  atSkipReserved b p (S n) c = atSkipReserved b (S (p + length s1)) n c.
Proof. simpl. by rewrite (strchr_found _ _ _ _ _ Hb Hc). Qed.

(** The cursor after the field. *)
Lemma cstr_at_next : cstr_at b (S (p + length s1)) = Some s2.
Proof.
  replace (S (p + length s1)) with (p + (length s1 + 1))%nat by lia.
  rewrite (cstr_at_add _ _ _ _ Hb) by (rewrite length_app; simpl; lia).
  rewrite <- drop_drop, drop_app_length. done.
Qed.
End fields.

(** ** The conversion of decimal digits *)

Definition all_digits (s : list ascii) : Prop := Forall (fun c => isdigit c = true) s.

Lemma isdigit_range c : isdigit c = true -> 0 <= zchar c - 48 <= 9.
Proof. unfold isdigit. intros [? ?]%andb_true_iff. zbool. lia. Qed.

Lemma isdigit_not_dot c : isdigit c = true -> c <> "."%char.
Proof. by intros ? ->. Qed.

Lemma digits_val_ge acc s : 0 <= acc -> all_digits s -> acc <= digits_val acc s.
Proof.
  intros Ha Hs. revert acc Ha.
  induction Hs as [|c s Hc Hs IH]; intros acc Ha; simpl; [lia|].
  rewrite Hc. pose proof (isdigit_range _ Hc). specialize (IH (10 * acc + (zchar c - 48))). lia.
Qed.

Lemma ascii_int_loop_digits acc s r : 0 <= acc -> all_digits s ->
  digits_val acc s < 2 ^ 53 -> (r = [] \/ exists r', r = "."%char :: r') ->
  ascii_int_loop (d_of_Z acc) (s ++ r) = (d_of_Z (digits_val acc s), r).
Proof.
  intros Ha Hs Hv Hr. revert acc Ha Hv.
  induction Hs as [|c s Hc Hs IH]; intros acc Ha Hv; simpl.
  - destruct Hr as [->|[r' ->]]; done.
  - rewrite decide_False by (by apply isdigit_not_dot).
    pose proof (isdigit_range _ Hc). simpl in Hv. rewrite Hc in Hv |- *.
    pose proof (digits_val_ge (10 * acc + (zchar c - 48)) s ltac:(lia) Hs).
    rewrite d_mul_exact, d_add_exact by lia. apply IH; lia.
Qed.

(** The conversion of an integer field is exact: a string of decimal digits whose value is
    below 2^53 is converted to that value, without a rounding error, whether or not a point
    without decimals follows. *)
Theorem atAsciiToDouble_integer b p s r : cstr_at b p = Some (s ++ r) -> r = [] \/ r = ["."%char] ->
  s <> [] -> all_digits s -> digits_val 0 s < 2 ^ 53 ->
  atAsciiToDouble b p = Some (d_of_Z (digits_val 0 s)).
Proof.
  intros Hb Hr Hne Hs Hv. unfold atAsciiToDouble. rewrite Hb. cbn [mbind option_bind].
  change d_zero with (d_of_Z 0).
  rewrite ascii_int_loop_digits by (try done; try lia; destruct Hr as [->| ->]; eauto).
  destruct s as [|c s]; [done|]. by destruct Hr as [->| ->].
Qed.

(** There is no sign: ['-'] is taken for the digit of value -3, so a southern or western
    coordinate is not negated but shifted. *)
Theorem atAsciiToDouble_negative :
  atAsciiToDouble (str "-47.5" ++ [NUL]) 0 = Some (d_div (d_of_Z (-505)) (d_of_Z 2)).
Proof. reflexivity. Qed.

End AtUtil.
