(* ===== verification/Chprintf.v ===== *)
(** * Formatted output: [os/hal/lib/streams/chprintf.c] and [memstreams.c]

    [chvprintf] writes to a stream through [streamPut] only, so it is modelled by
    the list of characters it puts, in order; the number it returns is their count.
    The variable arguments are a list, read by [va_arg] from the left; reading one
    that is missing or of another type is undefined behaviour. *)

From S2P Require Import Prelude CLib CDouble.

Module Chprintf.

(** An [int] or [long] (both of 32 bits), a string (the bytes from the pointer to the
    end of its object) or a [double]. *)
Inductive va :=
  | va_int (z : Z)
  | va_str (s : list ascii)
  | va_null
  | va_double (d : double).

Definition MAX_FILLER : nat := 11.
Definition FLOAT_PRECISION : Z := 9.

(** The digits, last first, into the [MAX_FILLER] bytes before [p + MAX_FILLER]:
    the 12th one would be stored before [p].  [l] and [ll] are [long]s divided as
    [unsigned]. *)
Fixpoint digits_loop (room : nat) (l ll radix : Z) (q : list ascii) : option (list ascii) :=
  match room with
  | O => None
  | S room =>
      let i := u32 l mod radix + 48 in
      let i := if 57 <? i then i + 7 else i in
      let q := charz i :: q in
      let l := i32 (u32 l / radix) in
      let ll := i32 (u32 ll / radix) in
      if ll =? 0 then Some q else digits_loop room l ll radix q
  end.

(** The characters appended at [p]. *)
Definition long_to_string_with_divisor (num radix divisor : Z) : option (list ascii) :=
  let ll := if divisor =? 0 then num else divisor in
  digits_loop MAX_FILLER num ll radix [].

Definition ch_ltoa (num radix : Z) : option (list ascii) :=
  long_to_string_with_divisor num radix 0.

Definition pow10 : list Z :=
  [10; 100; 1000; 10000; 100000; 1000000; 10000000; 100000000; 1000000000].

Definition ftoa (num : double) (precision : Z) : option (list ascii) :=
  let precision := if (precision =? 0) || (FLOAT_PRECISION <? precision)
                   then FLOAT_PRECISION else precision in
  precision ← pow10 !! Z.to_nat (precision - 1);
  l ← d_to_long num;
  ip ← long_to_string_with_divisor l 10 0;
  l ← d_to_long (d_mul (d_sub num (d_of_Z l)) (d_of_Z precision));
  fp ← long_to_string_with_divisor l 10 (precision / 10);
  Some (ip ++ "."%char :: fp).

(** [c = *fmt++]; the format carries its terminator. *)
Definition next (fmt : list ascii) : option (ascii * list ascii) :=
  match fmt with [] => None | c :: fmt => Some (c, fmt) end.

Definition va_arg_int (ap : list va) : option (Z * list va) :=
  match ap with va_int z :: ap => Some (z, ap) | _ => None end.

(** The loops reading a width or a precision: the first character after it, the
    rest of the format, the number and the rest of the arguments. *)
Fixpoint num_loop (fmt : list ascii) (acc : Z) (ap : list va)
    : option (ascii * list ascii * Z * list va) :=
  match fmt with
  | [] => None
  | c :: fmt =>
      if isdigit c then num_loop fmt (acc * 10 + (zchar c - 48)) ap
      else if decide (c = "*"%char) then
        '(z, ap) ← va_arg_int ap; num_loop fmt (acc * 10 + u8 z) ap
      else Some (c, fmt, acc, ap)
  end.

(** [for (p = s; *p && (--precision >= 0); p++)] *)
Fixpoint str_loop (s : list ascii) (precision : nat) : option (list ascii) :=
  match s with
  | [] => None
  | c :: s =>
      if decide (c = NUL) then Some []
      else match precision with
           | O => Some []
           | S precision => cons c <$> str_loop s precision
           end
  end.

(** The [switch] of the conversion character: the filler and the text from [s] to
    [p]. *)
Definition convert (c : ascii) (filler : ascii) (precision : Z) (ap : list va)
    : option (ascii * list ascii * list va) :=
  let unsigned (radix : Z) :=
    '(l, ap) ← va_arg_int ap;
    t ← ch_ltoa (i32 l) radix;
    Some (filler, t, ap) in
  if decide (c = "c"%char) then
    '(z, ap) ← va_arg_int ap; Some (" "%char, [charz z], ap)
  else if decide (c = "s"%char) then
    let precision := if precision =? 0 then 32767 else precision in
    match ap with
    | va_str s :: ap => t ← str_loop s (Z.to_nat precision); Some (" "%char, t, ap)
    | va_null :: ap =>
        t ← str_loop (str "(null)" ++ [NUL]) (Z.to_nat precision);
        Some (" "%char, t, ap)
    | _ => None
    end
  else if decide (c ∈ str "DdIi") then
    '(l, ap) ← va_arg_int ap;
    if l <? 0 then
      if l =? INT_MIN then None
      else t ← ch_ltoa (- l) 10; Some (filler, "-"%char :: t, ap)
    else t ← ch_ltoa l 10; Some (filler, t, ap)
  else if decide (c = "f"%char) then
    match ap with
    | va_double d :: ap =>
        let f := f_of_d d in
        if d_ltz f then
          t ← ftoa (d_of_f (d_opp f)) precision; Some (filler, "-"%char :: t, ap)
        else t ← ftoa (d_of_f f) precision; Some (filler, t, ap)
    | _ => None
    end
  else if decide (c ∈ str "Xx") then unsigned 16
  else if decide (c ∈ str "Uu") then unsigned 10
  else if decide (c ∈ str "Oo") then unsigned 8
  else Some (filler, [c], ap).

(** The text with its padding, as put on the stream. *)
Definition put_padded (left_align : bool) (filler : ascii) (width : Z) (text : list ascii)
    : list ascii :=
  let pad := replicate (Z.to_nat (width - Z.of_nat (length text))) filler in
  if left_align then text ++ pad
  else match pad, text with
       | _ :: _, c :: text' =>
           if decide (c = "-"%char) then
             if decide (filler = "0"%char) then c :: pad ++ text' else pad ++ text
           else pad ++ text
       | _, _ => pad ++ text
       end.

(** One conversion, after the ['%']: what it puts, and what is left. *)
Definition directive (fmt : list ascii) (ap : list va)
    : option (list ascii * list ascii * list va) :=
  let '(left_align, fmt) :=
    match fmt with
    | c :: fmt' => if decide (c = "-"%char) then (true, fmt') else (false, fmt)
    | [] => (false, [])
    end in
  let '(filler, fmt) :=
    match fmt with
    | c :: fmt' => if decide (c = "0"%char) then ("0"%char, fmt') else (" "%char, fmt)
    | [] => (" "%char, [])
    end in
  '(c, fmt, width, ap) ← num_loop fmt 0 ap;
  '(c, fmt, precision, ap) ←
    (if decide (c = "."%char) then num_loop fmt 0 ap else Some (c, fmt, 0, ap));
  '(c, fmt) ←
    (if decide (c = "l"%char ∨ c = "L"%char) then
       x ← head fmt; if decide (x = NUL) then Some (c, fmt) else next fmt
     else Some (c, fmt));
  '(filler, text, ap) ← convert c filler precision ap;
  Some (put_padded left_align filler width text, fmt, ap).

(** The loop over the format.  Every turn consumes at least one character, so the
    length of the format is fuel enough ([chvprintf_fuel]). *)
Fixpoint chvprintf_loop (fuel : nat) (fmt : list ascii) (ap : list va)
    : option (list ascii) :=
  match fuel with
  | O => None
  | S fuel =>
      '(c, fmt) ← next fmt;
      if decide (c = NUL) then Some []
      else if decide (c = "%"%char) then
        '(out, fmt, ap) ← directive fmt ap;
        rest ← chvprintf_loop fuel fmt ap;
        Some (out ++ rest)
      else rest ← chvprintf_loop fuel fmt ap; Some (c :: rest)
  end.

Definition chvprintf (fmt : string) (ap : list va) : option (list ascii) :=
  chvprintf_loop (S (String.length fmt)) (str fmt ++ [NUL]) ap.

(** The characters put on the stream; [chprintf] returns their number. *)
Definition chprintf : string -> list va -> option (list ascii) := chvprintf.

(** ** Memory streams *)

Record MemoryStream := MS { ms_buffer : list ascii; ms_size : nat; ms_eos : nat }.

Definition msObjectInit (buffer : list ascii) (size eos : nat) : MemoryStream :=
  MS buffer size eos.

(** [_put]: a full stream refuses the byte. *)
Definition ms_put (ms : MemoryStream) (b : ascii) : option MemoryStream :=
  if decide (ms_size ms - ms_eos ms <= 0)%nat then Some ms
  else buf ← store (ms_buffer ms) (ms_eos ms) b;
       Some (MS buf (ms_size ms) (S (ms_eos ms))).

Fixpoint ms_put_all (ms : MemoryStream) (bs : list ascii) : option MemoryStream :=
  match bs with
  | [] => Some ms
  | b :: bs => ms ← ms_put ms b; ms_put_all ms bs
  end.

(** The destination after the call and the result. *)
Definition chsnprintf (s : list ascii) (size : nat) (fmt : string) (ap : list va)
    : option (list ascii * Z) :=
  let size_wo_nul := (size - 1)%nat in
  let ms := msObjectInit s size_wo_nul 0 in
  out ← chvprintf fmt ap;
  ms ← ms_put_all ms out;
  s ← (if decide (ms_eos ms < size)%nat then store (ms_buffer ms) (ms_eos ms) NUL
       else Some (ms_buffer ms));
  Some (s, Z.of_nat (length out)).

(** ** The fuel of the format loop *)

Lemma num_loop_length fmt : forall acc ap c fmt' n ap',
  num_loop fmt acc ap = Some (c, fmt', n, ap') -> (length fmt' < length fmt)%nat.
Proof.
  induction fmt as [|c0 fmt IH]; intros acc ap c fmt' n ap' H; simpl in H; [done|].
  destruct (isdigit c0).
  { apply IH in H. simpl. lia. }
  case_decide.
  - destruct (va_arg_int ap) as [[z ap2]|]; simpl in H; [|done]. apply IH in H. simpl. lia.
  - simplify_eq. simpl. lia.
Qed.

Lemma directive_length fmt ap out fmt' ap' :
  directive fmt ap = Some (out, fmt', ap') -> (length fmt' < length fmt)%nat.
Proof.
  unfold directive. intros H.
  destruct (match fmt with [] => _ | _ => _ end) as [la f1] eqn:E1.
  assert (H1 : (length f1 <= length fmt)%nat)
    by (destruct fmt as [|a fmt]; [|case_decide]; simplify_eq/=; lia).
  destruct (match f1 with [] => _ | _ => _ end) as [fl f2] eqn:E2.
  assert (H2 : (length f2 <= length f1)%nat)
    by (destruct f1 as [|a f1]; [|case_decide]; simplify_eq/=; lia).
  apply bind_Some in H as ([[[c f3] w] ap1] & E3%num_loop_length & H).
  apply bind_Some in H as ([[[c2 f4] pr] ap2] & E4 & H).
  assert (H4 : (length f4 <= length f3)%nat).
  { destruct (decide (c = "."%char)); [apply num_loop_length in E4; lia|]. by simplify_eq. }
  apply bind_Some in H as ([c3 f5] & E5 & H).
  assert (H5 : (length f5 <= length f4)%nat).
  { destruct (decide (c2 = _ \/ _)); [|by simplify_eq].
    destruct f4 as [|x f4]; simpl in E5; [done|]. case_decide; simplify_eq/=; lia. }
  apply bind_Some in H as ([[fl2 text] ap3] & E6 & H). simplify_eq. lia.
Qed.

Lemma chvprintf_fuel fuel fmt ap : (length fmt <= fuel)%nat ->
  chvprintf_loop fuel fmt ap = chvprintf_loop (length fmt) fmt ap.
Proof.
  revert fmt ap. induction fuel as [fuel IH] using lt_wf_ind. intros fmt ap Hl.
  destruct fmt as [|c fmt]; [by destruct fuel|].
  destruct fuel as [|fuel]; [simpl in Hl; lia|].
  simpl. case_decide; [done|]. simpl in Hl.
  assert (IH' : forall f' ap', (length f' <= length fmt)%nat ->
    chvprintf_loop fuel f' ap' = chvprintf_loop (length fmt) f' ap').
  { intros f' ap' H'. rewrite (IH fuel), (IH (length fmt)); done || lia. }
  case_decide.
  - destruct (directive fmt ap) as [[[out fmt'] ap']|] eqn:E; simpl; [|done].
    apply directive_length in E. rewrite IH'; done || lia.
  - rewrite IH'; done || lia.
Qed.

(** ** Decimal numbers *)

Lemma charz_digit d : 0 <= d <= 9 ->
  isdigit (charz (d + 48)) = true /\ zchar (charz (d + 48)) - 48 = d.
Proof.
  intros H. assert (d = 0 \/ d = 1 \/ d = 2 \/ d = 3 \/ d = 4 \/ d = 5 \/ d = 6 \/ d = 7
    \/ d = 8 \/ d = 9) as Hd by lia.
  repeat (destruct Hd as [->|Hd]; [done|]). by subst.
Qed.

Lemma u32_i32 z : u32 (i32 z) = u32 z.
Proof.
  unfold u32, i32. rewrite Zminus_mod_idemp_l, Z.add_simpl_r. done.
Qed.

(** [ds] is a decimal numeral of [u]: read on top of any number, it shifts it and
    adds [u]. *)
Definition numeral (ds : list ascii) (u : Z) : Prop :=
  ds <> [] /\ Forall (fun c => isdigit c = true) ds /\
  forall acc r, digits_val acc (ds ++ r) = digits_val (acc * 10 ^ Z.of_nat (length ds) + u) r.

Lemma digits_loop_zero l room q : u32 l / 10 = 0 ->
  digits_loop (S room) l l 10 q = Some (charz (u32 l + 48) :: q).
Proof.
  intros H. pose proof (u32_range l). cbn [digits_loop]. rewrite H.
  rewrite (Z.mod_small (u32 l)) by dlia.
  rewrite (proj2 (Z.ltb_ge _ _)) by dlia. done.
Qed.

Lemma digits_loop_decimal room : forall l q, (0 < room)%nat ->
  u32 l < 10 ^ Z.of_nat room ->
  exists ds, digits_loop room l l 10 q = Some (ds ++ q) /\ numeral ds (u32 l).
Proof.
  induction room as [|room IH]; intros l q Hr Hl; [lia|].
  pose proof (u32_range l) as Hu.
  destruct (decide (u32 l / 10 = 0)) as [H0|H0].
  - rewrite digits_loop_zero by done. exists [charz (u32 l + 48)]. split; [done|].
    destruct (charz_digit (u32 l)) as [H1 H2]; [dlia|].
    split_and!; [done|by constructor|].
    intros acc r. simpl. rewrite H1, H2. f_equal. lia.
  - cbn [digits_loop]. set (d := u32 l mod 10).
    pose proof (Z.mod_pos_bound (u32 l) 10 ltac:(lia)) as Hd. fold d in Hd.
    rewrite (proj2 (Z.ltb_ge _ _)) by lia.
    assert (Hq : 0 < u32 l / 10 < 2 ^ 31) by dlia.
    rewrite (i32_id (u32 l / 10)) by lia. rewrite (proj2 (Z.eqb_neq _ _)) by lia.
    destruct room as [|room]; [change (u32 l < 10) in Hl; dlia|].
    destruct (IH (u32 l / 10) (charz (d + 48) :: q)) as (ds & E & Hne & Hds & Hv);
      [lia| |].
    { rewrite (u32_id (u32 l / 10)) by lia. apply Z.div_lt_upper_bound; [lia|].
      rewrite <- Z.pow_succ_r by lia. by rewrite <- Nat2Z.inj_succ. }
    exists (ds ++ [charz (d + 48)]). rewrite E. split; [by rewrite <- app_assoc|].
    destruct (charz_digit d) as [H1 H2]; [lia|]. split_and!.
    + by destruct ds.
    + apply Forall_app. split; [done|by constructor].
    + intros acc r. rewrite <- app_assoc, Hv. simpl. rewrite H1, H2. f_equal.
      rewrite (u32_id (u32 l / 10)), length_app, Nat2Z.inj_add, Z.pow_add_r by lia.
      change (10 ^ Z.of_nat (length [charz (d + 48)])) with 10.
      pose proof (Z.div_mod (u32 l) 10 ltac:(lia)). lia.
Qed.

Lemma ch_ltoa_decimal l : exists ds, ch_ltoa l 10 = Some ds /\ numeral ds (u32 l).
Proof.
  unfold ch_ltoa, long_to_string_with_divisor. simpl (0 =? 0).
  destruct (digits_loop_decimal MAX_FILLER l []) as (ds & E & H).
  - unfold MAX_FILLER. lia.
  - pose proof (u32_range l). unfold MAX_FILLER. simpl Z.of_nat. lia.
  - exists ds. rewrite E, app_nil_r. done.
Qed.

Lemma numeral_val ds u : numeral ds u -> digits_val 0 ds = u.
Proof.
  intros (_ & _ & H). specialize (H 0 []). rewrite app_nil_r in H. rewrite H. simpl. lia.
Qed.

(** [atoi] on a numeral. *)
Lemma strtol_numeral ds u : numeral ds u -> u <= INT_MAX -> 0 <= u -> strtol_l ds = u.
Proof.
  intros H Hu H0. pose proof (numeral_val _ _ H) as Hv. destruct H as (Hne & Hd & _).
  destruct ds as [|c ds]; [done|]. inversion Hd as [|? ? Hc Hds]; subst.
  unfold strtol_l, INT_MIN, INT_MAX in *. simpl skip_space.
  assert (Hr : 48 <= zchar c <= 57)
    by (unfold isdigit in Hc; apply andb_true_iff in Hc as [? ?]; zbool; lia).
  assert (isspace c = false) as ->.
  { unfold isspace. rewrite bool_decide_eq_false_2 by (intros ->; change (zchar " "%char) with 32 in Hr; lia).
    simpl. apply andb_false_iff. right. apply Z.leb_gt. lia. }
  rewrite decide_False by (intros ->; change (zchar "-"%char) with 45 in Hr; lia).
  rewrite decide_False by (intros ->; change (zchar "+"%char) with 43 in Hr; lia). lia.
Qed.

Lemma strtol_minus_numeral ds u : numeral ds u -> u <= INT_MAX -> 0 <= u ->
  strtol_l ("-"%char :: ds) = - u.
Proof.
  intros H Hu H0. unfold strtol_l. simpl. rewrite (numeral_val _ _ H).
  unfold INT_MIN, INT_MAX in *. lia.
Qed.

(** ** Memory streams *)

Lemma ms_put_all_spec bs : forall b n e, (n <= length b)%nat -> (e <= n)%nat ->
  ms_put_all (MS b n e) bs =
    Some (MS (take e b ++ take (n - e) bs ++ drop (e + length (take (n - e) bs)) b) n
             (e + length (take (n - e) bs))).
Proof.
  induction bs as [|c bs IH]; intros b n e Hn He; simpl.
  - rewrite take_nil. simpl. by rewrite Nat.add_0_r, take_drop.
  - unfold ms_put. simpl. case_decide as Hd.
    + simpl. rewrite IH by done. replace (n - e)%nat with O by lia. done.
    + unfold store. rewrite decide_True by lia. simpl.
      rewrite IH by (rewrite ?length_insert; lia).
      destruct (n - e)%nat as [|k] eqn:Ek; [lia|]. replace (n - S e)%nat with k by lia.
      simpl. f_equal. f_equal; [|lia].
      rewrite (take_S_r _ _ c) by (apply list_lookup_insert_eq; lia).
      rewrite take_insert_ge, <- app_assoc by lia. simpl. do 3 f_equal.
      rewrite drop_insert_lt by lia. f_equal. lia.
Qed.

(** The destination of [chsnprintf] when it is the whole object. *)
Lemma chsnprintf_spec s fmt ap out : (0 < length s)%nat ->
  chvprintf fmt ap = Some out ->
  chsnprintf s (length s) fmt ap =
    Some (take (length s - 1) out ++ NUL :: drop (S (length (take (length s - 1) out))) s,
          Z.of_nat (length out)).
Proof.
  intros Hs Hout. unfold chsnprintf. rewrite Hout. cbn [mbind option_bind].
  unfold msObjectInit. rewrite ms_put_all_spec by lia. cbn [mbind option_bind ms_eos ms_buffer].
  rewrite Nat.sub_0_r, take_0. set (t := take (length s - 1) out). simpl app.
  assert (Ht : (length t < length s)%nat) by (subst t; rewrite length_take; lia).
  rewrite Nat.add_0_l, decide_True by done. unfold store.
  rewrite decide_True by (rewrite length_app, length_drop; lia). cbn [mbind option_bind].
  destruct (lookup_lt_is_Some_2 s (length t)) as [x Hx]; [done|].
  by rewrite (drop_S _ _ _ Hx), insert_app_mid.
Qed.

Lemma convert_d filler precision n ap : convert "d"%char filler precision (va_int n :: ap) =
  if n <? 0 then if n =? INT_MIN then None
    else t ← ch_ltoa (- n) 10; Some (filler, "-"%char :: t, ap)
  else t ← ch_ltoa n 10; Some (filler, t, ap).
Proof.
  unfold convert. do 2 (rewrite decide_False by done).
  rewrite decide_True by (right; left). done.
Qed.

Lemma chprintf_d n : chprintf "%d" [va_int n] =
  ('(out, fmt, ap) ←
     ('(filler, text, ap) ← convert "d"%char " "%char 0 [va_int n];
      Some (put_padded false filler 0 text, [NUL], ap));
   rest ← chvprintf_loop 2 fmt ap; Some (out ++ rest)).
Proof. reflexivity. Qed.

(** ** Properties *)

(** C40: Printing an [int] with ["%d"] and reading it back with [atoi] is the identity
    (for [INT_MIN] the code negates with an overflow, which is undefined). *)
Theorem chprintf_atoi n : INT_MIN < n <= INT_MAX ->
  exists t, chprintf "%d" [va_int n] = Some t /\ strtol_l t = n.
Proof.
  unfold INT_MIN, INT_MAX. intros Hn.
  rewrite chprintf_d, convert_d.
  destruct (ch_ltoa_decimal n) as (ds & E & Hds).
  destruct (ch_ltoa_decimal (- n)) as (ds' & E' & Hds').
  assert (HP : forall t, put_padded false " "%char 0 t = t)
    by (intros t; unfold put_padded; rewrite Z2Nat.nonpos by lia; by destruct t).
  assert (HL : chvprintf_loop 2 [NUL] [] = Some []) by done.
  destruct (n <? 0) eqn:Hneg; zbool.
  - rewrite (proj2 (Z.eqb_neq _ _)) by (unfold INT_MIN; lia). rewrite E'. cbn [mbind option_bind].
    rewrite HP, HL. cbn [mbind option_bind]. rewrite app_nil_r. eexists. split; [done|].
    rewrite (strtol_minus_numeral _ _ Hds'); rewrite u32_id; unfold INT_MAX; lia.
  - rewrite E. cbn [mbind option_bind]. rewrite HP, HL. cbn [mbind option_bind].
    rewrite app_nil_r. eexists. split; [done|].
    rewrite (strtol_numeral _ _ Hds); rewrite u32_id; unfold INT_MAX; lia.
Qed.

Lemma chsnprintf_fits s fmt ap out : (0 < length s)%nat ->
  chvprintf fmt ap = Some out -> NUL ∉ out ->
  exists s', chsnprintf s (length s) fmt ap = Some (s', Z.of_nat (length out)) /\
    length s' = length s /\ cstr s' = Some (take (length s - 1) out).
Proof.
  intros Hs Ho Hn. eexists. split; [by apply chsnprintf_spec|]. split.
  - rewrite length_app. simpl. rewrite length_drop, length_take. lia.
  - apply cstr_app. intros Hin. apply Hn. by eapply elem_of_take in Hin as (? & ? & _);
      eapply list_elem_of_lookup_2.
Qed.

(** [chsnprintf] into a whole object of [size > 0] bytes stays inside it whatever the
    output, leaves a terminated string, namely the output cut to [size - 1]
    characters, and returns the length the whole output has. *)
Theorem chsnprintf_bounded s fmt ap out : (0 < length s)%nat ->
  chvprintf fmt ap = Some out -> NUL ∉ out ->
  exists s', chsnprintf s (length s) fmt ap = Some (s', Z.of_nat (length out)) /\
    length s' = length s /\ cstr s' = Some (take (length s - 1) out).
Proof. apply chsnprintf_fits. Qed.

End Chprintf.
