(* ===== verification/AtCommands.v ===== *)
(** * The AT commands of [source/sim8xx/at/commands]: CGNSPWR and CGNSINF *)

From S2P Require Import Prelude CLib CDouble AtUtil Chprintf.

(** ** [AtCgnspwr.c]: the GNSS power command *)

Module AtCgnspwr.

Inductive CGNSPWR_Action_t := GNSSPWR_OFF | GNSSPWR_ON.

Definition action_int (act : CGNSPWR_Action_t) : Z :=
  match act with GNSSPWR_OFF => 0 | GNSSPWR_ON => 1 end.

(** The buffer after the call and the result.  [length] is [sizeof] of the whole
    destination at both call sites. *)
Definition atCgnspwrCreate (buf : list ascii) (length : nat) (act : CGNSPWR_Action_t)
    : option (list ascii * bool) :=
  buf ← write_prefix buf (zeros length);
  '(buf, _) ← Chprintf.chsnprintf buf length "AT+CGNSPWR=%d" [Chprintf.va_int (action_int act)];
  Some (buf, true).

Definition atCgnspwrCreateOn (buf : list ascii) (length : nat) :=
  atCgnspwrCreate buf length GNSSPWR_ON.

Definition atCgnspwrCreateOff (buf : list ascii) (length : nat) :=
  atCgnspwrCreate buf length GNSSPWR_OFF.

(** The request the modem receives, for a buffer it fits in. *)
Lemma atCgnspwrCreate_request buf act : (13 <= length buf)%nat ->
  exists buf', atCgnspwrCreate buf (length buf) act = Some (buf', true) /\
    length buf' = length buf /\
    cstr buf' = Some (str match act with
                          | GNSSPWR_ON => "AT+CGNSPWR=1"
                          | GNSSPWR_OFF => "AT+CGNSPWR=0"
                          end).
Proof.
  intros Hl. unfold atCgnspwrCreate, write_prefix, zeros.
  rewrite length_replicate, decide_True, drop_all, app_nil_r by done.
  cbn [mbind option_bind].
  set (out := str match act with
              | GNSSPWR_ON => "AT+CGNSPWR=1"
              | GNSSPWR_OFF => "AT+CGNSPWR=0" end).
  assert (Ho : Chprintf.chvprintf "AT+CGNSPWR=%d" [Chprintf.va_int (action_int act)] =
    Some out) by (by destruct act).
  assert (Hlen : length out = 12%nat) by (by destruct act).
  destruct (Chprintf.chsnprintf_fits (replicate (length buf) NUL) "AT+CGNSPWR=%d"
    [Chprintf.va_int (action_int act)] out) as (s' & E & El & Es).
  - rewrite length_replicate. lia.
  - done.
  - subst out. destruct act; compute_done.
  - rewrite length_replicate in *. rewrite E. cbn [mbind option_bind].
    exists s'. split_and!; [done|done|]. rewrite Es. by rewrite take_ge by lia.
Qed.

End AtCgnspwr.

(** ** [AtCgnsinf.c]: the GNSS navigation report *)

Module AtCgnsinf.
Import AtUtil.

Record CGNSINF_Response_t := Resp {
  runStatus : Z;
  fixStatus : Z;
  date : list ascii;
  latitude : double;
  longitude : double;
  altitude : double;
  speed : double;
  course : double;
  fixMode : Z;
  hdop : double;
  pdop : double;
  vdop : double;
  gpsSatInView : Z;
  gnssSatInUse : Z;
  gnssSatInView : Z;
  cnomax : Z;
  hpa : double;
  vpa : double
}.

(** Assignments to the members. *)
Definition set_runStatus (v : Z) (r : CGNSINF_Response_t) :=
  let '(Resp _ x1 x2 x3 x4 x5 x6 x7 x8 x9 x10 x11 x12 x13 x14 x15 x16 x17) := r in
  Resp v x1 x2 x3 x4 x5 x6 x7 x8 x9 x10 x11 x12 x13 x14 x15 x16 x17.
Definition set_fixStatus (v : Z) (r : CGNSINF_Response_t) :=
  let '(Resp x0 _ x2 x3 x4 x5 x6 x7 x8 x9 x10 x11 x12 x13 x14 x15 x16 x17) := r in
  Resp x0 v x2 x3 x4 x5 x6 x7 x8 x9 x10 x11 x12 x13 x14 x15 x16 x17.
Definition set_date (v : list ascii) (r : CGNSINF_Response_t) :=
  let '(Resp x0 x1 _ x3 x4 x5 x6 x7 x8 x9 x10 x11 x12 x13 x14 x15 x16 x17) := r in
  Resp x0 x1 v x3 x4 x5 x6 x7 x8 x9 x10 x11 x12 x13 x14 x15 x16 x17.
Definition set_latitude (v : double) (r : CGNSINF_Response_t) :=
  let '(Resp x0 x1 x2 _ x4 x5 x6 x7 x8 x9 x10 x11 x12 x13 x14 x15 x16 x17) := r in
  Resp x0 x1 x2 v x4 x5 x6 x7 x8 x9 x10 x11 x12 x13 x14 x15 x16 x17.
Definition set_longitude (v : double) (r : CGNSINF_Response_t) :=
  let '(Resp x0 x1 x2 x3 _ x5 x6 x7 x8 x9 x10 x11 x12 x13 x14 x15 x16 x17) := r in
  Resp x0 x1 x2 x3 v x5 x6 x7 x8 x9 x10 x11 x12 x13 x14 x15 x16 x17.
Definition set_altitude (v : double) (r : CGNSINF_Response_t) :=
  let '(Resp x0 x1 x2 x3 x4 _ x6 x7 x8 x9 x10 x11 x12 x13 x14 x15 x16 x17) := r in
  Resp x0 x1 x2 x3 x4 v x6 x7 x8 x9 x10 x11 x12 x13 x14 x15 x16 x17.
Definition set_speed (v : double) (r : CGNSINF_Response_t) :=
  let '(Resp x0 x1 x2 x3 x4 x5 _ x7 x8 x9 x10 x11 x12 x13 x14 x15 x16 x17) := r in
  Resp x0 x1 x2 x3 x4 x5 v x7 x8 x9 x10 x11 x12 x13 x14 x15 x16 x17.
Definition set_course (v : double) (r : CGNSINF_Response_t) :=
  let '(Resp x0 x1 x2 x3 x4 x5 x6 _ x8 x9 x10 x11 x12 x13 x14 x15 x16 x17) := r in
  Resp x0 x1 x2 x3 x4 x5 x6 v x8 x9 x10 x11 x12 x13 x14 x15 x16 x17.
Definition set_fixMode (v : Z) (r : CGNSINF_Response_t) :=
  let '(Resp x0 x1 x2 x3 x4 x5 x6 x7 _ x9 x10 x11 x12 x13 x14 x15 x16 x17) := r in
  Resp x0 x1 x2 x3 x4 x5 x6 x7 v x9 x10 x11 x12 x13 x14 x15 x16 x17.
Definition set_hdop (v : double) (r : CGNSINF_Response_t) :=
  let '(Resp x0 x1 x2 x3 x4 x5 x6 x7 x8 _ x10 x11 x12 x13 x14 x15 x16 x17) := r in
  Resp x0 x1 x2 x3 x4 x5 x6 x7 x8 v x10 x11 x12 x13 x14 x15 x16 x17.
Definition set_pdop (v : double) (r : CGNSINF_Response_t) :=
  let '(Resp x0 x1 x2 x3 x4 x5 x6 x7 x8 x9 _ x11 x12 x13 x14 x15 x16 x17) := r in
  Resp x0 x1 x2 x3 x4 x5 x6 x7 x8 x9 v x11 x12 x13 x14 x15 x16 x17.
Definition set_vdop (v : double) (r : CGNSINF_Response_t) :=
  let '(Resp x0 x1 x2 x3 x4 x5 x6 x7 x8 x9 x10 _ x12 x13 x14 x15 x16 x17) := r in
  Resp x0 x1 x2 x3 x4 x5 x6 x7 x8 x9 x10 v x12 x13 x14 x15 x16 x17.
Definition set_gpsSatInView (v : Z) (r : CGNSINF_Response_t) :=
  let '(Resp x0 x1 x2 x3 x4 x5 x6 x7 x8 x9 x10 x11 _ x13 x14 x15 x16 x17) := r in
  Resp x0 x1 x2 x3 x4 x5 x6 x7 x8 x9 x10 x11 v x13 x14 x15 x16 x17.
Definition set_gnssSatInUse (v : Z) (r : CGNSINF_Response_t) :=
  let '(Resp x0 x1 x2 x3 x4 x5 x6 x7 x8 x9 x10 x11 x12 _ x14 x15 x16 x17) := r in
  Resp x0 x1 x2 x3 x4 x5 x6 x7 x8 x9 x10 x11 x12 v x14 x15 x16 x17.
Definition set_gnssSatInView (v : Z) (r : CGNSINF_Response_t) :=
  let '(Resp x0 x1 x2 x3 x4 x5 x6 x7 x8 x9 x10 x11 x12 x13 _ x15 x16 x17) := r in
  Resp x0 x1 x2 x3 x4 x5 x6 x7 x8 x9 x10 x11 x12 x13 v x15 x16 x17.
Definition set_cnomax (v : Z) (r : CGNSINF_Response_t) :=
  let '(Resp x0 x1 x2 x3 x4 x5 x6 x7 x8 x9 x10 x11 x12 x13 x14 _ x16 x17) := r in
  Resp x0 x1 x2 x3 x4 x5 x6 x7 x8 x9 x10 x11 x12 x13 x14 v x16 x17.
Definition set_hpa (v : double) (r : CGNSINF_Response_t) :=
  let '(Resp x0 x1 x2 x3 x4 x5 x6 x7 x8 x9 x10 x11 x12 x13 x14 x15 _ x17) := r in
  Resp x0 x1 x2 x3 x4 x5 x6 x7 x8 x9 x10 x11 x12 x13 x14 x15 v x17.
Definition set_vpa (v : double) (r : CGNSINF_Response_t) :=
  let '(Resp x0 x1 x2 x3 x4 x5 x6 x7 x8 x9 x10 x11 x12 x13 x14 x15 x16 _) := r in
  Resp x0 x1 x2 x3 x4 x5 x6 x7 x8 x9 x10 x11 x12 x13 x14 x15 x16 v.

(** [memset(pdata, 0, sizeof( *pdata))] *)
Definition resp_zero : CGNSINF_Response_t :=
  Resp 0 0 (zeros 19) d_zero d_zero d_zero d_zero d_zero 0 d_zero d_zero d_zero
    0 0 0 0 d_zero d_zero.

Definition atCgnsinfCreate (buf : list ascii) (length : nat) : option (list ascii * bool) :=
  buf' ← strncpy buf (str "AT+CGNSINF" ++ [NUL]) 0 length;
  Some (buf', true).

(** The parser's variables: the buffer, the cursor [start] and [*pdata].  A step of
    the parser says [false] when it makes the function return [false]. *)
Record pstate := PState { ps_buf : list ascii; ps_start : nat; ps_data : CGNSINF_Response_t }.

Definition pstep := pstate -> option (pstate * bool).

(** [if (start < strEnd) { ... }] *)
Definition guarded (strEnd : nat) (m : pstep) : pstep := fun ps =>
  if decide (ps_start ps < strEnd)%nat then m ps else Some (ps, true).

(** [if (!atGetNextInt(&start, &pdata->field, delim)) return false;] *)
Definition get_int (set : Z -> CGNSINF_Response_t -> CGNSINF_Response_t) (delim : ascii)
    : pstep := fun '(PState b start d) =>
  r ← atGetNextInt b start delim;
  match r with
  | (b, None) => Some (PState b start d, false)
  | (b, Some (v, start)) => Some (PState b start (set v d), true)
  end.

Definition get_double (set : double -> CGNSINF_Response_t -> CGNSINF_Response_t)
    (delim : ascii) : pstep := fun '(PState b start d) =>
  r ← atGetNextDouble b start delim;
  match r with
  | (b, None) => Some (PState b start d, false)
  | (b, Some (v, start)) => Some (PState b start (set v d), true)
  end.

(** [sizeof(pdata->date)] is 19. *)
Definition get_date (delim : ascii) : pstep := fun '(PState b start d) =>
  r ← atGetNextString b start (date d) 19 delim;
  match r with
  | (b, None) => Some (PState b start d, false)
  | (b, Some (v, start)) => Some (PState b start (set_date v d), true)
  end.

(** [atSkipReserved(&start, 1, delim);], whose result is not looked at. *)
Definition skip_reserved (delim : ascii) : pstep := fun '(PState b start d) =>
  r ← atSkipReserved b start 1 delim;
  let '(_, start) := r in
  Some (PState b start d, true).

(** One statement after the other, up to the first [return false]. *)
Fixpoint run_steps (strEnd : nat) (ms : list pstep) (ps : pstate) : option (pstate * bool) :=
  match ms with
  | [] => Some (ps, true)
  | m :: ms =>
      r ← guarded strEnd m ps;
      let '(ps, ok) := r in
      if (ok : bool) then run_steps strEnd ms ps else Some (ps, false)
  end.

Definition comma : ascii := ","%char.

(** The statements after the header, in order. *)
Definition parse_steps : list pstep :=
  [ get_int set_runStatus comma;
    get_int set_fixStatus comma;
    get_date comma;
    get_double set_latitude comma;
    get_double set_longitude comma;
    get_double set_altitude comma;
    get_double set_speed comma;
    get_double set_course comma;
    get_int set_fixMode comma;
    skip_reserved comma;
    get_double set_hdop comma;
    get_double set_pdop comma;
    get_double set_vdop comma;
    skip_reserved comma;
    get_int set_gpsSatInView comma;
    get_int set_gnssSatInUse comma;
    get_int set_gnssSatInView comma;
    skip_reserved comma;
    get_int set_cnomax comma;
    get_double set_hpa comma;
    get_double set_vpa CR ].

(** The buffer after the call, [*pdata] and the result. *)
Definition atCgnsinfParse (b : list ascii) : option (list ascii * CGNSINF_Response_t * bool) :=
  strEnd ← strlen b 0;
  start ← strchr b 0 " "%char;
  match start with
  | None => Some (b, resp_zero, false)
  | Some start =>
      r ← run_steps strEnd parse_steps (PState b (S start) resp_zero);
      let '(PState b _ d, ok) := r in
      Some (b, d, ok)
  end.
(** ** What a step does on a terminated field *)

(** [step_on c u m]: [m] consumes one field terminated by [c] and updates the data
    by [u]; without the delimiter it fails or, for a reserved field, does nothing. *)
Record step_on (c : ascii) (u : list ascii -> CGNSINF_Response_t -> CGNSINF_Response_t)
    (may_fail : bool) (m : pstep) : Prop := {
  so_delim : c <> NUL;
  so_date s d : length (date d) = 19%nat -> length (date (u s d)) = 19%nat;
  so_field b p s1 s2 d : cstr_at b p = Some (s1 ++ c :: s2) -> c ∉ s1 ->
    length (date d) = 19%nat ->
    m (PState b p d) = Some (PState b (S (p + length s1)) (u s1 d), true);
  so_last b p s d : cstr_at b p = Some s -> c ∉ s ->
    m (PState b p d) = Some (PState b p d, negb may_fail)
}.

Lemma get_int_on set c : c <> NUL ->
  (forall v d, date (set v d) = date d) ->
  step_on c (fun s => set (strtol_l s)) true (get_int set c).
Proof.
  intros Hc Hd. split; [done| | |].
  - intros. by rewrite Hd.
  - intros. simpl. by erewrite atGetNextInt_field.
  - intros. simpl. rewrite atGetNextInt_getNext. by erewrite getNext_last.
Qed.

Lemma get_double_on set c : c <> NUL ->
  (forall v d, date (set v d) = date d) ->
  step_on c (fun s => set (ascii_to_double s)) true (get_double set c).
Proof.
  intros Hc Hd. split; [done| | |].
  - intros. by rewrite Hd.
  - intros. simpl. by erewrite atGetNextDouble_field.
  - intros. simpl. rewrite atGetNextDouble_getNext. by erewrite getNext_last.
Qed.

Lemma get_date_on c : c <> NUL ->
  step_on c (fun s => set_date (field_bytes s 19)) true (get_date c).
Proof.
  intros Hc. split; [done| | |].
  - intros s [] _. apply field_bytes_length.
  - intros. cbn [get_date]. by erewrite atGetNextString_field.
  - intros. cbn [get_date]. rewrite atGetNextString_getNext. by erewrite getNext_last.
Qed.

Lemma skip_reserved_on c : c <> NUL -> step_on c (fun _ d => d) false (skip_reserved c).
Proof.
  intros Hc. split; [done|done| |].
  - intros. cbn [skip_reserved]. by erewrite atSkipReserved_field.
  - intros. cbn [skip_reserved atSkipReserved]. by erewrite strchr_absent.
Qed.

(** The delimiter, the update and the failure mode of each statement. *)
Definition update := list ascii -> CGNSINF_Response_t -> CGNSINF_Response_t.
Definition field_specs : list (ascii * update * bool) :=
  let int set : ascii * update * bool := (comma, fun s => set (strtol_l s), true) in
  let dbl set : ascii * update * bool := (comma, fun s => set (ascii_to_double s), true) in
  let res : ascii * update * bool := (comma, fun _ d => d, false) in
  [ int set_runStatus; int set_fixStatus; (comma, fun s => set_date (field_bytes s 19), true);
    dbl set_latitude; dbl set_longitude; dbl set_altitude; dbl set_speed; dbl set_course;
    int set_fixMode; res; dbl set_hdop; dbl set_pdop; dbl set_vdop; res;
    int set_gpsSatInView; int set_gnssSatInUse; int set_gnssSatInView; res;
    int set_cnomax; dbl set_hpa; (CR, fun s => set_vpa (ascii_to_double s), true) ].

Definition steps_on (ms : list pstep) (sp : list (ascii * update * bool)) : Prop :=
  Forall2 (fun m '(c, u, f) => step_on c u f m) ms sp.

Lemma parse_steps_on : steps_on parse_steps field_specs.
Proof.
  unfold steps_on, parse_steps, field_specs.
  repeat (constructor;
    [ first [ apply get_int_on; [done | by intros v []]
            | apply get_double_on; [done | by intros v []]
            | by apply get_date_on
            | by apply skip_reserved_on ] | ]).
  constructor.
Qed.

(** The delimiters of the report's 21 fields, in order. *)
Definition delims : list ascii := replicate 20 comma ++ [CR].

(** The text of a list of fields, each followed by its delimiter. *)
Fixpoint render (cs : list ascii) (fs : list (list ascii)) : list ascii :=
  match cs, fs with
  | c :: cs, f :: fs => f ++ c :: render cs fs
  | _, _ => []
  end.

(** No field contains the delimiter that ends it. *)
Definition clean (cs : list ascii) (fs : list (list ascii)) : Prop :=
  Forall2 (fun c f => c ∉ f) (take (length fs) cs) fs.

#[global] Instance clean_dec cs fs : Decision (clean cs fs).
Proof. unfold clean. apply Forall2_dec. intros c f. exact _. Defined.

Definition spec_delims (sp : list (ascii * update * bool)) : list ascii :=
  (fun '(c, _, _) => c) <$> sp.

Lemma delims_specs : spec_delims field_specs = delims.
Proof. reflexivity. Qed.

Definition apply_fields (sp : list (ascii * update * bool)) (fs : list (list ascii))
    (d : CGNSINF_Response_t) : CGNSINF_Response_t :=
  fold_left (fun d '((_, u, _), f) => u f d) (zip sp fs) d.

Section steps.
Context (b : list ascii) (strEnd : nat) (Hend : strlen b 0 = Some strEnd).

Lemma strEnd_cstr p s : (p <= strEnd)%nat -> cstr_at b p = Some s ->
  strEnd = (p + length s)%nat.
Proof.
  intros Hp Hs. unfold strlen in Hend. apply fmap_Some in Hend as (s0 & E & ->).
  pose proof (cstr_at_add b 0 p s0 E Hp) as E2. simpl in E2. rewrite E2 in Hs.
  simplify_eq. rewrite length_drop. lia.
Qed.

(** The statements of complete fields succeed and update the data in order. *)
Lemma run_steps_fields fs : forall ms sp p d tail,
  steps_on ms sp -> (length fs <= length sp)%nat -> clean (spec_delims sp) fs ->
  (p <= strEnd)%nat -> cstr_at b p = Some (render (spec_delims sp) fs ++ tail) ->
  length (date d) = 19%nat ->
  run_steps strEnd ms (PState b p d) =
    run_steps strEnd (drop (length fs) ms)
      (PState b (p + length (render (spec_delims sp) fs)) (apply_fields sp fs d)) /\
  length (date (apply_fields sp fs d)) = 19%nat.
Proof.
  induction fs as [|f fs IH]; intros ms sp p d tail Hms Hlen Hclean Hp Hb Hd.
  { unfold apply_fields. destruct sp as [|[[? ?] ?]]; simpl; by rewrite Nat.add_0_r. }
  destruct sp as [|[[c u] mf] sp]; [simpl in Hlen; lia|].
  inversion Hms as [|m ? ms' ? Hm Hms']; subst.
  inversion Hclean as [|? ? ? ? Hc Hclean']; subst.
  simpl in Hb. rewrite <- app_assoc in Hb. simpl in Hb.
  pose proof (strEnd_cstr p _ Hp Hb) as HE. rewrite length_app in HE. simpl in HE.
  pose proof (cstr_at_next _ _ _ _ _ Hb) as Hnext.
  destruct (IH ms' sp (S (p + length f)) (u f d) tail) as [H1 H2];
    [done|simpl in Hlen; lia|done|lia|done|by eapply so_date|].
  simpl. unfold guarded at 1. simpl. rewrite decide_True by lia.
  rewrite (so_field _ _ _ _ Hm b p f _ d Hb Hc Hd). cbn [mbind option_bind].
  rewrite H1. split; [|done].
  replace (p + length (f ++ c :: render (spec_delims sp) fs))%nat
    with (S (p + length f) + length (render (spec_delims sp) fs))%nat; [done|].
  rewrite length_app. simpl. lia.
Qed.

(** On any buffer the statements run without a fault, restore the buffer and keep
    the cursor inside the string. *)
Lemma run_steps_safe ms : forall sp p s d, steps_on ms sp ->
  (p <= strEnd)%nat -> cstr_at b p = Some s -> length (date d) = 19%nat ->
  exists p' d' ok, run_steps strEnd ms (PState b p d) = Some (PState b p' d', ok) /\
    length (date d') = 19%nat.
Proof.
  induction ms as [|m ms IH]; intros sp p s d Hms Hp Hs Hd; [simpl; eauto 6|].
  inversion Hms as [|? [[c u] mf] ? sp' Hm Hms']; subst. simpl.
  unfold guarded at 1. case_decide; simpl; [|by eapply IH].
  pose proof (strEnd_cstr p _ Hp Hs) as HE.
  destruct (split_first c s) as [Hc|(s1 & s2 & -> & Hc)].
  - rewrite (so_last _ _ _ _ Hm b p s d Hs Hc). simpl.
    destruct mf; simpl; [eauto 6|]. by eapply IH.
  - rewrite (so_field _ _ _ _ Hm b p s1 s2 d Hs Hc Hd). simpl.
    rewrite length_app in HE. simpl in HE.
    eapply (IH sp'); [done|lia|by eapply cstr_at_next|by eapply so_date].
Qed.
End steps.

(** A header without a space, then the space. *)
Lemma header_found b hdr s : cstr_at b 0 = Some (hdr ++ " "%char :: s) -> " "%char ∉ hdr ->
  strlen b 0 = Some (length hdr + S (length s))%nat /\
  strchr b 0 " "%char = Some (Some (length hdr)) /\
  cstr_at b (S (length hdr)) = Some s.
Proof.
  intros H Hh. repeat split.
  - unfold strlen. rewrite H. simpl. by rewrite length_app.
  - by rewrite (strchr_found _ _ _ _ _ H Hh).
  - exact (cstr_at_next _ _ _ _ _ H).
Qed.

(** The parser on a report whose first [length fs] fields are complete. *)
Lemma atCgnsinfParse_fields b hdr fs tail :
  cstr_at b 0 = Some (hdr ++ " "%char :: render delims fs ++ tail) ->
  " "%char ∉ hdr -> (length fs <= 21)%nat -> clean delims fs ->
  exists strEnd, strlen b 0 = Some strEnd /\
    strEnd = (S (length hdr) + length (render delims fs) + length tail)%nat /\
    length (date (apply_fields field_specs fs resp_zero)) = 19%nat /\
    atCgnsinfParse b =
      '(PState b' _ d, ok) ← run_steps strEnd (drop (length fs) parse_steps)
        (PState b (S (length hdr) + length (render delims fs))
           (apply_fields field_specs fs resp_zero));
      Some (b', d, ok).
Proof.
  intros Hb Hh Hl Hc. destruct (header_found _ _ _ Hb Hh) as (E1 & E2 & E3).
  rewrite length_app in E1. eexists. split; [exact E1|]. split; [lia|].
  destruct (run_steps_fields b _ E1 fs parse_steps field_specs (S (length hdr))
    resp_zero tail) as [H1 H2]; try done;
    [apply parse_steps_on|lia|].
  rewrite delims_specs in H1. split; [done|]. unfold atCgnsinfParse. rewrite E1, E2.
  cbn [mbind option_bind]. rewrite H1.
  by destruct (run_steps _ _ _) as [[[] ?]|].
Qed.

(** The record a complete report denotes. *)
Definition report (fs : list (list ascii)) : CGNSINF_Response_t :=
  let f i := nth i fs [] in
  let int i := strtol_l (f i) in
  let dbl i := ascii_to_double (f i) in
  {| runStatus := int 0%nat; fixStatus := int 1%nat; date := field_bytes (f 2%nat) 19;
     latitude := dbl 3%nat; longitude := dbl 4%nat; altitude := dbl 5%nat;
     speed := dbl 6%nat; course := dbl 7%nat; fixMode := int 8%nat;
     hdop := dbl 10%nat; pdop := dbl 11%nat; vdop := dbl 12%nat;
     gpsSatInView := int 14%nat; gnssSatInUse := int 15%nat; gnssSatInView := int 16%nat;
     cnomax := int 18%nat; hpa := dbl 19%nat; vpa := dbl 20%nat |}.

Lemma report_apply fs : length fs = 21%nat -> apply_fields field_specs fs resp_zero = report fs.
Proof. intros H. do 21 (destruct fs as [|? fs]; [done|]). by destruct fs. Qed.

(** ** Properties *)

(** C3: A complete CGNSINF report is parsed into the record it denotes: whatever
    comes before the first space (the echo and the name of the response) and after
    the 21st field (blank line and [OK]), each of the 18 members is the value of its
    own field, the three reserved fields are skipped, the result is [true] and the
    buffer, which the parser cuts with temporary terminators, is as before. *)
Theorem atCgnsinfParse_report b hdr fs tail :
  cstr_at b 0 = Some (hdr ++ " "%char :: render delims fs ++ tail) ->
  " "%char ∉ hdr -> length fs = 21%nat -> clean delims fs ->
  atCgnsinfParse b = Some (b, report fs, true).
Proof.
  intros Hb Hh Hl Hc.
  destruct (atCgnsinfParse_fields b hdr fs tail Hb Hh ltac:(lia) Hc)
    as (strEnd & _ & _ & _ & ->).
  rewrite Hl, report_apply by done. done.
Qed.

(** C39: The parser is total and memory safe on any terminated string: no access
    leaves the buffer, the buffer is restored whatever the result, and the [date]
    member always holds exactly its 19 bytes. *)
Theorem atCgnsinfParse_safe b s : cstr_at b 0 = Some s ->
  exists d ok, atCgnsinfParse b = Some (b, d, ok) /\ length (date d) = 19%nat.
Proof.
  intros Hs. unfold atCgnsinfParse, strlen. rewrite Hs. cbn [fmap option_fmap option_map].
  cbn [mbind option_bind].
  destruct (split_first " "%char s) as [Hn|(hdr & r & -> & Hh)].
  - rewrite (strchr_absent _ _ _ _ Hs) by done. simpl. eauto.
  - destruct (header_found _ _ _ Hs Hh) as (E1 & -> & E3). cbn [mbind option_bind].
    assert (HE : strlen b 0 = Some (length (hdr ++ " "%char :: r)))
      by (unfold strlen; by rewrite Hs).
    destruct (run_steps_safe b _ HE parse_steps field_specs (S (length hdr)) r resp_zero)
      as (p' & d' & ok & -> & Hd); try done; [apply parse_steps_on| |simpl; eauto].
    rewrite length_app. simpl. lia.
Qed.

(** A report cut inside a field that is not reserved is an error: the result is
    [false], the members of the complete fields are assigned and the others are
    zero (and the buffer is restored). *)
Theorem atCgnsinfParse_truncated b hdr fs rest c u :
  cstr_at b 0 = Some (hdr ++ " "%char :: render delims fs ++ rest) ->
  " "%char ∉ hdr -> clean delims fs ->
  field_specs !! length fs = Some (c, u, true) -> rest <> [] -> c ∉ rest ->
  atCgnsinfParse b = Some (b, apply_fields field_specs fs resp_zero, false).
Proof.
  intros Hb Hh Hcl Hc Hr Hin. pose proof (lookup_lt_Some _ _ _ Hc) as Hl. simpl in Hl.
  destruct (atCgnsinfParse_fields b hdr fs rest Hb Hh ltac:(lia) Hcl)
    as (strEnd & E1 & HE & Hd & ->).
  destruct (Forall2_lookup_r _ _ _ _ _ parse_steps_on Hc) as (m & Hm & Hon).
  simpl in Hon. rewrite (drop_S _ _ _ Hm). cbn [run_steps]. unfold guarded at 1.
  cbn [ps_start]. destruct rest as [|x rest]; [done|].
  cbn [length] in HE.
  rewrite decide_True by lia.
  rewrite (so_last _ _ _ _ Hon b _ (x :: rest)); [done| |done].
  destruct (header_found _ _ _ Hb Hh) as (_ & _ & E3).
  rewrite (cstr_at_add _ _ _ _ E3) by (rewrite length_app; lia).
  by rewrite drop_app_length.
Qed.

End AtCgnsinf.
