(* ===== verification/Prog.v ===== *)
(** * Effectful code: critical sections and thread programs

    [M S A] is a piece of code that runs without interruption: a state transformer on
    [S] that may be undefined ([None]).  [prog S A] is the code of a thread: such
    pieces ([Atom]) in sequence, the points where others run ([Yield]: the kernel has
    switched to another thread, or the thread has enabled the interrupts) and the
    unbounded loops of the code ([Loop]).  [run] executes a program up to its next
    yield and computes; [exec] is its big-step semantics among others and [wp] the
    program logic: no undefined behaviour, a guarantee at every yield and a
    postcondition, under a rely on what the others do. *)

From S2P Require Import Prelude.

(** ** State transformers *)

Definition M (S A : Type) : Type := S -> option (A * S).

Section monad.
Context {S : Type}.

#[global] Instance M_ret : MRet (M S) := fun A a s => Some (a, s).
#[global] Instance M_bind : MBind (M S) := fun A B k m s =>
  match m s with
  | Some (a, s') => k a s'
  | None => None
  end.
#[global] Instance M_fmap : FMap (M S) := fun A B f m s =>
  match m s with
  | Some (a, s') => Some (f a, s')
  | None => None
  end.

Definition get : M S S := fun s => Some (s, s).
Definition gets {A} (f : S -> A) : M S A := fun s => Some (f s, s).
Definition modify (f : S -> S) : M S unit := fun s => Some (tt, f s).
(** A value that must exist: a dereference. *)
Definition deref {A} (f : S -> option A) : M S A := fun s =>
  match f s with Some a => Some (a, s) | None => None end.
Definition update (f : S -> option S) : M S unit := fun s =>
  match f s with Some s' => Some (tt, s') | None => None end.
Definition undefined {A} : M S A := fun _ => None.

(** One call per element, in order. *)
Fixpoint mapM_ {A} (f : A -> M S unit) (l : list A) : M S unit :=
  match l with
  | [] => mret tt
  | x :: l => f x;; mapM_ f l
  end.

Lemma bind_run {A B} (m : M S A) (k : A -> M S B) s :
  (m ≫= k) s = match m s with Some (a, s') => k a s' | None => None end.
Proof. reflexivity. Qed.

Lemma bind_inv {A B} (m : M S A) (k : A -> M S B) s b s2 :
  (m ≫= k) s = Some (b, s2) ->
  exists a s1, m s = Some (a, s1) /\ k a s1 = Some (b, s2).
Proof.
  rewrite bind_run. destruct (m s) as [[a s1]|]; [eauto|done].
Qed.

Lemma run_assoc {A B C} (m : M S A) (f : A -> M S B) (g : B -> M S C) s :
  ((m ≫= f) ≫= g) s = (m ≫= fun a => f a ≫= g) s.
Proof. rewrite !bind_run. by destruct (m s) as [[??]|]. Qed.
Lemma run_ret {A B} (a : A) (k : A -> M S B) s : (mret a ≫= k) s = k a s.
Proof. reflexivity. Qed.
Lemma run_get {B} (k : S -> M S B) s : (get ≫= k) s = k s s.
Proof. reflexivity. Qed.
Lemma run_gets {A B} (f : S -> A) (k : A -> M S B) s : (gets f ≫= k) s = k (f s) s.
Proof. reflexivity. Qed.
Lemma run_modify {B} (f : S -> S) (k : unit -> M S B) s : (modify f ≫= k) s = k tt (f s).
Proof. reflexivity. Qed.
Lemma run_deref {A B} (f : S -> option A) (k : A -> M S B) s a :
  f s = Some a -> (deref f ≫= k) s = k a s.
Proof. intros E. rewrite bind_run. unfold deref. by rewrite E. Qed.
Lemma run_update {B} (f : S -> option S) (k : unit -> M S B) s s' :
  f s = Some s' -> (update f ≫= k) s = k tt s'.
Proof. intros E. rewrite bind_run. unfold update. by rewrite E. Qed.
(** A call with a known result. *)
Lemma run_call {A B} (m : M S A) (k : A -> M S B) s a s' :
  m s = Some (a, s') -> (m ≫= k) s = k a s'.
Proof. intros E. by rewrite bind_run, E. Qed.

(** A transformer keeps an invariant. *)
Definition keeps {A} (I : S -> Prop) (m : M S A) : Prop :=
  forall s a s', I s -> m s = Some (a, s') -> I s'.

Lemma keeps_ret {A} I (a : A) : keeps I (mret a).
Proof. by intros s b s' HI [= <- <-]. Qed.

Lemma keeps_bind {A B} I (m : M S A) (k : A -> M S B) :
  keeps I m -> (forall a, keeps I (k a)) -> keeps I (m ≫= k).
Proof.
  intros Hm Hk s b s2 HI (a & s1 & H1 & H2)%bind_inv. eapply Hk, H2. by eapply Hm.
Qed.

Lemma keeps_gets {A} I (f : S -> A) : keeps I (gets f).
Proof. by intros s b s' HI [= <- <-]. Qed.

Lemma keeps_deref {A} I (f : S -> option A) : keeps I (deref f).
Proof. intros s b s' HI. unfold deref. destruct (f s); [|done]. by intros [= <- <-]. Qed.

Lemma keeps_modify (I : S -> Prop) f : (forall s, I s -> I (f s)) -> keeps I (modify f).
Proof. intros H s b s' HI [= <- <-]. auto. Qed.

Lemma keeps_mapM {A} I (f : A -> M S unit) l :
  (forall x, keeps I (f x)) -> keeps I (mapM_ f l).
Proof.
  intros Hf. induction l; simpl; [apply keeps_ret|by apply keeps_bind].
Qed.
End monad.

(** Run the first operations of a transformer. *)
Ltac msimpl :=
  repeat first
    [ progress cbv beta
    | rewrite run_assoc | rewrite run_ret | rewrite run_get | rewrite run_gets
    | rewrite run_modify
    | erewrite run_deref by (first [eassumption | reflexivity])
    | erewrite run_update by (first [eassumption | reflexivity]) ].

#[global] Arguments M_bind : simpl never.
#[global] Arguments M_ret : simpl never.

(** ** State components *)

(** A type of states of which [K] is a component: the kernel in the application, one
    driver in the board. *)
Class Component (S K : Type) := {
  proj : S -> K;
  inj : K -> S -> S;
  proj_inj k s : proj (inj k s) = k;
  inj_proj s : inj (proj s) s = s;
  inj_inj k k' s : inj k (inj k' s) = inj k s
}.

(** Two components that do not overlap. *)
Class Apart (S A B : Type) `{!Component S A, !Component S B} := {
  apart_l (a : A) (s : S) : proj (K := B) (inj a s) = proj s;
  apart_r (b : B) (s : S) : proj (K := A) (inj b s) = proj s;
  apart_comm (a : A) (b : B) (s : S) : inj a (inj b s) = inj b (inj a s)
}.

(** The component in the state, read and changed. *)
Definition view {S K} `{!Component S K} : M S K := gets proj.
Definition put {S K} `{!Component S K} (k : K) : M S unit := modify (inj k).
Definition alter {S K} `{!Component S K} (f : K -> K) : M S unit :=
  modify (fun s => inj (f (proj s)) s).

(** The code of a component, run in the whole. *)
Definition liftM {S K A} `{!Component S K} (m : M K A) : M S A := fun s =>
  match m (proj s) with
  | Some (a, k) => Some (a, inj k s)
  | None => None
  end.

(** ** Thread programs *)

(** Why others run: [chSysSwitch] was called and the thread is not the current one any
    more, or the thread left a critical section. *)
Inductive why := switched | unlocked.

Inductive prog (S : Type) : Type -> Type :=
  | Ret {A} (a : A) : prog S A
  | Bind {A B} (p : prog S A) (k : A -> prog S B) : prog S B
  | Atom {A} (m : M S A) : prog S A
  | Yield (w : why) : prog S unit
  | Loop {X A} (body : X -> prog S (X + A)) (x : X) : prog S A.
Arguments Ret {S A} a.
Arguments Bind {S A B} p k.
Arguments Atom {S A} m.
Arguments Yield {S} w.
Arguments Loop {S X A} body x.

#[global] Instance prog_ret {S} : MRet (prog S) := fun A a => Ret a.
#[global] Instance prog_bind {S} : MBind (prog S) := fun A B k p => Bind p k.

Abbreviation Switch := (Yield switched).

(** [chSysLock(); p; chSysUnlock();] *)
Definition locked {S A} (p : prog S A) : prog S A := a ← p; Yield unlocked;; mret a.

(** What one piece of execution ends with: the result, or the rest of the program;
    [More] at the end of a loop's turn, [Yielded] where others run. *)
Inductive outcome (S A : Type) : Type :=
  | Done (a : A)
  | More (p : prog S A)
  | Yielded (w : why) (p : prog S A).
Arguments Done {S A} a.
Arguments More {S A} p.
Arguments Yielded {S A} w p.

Definition loop_next {S X A} (body : X -> prog S (X + A)) (r : X + A) : prog S A :=
  match r with inl x => Loop body x | inr a => Ret a end.

Fixpoint run {S A} (p : prog S A) : S -> option (outcome S A * S) :=
  match p with
  | Ret a => fun s => Some (Done a, s)
  | Bind p k => fun s =>
      match run p s with
      | Some (Done a, s') => run (k a) s'
      | Some (More p', s') => Some (More (Bind p' k), s')
      | Some (Yielded w p', s') => Some (Yielded w (Bind p' k), s')
      | None => None
      end
  | Atom m => fun s =>
      match m s with
      | Some (a, s') => Some (Done a, s')
      | None => None
      end
  | Yield w => fun s => Some (Yielded w (Ret tt), s)
  | Loop body x => fun s =>
      match run (body x) s with
      | Some (Done (inl x'), s') => Some (More (Loop body x'), s')
      | Some (Done (inr a), s') => Some (Done a, s')
      | Some (More p', s') => Some (More (Bind p' (loop_next body)), s')
      | Some (Yielded w p', s') => Some (Yielded w (Bind p' (loop_next body)), s')
      | None => None
      end
  end.

(** At most [n] turns of loops, to the end or to the next yield. *)
Fixpoint runs {S A} (n : nat) (p : prog S A) (s : S) : option (outcome S A * S) :=
  match run p s with
  | Some (More p', s') => match n with O => Some (More p', s') | Datatypes.S n => runs n p' s' end
  | r => r
  end.

(** The program of a component, run in the whole. *)
Fixpoint lift {S K A} `{!Component S K} (p : prog K A) : prog S A :=
  match p with
  | Ret a => Ret a
  | Bind p k => Bind (lift p) (fun a => lift (k a))
  | Atom m => Atom (liftM m)
  | Yield w => Yield w
  | Loop body x => Loop (fun x => lift (body x)) x
  end.

(** ** One thread among others

    [exec R p s a s']: the program [p] started in [s] by the running thread returns
    [a] in [s'], when [R] describes what others do at a yield. *)

Inductive loop_exec {S X A} (body : X -> S -> X + A -> S -> Prop)
    : X -> S -> A -> S -> Prop :=
  | loop_more x s x' s1 a s2 :
      body x s (inl x') s1 -> loop_exec body x' s1 a s2 -> loop_exec body x s a s2
  | loop_done x s a s1 : body x s (inr a) s1 -> loop_exec body x s a s1.
#[global] Hint Constructors loop_exec : core.

(** An invariant [J] of the loop's variable and the state. *)
Lemma loop_exec_inv {S X A} (J : X -> S -> Prop) (Q : A -> S -> Prop)
    (body : X -> S -> X + A -> S -> Prop) :
  (forall x s r s', J x s -> body x s r s' ->
     match r with inl x' => J x' s' | inr a => Q a s' end) ->
  forall x s a s', J x s -> loop_exec body x s a s' -> Q a s'.
Proof.
  intros Hb x s a s' HJ. induction 1 as [x s x' s1 a s2 H1 H2 IH|x s a s1 H1].
  - apply IH. exact (Hb _ _ _ _ HJ H1).
  - exact (Hb _ _ _ _ HJ H1).
Qed.

Fixpoint exec {S A} (R : why -> S -> S -> Prop) (p : prog S A) : S -> A -> S -> Prop :=
  match p with
  | Ret a => fun s b s' => b = a /\ s' = s
  | Bind p k => fun s b s2 => exists a s1, exec R p s a s1 /\ exec R (k a) s1 b s2
  | Atom m => fun s a s' => m s = Some (a, s')
  | Yield w => fun s _ s' => R w s s'
  | Loop body x => loop_exec (fun x => exec R (body x)) x
  end.

(** What the running thread's program does up to a yield is an execution. *)
Lemma run_exec {S A} (R : why -> S -> S -> Prop) (p : prog S A) : forall s o s1,
  run p s = Some (o, s1) ->
  match o with
  | Done a => exec R p s a s1
  | More p' => forall a s2, exec R p' s1 a s2 -> exec R p s a s2
  | Yielded w p' => forall s1' a s2, R w s1 s1' -> exec R p' s1' a s2 -> exec R p s a s2
  end.
Proof.
  induction p as [A a|A B p IHp k IHk|A m|w|X A body IH x]; intros s o s1 H; simpl in H.
  - by simplify_eq.
  - destruct (run p s) as [[[a|p'|w p'] s']|] eqn:E; [| | |done]; apply IHp in E.
    + apply IHk in H. destruct o; simpl; eauto.
    + simplify_eq. intros b s2 (a & s3 & H1 & H2). simpl. eauto.
    + simplify_eq. intros s1' b s2 HR (a & s3 & H1 & H2). simpl. eauto.
  - destruct (m s) as [[a s']|] eqn:E; [|done]. by simplify_eq.
  - simplify_eq. intros s1' [] s2 HR [_ ->]. done.
  - destruct (run (body x) s) as [[[[x'|a]|p'|w p'] s']|] eqn:E; simplify_eq; apply IH in E.
    + simpl. eauto.
    + simpl. eauto.
    + intros a s2 ([x'|b] & s3 & H1 & H2); simpl in *; [eauto|].
      destruct H2 as [-> ->]. eauto.
    + intros s1' a s2 HR ([x'|b] & s3 & H1 & H2); simpl in *; [eauto|].
      destruct H2 as [-> ->]. eauto.
Qed.

(** Nobody else does anything while the thread is runnable. *)
Definition alone {S} (w : why) (s s' : S) : Prop := w = unlocked /\ s' = s.

(** An executable instance of [exec]: the others are a function of the state. *)
Fixpoint drive {S A} (others : why -> S -> S) (n : nat) (p : prog S A) (s : S) : option (A * S) :=
  match n with
  | O => None
  | Datatypes.S n =>
      match run p s with
      | Some (Done a, s') => Some (a, s')
      | Some (More p', s') => drive others n p' s'
      | Some (Yielded w p', s') => drive others n p' (others w s')
      | None => None
      end
  end.

Lemma drive_exec {S A} (R : why -> S -> S -> Prop) others n : forall (p : prog S A) s a s',
  (forall w s, R w s (others w s)) -> drive others n p s = Some (a, s') -> exec R p s a s'.
Proof.
  induction n as [|n IH]; intros p s a s' HR; simpl; [done|].
  destruct (run p s) as [[[b|p'|w p'] s1]|] eqn:E; [| | |done]; apply (run_exec R) in E.
  - by intros [= <- <-].
  - intros H. by eapply E, IH.
  - intros H. eapply E; [apply HR|by apply IH].
Qed.

(** [f] is left alone. *)
Definition same {S X} (f : S -> X) (s s' : S) : Prop := f s' = f s.
#[global] Instance same_preorder {S X} (f : S -> X) : PreOrder (same f).
Proof. split; [done|]. intros s1 s2 s3 H1 H2. unfold same in *. congruence. Qed.

(** A transformer does a step of [T]. *)
Definition moves {S A} (T : S -> S -> Prop) (m : M S A) : Prop :=
  forall s a s', m s = Some (a, s') -> T s s'.

Section moves.
Context {S : Type} (T : S -> S -> Prop) `{!PreOrder T}.

Lemma moves_bind {A B} (m : M S A) (k : A -> M S B) :
  moves T m -> (forall a, moves T (k a)) -> moves T (m ≫= k).
Proof.
  intros Hm Hk s b s2 (a & s1 & H1 & H2)%bind_inv. etransitivity; [by eapply Hm|by eapply Hk].
Qed.
Lemma moves_ret {A} (a : A) : moves T (mret a).
Proof. by intros s b s' [= _ <-]. Qed.
Lemma moves_gets {A} (f : S -> A) : moves T (gets f).
Proof. by intros s b s' [= _ <-]. Qed.
Lemma moves_deref {A} (f : S -> option A) : moves T (deref f).
Proof. intros s b s'. unfold deref. destruct (f s); [|done]. by intros [= _ <-]. Qed.
Lemma moves_undefined {A} : moves T (undefined (A := A)).
Proof. done. Qed.
Lemma moves_modify f : (forall s, T s (f s)) -> moves T (modify f).
Proof. by intros H s [] s' [= <-]. Qed.
Lemma moves_update f : (forall s s', f s = Some s' -> T s s') -> moves T (update f).
Proof. intros H s [] s'. unfold update. destruct (f s) eqn:E; [|done]. intros [= <-]. auto. Qed.
End moves.

(** Follow the structure of a transformer. *)
Ltac moves_tac :=
  repeat first
    [ eassumption | apply moves_bind; [exact _| |intros ?] | apply moves_ret; exact _ | apply moves_gets; exact _
    | apply moves_deref; exact _ | apply moves_undefined | solve [auto with moves nocore]
    | apply moves_modify; intros; reflexivity
    | apply moves_update; intros ?? ?; simplify_option_eq; reflexivity
    | match goal with |- moves _ (match ?x with _ => _ end) => destruct x end ].
Create HintDb moves.

(** Every piece of the program does steps of [T]. *)
Fixpoint within {S A} (T : S -> S -> Prop) (p : prog S A) : Prop :=
  match p with
  | Ret _ => True
  | Bind p k => within T p /\ forall a, within T (k a)
  | Atom m => moves T m
  | Yield _ => True
  | Loop body _ => forall x, within T (body x)
  end.

Lemma exec_within {S A} (R : why -> S -> S -> Prop) (T : S -> S -> Prop) `{!PreOrder T}
    (p : prog S A) : within T p -> (forall w s s', R w s s' -> T s s') ->
  forall s a s', exec R p s a s' -> T s s'.
Proof.
  intros Hp HR. induction p as [A a|A B p IHp k IHk|A m|w|X A body IH x]; intros s b s2; simpl in *.
  - by intros [_ ->].
  - destruct Hp. intros (a & s1 & H1 & H2). etransitivity; [by eapply IHp|by eapply IHk].
  - apply Hp.
  - apply HR.
  - induction 1; [etransitivity; [by eapply IH|done]|by eapply IH].
Qed.

Lemma within_lift {S K A} `{!Component S K} (T : S -> S -> Prop) (p : prog K A) :
  (forall k s, T s (inj k s)) -> within T (lift p).
Proof.
  intros Hk. induction p as [A a|A B p IHp k IHk|A m|w|X A body IH x]; simpl; auto.
  intros s a s'. unfold liftM. destruct (m (proj s)) as [[b k]|]; [|done]. by intros [= <- <-].
Qed.

(** The kernel's part of a program leaves the other components to the others. *)
Lemma exec_lift_rel {S K A} `{!Component S K} (R : why -> S -> S -> Prop) (T : S -> S -> Prop)
    `{!PreOrder T} (p : prog K A) :
  (forall k s, T s (inj k s)) -> (forall w s s', R w s s' -> T s s') ->
  forall s a s', exec R (lift p) s a s' -> T s s'.
Proof. intros Hk. by apply exec_within, within_lift. Qed.

(** Two programs with the same executions are interchangeable: [≡], a congruence. *)
#[global] Instance prog_equiv {S A} : Equiv (prog S A) := fun p q =>
  forall R s a s', exec R p s a s' <-> exec R q s a s'.

#[global] Instance prog_equivalence {S A} : Equivalence (≡@{prog S A}).
Proof.
  split.
  - by intros p R s a s'.
  - intros p q H R s a s'. symmetry. apply H.
  - intros p q r H1 H2 R s a s'. rewrite (H1 R s a s'). apply H2.
Qed.

#[global] Instance Bind_proper {S A B} :
  Proper ((≡) ==> pointwise_relation _ (≡) ==> (≡)) (@Bind S A B).
Proof.
  intros p q Hp k k' Hk R s b s2. simpl.
  split; intros (a & s1 & H1%(Hp R) & H2%(Hk a R)); eauto.
Qed.

Lemma loop_exec_mono {S X A} (b1 b2 : X -> S -> X + A -> S -> Prop) :
  (forall x s r s', b1 x s r s' -> b2 x s r s') ->
  forall x s a s', loop_exec b1 x s a s' -> loop_exec b2 x s a s'.
Proof. intros Hb x s a s'. induction 1; eauto. Qed.

#[global] Instance Loop_proper {S X A} :
  Proper (pointwise_relation _ (≡) ==> (=) ==> (≡)) (@Loop S X A).
Proof.
  intros b b' Hb x ? <- R s a s'. simpl.
  split; apply loop_exec_mono; intros; by apply (Hb _ R).
Qed.

Lemma Bind_Ret_l {S A B} (a : A) (k : A -> prog S B) : Bind (Ret a) k ≡ k a.
Proof.
  intros R s b s2. simpl. split.
  - by intros (? & ? & (-> & ->) & ?).
  - eauto.
Qed.

Lemma Bind_Ret_r {S A} (p : prog S A) : Bind p Ret ≡ p.
Proof.
  intros R s b s2. simpl. split.
  - by intros (? & ? & ? & -> & ->).
  - eauto 6.
Qed.

Lemma Bind_assoc {S A B C} (p : prog S A) (k : A -> prog S B) (h : B -> prog S C) :
  Bind (Bind p k) h ≡ Bind p (fun a => Bind (k a) h).
Proof.
  intros R s b s2. simpl. split.
  - intros (? & ? & (? & ? & ? & ?) & ?). eauto 8.
  - intros (? & ? & ? & ? & ? & ? & ?). eauto 8.
Qed.

(** Consecutive pieces are one piece. *)
Lemma Atom_bind {S A B} (m : M S A) (k : A -> M S B) :
  Atom (m ≫= k) ≡ Bind (Atom m) (fun a => Atom (k a)).
Proof.
  intros R s b s2. simpl. split.
  - by intros (a & s1 & ? & ?)%bind_inv; eauto.
  - intros (a & s1 & E & ?). by rewrite bind_run, E.
Qed.

(** A loop is its body, then the loop again or the end. *)
Lemma Loop_unfold {S X A} (body : X -> prog S (X + A)) x :
  Loop body x ≡ Bind (body x) (loop_next body).
Proof.
  intros R s a s'. simpl. split.
  - destruct 1 as [x s x' s1 a s2 H1 H2|x s a s1 H1].
    + exists (inl x'), s1. done.
    + exists (inr a), s1. done.
  - intros ([x'|b] & s1 & H1 & H2); simpl in *; [eauto|]. destruct H2 as [-> ->]. eauto.
Qed.

(** ** The program logic

    [wp G R p Q s]: run from [s], [p] meets no undefined behaviour, [G w] holds at every
    yield for [w], and [Q] at the end, provided the others only do steps of [R]. *)

Fixpoint wp {S A} (G : why -> S -> Prop) (R : why -> S -> S -> Prop) (p : prog S A)
    : (A -> S -> Prop) -> S -> Prop :=
  match p with
  | Ret a => fun Q s => Q a s
  | Bind p k => fun Q s => wp G R p (fun a => wp G R (k a) Q) s
  | Atom m => fun Q s => exists a s', m s = Some (a, s') /\ Q a s'
  | Yield w => fun Q s => G w s /\ forall s', R w s s' -> Q tt s'
  | Loop body x => fun Q s => exists J, J x s /\
      forall x s, J x s -> wp G R (body x)
        (fun r s => match r with inl x => J x s | inr a => Q a s end) s
  end.

Section wp.
Context {S : Type} (G : why -> S -> Prop) (R : why -> S -> S -> Prop).

Lemma wp_mono {A} (p : prog S A) : forall (Q Q' : A -> S -> Prop) s,
  (forall a s, Q a s -> Q' a s) -> wp G R p Q s -> wp G R p Q' s.
Proof.
  induction p as [A a|A B p IHp k IHk|A m|w|X A body IH x]; intros Q Q' s HQ; simpl.
  - apply HQ.
  - apply IHp. intros a s'. by apply IHk.
  - intros (a & s' & ? & ?). eauto.
  - intros [? ?]. eauto.
  - intros (J & HJ & Hb). exists J. split; [done|]. intros y s' Hy.
    eapply IH, Hb, Hy. intros [x'|a] s''; auto.
Qed.

(** Partial correctness. *)
Lemma wp_exec {A} (p : prog S A) : forall (Q : A -> S -> Prop) s a s',
  wp G R p Q s -> exec R p s a s' -> Q a s'.
Proof.
  induction p as [A a|A B p IHp k IHk|A m|w|X A body IH x]; intros Q s b s2; simpl.
  - by intros HQ [-> ->].
  - intros H (a & s1 & H1 & H2). eapply IHk, H2. by eapply (IHp _ _ _ _ H).
  - intros (a & s' & E & ?) E'. by simplify_eq.
  - intros [_ H] HR. destruct b. auto.
  - intros (J & HJ & Hb) H. revert HJ. induction H; intros HJ.
    + apply IHloop_exec. by apply (IH _ _ _ _ _ (Hb _ _ HJ) H).
    + by apply (IH _ _ _ _ _ (Hb _ _ HJ) H).
Qed.

(** The program is never stuck before its next yield, where the guarantee holds and
    from where the rest is correct again. *)
Lemma wp_run {A} (p : prog S A) : forall (Q : A -> S -> Prop) s,
  wp G R p Q s ->
  match run p s with
  | Some (Done a, s') => Q a s'
  | Some (More p', s') => wp G R p' Q s'
  | Some (Yielded w p', s') => G w s' /\ forall s2, R w s' s2 -> wp G R p' Q s2
  | None => False
  end.
Proof.
  induction p as [A a|A B p IHp k IHk|A m|w|X A body IH x]; intros Q s H; simpl in *.
  - done.
  - apply IHp in H. destruct (run p s) as [[[a|p'|w p'] s']|]; [by apply IHk|done..].
  - destruct H as (a & s' & -> & ?). done.
  - done.
  - destruct H as (J & HJ & Hb). pose proof (Hb _ _ HJ) as H'. apply IH in H'.
    destruct (run (body x) s) as [[[[x'|a]|p'|w p'] s']|]; [|done| | |done].
    + simpl. eauto.
    + simpl. eapply wp_mono, H'. intros [x'|a] s2; simpl; eauto.
    + destruct H' as [? H']. split; [done|]. intros s2 HR. simpl.
      eapply wp_mono, H', HR. intros [x'|a] s3; simpl; eauto.
Qed.

Lemma wp_bind {A B} (p : prog S A) (k : A -> prog S B) Q s :
  wp G R p (fun a => wp G R (k a) Q) s -> wp G R (p ≫= k) Q s.
Proof. done. Qed.

Lemma wp_atom {A} (m : M S A) (Q : A -> S -> Prop) a s s' :
  m s = Some (a, s') -> Q a s' -> wp G R (Atom m) Q s.
Proof. simpl. eauto. Qed.

Lemma wp_locked {A} (p : prog S A) (Q : A -> S -> Prop) s :
  wp G R p (fun a s => G unlocked s /\ forall s', R unlocked s s' -> Q a s') s ->
  wp G R (locked p) Q s.
Proof. unfold locked, mbind, prog_bind. simpl. done. Qed.

(** The loop rule: an invariant of the loop's variable and the state. *)
Lemma wp_loop {X A} (J : X -> S -> Prop) (body : X -> prog S (X + A)) (Q : A -> S -> Prop) x s :
  J x s ->
  (forall x s, J x s -> wp G R (body x)
     (fun r s => match r with inl x => J x s | inr a => Q a s end) s) ->
  wp G R (Loop body x) Q s.
Proof. simpl. eauto. Qed.

#[global] Instance wp_proper {A} (p : prog S A) :
  Proper (pointwise_relation _ (pointwise_relation _ iff) ==> pointwise_relation _ iff) (wp G R p).
Proof. intros Q Q' HQ s. split; apply wp_mono; intros a s'; apply HQ. Qed.
End wp.
