(* ===== verification/ThreadQueue.v ===== *)
(** * Thread queues: the linked lists of [os/rt/include/chschd.h] and [chschd.c]

    The kernel keeps threads in circular, doubly linked lists with a header that is
    itself a node.  This file models them on a heap of nodes, as the code writes the
    pointers, and shows that the operations implement the operations on lists the
    rest of the development uses. *)

From S2P Require Import Prelude Prog.

Module ThreadQueue.

(** A pointer to a thread or to a queue header. *)
Abbreviation ptr := nat.

(** The fields [queue.next], [queue.prev] and [prio] of the nodes. *)
Record heap := Heap {
  h_next : gmap ptr ptr;
  h_prev : gmap ptr ptr;
  h_prio : gmap ptr Z
}.

Definition next (p : ptr) : M heap ptr := deref (fun h => h_next h !! p).
Definition prev (p : ptr) : M heap ptr := deref (fun h => h_prev h !! p).
Definition prio (p : ptr) : M heap Z := deref (fun h => h_prio h !! p).
Definition set_next (p q : ptr) : M heap unit :=
  modify (fun h => Heap (<[p := q]> (h_next h)) (h_prev h) (h_prio h)).
Definition set_prev (p q : ptr) : M heap unit :=
  modify (fun h => Heap (h_next h) (<[p := q]> (h_prev h)) (h_prio h)).

Lemma run_next {A} p (k : ptr -> M heap A) h q : h_next h !! p = Some q ->
  (next p ≫= k) h = k q h.
Proof. intros H. rewrite bind_run. unfold next, deref. by rewrite H. Qed.
Lemma run_prev {A} p (k : ptr -> M heap A) h q : h_prev h !! p = Some q ->
  (prev p ≫= k) h = k q h.
Proof. intros H. rewrite bind_run. unfold prev, deref. by rewrite H. Qed.
Lemma run_prio {A} p (k : Z -> M heap A) h q : h_prio h !! p = Some q ->
  (prio p ≫= k) h = k q h.
Proof. intros H. rewrite bind_run. unfold prio, deref. by rewrite H. Qed.
Lemma run_set_next {A} p q (k : M heap A) h : (set_next p q;; k) h =
  k (Heap (<[p := q]> (h_next h)) (h_prev h) (h_prio h)).
Proof. reflexivity. Qed.
Lemma run_set_prev {A} p q (k : M heap A) h : (set_prev p q;; k) h =
  k (Heap (h_next h) (<[p := q]> (h_prev h)) (h_prio h)).
Proof. reflexivity. Qed.

Definition queue_init (tqp : ptr) : M heap unit :=
  set_next tqp tqp;; set_prev tqp tqp.

Definition queue_isempty (tqp : ptr) : M heap bool :=
  n ← next tqp; mret (bool_decide (n = tqp)).

Definition queue_notempty (tqp : ptr) : M heap bool :=
  n ← next tqp; mret (bool_decide (n <> tqp)).

(** The common end of the insertions: [tp] before [cp]. *)
Definition link_before (tp cp : ptr) : M heap unit :=
  set_next tp cp;;
  pp ← prev cp;
  set_prev tp pp;;
  set_next pp tp;;
  set_prev cp tp.

Definition queue_insert (tp tqp : ptr) : M heap unit := link_before tp tqp.

(** [do cp = cp->queue.next; while (go(cp))]: the fuel bounds the nodes visited. *)
Fixpoint walk (fuel : nat) (go : ptr -> M heap bool) (cp : ptr) : M heap ptr :=
  match fuel with
  | O => undefined
  | S fuel =>
      cp ← next cp;
      again ← go cp;
      if (again : bool) then walk fuel go cp else mret cp
  end.

Definition queue_prio_insert (fuel : nat) (tp tqp : ptr) : M heap unit :=
  cp ← walk fuel (fun cp =>
    if decide (cp = tqp) then mret false
    else c ← prio cp; t ← prio tp; mret (t <=? c)) tqp;
  link_before tp cp.

(** The insertions of [chSchReadyI] and [chSchReadyAheadI] in the ready list: the
    header is not tested, its priority [NOPRIO] stops the walk. *)
Definition ready_insert (fuel : nat) (tp tqp : ptr) : M heap unit :=
  cp ← walk fuel (fun cp => c ← prio cp; t ← prio tp; mret (t <=? c)) tqp;
  link_before tp cp.

Definition ready_insert_ahead (fuel : nat) (tp tqp : ptr) : M heap unit :=
  cp ← walk fuel (fun cp => c ← prio cp; t ← prio tp; mret (t <? c)) tqp;
  link_before tp cp.

Definition queue_fifo_remove (tqp : ptr) : M heap ptr :=
  tp ← next tqp;
  n ← next tp;
  set_next tqp n;;
  n ← next tqp;
  set_prev n tqp;;
  mret tp.

Definition queue_lifo_remove (tqp : ptr) : M heap ptr :=
  tp ← prev tqp;
  p ← prev tp;
  set_prev tqp p;;
  p ← prev tqp;
  set_next p tqp;;
  mret tp.

Definition queue_dequeue (tp : ptr) : M heap ptr :=
  p ← prev tp;
  n ← next tp;
  set_next p n;;
  n ← next tp;
  p ← prev tp;
  set_prev n p;;
  mret tp.

(** ** Lists in the heap *)

Definition maps (f : gmap ptr ptr) (p q : ptr) : Prop := f !! p = Some q.

(** The queue with header [hdr] holds the threads [l], in order. *)
Record is_queue (h : heap) (hdr : ptr) (l : list ptr) : Prop := {
  iq_nodup : NoDup (hdr :: l);
  iq_next : Forall2 (maps (h_next h)) (hdr :: l) (l ++ [hdr]);
  iq_prev : Forall2 (maps (h_prev h)) (l ++ [hdr]) (hdr :: l)
}.

Lemma Forall2_maps_ne f p q l m : p ∉ l ->
  Forall2 (maps f) l m -> Forall2 (maps (<[p := q]> f)) l m.
Proof.
  intros Hp H. induction H as [|x y l m Hxy H IH]; [constructor|].
  apply not_elem_of_cons in Hp as [? ?]. constructor; [|by apply IH].
  unfold maps. by rewrite lookup_insert_ne.
Qed.

(** The two halves of an insertion: successors and predecessors. *)
Lemma maps_insert_next f l1 l2 m1 m2 a c t : length l1 = length m1 ->
  NoDup (l1 ++ a :: l2) -> t ∉ l1 ++ a :: l2 ->
  Forall2 (maps f) (l1 ++ a :: l2) (m1 ++ c :: m2) ->
  Forall2 (maps (<[a := t]> (<[t := c]> f))) (l1 ++ a :: t :: l2) (m1 ++ t :: c :: m2).
Proof.
  intros Hl Hnd Ht H. apply NoDup_app in Hnd as (Hn1 & Hd & Hn2).
  apply NoDup_cons in Hn2 as [Ha Hn2].
  apply not_elem_of_app in Ht as [Ht1 Ht2]. apply not_elem_of_cons in Ht2 as [Hta Ht2].
  apply Forall2_app_inv in H as [H1 H2]; [|done].
  inversion H2; subst. apply Forall2_app.
  - apply Forall2_maps_ne; [|by apply Forall2_maps_ne].
    intros Hin. apply (Hd _ Hin). by left.
  - repeat constructor; unfold maps.
    + by rewrite lookup_insert_eq.
    + rewrite lookup_insert_ne by done. by rewrite lookup_insert_eq.
    + apply Forall2_maps_ne; [done|by apply Forall2_maps_ne].
Qed.

Lemma maps_insert_prev f l1 l2 m1 m2 a c t : length l1 = length m1 ->
  NoDup (m1 ++ c :: m2) -> t ∉ m1 ++ c :: m2 ->
  Forall2 (maps f) (m1 ++ c :: m2) (l1 ++ a :: l2) ->
  Forall2 (maps (<[c := t]> (<[t := a]> f))) (m1 ++ t :: c :: m2) (l1 ++ a :: t :: l2).
Proof.
  intros Hl Hnd Ht H. apply NoDup_app in Hnd as (Hn1 & Hd & Hn2).
  apply NoDup_cons in Hn2 as [Ha Hn2].
  apply not_elem_of_app in Ht as [Ht1 Ht2]. apply not_elem_of_cons in Ht2 as [Hta Ht2].
  apply Forall2_app_inv in H as [H1 H2]; [|done].
  inversion H2; subst. apply Forall2_app.
  - apply Forall2_maps_ne; [|by apply Forall2_maps_ne].
    intros Hin. apply (Hd _ Hin). by left.
  - repeat constructor; unfold maps.
    + rewrite lookup_insert_ne by done. by rewrite lookup_insert_eq.
    + by rewrite lookup_insert_eq.
    + apply Forall2_maps_ne; [done|by apply Forall2_maps_ne].
Qed.

(** The two halves of a removal of [t] between [a] and [c]. *)
Lemma maps_remove f l1 l2 m1 m2 a c t : length l1 = length m1 ->
  NoDup (l1 ++ a :: t :: l2) ->
  Forall2 (maps f) (l1 ++ a :: t :: l2) (m1 ++ t :: c :: m2) ->
  Forall2 (maps (<[a := c]> f)) (l1 ++ a :: l2) (m1 ++ c :: m2).
Proof.
  intros Hl Hnd H. apply NoDup_app in Hnd as (Hn1 & Hd & Hn2).
  apply NoDup_cons in Hn2 as [Ha Hn2].
  apply Forall2_app_inv in H as [H1 H2]; [|done].
  inversion H2 as [|? ? ? ? ? H3]; subst. inversion H3; subst. apply Forall2_app.
  - apply Forall2_maps_ne; [|done]. intros Hin. apply (Hd _ Hin). by left.
  - constructor; unfold maps; [by rewrite lookup_insert_eq|].
    apply Forall2_maps_ne; [|done]. set_solver.
Qed.

Lemma maps_remove_prev f l1 l2 m1 m2 a c t : length l1 = length m1 ->
  NoDup (m1 ++ t :: c :: m2) ->
  Forall2 (maps f) (m1 ++ t :: c :: m2) (l1 ++ a :: t :: l2) ->
  Forall2 (maps (<[c := a]> f)) (m1 ++ c :: m2) (l1 ++ a :: l2).
Proof.
  intros Hl Hnd H. apply NoDup_app in Hnd as (Hn1 & Hd & Hn2).
  apply NoDup_cons in Hn2 as [Ht Hn2]. apply NoDup_cons in Hn2 as [Hc Hn2].
  apply Forall2_app_inv in H as [H1 H2]; [|done].
  inversion H2 as [|? ? ? ? ? H3]; subst. inversion H3; subst. apply Forall2_app.
  - apply Forall2_maps_ne; [|done]. intros Hin. apply (Hd _ Hin). right. by left.
  - constructor; unfold maps; [by rewrite lookup_insert_eq|].
    by apply Forall2_maps_ne.
Qed.

(** The neighbours at a position of the queue. *)
Lemma queue_split (hdr : ptr) (k1 k2 : list ptr) : exists l1 a c m2,
  hdr :: k1 = l1 ++ [a] /\ k2 ++ [hdr] = c :: m2 /\ length l1 = length k1.
Proof.
  destruct (exists_last (l := hdr :: k1)) as (l1 & a & E); [done|].
  destruct k2 as [|c k2]; simpl.
  - exists l1, a, hdr, []. split_and!; [done..|].
    apply (f_equal length) in E. rewrite length_app in E. simpl in E. lia.
  - exists l1, a, c, (k2 ++ [hdr]). split_and!; [done..|].
    apply (f_equal length) in E. rewrite length_app in E. simpl in E. lia.
Qed.

Lemma nodup_rotate (hdr : ptr) (l : list ptr) : NoDup (hdr :: l) -> NoDup (l ++ [hdr]).
Proof.
  intros H. rewrite <- (Permutation_cons_append l hdr). done.
Qed.

(** [link_before tp cp] puts [tp] before the node at [cp]'s position. *)
Lemma link_before_spec h hdr k1 k2 tp cp : is_queue h hdr (k1 ++ k2) ->
  head (k2 ++ [hdr]) = Some cp -> tp ∉ hdr :: k1 ++ k2 ->
  exists h', link_before tp cp h = Some (tt, h') /\ is_queue h' hdr (k1 ++ tp :: k2) /\
    h_prio h' = h_prio h.
Proof.
  intros [Hnd Hn Hp] Hcp Htp.
  destruct (queue_split hdr k1 k2) as (l1 & a & c & m2 & E1 & E2 & El).
  rewrite E2 in Hcp. injection Hcp as <-.
  assert (EL : hdr :: k1 ++ k2 = l1 ++ a :: k2)
    by (rewrite app_comm_cons, E1, <- app_assoc; done).
  assert (EM : (k1 ++ k2) ++ [hdr] = k1 ++ c :: m2) by (by rewrite <- app_assoc, E2).
  assert (EM' : (k1 ++ tp :: k2) ++ [hdr] = k1 ++ tp :: c :: m2)
    by (rewrite <- app_assoc; simpl; by rewrite E2).
  assert (EL' : hdr :: k1 ++ tp :: k2 = l1 ++ a :: tp :: k2)
    by (rewrite app_comm_cons, E1, <- app_assoc; done).
  pose proof (nodup_rotate _ _ Hnd) as HndM.
  rewrite EM in Hn, Hp, HndM. rewrite EL in Hn, Hp, Hnd.
  assert (HtM : tp ∉ k1 ++ c :: m2).
  { rewrite <- EM. apply not_elem_of_cons in Htp.
    destruct Htp as [? ?]. apply not_elem_of_app. by rewrite list_elem_of_singleton. }
  rewrite EL in Htp.
  assert (Hpc : h_prev h !! c = Some a).
  { apply Forall2_app_inv in Hp as [_ Hp]; [|lia]. by inversion Hp. }
  assert (Hct : c <> tp) by set_solver.
  unfold link_before, set_next, set_prev, prev. cbn -[lookup insert].
  unfold mbind, M_bind, modify, deref. cbn -[lookup insert]. rewrite Hpc.
  cbn -[lookup insert]. eexists. split; [done|]. split; [|done].
  split; cbn -[lookup insert].
  - rewrite EL', (perm_swap tp a k2), <- Permutation_middle. by constructor.
  - rewrite EL', EM'. by apply maps_insert_next.
  - rewrite EL', EM'. by apply maps_insert_prev.
Qed.

Lemma queue_insert_spec h hdr l tp : is_queue h hdr l -> tp ∉ hdr :: l ->
  exists h', queue_insert tp hdr h = Some (tt, h') /\ is_queue h' hdr (l ++ [tp]) /\
    h_prio h' = h_prio h.
Proof.
  intros H Htp. unfold queue_insert.
  apply (link_before_spec h hdr l [] tp hdr); rewrite ?app_nil_r; done.
Qed.

(** The successor of the last node of a prefix. *)
Lemma queue_next h hdr k1 k2 cp : is_queue h hdr (k1 ++ k2) ->
  last (hdr :: k1) = Some cp -> h_next h !! cp = head (k2 ++ [hdr]).
Proof.
  intros [Hnd Hn Hp] Hlast. destruct (queue_split hdr k1 k2) as (l1 & a & c & m2 & E1 & E2 & El).
  rewrite app_comm_cons, E1, <- !app_assoc, E2 in Hn. rewrite E1, last_snoc in Hlast.
  injection Hlast as ->. apply Forall2_app_inv in Hn as [_ Hn]; [|done].
  rewrite E2. simpl. by inversion Hn.
Qed.

(** The walk stops at the first node that does not satisfy the test, or at the
    header. *)
Lemma walk_spec h hdr go (b : ptr -> bool) : go hdr h = Some (false, h) ->
  forall k2 k1 fuel cp, is_queue h hdr (k1 ++ k2) -> last (hdr :: k1) = Some cp ->
  (forall x, x ∈ k2 -> go x h = Some (b x, h)) -> (length k2 < fuel)%nat ->
  exists c, walk fuel go cp h = Some (c, h) /\
    head (snd (span b k2) ++ [hdr]) = Some c.
Proof.
  intros Hh. induction k2 as [|x k2 IH]; intros k1 fuel cp Hq Hlast Hgo Hf;
    (destruct fuel as [|fuel]; [simpl in Hf; lia|]);
    pose proof (queue_next _ _ _ _ _ Hq Hlast) as Hnx; simpl in Hnx; simpl walk;
    rewrite bind_run; unfold next at 1, deref; rewrite Hnx, bind_run.
  - rewrite Hh. exists hdr. done.
  - rewrite (Hgo x) by left. simpl. destruct (b x).
    + replace (k1 ++ x :: k2) with ((k1 ++ [x]) ++ k2) in Hq by (by rewrite <- app_assoc).
      destruct (IH (k1 ++ [x]) fuel x Hq) as (c & E & Hc).
      * by rewrite app_comm_cons, last_snoc.
      * intros y Hy. apply Hgo. by right.
      * simpl in Hf. lia.
      * exists c. split; [done|]. by destruct (span b k2).
    + exists x. done.
Qed.

(** Insertion in a list by a test on the elements it goes after. *)
Definition insert_after (b : ptr -> bool) (tp : ptr) (l : list ptr) : list ptr :=
  fst (span b l) ++ tp :: snd (span b l).

Lemma walk_link_spec h hdr l go b tp fuel : is_queue h hdr l -> tp ∉ hdr :: l ->
  go hdr h = Some (false, h) -> (forall x, x ∈ l -> go x h = Some (b x, h)) ->
  (length l < fuel)%nat ->
  exists h', (cp ← walk fuel go hdr; link_before tp cp) h = Some (tt, h') /\
    is_queue h' hdr (insert_after b tp l) /\ h_prio h' = h_prio h.
Proof.
  intros Hq Htp Hh Hgo Hf.
  destruct (walk_spec h hdr go b Hh l [] fuel hdr) as (c & Ew & Hc); [done..|].
  pose proof (span_app b l) as Hs. rewrite bind_run, Ew. unfold insert_after.
  destruct (span b l) as [k1 k2]. simpl in *. subst l. by apply link_before_spec.
Qed.

Section prios.
Context (h : heap) (hdr : ptr) (l : list ptr) (tp : ptr) (pr : ptr -> Z).
Context (Hq : is_queue h hdr l) (Htp : tp ∉ hdr :: l).
Context (Hpr : forall x, x ∈ tp :: l -> h_prio h !! x = Some (pr x)).

Lemma queue_prio_insert_spec fuel : (length l < fuel)%nat ->
  exists h', queue_prio_insert fuel tp hdr h = Some (tt, h') /\
    is_queue h' hdr (insert_after (fun c => pr tp <=? pr c) tp l) /\ h_prio h' = h_prio h.
Proof.
  intros Hf. unfold queue_prio_insert. apply walk_link_spec; try done.
  - by rewrite decide_True.
  - intros x Hx. rewrite decide_False.
    + unfold prio, deref. rewrite !bind_run, (Hpr x) by (by right).
      rewrite bind_run, (Hpr tp) by left. done.
    + intros ->. destruct Hq as [Hnd _ _]. by apply NoDup_cons in Hnd as [? _].
Qed.

Lemma ready_insert_spec fuel : (length l < fuel)%nat ->
  h_prio h !! hdr = Some 0 -> 0 < pr tp ->
  exists h', ready_insert fuel tp hdr h = Some (tt, h') /\
    is_queue h' hdr (insert_after (fun c => pr tp <=? pr c) tp l) /\ h_prio h' = h_prio h.
Proof.
  intros Hf Hp0 Hpos. unfold ready_insert. apply walk_link_spec; try done.
  - unfold prio, deref. rewrite !bind_run, Hp0, bind_run, (Hpr tp) by left.
    by rewrite (proj2 (Z.leb_gt _ _)) by lia.
  - intros x Hx. unfold prio, deref. rewrite !bind_run, (Hpr x) by (by right).
    by rewrite bind_run, (Hpr tp) by left.
Qed.

Lemma ready_insert_ahead_spec fuel : (length l < fuel)%nat ->
  h_prio h !! hdr = Some 0 -> 0 <= pr tp ->
  exists h', ready_insert_ahead fuel tp hdr h = Some (tt, h') /\
    is_queue h' hdr (insert_after (fun c => pr tp <? pr c) tp l) /\ h_prio h' = h_prio h.
Proof.
  intros Hf Hp0 Hpos. unfold ready_insert_ahead. apply walk_link_spec; try done.
  - unfold prio, deref. rewrite !bind_run, Hp0, bind_run, (Hpr tp) by left.
    by rewrite (proj2 (Z.ltb_ge _ _)) by lia.
  - intros x Hx. unfold prio, deref. rewrite !bind_run, (Hpr x) by (by right).
    by rewrite bind_run, (Hpr tp) by left.
Qed.
End prios.

Lemma remove_spec h hdr k1 tp k2 a c : is_queue h hdr (k1 ++ tp :: k2) ->
  last (hdr :: k1) = Some a -> head (k2 ++ [hdr]) = Some c ->
  h_prev h !! tp = Some a /\ h_next h !! tp = Some c /\
  h_next h !! a = Some tp /\ h_prev h !! c = Some tp /\ tp <> a /\ tp <> c /\
  is_queue (Heap (<[a := c]> (h_next h)) (<[c := a]> (h_prev h)) (h_prio h)) hdr (k1 ++ k2).
Proof.
  intros [Hnd Hn Hp] Ha Hc.
  destruct (queue_split hdr k1 k2) as (l1 & a' & c' & m2 & E1 & E2 & El).
  rewrite E1, last_snoc in Ha. injection Ha as ->. rewrite E2 in Hc. injection Hc as ->.
  assert (EL : hdr :: k1 ++ tp :: k2 = l1 ++ a :: tp :: k2)
    by (rewrite app_comm_cons, E1, <- app_assoc; done).
  assert (EM : (k1 ++ tp :: k2) ++ [hdr] = k1 ++ tp :: c :: m2)
    by (rewrite <- app_assoc; simpl; by rewrite E2).
  assert (EL' : hdr :: k1 ++ k2 = l1 ++ a :: k2)
    by (rewrite app_comm_cons, E1, <- app_assoc; done).
  assert (EM' : (k1 ++ k2) ++ [hdr] = k1 ++ c :: m2) by (by rewrite <- app_assoc, E2).
  pose proof (nodup_rotate _ _ Hnd) as HndM.
  rewrite EM in Hn, Hp, HndM. rewrite EL in Hn, Hp, Hnd.
  pose proof (Forall2_app_inv _ _ _ _ _ El Hn) as [_ Hn2].
  pose proof (Forall2_app_inv _ _ _ _ _ (eq_sym El) Hp) as [_ Hp2].
  inversion Hn2 as [|? ? ? ? Hn3 Hn4]; subst. inversion Hn4; subst.
  inversion Hp2 as [|? ? ? ? Hp3 Hp4]; subst. inversion Hp4; subst.
  split_and!; try done.
  - apply NoDup_app in Hnd as (_ & _ & Hnd). apply NoDup_cons in Hnd as [Hnd _]. set_solver.
  - apply NoDup_app in HndM as (_ & _ & HndM). apply NoDup_cons in HndM as [HndM _]. set_solver.
  - split; simpl.
    + rewrite EL'. rewrite (perm_swap tp a k2), <- Permutation_middle in Hnd.
      by apply NoDup_cons in Hnd as [_ ?].
    + rewrite EL', EM'. eapply maps_remove; done.
    + rewrite EL', EM'. eapply maps_remove_prev; done.
Qed.

Lemma queue_fifo_remove_spec h hdr tp l : is_queue h hdr (tp :: l) ->
  exists h', queue_fifo_remove hdr h = Some (tp, h') /\ is_queue h' hdr l /\
    h_prio h' = h_prio h.
Proof.
  intros Hq. destruct (head (l ++ [hdr])) as [c|] eqn:Ec; [|by destruct l].
  destruct (remove_spec h hdr [] tp l hdr c Hq eq_refl Ec) as (H1 & H2 & H3 & H4 & H5 & H6 & H7).
  unfold queue_fifo_remove. rewrite (run_next _ _ _ _ H3), (run_next _ _ _ _ H2), run_set_next.
  rewrite (run_next _ _ _ c) by apply lookup_insert_eq. rewrite run_set_prev.
  eexists. split; [done|]. by split.
Qed.

Lemma queue_lifo_remove_spec h hdr tp l : is_queue h hdr (l ++ [tp]) ->
  exists h', queue_lifo_remove hdr h = Some (tp, h') /\ is_queue h' hdr l /\
    h_prio h' = h_prio h.
Proof.
  intros Hq. destruct (last (hdr :: l)) as [a|] eqn:Ea; [|by apply last_None in Ea].
  destruct (remove_spec h hdr l tp [] a hdr Hq Ea eq_refl) as (H1 & H2 & H3 & H4 & H5 & H6 & H7).
  unfold queue_lifo_remove. rewrite (run_prev _ _ _ _ H4), (run_prev _ _ _ _ H1), run_set_prev.
  rewrite (run_prev _ _ _ a) by apply lookup_insert_eq. rewrite run_set_next.
  eexists. split; [done|].
  rewrite app_nil_r in H7. by split.
Qed.

Lemma queue_dequeue_spec h hdr k1 tp k2 : is_queue h hdr (k1 ++ tp :: k2) ->
  exists h', queue_dequeue tp h = Some (tp, h') /\ is_queue h' hdr (k1 ++ k2) /\
    h_prio h' = h_prio h.
Proof.
  intros Hq. destruct (last (hdr :: k1)) as [a|] eqn:Ea; [|by apply last_None in Ea].
  destruct (head (k2 ++ [hdr])) as [c|] eqn:Ec; [|by destruct k2].
  destruct (remove_spec h hdr k1 tp k2 a c Hq Ea Ec) as (H1 & H2 & H3 & H4 & H5 & H6 & H7).
  unfold queue_dequeue. rewrite (run_prev _ _ _ _ H1), (run_next _ _ _ _ H2), run_set_next.
  rewrite (run_next _ _ _ c) by (simpl; by rewrite lookup_insert_ne by congruence).
  rewrite (run_prev _ _ _ a) by done. rewrite run_set_prev. eexists. split; [done|]. by split.
Qed.

Lemma queue_init_spec h hdr : exists h', queue_init hdr h = Some (tt, h') /\
  is_queue h' hdr [] /\ h_prio h' = h_prio h.
Proof.
  eexists. split; [done|]. split; [|done]. split; cbn -[lookup insert].
  - apply NoDup_singleton.
  - repeat constructor. unfold maps. by rewrite lookup_insert_eq.
  - repeat constructor. unfold maps. by rewrite lookup_insert_eq.
Qed.

Lemma queue_isempty_spec h hdr l : is_queue h hdr l ->
  queue_isempty hdr h = Some (bool_decide (l = []), h).
Proof.
  intros Hq. unfold queue_isempty, next, deref. rewrite bind_run.
  rewrite (queue_next h hdr [] l hdr Hq eq_refl). destruct l as [|x l]; simpl.
  - by rewrite bool_decide_eq_true_2.
  - rewrite bool_decide_eq_false_2; [done|]. intros ->.
    destruct Hq as [Hnd _ _]. apply NoDup_cons in Hnd as [Hnd _]. apply Hnd. left.
Qed.

(** ** The linked lists implement lists *)

(** The calls the kernel makes on a queue. *)
Inductive qop :=
  | op_insert (tp : ptr) | op_prio_insert (tp : ptr) | op_ready (tp : ptr) | op_ready_ahead (tp : ptr)
  | op_fifo | op_lifo | op_dequeue (tp : ptr).

Section refinement.
(** The header, and the threads with their priorities. *)
Context (hdr : ptr) (prios : gmap ptr Z).
Let pr (x : ptr) : Z := default 0 (prios !! x).

(** On the heap... *)
Definition do_op (fuel : nat) (o : qop) : M heap (option ptr) :=
  match o with
  | op_insert tp => queue_insert tp hdr;; mret None
  | op_prio_insert tp => queue_prio_insert fuel tp hdr;; mret None
  | op_ready tp => ready_insert fuel tp hdr;; mret None
  | op_ready_ahead tp => ready_insert_ahead fuel tp hdr;; mret None
  | op_fifo => Some <$> queue_fifo_remove hdr
  | op_lifo => Some <$> queue_lifo_remove hdr
  | op_dequeue tp => Some <$> queue_dequeue tp
  end.

(** ... and on the list of the threads. *)
Definition list_op (o : qop) (l : list ptr) : option (option ptr * list ptr) :=
  let insert tp l' := if decide (is_Some (prios !! tp) /\ tp ∉ l) then Some (None, l') else None in
  match o with
  | op_insert tp => insert tp (l ++ [tp])
  | op_prio_insert tp | op_ready tp => insert tp (insert_after (fun c => pr tp <=? pr c) tp l)
  | op_ready_ahead tp => insert tp (insert_after (fun c => pr tp <? pr c) tp l)
  | op_fifo => match l with [] => None | tp :: l => Some (Some tp, l) end
  | op_lifo => tp ← last l; Some (Some tp, removelast l)
  | op_dequeue tp => if decide (tp ∈ l) then Some (Some tp, filter (fun x => x <> tp) l) else None
  end.

Fixpoint do_ops (fuel : nat) (os : list qop) : M heap (list (option ptr)) :=
  match os with
  | [] => mret []
  | o :: os => r ← do_op fuel o; rs ← do_ops fuel os; mret (r :: rs)
  end.
Fixpoint list_ops (os : list qop) (l : list ptr) : option (list (option ptr) * list ptr) :=
  match os with
  | [] => Some ([], l)
  | o :: os => '(r, l) ← list_op o l; '(rs, l) ← list_ops os l; Some (r :: rs, l)
  end.

(** The heap holds the queue, the priorities of its threads and others and that of the
    header, which is [NOPRIO]. *)
Definition represents (h : heap) (l : list ptr) : Prop :=
  is_queue h hdr l /\ prios !! hdr = None /\ h_prio h = <[hdr := 0]> prios /\
  map_Forall (fun _ p => 0 < p) prios /\ forall x, x ∈ l -> is_Some (prios !! x).

Lemma represents_prio h l x : represents h l -> is_Some (prios !! x) ->
  x <> hdr /\ h_prio h !! x = Some (pr x) /\ 0 < pr x.
Proof.
  intros (_ & Hh & Hp & Hpos & _) [p Hx]. assert (x <> hdr) by congruence.
  split; [done|]. unfold pr. rewrite Hp, lookup_insert_ne, Hx by done. split; [done|].
  exact (Hpos x p Hx).
Qed.

(** An insertion and a removal that were proved on the linked list. *)
Lemma inserted h l l' tp (m : M heap unit) : represents h l -> is_Some (prios !! tp) ->
  l' ≡ₚ tp :: l -> (exists h', m h = Some (tt, h') /\ is_queue h' hdr l' /\ h_prio h' = h_prio h) ->
  exists h', (m;; mret None) h = Some (@None ptr, h') /\ represents h' l' /\ (length l' <= S (length l))%nat.
Proof.
  intros (Hq & Hh & Hp & Hpos & Hl) Htp Hperm (h' & E & Hq' & Hpe).
  exists h'. rewrite bind_run, E. split; [done|]. split; [|by rewrite Hperm].
  split_and!; [done|done|by rewrite Hpe|done|].
  intros x. rewrite Hperm, elem_of_cons. intros [->|Hx]; auto.
Qed.
Lemma removed h l l' tp (m : M heap ptr) : represents h l -> l ≡ₚ tp :: l' ->
  (exists h', m h = Some (tp, h') /\ is_queue h' hdr l' /\ h_prio h' = h_prio h) ->
  exists h', (Some <$> m) h = Some (Some tp, h') /\ represents h' l' /\ (length l' <= S (length l))%nat.
Proof.
  intros (Hq & Hh & Hp & Hpos & Hl) Hperm (h' & E & Hq' & Hpe).
  exists h'. unfold fmap, M_fmap. rewrite E. split; [done|]. split; [|rewrite Hperm; cbn; lia].
  split_and!; [done|done|by rewrite Hpe|done|].
  intros x Hx. apply Hl. rewrite Hperm. by right.
Qed.

Lemma insert_after_cons_perm b t l : insert_after b t l ≡ₚ t :: l.
Proof. unfold insert_after. rewrite <- Permutation_middle. by rewrite <- span_app. Qed.

Lemma filter_out_mid (k1 : list ptr) tp k2 : NoDup (k1 ++ tp :: k2) ->
  filter (fun x => x <> tp) (k1 ++ tp :: k2) = k1 ++ k2.
Proof.
  intros Hnd. rewrite <- Permutation_middle in Hnd. apply NoDup_cons in Hnd as [Hnd _].
  rewrite filter_app, filter_cons_False by tauto.
  f_equal; apply list_filter_all; intros x Hx ->; apply Hnd; rewrite elem_of_app; tauto.
Qed.

Lemma do_op_refines fuel o h l r l' : represents h l -> list_op o l = Some (r, l') ->
  (length l < fuel)%nat ->
  exists h', do_op fuel o h = Some (r, h') /\ represents h' l' /\ (length l' <= S (length l))%nat.
Proof.
  intros Hr H Hf. pose proof Hr as (Hq & Hhdr & Hp & Hpos & Hl).
  assert (H0 : h_prio h !! hdr = Some 0) by (by rewrite Hp, lookup_insert_eq).
  assert (Hnew : forall tp, is_Some (prios !! tp) /\ tp ∉ l -> tp ∉ hdr :: l).
  { intros tp [Htp Htl]. destruct (represents_prio h l tp Hr Htp). rewrite elem_of_cons. tauto. }
  assert (Hpr : forall tp, is_Some (prios !! tp) -> forall x, x ∈ tp :: l -> h_prio h !! x = Some (pr x)).
  { intros tp Htp x [->|Hx]%elem_of_cons; eapply represents_prio; eauto. }
  assert (Hgt : forall tp, is_Some (prios !! tp) -> 0 < pr tp) by (intros; by eapply represents_prio).
  destruct o as [tp|tp|tp|tp| | |tp]; cbn in H.
  1-4: case_decide as Htp; [|done]; injection H as <- <-; destruct Htp as [Hs Htl];
    apply (inserted h l _ tp); [done|done| |].
  - by rewrite (Permutation_app_comm l).
  - apply queue_insert_spec; auto.
  - apply insert_after_cons_perm.
  - apply queue_prio_insert_spec; [auto..|by apply Hpr|auto].
  - apply insert_after_cons_perm.
  - apply ready_insert_spec; [auto..|by apply Hpr|auto|auto|auto].
  - apply insert_after_cons_perm.
  - apply ready_insert_ahead_spec; [auto..|by apply Hpr|auto|auto|apply Z.lt_le_incl; auto].
  - destruct l as [|tp l]; [done|]. injection H as <- <-.
    apply (removed h (tp :: l)); [done|done|]. by apply queue_fifo_remove_spec.
  - apply bind_Some in H as (tp & Hlast & [= <- <-]). apply last_Some in Hlast as [l0 ->].
    rewrite removelast_last. apply (removed h (l0 ++ [tp])); [done|by rewrite (Permutation_app_comm l0)|].
    by apply queue_lifo_remove_spec.
  - case_decide as Htp; [|done]. injection H as <- <-.
    apply list_elem_of_split in Htp as (k1 & k2 & ->).
    assert (Hnd : NoDup (k1 ++ tp :: k2)) by (destruct Hq as [Hnd _ _]; by apply NoDup_cons in Hnd as [_ Hnd]).
    rewrite filter_out_mid by done.
    apply (removed h (k1 ++ tp :: k2)); [done|by rewrite <- Permutation_middle|].
    by apply queue_dequeue_spec.
Qed.

(** C7: the circular, doubly linked lists of the kernel implement lists of threads: whatever
    sequence of insertions and removals is possible on the list runs on the heap, returns the
    same threads, and leaves the linked list of the result; the walks need as much fuel as
    there are threads. *)
Theorem queue_refines os : forall fuel h l rs l', represents h l -> list_ops os l = Some (rs, l') ->
  (length l + length os < fuel)%nat ->
  exists h', do_ops fuel os h = Some (rs, h') /\ represents h' l'.
Proof.
  induction os as [|o os IH]; cbn; intros fuel h l rs l' Hh H Hf.
  - injection H as <- <-. eauto.
  - apply bind_Some in H as ([r l1] & H1 & H). apply bind_Some in H as ([rs1 l2] & H2 & [= <- <-]).
    destruct (do_op_refines fuel o h l r l1 Hh H1) as (h1 & E1 & Hh1 & Hlen); [lia|].
    destruct (IH fuel h1 l1 rs1 l2 Hh1 H2) as (h2 & E2 & Hh2); [lia|].
    exists h2. split; [|done]. by rewrite bind_run, E1, bind_run, E2.
Qed.
End refinement.

End ThreadQueue.
