(* ===== verification/Kernel.v ===== *)
(** * The data of the kernel: [os/rt/include] and [os/common/oslib/include]

    The state of ChibiOS/RT in the configuration of [config/chconf.h]: no time
    quantum, semaphores and messages in FIFO order, mutexes not recursive, tickless
    timers ([CH_CFG_ST_TIMEDELTA] is 2), every debug option off.

    Objects live in maps from their address; a thread queue is the list of its
    threads ([ThreadQueue.v] shows that the linked lists of the code implement it).
    Addresses are natural numbers.  The doubly linked list of virtual timers is a
    list of timers with their [delta] members. *)

From S2P Require Import Prelude CLib Prog ThreadQueue.

Abbreviation tid := nat.

Inductive tstate_t :=
  | CH_STATE_READY | CH_STATE_CURRENT | CH_STATE_WTSTART | CH_STATE_SUSPENDED
  | CH_STATE_QUEUED | CH_STATE_WTSEM | CH_STATE_WTMTX | CH_STATE_WTCOND
  | CH_STATE_SLEEPING | CH_STATE_WTEXIT | CH_STATE_WTOREVT | CH_STATE_WTANDEVT
  | CH_STATE_SNDMSGQ | CH_STATE_SNDMSG | CH_STATE_WTMSG | CH_STATE_FINAL.
#[global] Instance tstate_eq_dec : EqDecision tstate_t.
Proof. solve_decision. Defined.

(** [msg_t] *)
Definition MSG_OK : Z := 0.
Definition MSG_TIMEOUT : Z := -1.
Definition MSG_RESET : Z := -2.

Definition NOPRIO : Z := 0.
Definition IDLEPRIO : Z := 1.
Definition LOWPRIO : Z := 2.
Definition NORMALPRIO : Z := 128.
Definition HIGHPRIO : Z := 255.

(** [sysinterval_t] is 32 bits wide. *)
Definition TIME_IMMEDIATE : Z := 0.
Definition TIME_INFINITE : Z := 2 ^ 32 - 1.

(** The union [u] of a thread: the member last written.  [rdymsg] and [exitcode] have
    the same type; reading the value of another member is undefined. *)
Inductive thread_u :=
  | u_none
  | u_msg (m : Z)
  | u_wttrp (trp : nat)
  | u_wtsemp (sp : nat)
  | u_wtmtxp (mp : nat)
  | u_ewmask (m : Z).

(** The thread queues of the system, by the object they are a member of. *)
Inductive qid :=
  | q_sem (sp : nat)
  | q_mtx (mp : nat)
  | q_mb_w (mbp : nat)
  | q_mb_r (mbp : nat)
  | q_io (qp : nat).
#[global] Instance qid_eq_dec : EqDecision qid.
Proof. solve_decision. Defined.
#[global] Instance qid_countable : Countable qid.
Proof.
  apply (inj_countable'
    (fun q => match q with
      | q_sem n => (0%nat, n) | q_mtx n => (1%nat, n) | q_mb_w n => (2%nat, n)
      | q_mb_r n => (3%nat, n) | q_io n => (4%nat, n) end)
    (fun p => match p with
      | (O, n) => q_sem n | (1%nat, n) => q_mtx n | (2%nat, n) => q_mb_w n
      | (3%nat, n) => q_mb_r n | (_, n) => q_io n end)).
  by intros [].
Defined.

(** A virtual timer: an object of the program, or the one [chSchGoSleepTimeoutS]
    keeps on the stack of a thread. *)
Inductive vtid := vt_obj (n : nat) | vt_stack (t : tid).
#[global] Instance vtid_eq_dec : EqDecision vtid.
Proof. solve_decision. Defined.
#[global] Instance vtid_countable : Countable vtid.
Proof.
  apply (inj_countable'
    (fun v => match v with vt_obj n => (true, n) | vt_stack n => (false, n) end)
    (fun p => match p with (true, n) => vt_obj n | (false, n) => vt_stack n end)).
  by intros [].
Defined.

(** The function of a timer: the kernel's [wakeup], or a callback of the program. *)
Inductive vtfunc_t := vt_wakeup | vt_callback (n : nat).

(** [struct ch_thread] *)
Record thread_t := Thread {
  t_prio : Z;
  t_realprio : Z;
  t_state : tstate_t;
  t_flags : Z;
  t_refs : Z;
  t_u : thread_u;
  t_waiting : list tid;
  t_epending : Z;
  t_mtxlist : option nat
}.

Definition set_t_prio (f : Z -> Z) (r : thread_t) : thread_t :=
  Thread (f (t_prio r)) (t_realprio r) (t_state r) (t_flags r) (t_refs r) (t_u r) (t_waiting
    r) (t_epending r) (t_mtxlist r).
Definition set_t_realprio (f : Z -> Z) (r : thread_t) : thread_t :=
  Thread (t_prio r) (f (t_realprio r)) (t_state r) (t_flags r) (t_refs r) (t_u r) (t_waiting
    r) (t_epending r) (t_mtxlist r).
Definition set_t_state (f : tstate_t -> tstate_t) (r : thread_t) : thread_t :=
  Thread (t_prio r) (t_realprio r) (f (t_state r)) (t_flags r) (t_refs r) (t_u r) (t_waiting
    r) (t_epending r) (t_mtxlist r).
Definition set_t_flags (f : Z -> Z) (r : thread_t) : thread_t :=
  Thread (t_prio r) (t_realprio r) (t_state r) (f (t_flags r)) (t_refs r) (t_u r) (t_waiting
    r) (t_epending r) (t_mtxlist r).
Definition set_t_refs (f : Z -> Z) (r : thread_t) : thread_t :=
  Thread (t_prio r) (t_realprio r) (t_state r) (t_flags r) (f (t_refs r)) (t_u r) (t_waiting
    r) (t_epending r) (t_mtxlist r).
Definition set_t_u (f : thread_u -> thread_u) (r : thread_t) : thread_t :=
  Thread (t_prio r) (t_realprio r) (t_state r) (t_flags r) (t_refs r) (f (t_u r)) (t_waiting
    r) (t_epending r) (t_mtxlist r).
Definition set_t_waiting (f : list tid -> list tid) (r : thread_t) : thread_t :=
  Thread (t_prio r) (t_realprio r) (t_state r) (t_flags r) (t_refs r) (t_u r) (f (t_waiting
    r)) (t_epending r) (t_mtxlist r).
Definition set_t_epending (f : Z -> Z) (r : thread_t) : thread_t :=
  Thread (t_prio r) (t_realprio r) (t_state r) (t_flags r) (t_refs r) (t_u r) (t_waiting r) (f
    (t_epending r)) (t_mtxlist r).
Definition set_t_mtxlist (f : option nat -> option nat) (r : thread_t) : thread_t :=
  Thread (t_prio r) (t_realprio r) (t_state r) (t_flags r) (t_refs r) (t_u r) (t_waiting r)
    (t_epending r) (f (t_mtxlist r)).

(** [struct ch_mutex], its queue apart. *)
Record mutex_t := Mutex {
  m_owner : option tid;
  m_next : option nat
}.

Definition set_m_owner (f : option tid -> option tid) (r : mutex_t) : mutex_t :=
  Mutex (f (m_owner r)) (m_next r).
Definition set_m_next (f : option nat -> option nat) (r : mutex_t) : mutex_t :=
  Mutex (m_owner r) (f (m_next r)).

(** [struct event_listener] *)
Record event_listener_t := Listener {
  el_listener : tid;
  el_events : Z;
  el_flags : Z;
  el_wflags : Z
}.

Definition set_el_listener (f : tid -> tid) (r : event_listener_t) : event_listener_t :=
  Listener (f (el_listener r)) (el_events r) (el_flags r) (el_wflags r).
Definition set_el_events (f : Z -> Z) (r : event_listener_t) : event_listener_t :=
  Listener (el_listener r) (f (el_events r)) (el_flags r) (el_wflags r).
Definition set_el_flags (f : Z -> Z) (r : event_listener_t) : event_listener_t :=
  Listener (el_listener r) (el_events r) (f (el_flags r)) (el_wflags r).
Definition set_el_wflags (f : Z -> Z) (r : event_listener_t) : event_listener_t :=
  Listener (el_listener r) (el_events r) (el_flags r) (f (el_wflags r)).

(** [mailbox_t]: the buffer, the indices of [rdptr] and [wrptr] in it, [cnt] and [reset]. *)
Record mailbox_t := Mailbox {
  mb_buffer : list Z;
  mb_rdptr : nat;
  mb_wrptr : nat;
  mb_cnt : nat;
  mb_reset : bool
}.

Definition set_mb_buffer (f : list Z -> list Z) (r : mailbox_t) : mailbox_t :=
  Mailbox (f (mb_buffer r)) (mb_rdptr r) (mb_wrptr r) (mb_cnt r) (mb_reset r).
Definition set_mb_rdptr (f : nat -> nat) (r : mailbox_t) : mailbox_t :=
  Mailbox (mb_buffer r) (f (mb_rdptr r)) (mb_wrptr r) (mb_cnt r) (mb_reset r).
Definition set_mb_wrptr (f : nat -> nat) (r : mailbox_t) : mailbox_t :=
  Mailbox (mb_buffer r) (mb_rdptr r) (f (mb_wrptr r)) (mb_cnt r) (mb_reset r).
Definition set_mb_cnt (f : nat -> nat) (r : mailbox_t) : mailbox_t :=
  Mailbox (mb_buffer r) (mb_rdptr r) (mb_wrptr r) (f (mb_cnt r)) (mb_reset r).
Definition set_mb_reset (f : bool -> bool) (r : mailbox_t) : mailbox_t :=
  Mailbox (mb_buffer r) (mb_rdptr r) (mb_wrptr r) (mb_cnt r) (f (mb_reset r)).

(** [struct ch_virtual_timer], its links and [delta] apart. *)
Record virtual_timer_t := VTimer {
  vt_func : option vtfunc_t;
  vt_par : nat
}.

Definition set_vt_func (f : option vtfunc_t -> option vtfunc_t) (r : virtual_timer_t) : virtual_timer_t :=
  VTimer (f (vt_func r)) (vt_par r).
Definition set_vt_par (f : nat -> nat) (r : virtual_timer_t) : virtual_timer_t :=
  VTimer (vt_func r) (f (vt_par r)).

(** [ch_system_t], the objects of the program it works on, and the timer of the port
    ([port_timer_get_time] and the alarm). *)
Record ch_system := Ch {
  k_threads : gmap tid thread_t;
  k_rlist : list tid;
  k_current : tid;
  k_queues : gmap qid (list tid);
  k_sems : gmap nat Z;
  k_mtxs : gmap nat mutex_t;
  k_trefs : gmap nat (option tid);
  k_srcs : gmap nat (list nat);
  k_lsts : gmap nat event_listener_t;
  k_mbs : gmap nat mailbox_t;
  k_vtlist : list (vtid * Z);
  k_vts : gmap vtid virtual_timer_t;
  k_lasttime : Z;
  k_now : Z;
  k_alarm : option Z
}.

Definition set_k_threads (f : gmap tid thread_t -> gmap tid thread_t) (r : ch_system) : ch_system :=
  Ch (f (k_threads r)) (k_rlist r) (k_current r) (k_queues r) (k_sems r) (k_mtxs r) (k_trefs
    r) (k_srcs r) (k_lsts r) (k_mbs r) (k_vtlist r) (k_vts r) (k_lasttime r) (k_now r)
    (k_alarm r).
Definition set_k_rlist (f : list tid -> list tid) (r : ch_system) : ch_system :=
  Ch (k_threads r) (f (k_rlist r)) (k_current r) (k_queues r) (k_sems r) (k_mtxs r) (k_trefs
    r) (k_srcs r) (k_lsts r) (k_mbs r) (k_vtlist r) (k_vts r) (k_lasttime r) (k_now r)
    (k_alarm r).
Definition set_k_current (f : tid -> tid) (r : ch_system) : ch_system :=
  Ch (k_threads r) (k_rlist r) (f (k_current r)) (k_queues r) (k_sems r) (k_mtxs r) (k_trefs
    r) (k_srcs r) (k_lsts r) (k_mbs r) (k_vtlist r) (k_vts r) (k_lasttime r) (k_now r)
    (k_alarm r).
Definition set_k_queues (f : gmap qid (list tid) -> gmap qid (list tid)) (r : ch_system) : ch_system :=
  Ch (k_threads r) (k_rlist r) (k_current r) (f (k_queues r)) (k_sems r) (k_mtxs r) (k_trefs
    r) (k_srcs r) (k_lsts r) (k_mbs r) (k_vtlist r) (k_vts r) (k_lasttime r) (k_now r)
    (k_alarm r).
Definition set_k_sems (f : gmap nat Z -> gmap nat Z) (r : ch_system) : ch_system :=
  Ch (k_threads r) (k_rlist r) (k_current r) (k_queues r) (f (k_sems r)) (k_mtxs r) (k_trefs
    r) (k_srcs r) (k_lsts r) (k_mbs r) (k_vtlist r) (k_vts r) (k_lasttime r) (k_now r)
    (k_alarm r).
Definition set_k_mtxs (f : gmap nat mutex_t -> gmap nat mutex_t) (r : ch_system) : ch_system :=
  Ch (k_threads r) (k_rlist r) (k_current r) (k_queues r) (k_sems r) (f (k_mtxs r)) (k_trefs
    r) (k_srcs r) (k_lsts r) (k_mbs r) (k_vtlist r) (k_vts r) (k_lasttime r) (k_now r)
    (k_alarm r).
Definition set_k_trefs (f : gmap nat (option tid) -> gmap nat (option tid)) (r : ch_system) : ch_system :=
  Ch (k_threads r) (k_rlist r) (k_current r) (k_queues r) (k_sems r) (k_mtxs r) (f (k_trefs
    r)) (k_srcs r) (k_lsts r) (k_mbs r) (k_vtlist r) (k_vts r) (k_lasttime r) (k_now r)
    (k_alarm r).
Definition set_k_srcs (f : gmap nat (list nat) -> gmap nat (list nat)) (r : ch_system) : ch_system :=
  Ch (k_threads r) (k_rlist r) (k_current r) (k_queues r) (k_sems r) (k_mtxs r) (k_trefs r) (f
    (k_srcs r)) (k_lsts r) (k_mbs r) (k_vtlist r) (k_vts r) (k_lasttime r) (k_now r) (k_alarm
    r).
Definition set_k_lsts (f : gmap nat event_listener_t -> gmap nat event_listener_t) (r : ch_system) : ch_system :=
  Ch (k_threads r) (k_rlist r) (k_current r) (k_queues r) (k_sems r) (k_mtxs r) (k_trefs r)
    (k_srcs r) (f (k_lsts r)) (k_mbs r) (k_vtlist r) (k_vts r) (k_lasttime r) (k_now r)
    (k_alarm r).
Definition set_k_mbs (f : gmap nat mailbox_t -> gmap nat mailbox_t) (r : ch_system) : ch_system :=
  Ch (k_threads r) (k_rlist r) (k_current r) (k_queues r) (k_sems r) (k_mtxs r) (k_trefs r)
    (k_srcs r) (k_lsts r) (f (k_mbs r)) (k_vtlist r) (k_vts r) (k_lasttime r) (k_now r)
    (k_alarm r).
Definition set_k_vtlist (f : list (vtid * Z) -> list (vtid * Z)) (r : ch_system) : ch_system :=
  Ch (k_threads r) (k_rlist r) (k_current r) (k_queues r) (k_sems r) (k_mtxs r) (k_trefs r)
    (k_srcs r) (k_lsts r) (k_mbs r) (f (k_vtlist r)) (k_vts r) (k_lasttime r) (k_now r)
    (k_alarm r).
Definition set_k_vts (f : gmap vtid virtual_timer_t -> gmap vtid virtual_timer_t) (r : ch_system) : ch_system :=
  Ch (k_threads r) (k_rlist r) (k_current r) (k_queues r) (k_sems r) (k_mtxs r) (k_trefs r)
    (k_srcs r) (k_lsts r) (k_mbs r) (k_vtlist r) (f (k_vts r)) (k_lasttime r) (k_now r)
    (k_alarm r).
Definition set_k_lasttime (f : Z -> Z) (r : ch_system) : ch_system :=
  Ch (k_threads r) (k_rlist r) (k_current r) (k_queues r) (k_sems r) (k_mtxs r) (k_trefs r)
    (k_srcs r) (k_lsts r) (k_mbs r) (k_vtlist r) (k_vts r) (f (k_lasttime r)) (k_now r)
    (k_alarm r).
Definition set_k_now (f : Z -> Z) (r : ch_system) : ch_system :=
  Ch (k_threads r) (k_rlist r) (k_current r) (k_queues r) (k_sems r) (k_mtxs r) (k_trefs r)
    (k_srcs r) (k_lsts r) (k_mbs r) (k_vtlist r) (k_vts r) (k_lasttime r) (f (k_now r))
    (k_alarm r).
Definition set_k_alarm (f : option Z -> option Z) (r : ch_system) : ch_system :=
  Ch (k_threads r) (k_rlist r) (k_current r) (k_queues r) (k_sems r) (k_mtxs r) (k_trefs r)
    (k_srcs r) (k_lsts r) (k_mbs r) (k_vtlist r) (k_vts r) (k_lasttime r) (k_now r) (f
    (k_alarm r)).

(** ** Accessors *)

Abbreviation K := (M ch_system).

Definition currp : K tid := gets k_current.
Definition thd (t : tid) : K thread_t := deref (fun k => k_threads k !! t).
Definition on_thd (t : tid) (f : thread_t -> thread_t) : K unit :=
  update (fun k => th ← k_threads k !! t; Some (set_k_threads (insert t (f th)) k)).
Definition set_state (t : tid) (st : tstate_t) : K unit := on_thd t (set_t_state (fun _ => st)).
Definition set_u (t : tid) (u : thread_u) : K unit := on_thd t (set_t_u (fun _ => u)).

Definition u_rdymsg (u : thread_u) : option Z :=
  match u with u_msg m => Some m | _ => None end.
Definition get_rdymsg (t : tid) : K Z :=
  deref (fun k => th ← k_threads k !! t; u_rdymsg (t_u th)).

Definition prio_of (k : ch_system) (t : tid) : Z := from_option t_prio NOPRIO (k_threads k !! t).

Definition queue_of (k : ch_system) (q : qid) : list tid := default [] (k_queues k !! q).
Definition on_queue (q : qid) (f : list tid -> list tid) : K unit :=
  modify (fun k => set_k_queues (insert q (f (queue_of k q))) k).

(** The operations of [chschd.h] on the queues. *)
Definition queue_init (q : qid) : K unit := on_queue q (fun _ => []).
Definition queue_notempty (q : qid) : K bool :=
  gets (fun k => bool_decide (queue_of k q <> [])).
Definition queue_insert (t : tid) (q : qid) : K unit := on_queue q (fun l => l ++ [t]).
Definition queue_fifo_remove (q : qid) : K tid :=
  l ← gets (fun k => queue_of k q);
  match l with
  | [] => undefined
  | t :: l => on_queue q (fun _ => l);; mret t
  end.
Definition queue_lifo_remove (q : qid) : K tid :=
  l ← gets (fun k => queue_of k q);
  match last l with
  | None => undefined
  | Some t => on_queue q (@removelast _);; mret t
  end.
(** [queue_dequeue] unlinks a thread from the queue it is in, whichever it is. *)
Definition queue_dequeue (t : tid) : K unit :=
  modify (fun k => set_k_rlist (filter (fun x => x <> t))
    (set_k_queues (fmap (M := gmap qid) (filter (fun x => x <> t))) k)).
(** After the threads of at least its priority. *)
Definition prio_insert (k : ch_system) (t : tid) (l : list tid) : list tid :=
  ThreadQueue.insert_after (fun c => prio_of k t <=? prio_of k c) t l.
Definition queue_prio_insert (t : tid) (q : qid) : K unit :=
  k ← get; on_queue q (prio_insert k t).

Definition thread_get_current (k : ch_system) : option thread_t := k_threads k !! k_current k.

(** What is left of a state when the timers are forgotten: the operations on timers
    leave it alone. *)
Definition but_timers (k : ch_system) : ch_system :=
  set_k_vtlist (fun _ => []) (set_k_vts (fun _ => ∅)
    (set_k_lasttime (fun _ => 0) (set_k_alarm (fun _ => None) k))).
