(* ===== verification/ChVt.v ===== *)
(** * Virtual timers: [os/rt/src/chvt.c], [os/rt/include/chvt.h] and [chtime.h]

    The armed timers are a list in which each timer holds its distance from the one
    before it, the first one from [ch.vtlist.lasttime].  The theorems speak of the
    expiry of a timer, the sum of the distances up to it. *)

From S2P Require Import Prelude CLib Prog Kernel.

Module ChVt.

(** ** Time: [chtime.h] *)

Definition CH_CFG_ST_FREQUENCY : Z := 10000.
Definition CH_CFG_ST_TIMEDELTA : Z := 2.

(** [time_conv_t] is 64 bits wide, system times and intervals 32. *)
Definition chTimeMS2I (msec : Z) : Z :=
  u32 (u64 (u64 (msec * CH_CFG_ST_FREQUENCY) + 999) / 1000).
Definition chTimeS2I (secs : Z) : Z := u32 (u64 (secs * CH_CFG_ST_FREQUENCY)).
Definition chTimeI2MS (interval : Z) : Z :=
  u32 (u64 (u64 (interval * 1000) + CH_CFG_ST_FREQUENCY - 1) / CH_CFG_ST_FREQUENCY).
Definition chTimeAddX (systime interval : Z) : Z := u32 (systime + interval).
Definition chTimeDiffX (start stop : Z) : Z := u32 (stop - start).
Definition chTimeIsInRangeX (time start stop : Z) : bool := u32 (time - start) <? u32 (stop - start).

(** ** The list *)

Definition vtlist_t : Type := list (vtid * Z).

(** The [delta] of the header. *)
Definition HDR_DELTA : Z := 2 ^ 32 - 1.
Definition first_delta (l : vtlist_t) : Z :=
  match l with [] => HDR_DELTA | (_, d) :: _ => d end.

(** The search and the insertion at the end of [chVTDoSetI]. *)
Fixpoint vt_link (v : vtid) (delta : Z) (l : vtlist_t) : vtlist_t :=
  match l with
  | [] => [(v, delta)]
  | (p, d) :: l' =>
      if d <? delta then (p, d) :: vt_link v (u32 (delta - d)) l'
      else (v, delta) :: (p, u32 (d - delta)) :: l'
  end.

(** [p->delta += delta] for the first timer of a list. *)
Definition first_add (delta : Z) (l : vtlist_t) : vtlist_t :=
  match l with [] => [] | (p, d) :: l' => (p, u32 (d + delta)) :: l' end.

Fixpoint vt_unlink (v : vtid) (l : vtlist_t) : option vtlist_t :=
  match l with
  | [] => None
  | (p, d) :: l' =>
      if decide (p = v) then Some (first_add d l') else cons (p, d) <$> vt_unlink v l'
  end.

(** ** The operations *)

Definition port_timer_set_alarm (t : Z) : K unit := modify (set_k_alarm (fun _ => Some t)).
Definition port_timer_stop_alarm : K unit := modify (set_k_alarm (fun _ => None)).
Definition set_vtlist (l : vtlist_t) : K unit := modify (set_k_vtlist (fun _ => l)).
Definition chVTGetSystemTimeX : K Z := gets k_now.

Definition chVTObjectInit (v : vtid) : K unit :=
  modify (set_k_vts (insert v (VTimer None 0))).

Definition chVTIsArmedI (v : vtid) : K bool :=
  vt ← deref (fun k => k_vts k !! v);
  mret (bool_decide (vt_func vt <> None)).

Definition set_func (v : vtid) (f : option vtfunc_t) : K unit :=
  update (fun k => vt ← k_vts k !! v;
    Some (set_k_vts (insert v (set_vt_func (fun _ => f) vt)) k)).

Definition chVTDoSetI (v : vtid) (delay : Z) (vtfunc : vtfunc_t) (par : nat) : K unit :=
  modify (set_k_vts (insert v (VTimer (Some vtfunc) par)));;
  now ← chVTGetSystemTimeX;
  let delay := if delay <? CH_CFG_ST_TIMEDELTA then CH_CFG_ST_TIMEDELTA else delay in
  l ← gets k_vtlist;
  match l with
  | [] =>
      modify (set_k_lasttime (fun _ => now));;
      set_vtlist [(v, delay)];;
      lasttime ← gets k_lasttime;
      port_timer_set_alarm (chTimeAddX lasttime delay)
  | (p, d) :: l' =>
      lasttime ← gets k_lasttime;
      let delta := u32 (chTimeDiffX lasttime now + delay) in
      if delta <? chTimeDiffX lasttime now then
        set_vtlist ((p, d) :: vt_link v (u32 (delta - d)) l')
      else
        (if delta <? d then port_timer_set_alarm (chTimeAddX lasttime delta) else mret tt);;
        set_vtlist (vt_link v delta l)
  end.

Definition chVTDoResetI (v : vtid) : K unit :=
  l ← gets k_vtlist;
  match l with
  | [] => undefined
  | (p, d) :: l' =>
      if decide (p <> v) then
        l2 ← deref (fun _ => vt_unlink v l);
        set_vtlist l2;; set_func v None
      else
        set_vtlist l';; set_func v None;;
        match l' with
        | [] => port_timer_stop_alarm
        | _ :: _ =>
            set_vtlist (first_add d l');;
            lasttime ← gets k_lasttime;
            now ← chVTGetSystemTimeX;
            let nowdelta := chTimeDiffX lasttime now in
            if first_delta (first_add d l') <=? nowdelta then mret tt
            else
              let delta := u32 (first_delta (first_add d l') - nowdelta) in
              let delta := if delta <? CH_CFG_ST_TIMEDELTA
                           then u32 (nowdelta + CH_CFG_ST_TIMEDELTA)
                           else u32 (nowdelta + delta) in
              port_timer_set_alarm (chTimeAddX lasttime delta)
        end
  end.

Definition chVTResetI (v : vtid) : K unit :=
  armed ← chVTIsArmedI v;
  if (armed : bool) then chVTDoResetI v else mret tt.

Definition chVTSetI (v : vtid) (delay : Z) (vtfunc : vtfunc_t) (par : nat) : K unit :=
  chVTResetI v;; chVTDoSetI v delay vtfunc par.

Definition chVTReset (v : vtid) : prog ch_system unit := locked (Atom (chVTResetI v)).
Definition chVTSet (v : vtid) (delay : Z) (vtfunc : vtfunc_t) (par : nat) : prog ch_system unit :=
  locked (Atom (chVTSetI v delay vtfunc par)).

(** [chVTGetTimersStateI]: the time to the next alarm, if there is one. *)
Definition chVTGetTimersStateI : K (option Z) :=
  l ← gets k_vtlist;
  match l with
  | [] => mret None
  | (_, d) :: _ =>
      now ← chVTGetSystemTimeX;
      lasttime ← gets k_lasttime;
      mret (Some (chTimeDiffX now (chTimeAddX lasttime (u32 (d + CH_CFG_ST_TIMEDELTA)))))
  end.

(** ** The tick *)

Section tick.
(** The functions of the timers; they run with the interrupts enabled. *)
Context (call : vtfunc_t -> nat -> K unit).

(** The [do ... while]: the first timer fires. *)
Fixpoint tick_fire (fuel : nat) (nowdelta : Z) : K unit :=
  match fuel with
  | O => undefined
  | S fuel =>
      l ← gets k_vtlist;
      match l with
      | [] => undefined
      | (v, d) :: l' =>
          modify (set_k_lasttime (fun t => u32 (t + d)));;
          let nowdelta := u32 (nowdelta - d) in
          set_vtlist l';;
          vt ← deref (fun k => k_vts k !! v);
          set_func v None;;
          (match l' with [] => port_timer_stop_alarm | _ => mret tt end);;
          fn ← deref (fun _ => vt_func vt);
          call fn (vt_par vt);;
          l ← gets k_vtlist;
          if first_delta l <=? nowdelta then tick_fire fuel nowdelta else mret tt
      end
  end.

(** The [while (true)]: the last values of [now] and [nowdelta]. *)
Fixpoint tick_loop (fuel : nat) : K (Z * Z) :=
  match fuel with
  | O => undefined
  | S fuel' =>
      now ← chVTGetSystemTimeX;
      lasttime ← gets k_lasttime;
      let nowdelta := chTimeDiffX lasttime now in
      l ← gets k_vtlist;
      if nowdelta <? first_delta l then mret (now, nowdelta)
      else tick_fire fuel nowdelta;; tick_loop fuel'
  end.

Definition chVTDoTickI (fuel : nat) : K unit :=
  '(now, nowdelta) ← tick_loop fuel;
  l ← gets k_vtlist;
  match l with
  | [] => mret tt
  | (v, d) :: l' =>
      modify (set_k_lasttime (fun t => u32 (t + nowdelta)));;
      let d := u32 (d - nowdelta) in
      set_vtlist ((v, d) :: l');;
      lasttime ← gets k_lasttime;
      let delta := chTimeDiffX now (chTimeAddX lasttime d) in
      let delta := if delta <? CH_CFG_ST_TIMEDELTA then CH_CFG_ST_TIMEDELTA else delta in
      port_timer_set_alarm (chTimeAddX now delta)
  end.
End tick.

(** ** Expiries *)

Abbreviation keys l := (fst <$> l).

Fixpoint expiry (l : vtlist_t) (v : vtid) : option Z :=
  match l with
  | [] => None
  | (p, d) :: l' => if decide (p = v) then Some d else Z.add d <$> expiry l' v
  end.

Fixpoint total (l : vtlist_t) : Z :=
  match l with [] => 0 | (_, d) :: l' => d + total l' end.

Definition positive (l : vtlist_t) : Prop := Forall (fun x => 0 <= snd x < 2 ^ 32) l.

Lemma expiry_None l v : expiry l v = None <-> v ∉ keys l.
Proof.
  induction l as [|[p d] l IH]; simpl; [split; [by intros _ ?%elem_of_nil|done]|].
  rewrite elem_of_cons. case_decide; subst; [split; [done|by intros []; left]|].
  rewrite fmap_None, IH. intuition congruence.
Qed.

Lemma total_nonneg l : positive l -> 0 <= total l.
Proof. induction 1 as [|[v d] l]; simpl in *; lia. Qed.

Lemma expiry_le_total l v e : positive l -> expiry l v = Some e -> 0 <= e <= total l.
Proof.
  intros H. revert e. induction H as [|[p d] l Hd H IH]; intros e; simpl in *; [done|].
  pose proof (total_nonneg _ H).
  case_decide; [intros; simplify_eq; lia|].
  intros (e' & E & ->)%fmap_Some. specialize (IH _ E). lia.
Qed.

Lemma vt_link_keys v delta l : v :: keys l ≡ₚ keys (vt_link v delta l).
Proof.
  revert delta. induction l as [|[p d] l IH]; intros delta; simpl; [done|].
  case_match; simpl; [|done]. rewrite <- IH. by constructor.
Qed.

Lemma vt_link_positive v delta l : positive l -> 0 <= delta < 2 ^ 32 ->
  positive (vt_link v delta l).
Proof.
  intros H. revert delta. induction H as [|[p d] l Hd H IH]; intros delta Hdelta; simpl in *.
  - constructor; [simpl; lia|constructor].
  - destruct (d <? delta) eqn:E; zbool; constructor; simpl; [lia| |lia|].
    + apply IH, u32_range.
    + constructor; [apply u32_range|done].
Qed.

Lemma vt_link_total v delta l : positive l -> 0 <= delta < 2 ^ 32 ->
  total (vt_link v delta l) = Z.max delta (total l).
Proof.
  intros H. revert delta. induction H as [|[p d] l Hd H IH]; intros delta Hdelta; simpl in *;
    [lia|].
  pose proof (total_nonneg _ H).
  destruct (d <? delta) eqn:E; zbool; simpl.
  - rewrite u32_id by lia. rewrite IH by lia. lia.
  - rewrite u32_id by lia. lia.
Qed.

(** An insertion gives the timer its expiry and moves no other. *)
Lemma expiry_vt_link v delta l w : positive l -> 0 <= delta < 2 ^ 32 -> v ∉ keys l ->
  expiry (vt_link v delta l) w = if decide (w = v) then Some delta else expiry l w.
Proof.
  intros H. revert delta. induction H as [|[p d] l Hd H IH]; intros delta Hdelta Hv; simpl in *.
  - repeat case_decide; subst; done.
  - apply not_elem_of_cons in Hv as [Hvp Hv].
    destruct (d <? delta) eqn:E; zbool; simpl.
    + rewrite u32_id by lia. rewrite IH by (done || lia).
      repeat case_decide; subst; simpl; try done. f_equal. lia.
    + rewrite u32_id by lia.
      repeat case_decide; subst; simpl; try done.
      * f_equal. lia.
      * destruct (expiry l w); simpl; [|done]. f_equal. lia.
Qed.

Lemma first_add_keys d l : keys (first_add d l) = keys l.
Proof. by destruct l as [|[] ]. Qed.

Lemma vt_unlink_Some v l : v ∈ keys l -> exists l2, vt_unlink v l = Some l2.
Proof.
  induction l as [|[p d] l IH]; simpl; [set_solver|].
  intros Hv. case_decide; [eauto|]. destruct IH as [l2 ->]; [|simpl; eauto].
  apply elem_of_cons in Hv as [->|?]; done.
Qed.

Lemma expiry_first_add d l w : total l + d < 2 ^ 32 -> positive l -> 0 <= d ->
  expiry (first_add d l) w = Z.add d <$> expiry l w.
Proof.
  intros Ht Hp Hd. destruct l as [|[p e] l]; simpl in *; [done|].
  inversion_clear Hp as [|?? He Hp']. simpl in He. pose proof (total_nonneg _ Hp').
  rewrite u32_id by lia. case_decide; simpl; [f_equal; lia|].
  destruct (expiry l w); simpl; [f_equal; lia|done].
Qed.

Lemma first_add_positive d l : positive l -> positive (first_add d l).
Proof.
  destruct 1 as [|[p e] l]; simpl; constructor; simpl; [apply u32_range|done].
Qed.

Lemma first_add_total d l : total l + d < 2 ^ 32 -> positive l -> 0 <= d ->
  total (first_add d l) = match l with [] => 0 | _ => d + total l end.
Proof.
  intros Ht Hp Hd. destruct Hp as [|[p e] l He Hp]; simpl in *; [done|].
  pose proof (total_nonneg _ Hp). rewrite u32_id by lia. lia.
Qed.

Lemma vt_unlink_spec v l l2 : vt_unlink v l = Some l2 -> NoDup (keys l) ->
  positive l -> total l < 2 ^ 32 ->
  keys l ≡ₚ v :: keys l2 /\ positive l2 /\ total l2 <= total l /\
  forall w, expiry l2 w = if decide (w = v) then None else expiry l w.
Proof.
  revert l2. induction l as [|[p d] l IH]; intros l2 E Hn Hp Ht; simpl in *; [done|].
  apply NoDup_cons in Hn as [Hpl Hn]. inversion_clear Hp as [|?? Hd Hp']. simpl in Hd.
  pose proof (total_nonneg _ Hp').
  case_decide as Hpv.
  - simplify_eq. rewrite first_add_keys. split; [done|]. split; [by apply first_add_positive|].
    split; [rewrite first_add_total by (done || lia); destruct l; simpl in *; lia|].
    intros w. rewrite expiry_first_add by (done || lia).
    repeat case_decide; subst; try done. apply expiry_None in Hpl. by rewrite Hpl.
  - apply fmap_Some in E as (l3 & E & ->). destruct (IH _ E) as (Hk & Hp2 & Ht2 & He); [done..|lia|].
    split; [simpl; rewrite Hk; constructor|]. split; [by constructor|]. split; [simpl; lia|].
    intros w. simpl. rewrite He. repeat case_decide; subst; done.
Qed.

(** ** Deadlines *)

Definition elapsed (k : ch_system) : Z := chTimeDiffX (k_lasttime k) (k_now k).

(** The ticks from now to the deadline of a timer, negative when it is past. *)
Definition remaining (k : ch_system) (v : vtid) : option Z :=
  (fun e => e - elapsed k) <$> expiry (k_vtlist k) v.

Record vt_ok (k : ch_system) : Prop := {
  vo_nodup : NoDup (keys (k_vtlist k));
  vo_positive : positive (k_vtlist k);
  vo_total : total (k_vtlist k) < 2 ^ 32;
  vo_armed v : v ∈ keys (k_vtlist k) <->
    exists vt, k_vts k !! v = Some vt /\ vt_func vt <> None
}.

Lemma elapsed_range k : 0 <= elapsed k < 2 ^ 32.
Proof. apply u32_range. Qed.

Lemma chTimeDiffX_refl t : chTimeDiffX t t = 0.
Proof. unfold chTimeDiffX. by rewrite Z.sub_diag. Qed.

Ltac vt_unfold := unfold set_vtlist, port_timer_set_alarm, port_timer_stop_alarm,
  chVTGetSystemTimeX, set_func in *.

(** The list [chVTDoSetI] makes. *)
Lemma chVTDoSetI_run v delay f par k : exists k',
  chVTDoSetI v delay f par k = Some (tt, k') /\ but_timers k' = but_timers k /\
  k_now k' = k_now k /\ k_vts k' = <[v := VTimer (Some f) par]> (k_vts k) /\
  let d := Z.max CH_CFG_ST_TIMEDELTA delay in
  match k_vtlist k with
  | [] => k_vtlist k' = [(v, d)] /\ k_lasttime k' = k_now k /\
      k_alarm k' = Some (u32 (k_now k + d))
  | (p, e) :: l =>
      let delta := u32 (elapsed k + d) in
      k_lasttime k' = k_lasttime k /\
      if delta <? elapsed k then
        k_vtlist k' = (p, e) :: vt_link v (u32 (delta - e)) l /\ k_alarm k' = k_alarm k
      else k_vtlist k' = vt_link v delta (k_vtlist k) /\
        k_alarm k' = if delta <? e then Some (u32 (k_lasttime k + delta)) else k_alarm k
  end.
Proof.
  unfold chVTDoSetI. vt_unfold. msimpl. cbn.
  replace (if delay <? CH_CFG_ST_TIMEDELTA then CH_CFG_ST_TIMEDELTA else delay)
    with (Z.max CH_CFG_ST_TIMEDELTA delay) by (destruct (delay <? _) eqn:?; zbool; lia).
  destruct (k_vtlist k) as [|[p e] l] eqn:El; msimpl; cbn; rewrite ?El; [by eexists; repeat split|].
  fold (elapsed k).
  destruct (u32 (elapsed k + _) <? elapsed k) eqn:?; [by eexists; repeat split|].
  destruct (u32 (elapsed k + _) <? e) eqn:?; msimpl; eexists; repeat split; cbn; by rewrite ?El.
Qed.

Lemma set_deadline v delay f par k :
  vt_ok k -> v ∉ keys (k_vtlist k) -> 0 <= delay < 2 ^ 32 ->
  elapsed k + Z.max CH_CFG_ST_TIMEDELTA delay < 2 ^ 32 + first_delta (k_vtlist k) ->
  exists k', chVTDoSetI v delay f par k = Some (tt, k') /\ but_timers k' = but_timers k /\
    k_vts k' = <[v := VTimer (Some f) par]> (k_vts k) /\
    remaining k' v = Some (Z.max CH_CFG_ST_TIMEDELTA delay) /\
    forall w, w <> v -> remaining k' w = remaining k w.
Proof.
  intros [Hn Hp Ht Ha] Hv Hdelay Hsum.
  destruct (chVTDoSetI_run v delay f par k) as (k' & E & Hr & Hnow & Hvts & H).
  exists k'. do 3 (split; [done|]). unfold remaining.
  pose proof (elapsed_range k). unfold CH_CFG_ST_TIMEDELTA in *.
  destruct (k_vtlist k) as [|[p e] l] eqn:El; simpl in *.
  - destruct H as (-> & Hl & _). unfold elapsed. rewrite Hl, Hnow, chTimeDiffX_refl. simpl.
    rewrite decide_True by done. split; [simpl; f_equal; lia|].
    intros w Hw. by rewrite decide_False by done.
  - destruct H as [Hl H]. unfold elapsed in H |- *. rewrite Hl, Hnow. fold (elapsed k) in *.
    inversion_clear Hp as [|?? He Hp']. simpl in He.
    apply not_elem_of_cons in Hv as [Hvp Hv]. pose proof (total_nonneg _ Hp').
    destruct (decide (elapsed k + Z.max 2 delay < 2 ^ 32)).
    + rewrite u32_id in H by lia.
      destruct (_ <? elapsed k) eqn:Eo in H; zbool; [lia|]. destruct H as [-> _].
      assert (Hlink : forall w, expiry (vt_link v (elapsed k + Z.max 2 delay) ((p, e) :: l)) w =
        if decide (w = v) then Some (elapsed k + Z.max 2 delay) else expiry ((p, e) :: l) w).
      { intros w. apply expiry_vt_link; [by constructor|lia|by apply not_elem_of_cons]. }
      split; [rewrite Hlink, decide_True by done; simpl; f_equal; lia|].
      intros w Hw. by rewrite Hlink, decide_False.
    + replace (u32 (elapsed k + Z.max 2 delay)) with (elapsed k + Z.max 2 delay - 2 ^ 32) in H
        by (unfold u32; dlia).
      destruct (_ <? elapsed k) eqn:Eo in H; zbool; [|lia]. destruct H as [-> _].
      replace (u32 (elapsed k + Z.max 2 delay - 2 ^ 32 - e)) with (elapsed k + Z.max 2 delay - e)
        by (unfold u32; dlia).
      simpl. split.
      * rewrite decide_False, expiry_vt_link, decide_True by (done || lia); simpl. f_equal. lia.
      * intros w Hw. case_decide; [done|]. by rewrite expiry_vt_link, decide_False by (done || lia).
Qed.

(** Setting a timer gives it the deadline asked for, at least two ticks from now,
    and moves the deadline of no other timer, with 32-bit counters that may wrap. *)
Theorem chVTDoSetI_deadline v delay f par k :
  vt_ok k -> v ∉ keys (k_vtlist k) -> 0 <= delay < 2 ^ 32 ->
  elapsed k + Z.max CH_CFG_ST_TIMEDELTA delay < 2 ^ 32 + first_delta (k_vtlist k) ->
  exists k', chVTDoSetI v delay f par k = Some (tt, k') /\ but_timers k' = but_timers k /\
    k_vts k' = <[v := VTimer (Some f) par]> (k_vts k) /\
    remaining k' v = Some (Z.max CH_CFG_ST_TIMEDELTA delay) /\
    forall w, w <> v -> remaining k' w = remaining k w.
Proof. apply set_deadline. Qed.

Lemma chVTDoSetI_ok v delay f par k :
  vt_ok k -> v ∉ keys (k_vtlist k) -> 0 <= delay < 2 ^ 32 ->
  (k_vtlist k <> [] -> elapsed k + Z.max CH_CFG_ST_TIMEDELTA delay < 2 ^ 32) ->
  forall k', chVTDoSetI v delay f par k = Some (tt, k') -> vt_ok k'.
Proof.
  intros [Hn Hp Ht Ha] Hv Hdelay Hsum k2 E2.
  destruct (chVTDoSetI_run v delay f par k) as (k' & E & Hr & Hnow & Hvts & H).
  rewrite E in E2. injection E2 as <-. pose proof (elapsed_range k).
  assert (v :: keys (k_vtlist k) ≡ₚ keys (k_vtlist k') /\
    positive (k_vtlist k') /\ total (k_vtlist k') < 2 ^ 32) as (Hk & Hp2 & Ht2).
  { unfold CH_CFG_ST_TIMEDELTA in *. destruct (k_vtlist k) as [|[p e] l] eqn:El.
    - destruct H as (-> & _). simpl. split; [done|]. split; [|lia].
      constructor; [simpl; lia|constructor].
    - specialize (Hsum ltac:(done)). destruct H as [_ H]. rewrite u32_id in H by lia.
      destruct (_ <? elapsed k) eqn:Eo in H; zbool; [lia|]. destruct H as [-> _].
      split; [apply vt_link_keys|]. split; [apply vt_link_positive; [done|lia]|].
      rewrite vt_link_total by (done || lia). lia. }
  constructor; [by rewrite <- Hk; constructor|done..|].
  intros w. rewrite <- Hk, Hvts, elem_of_cons. destruct (decide (w = v)) as [->|Hw].
  - rewrite lookup_insert_eq. split; [by eexists|by left].
  - rewrite lookup_insert_ne by done. rewrite <- Ha. tauto.
Qed.

Lemma reset_deadline v k : vt_ok k -> v ∈ keys (k_vtlist k) ->
  exists k', chVTDoResetI v k = Some (tt, k') /\ but_timers k' = but_timers k /\
    vt_ok k' /\ remaining k' v = None /\ forall w, w <> v -> remaining k' w = remaining k w.
Proof.
  intros [Hn Hp Ht Ha] Hv.
  destruct (vt_unlink_Some _ _ Hv) as [l2 El2].
  destruct (vt_unlink_spec _ _ _ El2) as (Hk & Hp2 & Ht2 & He); [done..|].
  destruct (proj1 (Ha v) Hv) as (vt & Hvt & Hf).
  assert (Hrun : exists k', chVTDoResetI v k = Some (tt, k') /\ but_timers k' = but_timers k /\
    k_vts k' = <[v := set_vt_func (fun _ => None) vt]> (k_vts k) /\
    k_vtlist k' = l2 /\ k_lasttime k' = k_lasttime k /\ k_now k' = k_now k).
  { unfold chVTDoResetI. vt_unfold. msimpl.
    destruct (k_vtlist k) as [|[p d] l] eqn:El; [done|].
    case_decide as Hpv; msimpl.
    - unfold update. cbn. rewrite Hvt. cbn.
      by eexists; repeat split.
    - erewrite run_update by (cbn; rewrite Hvt; done).
      simpl in El2. rewrite decide_True in El2 by done. simplify_eq.
      destruct l as [|[q e] l]; msimpl; [by eexists; repeat split|].
      destruct (_ <=? _); [by eexists; repeat split|].
      destruct (_ <? _); by eexists; repeat split. }
  destruct Hrun as (k' & E & Hr & Hvts & Hl & Hlt & Hnow). exists k'.
  do 2 (split; [done|]).
  assert (Hex : forall w, remaining k' w = if decide (w = v) then None else remaining k w).
  { intros w. unfold remaining, elapsed. rewrite Hl, Hlt, Hnow, He. by case_decide. }
  split.
  - constructor; rewrite Hl; [|done|lia|].
    + rewrite Hk in Hn. by apply NoDup_cons in Hn as [? ?].
    + intros w. rewrite Hvts. destruct (decide (w = v)) as [->|Hw].
      * rewrite lookup_insert_eq. rewrite Hk in Hn. apply NoDup_cons in Hn as [? ?].
        split; [done|]. by intros (? & [= <-] & ?).
      * rewrite lookup_insert_ne by done. rewrite <- Ha, Hk, elem_of_cons. tauto.
  - split; [by rewrite Hex, decide_True|]. intros w Hw. by rewrite Hex, decide_False.
Qed.

(** Resetting an armed timer disarms it and moves no other deadline. *)
Theorem chVTDoResetI_deadline v k : vt_ok k -> v ∈ keys (k_vtlist k) ->
  exists k', chVTDoResetI v k = Some (tt, k') /\ but_timers k' = but_timers k /\
    vt_ok k' /\ remaining k' v = None /\ forall w, w <> v -> remaining k' w = remaining k w.
Proof. apply reset_deadline. Qed.

(** ** The tick fires what is due *)

(** The timers due within [t] ticks, the others, and what is left of [t]. *)
Fixpoint split_due (t : Z) (l : vtlist_t) : list vtid * vtlist_t * Z :=
  match l with
  | [] => ([], [], t)
  | (v, d) :: l' =>
      if d <=? t then let '(f, r, t') := split_due (t - d) l' in (v :: f, r, t')
      else ([], l, t)
  end.

(** The functions of the timers of a list, with their arguments. *)
Definition calls_of (vts : gmap vtid virtual_timer_t) (l : list vtid) : list (vtfunc_t * nat) :=
  omap (fun v => vt ← vts !! v; f ← vt_func vt; Some (f, vt_par vt)) l.

Lemma calls_of_cons vts v l vt f : vts !! v = Some vt -> vt_func vt = Some f ->
  calls_of vts (v :: l) = (f, vt_par vt) :: calls_of vts l.
Proof. intros Hv Hf. unfold calls_of. cbn [omap list_omap]. by rewrite Hv; cbn; rewrite Hf. Qed.

Lemma split_due_spec t l f r t' : split_due t l = (f, r, t') -> positive l -> 0 <= t ->
  keys l = f ++ keys r /\ 0 <= t' <= t /\ positive r /\ total r <= total l /\
  (match r with [] => True | (_, d) :: _ => t' < d end) /\
  (forall v, v ∈ f -> exists e, expiry l v = Some e /\ e <= t) /\
  (forall v, v ∉ f -> expiry l v = (fun e => e + (t - t')) <$> expiry r v).
Proof.
  revert t f r t'. induction l as [|[p d] l IH]; intros t f r t' E Hp Ht; simpl in *.
  { simplify_eq. split; [done|]. split; [lia|]. split; [done|]. split; [done|].
    split; [done|]. split; [by intros v ?%elem_of_nil|done]. }
  inversion_clear Hp as [|?? Hd Hp']. simpl in Hd.
  destruct (d <=? t) eqn:Edt; zbool.
  - destruct (split_due (t - d) l) as [[f' r'] t2] eqn:E'. simplify_eq.
    destruct (IH _ _ _ _ E') as (Hk & Hr & Hpr & Htr & Hfirst & Hdue & Hrest); [done|lia|].
    simpl. split; [by f_equal|]. split; [lia|]. split; [done|]. split; [lia|].
    split; [done|]. split.
    + intros v Hv. case_decide as Hpv; [eexists; split; [done|lia]|].
      destruct (Hdue v) as (e & -> & ?); [by apply elem_of_cons in Hv as [->|?]|].
      eexists; split; [done|]. simpl. lia.
    + intros v Hv. apply not_elem_of_cons in Hv as [Hvp Hv].
      rewrite decide_False, Hrest by done.
      destruct (expiry r v); simpl; [f_equal; lia|done].
  - simplify_eq. simpl. split; [done|]. split; [lia|]. split; [by constructor|]. split; [lia|].
    split; [done|]. split; [by intros v ?%elem_of_nil|]. intros v _.
    case_decide; simpl; [f_equal; lia|]. destruct (expiry l v); simpl; [f_equal; lia|done].
Qed.

Section tick_spec.
Context (call : vtfunc_t -> nat -> K unit).
(** What the functions of the timers promise: [P log] after the calls of [log].  They
    leave the timers alone. *)
Context (P : list (vtfunc_t * nat) -> ch_system -> Prop).

Definition timers (k : ch_system) := (k_vtlist k, k_vts k, k_lasttime k, k_now k).

Definition calls_keep : Prop := forall log f par k, P log k ->
  exists k', call f par k = Some (tt, k') /\ timers k' = timers k /\ P (log ++ [(f, par)]) k'.

(** [P] does not speak of the timers. *)
Definition timer_free : Prop := forall log k k',
  but_timers k' = but_timers k -> P log k -> P log k'.

Hypothesis Hcall : calls_keep.
Hypothesis Hfree : timer_free.

Lemma first_delta_rest t l f r t' : split_due t l = (f, r, t') -> positive l ->
  0 <= t < HDR_DELTA -> t' < first_delta r.
Proof.
  intros E Hp Ht. destruct (split_due_spec _ _ _ _ _ E) as (_ & ? & _ & _ & H & _); [done|lia|].
  destruct r as [|[]]; simpl; [lia|done].
Qed.

Definition armed_in (vts : gmap vtid virtual_timer_t) (l : list vtid) : Prop :=
  Forall (fun v => exists vt f, vts !! v = Some vt /\ vt_func vt = Some f) l.

Definition disarmed (l : list vtid) (vts vts' : gmap vtid virtual_timer_t) : Prop :=
  forall w, vts' !! w =
    (if decide (w ∈ l) then set_vt_func (fun _ => None) <$> vts !! w else vts !! w).

Lemma armed_insert vts v x l : v ∉ l -> armed_in vts l -> armed_in (<[v := x]> vts) l.
Proof.
  intros Hv H. apply Forall_forall. intros w Hw. rewrite lookup_insert_ne by congruence.
  by apply (proj1 (Forall_forall _ _) H).
Qed.

Lemma calls_insert vts v x l : v ∉ l -> calls_of (<[v := x]> vts) l = calls_of vts l.
Proof.
  intros Hv. unfold calls_of. induction l as [|w l IH]; [done|].
  apply not_elem_of_cons in Hv as [? ?]. cbn [omap list_omap].
  rewrite lookup_insert_ne by done. by destruct (_ ≫= _); [f_equal|]; apply IH.
Qed.

Lemma tick_fire_run v d l fuel k vt f log :
  k_vtlist k = (v, d) :: l -> k_vts k !! v = Some vt -> vt_func vt = Some f -> P log k ->
  exists k1, tick_fire call (S fuel) (elapsed k) k =
      (if first_delta l <=? u32 (elapsed k - d) then tick_fire call fuel (u32 (elapsed k - d)) k1
       else Some (tt, k1)) /\
    timers k1 = (l, <[v := set_vt_func (fun _ => None) vt]> (k_vts k),
                 u32 (k_lasttime k + d), k_now k) /\
    P (log ++ [(f, vt_par vt)]) k1.
Proof.
  intros El Hvt Hf HP.
  set (k0 := (match l with [] => set_k_alarm (fun _ => None) | _ => id end)
     (set_k_vts <[v := set_vt_func (fun _ => None) vt]>
        (set_k_vtlist (fun _ => l) (set_k_lasttime (fun t => u32 (t + d)) k)))).
  assert (H0 : timers k0 = (l, <[v := set_vt_func (fun _ => None) vt]> (k_vts k),
                 u32 (k_lasttime k + d), k_now k)) by (subst k0; by destruct l).
  destruct (Hcall log f (vt_par vt) k0) as (k1 & E1 & Ht1 & HP1).
  { eapply Hfree, HP. subst k0. by destruct l. }
  exists k1. split; [|by rewrite Ht1].
  cbn [tick_fire]. vt_unfold. msimpl. rewrite El. msimpl.
  erewrite run_update by (cbn; rewrite Hvt; cbn; done).
  assert (Hpre : (match l with [] => modify (set_k_alarm (fun _ => None)) | _ => mret tt end)
     (set_k_vts <[v := set_vt_func (fun _ => None) vt]>
        (set_k_vtlist (fun _ => l) (set_k_lasttime (fun t => u32 (t + d)) k))) = Some (tt, k0))
    by (subst k0; by destruct l).
  erewrite run_call by apply Hpre.
  msimpl. erewrite run_call by apply E1. msimpl.
  assert (k_vtlist k1 = l) as ->. { by rewrite H0 in Ht1; injection Ht1. }
  destruct (_ <=? _); [done|reflexivity].
Qed.

Lemma tick_fire_spec l : forall fuel k log v d,
  k_vtlist k = (v, d) :: l -> d <= elapsed k < HDR_DELTA -> positive ((v, d) :: l) ->
  NoDup (keys ((v, d) :: l)) -> armed_in (k_vts k) (keys ((v, d) :: l)) ->
  (length l < fuel)%nat -> P log k ->
  exists k' fs t', tick_fire call fuel (elapsed k) k = Some (tt, k') /\
    split_due (elapsed k) ((v, d) :: l) = (v :: fs, k_vtlist k', t') /\
    elapsed k' = t' /\ k_now k' = k_now k /\ disarmed (v :: fs) (k_vts k) (k_vts k') /\
    P (log ++ calls_of (k_vts k) (v :: fs)) k'.
Proof.
  induction l as [|[q e] l IH]; intros fuel k log v d El Ht Hp Hn Ha Hfuel HP;
    (destruct fuel as [|fuel]; [simpl in Hfuel; lia|]);
    inversion_clear Hp as [|?? Hd Hp']; simpl in Hd;
    inversion Ha as [|?? (vt & f & Hvt & Hf) Ha']; subst;
    apply NoDup_cons in Hn as [Hv Hn];
    destruct (tick_fire_run _ _ _ fuel _ _ _ _ El Hvt Hf HP) as (k1 & E1 & Ht1 & HP1);
    unfold timers in Ht1; injection Ht1 as Hl1 Hvts1 Hlt1 Hnow1;
    (assert (Hel : elapsed k1 = elapsed k - d);
      [ unfold elapsed in *; rewrite Hlt1, Hnow1; unfold chTimeDiffX, u32 in *; clear -Ht Hd; dlia |]);
    (rewrite u32_id in E1 by (unfold HDR_DELTA in Ht; lia));
    (assert (Hdis : disarmed [v] (k_vts k) (k_vts k1));
      [ intros w; rewrite Hvts1; case_decide as Hw;
        [apply list_elem_of_singleton in Hw as ->; by rewrite lookup_insert_eq, Hvt
        |rewrite lookup_insert_ne; [done|by intros ->; apply Hw; left]] |]);
    simpl split_due; (rewrite (proj2 (Z.leb_le d (elapsed k))) by lia).
  - exists k1, [], (elapsed k - d). cbn [first_delta] in E1.
    destruct (HDR_DELTA <=? elapsed k - d) eqn:?; zbool; [lia|].
    do 2 (split; [by rewrite ?Hl1|]). do 3 (split; [done|]).
    by erewrite calls_of_cons by done.
  - cbn [first_delta] in E1. destruct (e <=? elapsed k - d) eqn:Ee; zbool.
    + rewrite <- Hel in E1.
      destruct (IH fuel k1 (log ++ [(f, vt_par vt)]) q e) as
        (k2 & fs & t' & E2 & Es & Hel2 & Hnow2 & Hdis2 & HP2); [done| |done..| |simpl in Hfuel; lia|done|].
      { rewrite Hel. lia. }
      { rewrite Hvts1. by apply armed_insert. }
      rewrite Hel in Es. simpl in Es. rewrite (proj2 (Z.leb_le e _)) in Es by lia.
      exists k2, (q :: fs), t'. split; [by rewrite E1|].
      destruct (split_due (elapsed k - d - e) l) as [[f2 r2] t2] eqn:Esd. simplify_eq.
      assert (Hkeys : v ∉ q :: fs).
      { intros [->|Hin]%elem_of_cons; [apply Hv; by left|].
        assert (v ∈ keys l); [|apply Hv; by right].
        destruct (split_due_spec _ _ _ _ _ Esd) as [-> _]; [by inversion Hp'|lia|].
        apply elem_of_app. by left. }
      split; [done|]. split; [done|]. split; [congruence|]. split.
      * intros w. rewrite Hdis2, (Hdis w). clear -Hkeys.
        destruct (decide (w ∈ [v])) as [Hw|Hw].
        -- apply list_elem_of_singleton in Hw as ->.
           rewrite decide_False by done. by rewrite decide_True by (by left).
        -- rewrite list_elem_of_singleton in Hw. rewrite (decide_ext (w ∈ v :: q :: fs) (w ∈ q :: fs));
             [done|rewrite (elem_of_cons _ w v); tauto].
      * rewrite Hvts1, calls_insert in HP2 by done.
        erewrite calls_of_cons by done. by rewrite <- (assoc_L app) in HP2.
    + rewrite E1. exists k1, [], (elapsed k - d).
      do 2 (split; [by rewrite ?Hl1|]). do 3 (split; [done|]).
      by erewrite calls_of_cons by done.
Qed.

(** The loop ends after one round of firings. *)
Lemma tick_loop_spec fuel k : vt_ok k -> elapsed k < HDR_DELTA ->
  (length (k_vtlist k) + 1 < fuel)%nat -> P [] k ->
  exists k' fs t', tick_loop call fuel k = Some ((k_now k, t'), k') /\
    split_due (elapsed k) (k_vtlist k) = (fs, k_vtlist k', t') /\
    elapsed k' = t' /\ k_now k' = k_now k /\ disarmed fs (k_vts k) (k_vts k') /\
    P (calls_of (k_vts k) fs) k'.
Proof.
  intros [Hn Hp Ht Ha] Hel Hfuel HP. pose proof (elapsed_range k) as Hr.
  destruct fuel as [|fuel]; [lia|]. cbn [tick_loop]. vt_unfold. msimpl. fold (elapsed k).
  destruct (split_due (elapsed k) (k_vtlist k)) as [[fs r] t'] eqn:Es.
  pose proof (first_delta_rest _ _ _ _ _ Es Hp ltac:(lia)) as Hfirst.
  destruct (elapsed k <? first_delta (k_vtlist k)) eqn:E; zbool.
  - destruct (k_vtlist k) as [|[v d] l] eqn:El; simpl in E, Es.
    + simplify_eq. exists k, [], (elapsed k). rewrite El. repeat split; done.
    + rewrite (proj2 (Z.leb_gt d _)) in Es by lia. simplify_eq.
      exists k, [], (elapsed k). rewrite El. repeat split; done.
  - destruct (k_vtlist k) as [|[v d] l] eqn:El; simpl in E; [lia|].
    destruct (tick_fire_spec l (S fuel) k [] v d El) as
      (k' & f & t2 & E2 & Es2 & Hel2 & Hnow2 & Hdis2 & HP2); [lia|done|done| |simpl in Hfuel; lia|done|].
    { apply Forall_forall. intros w Hw. apply Ha in Hw as (vt & ? & Hf).
      destruct (vt_func vt) eqn:?; [eauto|done]. }
    rewrite Es in Es2. simplify_eq.
    erewrite run_call by apply E2. simpl in Hfuel.
    destruct fuel as [|fuel]; [lia|]. cbn [tick_loop]. vt_unfold. msimpl. fold (elapsed k').
    rewrite (proj2 (Z.ltb_lt _ _) Hfirst).
    exists k', (v :: f), (elapsed k'). rewrite Hnow2. repeat split; done.
Qed.

Lemma expiry_first_sub v d t r w :
  expiry ((v, d - t) :: r) w = (fun e => e - t) <$> expiry ((v, d) :: r) w.
Proof.
  simpl. case_decide; [done|]. destruct (expiry r w); simpl; [f_equal; lia|done].
Qed.

Lemma due_iff k fs r t' : positive (k_vtlist k) ->
  split_due (elapsed k) (k_vtlist k) = (fs, r, t') ->
  forall v, v ∈ fs <-> exists e, remaining k v = Some e /\ e <= 0.
Proof.
  intros Hp Es v. pose proof (elapsed_range k).
  destruct (split_due_spec _ _ _ _ _ Es) as (_ & Ht' & Hpr & _ & Hfirst & Hdue & Hrest); [done|lia|].
  unfold remaining. split.
  - intros (e & -> & ?)%Hdue. eexists; split; [done|]. lia.
  - intros (e & He & Hle). destruct (decide (v ∈ fs)) as [|Hnv]; [done|exfalso].
    rewrite (Hrest _ Hnv) in He. apply fmap_Some in He as (e1 & He & ->).
    apply fmap_Some in He as (e2 & He & ->).
    destruct r as [|[w d] r]; [done|]. inversion_clear Hpr as [|?? Hd Hpr']; simpl in *.
    revert He. case_decide; [intros; simplify_eq; lia|].
    intros (e3 & He%(expiry_le_total _ _ _ Hpr') & ->)%fmap_Some. lia.
Qed.

(** What remains of the armed timers after the firings. *)
Lemma fired_armed k k' fs : NoDup (keys (k_vtlist k)) ->
  (forall v, v ∈ keys (k_vtlist k) <-> exists vt, k_vts k !! v = Some vt /\ vt_func vt <> None) ->
  keys (k_vtlist k) = fs ++ keys (k_vtlist k') -> disarmed fs (k_vts k) (k_vts k') ->
  forall v, v ∈ keys (k_vtlist k') <-> exists vt, k_vts k' !! v = Some vt /\ vt_func vt <> None.
Proof.
  intros Hn Ha Hk Hdis v. rewrite Hk in Hn. apply NoDup_app in Hn as (_ & Hdisj & _).
  rewrite (Hdis v). specialize (Ha v). rewrite Hk, elem_of_app in Ha. case_decide as Hv.
  - split; [by intros ?%(Hdisj v)|]. intros (vt & H & Hf).
    apply fmap_Some in H as (vt0 & _ & ->). done.
  - rewrite <- Ha. tauto.
Qed.

(** The end of the tick: the reference time becomes the present. *)
Lemma rebase_time k t' d : elapsed k = t' -> 0 <= t' < d -> d < 2 ^ 32 ->
  chTimeDiffX (u32 (k_lasttime k + t')) (k_now k) = 0 /\
  chTimeDiffX (k_now k) (chTimeAddX (u32 (k_lasttime k + t')) (d - t')) = d - t'.
Proof. unfold elapsed, chTimeDiffX, chTimeAddX, u32. intros. split; dlia. Qed.

End tick_spec.
End ChVt.
