(* ===== verification/ChSchd.v ===== *)
(** * The scheduler: [os/rt/src/chschd.c] and the inline functions of [chschd.h]

    The functions of class S that may give the processor away are programs with a
    [Switch] where the code calls [chSysSwitch]. *)

From stdpp Require Import sorting.
From S2P Require Import Prelude CLib Prog ThreadQueue Kernel ChVt.

Module ChSchd.
Import ChVt.

(** [threads_queue_t] of the ready list: its header has priority [NOPRIO]. *)
Definition firstprio (k : ch_system) : Z :=
  match k_rlist k with [] => NOPRIO | t :: _ => prio_of k t end.

Definition _scheduler_init : K unit := modify (set_k_rlist (fun _ => [])).

Definition chSchReadyI (tp : tid) : K unit :=
  set_state tp CH_STATE_READY;;
  modify (fun k => set_k_rlist
    (ThreadQueue.insert_after (fun c => prio_of k tp <=? prio_of k c) tp) k).

Definition chSchReadyAheadI (tp : tid) : K unit :=
  set_state tp CH_STATE_READY;;
  modify (fun k => set_k_rlist
    (ThreadQueue.insert_after (fun c => prio_of k tp <? prio_of k c) tp) k).

(** [currp = queue_fifo_remove(&ch.rlist.queue); currp->state = CH_STATE_CURRENT;] *)
Definition next_thread : K unit :=
  l ← gets k_rlist;
  match l with
  | [] => undefined
  | ntp :: l =>
      modify (set_k_rlist (fun _ => l));;
      modify (set_k_current (fun _ => ntp));;
      set_state ntp CH_STATE_CURRENT
  end.

(** [chSchGoSleepS] up to the switch. *)
Definition go_sleep (newstate : tstate_t) : K unit :=
  otp ← currp;
  set_state otp newstate;;
  next_thread.

Definition chSchGoSleepS (newstate : tstate_t) : prog ch_system unit :=
  Atom (go_sleep newstate);; Switch.

Definition chSemFastSignalI (sp : nat) : K unit :=
  update (fun k => n ← k_sems k !! sp; Some (set_k_sems (insert sp (i32 (n + 1))) k)).

(** The function of the timers of [chSchGoSleepTimeoutS]. *)
Definition wakeup (tp : tid) : K unit :=
  th ← thd tp;
  let ready := set_u tp (u_msg MSG_TIMEOUT);; chSchReadyI tp in
  match t_state th with
  | CH_STATE_READY => mret tt
  | CH_STATE_SUSPENDED =>
      match t_u th with
      | u_wttrp trp => modify (set_k_trefs (insert trp None));; ready
      | _ => undefined
      end
  | CH_STATE_WTSEM =>
      match t_u th with
      | u_wtsemp sp => chSemFastSignalI sp;; queue_dequeue tp;; ready
      | _ => undefined
      end
  | CH_STATE_QUEUED | CH_STATE_WTCOND => queue_dequeue tp;; ready
  | _ => ready
  end.

Definition chSchGoSleepTimeoutS (newstate : tstate_t) (timeout : Z) : prog ch_system Z :=
  if bool_decide (timeout <> TIME_INFINITE) then
    self ← Atom currp;
    let vt := vt_stack self in
    Atom (chVTDoSetI vt timeout vt_wakeup self);;
    chSchGoSleepS newstate;;
    Atom (chVTResetI vt);;
    Atom (t ← currp; get_rdymsg t)
  else
    chSchGoSleepS newstate;;
    Atom (t ← currp; get_rdymsg t).

(** [chSchWakeupS] up to the switch: [true] if there is one. *)
Definition wakeup_now (ntp : tid) (msg : Z) : K bool :=
  otp ← currp;
  set_u ntp (u_msg msg);;
  n ← thd ntp;
  o ← thd otp;
  if t_prio n <=? t_prio o then
    chSchReadyI ntp;; mret false
  else
    chSchReadyI otp;;
    modify (set_k_current (fun _ => ntp));;
    set_state ntp CH_STATE_CURRENT;;
    mret true.

Definition chSchWakeupS (ntp : tid) (msg : Z) : prog ch_system unit :=
  b ← Atom (wakeup_now ntp msg);
  if (b : bool) then Switch else mret tt.

Definition current_prio : K Z := t ← currp; th ← thd t; mret (t_prio th).

Definition chSchIsRescRequiredI : K bool :=
  p1 ← gets firstprio; p2 ← current_prio; mret (p2 <? p1).

Definition chSchIsPreemptionRequired : K bool :=
  p1 ← gets firstprio; p2 ← current_prio; mret (p2 <? p1).

(** [chSchDoRescheduleBehind] and [chSchDoRescheduleAhead] up to the switch. *)
Definition resched_behind : K unit := otp ← currp; next_thread;; chSchReadyI otp.
Definition resched_ahead : K unit := otp ← currp; next_thread;; chSchReadyAheadI otp.

Definition chSchDoRescheduleBehind : prog ch_system unit := Atom resched_behind;; Switch.
Definition chSchDoRescheduleAhead : prog ch_system unit := Atom resched_ahead;; Switch.
(** Without time quantum the two last ones are the same. *)
Definition chSchDoReschedule : prog ch_system unit := Atom resched_ahead;; Switch.

Definition chSchRescheduleS : prog ch_system unit :=
  b ← Atom chSchIsRescRequiredI;
  if (b : bool) then chSchDoRescheduleAhead else mret tt.

Definition chSchCanYieldS : K bool :=
  p1 ← gets firstprio; p2 ← current_prio; mret (p2 <=? p1).

Definition chSchDoYieldS : prog ch_system unit :=
  b ← Atom chSchCanYieldS;
  if (b : bool) then chSchDoRescheduleBehind else mret tt.

Definition chSchPreemption : prog ch_system unit :=
  b ← Atom chSchIsPreemptionRequired;
  if (b : bool) then chSchDoRescheduleAhead else mret tt.


(** ** Priority order *)

Section order.
Context (pr : tid -> Z).

Definition prio_sorted (l : list tid) : Prop := StronglySorted (fun a b => pr b <= pr a) l.

Lemma insert_after_perm b t l : ThreadQueue.insert_after b t l ≡ₚ t :: l.
Proof.
  unfold ThreadQueue.insert_after. rewrite <- Permutation_middle. by rewrite <- span_app.
Qed.

Lemma insert_after_cons b t c l : ThreadQueue.insert_after b t (c :: l) =
  if b c then c :: ThreadQueue.insert_after b t l else t :: c :: l.
Proof. unfold ThreadQueue.insert_after. simpl. by destruct (b c), (span b l). Qed.

(** Both insertions keep the order, whatever is done with equal priorities. *)
Lemma insert_after_sorted b t l : prio_sorted l ->
  (forall c, b c = true -> pr t <= pr c) -> (forall c, b c = false -> pr c <= pr t) ->
  prio_sorted (ThreadQueue.insert_after b t l).
Proof.
  intros Hs Ht Hf. induction Hs as [|c l Hs IH Hc].
  - repeat constructor.
  - rewrite insert_after_cons. destruct (b c) eqn:Eb.
    + constructor; [done|]. rewrite insert_after_perm. constructor; [by apply Ht|done].
    + apply Hf in Eb. repeat constructor; [done..|].
      eapply Forall_impl; [done|]. simpl. lia.
Qed.

(** Equal priorities: behind them, or ahead of them. *)
Lemma insert_behind_fifo t l : prio_sorted l ->
  filter (fun c => pr c = pr t) (ThreadQueue.insert_after (fun c => pr t <=? pr c) t l) =
  filter (fun c => pr c = pr t) l ++ [t].
Proof.
  induction 1 as [|c l Hs IH Hc].
  - unfold ThreadQueue.insert_after. cbn [span app fst snd]. by rewrite filter_cons_True.
  - rewrite insert_after_cons. destruct (pr t <=? pr c) eqn:E; zbool.
    + rewrite !filter_cons, IH. by destruct (decide (pr c = pr t)).
    + rewrite filter_cons_True by done. rewrite filter_none; [done|].
      intros x [->|Hx]%elem_of_cons; [lia|].
      pose proof (proj1 (Forall_forall _ _) Hc _ Hx). simpl in *. lia.
Qed.

Lemma insert_ahead_lifo t l : prio_sorted l ->
  filter (fun c => pr c = pr t) (ThreadQueue.insert_after (fun c => pr t <? pr c) t l) =
  t :: filter (fun c => pr c = pr t) l.
Proof.
  induction 1 as [|c l Hs IH Hc].
  - unfold ThreadQueue.insert_after. cbn [span app fst snd]. by rewrite filter_cons_True.
  - rewrite insert_after_cons. destruct (pr t <? pr c) eqn:E; zbool.
    + rewrite !filter_cons, IH. destruct (decide (pr c = pr t)); [lia|done].
    + by rewrite filter_cons_True.
Qed.
End order.

(** ** The invariant of the scheduler *)

Record sched_ok (k : ch_system) : Prop := {
  so_nodup : NoDup (k_current k :: k_rlist k);
  so_exists t : t ∈ k_current k :: k_rlist k -> is_Some (k_threads k !! t);
  so_current t th : k_threads k !! t = Some th -> t_state th = CH_STATE_CURRENT <-> t = k_current k;
  so_ready t th : k_threads k !! t = Some th -> t_state th = CH_STATE_READY <-> t ∈ k_rlist k;
  so_sorted : prio_sorted (prio_of k) (k_rlist k);
  so_prio t th : k_threads k !! t = Some th -> NOPRIO < t_prio th
}.

(** No ready thread has a higher priority than the running one. *)
Definition top (k : ch_system) : Prop := forall t, t ∈ k_rlist k -> prio_of k t <= prio_of k (k_current k).

(** A thread that waits for something. *)
Definition waits (k : ch_system) (t : tid) : Prop := exists th, k_threads k !! t = Some th /\
  t_state th <> CH_STATE_CURRENT /\ t_state th <> CH_STATE_READY.

(** Threads differ in nothing the scheduler looks at. *)
Definition with_state (st : tstate_t) (t : tid) (th : thread_t) (k : ch_system) : ch_system :=
  set_k_threads (insert t (set_t_state (fun _ => st) th)) k.

Lemma prio_of_insert k t th th' x : k_threads k !! t = Some th -> t_prio th' = t_prio th ->
  prio_of (set_k_threads (insert t th') k) x = prio_of k x.
Proof.
  intros Ht Hp. unfold prio_of. cbn. destruct (decide (x = t)) as [->|].
  - by rewrite lookup_insert_eq, Ht.
  - by rewrite lookup_insert_ne.
Qed.

Lemma prio_of_with_state st k t th x : k_threads k !! t = Some th ->
  prio_of (with_state st t th k) x = prio_of k x.
Proof. intros Ht. by eapply prio_of_insert. Qed.

Lemma prio_sorted_ext_in pr pr' l : (forall t, t ∈ l -> pr t = pr' t) -> prio_sorted pr l -> prio_sorted pr' l.
Proof.
  intros H. induction 1 as [|c l Hs IH Hc]; constructor; [apply IH; intros x Hx; apply H; by right|].
  rewrite Forall_forall in Hc |- *. intros x Hx. rewrite <- (H c), <- (H x); [by apply Hc|by right|by left].
Qed.
Lemma prio_sorted_ext pr pr' l : (forall t, pr t = pr' t) -> prio_sorted pr l -> prio_sorted pr' l.
Proof. intros H. by apply prio_sorted_ext_in. Qed.

Lemma insert_after_ext b b' t l : (forall c, b c = b' c) ->
  ThreadQueue.insert_after b t l = ThreadQueue.insert_after b' t l.
Proof.
  intros H. induction l as [|c l IH]; [done|]. by rewrite !insert_after_cons, H, IH.
Qed.

Definition readied (l : list tid) (t : tid) (th : thread_t) (k : ch_system) : ch_system :=
  set_k_rlist (fun _ => l) (with_state CH_STATE_READY t th k).

Lemma set_state_run t st k th : k_threads k !! t = Some th ->
  set_state t st k = Some (tt, with_state st t th k).
Proof. intros H. unfold set_state, on_thd, update. by rewrite H. Qed.

Lemma chSchReadyI_run t k th : k_threads k !! t = Some th ->
  chSchReadyI t k = Some (tt,
    readied (ThreadQueue.insert_after (fun c => prio_of k t <=? prio_of k c) t (k_rlist k)) t th k).
Proof.
  intros H. unfold chSchReadyI. erewrite run_call by by apply set_state_run. unfold modify.
  do 2 f_equal. unfold readied, set_k_rlist. cbn. f_equal. apply insert_after_ext.
  intros c. by rewrite !prio_of_with_state.
Qed.

Lemma chSchReadyAheadI_run t k th : k_threads k !! t = Some th ->
  chSchReadyAheadI t k = Some (tt,
    readied (ThreadQueue.insert_after (fun c => prio_of k t <? prio_of k c) t (k_rlist k)) t th k).
Proof.
  intros H. unfold chSchReadyAheadI. erewrite run_call by by apply set_state_run. unfold modify.
  do 2 f_equal. unfold readied, set_k_rlist. cbn. f_equal. apply insert_after_ext.
  intros c. by rewrite !prio_of_with_state.
Qed.

(** A waiting thread enters the ready list at a place that keeps the order. *)
Lemma readied_ok l t th k : sched_ok k -> k_threads k !! t = Some th ->
  t_state th <> CH_STATE_CURRENT -> t_state th <> CH_STATE_READY ->
  l ≡ₚ t :: k_rlist k -> prio_sorted (prio_of k) l -> sched_ok (readied l t th k).
Proof.
  intros [Hn He Hc Hr Hs Hp] Ht Hnc Hnr Hl Hsl.
  assert (t <> k_current k) by (by intros ?%(Hc _ _ Ht)).
  assert (t ∉ k_rlist k) by (by intros ?%(Hr _ _ Ht)).
  constructor; cbn.
  - rewrite Hl. apply NoDup_cons in Hn as [? ?].
    apply NoDup_cons. split; [|by apply NoDup_cons].
    intros [?|?]%elem_of_cons; [congruence|done].
  - intros x Hx. rewrite lookup_insert_is_Some. destruct (decide (t = x)); [by left|right].
    split; [done|]. apply He. rewrite Hl, !elem_of_cons in Hx. rewrite elem_of_cons.
    destruct Hx as [?|[?|?]]; auto; congruence.
  - intros x thx [[<- <-]|[? Hx]]%lookup_insert_Some; [simpl; split; congruence|by apply Hc].
  - intros x thx Hx. rewrite Hl, elem_of_cons.
    apply lookup_insert_Some in Hx as [[<- <-]|[? Hx]]; [simpl; tauto|].
    pose proof (Hr _ _ Hx). intuition congruence.
  - eapply prio_sorted_ext, Hsl. intros x. symmetry. by apply prio_of_with_state.
  - intros x thx [[<- <-]|[? Hx]]%lookup_insert_Some; [by apply (Hp _ _ Ht)|by eapply Hp].
Qed.

Lemma ready_ok t k : sched_ok k -> waits k t ->
  exists k', chSchReadyI t k = Some (tt, k') /\ sched_ok k' /\
    k_current k' = k_current k /\ k_rlist k' ≡ₚ t :: k_rlist k /\
    (forall x, prio_of k' x = prio_of k x) /\
    filter (fun c => prio_of k c = prio_of k t) (k_rlist k') =
      filter (fun c => prio_of k c = prio_of k t) (k_rlist k) ++ [t].
Proof.
  intros Hok (th & Ht & Hnc & Hnr). eexists. split; [by apply chSchReadyI_run|].
  pose proof (so_sorted _ Hok) as Hs. split.
  - apply readied_ok; try done; [apply insert_after_perm|].
    apply insert_after_sorted; [done|intros; zbool; lia..].
  - split; [done|]. split; [apply insert_after_perm|]. split; [intros; by apply prio_of_with_state|].
    by apply insert_behind_fifo.
Qed.

(** [chSchReadyI] keeps the scheduler's invariant and puts the thread behind those of
    its priority: ready threads are served by priority, and first come first served among
    equals. *)
Theorem chSchReadyI_ok t k : sched_ok k -> waits k t ->
  exists k', chSchReadyI t k = Some (tt, k') /\ sched_ok k' /\
    k_current k' = k_current k /\ k_rlist k' ≡ₚ t :: k_rlist k /\
    (forall x, prio_of k' x = prio_of k x) /\
    filter (fun c => prio_of k c = prio_of k t) (k_rlist k') =
      filter (fun c => prio_of k c = prio_of k t) (k_rlist k) ++ [t].
Proof. apply ready_ok. Qed.

Lemma next_thread_run k t l th : k_rlist k = t :: l -> k_threads k !! t = Some th ->
  next_thread k = Some (tt, with_state CH_STATE_CURRENT t th
    (set_k_current (fun _ => t) (set_k_rlist (fun _ => l) k))).
Proof.
  intros Hl Ht. unfold next_thread. msimpl. rewrite Hl. msimpl. by apply set_state_run.
Qed.

(** A thread gives the processor away: it takes the state [st], the first ready thread
    runs. *)
Definition switched_to (st : tstate_t) (t : tid) (l : list tid) (k k' : ch_system) : Prop :=
  exists tho th, k_threads k !! k_current k = Some tho /\ k_threads k !! t = Some th /\
    k' = with_state CH_STATE_CURRENT t th (set_k_current (fun _ => t)
      (set_k_rlist (fun _ => l) (with_state st (k_current k) tho k))).

Lemma switched_to_prio st t l k k' x : k_current k <> t -> switched_to st t l k k' ->
  prio_of k' x = prio_of k x.
Proof.
  intros Hne (tho & th & Ho & Ht & ->). rewrite prio_of_with_state.
  - by apply prio_of_with_state.
  - cbn. by rewrite lookup_insert_ne.
Qed.

Lemma switched_to_ok st t l k k' : sched_ok k -> k_rlist k = t :: l ->
  st <> CH_STATE_CURRENT -> st <> CH_STATE_READY -> switched_to st t l k k' ->
  sched_ok k' /\ top k' /\ waits k' (k_current k).
Proof.
  intros [Hn He Hc Hr Hs Hp] Hl Hnc Hnr Hsw.
  rewrite Hl in Hn. apply NoDup_cons in Hn as [Hcur Hn]. apply NoDup_cons in Hn as [Htl Hn].
  assert (Hne : k_current k <> t) by (intros <-; apply Hcur; by left).
  pose proof (fun x => switched_to_prio _ _ _ _ _ x Hne Hsw) as Hprio.
  destruct Hsw as (tho & th & Ho & Ht & ->).
  rewrite Hl in Hs. inversion_clear Hs as [|?? Hsl Hhead].
  assert (Hlook : forall x thx,
    <[t:=set_t_state (fun _ => CH_STATE_CURRENT) th]>
      (<[k_current k:=set_t_state (fun _ => st) tho]> (k_threads k)) !! x = Some thx ->
    (x = t /\ t_state thx = CH_STATE_CURRENT /\ t_prio thx = t_prio th) \/
    (x <> t /\ x = k_current k /\ t_state thx = st /\ t_prio thx = t_prio tho) \/
    (x <> t /\ x <> k_current k /\ k_threads k !! x = Some thx)).
  { intros x thx [[<- <-]|[? Hx]]%lookup_insert_Some; [auto|].
    apply lookup_insert_Some in Hx as [[<- <-]|[? Hx]]; auto 10. }
  split; [|split].
  - constructor; cbn.
    + by constructor.
    + intros x Hx. rewrite !lookup_insert_is_Some. destruct (decide (t = x)); [by left|right].
      split; [done|]. destruct (decide (k_current k = x)); [by left|right]. split; [done|].
      apply He. rewrite Hl. by do 1 right.
    + intros x thx [(-> & -> & _)|[(? & -> & -> & _)|(? & Hx' & Hx)]]%Hlook; [done|tauto|].
      pose proof (Hc _ _ Hx). tauto.
    + intros x thx [(-> & -> & _)|[(? & -> & -> & _)|(? & Hx' & Hx)]]%Hlook.
      * split; [done|tauto].
      * split; [done|]. intros ?. destruct Hcur. by right.
      * pose proof (Hr _ _ Hx) as Hrx. rewrite Hl, elem_of_cons in Hrx. tauto.
    + eapply prio_sorted_ext, Hsl. intros x. by rewrite <- Hprio.
    + intros x thx [(-> & _ & ->)|[(? & -> & _ & ->)|(? & Hx' & Hx)]]%Hlook; by eapply Hp.
  - intros x Hx. rewrite !Hprio. cbn in Hx |- *. by apply (proj1 (Forall_forall _ _) Hhead).
  - exists (set_t_state (fun _ => st) tho). cbn. rewrite lookup_insert_ne by done.
    by rewrite lookup_insert_eq.
Qed.

Lemma go_sleep_run st k t l : sched_ok k -> k_rlist k = t :: l ->
  exists k', go_sleep st k = Some (tt, k') /\ switched_to st t l k k'.
Proof.
  intros [Hn He Hc Hr Hs Hp] Hl.
  destruct (He (k_current k)) as [tho Ho]; [by left|].
  destruct (He t) as [th Ht]; [rewrite Hl; by right; left|].
  assert (Hne : k_current k <> t).
  { intros <-. rewrite Hl in Hn. apply NoDup_cons in Hn as [Hn _]. apply Hn. by left. }
  eexists. split; [|by exists tho, th].
  unfold go_sleep, currp. msimpl. erewrite run_call by by apply set_state_run.
  apply next_thread_run; [done|]. cbn. by rewrite lookup_insert_ne.
Qed.

(** A thread that goes to sleep hands the processor to the ready thread of highest
    priority that has waited longest, and keeps the scheduler's invariant. *)
Theorem go_sleep_ok st k t l : sched_ok k -> k_rlist k = t :: l ->
  st <> CH_STATE_CURRENT -> st <> CH_STATE_READY ->
  exists k', go_sleep st k = Some (tt, k') /\ sched_ok k' /\ top k' /\
    waits k' (k_current k) /\ k_current k' = t /\ k_rlist k' = l.
Proof.
  intros Hok Hl ??. destruct (go_sleep_run st k t l) as (k' & E & Hsw); [done..|].
  exists k'. destruct (switched_to_ok st t l k k') as (? & ? & ?); [done..|].
  destruct Hsw as (? & ? & _ & _ & ->). done.
Qed.

(** ** Preemption *)

(** The running thread goes back to the ready list and [n] runs instead; the other ready
    threads are [R]. *)
Record preempted (n : tid) (R : list tid) (k k' : ch_system) : Prop := {
  pe_current : k_current k' = n;
  pe_rlist : k_rlist k' ≡ₚ k_current k :: R;
  pe_sorted : prio_sorted (prio_of k) (k_rlist k');
  pe_threads : exists tho th, k_threads k !! k_current k = Some tho /\ k_threads k !! n = Some th /\
    forall x, k_threads k' !! x =
      if decide (x = n) then Some (set_t_state (fun _ => CH_STATE_CURRENT) th)
      else if decide (x = k_current k) then Some (set_t_state (fun _ => CH_STATE_READY) tho)
      else k_threads k !! x
}.

Lemma preempted_prio n R k k' x : preempted n R k k' -> prio_of k' x = prio_of k x.
Proof.
  intros [_ _ _ (tho & th & Ho & Hn & H)]. unfold prio_of. rewrite (H x).
  repeat case_decide; subst; [by rewrite Hn|by rewrite Ho|done].
Qed.

Lemma preempted_ok n R k k' : sched_ok k -> n <> k_current k -> NoDup (n :: R) ->
  (forall x, x <> n -> x ∈ k_rlist k <-> x ∈ R) -> preempted n R k k' -> sched_ok k'.
Proof.
  intros [Hn He Hc Hr Hs Hp] Hne HnR HR Hpe.
  pose proof (fun x => preempted_prio _ _ _ _ x Hpe) as Hprio.
  destruct Hpe as [Hcur Hl Hsl (tho & th & Ho & Ht & H)].
  apply NoDup_cons in Hn as [Hcl Hn]. apply NoDup_cons in HnR as [HnR HndR].
  assert (Hco : k_current k ∉ R) by (by intros ?%(HR _ (not_eq_sym Hne))).
  constructor.
  - rewrite Hcur, Hl. apply NoDup_cons. split; [|by apply NoDup_cons].
    intros [?|?]%elem_of_cons; congruence.
  - intros x Hx. rewrite (H x). rewrite Hcur, Hl, !elem_of_cons in Hx.
    repeat case_decide; [by eexists..|]. apply He. apply elem_of_cons. right.
    apply HR; [done|]. tauto.
  - intros x thx Hx. rewrite (H x) in Hx. rewrite Hcur.
    repeat case_decide; simplify_eq; [done|simpl; split; congruence|].
    pose proof (Hc _ _ Hx). intuition congruence.
  - intros x thx Hx. rewrite (H x) in Hx. rewrite Hl, elem_of_cons.
    repeat case_decide; simplify_eq; [simpl; split; [done|intros [?|?]; [congruence|done] ]|simpl; tauto|].
    pose proof (Hr _ _ Hx). pose proof (HR x). intuition congruence.
  - eapply prio_sorted_ext, Hsl. intros x. by rewrite Hprio.
  - intros x thx Hx. rewrite (H x) in Hx. repeat case_decide; simplify_eq;
      [by apply (Hp _ _ Ht)|by apply (Hp _ _ Ho)|by eapply Hp].
Qed.

Lemma sched_ok_insert t th th' k : sched_ok k -> k_threads k !! t = Some th ->
  t_state th' = t_state th -> t_prio th' = t_prio th ->
  sched_ok (set_k_threads (insert t th') k).
Proof.
  intros [Hn He Hc Hr Hs Hp] Ht Hst Hpr. constructor; cbn; [done| | | | |].
  - intros x Hx. rewrite lookup_insert_is_Some. destruct (decide (t = x)); auto.
  - intros x thx [[<- <-]|[? Hx]]%lookup_insert_Some; [rewrite Hst|]; by apply Hc.
  - intros x thx [[<- <-]|[? Hx]]%lookup_insert_Some; [rewrite Hst|]; by apply Hr.
  - eapply prio_sorted_ext, Hs. intros x. symmetry. by eapply prio_of_insert.
  - intros x thx [[<- <-]|[? Hx]]%lookup_insert_Some; [rewrite Hpr|]; by eapply Hp.
Qed.

Lemma on_thd_run t f k th : k_threads k !! t = Some th ->
  on_thd t f k = Some (tt, set_k_threads (insert t (f th)) k).
Proof. intros H. unfold on_thd, update. by rewrite H. Qed.

Lemma current_thread k : sched_ok k -> exists th, k_threads k !! k_current k = Some th.
Proof. intros Hok. apply (so_exists _ Hok). by left. Qed.

Lemma current_prio_run k : sched_ok k -> current_prio k = Some (prio_of k (k_current k), k).
Proof.
  intros [th Hth]%current_thread. unfold current_prio, currp, thd. msimpl.
  unfold prio_of. by rewrite Hth.
Qed.

Lemma set_u_ok t u k th : sched_ok k -> k_threads k !! t = Some th ->
  exists k', set_u t u k = Some (tt, k') /\ sched_ok k' /\ k_rlist k' = k_rlist k /\
    k_current k' = k_current k /\ (forall x, prio_of k' x = prio_of k x) /\
    k' = set_k_threads (insert t (set_t_u (fun _ => u) th)) k.
Proof.
  intros Hok Ht. eexists. split; [by apply on_thd_run|].
  split; [by eapply sched_ok_insert|]. repeat split. intros x. by eapply prio_of_insert.
Qed.

Lemma wakeup_now_run n msg k th : sched_ok k -> top k -> k_threads k !! n = Some th ->
  t_state th <> CH_STATE_CURRENT -> t_state th <> CH_STATE_READY ->
  exists k', wakeup_now n msg k = Some (bool_decide (prio_of k (k_current k) < t_prio th), k') /\
    sched_ok k' /\ top k' /\ (forall x, prio_of k' x = prio_of k x) /\
    k_current k' = (if decide (prio_of k (k_current k) < t_prio th) then n else k_current k) /\
    k_rlist k' ≡ₚ (if decide (prio_of k (k_current k) < t_prio th) then k_current k else n) :: k_rlist k /\
    t_u <$> k_threads k' !! n = Some (u_msg msg).
Proof.
  intros Hok Htop Ht Hnc Hnr. destruct (current_thread _ Hok) as [tho Ho].
  assert (Hne : n <> k_current k) by (by intros ?%(so_current _ Hok _ _ Ht)).
  assert (Hnl : n ∉ k_rlist k) by (by intros ?%(so_ready _ Hok _ _ Ht)).
  destruct (set_u_ok n (u_msg msg) k th Hok Ht) as (k1 & E1 & Hok1 & Hl1 & Hc1 & Hp1 & Hk1).
  assert (Ht1 : k_threads k1 !! n = Some (set_t_u (fun _ => u_msg msg) th))
    by (subst k1; apply lookup_insert_eq).
  assert (Ho1 : k_threads k1 !! k_current k = Some tho)
    by (subst k1; cbn; by rewrite lookup_insert_ne).
  assert (Hpo : prio_of k (k_current k) = t_prio tho) by (unfold prio_of; by rewrite Ho).
  assert (Hpn : prio_of k n = t_prio th) by (unfold prio_of; by rewrite Ht).
  unfold wakeup_now, currp, thd. msimpl. erewrite run_call by apply E1. msimpl. rewrite Hpo.
  replace (t_prio (set_t_u (fun _ => u_msg msg) th)) with (t_prio th) by done.
  destruct (t_prio th <=? t_prio tho) eqn:E; zbool.
  - rewrite (bool_decide_eq_false_2 _), !decide_False by lia.
    destruct (ready_ok n k1 Hok1) as (k2 & E2 & Hok2 & Hc2 & Hl2 & Hp2 & _).
    { by exists (set_t_u (fun _ => u_msg msg) th). }
    assert (k_threads k2 !! n = Some (set_t_state (fun _ => CH_STATE_READY)
      (set_t_u (fun _ => u_msg msg) th))) as Hn2.
    { rewrite (chSchReadyI_run _ _ _ Ht1) in E2. simplify_eq. cbn. apply lookup_insert_eq. }
    erewrite run_call by apply E2. exists k2. split; [done|]. split; [done|].
    assert (Hp : forall x, prio_of k2 x = prio_of k x) by (intros; by rewrite Hp2, Hp1).
    split; [|split; [done|]; split; [congruence|]; split; [by rewrite Hl2, Hl1|by rewrite Hn2] ].
    intros x. rewrite Hl2, Hl1, Hc2, Hc1, !Hp. intros [->|?]%elem_of_cons; [lia|by apply Htop].
  - rewrite (bool_decide_eq_true_2 _), !decide_True by lia.
    erewrite run_call by by apply chSchReadyI_run. msimpl.
    set (l := ThreadQueue.insert_after _ _ _).
    assert (Hlp : l ≡ₚ k_current k :: k_rlist k) by (subst l; by rewrite insert_after_perm, Hl1).
    erewrite run_call by (apply set_state_run; cbn; by rewrite lookup_insert_ne).
    eexists. split; [reflexivity|].
    match goal with |- sched_ok ?k2 /\ _ => assert (Hpe : preempted n (k_rlist k) k1 k2) end.
    { constructor; [done|by rewrite Hc1| |].
      - cbn. subst l. apply insert_after_sorted; [|intros; zbool; lia..].
        apply (so_sorted _ Hok1).
      - rewrite Hc1. exists tho, (set_t_u (fun _ => u_msg msg) th). do 2 (split; [done|]).
        intros x. cbn. repeat case_decide; subst; rewrite ?lookup_insert_eq; [done|..];
          rewrite lookup_insert_ne by done; [by rewrite lookup_insert_eq|by rewrite lookup_insert_ne]. }
    pose proof (fun x => preempted_prio _ _ _ _ x Hpe) as Hp.
    split; [eapply preempted_ok, Hpe; [done|congruence| |by intros x; rewrite Hl1]|].
    { apply NoDup_cons. split; [done|]. by pose proof (NoDup_cons_1_2 _ _ (so_nodup _ Hok)). }
    split; [|split; [intros; by rewrite Hp, Hp1|] ].
    + intros x. rewrite !Hp, !Hp1. cbn. rewrite Hlp, Hpn.
      intros [->|Hx]%elem_of_cons; [lia|]. specialize (Htop _ Hx). lia.
    + split; [done|]. split; [done|]. cbn. by rewrite lookup_insert_eq.
Qed.

(** Waking a thread up keeps the priority rule: it runs at once exactly if its priority
    is above that of the running thread, which then goes behind its equals in the ready
    list; otherwise it becomes ready.  The message is delivered in both cases. *)
Theorem wakeup_now_ok n msg k th : sched_ok k -> top k -> k_threads k !! n = Some th ->
  t_state th <> CH_STATE_CURRENT -> t_state th <> CH_STATE_READY ->
  exists k', wakeup_now n msg k = Some (bool_decide (prio_of k (k_current k) < t_prio th), k') /\
    sched_ok k' /\ top k' /\ (forall x, prio_of k' x = prio_of k x) /\
    k_current k' = (if decide (prio_of k (k_current k) < t_prio th) then n else k_current k) /\
    k_rlist k' ≡ₚ (if decide (prio_of k (k_current k) < t_prio th) then k_current k else n) :: k_rlist k /\
    t_u <$> k_threads k' !! n = Some (u_msg msg).
Proof. apply wakeup_now_run. Qed.

(** ** Rescheduling *)

Lemma sorted_head pr t l : prio_sorted pr (t :: l) -> forall x, x ∈ l -> pr x <= pr t.
Proof. intros H x Hx. inversion_clear H. by apply (proj1 (Forall_forall _ _) H1). Qed.

Lemma firstprio_top k : sched_ok k -> top k <-> firstprio k <= prio_of k (k_current k).
Proof.
  intros Hok. pose proof (so_sorted _ Hok) as Hs. unfold top, firstprio.
  destruct (k_rlist k) as [|t l].
  - split; [|by intros _ x ?%elem_of_nil]. intros _. destruct (current_thread _ Hok) as [th Ht].
    pose proof (so_prio _ Hok _ _ Ht). unfold prio_of. rewrite Ht. simpl. unfold NOPRIO in *. lia.
  - split; [intros H; apply H; by left|]. intros H x [->|Hx]%elem_of_cons; [done|].
    pose proof (sorted_head _ _ _ Hs _ Hx). lia.
Qed.

(** A preemption in favour of the first ready thread; [ins] is the way the running thread
    is put back. *)
Lemma resched_preempted (ins : tid -> K unit) (b : Z -> Z -> bool) k n l :
  (forall t k th, k_threads k !! t = Some th -> ins t k = Some (tt,
     readied (ThreadQueue.insert_after (fun c => b (prio_of k t) (prio_of k c)) t (k_rlist k)) t th k)) ->
  (forall x y, (b x y = true -> x <= y) /\ (b x y = false -> y <= x)) ->
  sched_ok k -> k_rlist k = n :: l ->
  exists k', (otp ← currp; next_thread;; ins otp) k = Some (tt, k') /\
    preempted n l k k' /\ sched_ok k' /\
    k_rlist k' = ThreadQueue.insert_after
      (fun c => b (prio_of k (k_current k)) (prio_of k c)) (k_current k) l.
Proof.
  intros Hins Hb Hok Hl. destruct (current_thread _ Hok) as [tho Ho].
  destruct (so_exists _ Hok n) as [th Ht]; [rewrite Hl; by right; left|].
  pose proof (so_nodup _ Hok) as Hn. rewrite Hl in Hn. apply NoDup_cons in Hn as [Hcl Hn].
  assert (Hne : n <> k_current k) by (intros ->; apply Hcl; by left).
  pose proof (so_sorted _ Hok) as Hs. rewrite Hl in Hs. inversion_clear Hs as [|?? Hsl Hhd].
  unfold currp. msimpl. erewrite run_call by by apply next_thread_run.
  eexists. split; [apply Hins; cbn; by rewrite lookup_insert_ne|].
  match goal with |- preempted _ _ _ ?k2 /\ _ => assert (Hl2 : k_rlist k2 =
    ThreadQueue.insert_after (fun c => b (prio_of k (k_current k)) (prio_of k c)) (k_current k) l) end.
  { cbn. apply insert_after_ext. intros c. by rewrite !prio_of_with_state. }
  match goal with |- preempted _ _ _ ?k2 /\ _ => assert (Hpe : preempted n l k k2) end.
  { constructor; [done|by rewrite Hl2, insert_after_perm| |].
    - rewrite Hl2. apply insert_after_sorted; [done|intros c; apply Hb..].
    - exists tho, th. do 2 (split; [done|]). intros x. cbn. repeat case_decide; subst.
      + by rewrite lookup_insert_ne, lookup_insert_eq.
      + by rewrite lookup_insert_eq.
      + by rewrite !lookup_insert_ne. }
  split; [done|]. split; [|done]. eapply preempted_ok, Hpe; [done..|].
  intros x Hx. rewrite Hl, elem_of_cons. intuition congruence.
Qed.

(** Giving way to a ready thread of higher priority. *)
Lemma resched_ahead_ok k : sched_ok k -> ~ top k ->
  exists n l k', k_rlist k = n :: l /\
    resched_ahead k = Some (tt, k') /\ sched_ok k' /\ top k' /\
    k_current k' = n /\ k_rlist k' ≡ₚ k_current k :: l /\
    filter (fun c => prio_of k c = prio_of k (k_current k)) (k_rlist k') =
      k_current k :: filter (fun c => prio_of k c = prio_of k (k_current k)) l.
Proof.
  intros Hok. rewrite (firstprio_top _ Hok). intros Htop.
  destruct (k_rlist k) as [|n l] eqn:Hl.
  { unfold firstprio in Htop. rewrite Hl in Htop. destruct (current_thread _ Hok) as [th Ht].
    pose proof (so_prio _ Hok _ _ Ht) as Hp. destruct Htop. unfold prio_of. rewrite Ht.
    cbn. unfold NOPRIO in *. lia. }
  destruct (resched_preempted chSchReadyAheadI Z.ltb k n l) as (k' & E & Hpe & Hok' & Hl');
    [intros; by apply chSchReadyAheadI_run|intros; split; intros; zbool; lia|done..|].
  pose proof (so_sorted _ Hok) as Hs. rewrite Hl in Hs.
  exists n, l, k'. do 3 (split; [done|]).
  pose proof (fun x => preempted_prio _ _ _ _ x Hpe) as Hp.
  split; [|split; [apply Hpe|split; [apply Hpe|]]].
  - intros x. rewrite !Hp, (pe_rlist _ _ _ _ Hpe), (pe_current _ _ _ _ Hpe).
    unfold firstprio in Htop. rewrite Hl in Htop. intros [->|Hx]%elem_of_cons; [lia|].
    pose proof (sorted_head _ _ _ Hs _ Hx). lia.
  - rewrite Hl'. apply insert_ahead_lifo. by inversion Hs.
Qed.

(** The test of [chSchIsRescRequiredI] and of [chSchIsPreemptionRequired]. *)
Lemma resc_required_run k : sched_ok k -> exists b, chSchIsRescRequiredI k = Some (b, k) /\
  chSchIsPreemptionRequired k = Some (b, k) /\ if b then ~ top k else top k.
Proof.
  intros Hok. exists (prio_of k (k_current k) <? firstprio k).
  assert (E : chSchIsRescRequiredI k = Some (prio_of k (k_current k) <? firstprio k, k)).
  { unfold chSchIsRescRequiredI. msimpl. by erewrite run_call by by apply current_prio_run. }
  do 2 (split; [exact E|]). destruct (_ <? _) eqn:Eb; zbool; rewrite (firstprio_top _ Hok); lia.
Qed.

(** C5: after [chSchRescheduleS] no ready thread has a higher priority than the running
    one; it switches exactly when there was one, to the first of the ready list, and the
    preempted thread goes before its equals. *)
Theorem chSchRescheduleS_ok k : sched_ok k ->
  (top k -> run chSchRescheduleS k = Some (Done tt, k)) /\
  (~ top k -> exists n l k' p, k_rlist k = n :: l /\
    run chSchRescheduleS k = Some (Yielded switched p, k') /\ sched_ok k' /\ top k' /\
    k_current k' = n /\ k_rlist k' ≡ₚ k_current k :: l /\
    filter (fun c => prio_of k c = prio_of k (k_current k)) (k_rlist k') =
      k_current k :: filter (fun c => prio_of k c = prio_of k (k_current k)) l).
Proof.
  intros Hok. destruct (resc_required_run _ Hok) as (b & E & _ & Hb).
  unfold chSchRescheduleS. cbn [run mbind prog_bind]. rewrite E.
  destruct b; split; intros Htop; [done| |done|done].
  destruct (resched_ahead_ok k Hok Htop) as (n & l & k' & Hl & Er & H).
  cbn [run mbind prog_bind chSchDoRescheduleAhead]. rewrite Er.
  exists n, l. do 2 eexists. do 2 (split; [done|]). exact H.
Qed.

(** A yield gives way to ready threads of the same priority (round robin): the running
    thread goes behind them. *)
Theorem chSchDoYieldS_ok k n l : sched_ok k -> k_rlist k = n :: l ->
  prio_of k (k_current k) <= prio_of k n ->
  exists k' p, run chSchDoYieldS k = Some (Yielded switched p, k') /\ sched_ok k' /\
    k_current k' = n /\ k_rlist k' ≡ₚ k_current k :: l /\
    filter (fun c => prio_of k c = prio_of k (k_current k)) (k_rlist k') =
      filter (fun c => prio_of k c = prio_of k (k_current k)) l ++ [k_current k].
Proof.
  intros Hok Hl Hle.
  assert (Hreq : chSchCanYieldS k = Some (true, k)).
  { unfold chSchCanYieldS. msimpl. erewrite run_call by by apply current_prio_run.
    unfold firstprio. rewrite Hl. by rewrite (proj2 (Z.leb_le _ _) Hle). }
  unfold chSchDoYieldS. cbn [run mbind prog_bind]. rewrite Hreq.
  destruct (resched_preempted chSchReadyI Z.leb k n l) as (k' & E & Hpe & Hok' & Hl');
    [intros; by apply chSchReadyI_run|intros; split; intros; zbool; lia|done..|].
  cbn [run mbind prog_bind chSchDoRescheduleBehind]. unfold resched_behind. rewrite E.
  pose proof (so_sorted _ Hok) as Hs. rewrite Hl in Hs.
  do 2 eexists. do 2 (split; [done|]). split; [apply Hpe|]. split; [apply Hpe|].
  rewrite Hl'. apply insert_behind_fifo. by inversion Hs.
Qed.

(** ** What the scheduler leaves alone

    The other components see the scheduler through two views of the state: [but_sched]
    is all that scheduling does not change, [wview] is what each waiting thread waits
    for. *)

Definition erase (th : thread_t) : thread_t :=
  set_t_state (fun _ => CH_STATE_READY) (set_t_u (fun _ => u_msg 0) th).
Definition but_sched (k : ch_system) : ch_system :=
  set_k_rlist (fun _ => []) (set_k_current (fun _ => O)
    (set_k_threads (fmap (M := gmap tid) erase) k)).

Definition runnable (st : tstate_t) : Prop := st = CH_STATE_CURRENT \/ st = CH_STATE_READY.
#[global] Instance runnable_dec st : Decision (runnable st) := _.

Definition wview (k : ch_system) (t : tid) : option (tstate_t * thread_u) :=
  th ← k_threads k !! t;
  if decide (runnable (t_state th)) then None else Some (t_state th, t_u th).

Lemma waits_wview k t : waits k t <-> is_Some (wview k t).
Proof.
  unfold waits, wview, runnable. split.
  - intros (th & -> & ? & ?). cbn. rewrite decide_False by tauto. eauto.
  - intros [[st u] H]. destruct (k_threads k !! t) as [th|]; [|done]. cbn in H.
    case_decide; [done|]. exists th. tauto.
Qed.

Definition framed {A} (m : K A) : Prop :=
  forall k a k', m k = Some (a, k') -> but_sched k' = but_sched k.

Lemma framed_bind {A B} (m : K A) (f : A -> K B) :
  framed m -> (forall a, framed (f a)) -> framed (m ≫= f).
Proof. intros Hm Hf k b k2 (a & k1 & ?%Hm & ?%Hf)%bind_inv. congruence. Qed.
Lemma framed_ret {A} (a : A) : framed (mret a).
Proof. by intros k b k' [= <- <-]. Qed.
Lemma framed_gets {A} (f : ch_system -> A) : framed (gets f).
Proof. by intros k b k' [= <- <-]. Qed.
Lemma framed_deref {A} (f : ch_system -> option A) : framed (deref f).
Proof. intros k b k'. unfold deref. destruct (f k); [|done]. by intros [= <- <-]. Qed.
Lemma framed_modify f : (forall k, but_sched (f k) = but_sched k) -> framed (modify f).
Proof. intros H k b k' [= <- <-]. apply H. Qed.
Lemma framed_on_thd t f : (forall th, erase (f th) = erase th) -> framed (on_thd t f).
Proof.
  intros Hf k a k'. unfold on_thd, update. destruct (k_threads k !! t) as [th|] eqn:E; [|done].
  cbn. intros [= <- <-]. unfold but_sched, set_k_threads, set_k_current, set_k_rlist. cbn.
  f_equal. rewrite fmap_insert, Hf. apply insert_id. by rewrite lookup_fmap, E.
Qed.
Create HintDb frame.
#[export] Hint Resolve framed_bind framed_ret framed_gets framed_deref : frame.
#[export] Hint Extern 1 (framed (modify _)) => apply framed_modify; reflexivity : frame.
#[export] Hint Extern 1 (framed (set_u _ _)) => apply framed_on_thd; reflexivity : frame.
#[export] Hint Extern 1 (framed (set_state _ _)) => apply framed_on_thd; reflexivity : frame.
#[export] Hint Extern 1 (framed (match ?x with _ => _ end)) => destruct x : frame.

Lemma framed_chSchReadyI t : framed (chSchReadyI t).
Proof. unfold chSchReadyI. auto with frame. Qed.
Lemma framed_next_thread : framed next_thread.
Proof.
  unfold next_thread. apply framed_bind; [apply framed_gets|].
  intros [|t l]; [by intros k a k'|auto 6 with frame].
Qed.
#[export] Hint Resolve framed_chSchReadyI framed_next_thread : frame.
Lemma framed_go_sleep st : framed (go_sleep st).
Proof. unfold go_sleep, currp. auto 6 with frame. Qed.
Lemma framed_wakeup_now t m : framed (wakeup_now t m).
Proof. unfold wakeup_now, currp, thd. auto 20 with frame. Qed.

Lemma but_sched_prio k k' x : but_sched k' = but_sched k -> prio_of k' x = prio_of k x.
Proof.
  intros H. apply (f_equal (fun k => t_prio <$> k_threads k !! x)) in H. cbn in H.
  rewrite !lookup_fmap in H. unfold prio_of.
  by destruct (k_threads k !! x), (k_threads k' !! x); cbn in *; try injection H.
Qed.

(** ** Releasing a thread *)

(** [t] has stopped waiting, with message [m]. *)
Record released (t : tid) (m : Z) (k k' : ch_system) : Prop := {
  re_ok : sched_ok k';
  re_frame : but_sched k' = but_sched k;
  re_wview x : wview k' x = if decide (x = t) then None else wview k x;
  re_msg : t_u <$> k_threads k' !! t = Some (u_msg m);
  re_rlist : k_rlist k' ≡ₚ t :: k_rlist k;
  re_current : k_current k' = k_current k
}.

Lemma readied_released t m k k' th : sched_ok k' -> k_threads k !! t = Some th ->
  k_threads k' = <[t := set_t_state (fun _ => CH_STATE_READY) (set_t_u (fun _ => u_msg m) th)]> (k_threads k) ->
  but_sched k' = but_sched k -> k_rlist k' ≡ₚ t :: k_rlist k -> k_current k' = k_current k ->
  released t m k k'.
Proof.
  intros Hok Ht Hth Hf Hl Hc. constructor; try done.
  - intros x. unfold wview. rewrite Hth. case_decide as Hx.
    + subst. rewrite lookup_insert_eq. cbn. by rewrite decide_True by (by right).
    + by rewrite lookup_insert_ne.
  - rewrite Hth, lookup_insert_eq. done.
Qed.

(** The message is written before or after the thread is put in the ready list. *)
Lemma release_ok t m k : sched_ok k -> waits k t ->
  exists k', (set_u t (u_msg m);; chSchReadyI t) k = Some (tt, k') /\ released t m k k'.
Proof.
  intros Hok (th & Ht & Hnc & Hnr).
  destruct (set_u_ok t (u_msg m) k th Hok Ht) as (k1 & E1 & Hok1 & Hl1 & Hc1 & Hp1 & Hk1).
  assert (Ht1 : k_threads k1 !! t = Some (set_t_u (fun _ => u_msg m) th))
    by (subst k1; apply lookup_insert_eq).
  destruct (ready_ok t k1 Hok1) as (k2 & E2 & Hok2 & Hc2 & Hl2 & _); [by eexists|].
  pose proof E2 as E2'. rewrite (chSchReadyI_run _ _ _ Ht1) in E2'. injection E2' as Hk2.
  exists k2. rewrite bind_run, E1. split; [done|].
  eapply readied_released; [done|done| |..].
  - rewrite <- Hk2, Hk1. cbn. apply insert_insert_eq.
  - transitivity (but_sched k1); [by eapply framed_chSchReadyI|].
    eapply (framed_on_thd t (set_t_u (fun _ => u_msg m))), E1. done.
  - by rewrite Hl2, Hl1.
  - congruence.
Qed.

Lemma release_ok' t m k : sched_ok k -> waits k t ->
  exists k', (chSchReadyI t;; set_u t (u_msg m)) k = Some (tt, k') /\ released t m k k'.
Proof.
  intros Hok Hw. pose proof Hw as (th & Ht & Hnc & Hnr).
  destruct (ready_ok t k Hok Hw) as (k1 & E1 & Hok1 & Hc1 & Hl1 & _).
  pose proof E1 as E1'. rewrite (chSchReadyI_run _ _ _ Ht) in E1'. injection E1' as Hk1.
  assert (Ht1 : k_threads k1 !! t = Some (set_t_state (fun _ => CH_STATE_READY) th))
    by (subst k1; apply lookup_insert_eq).
  destruct (set_u_ok t (u_msg m) k1 _ Hok1 Ht1) as (k2 & E2 & Hok2 & Hl2 & Hc2 & Hp2 & Hk2).
  exists k2. rewrite bind_run, E1. split; [done|].
  eapply readied_released; [done|done| |..].
  - rewrite Hk2, <- Hk1. cbn. apply insert_insert_eq.
  - transitivity (but_sched k1); [|by eapply framed_chSchReadyI].
    eapply (framed_on_thd t (set_t_u (fun _ => u_msg m))), E2. done.
  - by rewrite Hl2, Hl1.
  - congruence.
Qed.

(** The same, by [chSchWakeupS]: the released thread may run at once. *)
Record woken (t : tid) (m : Z) (k k' : ch_system) : Prop := {
  wo_ok : sched_ok k';
  wo_top : top k';
  wo_frame : but_sched k' = but_sched k;
  wo_wview x : wview k' x = if decide (x = t) then None else wview k x;
  wo_msg : t_u <$> k_threads k' !! t = Some (u_msg m)
}.

(** Only these threads are written. *)
Definition untouched {A} (x : tid) (m : K A) : Prop :=
  forall k a k', m k = Some (a, k') -> k_threads k' !! x = k_threads k !! x.

Lemma untouched_bind {A B} x (m : K A) (f : A -> K B) :
  untouched x m -> (forall a, untouched x (f a)) -> untouched x (m ≫= f).
Proof. intros Hm Hf k b k2 (a & k1 & ?%Hm & ?%Hf)%bind_inv. congruence. Qed.
Lemma untouched_ret {A} x (a : A) : untouched x (mret a).
Proof. by intros k b k' [= <- <-]. Qed.
Lemma untouched_deref {A} x (f : ch_system -> option A) : untouched x (deref f).
Proof. intros k b k'. unfold deref. destruct (f k); [|done]. by intros [= <- <-]. Qed.
Lemma untouched_modify x f : (forall k, k_threads (f k) = k_threads k) -> untouched x (modify f).
Proof. intros H k b k' [= <- <-]. by rewrite H. Qed.
Lemma untouched_on_thd x t f : x <> t -> untouched x (on_thd t f).
Proof.
  intros Hx k a k'. unfold on_thd, update. destruct (k_threads k !! t); [|done].
  cbn. intros [= <- <-]. cbn. by rewrite lookup_insert_ne.
Qed.
Lemma untouched_ready x t : x <> t -> untouched x (chSchReadyI t).
Proof.
  intros. apply untouched_bind; [by apply untouched_on_thd|].
  intros _. by apply untouched_modify.
Qed.
#[export] Hint Resolve untouched_bind untouched_ret untouched_deref untouched_ready : frame.
#[export] Hint Extern 1 (untouched _ (modify _)) => apply untouched_modify; reflexivity : frame.
#[export] Hint Extern 1 (untouched _ (set_u _ _)) => apply untouched_on_thd : frame.
#[export] Hint Extern 1 (untouched _ (set_state _ _)) => apply untouched_on_thd : frame.
#[export] Hint Extern 1 (untouched _ (match ?x with _ => _ end)) => destruct x : frame.

Lemma wview_running k x : sched_ok k -> x ∈ k_current k :: k_rlist k -> wview k x = None.
Proof.
  intros Hok Hx. destruct (so_exists _ Hok _ Hx) as [th Ht]. unfold wview. rewrite Ht. cbn.
  rewrite decide_True; [done|]. unfold runnable.
  rewrite (so_current _ Hok _ _ Ht), (so_ready _ Hok _ _ Ht). by rewrite elem_of_cons in Hx.
Qed.

Lemma wakeup_now_woken t m k : sched_ok k -> top k -> waits k t ->
  exists b k', wakeup_now t m k = Some (b, k') /\ woken t m k k'.
Proof.
  intros Hok Htop (th & Ht & Hnc & Hnr).
  destruct (wakeup_now_run t m k th Hok Htop Ht Hnc Hnr) as
    (k' & E & Hok' & Htop' & Hp & Hc & Hl & Hm).
  eexists _, k'. split; [done|].
  constructor; [done|done|by eapply framed_wakeup_now| |done].
  intros x. destruct (decide (x = t)) as [->|Hx].
  { apply wview_running; [done|]. rewrite Hc, Hl. case_decide; rewrite !elem_of_cons; auto. }
  destruct (decide (x = k_current k)) as [->|Hxc].
  { rewrite (wview_running k) by (done || by left). apply wview_running; [done|].
    rewrite Hc, Hl. case_decide; rewrite !elem_of_cons; auto. }
  unfold wview. assert (k_threads k' !! x = k_threads k !! x) as ->; [|done].
  revert E. unfold wakeup_now, currp, thd. rewrite run_gets.
  match goal with |- ?p k = _ -> _ => assert (Hu : untouched x p) by auto 20 with frame end.
  apply Hu.
Qed.

(** A thread goes to sleep: it waits in state [st] with the member it has written. *)
Lemma go_sleep_wview st k t l th : sched_ok k -> k_rlist k = t :: l -> ~ runnable st ->
  k_threads k !! k_current k = Some th ->
  exists k', go_sleep st k = Some (tt, k') /\ sched_ok k' /\ top k' /\
    but_sched k' = but_sched k /\ k_current k' = t /\ k_rlist k' = l /\
    forall x, wview k' x = if decide (x = k_current k) then Some (st, t_u th) else wview k x.
Proof.
  intros Hok Hl Hst Hth. assert (st <> CH_STATE_CURRENT /\ st <> CH_STATE_READY) as [??].
  { unfold runnable in Hst. tauto. }
  destruct (go_sleep_run st k t l Hok Hl) as (k' & E & Hsw).
  destruct (switched_to_ok st t l k k') as (Hok' & Htop & Hw); [done..|].
  exists k'. split; [done|]. split; [done|]. split; [done|].
  split; [by eapply framed_go_sleep|].
  destruct Hsw as (tho & thn & Ho & Hn & Hk'). split; [by rewrite Hk'|]. split; [by rewrite Hk'|].
  assert (Hne : t <> k_current k).
  { intros ->. pose proof (so_nodup _ Hok) as Hnd. rewrite Hl in Hnd.
    apply NoDup_cons in Hnd as [Hnd _]. apply Hnd. by left. }
  intros x. rewrite Hth in Ho. injection Ho as <-.
  destruct (decide (x = k_current k)) as [->|Hx].
  - rewrite Hk'. unfold wview. cbn. rewrite lookup_insert_ne, lookup_insert_eq by done.
    cbn. by rewrite decide_False.
  - destruct (decide (x = t)) as [->|Hxt].
    + rewrite (wview_running k) by (done || rewrite Hl; by right; left).
      apply wview_running; [done|]. rewrite Hk'. by left.
    + rewrite Hk'. unfold wview. cbn. by rewrite !lookup_insert_ne.
Qed.

(** The scheduler's invariant is about the threads, the ready list and the running
    thread. *)
Lemma sched_same k k' : k_threads k' = k_threads k -> k_rlist k' = k_rlist k ->
  k_current k' = k_current k -> sched_ok k -> sched_ok k'.
Proof.
  intros Ht Hl Hc [Hn He Hcu Hr Hs Hp].
  constructor; rewrite ?Hc, ?Hl, ?Ht; try done.
  eapply prio_sorted_ext, Hs. intros x. unfold prio_of. by rewrite Ht.
Qed.

Lemma queue_of_insert k q l q' : queue_of (set_k_queues (insert q l) k) q' =
  if decide (q' = q) then l else queue_of k q'.
Proof.
  unfold queue_of. cbn. case_decide; [subst; by rewrite lookup_insert_eq|].
  by rewrite lookup_insert_ne.
Qed.

Lemma fifo_remove_run q t l k : queue_of k q = t :: l ->
  queue_fifo_remove q k = Some (t, set_k_queues (insert q l) k).
Proof. intros H. unfold queue_fifo_remove, on_queue. msimpl. by rewrite H. Qed.


Lemma on_queue_ok q f k : sched_ok k -> sched_ok (set_k_queues (insert q (f (queue_of k q))) k).
Proof. by apply sched_same. Qed.

(** ** Sleeping with a timeout *)

(** A thread that sleeps with a timeout has its timer armed for it while it sleeps, and
    when it runs again, with the message it was given, the timer on its stack is not armed
    any more, whether it has fired or not. *)
Theorem chSchGoSleepTimeoutS_ok st timeout k t l th :
  let vt := vt_stack (k_current k) in
  sched_ok k -> vt_ok k -> vt ∉ keys (k_vtlist k) -> 0 < timeout < TIME_INFINITE ->
  (k_vtlist k <> [] -> elapsed k + Z.max CH_CFG_ST_TIMEDELTA timeout < 2 ^ 32) ->
  k_rlist k = t :: l -> ~ runnable st -> k_threads k !! k_current k = Some th ->
  exists p k', run (chSchGoSleepTimeoutS st timeout) k = Some (Yielded switched p, k') /\
    sched_ok k' /\ top k' /\ vt_ok k' /\ k_current k' = t /\
    k_vts k' !! vt = Some (VTimer (Some vt_wakeup) (k_current k)) /\
    remaining k' vt = Some (Z.max CH_CFG_ST_TIMEDELTA timeout) /\
    (forall w, w <> vt -> remaining k' w = remaining k w) /\
    (forall x, wview k' x = if decide (x = k_current k) then Some (st, t_u th) else wview k x) /\
    forall k2 m, k_current k2 = k_current k -> vt_ok k2 -> is_Some (k_vts k2 !! vt) ->
      t_u <$> k_threads k2 !! k_current k = Some (u_msg m) ->
      exists k3, run p k2 = Some (Done m, k3) /\ but_timers k3 = but_timers k2 /\ vt_ok k3 /\
        remaining k3 vt = None /\ forall w, w <> vt -> remaining k3 w = remaining k2 w.
Proof.
  intros vt Hok Hvt Hvk Htime Hel Hl Hst Hth. unfold TIME_INFINITE in Htime.
  destruct (set_deadline vt timeout vt_wakeup (k_current k) k) as
    (k1 & E1 & Hf1 & Hv1 & Hr1 & Hw1); [done|done|lia| |].
  { pose proof (elapsed_range k). destruct (k_vtlist k) as [|[v d] vl] eqn:Evl; simpl.
    - unfold HDR_DELTA, CH_CFG_ST_TIMEDELTA. lia.
    - specialize (Hel ltac:(done)). pose proof (vo_positive _ Hvt) as Hp. rewrite Evl in Hp.
      inversion_clear Hp as [|?? Hd _]. simpl in Hd. lia. }
  pose proof (chVTDoSetI_ok vt timeout vt_wakeup (k_current k) k Hvt Hvk ltac:(lia) Hel k1 E1) as Hvt1.
  assert (Hc1 : k_current k1 = k_current k) by exact (f_equal k_current Hf1).
  assert (Hl1 : k_rlist k1 = k_rlist k) by exact (f_equal k_rlist Hf1).
  assert (Ht1 : k_threads k1 = k_threads k) by exact (f_equal k_threads Hf1).
  destruct (go_sleep_wview st k1 t l th) as (k' & E & Hok' & Htop & Hf & Hc & _ & Hw);
    [by eapply sched_same, Hok|congruence|done|by rewrite Ht1, Hc1|].
  assert (Htm : timers k' = timers k1) by exact (f_equal timers Hf).
  injection Htm as Hvl Hvts Hlt Hnow.
  assert (Hrem : forall w, remaining k' w = remaining k1 w).
  { intros w. unfold remaining, elapsed. by rewrite Hvl, Hlt, Hnow. }
  unfold chSchGoSleepTimeoutS. rewrite bool_decide_eq_true_2 by (unfold TIME_INFINITE; lia).
  cbn [run mbind prog_bind chSchGoSleepS]. unfold currp at 1. unfold gets at 1. fold vt.
  rewrite E1, E. do 2 eexists. split; [reflexivity|].
  do 2 (split; [done|]). split; [by destruct Hvt1; constructor; rewrite ?Hvl, ?Hvts|].
  split; [done|]. split; [by rewrite Hvts, Hv1, lookup_insert_eq|].
  split; [by rewrite Hrem|]. split; [intros w ?; by rewrite Hrem, Hw1|]. split.
  { intros x. rewrite Hw, Hc1. unfold wview. by rewrite Ht1. }
  intros k2 m Hk2 Hvt2 [v2 Hv2] Hm. cbn [run mbind prog_bind].
  assert (Hrd : forall k3, but_timers k3 = but_timers k2 ->
    (t ← currp; get_rdymsg t) k3 = Some (m, k3)).
  { intros k3 H3. unfold currp, get_rdymsg. msimpl.
    assert (k_current k3 = k_current k2) as -> by exact (f_equal k_current H3).
    unfold deref. assert (k_threads k3 = k_threads k2) as -> by exact (f_equal k_threads H3).
    rewrite Hk2. destruct (k_threads k2 !! k_current k); [|done].
    injection Hm as Hm. cbn. by rewrite Hm. }
  assert (exists k3, chVTResetI vt k2 = Some (tt, k3) /\ but_timers k3 = but_timers k2 /\
    vt_ok k3 /\ remaining k3 vt = None /\ forall w, w <> vt -> remaining k3 w = remaining k2 w)
    as (k3 & E3 & H3 & Hvt3 & Hr3 & Hw3).
  { unfold chVTResetI, chVTIsArmedI. msimpl. case_bool_decide as Hfn.
    - apply reset_deadline; [done|]. apply (vo_armed _ Hvt2). eauto.
    - exists k2. do 3 (split; [done|]). split; [|done]. unfold remaining.
      assert (vt ∉ keys (k_vtlist k2)) as Hno.
      { intros (v3 & ? & ?)%(vo_armed _ Hvt2). by simplify_eq. }
      apply expiry_None in Hno. by rewrite Hno. }
  exists k3. rewrite E3, Hrd by done. done.
Qed.

End ChSchd.
