(* ===== verification/ChSem.v ===== *)
(** * Counting semaphores: [os/rt/src/chsem.c]

    The queues of the semaphores are in FIFO order ([CH_CFG_USE_SEMAPHORES_PRIORITY] is
    off).  The invariant is the one the debug assertions of the code state ("inconsistent
    semaphore"): a negative counter is the number of waiting threads. *)

From S2P Require Import Prelude CLib Prog ThreadQueue Kernel ChVt ChSchd.

Module ChSem.
Import ChSchd.

Definition sem_cnt (sp : nat) : K Z := deref (fun k => k_sems k !! sp).
Definition set_cnt (sp : nat) (n : Z) : K unit := modify (set_k_sems (insert sp n)).

Definition sem_insert (t : tid) (sp : nat) : K unit := queue_insert t (q_sem sp).

Definition chSemObjectInit (sp : nat) (n : Z) : K unit :=
  queue_init (q_sem sp);; set_cnt sp n.

(** [while (++cnt <= 0)]; the fuel is the number of waiting threads. *)
Fixpoint reset_loop (fuel : nat) (sp : nat) (cnt : Z) : K unit :=
  let cnt := i32 (cnt + 1) in
  if cnt <=? 0 then
    match fuel with
    | O => undefined
    | S fuel =>
        tp ← queue_lifo_remove (q_sem sp);
        chSchReadyI tp;;
        set_u tp (u_msg MSG_RESET);;
        reset_loop fuel sp cnt
    end
  else mret tt.

Definition chSemResetI (sp : nat) (n : Z) : K unit :=
  cnt ← sem_cnt sp;
  set_cnt sp n;;
  reset_loop (Z.to_nat (- cnt)) sp cnt.

Definition chSemReset (sp : nat) (n : Z) : prog ch_system unit :=
  locked (Atom (chSemResetI sp n);; chSchRescheduleS).

(** [--sp->cnt]: the new value. *)
Definition dec_cnt (sp : nat) : K Z :=
  n ← sem_cnt sp; set_cnt sp (i32 (n - 1));; mret (i32 (n - 1)).
Definition inc_cnt (sp : nat) : K Z :=
  n ← sem_cnt sp; set_cnt sp (i32 (n + 1));; mret (i32 (n + 1)).

Definition chSemWaitS (sp : nat) : prog ch_system Z :=
  n ← Atom (dec_cnt sp);
  if n <? 0 then
    Atom (t ← currp; set_u t (u_wtsemp sp);; sem_insert t sp);;
    chSchGoSleepS CH_STATE_WTSEM;;
    Atom (t ← currp; get_rdymsg t)
  else mret MSG_OK.

Definition chSemWait (sp : nat) : prog ch_system Z := locked (chSemWaitS sp).

Definition chSemWaitTimeoutS (sp : nat) (timeout : Z) : prog ch_system Z :=
  n ← Atom (dec_cnt sp);
  if n <? 0 then
    if timeout =? TIME_IMMEDIATE then
      Atom (inc_cnt sp);; mret MSG_TIMEOUT
    else
      Atom (t ← currp; set_u t (u_wtsemp sp);; sem_insert t sp);;
      chSchGoSleepTimeoutS CH_STATE_WTSEM timeout
  else mret MSG_OK.

Definition chSemWaitTimeout (sp : nat) (timeout : Z) : prog ch_system Z :=
  locked (chSemWaitTimeoutS sp timeout).

Definition chSemSignal (sp : nat) : prog ch_system unit :=
  locked (n ← Atom (inc_cnt sp);
    if n <=? 0 then
      tp ← Atom (queue_fifo_remove (q_sem sp));
      chSchWakeupS tp MSG_OK
    else mret tt).

Definition chSemSignalI (sp : nat) : K unit :=
  n ← inc_cnt sp;
  if n <=? 0 then
    tp ← queue_fifo_remove (q_sem sp);
    set_u tp (u_msg MSG_OK);;
    chSchReadyI tp
  else mret tt.

(** One turn of [chSemAddCounterI], and the first half of [chSemSignalWait]. *)
Definition signal_ready (sp : nat) : K unit :=
  n ← inc_cnt sp;
  if n <=? 0 then
    tp ← queue_fifo_remove (q_sem sp);
    chSchReadyI tp;;
    set_u tp (u_msg MSG_OK)
  else mret tt.

Fixpoint add_loop (n : nat) (sp : nat) : K unit :=
  match n with
  | O => mret tt
  | S n => signal_ready sp;; add_loop n sp
  end.
Definition chSemAddCounterI (sp : nat) (n : Z) : K unit := add_loop (Z.to_nat n) sp.

Definition chSemSignalWait (sps spw : nat) : prog ch_system Z :=
  locked (
    Atom (signal_ready sps);;
    n ← Atom (dec_cnt spw);
    if n <? 0 then
      Atom (t ← currp; sem_insert t spw;; set_u t (u_wtsemp spw));;
      chSchGoSleepS CH_STATE_WTSEM;;
      Atom (t ← currp; get_rdymsg t)
    else
      chSchRescheduleS;; mret MSG_OK).

(** ** The invariant *)

Record sems_ok (k : ch_system) : Prop := {
  se_sched : sched_ok k;
  se_cnt sp n : k_sems k !! sp = Some n ->
    - 2 ^ 31 < n < 2 ^ 31 - 1 /\
    Z.of_nat (length (queue_of k (q_sem sp))) = Z.max 0 (- n);
  se_queue sp t : t ∈ queue_of k (q_sem sp) <-> wview k t = Some (CH_STATE_WTSEM, u_wtsemp sp);
  se_nodup sp : NoDup (queue_of k (q_sem sp))
}.

(** A waiting thread leaves its queue, the counter goes up. *)
Lemma sems_ok_signal sp n t l k k' : sems_ok k -> k_sems k !! sp = Some n -> n < 0 ->
  queue_of k (q_sem sp) ≡ₚ t :: l -> sched_ok k' ->
  k_sems k' = <[sp := n + 1]> (k_sems k) ->
  (forall sp', queue_of k' (q_sem sp') = if decide (sp' = sp) then l else queue_of k (q_sem sp')) ->
  (forall x, wview k' x = if decide (x = t) then None else wview k x) ->
  sems_ok k'.
Proof.
  intros [Hs Hc Hq Hn] Hsp Hneg Hql Hok' Hsems Hqk Hw.
  pose proof (Hn sp) as Hnd. rewrite Hql in Hnd. apply NoDup_cons in Hnd as [Htl Hnd].
  assert (Ht : wview k t = Some (CH_STATE_WTSEM, u_wtsemp sp)) by (apply Hq; rewrite Hql; by left).
  constructor; [done| | |].
  - intros sp' n'. rewrite Hsems, Hqk. destruct (decide (sp' = sp)) as [->|Hne].
    + rewrite lookup_insert_eq. intros [= <-].
      destruct (Hc _ _ Hsp) as [? Hlen]. rewrite Hql in Hlen. simpl in Hlen. lia.
    + rewrite lookup_insert_ne by congruence. apply Hc.
  - intros sp' x. rewrite Hqk, Hw. destruct (decide (x = t)) as [->|Hx].
    + case_decide as Heq; [done|]. rewrite Hq, Ht. split; [intros [= <-]; done|done].
    + case_decide as Heq; [|apply Hq]. subst sp'. rewrite <- Hq, Hql.
      rewrite elem_of_cons. tauto.
  - intros sp'. rewrite Hqk. case_decide; [done|apply Hn].
Qed.

Lemma inc_cnt_run sp n k : k_sems k !! sp = Some n -> - 2 ^ 31 <= n < 2 ^ 31 - 1 ->
  inc_cnt sp k = Some (n + 1, set_k_sems (insert sp (n + 1)) k).
Proof.
  intros H Hn. unfold inc_cnt, sem_cnt, set_cnt. msimpl. by rewrite i32_id by lia.
Qed.

Lemma dec_cnt_run sp n k : k_sems k !! sp = Some n -> - 2 ^ 31 < n < 2 ^ 31 ->
  dec_cnt sp k = Some (n - 1, set_k_sems (insert sp (n - 1)) k).
Proof.
  intros H Hn. unfold dec_cnt, sem_cnt, set_cnt. msimpl. by rewrite i32_id by lia.
Qed.

(** A queue is not empty when the counter is negative. *)
Lemma sem_queue_cons k sp n : sems_ok k -> k_sems k !! sp = Some n -> n < 0 ->
  exists t l, queue_of k (q_sem sp) = t :: l.
Proof.
  intros Hok Hsp Hneg. destruct (se_cnt _ Hok _ _ Hsp) as [_ Hlen].
  destruct (queue_of k (q_sem sp)); [simpl in Hlen; lia|eauto].
Qed.

Lemma sem_waits k sp t l : sems_ok k -> queue_of k (q_sem sp) = t :: l -> waits k t.
Proof.
  intros Hok Hl. apply waits_wview. assert (Hin : t ∈ queue_of k (q_sem sp)) by (rewrite Hl; by left).
  apply (se_queue _ Hok) in Hin. by eexists.
Qed.

(** The counter of a semaphore without waiting threads changes. *)
Lemma sems_ok_count sp n n' k k' : sems_ok k -> k_sems k !! sp = Some n ->
  0 <= n -> 0 <= n' < 2 ^ 31 - 1 -> k' = set_k_sems (insert sp n') k -> sems_ok k'.
Proof.
  intros [Hs Hc Hq Hn] Hsp Hpos Hn' ->. constructor; [by eapply sched_same, Hs| |done|done].
  intros sp' m. cbn. intros [[<- <-]|[? H]]%lookup_insert_Some; [|by apply Hc].
  destruct (Hc _ _ Hsp) as [_ Hlen]. unfold queue_of in *. cbn. lia.
Qed.

(** The state in which the first waiting thread of [sp] is released. *)
Definition popped (sp : nat) (n : Z) (l : list tid) (k : ch_system) : ch_system :=
  set_k_queues (insert (q_sem sp) l) (set_k_sems (insert sp n) k).

Lemma popped_ok sp n l k : sched_ok k -> sched_ok (popped sp n l k).
Proof. by apply sched_same. Qed.

(** The first waiting thread is released, by whichever way. *)
Lemma released_sems sp n t l k k' : sems_ok k -> k_sems k !! sp = Some n -> n < 0 ->
  queue_of k (q_sem sp) = t :: l -> sched_ok k' ->
  but_sched k' = but_sched (popped sp (n + 1) l k) ->
  (forall x, wview k' x = if decide (x = t) then None else wview k x) ->
  sems_ok k' /\ k_sems k' !! sp = Some (n + 1) /\ queue_of k' (q_sem sp) = l.
Proof.
  intros Hok Hsp Hneg Hl Hok' Hf Hw.
  assert (Hs : k_sems k' = <[sp := n + 1]> (k_sems k)) by exact (f_equal k_sems Hf).
  assert (Hq : forall q, queue_of k' q = if decide (q = q_sem sp) then l else queue_of k q).
  { intros q. rewrite <- queue_of_insert. exact (f_equal (fun k => queue_of k q) Hf). }
  split; [|split; [by rewrite Hs, lookup_insert_eq|by rewrite Hq, decide_True]].
  eapply (sems_ok_signal sp n t l k); [done..|by rewrite Hl|done|done| |done].
  intros sp'. rewrite Hq. repeat case_decide; congruence.
Qed.

(** Signalling a semaphore.  Without waiting threads the counter goes up; otherwise
    the thread that has waited longest becomes ready with [MSG_OK], and exactly that one.
    The invariant of the semaphores is kept. *)
Theorem chSemSignalI_ok sp n k : sems_ok k -> k_sems k !! sp = Some n -> n < 2 ^ 31 - 2 ->
  exists k', chSemSignalI sp k = Some (tt, k') /\ sems_ok k' /\ k_sems k' !! sp = Some (n + 1) /\
    (0 <= n -> k' = set_k_sems (insert sp (n + 1)) k) /\
    (n < 0 -> exists t l, queue_of k (q_sem sp) = t :: l /\ queue_of k' (q_sem sp) = l /\
      released t MSG_OK (popped sp (n + 1) l k) k').
Proof.
  intros Hok Hsp Hmax. destruct (se_cnt _ Hok _ _ Hsp) as [Hr Hlen].
  unfold chSemSignalI. erewrite run_call by (apply inc_cnt_run; [done|lia]).
  destruct (n + 1 <=? 0) eqn:E; zbool.
  - destruct (sem_queue_cons _ _ _ Hok Hsp) as (t & l & Hl); [lia|].
    erewrite run_call by by apply fifo_remove_run.
    destruct (release_ok t MSG_OK (popped sp (n + 1) l k)) as (k' & Ek & Hre).
    { by apply popped_ok, Hok. } { by eapply (sem_waits k). }
    destruct (released_sems sp n t l k k') as (Hok' & Hs & Hq);
      [done|done|lia|done|apply Hre|apply Hre|apply Hre|].
    exists k'. do 3 (split; [done|]). split; [lia|]. intros _. by exists t, l.
  - eexists. split; [reflexivity|].
    split; [apply (sems_ok_count sp n (n + 1) k); [done|done|lia|lia|done]|].
    cbn. rewrite lookup_insert_eq. do 2 (split; [done|]). lia.
Qed.

(** The same from a thread, which gives the processor away exactly if the released
    thread has a higher priority. *)
Theorem chSemSignal_ok sp n k : sems_ok k -> top k -> k_sems k !! sp = Some n -> n < 2 ^ 31 - 2 ->
  exists w p k', run (chSemSignal sp) k = Some (Yielded w p, k') /\ sems_ok k' /\ top k' /\
    k_sems k' !! sp = Some (n + 1) /\
    (0 <= n -> w = unlocked /\ k' = set_k_sems (insert sp (n + 1)) k) /\
    (n < 0 -> exists t l, queue_of k (q_sem sp) = t :: l /\ queue_of k' (q_sem sp) = l /\
      woken t MSG_OK (popped sp (n + 1) l k) k').
Proof.
  intros Hok Htop Hsp Hmax. destruct (se_cnt _ Hok _ _ Hsp) as [Hr Hlen].
  unfold chSemSignal, locked. cbn [run mbind prog_bind].
  rewrite (inc_cnt_run sp n) by (done || lia).
  destruct (n + 1 <=? 0) eqn:E; zbool; cbn [run mbind prog_bind].
  - destruct (sem_queue_cons _ _ _ Hok Hsp) as (t & l & Hl); [lia|].
    erewrite fifo_remove_run by done.
    destruct (wakeup_now_woken t MSG_OK (popped sp (n + 1) l k)) as (b & k' & Ek & Hwo).
    { by apply popped_ok, Hok. } { done. } { by eapply (sem_waits k). }
    destruct (released_sems sp n t l k k') as (Hok' & Hs & Hq);
      [done|done|lia|done|apply Hwo|apply Hwo|apply Hwo|].
    unfold chSchWakeupS. cbn [run mbind prog_bind].
    change (set_k_queues _ _) with (popped sp (n + 1) l k). rewrite Ek.
    destruct b; cbn; do 3 eexists; (split; [reflexivity|]); split; try done;
      (split; [apply Hwo|]); (split; [done|]); (split; [lia|]); intros _; by exists t, l.
  - do 3 eexists. split; [reflexivity|].
    split; [apply (sems_ok_count sp n (n + 1) k); [done|done|lia|lia|done]|].
    split; [done|]. cbn. rewrite lookup_insert_eq. do 2 (split; [done|]). lia.
Qed.

(** The state in which the running thread is in the queue and goes to sleep. *)
Definition queued (sp : nat) (n : Z) (t : tid) (th : thread_t) (k : ch_system) : ch_system :=
  set_k_queues (insert (q_sem sp) (queue_of k (q_sem sp) ++ [t]))
    (set_k_threads (insert t (set_t_u (fun _ => u_wtsemp sp) th)) (set_k_sems (insert sp n) k)).

Lemma queued_sems sp n th k k' : sems_ok k -> k_sems k !! sp = Some n -> n <= 0 ->
  - 2 ^ 31 + 1 < n -> sched_ok k' ->
  but_sched k' = but_sched (queued sp (n - 1) (k_current k) th k) ->
  (forall x, wview k' x = if decide (x = k_current k) then Some (CH_STATE_WTSEM, u_wtsemp sp)
     else wview k x) ->
  sems_ok k' /\ k_sems k' !! sp = Some (n - 1) /\
  queue_of k' (q_sem sp) = queue_of k (q_sem sp) ++ [k_current k].
Proof.
  intros [Hs Hc Hq Hn] Hsp Hneg Hmin Hok' Hf Hw.
  assert (Hsems : k_sems k' = <[sp := n - 1]> (k_sems k)) by exact (f_equal k_sems Hf).
  assert (Hqk : forall q, queue_of k' q =
    if decide (q = q_sem sp) then queue_of k (q_sem sp) ++ [k_current k] else queue_of k q).
  { intros q. rewrite <- queue_of_insert. exact (f_equal (fun k => queue_of k q) Hf). }
  assert (Hcur : wview k (k_current k) = None) by (apply wview_running; [done|by left]).
  assert (Hcq : forall sp', k_current k ∉ queue_of k (q_sem sp')).
  { intros sp' H%Hq. by rewrite Hcur in H. }
  split; [|split; [by rewrite Hsems, lookup_insert_eq|by rewrite Hqk, decide_True]].
  constructor; [done| | |].
  - intros sp' m. rewrite Hsems, Hqk. destruct (decide (sp' = sp)) as [->|Hne].
    + rewrite lookup_insert_eq, decide_True by done. intros [= <-].
      destruct (Hc _ _ Hsp) as [? Hlen]. rewrite length_app. simpl. lia.
    + rewrite lookup_insert_ne, decide_False by congruence. apply Hc.
  - intros sp' x. rewrite Hqk, Hw. destruct (decide (x = k_current k)) as [->|Hx].
    + case_decide as E.
      * injection E as ->. rewrite elem_of_app, list_elem_of_singleton. tauto.
      * split; [by intros ?%Hcq|]. intros [= <-]. done.
    + case_decide as E; [|apply Hq]. injection E as ->.
      rewrite elem_of_app, list_elem_of_singleton, Hq. tauto.
  - intros sp'. rewrite Hqk. case_decide as E; [|apply Hn].
    apply NoDup_app. split; [apply Hn|]. split; [|apply NoDup_singleton].
    intros x Hx ->%list_elem_of_singleton. by apply (Hcq sp).
Qed.

(** C8: waiting on a semaphore.  A positive counter is taken at once; otherwise the thread
    goes to the end of the queue, the next ready thread runs, and the result is the
    message it is released with. *)
Theorem chSemWaitS_ok sp n t l k : sems_ok k -> k_sems k !! sp = Some n -> - 2 ^ 31 + 1 < n ->
  k_rlist k = t :: l ->
  (0 < n -> let k' := set_k_sems (insert sp (n - 1)) k in
     run (chSemWaitS sp) k = Some (Done MSG_OK, k') /\ sems_ok k') /\
  (n <= 0 -> exists p k', run (chSemWaitS sp) k = Some (Yielded switched p, k') /\
     sems_ok k' /\ top k' /\ k_current k' = t /\ k_sems k' !! sp = Some (n - 1) /\
     queue_of k' (q_sem sp) = queue_of k (q_sem sp) ++ [k_current k] /\
     forall k2 m, k_current k2 = k_current k ->
       t_u <$> k_threads k2 !! k_current k = Some (u_msg m) -> run p k2 = Some (Done m, k2)).
Proof.
  intros Hok Hsp Hmin Hl. destruct (se_cnt _ Hok _ _ Hsp) as [Hr Hlen].
  unfold chSemWaitS. cbn [run mbind prog_bind]. rewrite (dec_cnt_run sp n) by (done || lia).
  split; intros Hn.
  - rewrite (proj2 (Z.ltb_ge _ _)) by lia. split; [done|].
    apply (sems_ok_count sp n (n - 1) k); [done|done|lia|lia|done].
  - rewrite (proj2 (Z.ltb_lt _ _)) by lia. cbn [run mbind prog_bind].
    destruct (current_thread _ (se_sched _ Hok)) as [th Hth].
    unfold currp. msimpl. unfold set_u.
    erewrite run_call by by apply (on_thd_run _ _ _ th).
    set (k1 := queued sp (n - 1) (k_current k) th k).
    destruct (go_sleep_wview CH_STATE_WTSEM k1 t l (set_t_u (fun _ => u_wtsemp sp) th)) as
      (k' & Ek & Hok' & Htop & Hf & Hc & _ & Hw).
    { apply (sched_same (set_k_threads (insert (k_current k)
        (set_t_u (fun _ => u_wtsemp sp) th)) k)); [done..|].
      by apply (sched_ok_insert _ th); [apply Hok| |..]. }
    { done. } { by intros [?|?]. } { cbn. apply lookup_insert_eq. }
    destruct (queued_sems sp n th k k') as (Hok2 & Hs & Hq); try done.
    { intros x. rewrite Hw. cbn. case_decide as Hx; [done|].
      unfold wview. cbn. by rewrite lookup_insert_ne. }
    unfold sem_insert, queue_insert, on_queue, modify.
    unfold chSchGoSleepS. cbn [run mbind prog_bind].
    change (set_k_queues _ _) with k1. rewrite Ek.
    do 2 eexists. split; [reflexivity|]. do 5 (split; [done|]).
    intros k2 m Hk2 Hm. cbn [run mbind prog_bind]. unfold currp, get_rdymsg. msimpl.
    rewrite Hk2. unfold deref. destruct (k_threads k2 !! k_current k); [|done].
    injection Hm as Hm. cbn. by rewrite Hm.
Qed.

(** The timeout of a thread that waits on a semaphore takes exactly this thread out of
    the queue, with [MSG_TIMEOUT], and gives its place in the counter back. *)
Theorem wakeup_sem_ok sp n t k : sems_ok k -> k_sems k !! sp = Some n ->
  t ∈ queue_of k (q_sem sp) ->
  exists k', wakeup t k = Some (tt, k') /\ sems_ok k' /\ k_sems k' !! sp = Some (n + 1) /\
    queue_of k' (q_sem sp) = filter (fun x => x <> t) (queue_of k (q_sem sp)) /\
    t ∈ k_rlist k' /\ t_u <$> k_threads k' !! t = Some (u_msg MSG_TIMEOUT).
Proof.
  intros Hok Hsp Ht. pose proof (proj1 (se_queue _ Hok _ _) Ht) as Hw.
  destruct (se_cnt _ Hok _ _ Hsp) as [Hr Hlen].
  assert (Hneg : n < 0).
  { destruct (queue_of k (q_sem sp)); [by apply elem_of_nil in Ht|simpl in Hlen; lia]. }
  pose proof Hw as Hw'. unfold wview in Hw'.
  destruct (k_threads k !! t) as [th|] eqn:Hth; [|done]. cbn in Hw'.
  case_decide as Hrun; [done|]. injection Hw' as Hst Hu.
  set (k1 := set_k_rlist (filter (fun x => x <> t)) (set_k_queues
    (fmap (M := gmap qid) (filter (fun x => x <> t))) (set_k_sems (insert sp (n + 1)) k))).
  assert (Hrl : filter (fun x => x <> t) (k_rlist k) = k_rlist k).
  { apply list_filter_all. intros x Hx ->. apply (so_ready _ (se_sched _ Hok) _ _ Hth) in Hx.
    rewrite Hx in Hst. done. }
  destruct (release_ok t MSG_TIMEOUT k1) as (k' & Ek & Hre).
  { apply (sched_same k); [done|exact Hrl|done|apply Hok]. }
  { apply waits_wview. by exists (CH_STATE_WTSEM, u_wtsemp sp). }
  assert (Hq : forall q, queue_of k' q = filter (fun x => x <> t) (queue_of k q)).
  { intros q. transitivity (queue_of k1 q); [exact (f_equal (fun k => queue_of k q) (re_frame _ _ _ _ Hre))|].
    unfold queue_of. cbn. rewrite lookup_fmap. by destruct (k_queues k !! q). }
  assert (Hs : k_sems k' = <[sp := n + 1]> (k_sems k)) by exact (f_equal k_sems (re_frame _ _ _ _ Hre)).
  exists k'. split; [|split; [|split; [by rewrite Hs, lookup_insert_eq|split; [by rewrite Hq|]]]].
  - unfold wakeup, thd. msimpl. rewrite Hst, Hu.
    unfold chSemFastSignalI. erewrite run_update by (rewrite Hsp; reflexivity).
    rewrite i32_id by lia. exact Ek.
  - eapply (sems_ok_signal sp n t (filter (fun x => x <> t) (queue_of k (q_sem sp))) k);
      [done..| |apply Hre|done| |].
    + apply NoDup_Permutation; [apply Hok| |].
      * apply NoDup_cons. split; [by intros [? _]%list_elem_of_filter|].
        apply NoDup_filter, Hok.
      * intros x. rewrite elem_of_cons, list_elem_of_filter.
        destruct (decide (x = t)) as [->|]; tauto.
    + intros sp'. rewrite Hq. case_decide as E; [by subst|].
      apply list_filter_all. intros x Hx ->. apply (se_queue _ Hok) in Hx. congruence.
    + intros x. rewrite (re_wview _ _ _ _ Hre x). done.
  - split; [|apply Hre]. rewrite (re_rlist _ _ _ _ Hre). by left.
Qed.

(** ** Reset *)

Abbreviation with_cnt sp c k := (set_k_sems (insert sp c) k).

Lemma with_cnt_id sp n k : k_sems k !! sp = Some n -> with_cnt sp n k = k.
Proof. intros H. unfold set_k_sems. rewrite insert_id by done. by destruct k. Qed.

Lemma with_cnt_twice sp n m k : with_cnt sp n (with_cnt sp m k) = with_cnt sp n k.
Proof. unfold set_k_sems. cbn. by rewrite insert_insert_eq. Qed.

Lemma lifo_remove_run q t l k : queue_of k q = l ++ [t] ->
  queue_lifo_remove q k = Some (t, set_k_queues (insert q l) k).
Proof.
  intros H. unfold queue_lifo_remove, on_queue. msimpl. rewrite H, last_snoc. msimpl.
  by rewrite H, removelast_last.
Qed.

(** One turn of the reset loop: the last thread of the queue becomes ready. *)
Lemma reset_turn sp c k t l : sems_ok (with_cnt sp c k) -> c < 0 ->
  queue_of k (q_sem sp) = l ++ [t] ->
  exists k', (chSchReadyI t;; set_u t (u_msg MSG_RESET)) (set_k_queues (insert (q_sem sp) l) k)
      = Some (tt, k') /\ sems_ok (with_cnt sp (c + 1) k') /\
    k_sems k' = k_sems k /\ queue_of k' (q_sem sp) = l /\ k_rlist k' ≡ₚ t :: k_rlist k /\
    t_u <$> k_threads k' !! t = Some (u_msg MSG_RESET) /\
    forall x, x <> t -> k_threads k' !! x = k_threads k !! x.
Proof.
  intros Hok Hneg Hl. set (k1 := set_k_queues (insert (q_sem sp) l) k).
  assert (Ht : wview k t = Some (CH_STATE_WTSEM, u_wtsemp sp)).
  { apply (se_queue _ Hok). change (t ∈ queue_of k (q_sem sp)). rewrite Hl.
    apply elem_of_app. right. by left. }
  destruct (release_ok' t MSG_RESET k1) as (k' & Ek & Hre).
  { apply (sched_same (with_cnt sp c k)); [done..|apply Hok]. }
  { apply waits_wview. by eexists. }
  assert (Hq : forall q, queue_of k' q = if decide (q = q_sem sp) then l else queue_of k q).
  { intros q. rewrite <- queue_of_insert. exact (f_equal (fun k => queue_of k q) (re_frame _ _ _ _ Hre)). }
  assert (Hs : k_sems k' = k_sems k) by exact (f_equal k_sems (re_frame _ _ _ _ Hre)).
  exists k'. split; [done|]. split; [|split; [done|split; [by rewrite Hq, decide_True|]]].
  - eapply (sems_ok_signal sp c t l (with_cnt sp c k)); [done|by apply lookup_insert_eq|done| | | | |].
    + change (queue_of k (q_sem sp) ≡ₚ t :: l). rewrite Hl. symmetry. apply Permutation_cons_append.
    + apply (sched_same k'); [done..|apply Hre].
    + cbn. rewrite Hs. by rewrite insert_insert_eq.
    + intros sp'. change (queue_of k' (q_sem sp') = if decide (sp' = sp) then l else queue_of k (q_sem sp')).
      rewrite Hq. repeat case_decide; congruence.
    + exact (re_wview _ _ _ _ Hre).
  - split; [apply (re_rlist _ _ _ _ Hre)|]. split; [apply Hre|].
    intros x Hx. change (k_threads k !! x) with (k_threads k1 !! x). revert Ek.
    match goal with |- ?p _ = _ -> _ => assert (Hu : untouched x p) by auto 6 with frame end.
    apply Hu.
Qed.

Lemma reset_loop_ok sp : forall fuel c k, sems_ok (with_cnt sp c k) -> fuel = Z.to_nat (- c) ->
  exists k', reset_loop fuel sp c k = Some (tt, k') /\
    sems_ok (with_cnt sp (Z.max 0 c) k') /\ k_sems k' = k_sems k /\
    queue_of k' (q_sem sp) = [] /\
    (forall t, t ∈ k_rlist k -> t ∈ k_rlist k') /\
    (forall t, t ∉ queue_of k (q_sem sp) -> k_threads k' !! t = k_threads k !! t) /\
    forall t, t ∈ queue_of k (q_sem sp) -> t ∈ k_rlist k' /\
      t_u <$> k_threads k' !! t = Some (u_msg MSG_RESET).
Proof.
  induction fuel as [|fuel IH]; intros c k Hok Hfuel; cbn [reset_loop];
    destruct (se_cnt _ Hok sp c ltac:(apply lookup_insert_eq)) as [Hr Hlen];
    change (queue_of (with_cnt sp c k)) with (queue_of k) in Hlen; rewrite i32_id by lia.
  - rewrite (proj2 (Z.leb_gt _ _)) by lia. rewrite Z.max_r by lia.
    destruct (queue_of k (q_sem sp)) eqn:Hq; [|simpl in Hlen; lia].
    exists k. do 6 (split; [done|]). by intros t ?%elem_of_nil.
  - rewrite (proj2 (Z.leb_le _ _)) by lia.
    destruct (queue_of k (q_sem sp)) as [|t l _] eqn:Hq using rev_ind; [simpl in Hlen; lia|].
    pose proof (se_nodup _ Hok sp) as Hnd. change (NoDup (queue_of k (q_sem sp))) in Hnd.
    rewrite Hq in Hnd. apply NoDup_app in Hnd as (_ & Htl & _).
    destruct (reset_turn sp c k t l Hok ltac:(lia) Hq) as
      (k1 & E1 & Hok1 & Hs1 & Hq1 & Hl1 & Hm1 & Hx1).
    destruct (IH (c + 1) k1 Hok1 ltac:(lia)) as (k' & E & Hok' & Hs & Hq' & Hrl & Hx & Hm).
    rewrite Hq1 in Hx, Hm.
    exists k'. split.
    { erewrite run_call by by apply lifo_remove_run. rewrite <- run_assoc.
      by erewrite run_call by apply E1. }
    rewrite !Z.max_l in * by lia.
    split; [done|]. split; [congruence|]. split; [done|]. split; [|split].
    + intros x ?. apply Hrl. rewrite Hl1. by right.
    + intros x Hxq. rewrite elem_of_app, list_elem_of_singleton in Hxq.
      rewrite Hx by tauto. apply Hx1. tauto.
    + intros x. rewrite elem_of_app, list_elem_of_singleton. intros [Hxl| ->]; [by apply Hm|].
      split; [apply Hrl; rewrite Hl1; by left|]. rewrite Hx; [done|].
      intros Hin. by apply (Htl _ Hin); left.
Qed.

(** Resetting a semaphore makes every waiting thread ready with [MSG_RESET] and sets the
    counter; the loop ends when the queue is empty. *)
Theorem chSemResetI_ok sp n c k : sems_ok k -> k_sems k !! sp = Some c -> 0 <= n < 2 ^ 31 - 1 ->
  exists k', chSemResetI sp n k = Some (tt, k') /\ sems_ok k' /\ k_sems k' !! sp = Some n /\
    queue_of k' (q_sem sp) = [] /\
    forall t, t ∈ queue_of k (q_sem sp) -> t ∈ k_rlist k' /\
      t_u <$> k_threads k' !! t = Some (u_msg MSG_RESET).
Proof.
  intros Hok Hsp Hn.
  destruct (reset_loop_ok sp (Z.to_nat (- c)) c (with_cnt sp n k)) as
    (k' & E & Hok' & Hs & Hq & _ & _ & Hm).
  { by rewrite with_cnt_twice, with_cnt_id. } { done. }
  assert (Hsn : k_sems k' !! sp = Some n) by (rewrite Hs; apply lookup_insert_eq).
  exists k'. split; [|split; [|done]].
  - unfold chSemResetI, sem_cnt, set_cnt. by msimpl.
  - eapply (sems_ok_count sp (Z.max 0 c) n); [done|by apply lookup_insert_eq|lia|lia|].
    by rewrite with_cnt_twice, with_cnt_id.
Qed.

End ChSem.
