(* ===== verification/ChThreads.v ===== *)
(** * Threads: [os/rt/src/chthreads.c] and the inline functions of [chthreads.h]

    Creation, termination and priorities of threads, thread references
    (suspend/resume) and thread queues.  The address of a thread, which the code computes
    from its working area, is an argument of the functions that create it; the registry of
    threads, used by debuggers only, is left out. *)

From S2P Require Import Prelude CLib Prog ThreadQueue Kernel ChVt ChSchd.

Module ChThreads.
Import ChVt ChSchd.

Definition CH_FLAG_MODE_MASK : Z := 3.
Definition CH_FLAG_MODE_STATIC : Z := 0.
Definition CH_FLAG_MODE_HEAP : Z := 1.
Definition CH_FLAG_TERMINATE : Z := 4.

(** ** Creation and termination *)

Definition _thread_init (tp : tid) (prio : Z) : K unit :=
  modify (set_k_threads (insert tp
    (Thread prio prio CH_STATE_WTSTART CH_FLAG_MODE_STATIC 1 u_none [] 0 None))).

Definition chThdCreateSuspendedI (tp : tid) (prio : Z) : K unit := _thread_init tp prio.
Definition chThdCreateSuspended (tp : tid) (prio : Z) : prog ch_system unit :=
  locked (Atom (chThdCreateSuspendedI tp prio)).
Definition chThdCreateI (tp : tid) (prio : Z) : K unit :=
  chThdCreateSuspendedI tp prio;; chSchReadyI tp.
Definition chThdCreate (tp : tid) (prio : Z) : prog ch_system unit :=
  locked (Atom (chThdCreateSuspendedI tp prio);; chSchWakeupS tp MSG_OK).
Definition chThdCreateStatic (tp : tid) (prio : Z) : prog ch_system unit :=
  locked (Atom (_thread_init tp prio);; chSchWakeupS tp MSG_OK).
Definition chThdStart (tp : tid) : prog ch_system unit := locked (chSchWakeupS tp MSG_OK).

Definition chThdAddRef (tp : tid) : prog ch_system unit :=
  locked (Atom (on_thd tp (set_t_refs (fun n => u8 (n + 1))))).

(** The memory of a thread made from the heap is freed with its last reference. *)
Definition chThdRelease (tp : tid) : prog ch_system unit :=
  locked (Atom (
    on_thd tp (set_t_refs (fun n => u8 (n - 1)));;
    th ← thd tp;
    if bool_decide (t_refs th = 0 /\ t_state th = CH_STATE_FINAL) &&
       (Z.land (t_flags th) CH_FLAG_MODE_MASK =? CH_FLAG_MODE_HEAP)
    then modify (set_k_threads (delete tp)) else mret tt)).

(** [while (list_notempty(&tp->waiting))] *)
Fixpoint ready_waiting (fuel : nat) (tp : tid) : K unit :=
  th ← thd tp;
  match t_waiting th, fuel with
  | [], _ => mret tt
  | _ :: _, O => undefined
  | w :: ws, S fuel =>
      on_thd tp (set_t_waiting (fun _ => ws));;
      chSchReadyI w;;
      ready_waiting fuel tp
  end.

Definition exit_thread (msg : Z) : K unit :=
  tp ← currp;
  set_u tp (u_msg msg);;
  th ← thd tp;
  ready_waiting (length (t_waiting th)) tp;;
  go_sleep CH_STATE_FINAL.

Definition chThdExitS (msg : Z) : prog ch_system unit := Atom (exit_thread msg);; Switch.
Definition chThdExit (msg : Z) : prog ch_system unit := chThdExitS msg.

Definition chThdWait (tp : tid) : prog ch_system Z :=
  msg ← locked (
    th ← Atom (thd tp);
    (if decide (t_state th = CH_STATE_FINAL) then mret tt
     else
       Atom (self ← currp; on_thd tp (set_t_waiting (cons self)));;
       chSchGoSleepS CH_STATE_WTEXIT);;
    Atom (get_rdymsg tp));
  chThdRelease tp;;
  mret msg.

Definition set_priority (newprio : Z) : K Z :=
  tp ← currp;
  th ← thd tp;
  let oldprio := t_realprio th in
  (if (t_prio th =? t_realprio th) || (t_prio th <? newprio)
   then on_thd tp (set_t_prio (fun _ => newprio)) else mret tt);;
  on_thd tp (set_t_realprio (fun _ => newprio));;
  mret oldprio.

Definition chThdSetPriority (newprio : Z) : prog ch_system Z :=
  locked (
    oldprio ← Atom (set_priority newprio);
    chSchRescheduleS;;
    mret oldprio).

Definition chThdTerminate (tp : tid) : prog ch_system unit :=
  locked (Atom (on_thd tp (set_t_flags (fun f => Z.lor f CH_FLAG_TERMINATE)))).

Definition chThdShouldTerminateX : K bool :=
  tp ← currp; th ← thd tp; mret (negb (Z.land (t_flags th) CH_FLAG_TERMINATE =? 0)).

Definition chThdTerminatedX (tp : tid) : K bool :=
  th ← thd tp; mret (bool_decide (t_state th = CH_STATE_FINAL)).

(** ** Sleeping *)

Definition chThdSleepS (ticks : Z) : prog ch_system unit :=
  chSchGoSleepTimeoutS CH_STATE_SLEEPING ticks;; mret tt.
Definition chThdSleep (time : Z) : prog ch_system unit := locked (chThdSleepS time).
Definition chThdSleepMilliseconds (msec : Z) : prog ch_system unit := chThdSleep (chTimeMS2I msec).

Definition chThdSleepUntil (time : Z) : prog ch_system unit :=
  locked (
    now ← Atom chVTGetSystemTimeX;
    let interval := chTimeDiffX now time in
    if 0 <? interval then chThdSleepS interval else mret tt).

Definition chThdSleepUntilWindowed (prev next : Z) : prog ch_system Z :=
  locked (
    time ← Atom chVTGetSystemTimeX;
    (if chTimeIsInRangeX time prev next then chThdSleepS (chTimeDiffX time next) else mret tt);;
    mret next).

Definition chThdYield : prog ch_system unit := locked chSchDoYieldS.

(** ** Thread references *)

Definition tref (trp : nat) : K (option tid) := deref (fun k => k_trefs k !! trp).
Definition set_tref (trp : nat) (r : option tid) : K unit := modify (set_k_trefs (insert trp r)).

Definition chThdSuspendS (trp : nat) : prog ch_system Z :=
  Atom (tp ← currp; set_tref trp (Some tp);; set_u tp (u_wttrp trp));;
  chSchGoSleepS CH_STATE_SUSPENDED;;
  Atom (tp ← currp; get_rdymsg tp).

Definition chThdSuspendTimeoutS (trp : nat) (timeout : Z) : prog ch_system Z :=
  if timeout =? TIME_IMMEDIATE then mret MSG_TIMEOUT
  else
    Atom (tp ← currp; set_tref trp (Some tp);; set_u tp (u_wttrp trp));;
    chSchGoSleepTimeoutS CH_STATE_SUSPENDED timeout.

Definition chThdResumeI (trp : nat) (msg : Z) : K unit :=
  r ← tref trp;
  match r with
  | Some tp =>
      set_tref trp None;;
      set_u tp (u_msg msg);;
      chSchReadyI tp
  | None => mret tt
  end.

Definition chThdResumeS (trp : nat) (msg : Z) : prog ch_system unit :=
  r ← Atom (tref trp);
  match r with
  | Some tp => Atom (set_tref trp None);; chSchWakeupS tp msg
  | None => mret tt
  end.

Definition chThdResume (trp : nat) (msg : Z) : prog ch_system unit := locked (chThdResumeS trp msg).

(** ** Thread queues *)

Definition chThdQueueObjectInit (q : qid) : K unit := queue_init q.

Definition chThdEnqueueTimeoutS (q : qid) (timeout : Z) : prog ch_system Z :=
  if timeout =? TIME_IMMEDIATE then mret MSG_TIMEOUT
  else
    Atom (t ← currp; queue_insert t q);;
    chSchGoSleepTimeoutS CH_STATE_QUEUED timeout.

Definition chThdDoDequeueNextI (q : qid) (msg : Z) : K unit :=
  tp ← queue_fifo_remove q;
  set_u tp (u_msg msg);;
  chSchReadyI tp.

Definition chThdDequeueNextI (q : qid) (msg : Z) : K unit :=
  b ← queue_notempty q;
  if (b : bool) then chThdDoDequeueNextI q msg else mret tt.

Fixpoint dequeue_loop (fuel : nat) (q : qid) (msg : Z) : K unit :=
  b ← queue_notempty q;
  if (b : bool) then
    match fuel with
    | O => undefined
    | S fuel => chThdDoDequeueNextI q msg;; dequeue_loop fuel q msg
    end
  else mret tt.

(** The fuel is the length of the queue. *)
Definition chThdDequeueAllI (q : qid) (msg : Z) : K unit :=
  n ← gets (fun k => length (queue_of k q));
  dequeue_loop n q msg.

(** ** Creation *)

Definition new_thread (prio : Z) : thread_t :=
  Thread prio prio CH_STATE_WTSTART CH_FLAG_MODE_STATIC 1 u_none [] 0 None.

Lemma thread_init_ok tp prio k : sched_ok k -> top k -> k_threads k !! tp = None -> NOPRIO < prio ->
  let k' := set_k_threads (insert tp (new_thread prio)) k in
  sched_ok k' /\ top k' /\ prio_of k' tp = prio /\ forall x, x <> tp -> prio_of k' x = prio_of k x.
Proof.
  intros Hok Htop Ht Hprio k'.
  assert (Hin : forall x, x ∈ k_current k :: k_rlist k -> x <> tp).
  { intros x Hx ->. destruct (so_exists _ Hok _ Hx). congruence. }
  assert (Hp : forall x, x <> tp -> prio_of k' x = prio_of k x).
  { intros x Hx. unfold prio_of. cbn. by rewrite lookup_insert_ne. }
  split; [|split; [|split; [unfold prio_of; cbn; by rewrite lookup_insert_eq|done]]].
  - constructor; cbn.
    + apply Hok.
    + intros x Hx. rewrite lookup_insert_ne by (intros <-; by apply (Hin tp)). by apply Hok.
    + intros x th [[<- <-]|[? Hth]]%lookup_insert_Some; [|by apply Hok]. cbn. split; [done|].
      intros ->. destruct (Hin (k_current k)); [by left|done].
    + intros x th [[<- <-]|[? Hth]]%lookup_insert_Some; [|by apply Hok]. cbn. split; [done|].
      intros Hx. destruct (Hin tp); [by right|done].
    + eapply prio_sorted_ext_in, Hok. intros x Hx. symmetry. apply Hp, Hin. by right.
    + intros x th [[<- <-]|[? Hth]]%lookup_insert_Some; [done|by eapply Hok].
  - intros x Hx. cbn in Hx |- *. rewrite !Hp; [by apply Htop|apply Hin; by left|apply Hin; by right].
Qed.

Lemma Z_ltb_bool_decide (x y : Z) : bool_decide (x < y) = (x <? y).
Proof. destruct (Z.ltb_spec x y); [by apply bool_decide_eq_true_2|apply bool_decide_eq_false_2; lia]. Qed.

Lemma create_ok tp prio k : sched_ok k -> top k -> k_threads k !! tp = None -> NOPRIO < prio ->
  let b := prio_of k (k_current k) <? prio in
  exists k', (_thread_init tp prio;; wakeup_now tp MSG_OK) k = Some (b, k') /\ sched_ok k' /\ top k' /\
    k_current k' = (if b then tp else k_current k) /\
    k_rlist k' ≡ₚ (if b then k_current k else tp) :: k_rlist k /\
    k_vtlist k' = k_vtlist k /\
    prio_of k' tp = prio /\ forall x, x <> tp -> prio_of k' x = prio_of k x.
Proof.
  intros Hok Htop Ht Hprio b.
  destruct (thread_init_ok tp prio k Hok Htop Ht Hprio) as (Hok1 & Htop1 & Hp1 & Hps).
  unfold _thread_init. msimpl. fold (new_thread prio).
  destruct (wakeup_now_run tp MSG_OK _ (new_thread prio) Hok1 Htop1) as (k' & E & Hok' & Htop' & Hp & Hc & Hl & _);
    [cbn; apply lookup_insert_eq|done|done|].
  assert (Hcur : prio_of (set_k_threads (insert tp (new_thread prio)) k) (k_current k) = prio_of k (k_current k)).
  { apply Hps. intros Hc'. destruct (so_exists _ Hok (k_current k)) as [? ?]; [by left|congruence]. }
  cbn [k_current k_rlist set_k_threads t_prio new_thread] in *. rewrite Hcur in *.
  pose proof (f_equal k_vtlist (framed_wakeup_now _ _ _ _ _ E)) as Hv.
  exists k'. rewrite E. split; [by rewrite (Z_ltb_bool_decide _ _ : bool_decide _ = b)|].
  do 2 (split; [done|]).
  assert (Hif : forall A (x y : A), (if decide (prio_of k (k_current k) < prio) then x else y) = if b then x else y).
  { intros. subst b. destruct (Z.ltb_spec (prio_of k (k_current k)) prio); case_decide; done || lia. }
  rewrite Hif in Hc, Hl. do 3 (split; [done|]).
  split; [by rewrite Hp|]. intros x Hx. by rewrite Hp, Hps.
Qed.

(** A new thread of higher priority runs at once; otherwise it becomes ready and its
    creator goes on.  The scheduler's invariant is kept. *)
Theorem chThdCreateStatic_ok tp prio k : sched_ok k -> top k -> k_threads k !! tp = None -> NOPRIO < prio ->
  exists p k', run (chThdCreateStatic tp prio) k =
      Some (Yielded (if prio_of k (k_current k) <? prio then switched else unlocked) p, k') /\
    sched_ok k' /\ top k' /\
    k_current k' = (if prio_of k (k_current k) <? prio then tp else k_current k) /\
    k_rlist k' ≡ₚ (if prio_of k (k_current k) <? prio then k_current k else tp) :: k_rlist k.
Proof.
  intros Hok Htop Ht Hprio.
  destruct (create_ok tp prio k Hok Htop Ht Hprio) as (k' & E & Hok' & Htop' & Hc & Hl & _).
  unfold chThdCreateStatic, locked, chSchWakeupS.
  rewrite bind_run in E. cbn [run mbind prog_bind].
  destruct (_thread_init tp prio k) as [[[] k1]|]; [|done]. rewrite E.
  destruct (prio_of k (k_current k) <? prio); cbn; eauto 10.
Qed.

(** ** Suspend and resume *)

(** Resuming a thread reference wakes exactly the thread suspended on it, with the given
    message, and clears the reference; an empty reference is left alone. *)
Theorem chThdResumeI_ok trp r msg k : sched_ok k -> k_trefs k !! trp = Some r ->
  (forall t, r = Some t -> waits k t) ->
  match r with
  | None => chThdResumeI trp msg k = Some (tt, k)
  | Some t => exists k', chThdResumeI trp msg k = Some (tt, k') /\
      k_trefs k' !! trp = Some None /\
      released t msg (set_k_trefs (insert trp None) k) k'
  end.
Proof.
  intros Hok Hr Hw. unfold chThdResumeI, tref, set_tref. msimpl. destruct r as [t|]; [|done].
  msimpl. destruct (release_ok t msg (set_k_trefs (insert trp None) k)) as (k' & E & Hre).
  { by eapply sched_same, Hok. } { by apply (Hw t). }
  exists k'. split; [done|]. split; [|done].
  assert (k_trefs k' = <[trp := None]> (k_trefs k)) as ->
    by exact (f_equal k_trefs (re_frame _ _ _ _ Hre)).
  apply lookup_insert_eq.
Qed.

(** A thread that suspends itself is found through the reference while it sleeps, and
    returns the message it is resumed with. *)
Theorem chThdSuspendS_ok trp k t l : sched_ok k -> k_rlist k = t :: l ->
  exists p k', run (chThdSuspendS trp) k = Some (Yielded switched p, k') /\
    sched_ok k' /\ top k' /\ k_current k' = t /\ k_trefs k' !! trp = Some (Some (k_current k)) /\
    wview k' (k_current k) = Some (CH_STATE_SUSPENDED, u_wttrp trp) /\
    forall k2 m, k_current k2 = k_current k ->
      t_u <$> k_threads k2 !! k_current k = Some (u_msg m) -> run p k2 = Some (Done m, k2).
Proof.
  intros Hok Hl. destruct (current_thread _ Hok) as [th Hth].
  unfold chThdSuspendS, set_tref, set_u, currp. cbn [run mbind prog_bind chSchGoSleepS]. msimpl.
  erewrite (on_thd_run _ _ _ th) by done.
  set (k1 := set_k_threads _ _).
  destruct (go_sleep_wview CH_STATE_SUSPENDED k1 t l (set_t_u (fun _ => u_wttrp trp) th)) as
    (k' & Ek & Hok' & Htop & Hf & Hc & _ & Hw).
  { apply (sched_ok_insert _ th); [by eapply sched_same, Hok|done..]. }
  { done. } { by intros [?|?]. } { cbn. apply lookup_insert_eq. }
  rewrite Ek. do 2 eexists. split; [reflexivity|]. do 3 (split; [done|]). split.
  { assert (k_trefs k' = <[trp := Some (k_current k)]> (k_trefs k)) as ->
      by exact (f_equal k_trefs Hf). apply lookup_insert_eq. }
  split; [rewrite Hw; by rewrite decide_True|].
  intros k2 m Hk2 Hm. cbn [run mbind prog_bind]. unfold get_rdymsg. msimpl.
  rewrite Hk2. unfold deref. destruct (k_threads k2 !! k_current k); [|done].
  injection Hm as Hm. cbn. by rewrite Hm.
Qed.

(** ** Queues *)

Lemma queue_of_set q l k q' : queue_of (set_k_queues (insert q l) k) q' =
  if decide (q' = q) then l else queue_of k q'.
Proof. apply queue_of_insert. Qed.

Lemma queue_notempty_run q k : queue_notempty q k = Some (bool_decide (queue_of k q <> []), k).
Proof. reflexivity. Qed.

(** The first thread of the queue is released. *)
Lemma chThdDoDequeueNextI_ok q msg k t l : sched_ok k -> queue_of k q = t :: l -> waits k t ->
  exists k', chThdDoDequeueNextI q msg k = Some (tt, k') /\
    released t msg (set_k_queues (insert q l) k) k' /\ queue_of k' q = l.
Proof.
  intros Hok Hl Hw. unfold chThdDoDequeueNextI. erewrite run_call by by apply fifo_remove_run.
  destruct (release_ok t msg (set_k_queues (insert q l) k)) as (k' & E & Hre);
    [by eapply sched_same, Hok|done|].
  exists k'. split; [done|]. split; [done|].
  transitivity (queue_of (set_k_queues (insert q l) k) q);
    [exact (f_equal (fun k => queue_of k q) (re_frame _ _ _ _ Hre))|].
  rewrite queue_of_set. by rewrite decide_True.
Qed.

Lemma chThdDoDequeueNextI_untouched q msg x k a k' t l : queue_of k q = t :: l -> x <> t ->
  chThdDoDequeueNextI q msg k = Some (a, k') -> k_threads k' !! x = k_threads k !! x.
Proof.
  intros Hl Hx. unfold chThdDoDequeueNextI. erewrite run_call by by apply fifo_remove_run.
  match goal with |- ?p _ = _ -> _ => assert (Hu : untouched x p) by auto 6 with frame end.
  exact (Hu _ _ _).
Qed.

Lemma dequeue_loop_ok q msg l : forall fuel k, sched_ok k -> queue_of k q = l ->
  fuel = length l -> NoDup l -> (forall t, t ∈ l -> waits k t) ->
  exists k', dequeue_loop fuel q msg k = Some (tt, k') /\ sched_ok k' /\ queue_of k' q = [] /\
    (forall x, wview k' x = if decide (x ∈ l) then None else wview k x) /\
    k_rlist k' ≡ₚ l ++ k_rlist k /\ k_current k' = k_current k /\
    (forall x, x ∉ l -> k_threads k' !! x = k_threads k !! x) /\
    forall t, t ∈ l -> t_u <$> k_threads k' !! t = Some (u_msg msg).
Proof.
  induction l as [|t l IH]; intros fuel k Hok Hl Hfuel Hn Hw; subst fuel; cbn [length dequeue_loop].
  - erewrite run_call by apply queue_notempty_run. rewrite Hl. cbn.
    exists k. do 2 (split; [done|]). split; [done|].
    split; [intros x; rewrite decide_False by apply not_elem_of_nil; done|].
    do 3 (split; [done|]). by intros t ?%elem_of_nil.
  - erewrite run_call by apply queue_notempty_run. rewrite bool_decide_eq_true_2 by (by rewrite Hl).
    apply NoDup_cons in Hn as [Htl Hn].
    destruct (chThdDoDequeueNextI_ok q msg k t l) as (k1 & E1 & Hre & Hl1);
      [done|done|apply Hw; by left|].
    assert (Hw1 : forall x, wview k1 x = if decide (x = t) then None else wview k x)
      by exact (re_wview _ _ _ _ Hre).
    destruct (IH (length l) k1) as (k' & E & Hok' & Hq & Hv & Hr & Hc & Hx & Hm);
      [apply Hre|done|done|done| |].
    { intros x Hx. apply waits_wview. rewrite Hw1, decide_False by congruence.
      apply waits_wview, Hw. by right. }
    exists k'. split; [by erewrite run_call by apply E1|]. do 2 (split; [done|]). split; [|split; [|split; [|split]]].
    + intros x. rewrite Hv, Hw1. destruct (decide (x = t)) as [->|Hxt].
      * rewrite (decide_True (P := t ∈ t :: l)) by by left. by case_decide.
      * rewrite (decide_ext (x ∈ t :: l) (x ∈ l)); [done|]. rewrite elem_of_cons. tauto.
    + rewrite Hr, (re_rlist _ _ _ _ Hre). cbn. by rewrite Permutation_middle.
    + rewrite Hc. apply Hre.
    + intros x Hxl. apply not_elem_of_cons in Hxl as [? ?]. rewrite Hx by done.
      by eapply chThdDoDequeueNextI_untouched.
    + intros x [->|Hxl]%elem_of_cons; [|by apply Hm]. rewrite Hx by done. apply Hre.
Qed.

(** Emptying a thread queue wakes all its threads, with the given message, and ends. *)
Theorem chThdDequeueAllI_ok q msg k : sched_ok k -> NoDup (queue_of k q) ->
  (forall t, t ∈ queue_of k q -> waits k t) ->
  exists k', chThdDequeueAllI q msg k = Some (tt, k') /\ sched_ok k' /\ queue_of k' q = [] /\
    k_rlist k' ≡ₚ queue_of k q ++ k_rlist k /\
    forall t, t ∈ queue_of k q -> t_u <$> k_threads k' !! t = Some (u_msg msg).
Proof.
  intros Hok Hn Hw.
  destruct (dequeue_loop_ok q msg (queue_of k q) (length (queue_of k q)) k) as
    (k' & E & ? & ? & _ & ? & _ & _ & ?); [done..|].
  exists k'. by unfold chThdDequeueAllI; msimpl.
Qed.

(** *** The first thread of a queue *)

Lemma but_sched_mbs k k' : but_sched k' = but_sched k -> k_mbs k' = k_mbs k.
Proof. intros H. exact (f_equal k_mbs H). Qed.

(** The first thread of a queue, if there is one, is told that its object has changed. *)
Definition notified (q : qid) (k k' : ch_system) : Prop :=
  match queue_of k q with
  | [] => k' = k
  | t :: l => released t MSG_OK (set_k_queues (insert q l) k) k' /\ queue_of k' q = l
  end.

Definition queue_waits (k : ch_system) (q : qid) : Prop := forall t, t ∈ queue_of k q -> waits k t.

Lemma chThdDequeueNextI_ok q k : sched_ok k -> queue_waits k q ->
  exists k', chThdDequeueNextI q MSG_OK k = Some (tt, k') /\ notified q k k' /\
    sched_ok k' /\ k_mbs k' = k_mbs k.
Proof.
  intros Hok Hw. unfold chThdDequeueNextI, notified. erewrite run_call by apply queue_notempty_run.
  unfold queue_waits in Hw. destruct (queue_of k q) as [|t l] eqn:Hq; cbn.
  - by exists k.
  - destruct (chThdDoDequeueNextI_ok q MSG_OK k t l) as (k' & E & Hre & Hl);
      [done|done|apply Hw; by left|].
    exists k'. split; [done|]. split; [done|]. split; [apply Hre|].
    by rewrite (but_sched_mbs _ _ (re_frame _ _ _ _ Hre)).
Qed.

End ChThreads.
