(* ===== verification/ChSys.v ===== *)
(** * System start and interrupts: [os/rt/src/chsys.c]

    [chSysInit] makes the running code the main thread and creates the idle thread.  An
    interrupt handler runs between two pieces of the running thread; when it returns, the
    epilogue of the port ([chcore_v7m.c]) switches to a thread of higher priority. *)

From S2P Require Import Prelude CLib Prog ThreadQueue Kernel ChVt ChSchd ChThreads.

Module ChSys.
Import ChVt ChSchd ChThreads.

Definition mainthread : tid := 0.
Definition idle_thread : tid := 8.

Definition _vt_init : K unit := set_vtlist [];; modify (set_k_lasttime (fun _ => 0)).

(** Up to [chSysEnable]. *)
Definition start_main : K unit :=
  _scheduler_init;;
  _vt_init;;
  _thread_init mainthread NORMALPRIO;;
  modify (set_k_current (fun _ => mainthread));;
  set_state mainthread CH_STATE_CURRENT.

Definition chSysInit : prog ch_system unit :=
  Atom start_main;;
  Yield unlocked;;
  chThdCreate idle_thread IDLEPRIO.

(** The processor sleeps until an interrupt has been served. *)
Definition _idle_thread {S} : prog S Empty_set :=
  Loop (fun _ : unit => Yield unlocked;; mret (inl tt)) tt.

Definition chSysTimerHandlerI (call : vtfunc_t -> nat -> K unit) (fuel : nat) : K unit :=
  chVTDoTickI call fuel.

(** What [_port_irq_epilogue] leads to: [chSchDoReschedule] up to its switch, if a thread of
    higher priority is ready. *)
Definition irq_epilogue : K unit :=
  b ← chSchIsPreemptionRequired;
  if (b : bool) then resched_ahead else mret tt.

(** The state of the scheduler once [chSysInit] has made the main thread. *)
Lemma start_main_ok k : k_threads k = ∅ ->
  exists k', start_main k = Some (tt, k') /\ sched_ok k' /\ top k' /\
    k_current k' = mainthread /\ k_rlist k' = [] /\ k_vtlist k' = [] /\
    prio_of k' mainthread = NORMALPRIO /\ k_threads k' !! idle_thread = None.
Proof.
  intros Ht. unfold start_main, _scheduler_init, _vt_init, set_vtlist, _thread_init. msimpl.
  unfold set_state, on_thd. eexists. split.
  { unfold update. cbn. by rewrite lookup_insert_eq. }
  set (th := Thread _ _ _ _ _ _ _ _ _). set (th' := set_t_state _ th).
  assert (Hth : forall t u, <[mainthread := th']> (<[mainthread := th]> (k_threads k)) !! t = Some u ->
    t = mainthread /\ u = th').
  { intros t u. rewrite Ht, !lookup_insert_Some. intros [[<- <-]|[? [[]|[? E]]]]; [done..|].
    by rewrite lookup_empty in E. }
  split; [|split; [intros t Hin; cbn in Hin; set_solver|do 3 (split; [done|])]].
  - constructor; cbn.
    + apply NoDup_singleton.
    + intros t ->%list_elem_of_singleton. rewrite lookup_insert_eq. eauto.
    + intros t u [-> ->]%Hth. by split.
    + intros t u [-> ->]%Hth. cbn. split; [done|]. by intros ?%elem_of_nil.
    + constructor.
    + intros t u [-> ->]%Hth. cbn. unfold NOPRIO, NORMALPRIO. lia.
  - split; [unfold prio_of; cbn; by rewrite lookup_insert_eq|].
    apply eq_None_not_Some. by intros [? [? _]%Hth].
Qed.

(** The epilogue of an interrupt leaves the ready thread of the highest priority running;
    the thread it preempts stays ahead of the ready threads of its priority. *)
Theorem irq_epilogue_ok k : sched_ok k ->
  exists k', irq_epilogue k = Some (tt, k') /\ sched_ok k' /\ top k' /\
    (top k -> k' = k) /\
    (~ top k -> exists n l, k_rlist k = n :: l /\ k_current k' = n /\
      k_rlist k' ≡ₚ k_current k :: l /\
      filter (fun c => prio_of k c = prio_of k (k_current k)) (k_rlist k') =
        k_current k :: filter (fun c => prio_of k c = prio_of k (k_current k)) l).
Proof.
  intros Hok. destruct (resc_required_run _ Hok) as (b & _ & E & Hb).
  unfold irq_epilogue. erewrite run_call by exact E. destruct b.
  - destruct (resched_ahead_ok k Hok Hb) as (n & l & k' & Hl & Er & Hok' & Htop & H).
    exists k'. do 4 (split; [done|]). intros _. by exists n, l.
  - exists k. by do 4 (split; [done|]).
Qed.

(** From cleared memory [chSysInit] leaves the main thread running at [NORMALPRIO] with
    the idle thread ready below it and no timer armed: the scheduler's invariant holds. *)
Theorem chSysInit_ok k : k_threads k = ∅ ->
  exists k', exec alone chSysInit k tt k' /\ sched_ok k' /\ top k' /\
    k_current k' = mainthread /\ k_rlist k' = [idle_thread] /\ k_vtlist k' = [] /\
    prio_of k' mainthread = NORMALPRIO /\ prio_of k' idle_thread = IDLEPRIO.
Proof.
  intros Ht. destruct (start_main_ok k Ht) as (k1 & E1 & Hok & Htop & Hc & Hl & Hv & Hp & Hi).
  destruct (create_ok idle_thread IDLEPRIO k1) as (k2 & E2 & Hok2 & Htop2 & Hc2 & Hl2 & Hv2 & Hp2 & Hps);
    [done..|unfold IDLEPRIO, NOPRIO; lia|].
  rewrite Hc, Hp in *. cbn in E2, Hc2, Hl2. apply bind_inv in E2 as ([] & k3 & E3 & E4).
  exists k2. split; [|split; [done|split; [done|split; [done|]]]].
  - exists tt, k1. split; [exact E1|]. exists tt, k1. split; [done|].
    exists tt, k2. split; [|by exists tt, k2].
    exists tt, k3. split; [exact E3|]. exists false, k2. by split.
  - split; [apply Permutation_singleton_r; by rewrite Hl2, Hl|].
    split; [by rewrite Hv2|]. split; [by rewrite Hps|done].
Qed.
End ChSys.
