(* ===== verification/ChMbox.v ===== *)
(** * Mailboxes: [os/common/oslib/src/chmboxes.c]

    A mailbox is a circular buffer of messages with two queues of threads, the writers
    that wait for a free slot and the readers that wait for a message.  The pointers of
    the code are indices in the buffer.  The buffer implements a bounded FIFO list. *)

From S2P Require Import Prelude CLib Prog ThreadQueue Kernel ChVt ChSchd ChThreads.

Module ChMbox.
Import ChSchd ChThreads.

Definition mbox (mbp : nat) : K mailbox_t := deref (fun k => k_mbs k !! mbp).
Definition set_mbox (mbp : nat) (mb : mailbox_t) : K unit := modify (set_k_mbs (insert mbp mb)).

Definition mb_top (mb : mailbox_t) : nat := length (mb_buffer mb).

Definition chMBGetSizeI (mb : mailbox_t) : nat := mb_top mb.
Definition chMBGetUsedCountI (mb : mailbox_t) : nat := mb_cnt mb.
Definition chMBGetFreeCountI (mb : mailbox_t) : nat := (mb_top mb - mb_cnt mb)%nat.

Definition chMBObjectInit (mbp : nat) (buf : list Z) : K unit :=
  set_mbox mbp (Mailbox buf 0 0 0 false);;
  chThdQueueObjectInit (q_mb_w mbp);;
  chThdQueueObjectInit (q_mb_r mbp).

(** [*mbp->wrptr++ = msg; if (mbp->wrptr >= mbp->top) ...; mbp->cnt++] *)
Definition mb_put (msg : Z) (mb : mailbox_t) : option mailbox_t :=
  if (mb_wrptr mb <? mb_top mb)%nat then
    let w := S (mb_wrptr mb) in
    Some (Mailbox (<[mb_wrptr mb := msg]> (mb_buffer mb)) (mb_rdptr mb)
      (if (mb_top mb <=? w)%nat then O else w) (S (mb_cnt mb)) (mb_reset mb))
  else None.

(** [if (--mbp->rdptr < mbp->buffer) ...; *mbp->rdptr = msg; mbp->cnt++] *)
Definition mb_put_ahead (msg : Z) (mb : mailbox_t) : option mailbox_t :=
  let r := match mb_rdptr mb with O => (mb_top mb - 1)%nat | S r => r end in
  if (r <? mb_top mb)%nat then
    Some (Mailbox (<[r := msg]> (mb_buffer mb)) r (mb_wrptr mb) (S (mb_cnt mb)) (mb_reset mb))
  else None.

(** [*msgp = *mbp->rdptr++; if (mbp->rdptr >= mbp->top) ...; mbp->cnt--] *)
Definition mb_get (mb : mailbox_t) : option (Z * mailbox_t) :=
  m ← mb_buffer mb !! mb_rdptr mb;
  let r := S (mb_rdptr mb) in
  Some (m, Mailbox (mb_buffer mb) (if (mb_top mb <=? r)%nat then O else r)
    (mb_wrptr mb) (mb_cnt mb - 1) (mb_reset mb)).

Definition chMBResetI (mbp : nat) : K unit :=
  mb ← mbox mbp;
  set_mbox mbp (Mailbox (mb_buffer mb) 0 0 0 true);;
  chThdDequeueAllI (q_mb_w mbp) MSG_RESET;;
  chThdDequeueAllI (q_mb_r mbp) MSG_RESET.

Definition chMBReset (mbp : nat) : prog ch_system unit :=
  locked (Atom (chMBResetI mbp);; chSchRescheduleS).

Definition chMBResumeX (mbp : nat) : K unit :=
  mb ← mbox mbp; set_mbox mbp (set_mb_reset (fun _ => false) mb).

(** The two ways of posting, by the function that writes. *)
Definition post_i (put : mailbox_t -> option mailbox_t) (mbp : nat) : K Z :=
  mb ← mbox mbp;
  if mb_reset mb then mret MSG_RESET
  else if (0 <? chMBGetFreeCountI mb)%nat then
    mb' ← deref (fun _ => put mb);
    set_mbox mbp mb';;
    chThdDequeueNextI (q_mb_r mbp) MSG_OK;;
    mret MSG_OK
  else mret MSG_TIMEOUT.

Definition chMBPostI (mbp : nat) (msg : Z) : K Z := post_i (mb_put msg) mbp.
Definition chMBPostAheadI (mbp : nat) (msg : Z) : K Z := post_i (mb_put_ahead msg) mbp.

(** [do ... while (rdymsg == MSG_OK)]: [None] asks for a slot, [Some] is the result. *)
Definition post_s (put : mailbox_t -> option mailbox_t) (mbp : nat) (timeout : Z) : prog ch_system Z :=
  Loop (fun _ : unit =>
    mb ← Atom (mbox mbp);
    if mb_reset mb then mret (inr MSG_RESET)
    else if (0 <? chMBGetFreeCountI mb)%nat then
      Atom (mb' ← deref (fun _ => put mb);
        set_mbox mbp mb';;
        chThdDequeueNextI (q_mb_r mbp) MSG_OK);;
      chSchRescheduleS;;
      mret (inr MSG_OK)
    else
      rdymsg ← chThdEnqueueTimeoutS (q_mb_w mbp) timeout;
      mret (if rdymsg =? MSG_OK then inl tt else inr rdymsg)) tt.

Definition chMBPostTimeoutS (mbp : nat) (msg timeout : Z) : prog ch_system Z :=
  post_s (mb_put msg) mbp timeout.
Definition chMBPostTimeout (mbp : nat) (msg timeout : Z) : prog ch_system Z :=
  locked (chMBPostTimeoutS mbp msg timeout).
Definition chMBPostAheadTimeoutS (mbp : nat) (msg timeout : Z) : prog ch_system Z :=
  post_s (mb_put_ahead msg) mbp timeout.
Definition chMBPostAheadTimeout (mbp : nat) (msg timeout : Z) : prog ch_system Z :=
  locked (chMBPostAheadTimeoutS mbp msg timeout).

(** The result and, when it is [MSG_OK], the message written to [*msgp]. *)
Definition chMBFetchI (mbp : nat) : K (Z * option Z) :=
  mb ← mbox mbp;
  if mb_reset mb then mret (MSG_RESET, None)
  else if (0 <? chMBGetUsedCountI mb)%nat then
    '(m, mb') ← deref (fun _ => mb_get mb);
    set_mbox mbp mb';;
    chThdDequeueNextI (q_mb_w mbp) MSG_OK;;
    mret (MSG_OK, Some m)
  else mret (MSG_TIMEOUT, None).

Definition chMBFetchTimeoutS (mbp : nat) (timeout : Z) : prog ch_system (Z * option Z) :=
  Loop (fun _ : unit =>
    mb ← Atom (mbox mbp);
    if mb_reset mb then mret (inr (MSG_RESET, None))
    else if (0 <? chMBGetUsedCountI mb)%nat then
      m ← Atom ('(m, mb') ← deref (fun _ => mb_get mb);
        set_mbox mbp mb';;
        chThdDequeueNextI (q_mb_w mbp) MSG_OK;;
        mret m);
      chSchRescheduleS;;
      mret (inr (MSG_OK, Some m))
    else
      rdymsg ← chThdEnqueueTimeoutS (q_mb_r mbp) timeout;
      mret (if rdymsg =? MSG_OK then inl tt else inr (rdymsg, None))) tt.

Definition chMBFetchTimeout (mbp : nat) (timeout : Z) : prog ch_system (Z * option Z) :=
  locked (chMBFetchTimeoutS mbp timeout).

(** ** The circular buffer is a FIFO list *)

Definition mb_index (mb : mailbox_t) (i : nat) : nat :=
  if (mb_rdptr mb + i <? mb_top mb)%nat then (mb_rdptr mb + i)%nat
  else (mb_rdptr mb + i - mb_top mb)%nat.

(** The messages in the mailbox, oldest first. *)
Definition contents (mb : mailbox_t) : list Z :=
  (fun i => default 0 (mb_buffer mb !! mb_index mb i)) <$> seq 0 (mb_cnt mb).

Record mb_ok (mb : mailbox_t) : Prop := {
  mo_rd : (mb_rdptr mb < mb_top mb)%nat;
  mo_cnt : (mb_cnt mb <= mb_top mb)%nat;
  mo_wr : mb_wrptr mb = mb_index mb (mb_cnt mb)
}.

Lemma contents_length mb : length (contents mb) = mb_cnt mb.
Proof. unfold contents. by rewrite length_fmap, length_seq. Qed.

Ltac nbool :=
  repeat match goal with
    | |- context [ (?a <? ?b)%nat ] => destruct (Nat.ltb_spec a b)
    | |- context [ (?a <=? ?b)%nat ] => destruct (Nat.leb_spec a b)
    | H : context [ (?a <? ?b)%nat ] |- _ => destruct (Nat.ltb_spec a b)
    end.

Lemma mb_index_ext mb mb' i : mb_rdptr mb' = mb_rdptr mb -> mb_top mb' = mb_top mb ->
  mb_index mb' i = mb_index mb i.
Proof. unfold mb_index. by intros -> ->. Qed.

Lemma mb_index_eq mb r n i : mb_rdptr mb = r -> mb_top mb = n ->
  mb_index mb i = (if (r + i <? n)%nat then r + i else r + i - n)%nat.
Proof. unfold mb_index. by intros -> ->. Qed.

Lemma mb_put_fifo msg mb : mb_ok mb -> (0 < chMBGetFreeCountI mb)%nat ->
  exists mb', mb_put msg mb = Some mb' /\ mb_ok mb' /\ contents mb' = contents mb ++ [msg] /\
    mb_top mb' = mb_top mb /\ mb_reset mb' = mb_reset mb.
Proof.
  intros [Hrd Hcnt Hwr] Hfree. unfold chMBGetFreeCountI in Hfree.
  assert (Hw : (mb_wrptr mb < mb_top mb)%nat) by (rewrite Hwr; unfold mb_index; nbool; lia).
  unfold mb_put. destruct (Nat.ltb_spec (mb_wrptr mb) (mb_top mb)); [|lia].
  assert (Htop : length (<[mb_wrptr mb := msg]> (mb_buffer mb)) = mb_top mb) by apply length_insert.
  eexists. split; [done|]. split; [|split; [|split; [exact Htop|done]]].
  - constructor; [unfold mb_top; cbn; by rewrite Htop|unfold mb_top; cbn; rewrite Htop; lia|].
    cbn [mb_wrptr mb_cnt]. rewrite (mb_index_ext mb) by done.
    revert Hwr. unfold mb_index. nbool; lia.
  - unfold contents at 1. cbn [mb_cnt mb_buffer]. rewrite seq_S, fmap_app. f_equal.
    + apply list_fmap_ext. intros ? i [-> Hi]%lookup_seq. rewrite (mb_index_ext mb) by done.
      rewrite list_lookup_insert_ne; [done|]. rewrite Hwr. unfold mb_index. nbool; lia.
    + cbn [fmap list_fmap]. f_equal. rewrite (mb_index_ext mb) by done. cbn [Nat.add].
      by rewrite <- Hwr, list_lookup_insert_eq.
Qed.

Lemma mb_put_ahead_lifo msg mb : mb_ok mb -> (0 < chMBGetFreeCountI mb)%nat ->
  exists mb', mb_put_ahead msg mb = Some mb' /\ mb_ok mb' /\ contents mb' = msg :: contents mb /\
    mb_top mb' = mb_top mb /\ mb_reset mb' = mb_reset mb.
Proof.
  intros [Hrd Hcnt Hwr] Hfree. unfold chMBGetFreeCountI in Hfree. unfold mb_put_ahead.
  set (r := match mb_rdptr mb with O => _ | S r => r end).
  assert (Hr : (r < mb_top mb)%nat) by (subst r; destruct (mb_rdptr mb); lia).
  destruct (Nat.ltb_spec r (mb_top mb)); [|lia].
  assert (Htop : length (<[r := msg]> (mb_buffer mb)) = mb_top mb) by apply length_insert.
  assert (Hidx : forall i, (i < mb_top mb)%nat ->
    mb_index (Mailbox (<[r := msg]> (mb_buffer mb)) r (mb_wrptr mb) (S (mb_cnt mb)) (mb_reset mb)) (S i)
    = mb_index mb i).
  { intros i Hi. rewrite (mb_index_eq _ r (mb_top mb)) by done. unfold mb_index. subst r.
    destruct (mb_rdptr mb); nbool; lia. }
  eexists. split; [done|]. split; [|split; [|split; [exact Htop|done]]].
  - constructor; [unfold mb_top; cbn; by rewrite Htop|unfold mb_top; cbn; rewrite Htop; lia|].
    cbn [mb_wrptr mb_cnt]. by rewrite Hidx by lia.
  - unfold contents. cbn [mb_cnt mb_buffer seq]. rewrite fmap_cons. f_equal.
    + replace (mb_index _ 0) with r; [by rewrite list_lookup_insert_eq|].
      rewrite (mb_index_eq _ r (mb_top mb)) by done. nbool; lia.
    + rewrite <- fmap_S_seq, <- list_fmap_compose. apply list_fmap_ext.
      intros ? i [-> Hi]%lookup_seq. cbn [compose]. unfold compose. cbn [Nat.add].
      rewrite Hidx by lia. rewrite list_lookup_insert_ne; [done|].
      unfold mb_index. subst r. destruct (mb_rdptr mb); nbool; lia.
Qed.

Lemma mb_get_fifo mb : mb_ok mb -> (0 < chMBGetUsedCountI mb)%nat ->
  exists m mb', mb_get mb = Some (m, mb') /\ mb_ok mb' /\ contents mb = m :: contents mb' /\
    mb_top mb' = mb_top mb /\ mb_reset mb' = mb_reset mb.
Proof.
  intros [Hrd Hcnt Hwr] Hused. unfold chMBGetUsedCountI in Hused. unfold mb_get.
  destruct (lookup_lt_is_Some_2 (mb_buffer mb) (mb_rdptr mb) Hrd) as [m Hm]. rewrite Hm. cbn.
  set (r := if (mb_top mb <=? _)%nat then _ else _).
  assert (Hr : (r < mb_top mb)%nat) by (subst r; nbool; lia).
  assert (Hidx : forall c i, (i < mb_top mb)%nat ->
    mb_index (Mailbox (mb_buffer mb) r (mb_wrptr mb) c (mb_reset mb)) i = mb_index mb (S i)).
  { intros c i Hi. rewrite (mb_index_eq _ r (mb_top mb)) by done. unfold mb_index. subst r.
    nbool; lia. }
  do 2 eexists. split; [done|]. split; [|split; [|done]].
  - constructor; [done|cbn; unfold mb_top in *; cbn; lia|].
    cbn [mb_wrptr mb_cnt]. rewrite Hidx by lia. rewrite Hwr. f_equal. lia.
  - unfold contents. cbn [mb_cnt mb_buffer].
    destruct (mb_cnt mb) as [|n] eqn:En; [lia|]. cbn [seq]. rewrite fmap_cons. f_equal.
    + replace (mb_index mb 0) with (mb_rdptr mb); [by rewrite Hm|]. unfold mb_index. nbool; lia.
    + rewrite <- fmap_S_seq, <- list_fmap_compose. replace (S n - 1)%nat with n by lia.
      apply list_fmap_ext. intros ? i [-> Hi]%lookup_seq. unfold compose. cbn [Nat.add].
      by rewrite Hidx by lia.
Qed.

(** ** The operations on mailboxes *)

Lemma with_mbox_ok mbp mb k : sched_ok k -> sched_ok (set_k_mbs (insert mbp mb) k).
Proof. by apply sched_same. Qed.

Lemma post_i_ok put mbp mb k mb' : sched_ok k -> k_mbs k !! mbp = Some mb ->
  queue_waits k (q_mb_r mbp) -> ((0 < chMBGetFreeCountI mb)%nat -> put mb = Some mb') ->
  if mb_reset mb then post_i put mbp k = Some (MSG_RESET, k)
  else if decide (0 < chMBGetFreeCountI mb)%nat then
    exists k', post_i put mbp k = Some (MSG_OK, k') /\ k_mbs k' !! mbp = Some mb' /\
      sched_ok k' /\ notified (q_mb_r mbp) (set_k_mbs (insert mbp mb') k) k'
  else post_i put mbp k = Some (MSG_TIMEOUT, k).
Proof.
  intros Hok Hmb Hw Hput. unfold post_i, mbox. msimpl.
  destruct (mb_reset mb); [done|]. case_decide as Hf.
  - rewrite (proj2 (Nat.ltb_lt _ _) Hf). specialize (Hput Hf). msimpl.
    unfold set_mbox. msimpl.
    destruct (chThdDequeueNextI_ok (q_mb_r mbp) (set_k_mbs (insert mbp mb') k)) as (k' & E & Hn & Hok' & Hm).
    { by apply with_mbox_ok. } { done. }
    erewrite run_call by apply E. exists k'. split; [done|]. split; [|done].
    rewrite Hm. apply lookup_insert_eq.
  - by rewrite (proj2 (Nat.ltb_ge _ _)) by lia.
Qed.

(** Posting to a mailbox from an interrupt or a critical section: a message is added
    behind the others and the first waiting reader is woken; a full mailbox or one that is
    reset is left alone and says so. *)
Theorem chMBPostI_ok mbp mb msg k : sched_ok k -> k_mbs k !! mbp = Some mb -> mb_ok mb ->
  queue_waits k (q_mb_r mbp) ->
  if mb_reset mb then chMBPostI mbp msg k = Some (MSG_RESET, k)
  else if decide (length (contents mb) < mb_top mb)%nat then
    exists k' mb', chMBPostI mbp msg k = Some (MSG_OK, k') /\ k_mbs k' !! mbp = Some mb' /\
      mb_ok mb' /\ contents mb' = contents mb ++ [msg] /\ sched_ok k' /\
      notified (q_mb_r mbp) (set_k_mbs (insert mbp mb') k) k'
  else chMBPostI mbp msg k = Some (MSG_TIMEOUT, k).
Proof.
  intros Hok Hmb Hmok Hw. pose proof (mb_put_fifo msg mb Hmok) as Hput.
  rewrite contents_length. unfold chMBGetFreeCountI in Hput.
  assert (exists mb', (0 < chMBGetFreeCountI mb)%nat -> mb_put msg mb = Some mb' /\
    mb_ok mb' /\ contents mb' = contents mb ++ [msg]) as (mb' & Hmb').
  { destruct (decide (0 < mb_top mb - mb_cnt mb)%nat) as [Hd|Hd].
    - destruct (Hput Hd) as (mb' & ? & ? & ? & _). by exists mb'.
    - exists mb. intros ?. unfold chMBGetFreeCountI in *. lia. }
  pose proof (post_i_ok (mb_put msg) mbp mb k mb' Hok Hmb Hw (fun H => proj1 (Hmb' H))) as H.
  fold (chMBPostI mbp msg) in H. destruct (mb_reset mb); [done|].
  unfold chMBGetFreeCountI in *. repeat case_decide; try lia; [|done].
  destruct H as (k' & ? & ? & ? & ?). destruct Hmb' as (_ & ? & ?); [done|].
  by exists k', mb'.
Qed.

(** Fetching takes the oldest message and wakes the first waiting writer; an empty mailbox
    or one that is reset is left alone and says so. *)
Theorem chMBFetchI_ok mbp mb k : sched_ok k -> k_mbs k !! mbp = Some mb -> mb_ok mb ->
  queue_waits k (q_mb_w mbp) ->
  if mb_reset mb then chMBFetchI mbp k = Some ((MSG_RESET, None), k)
  else match contents mb with
  | [] => chMBFetchI mbp k = Some ((MSG_TIMEOUT, None), k)
  | m :: ms => exists k' mb', chMBFetchI mbp k = Some ((MSG_OK, Some m), k') /\
      k_mbs k' !! mbp = Some mb' /\ mb_ok mb' /\ contents mb' = ms /\ sched_ok k' /\
      notified (q_mb_w mbp) (set_k_mbs (insert mbp mb') k) k'
  end.
Proof.
  intros Hok Hmb Hmok Hw. unfold chMBFetchI, mbox, set_mbox. msimpl.
  destruct (mb_reset mb); [done|]. unfold chMBGetUsedCountI.
  pose proof (contents_length mb) as Hlen.
  destruct (contents mb) as [|m ms] eqn:Ec; cbn in Hlen; rewrite <- Hlen; cbn [Nat.ltb Nat.leb].
  { done. }
  destruct (mb_get_fifo mb Hmok) as (m' & mb' & Hg & Hok' & Hc & _).
  { unfold chMBGetUsedCountI. lia. }
  rewrite Ec in Hc. injection Hc as <- ->. msimpl. cbv beta iota. msimpl.
  destruct (chThdDequeueNextI_ok (q_mb_w mbp) (set_k_mbs (insert mbp mb') k)) as (k' & E & Hn & Hokk & Hm).
  { by apply with_mbox_ok. } { done. }
  erewrite run_call by apply E. exists k', mb'. split; [done|]. split; [|done].
  rewrite Hm. apply lookup_insert_eq.
Qed.

(** A blocking fetch, whatever the other threads do between its steps, ends with [MSG_OK]
    exactly when it has taken a message, the oldest in the mailbox at that moment. *)
Lemma chMBFetchTimeoutS_result R mbp timeout k r k' :
  exec R (chMBFetchTimeoutS mbp timeout) k r k' ->
  match r with
  | (c, Some m) => c = MSG_OK /\ exists k1 mb mb1, k_mbs k1 !! mbp = Some mb /\
      mb_reset mb = false /\ mb_get mb = Some (m, mb1)
  | (c, None) => c <> MSG_OK
  end.
Proof.
  intros H. unfold chMBFetchTimeoutS in H. cbn [exec] in H.
  induction H as [x s x' s1 a s2 H1 H2 IH|x s a s1 H1]; [done|].
  cbn [exec mbind prog_bind] in H1. destruct H1 as (mb & s2 & Hmb & H1).
  unfold mbox, deref in Hmb. destruct (k_mbs s !! mbp) as [mb0|] eqn:Hk; [|done].
  injection Hmb as -> ->.
  destruct (mb_reset mb) eqn:Hr; [by destruct H1 as [[= ->] _]|].
  destruct (0 <? _)%nat.
  - destruct H1 as (m & s3 & Hm & _ & s4 & _ & H1). destruct H1 as [[= ->] _].
    split; [done|]. destruct (mb_get mb) as [[m1 mb1]|] eqn:Hg.
    + exists s2, mb, mb1. do 2 (split; [done|]).
      apply bind_inv in Hm as ([m2 mb2] & s5 & Hd & Hm). unfold deref in Hd. cbv beta in Hd.
      injection Hd as -> -> ->. apply bind_inv in Hm as (? & ? & _ & Hm).
      apply bind_inv in Hm as (? & ? & _ & Hm). by injection Hm as ->.
    + apply bind_inv in Hm as (? & ? & Hd & _). unfold deref in Hd. done.
  - destruct H1 as (rm & s3 & _ & [E _]). destruct (rm =? MSG_OK) eqn:Erm; [done|].
    injection E as ->. by zbool.
Qed.

End ChMbox.
