(* ===== verification/ChEvents.v ===== *)
(** * Events: [os/rt/src/chevents.c] and the inline functions of [chevents.h]

    An event source is the list of its listeners; a listener names a thread and the
    event bits to set in it.  The invariant says that no wakeup is lost: a thread does
    not wait for an event that is pending. *)

From S2P Require Import Prelude CLib Prog ThreadQueue Kernel ChVt ChSchd.

Module ChEvents.
Import ChSchd.

Definition ALL_EVENTS : Z := 2 ^ 32 - 1.
Definition EVENT_MASK (eid : Z) : Z := u32 (Z.shiftl 1 eid).

Definition source (esp : nat) : K (list nat) := deref (fun k => k_srcs k !! esp).
Definition set_source (esp : nat) (l : list nat) : K unit := modify (set_k_srcs (insert esp l)).
Definition listener (elp : nat) : K event_listener_t := deref (fun k => k_lsts k !! elp).
Definition set_listener (elp : nat) (el : event_listener_t) : K unit :=
  modify (set_k_lsts (insert elp el)).

Definition chEvtObjectInit (esp : nat) : K unit := set_source esp [].
Definition chEvtIsListeningI (esp : nat) : K bool :=
  l ← source esp; mret (bool_decide (l <> [])).

Definition chEvtRegisterMaskWithFlags (esp elp : nat) (events wflags : Z) : prog ch_system unit :=
  locked (Atom (
    l ← source esp;
    set_source esp (elp :: l);;
    t ← currp;
    set_listener elp (Listener t events 0 wflags))).
Definition chEvtRegisterMask (esp elp : nat) (events : Z) : prog ch_system unit :=
  chEvtRegisterMaskWithFlags esp elp events (u32 (-1)).
Definition chEvtRegister (esp elp : nat) (event : Z) : prog ch_system unit :=
  chEvtRegisterMask esp elp (EVENT_MASK event).

(** The search of [chEvtUnregister] unlinks the first occurrence. *)
Fixpoint unlink (elp : nat) (l : list nat) : list nat :=
  match l with
  | [] => []
  | p :: l => if decide (p = elp) then l else p :: unlink elp l
  end.
Definition chEvtUnregister (esp elp : nat) : prog ch_system unit :=
  locked (Atom (l ← source esp; set_source esp (unlink elp l))).

Definition set_epending (t : tid) (m : Z) : K unit := on_thd t (set_t_epending (fun _ => m)).

(** [x & ~mask] *)
Definition clear (x mask : Z) : Z := Z.ldiff x mask.

Definition chEvtGetAndClearEventsI (events : Z) : K Z :=
  t ← currp;
  th ← thd t;
  set_epending t (clear (t_epending th) events);;
  mret (Z.land (t_epending th) events).
Definition chEvtGetAndClearEvents (events : Z) : prog ch_system Z :=
  locked (Atom (chEvtGetAndClearEventsI events)).

Definition chEvtAddEventsI (events : Z) : K Z :=
  t ← currp;
  th ← thd t;
  set_epending t (Z.lor (t_epending th) events);;
  mret (Z.lor (t_epending th) events).
Definition chEvtAddEvents (events : Z) : prog ch_system Z :=
  locked (Atom (chEvtAddEventsI events)).

(** Is a thread that waits for [ewmask] in state [st] satisfied by [epending]? *)
Definition satisfied (st : tstate_t) (epending ewmask : Z) : bool :=
  match st with
  | CH_STATE_WTOREVT => negb (Z.land epending ewmask =? 0)
  | CH_STATE_WTANDEVT => Z.land epending ewmask =? ewmask
  | _ => false
  end.

Definition chEvtSignalI (tp : tid) (events : Z) : K unit :=
  th ← thd tp;
  set_epending tp (Z.lor (t_epending th) events);;
  th ← thd tp;
  wake ← (match t_state th with
    | CH_STATE_WTOREVT | CH_STATE_WTANDEVT =>
        match t_u th with
        | u_ewmask m => mret (satisfied (t_state th) (t_epending th) m)
        | _ => undefined
        end
    | _ => mret false
    end);
  if (wake : bool) then
    set_u tp (u_msg MSG_OK);;
    chSchReadyI tp
  else mret tt.

Definition chEvtSignal (tp : tid) (events : Z) : prog ch_system unit :=
  locked (Atom (chEvtSignalI tp events);; chSchRescheduleS).

(** One turn of the loop of [chEvtBroadcastFlagsI]. *)
Definition broadcast_one (flags : Z) (elp : nat) : K unit :=
  el ← listener elp;
  set_listener elp (set_el_flags (fun f => Z.lor f flags) el);;
  el ← listener elp;
  if (flags =? 0) || negb (Z.land flags (el_wflags el) =? 0)
  then chEvtSignalI (el_listener el) (el_events el)
  else mret tt.

Definition chEvtBroadcastFlagsI (esp : nat) (flags : Z) : K unit :=
  l ← source esp;
  mapM_ (broadcast_one flags) l.
Definition chEvtBroadcastI (esp : nat) : K unit := chEvtBroadcastFlagsI esp 0.
Definition chEvtBroadcastFlags (esp : nat) (flags : Z) : prog ch_system unit :=
  locked (Atom (chEvtBroadcastFlagsI esp flags);; chSchRescheduleS).
Definition chEvtBroadcast (esp : nat) : prog ch_system unit := chEvtBroadcastFlags esp 0.

Definition chEvtGetAndClearFlagsI (elp : nat) : K Z :=
  el ← listener elp;
  set_listener elp (set_el_flags (fun _ => 0) el);;
  mret (Z.land (el_flags el) (el_wflags el)).
Definition chEvtGetAndClearFlags (elp : nat) : prog ch_system Z :=
  locked (Atom (chEvtGetAndClearFlagsI elp)).

(** ** Waiting *)

Definition pending (t : tid) : K Z := th ← thd t; mret (t_epending th).
Definition clear_pending (t : tid) (m : Z) : K unit :=
  th ← thd t; set_epending t (clear (t_epending th) m).

(** [m ^= m & (m - 1)] *)
Definition lowest (m : Z) : Z := Z.lxor m (Z.land m (u32 (m - 1))).

Definition chEvtWaitOne (events : Z) : prog ch_system Z :=
  ctp ← Atom currp;
  locked (
    m ← Atom (e ← pending ctp; mret (Z.land e events));
    m ← (if m =? 0 then
      Atom (set_u ctp (u_ewmask events));;
      chSchGoSleepS CH_STATE_WTOREVT;;
      Atom (e ← pending ctp; mret (Z.land e events))
    else mret m);
    Atom (clear_pending ctp (lowest m));;
    mret (lowest m)).

Definition chEvtWaitAny (events : Z) : prog ch_system Z :=
  ctp ← Atom currp;
  locked (
    m ← Atom (e ← pending ctp; mret (Z.land e events));
    m ← (if m =? 0 then
      Atom (set_u ctp (u_ewmask events));;
      chSchGoSleepS CH_STATE_WTOREVT;;
      Atom (e ← pending ctp; mret (Z.land e events))
    else mret m);
    Atom (clear_pending ctp m);;
    mret m).

Definition chEvtWaitAll (events : Z) : prog ch_system Z :=
  ctp ← Atom currp;
  locked (
    e ← Atom (pending ctp);
    (if negb (Z.land e events =? events) then
      Atom (set_u ctp (u_ewmask events));;
      chSchGoSleepS CH_STATE_WTANDEVT
    else mret tt);;
    Atom (clear_pending ctp events);;
    mret events).

(** The functions with a timeout: [fin] is what is done with the events that came. *)
Definition wait_timeout (events timeout : Z) (ready : Z -> bool) (st : tstate_t)
    (fin : tid -> prog ch_system Z) : prog ch_system Z :=
  ctp ← Atom currp;
  locked (
    e ← Atom (pending ctp);
    if ready e then fin ctp
    else if timeout =? TIME_IMMEDIATE then mret 0
    else
      Atom (set_u ctp (u_ewmask events));;
      msg ← chSchGoSleepTimeoutS st timeout;
      if msg <? MSG_OK then mret 0 else fin ctp).

Definition chEvtWaitOneTimeout (events timeout : Z) : prog ch_system Z :=
  wait_timeout events timeout (fun e => negb (Z.land e events =? 0)) CH_STATE_WTOREVT
    (fun ctp => m ← Atom (e ← pending ctp; mret (lowest (Z.land e events)));
                Atom (clear_pending ctp m);; mret m).
Definition chEvtWaitAnyTimeout (events timeout : Z) : prog ch_system Z :=
  wait_timeout events timeout (fun e => negb (Z.land e events =? 0)) CH_STATE_WTOREVT
    (fun ctp => m ← Atom (e ← pending ctp; mret (Z.land e events));
                Atom (clear_pending ctp m);; mret m).
Definition chEvtWaitAllTimeout (events timeout : Z) : prog ch_system Z :=
  wait_timeout events timeout (fun e => Z.land e events =? events) CH_STATE_WTANDEVT
    (fun ctp => Atom (clear_pending ctp events);; mret events).

(** ** Dispatching *)

Section dispatch.
Context {S : Type} (handlers : list (Z -> prog S unit)).

(** The fuel is the number of bits of [eventmask_t]. *)
Fixpoint dispatch_loop (fuel : nat) (events : Z) (eid : nat) : prog S unit :=
  if events =? 0 then mret tt
  else
    match fuel with
    | O => Atom undefined
    | Datatypes.S fuel =>
        if negb (Z.land events (EVENT_MASK (Z.of_nat eid)) =? 0) then
          match handlers !! eid with
          | Some h =>
              h (Z.of_nat eid);;
              dispatch_loop fuel (clear events (EVENT_MASK (Z.of_nat eid))) (Datatypes.S eid)
          | None => Atom undefined
          end
        else dispatch_loop fuel events (Datatypes.S eid)
    end.

Definition chEvtDispatch (events : Z) : prog S unit := dispatch_loop 32 events 0.
End dispatch.

(** ** No event is lost *)

(** A thread that waits for events has none of those it waits for. *)
Definition no_lost (k : ch_system) : Prop := forall t st u, wview k t = Some (st, u) ->
  st = CH_STATE_WTOREVT \/ st = CH_STATE_WTANDEVT ->
  exists m th, u = u_ewmask m /\ k_threads k !! t = Some th /\
    satisfied st (t_epending th) m = false.

Record evt_ok (k : ch_system) : Prop := {
  ev_sched : sched_ok k;
  ev_lost : no_lost k
}.

Definition epending_of (k : ch_system) (t : tid) : option Z := t_epending <$> k_threads k !! t.

Lemma wview_insert k t th x : wview (set_k_threads (insert t th) k) x =
  if decide (x = t) then (if decide (runnable (t_state th)) then None else Some (t_state th, t_u th))
  else wview k x.
Proof.
  unfold wview. cbn. case_decide as Hx; [subst; by rewrite lookup_insert_eq|].
  by rewrite lookup_insert_ne.
Qed.

Lemma wview_thread k t th : k_threads k !! t = Some th ->
  wview k t = if decide (runnable (t_state th)) then None else Some (t_state th, t_u th).
Proof. intros H. unfold wview. by rewrite H. Qed.

(** The pending bits of a thread change; it still has what it waits for to come. *)
Lemma no_lost_pending k t th e : no_lost k -> k_threads k !! t = Some th ->
  (forall m, t_u th = u_ewmask m -> satisfied (t_state th) e m = false) ->
  no_lost (set_k_threads (insert t (set_t_epending (fun _ => e) th)) k).
Proof.
  intros Hn Ht Hs x st u. rewrite wview_insert. case_decide as Hx.
  - subst x. cbn. case_decide as Hr; [done|]. intros [= <- <-] Hst.
    destruct (Hn t (t_state th) (t_u th)) as (m & th' & Hu & ? & _); [|done|].
    { rewrite (wview_thread _ _ _ Ht). by rewrite decide_False. }
    exists m, (set_t_epending (fun _ => e) th). split; [done|].
    split; [apply lookup_insert_eq|]. by apply Hs.
  - intros Hw Hst. destruct (Hn _ _ _ Hw Hst) as (m & th' & ? & ? & ?).
    exists m, th'. cbn. by rewrite lookup_insert_ne.
Qed.

(** A released thread does not wait. *)
Lemma no_lost_released k k' t : no_lost k ->
  (forall x, wview k' x = if decide (x = t) then None else wview k x) ->
  (forall x, epending_of k' x = epending_of k x) -> no_lost k'.
Proof.
  intros Hn Hw He x st u. rewrite Hw. case_decide; [done|]. intros Hx Hst.
  destruct (Hn _ _ _ Hx Hst) as (m & th & Hu & Ht & Hs). specialize (He x).
  unfold epending_of in He. rewrite Ht in He.
  apply fmap_Some in He as (th' & Ht' & He). exists m, th'. by rewrite <- He.
Qed.

Lemma but_sched_epending k k' x : but_sched k' = but_sched k -> epending_of k' x = epending_of k x.
Proof.
  intros H. apply (f_equal (fun k => t_epending <$> k_threads k !! x)) in H. cbn in H.
  unfold epending_of. revert H. rewrite !lookup_fmap.
  by destruct (k_threads k !! x), (k_threads k' !! x).
Qed.

(** Does a thread in this state wake up? *)
Definition wakes (th : thread_t) (e : Z) : bool :=
  match t_u th with u_ewmask m => satisfied (t_state th) e m | _ => false end.

Lemma wakes_waits th e : wakes th e = true -> ~ runnable (t_state th) /\
  (t_state th = CH_STATE_WTOREVT \/ t_state th = CH_STATE_WTANDEVT).
Proof.
  unfold wakes, runnable. destruct (t_u th); try done.
  destruct (t_state th); cbn; try done; intros _; split; auto; by intros [?|?].
Qed.

(** What [chEvtSignalI] decides. *)
Lemma wake_decision (k : ch_system) t th e (k1 : ch_system) : no_lost k ->
  k_threads k !! t = Some th ->
  (match t_state th with
    | CH_STATE_WTOREVT | CH_STATE_WTANDEVT =>
        match t_u th with
        | u_ewmask m => mret (satisfied (t_state th) e m)
        | _ => undefined
        end
    | _ => mret false
    end : K bool) k1 = Some (wakes th e, k1).
Proof.
  intros Hn Ht. unfold wakes.
  destruct (decide (t_state th = CH_STATE_WTOREVT \/ t_state th = CH_STATE_WTANDEVT)) as [Hs|Hs].
  - destruct (Hn t (t_state th) (t_u th)) as (m & _ & -> & _); [|done|by destruct Hs as [-> | ->] ].
    rewrite (wview_thread _ _ _ Ht). rewrite decide_False; [done|].
    unfold runnable. destruct Hs as [-> | ->]; by intros [?|?].
  - destruct (t_state th); try (by destruct (t_u th)); destruct Hs; auto.
Qed.

Lemma signal_ok t events k th : evt_ok k -> k_threads k !! t = Some th ->
  let e := Z.lor (t_epending th) events in
  exists k', chEvtSignalI t events k = Some (tt, k') /\ evt_ok k' /\
    k_current k' = k_current k /\ k_srcs k' = k_srcs k /\ k_lsts k' = k_lsts k /\
    epending_of k' t = Some e /\
    (forall x, x <> t -> k_threads k' !! x = k_threads k !! x) /\
    if wakes th e
    then wview k' t = None /\ k_rlist k' ≡ₚ t :: k_rlist k /\
         t_u <$> k_threads k' !! t = Some (u_msg MSG_OK)
    else wview k' t = wview k t /\ k_rlist k' = k_rlist k.
Proof.
  intros [Hok Hn] Ht e.
  set (th1 := set_t_epending (fun _ => e) th). set (k1 := set_k_threads (insert t th1) k).
  assert (Hok1 : sched_ok k1) by by apply (sched_ok_insert t th).
  assert (Ht1 : k_threads k1 !! t = Some th1) by apply lookup_insert_eq.
  assert (E : chEvtSignalI t events k = (if wakes th e
    then (set_u t (u_msg MSG_OK);; chSchReadyI t) k1 else Some (tt, k1))).
  { unfold chEvtSignalI, thd, set_epending. msimpl.
    erewrite run_call by by apply (on_thd_run _ _ _ th). fold e th1 k1. msimpl.
    erewrite run_call by by apply (wake_decision k t th e k1). by destruct (wakes th e). }
  rewrite E. destruct (wakes th e) eqn:Hw.
  - destruct (wakes_waits _ _ Hw) as [Hnr Hst].
    destruct (release_ok t MSG_OK k1 Hok1) as (k' & Ek & Hre).
    { exists th1. split; [done|]. unfold runnable in Hnr. cbn. tauto. }
    assert (Hx : forall x, x <> t -> k_threads k' !! x = k_threads k !! x).
    { intros x Hx. transitivity (k_threads k1 !! x); [|by apply lookup_insert_ne].
      revert Ek. match goal with |- ?p _ = _ -> _ => assert (Hu : untouched x p) by auto 6 with frame end.
      exact (Hu _ _ _). }
    assert (He : forall x, epending_of k' x = epending_of k1 x)
      by (intros; by apply but_sched_epending, Hre).
    exists k'. split; [done|]. split; [constructor; [apply Hre|]|].
    + intros x st u. rewrite (re_wview _ _ _ _ Hre). case_decide as Hxt; [done|].
      unfold k1. rewrite wview_insert, decide_False by done. rewrite (Hx x Hxt). apply Hn.
    + split; [apply Hre|]. split; [exact (f_equal k_srcs (re_frame _ _ _ _ Hre))|].
      split; [exact (f_equal k_lsts (re_frame _ _ _ _ Hre))|].
      split; [rewrite He; unfold epending_of; by rewrite Ht1|]. split; [done|].
      split; [by rewrite (re_wview _ _ _ _ Hre), decide_True|].
      split; [apply (re_rlist _ _ _ _ Hre)|apply Hre].
  - exists k1. split; [done|]. split; [constructor; [done|]|].
    + apply no_lost_pending; [done..|]. intros m Hu. unfold wakes in Hw. by rewrite Hu in Hw.
    + do 3 (split; [done|]). split; [unfold epending_of; by rewrite Ht1|].
      split; [intros x Hx; by apply lookup_insert_ne|]. split; [|done].
      unfold k1. rewrite wview_insert, decide_True by done. by rewrite (wview_thread _ _ _ Ht).
Qed.

(** Signalling events to a thread sets its pending bits, wakes it exactly when this
    satisfies what it waits for, and changes no other thread; no event is lost. *)
Theorem chEvtSignalI_ok t events k th : evt_ok k -> k_threads k !! t = Some th ->
  let e := Z.lor (t_epending th) events in
  exists k', chEvtSignalI t events k = Some (tt, k') /\ evt_ok k' /\
    k_current k' = k_current k /\ k_srcs k' = k_srcs k /\ k_lsts k' = k_lsts k /\
    epending_of k' t = Some e /\
    (forall x, x <> t -> k_threads k' !! x = k_threads k !! x) /\
    if wakes th e
    then wview k' t = None /\ k_rlist k' ≡ₚ t :: k_rlist k /\
         t_u <$> k_threads k' !! t = Some (u_msg MSG_OK)
    else wview k' t = wview k t /\ k_rlist k' = k_rlist k.
Proof. apply signal_ok. Qed.

(** ** Broadcasting *)

(** Is a listener concerned by the flags of a broadcast? *)
Definition triggered (flags : Z) (el : event_listener_t) : bool :=
  (flags =? 0) || negb (Z.land flags (el_wflags el) =? 0).

(** The events a broadcast to the listeners [l] posts to the thread [x]. *)
Fixpoint posted (lsts : gmap nat event_listener_t) (flags : Z) (x : tid) (l : list nat) : Z :=
  match l with
  | [] => 0
  | elp :: l =>
      match lsts !! elp with
      | Some el =>
          if triggered flags el && bool_decide (el_listener el = x)
          then Z.lor (el_events el) (posted lsts flags x l) else posted lsts flags x l
      | None => posted lsts flags x l
      end
  end.

(** A listener without its flags. *)
Definition unflagged (el : event_listener_t) : event_listener_t := set_el_flags (fun _ => 0) el.

Lemma posted_ext lsts lsts' flags x l :
  (forall p, unflagged <$> lsts' !! p = unflagged <$> lsts !! p) ->
  posted lsts' flags x l = posted lsts flags x l.
Proof.
  intros H. induction l as [|p l IH]; cbn; [done|]. specialize (H p).
  destruct (lsts !! p) as [el|], (lsts' !! p) as [el'|]; try done.
  injection H as Hl He Hw. unfold triggered. by rewrite Hl, He, Hw, IH.
Qed.

Definition listens (k : ch_system) (elp : nat) : Prop := exists el th,
  k_lsts k !! elp = Some el /\ k_threads k !! el_listener el = Some th.

Lemma chEvtSignalI_threads t events k k' x th : evt_ok k -> k_threads k !! t = Some th ->
  chEvtSignalI t events k = Some (tt, k') -> is_Some (k_threads k !! x) -> is_Some (k_threads k' !! x).
Proof.
  intros Hok Ht E Hx. destruct (signal_ok t events k th Hok Ht) as
    (k2 & E2 & _ & _ & _ & _ & He & Hxs & _). rewrite E in E2. injection E2 as <-.
  destruct (decide (x = t)) as [->|Hne].
  - unfold epending_of in He. apply fmap_Some in He as (? & -> & _). eauto.
  - by rewrite Hxs.
Qed.

Lemma broadcast_one_ok flags elp k : evt_ok k -> listens k elp ->
  exists k' el, broadcast_one flags elp k = Some (tt, k') /\ evt_ok k' /\
    k_lsts k !! elp = Some el /\
    k_lsts k' = <[elp := set_el_flags (fun f => Z.lor f flags) el]> (k_lsts k) /\
    (forall x, is_Some (k_threads k !! x) -> is_Some (k_threads k' !! x)) /\
    forall x, epending_of k' x =
      (fun e => if triggered flags el && bool_decide (el_listener el = x)
                then Z.lor e (el_events el) else e) <$> epending_of k x.
Proof.
  intros [Hok Hn] (el & th & Hel & Hth).
  set (el1 := set_el_flags (fun f => Z.lor f flags) el).
  set (k1 := set_k_lsts (insert elp el1) k).
  assert (Hok1 : evt_ok k1) by (constructor; [by eapply sched_same, Hok|exact Hn]).
  assert (E : broadcast_one flags elp k =
    (if triggered flags el then chEvtSignalI (el_listener el) (el_events el) k1 else Some (tt, k1))).
  { unfold broadcast_one, listener, set_listener. msimpl. fold el1 k1.
    erewrite run_deref by apply lookup_insert_eq. unfold triggered. cbn [el_wflags el1 set_el_flags].
    by destruct ((flags =? 0) || _). }
  rewrite E. destruct (triggered flags el) eqn:Htr.
  - destruct (signal_ok (el_listener el) (el_events el) k1 th Hok1 Hth) as
      (k' & E' & Hok' & _ & _ & Hl & He & Hx & _).
    exists k', el. split; [done|]. do 2 (split; [done|]). split; [done|]. split.
    { intros x Hx'. eapply (chEvtSignalI_threads _ _ k1); [exact Hok1|exact Hth|exact E'|exact Hx']. }
    intros x. rewrite Htr. cbn [andb]. case_bool_decide as Hlx.
    + subst x. rewrite He. unfold epending_of. by rewrite Hth.
    + unfold epending_of. rewrite (Hx x) by congruence. subst k1. cbn.
      by destruct (k_threads k !! x).
  - exists k1, el. do 5 (split; [done|]). intros x. rewrite Htr. unfold epending_of. subst k1. cbn.
    by destruct (k_threads k !! x).
Qed.

Lemma broadcast_loop flags l : forall k, evt_ok k -> (forall elp, elp ∈ l -> listens k elp) ->
  exists k', mapM_ (broadcast_one flags) l k = Some (tt, k') /\ evt_ok k' /\
    (forall x, epending_of k' x = (fun e => Z.lor e (posted (k_lsts k) flags x l)) <$> epending_of k x) /\
    (forall elp, elp ∉ l -> k_lsts k' !! elp = k_lsts k !! elp) /\
    (NoDup l -> forall elp, elp ∈ l ->
      k_lsts k' !! elp = set_el_flags (fun f => Z.lor f flags) <$> k_lsts k !! elp).
Proof.
  induction l as [|p l IH]; intros k Hok Hl; cbn [mapM_].
  - exists k. do 2 (split; [done|]). split; [|split; [done|by intros _ elp ?%elem_of_nil]].
    intros x. cbn. destruct (epending_of k x) as [e|]; cbn; [by rewrite Z.lor_0_r|done].
  - destruct (broadcast_one_ok flags p k Hok) as (k1 & el & E1 & Hok1 & Hel & Hl1 & Ht1 & He1);
      [apply Hl; by left|].
    assert (Hunf : forall q, unflagged <$> k_lsts k1 !! q = unflagged <$> k_lsts k !! q).
    { intros q. rewrite Hl1. destruct (decide (q = p)) as [->|Hq];
        [by rewrite lookup_insert_eq, Hel|by rewrite lookup_insert_ne]. }
    destruct (IH k1 Hok1) as (k' & E & Hok' & He & Hno & Hin).
    { intros q Hq. destruct (Hl q) as (elq & th & Hq1 & Hth); [by right|].
      specialize (Hunf q). rewrite Hq1 in Hunf. cbn in Hunf.
      apply fmap_Some in Hunf as (elq1 & Hq2 & Heq).
      destruct (Ht1 (el_listener elq)) as [th1 Hth1]; [eauto|].
      exists elq1, th1. split; [done|]. by injection Heq as <- _ _. }
    exists k'. split; [by erewrite run_call by apply E1|]. split; [done|]. split; [|split].
    + intros x. rewrite He, He1. rewrite (posted_ext _ _ _ _ _ Hunf). cbn. rewrite Hel.
      destruct (epending_of k x) as [e|]; cbn; [|done]. f_equal.
      destruct (triggered flags el && _); [by rewrite Z.lor_assoc|done].
    + intros q Hq. apply not_elem_of_cons in Hq as [? ?]. rewrite Hno by done.
      by rewrite Hl1, lookup_insert_ne.
    + intros Hnd q Hq. apply NoDup_cons in Hnd as [Hpl Hnd].
      destruct (decide (q = p)) as [->|Hqp].
      * rewrite Hno by done. by rewrite Hl1, lookup_insert_eq, Hel.
      * rewrite Hin by (done || by apply elem_of_cons in Hq as [?|?]).
        by rewrite Hl1, lookup_insert_ne.
Qed.

(** A broadcast works on the threads, the ready list and the listeners only. *)
Lemma broadcast_frame {X} (f : ch_system -> X) flags l Q :
  (forall g k, f (set_k_threads g k) = f k) -> (forall g k, f (set_k_rlist g k) = f k) ->
  (forall g k, f (set_k_lsts g k) = f k) ->
  keeps (fun k => f k = Q) (mapM_ (broadcast_one flags) l).
Proof.
  intros Ht Hr Hl.
  assert (Hthd : forall t g, keeps (fun k => f k = Q) (on_thd t g)).
  { intros t g k a k' HQ. unfold on_thd, update. destruct (k_threads k !! t); [|done].
    intros [= <- <-]. by rewrite Ht. }
  apply keeps_mapM. intros elp. unfold broadcast_one, listener, set_listener, chEvtSignalI, thd.
  repeat (first
    [ apply keeps_bind; [|intros ?] | apply keeps_deref | apply keeps_ret | apply Hthd
    | apply keeps_modify; intros; by rewrite ?Hr, ?Hl | done
    | match goal with |- keeps _ (match ?x with _ => _ end) => destruct x end ]).
Qed.

(** A broadcast posts to every thread the events of its listeners that are concerned, and
    to no other thread; each listener records the flags; no waiting thread misses it. *)
Theorem chEvtBroadcastFlagsI_ok esp flags l k : evt_ok k -> k_srcs k !! esp = Some l ->
  (forall elp, elp ∈ l -> listens k elp) -> NoDup l ->
  exists k', chEvtBroadcastFlagsI esp flags k = Some (tt, k') /\ evt_ok k' /\
    (forall x, epending_of k' x = (fun e => Z.lor e (posted (k_lsts k) flags x l)) <$> epending_of k x) /\
    (forall elp, k_lsts k' !! elp =
      if decide (elp ∈ l) then set_el_flags (fun f => Z.lor f flags) <$> k_lsts k !! elp
      else k_lsts k !! elp).
Proof.
  intros Hok Hs Hl Hnd. destruct (broadcast_loop flags l k Hok Hl) as (k' & E & Hok' & He & Hno & Hin).
  exists k'. split; [unfold chEvtBroadcastFlagsI, source; by msimpl|].
  do 2 (split; [done|]). intros elp. case_decide; auto.
Qed.

(** ** Waiting *)

Lemma odd_part m : 0 < m -> exists i q, 0 <= i /\ 0 <= q /\ m = (2 * q + 1) * 2 ^ i.
Proof.
  intros Hm. destruct m as [|p|]; try lia. clear Hm. induction p as [p IH|p IH|].
  - exists 0, (Z.pos p). lia.
  - destruct IH as (i & q & ? & ? & E). exists (i + 1), q. rewrite Z.pow_add_r by lia. lia.
  - exists 0, 0. lia.
Qed.

(** The event [chEvtWaitOne] serves is the pending one of lowest number. *)
Lemma lowest_spec m : 0 < m < 2 ^ 32 -> exists i, 0 <= i /\ lowest m = 2 ^ i /\
  Z.testbit m i = true /\ forall j, 0 <= j < i -> Z.testbit m j = false.
Proof.
  intros Hm. destruct (odd_part m) as (i & q & Hi & Hq & E); [lia|].
  assert (Hbit : forall j, Z.testbit m j = Z.testbit (2 * q + 1) (j - i)).
  { intros j. rewrite E. by apply Z.mul_pow2_bits. }
  assert (Hpred : forall j, i <= j -> Z.testbit (m - 1) j = Z.testbit (2 * q) (j - i)).
  { intros j Hj. replace (2 * q) with ((m - 1) / 2 ^ i).
    - rewrite Z.div_pow2_bits by lia. f_equal. lia.
    - pose proof (Z.pow_pos_nonneg 2 i). symmetry.
      apply (Z.div_unique _ _ _ (2 ^ i - 1)); [left; lia|]. rewrite E. lia. }
  assert (Hlow : forall j, 0 <= j < i -> Z.testbit m j = false)
    by (intros j Hj; rewrite Hbit; apply Z.testbit_neg_r; lia).
  assert (Hset : Z.testbit m i = true) by (rewrite Hbit, Z.sub_diag; apply Z.testbit_odd_0).
  exists i. split; [done|]. split; [|done]. unfold lowest. rewrite u32_id by lia.
  apply Z.bits_inj'. intros j Hj. rewrite Z.lxor_spec, Z.land_spec, Z.pow2_bits_eqb by done.
  destruct (Z.lt_trichotomy j i) as [Hlt|[->|Hgt]].
  - rewrite Hlow by lia. symmetry. apply Z.eqb_neq. lia.
  - rewrite Hset, Hpred, Z.sub_diag, Z.testbit_even_0, Z.eqb_refl by lia. done.
  - rewrite (proj2 (Z.eqb_neq i j)) by lia. rewrite Hbit, Hpred by lia.
    replace (j - i) with (Z.succ (j - i - 1)) by lia.
    rewrite Z.testbit_odd_succ, Z.testbit_even_succ by lia. by destruct (Z.testbit q _).
Qed.

Lemma pending_run t k th : k_threads k !! t = Some th -> pending t k = Some (t_epending th, k).
Proof. intros H. unfold pending, thd. by msimpl. Qed.

Lemma clear_pending_run t m k th : k_threads k !! t = Some th ->
  clear_pending t m k =
    Some (tt, set_k_threads (insert t (set_t_epending (fun _ => clear (t_epending th) m) th)) k).
Proof. intros H. unfold clear_pending, thd. msimpl. by apply on_thd_run. Qed.

(** The running thread goes to sleep waiting for events it does not have. *)
Lemma wait_sleep st events k t l th : evt_ok k -> k_rlist k = t :: l ->
  k_threads k !! k_current k = Some th ->
  st = CH_STATE_WTOREVT \/ st = CH_STATE_WTANDEVT ->
  satisfied st (t_epending th) events = false ->
  exists k', (set_u (k_current k) (u_ewmask events);; go_sleep st) k = Some (tt, k') /\
    evt_ok k' /\ top k' /\ k_current k' = t /\
    wview k' (k_current k) = Some (st, u_ewmask events) /\
    (forall x, epending_of k' x = epending_of k x).
Proof.
  intros [Hok Hn] Hl Hth Hst Hs.
  destruct (set_u_ok (k_current k) (u_ewmask events) k th Hok Hth) as
    (k1 & E1 & Hok1 & Hl1 & Hc1 & _ & Hk1).
  assert (Hnr : ~ runnable st) by (unfold runnable; destruct Hst as [-> | ->]; by intros [?|?]).
  destruct (go_sleep_wview st k1 t l (set_t_u (fun _ => u_ewmask events) th)) as
    (k' & E & Hok' & Htop & Hf & Hc & _ & Hw);
    [done|congruence|done|rewrite Hc1; subst k1; apply lookup_insert_eq|].
  assert (He : forall x, epending_of k' x = epending_of k x).
  { intros x. transitivity (epending_of k1 x); [by apply but_sched_epending|].
    apply but_sched_epending. eapply (framed_on_thd (k_current k)), E1. done. }
  exists k'. split; [by rewrite bind_run, E1|]. split; [|].
  - constructor; [done|]. intros x st' u. rewrite Hw, Hc1. specialize (He x).
    unfold epending_of in He. case_decide as Hx.
    + subst x. intros [= <- <-] _. rewrite Hth in He. apply fmap_Some in He as (th' & ? & He).
      exists events, th'. by rewrite <- He.
    + subst k1. rewrite wview_insert, decide_False by done. intros Hwx Hst'.
      destruct (Hn _ _ _ Hwx Hst') as (m & thx & Hu & Htx & Hsx). rewrite Htx in He.
      apply fmap_Some in He as (th' & ? & He). exists m, th'. by rewrite <- He.
  - split; [done|]. split; [done|]. split; [|done]. rewrite Hw, Hc1. by rewrite decide_True.
Qed.

(** The common shape of [chEvtWaitOne] and [chEvtWaitAny]: [f] selects the events served. *)
Definition wait_or (f : Z -> Z) (events : Z) : prog ch_system Z :=
  ctp ← Atom currp;
  locked (
    m ← Atom (e ← pending ctp; mret (Z.land e events));
    m ← (if m =? 0 then
      Atom (set_u ctp (u_ewmask events));;
      chSchGoSleepS CH_STATE_WTOREVT;;
      Atom (e ← pending ctp; mret (Z.land e events))
    else mret m);
    Atom (clear_pending ctp (f m));;
    mret (f m)).

Lemma wait_or_one events : chEvtWaitOne events = wait_or lowest events.
Proof. reflexivity. Qed.
Lemma wait_or_any events : chEvtWaitAny events = wait_or id events.
Proof. reflexivity. Qed.

(** [k'] is [k] without the served events. *)
Definition served (t : tid) (m : Z) (k k' : ch_system) : Prop := exists th,
  k_threads k !! t = Some th /\
  k' = set_k_threads (insert t (set_t_epending (fun _ => clear (t_epending th) m) th)) k.

(** With a requested event pending the call returns; without one the thread sleeps, no
    event is lost, and it returns what is pending when it runs again. *)
Lemma wait_or_ok f events k t l th : evt_ok k -> k_rlist k = t :: l ->
  k_threads k !! k_current k = Some th ->
  let m := Z.land (t_epending th) events in
  (m <> 0 -> exists p k', run (wait_or f events) k = Some (Yielded unlocked p, k') /\
     served (k_current k) (f m) k k' /\ forall k2, run p k2 = Some (Done (f m), k2)) /\
  (m = 0 -> exists p k', run (wait_or f events) k = Some (Yielded switched p, k') /\
     evt_ok k' /\ top k' /\ k_current k' = t /\
     wview k' (k_current k) = Some (CH_STATE_WTOREVT, u_ewmask events) /\
     forall k2 th2, k_threads k2 !! k_current k = Some th2 ->
       let m2 := Z.land (t_epending th2) events in
       exists p2 k3, run p k2 = Some (Yielded unlocked p2, k3) /\
         served (k_current k) (f m2) k2 k3 /\ forall k4, run p2 k4 = Some (Done (f m2), k4)).
Proof.
  intros Hok Hl Hth m. unfold wait_or, locked, currp.
  cbn [run mbind prog_bind]. unfold gets. rewrite bind_run, (pending_run _ _ _ Hth).
  unfold mret, M_ret. fold m. split; intros Hm.
  - rewrite (proj2 (Z.eqb_neq _ _) Hm). cbn [run mbind prog_bind mret prog_ret].
    rewrite (clear_pending_run _ _ _ _ Hth). do 2 eexists. split; [done|].
    split; [by exists th|]. by intros k2.
  - rewrite (proj2 (Z.eqb_eq _ _) Hm).
    destruct (wait_sleep CH_STATE_WTOREVT events k t l th) as (k' & E & Hok' & Htop & Hc & Hw & _);
      [done..|by left| |].
    { cbn. fold m. by rewrite Hm. }
    rewrite bind_run in E. destruct (set_u _ _ k) as [[[] k1]|] eqn:E1; [|done].
    cbn [run mbind prog_bind chSchGoSleepS]. rewrite E1, E.
    do 2 eexists. split; [done|]. do 4 (split; [done|]).
    intros k2 th2 Hth2. set (m2 := Z.land (t_epending th2) events). cbn [run mbind prog_bind].
    rewrite bind_run, (pending_run _ _ _ Hth2). fold m2. cbn [run mbind prog_bind mret prog_ret].
    rewrite (clear_pending_run _ _ _ _ Hth2). do 2 eexists. split; [done|].
    split; [by exists th2|]. by intros k4.
Qed.


(** ** Dispatching *)

(** The numbers of the set bits, in order. *)
Definition set_bits (eid fuel : nat) (events : Z) : list nat :=
  filter (fun i => Z.testbit events (Z.of_nat i) = true) (seq eid fuel).

Section dispatch_spec.
Context {S : Type} (handlers : list (Z -> prog S unit)).

(** One handler after the other. *)
Fixpoint call_all (l : list nat) : prog S unit :=
  match l with
  | [] => mret tt
  | i :: l => match handlers !! i with Some h => h (Z.of_nat i);; call_all l | None => Atom undefined end
  end.

Lemma event_mask_bit eid : (eid < 32)%nat -> EVENT_MASK (Z.of_nat eid) = 2 ^ Z.of_nat eid.
Proof.
  intros H. unfold EVENT_MASK. rewrite Z.shiftl_1_l. apply u32_id.
  split; [lia|]. apply Z.pow_lt_mono_r; lia.
Qed.

Lemma land_pow2 x n : 0 <= n -> (Z.land x (2 ^ n) =? 0) = negb (Z.testbit x n).
Proof.
  intros Hn. destruct (Z.testbit x n) eqn:E; cbn.
  - apply Z.eqb_neq. intros H. apply (f_equal (fun z => Z.testbit z n)) in H.
    rewrite Z.land_spec, E, Z.pow2_bits_true, Z.testbit_0_l in H by done. done.
  - apply Z.eqb_eq. apply Z.bits_inj'. intros j Hj.
    rewrite Z.land_spec, Z.pow2_bits_eqb, Z.testbit_0_l by done.
    destruct (Z.eqb_spec n j) as [->|]; [by rewrite E|by rewrite andb_false_r].
Qed.

Lemma clear_bit x n j : 0 <= n -> 0 <= j ->
  Z.testbit (clear x (2 ^ n)) j = Z.testbit x j && negb (n =? j).
Proof. intros. unfold clear. by rewrite Z.ldiff_spec, Z.pow2_bits_eqb. Qed.

Lemma dispatch_loop_bits fuel : forall eid events, (eid + fuel <= 32)%nat -> 0 <= events ->
  (forall j, Z.testbit events (Z.of_nat j) = true -> (eid <= j < eid + fuel)%nat /\ is_Some (handlers !! j)) ->
  dispatch_loop handlers fuel events eid ≡ call_all (set_bits eid fuel events).
Proof.
  induction fuel as [|fuel IH]; intros eid events Hfuel Hpos Hbits; cbn [dispatch_loop].
  - assert (events = 0) as ->; [|done]. apply Z.bits_inj'. intros j Hj. rewrite Z.testbit_0_l.
    destruct (Z.testbit events j) eqn:E; [|done]. replace j with (Z.of_nat (Z.to_nat j)) in E by lia.
    destruct (Hbits _ E) as [? _]. lia.
  - destruct (Z.eqb_spec events 0) as [->|Hne].
    { unfold set_bits. rewrite filter_none; [done|]. intros j _. by rewrite Z.testbit_0_l. }
    rewrite event_mask_bit by lia. rewrite land_pow2 by lia. rewrite negb_involutive.
    unfold set_bits. cbn [seq]. rewrite filter_cons.
    destruct (Z.testbit events (Z.of_nat eid)) eqn:E; cbn [decide].
    + rewrite decide_True by done. cbn [call_all]. destruct (Hbits _ E) as [_ [h Hh]]. rewrite Hh.
      apply Bind_proper; [done|]. intros [].
      rewrite (IH (Datatypes.S eid)); [|lia| |].
      * unfold set_bits. rewrite (filter_ext_in _ (fun i => Z.testbit events (Z.of_nat i) = true)); [done|].
        intros j Hj%elem_of_seq. rewrite clear_bit by lia.
        rewrite (proj2 (Z.eqb_neq (Z.of_nat eid) (Z.of_nat j))) by lia. by rewrite andb_true_r.
      * unfold clear. rewrite Z.ldiff_nonneg. auto.
      * intros j. rewrite clear_bit by lia. rewrite andb_true_iff, negb_true_iff, Z.eqb_neq.
        intros [Hj ?]. destruct (Hbits _ Hj). split; [lia|done].
    + rewrite decide_False by done. apply IH; [lia|done|]. intros j Hj.
      destruct (Hbits _ Hj). split; [|done]. assert (j <> eid) by congruence. lia.
Qed.

(** Dispatching runs the handlers of the set bits, each once, from the lowest number to
    the highest, and ends. *)
Theorem chEvtDispatch_order events : 0 <= events < 2 ^ 32 ->
  (forall j, Z.testbit events (Z.of_nat j) = true -> is_Some (handlers !! j)) ->
  chEvtDispatch handlers events ≡ call_all (set_bits 0 32 events).
Proof.
  intros He Hh. apply dispatch_loop_bits; [lia|lia|]. intros j Hj. split; [|by apply Hh].
  split; [lia|]. destruct (decide (j < 0 + 32)%nat) as [|Hn]; [done|exfalso].
  assert (Hb : Z.testbit events (Z.of_nat j) = false); [|congruence].
  destruct (Z.eq_dec events 0) as [->|]; [apply Z.testbit_0_l|].
  apply Z.bits_above_log2; [lia|]. apply Z.lt_le_trans with 32; [|lia].
  apply Z.log2_lt_pow2; lia.
Qed.
End dispatch_spec.

End ChEvents.
