(* ===== verification/ChMtx.v ===== *)
(** * Mutexes with priority inheritance: [os/rt/src/chmtx.c]

    Mutexes are not recursive ([CH_CFG_USE_MUTEXES_RECURSIVE] is off).  The mutexes a
    thread owns are a linked list through their [next] members.  The invariant covers
    ownership, the order of the queues and the inheritance of priorities: the owner of a
    mutex has at least the priority of every thread that waits for it. *)

From stdpp Require Import sorting fin_maps.
From S2P Require Import Prelude CLib Prog ThreadQueue Kernel ChVt ChSchd.

Module ChMtx.
Import ChSchd.

Definition mtx (mp : nat) : K mutex_t := deref (fun k => k_mtxs k !! mp).
Definition on_mtx (mp : nat) (f : mutex_t -> mutex_t) : K unit :=
  update (fun k => m ← k_mtxs k !! mp; Some (set_k_mtxs (insert mp (f m)) k)).
Definition set_owner (mp : nat) (o : option tid) : K unit := on_mtx mp (set_m_owner (fun _ => o)).
Definition set_next (mp : nat) (n : option nat) : K unit := on_mtx mp (set_m_next (fun _ => n)).
Definition set_mtxlist (t : tid) (l : option nat) : K unit := on_thd t (set_t_mtxlist (fun _ => l)).

Definition chMtxObjectInit (mp : nat) : K unit :=
  queue_init (q_mtx mp);; modify (set_k_mtxs (insert mp (Mutex None None))).

Definition chMtxQueueNotEmptyS (mp : nat) : K bool := queue_notempty (q_mtx mp).

(** [mp->owner = tp; mp->next = tp->mtxlist; tp->mtxlist = mp;] *)
Definition take (mp : nat) (tp : tid) : K unit :=
  set_owner mp (Some tp);;
  th ← thd tp;
  set_next mp (t_mtxlist th);;
  set_mtxlist tp (Some mp).

(** The loop of [chMtxLockS] over the owners, from [tp] on; [ctp] wants the mutex. *)
Fixpoint boost (fuel : nat) (ctp tp : tid) : K unit :=
  c ← thd ctp;
  th ← thd tp;
  if t_prio th <? t_prio c then
    match fuel with
    | O => undefined
    | S fuel =>
        on_thd tp (set_t_prio (fun _ => t_prio c));;
        match t_state th with
        | CH_STATE_WTMTX =>
            match t_u th with
            | u_wtmtxp mp =>
                queue_dequeue tp;;
                queue_prio_insert tp (q_mtx mp);;
                m ← mtx mp;
                o ← deref (fun _ => m_owner m);
                boost fuel ctp o
            | _ => undefined
            end
        | CH_STATE_WTCOND => undefined
        | CH_STATE_READY => queue_dequeue tp;; chSchReadyI tp
        | _ => mret tt
        end
    end
  else mret tt.

(** [chMtxLockS] up to the switch, [true] if there is one.  The fuel of the loop is the
    number of threads. *)
Definition lock_or_sleep (mp : nat) : K bool :=
  ctp ← currp;
  m ← mtx mp;
  match m_owner m with
  | Some tp =>
      n ← gets (fun k => size (k_threads k));
      boost n ctp tp;;
      queue_prio_insert ctp (q_mtx mp);;
      set_u ctp (u_wtmtxp mp);;
      go_sleep CH_STATE_WTMTX;;
      mret true
  | None => take mp ctp;; mret false
  end.

Definition chMtxLockS (mp : nat) : prog ch_system unit :=
  b ← Atom (lock_or_sleep mp);
  if (b : bool) then Switch else mret tt.
Definition chMtxLock (mp : nat) : prog ch_system unit := locked (chMtxLockS mp).

Definition chMtxTryLockS (mp : nat) : K bool :=
  m ← mtx mp;
  match m_owner m with
  | Some _ => mret false
  | None => t ← currp; take mp t;; mret true
  end.
Definition chMtxTryLock (mp : nat) : prog ch_system bool := locked (Atom (chMtxTryLockS mp)).

(** The loop over the mutexes still owned: the highest priority waiting for them. *)
Fixpoint max_waiting (fuel : nat) (lmp : option nat) (newprio : Z) : K Z :=
  match lmp with
  | None => mret newprio
  | Some mp =>
      match fuel with
      | O => undefined
      | S fuel =>
          k ← get;
          let newprio :=
            match queue_of k (q_mtx mp) with
            | t :: _ => if newprio <? prio_of k t then prio_of k t else newprio
            | [] => newprio
            end in
          m ← mtx mp;
          max_waiting fuel (m_next m) newprio
      end
  end.

(** The mutex goes to the first waiting thread. *)
Definition hand_over (mp : nat) : K unit :=
  tp ← queue_fifo_remove (q_mtx mp);
  take mp tp;;
  chSchReadyI tp.

(** The body of [chMtxUnlock] and [chMtxUnlockS], [true] if a thread was waiting.  The
    fuel of the loop is the number of mutexes. *)
Definition unlock_mtx (mp : nat) : K bool :=
  ctp ← currp;
  m ← mtx mp;
  set_mtxlist ctp (m_next m);;
  waiting ← chMtxQueueNotEmptyS mp;
  if (waiting : bool) then
    th ← thd ctp;
    n ← gets (fun k => size (k_mtxs k));
    newprio ← max_waiting n (t_mtxlist th) (t_realprio th);
    on_thd ctp (set_t_prio (fun _ => newprio));;
    hand_over mp;;
    mret true
  else
    set_owner mp None;;
    mret false.

Definition chMtxUnlockS (mp : nat) : K unit := unlock_mtx mp;; mret tt.
Definition chMtxUnlock (mp : nat) : prog ch_system unit :=
  locked (b ← Atom (unlock_mtx mp); if (b : bool) then chSchRescheduleS else mret tt).

Fixpoint unlock_loop (fuel : nat) (ctp : tid) : K unit :=
  th ← thd ctp;
  match t_mtxlist th with
  | None => mret tt
  | Some mp =>
      match fuel with
      | O => undefined
      | S fuel =>
          m ← mtx mp;
          set_mtxlist ctp (m_next m);;
          waiting ← chMtxQueueNotEmptyS mp;
          (if (waiting : bool) then hand_over mp else set_owner mp None);;
          unlock_loop fuel ctp
      end
  end.

Definition chMtxUnlockAllS : K unit :=
  ctp ← currp;
  n ← gets (fun k => size (k_mtxs k));
  unlock_loop n ctp;;
  th ← thd ctp;
  on_thd ctp (set_t_prio (fun _ => t_realprio th)).

Definition chMtxUnlockAll : prog ch_system unit :=
  locked (
    th ← Atom (t ← currp; thd t);
    if bool_decide (t_mtxlist th <> None) then
      Atom chMtxUnlockAllS;; chSchRescheduleS
    else mret tt).

(** ** The invariant *)

Definition owner_of (k : ch_system) (mp : nat) : option tid := m ← k_mtxs k !! mp; m_owner m.

(** The linked list of mutexes from [o] on. *)
Fixpoint chain (ms : gmap nat mutex_t) (o : option nat) (l : list nat) : Prop :=
  match l with
  | [] => o = None
  | mp :: l => o = Some mp /\ exists m, ms !! mp = Some m /\ chain ms (m_next m) l
  end.

Abbreviation mqueue k mp := (queue_of k (q_mtx mp)).

(** The lists of the threads hold the mutexes they own; [out] is one that has just been
    taken out of the list of its owner. *)
Definition lists_ok (out : option nat) (k : ch_system) : Prop :=
  forall t th, k_threads k !! t = Some th -> exists l,
    chain (k_mtxs k) (t_mtxlist th) l /\ NoDup l /\
    forall mp, mp ∈ l <-> owner_of k mp = Some t /\ Some mp <> out.

(** Queues and ownership. *)
Record mtx_but (out : option nat) (k : ch_system) : Prop := {
  mk_sched : sched_ok k;
  mk_queue mp t : t ∈ mqueue k mp <-> wview k t = Some (CH_STATE_WTMTX, u_wtmtxp mp);
  mk_wtmtx t u : wview k t = Some (CH_STATE_WTMTX, u) -> exists mp, u = u_wtmtxp mp;
  mk_nodup mp : NoDup (mqueue k mp);
  mk_sorted mp : prio_sorted (prio_of k) (mqueue k mp);
  mk_owned : lists_ok out k;
  mk_owner mp o : owner_of k mp = Some o -> is_Some (k_threads k !! o)
}.
#[global] Arguments mk_sched {out} k _.
#[global] Arguments mk_queue {out} k _ mp t.
#[global] Arguments mk_wtmtx {out} k _ t u _.
#[global] Arguments mk_nodup {out} k _ mp.
#[global] Arguments mk_sorted {out} k _ mp.
#[global] Arguments mk_owner {out} k _ mp o _.
Abbreviation mtx_base := (mtx_but None).

(** The priorities are inherited, but for waiters of at most [p] on the thread [x]. *)
Definition inherits_upto (k : ch_system) (x : option tid) (p : Z) : Prop :=
  forall mp t, t ∈ mqueue k mp -> exists o, owner_of k mp = Some o /\
    prio_of k t <= (if decide (x = Some o) then Z.max p (prio_of k o) else prio_of k o).

Definition inherits (k : ch_system) : Prop := forall mp t, t ∈ mqueue k mp ->
  exists o, owner_of k mp = Some o /\ prio_of k t <= prio_of k o.

Record mtx_ok (k : ch_system) : Prop := {
  mk_base : mtx_base k;
  mk_inherits : inherits k
}.

(** ** Raising the priority of a thread *)

Lemma prio_of_thread k t th : k_threads k !! t = Some th -> prio_of k t = t_prio th.
Proof. intros H. unfold prio_of. by rewrite H. Qed.

Lemma prio_of_threads k k' x : k_threads k' = k_threads k -> prio_of k' x = prio_of k x.
Proof. unfold prio_of. by intros ->. Qed.

Definition prio_set (t : tid) (p : Z) (th : thread_t) (k : ch_system) : ch_system :=
  set_k_threads (insert t (set_t_prio (fun _ => p) th)) k.

Lemma prio_of_set t p th k x : prio_of (prio_set t p th k) x = if decide (x = t) then p else prio_of k x.
Proof.
  unfold prio_of, prio_set. cbn. case_decide; [subst; by rewrite lookup_insert_eq|].
  by rewrite lookup_insert_ne.
Qed.

Lemma wview_set_prio t p th k x : k_threads k !! t = Some th ->
  wview (prio_set t p th k) x = wview k x.
Proof.
  intros Ht. unfold wview, prio_set. cbn. destruct (decide (x = t)) as [->|].
  - by rewrite lookup_insert_eq, Ht.
  - by rewrite lookup_insert_ne.
Qed.

(** The scheduler's invariant when only the priority of [t] and the order of the ready
    list change. *)
Lemma sched_ok_reprio k k' t th p : sched_ok k -> k_threads k !! t = Some th -> NOPRIO < p ->
  k_threads k' = <[t := set_t_prio (fun _ => p) th]> (k_threads k) ->
  k_current k' = k_current k -> k_rlist k' ≡ₚ k_rlist k ->
  prio_sorted (prio_of k') (k_rlist k') -> sched_ok k'.
Proof.
  intros [Hn He Hc Hr Hs Hp] Ht Hpos Hth Hcur Hl Hsl. constructor; rewrite ?Hcur.
  - by rewrite Hl.
  - intros x Hx. rewrite Hth, lookup_insert_is_Some. rewrite Hl in Hx.
    destruct (decide (t = x)); auto.
  - intros x thx. rewrite Hth. intros [[<- <-]|[? Hx]]%lookup_insert_Some; [by apply (Hc t th)|by apply Hc].
  - intros x thx. rewrite Hth, Hl. intros [[<- <-]|[? Hx]]%lookup_insert_Some; [by apply (Hr t th)|by apply Hr].
  - done.
  - intros x thx. rewrite Hth. intros [[<- <-]|[? Hx]]%lookup_insert_Some; [done|by eapply Hp].
Qed.

Lemma prio_sorted_except pr pr' t l : prio_sorted pr l -> t ∉ l ->
  (forall x, x <> t -> pr' x = pr x) -> prio_sorted pr' l.
Proof.
  intros Hs. induction Hs as [|c l Hs IH Hc]; intros Ht Hpr; [constructor|].
  apply not_elem_of_cons in Ht as [Htc Htl]. constructor; [by apply IH|].
  apply Forall_forall. intros x Hx. pose proof (proj1 (Forall_forall _ _) Hc _ Hx) as Hle.
  cbn in *. rewrite !Hpr; [done|congruence|congruence].
Qed.

Lemma prio_sorted_filter pr (P : tid -> Prop) `{!forall x, Decision (P x)} l :
  prio_sorted pr l -> prio_sorted pr (filter P l).
Proof.
  induction 1 as [|c l Hs IH Hc]; [constructor|]. rewrite filter_cons. case_decide; [|done].
  constructor; [done|]. apply Forall_forall. intros x [_ Hx]%list_elem_of_filter.
  by apply (proj1 (Forall_forall _ _) Hc).
Qed.

(** A list in which [t] is moved to the place of its new priority. *)
Lemma move_sorted pr pr' t l : NoDup l -> t ∈ l -> prio_sorted pr l ->
  (forall x, x <> t -> pr' x = pr x) ->
  let l' := ThreadQueue.insert_after (fun c => pr' t <=? pr' c) t (filter (fun x => x <> t) l) in
  l' ≡ₚ l /\ prio_sorted pr' l'.
Proof.
  intros Hn Ht Hs Hpr l'.
  assert (Hf : t ∉ filter (fun x => x <> t) l) by by intros [? _]%list_elem_of_filter.
  split.
  - subst l'. rewrite insert_after_perm. symmetry. apply NoDup_Permutation; [done| |].
    + constructor; [done|by apply NoDup_filter].
    + intros x. rewrite elem_of_cons, list_elem_of_filter. destruct (decide (x = t)) as [->|]; tauto.
  - apply insert_after_sorted; [|intros; zbool; lia..].
    eapply prio_sorted_except; [by apply prio_sorted_filter|done|done].
Qed.

(** The ownership of mutexes does not change. *)
Lemma mtx_but_intro out k k' : mtx_but out k -> sched_ok k' -> k_mtxs k' = k_mtxs k ->
  (forall x, t_mtxlist <$> k_threads k' !! x = t_mtxlist <$> k_threads k !! x) ->
  (forall mp t, t ∈ mqueue k' mp <-> wview k' t = Some (CH_STATE_WTMTX, u_wtmtxp mp)) ->
  (forall t u, wview k' t = Some (CH_STATE_WTMTX, u) -> exists mp, u = u_wtmtxp mp) ->
  (forall mp, NoDup (mqueue k' mp) /\ prio_sorted (prio_of k') (mqueue k' mp)) ->
  mtx_but out k'.
Proof.
  intros Hb Hok Hm Hl Hq Hw Hn.
  assert (How : forall mp, owner_of k' mp = owner_of k mp) by (intros; unfold owner_of; by rewrite Hm).
  constructor; [done|done|done|apply Hn|apply Hn| |].
  - intros t th Ht. specialize (Hl t). rewrite Ht in Hl.
    symmetry in Hl. apply fmap_Some in Hl as (th0 & Ht0 & Hl).
    destruct (mk_owned _ _ Hb t th0 Ht0) as (l & Hc & Hnd & Hin). exists l.
    rewrite Hm, Hl. split; [done|]. split; [done|]. intros mp. by rewrite How.
  - intros mp o. rewrite How. intros [th Ht]%(mk_owner _ Hb). specialize (Hl o).
    rewrite Ht in Hl. apply fmap_Some in Hl as (th' & -> & _). eauto.
Qed.

(** [t] has the priority [p] and its place in the queues. *)
Record raised (t : tid) (p : Z) (th : thread_t) (k k' : ch_system) : Prop := {
  ra_base : mtx_base k';
  ra_threads : k_threads k' = <[t := set_t_prio (fun _ => p) th]> (k_threads k);
  ra_mtxs : k_mtxs k' = k_mtxs k;
  ra_current : k_current k' = k_current k;
  ra_rlist : k_rlist k' ≡ₚ k_rlist k;
  ra_queue mp : mqueue k' mp ≡ₚ mqueue k mp
}.

Lemma raised_prio t p th k k' x : raised t p th k k' ->
  prio_of k' x = if decide (x = t) then p else prio_of k x.
Proof.
  intros Hra. unfold prio_of. rewrite (ra_threads _ _ _ _ _ Hra).
  case_decide; [subst; by rewrite lookup_insert_eq|]. by rewrite lookup_insert_ne.
Qed.

Lemma raised_intro t p th k k' : mtx_base k -> k_threads k !! t = Some th -> sched_ok k' ->
  k_threads k' = <[t := set_t_prio (fun _ => p) th]> (k_threads k) ->
  k_mtxs k' = k_mtxs k -> k_current k' = k_current k -> k_rlist k' ≡ₚ k_rlist k ->
  (forall mp, mqueue k' mp ≡ₚ mqueue k mp /\ prio_sorted (prio_of k') (mqueue k' mp)) ->
  raised t p th k k'.
Proof.
  intros Hb Ht Hok Hth Hm Hc Hl Hqs. constructor; try done; [|apply Hqs].
  assert (Hw : forall x, wview k' x = wview k x).
  { intros x. rewrite <- (wview_set_prio t p th k x Ht). unfold wview, prio_set. by rewrite Hth. }
  apply (mtx_but_intro _ k); [done..| | | |].
  - intros x. rewrite Hth. destruct (decide (x = t)) as [->|];
      [by rewrite lookup_insert_eq, Ht|by rewrite lookup_insert_ne].
  - intros mp x. rewrite (proj1 (Hqs mp)), Hw. apply Hb.
  - intros x u. rewrite Hw. apply (mk_wtmtx _ Hb).
  - intros mp. split; [|apply Hqs]. rewrite (proj1 (Hqs mp)). apply Hb.
Qed.

(** ** The inheritance loop *)

Definition dequeued (t : tid) (k : ch_system) : ch_system :=
  set_k_rlist (filter (fun x => x <> t))
    (set_k_queues (fmap (M := gmap qid) (filter (fun x => x <> t))) k).

Lemma queue_of_dequeued t k q : queue_of (dequeued t k) q = filter (fun x => x <> t) (queue_of k q).
Proof. unfold queue_of. cbn. rewrite lookup_fmap. by destruct (k_queues k !! q). Qed.

Lemma filter_absent (t : tid) (l : list tid) : t ∉ l -> filter (fun x => x <> t) l = l.
Proof. intros H. apply list_filter_all. by intros x Hx ->. Qed.

Lemma mqueue_absent k t mp : mtx_base k ->
  wview k t <> Some (CH_STATE_WTMTX, u_wtmtxp mp) -> t ∉ mqueue k mp.
Proof. intros Hb H Hin%(mk_queue _ Hb). done. Qed.

(** The thread waits for a mutex: it moves in its queue. *)
Lemma raise_waiting k t th mp p : mtx_base k -> k_threads k !! t = Some th -> NOPRIO < p ->
  t_state th = CH_STATE_WTMTX -> t_u th = u_wtmtxp mp ->
  exists k', (queue_dequeue t;; queue_prio_insert t (q_mtx mp)) (prio_set t p th k) = Some (tt, k') /\
    raised t p th k k'.
Proof.
  intros Hb Ht Hp Hst Hu. eexists. split; [reflexivity|].
  set (k2 := dequeued t (prio_set t p th k)).
  change (raised t p th k (set_k_queues (insert (q_mtx mp) (prio_insert k2 t (queue_of k2 (q_mtx mp)))) k2)).
  assert (Hw : wview k t = Some (CH_STATE_WTMTX, u_wtmtxp mp)).
  { unfold wview. rewrite Ht. cbn. rewrite Hst, Hu.
    rewrite decide_False; [done|]. by intros [?|?]. }
  assert (Hrl : t ∉ k_rlist k).
  { intros Hin%(so_ready _ (mk_sched _ Hb) _ _ Ht). congruence. }
  assert (Hpr : forall x, x <> t -> prio_of (prio_set t p th k) x = prio_of k x).
  { intros x Hx. by rewrite prio_of_set, decide_False. }
  apply raised_intro; try done.
  - eapply (sched_ok_reprio k _ t th p); [apply Hb|done|done|done|done| |].
    + cbn. by rewrite filter_absent.
    + cbn. rewrite filter_absent by done.
      eapply prio_sorted_except; [apply (mk_sched _ Hb)|exact Hrl|exact Hpr].
  - cbn. by rewrite filter_absent.
  - intros mp'. rewrite queue_of_insert. unfold k2. rewrite !queue_of_dequeued.
    change (queue_of (prio_set t p th k)) with (queue_of k). case_decide as Hmp.
    + injection Hmp as ->. unfold prio_insert.
      apply (move_sorted (prio_of k) (prio_of (prio_set t p th k)) t (mqueue k mp));
        [apply Hb|by apply Hb|apply Hb|done].
    + rewrite filter_absent by (apply mqueue_absent; [done|congruence]). split; [done|].
      eapply prio_sorted_except; [apply (mk_sorted _ Hb)| |exact Hpr].
      apply mqueue_absent; [done|congruence].
Qed.

(** The thread is ready: it moves in the ready list. *)
Lemma raise_ready k t th p : mtx_base k -> k_threads k !! t = Some th -> NOPRIO < p ->
  t_state th = CH_STATE_READY ->
  exists k', (queue_dequeue t;; chSchReadyI t) (prio_set t p th k) = Some (tt, k') /\
    raised t p th k k'.
Proof.
  intros Hb Ht Hp Hst. set (th1 := set_t_prio (fun _ => p) th).
  set (k2 := dequeued t (prio_set t p th k)).
  assert (Ht2 : k_threads k2 !! t = Some th1) by apply lookup_insert_eq.
  eexists. split; [exact (chSchReadyI_run t k2 th1 Ht2)|].
  assert (Hr : t ∈ k_rlist k) by by apply (so_ready _ (mk_sched _ Hb) _ _ Ht).
  assert (Hw : wview k t = None) by (apply wview_running; [apply Hb|by right]).
  assert (Hpr : forall x, x <> t -> prio_of k2 x = prio_of k x).
  { intros x Hx. transitivity (prio_of (prio_set t p th k) x); [done|].
    by rewrite prio_of_set, decide_False. }
  assert (Hth : set_t_state (fun _ => CH_STATE_READY) th1 = th1).
  { subst th1. destruct th. cbn in *. by subst. }
  match goal with |- raised _ _ _ _ ?k3 => assert (Hthr : k_threads k3 = <[t := th1]> (k_threads k)) end.
  { cbn. rewrite Hth. fold th1. apply insert_insert_eq. }
  assert (Hpx : forall x, prio_of k2 x = prio_of (readied (ThreadQueue.insert_after
    (fun c => prio_of k2 t <=? prio_of k2 c) t (k_rlist k2)) t th1 k2) x).
  { intros x. symmetry. apply prio_of_threads. by rewrite Hthr. }
  destruct (move_sorted (prio_of k) (prio_of k2) t (k_rlist k)) as [Hperm Hsort];
    [by eapply NoDup_cons_1_2, (mk_sched _ Hb)|done|apply (mk_sched _ Hb)|done|].
  apply raised_intro; try done.
  - eapply (sched_ok_reprio k _ t th p); [apply Hb|done|done|done|done|done|].
    eapply prio_sorted_ext, Hsort. exact Hpx.
  - intros mp. assert (Hmq : mqueue k2 mp = mqueue k mp).
    { subst k2. rewrite queue_of_dequeued. apply filter_absent, mqueue_absent; [done|].
      change (wview k t <> Some (CH_STATE_WTMTX, u_wtmtxp mp)). by rewrite Hw. }
    change (queue_of (readied ?l ?a ?b ?c)) with (queue_of c). rewrite Hmq. split; [done|].
    eapply prio_sorted_ext; [exact Hpx|].
    eapply prio_sorted_except; [apply (mk_sorted _ Hb)| |exact Hpr].
    apply mqueue_absent; [done|]. by rewrite Hw.
Qed.

(** The thread waits for something else, without an order by priority. *)
Lemma raise_other k t th p : mtx_base k -> k_threads k !! t = Some th -> NOPRIO < p ->
  t_state th <> CH_STATE_WTMTX -> t_state th <> CH_STATE_READY ->
  raised t p th k (prio_set t p th k).
Proof.
  intros Hb Ht Hp Hnm Hnr.
  assert (Hrl : t ∉ k_rlist k) by by intros Hin%(so_ready _ (mk_sched _ Hb) _ _ Ht).
  assert (Hpr : forall x, x <> t -> prio_of (prio_set t p th k) x = prio_of k x).
  { intros x Hx. by rewrite prio_of_set, decide_False. }
  apply raised_intro; try done.
  - eapply (sched_ok_reprio k _ t th p); [apply Hb|done..|].
    eapply prio_sorted_except; [apply (mk_sched _ Hb)|exact Hrl|exact Hpr].
  - intros mp. split; [done|].
    eapply prio_sorted_except; [apply (mk_sorted _ Hb)| |exact Hpr].
    apply (mqueue_absent k); [done|]. intros Hw. unfold wview in Hw. rewrite Ht in Hw.
    cbn in Hw. case_decide; congruence.
Qed.

(** The threads of lower priority: each turn of the loop has one less. *)
Definition low (p : Z) (k : ch_system) : gmap tid thread_t :=
  filter (fun x => t_prio (snd x) < p) (k_threads k).

Lemma low_raised t p th k k' : k_threads k !! t = Some th -> t_prio th < p ->
  raised t p th k k' -> (size (low p k') < size (low p k))%nat.
Proof.
  intros Ht Hlt Hra. unfold low. rewrite (ra_threads _ _ _ _ _ Hra).
  rewrite map_filter_insert_False by (cbn; lia).
  rewrite map_filter_delete, map_size_delete_Some.
  - assert (filter (fun x => t_prio (snd x) < p) (k_threads k) !! t = Some th) as Hin
      by by apply map_lookup_filter_Some.
    assert (size (filter (fun x => t_prio (snd x) < p) (k_threads k)) <> 0%nat); [|lia].
    intros H0%map_size_empty_inv. by rewrite H0 in Hin.
  - exists th. by apply map_lookup_filter_Some.
Qed.

(** Condition variables are not part of the model. *)
Definition no_wtcond (k : ch_system) : Prop :=
  forall t th, k_threads k !! t = Some th -> t_state th <> CH_STATE_WTCOND.

(** What the loop does: priorities go up to [p], in no other respect does the state
    change. *)
Record boosted (p : Z) (k k' : ch_system) : Prop := {
  bo_base : mtx_base k';
  bo_inherits : inherits k';
  bo_prio x : prio_of k' x = prio_of k x \/ (prio_of k x < p /\ prio_of k' x = p);
  bo_mtxs : k_mtxs k' = k_mtxs k;
  bo_current : k_current k' = k_current k;
  bo_rlist : k_rlist k' ≡ₚ k_rlist k;
  bo_mtxlist x : t_mtxlist <$> k_threads k' !! x = t_mtxlist <$> k_threads k !! x;
  bo_wview x : wview k' x = wview k x;
  bo_queue mp : mqueue k' mp ≡ₚ mqueue k mp
}.

Lemma raised_wview t p th k k' x : k_threads k !! t = Some th -> raised t p th k k' ->
  wview k' x = wview k x.
Proof.
  intros Ht Hra. rewrite <- (wview_set_prio t p th k x Ht).
  unfold wview, prio_set. by rewrite (ra_threads _ _ _ _ _ Hra).
Qed.

(** After a thread that waits for [mp] is raised, only the owner of [mp] may be too low;
    after another thread is, none. *)
Lemma raised_inherits t p th k k' : mtx_base k -> k_threads k !! t = Some th -> t_prio th < p ->
  inherits_upto k (Some t) p -> raised t p th k k' ->
  (forall mp o, wview k t = Some (CH_STATE_WTMTX, u_wtmtxp mp) -> owner_of k mp = Some o ->
     inherits_upto k' (Some o) p) /\
  ((forall mp, wview k t <> Some (CH_STATE_WTMTX, u_wtmtxp mp)) -> inherits k').
Proof.
  intros Hb Ht Hlt Hin Hra.
  assert (Hgen : forall mp x, x ∈ mqueue k' mp -> exists o, owner_of k' mp = Some o /\
    (prio_of k' x <= prio_of k' o \/ (x = t /\ wview k t = Some (CH_STATE_WTMTX, u_wtmtxp mp)))).
  { intros mp x Hx. rewrite (ra_queue _ _ _ _ _ Hra) in Hx.
    destruct (Hin mp x Hx) as (o & Ho & Hle). exists o. split.
    { unfold owner_of. by rewrite (ra_mtxs _ _ _ _ _ Hra). }
    rewrite !(raised_prio _ _ _ _ _ _ Hra). destruct (decide (x = t)) as [->|Hxt].
    - right. split; [done|]. by apply (mk_queue _ Hb).
    - left. repeat case_decide; simplify_eq; rewrite ?(prio_of_thread _ _ _ Ht) in Hle; lia. }
  split.
  - intros mp o Hw Ho mp' x Hx. destruct (Hgen mp' x Hx) as (o' & Ho' & [Hle|[-> Hw']]);
      exists o'; (split; [done|]).
    + case_decide; lia.
    + rewrite Hw in Hw'. injection Hw' as <-.
      assert (owner_of k' mp = owner_of k mp) as Hoo
        by (unfold owner_of; by rewrite (ra_mtxs _ _ _ _ _ Hra)).
      rewrite decide_True by congruence.
      rewrite (raised_prio _ _ _ _ _ t Hra), decide_True by done. lia.
  - intros Hw mp x Hx. destruct (Hgen mp x Hx) as (o & Ho & [Hle|[-> Hw']]); [by exists o|].
    by destruct (Hw mp).
Qed.

Lemma boosted_trans p t th k k1 k' : k_threads k !! t = Some th -> t_prio th < p ->
  raised t p th k k1 -> boosted p k1 k' -> boosted p k k'.
Proof.
  intros Ht Hlt Hra [Hb Hi Hp Hm Hc Hrl Hml Hw Hq].
  constructor; [done|done| | | | | | |].
  - intros x. destruct (Hp x) as [E|[Hl E]]; rewrite (raised_prio _ _ _ _ _ x Hra) in *.
    + case_decide; subst; [right; by rewrite (prio_of_thread _ _ _ Ht)|by left].
    + case_decide; [lia|]. by right.
  - by rewrite Hm, (ra_mtxs _ _ _ _ _ Hra).
  - by rewrite Hc, (ra_current _ _ _ _ _ Hra).
  - by rewrite Hrl, (ra_rlist _ _ _ _ _ Hra).
  - intros x. rewrite Hml, (ra_threads _ _ _ _ _ Hra). destruct (decide (x = t)) as [->|];
      [by rewrite lookup_insert_eq, Ht|by rewrite lookup_insert_ne].
  - intros x. rewrite Hw. by eapply raised_wview.
  - intros mp. by rewrite Hq, (ra_queue _ _ _ _ _ Hra).
Qed.

Lemma boosted_refl p k : mtx_base k -> inherits k -> boosted p k k.
Proof. by constructor; auto. Qed.

Lemma raised_boosted p t th k k' : k_threads k !! t = Some th -> t_prio th < p ->
  raised t p th k k' -> inherits k' -> boosted p k k'.
Proof.
  intros Ht Hlt Hra Hi. eapply boosted_trans; [done..|].
  apply boosted_refl; [apply Hra|done].
Qed.

(** A turn that ends the loop. *)
Lemma last_turn p t th k k' : mtx_base k -> k_threads k !! t = Some th -> t_prio th < p ->
  inherits_upto k (Some t) p -> t_state th <> CH_STATE_WTMTX -> raised t p th k k' ->
  boosted p k k' /\ p <= prio_of k' t.
Proof.
  intros Hb Ht Hlt Hin Hst Hra. destruct (raised_inherits t p th k k') as [_ Hi]; [done..|]. split.
  - eapply raised_boosted; [done..|]. apply Hi. intros mp Hw.
    unfold wview in Hw. rewrite Ht in Hw. cbn in Hw. case_decide; congruence.
  - by rewrite (raised_prio _ _ _ _ _ t Hra), decide_True.
Qed.

(** Nothing to do: the priority is high enough. *)
Lemma high_enough p t th k : mtx_base k -> k_threads k !! t = Some th -> p <= t_prio th ->
  inherits_upto k (Some t) p -> boosted p k k /\ p <= prio_of k t.
Proof.
  intros Hb Ht Hle Hin. rewrite (prio_of_thread _ _ _ Ht). split; [|done].
  apply boosted_refl; [done|]. intros mp x Hx. destruct (Hin mp x Hx) as (o & Ho & Hx').
  exists o. split; [done|]. case_decide; simplify_eq; [|done].
  rewrite (prio_of_thread _ _ _ Ht) in *. lia.
Qed.

Lemma no_wtcond_raised t p th k k' : no_wtcond k -> k_threads k !! t = Some th ->
  raised t p th k k' -> no_wtcond k'.
Proof.
  intros Hn Ht Hra x thx. rewrite (ra_threads _ _ _ _ _ Hra).
  intros [[<- <-]|[? Hx]]%lookup_insert_Some; [exact (Hn t th Ht)|by apply (Hn x)].
Qed.

Lemma owner_of_Some k mp o : owner_of k mp = Some o ->
  exists m, k_mtxs k !! mp = Some m /\ m_owner m = Some o.
Proof. unfold owner_of. destruct (k_mtxs k !! mp) as [m|]; [by exists m|done]. Qed.

(** The loop ends, within as many turns as there are threads of lower priority, with all
    priorities inherited. *)
Lemma boost_ok p ctp : forall fuel t k c, mtx_base k -> no_wtcond k -> inherits_upto k (Some t) p ->
  ctp = k_current k -> k_threads k !! ctp = Some c -> t_prio c = p -> is_Some (k_threads k !! t) ->
  (size (low p k) <= fuel)%nat ->
  exists k', boost fuel ctp t k = Some (tt, k') /\ boosted p k k' /\ p <= prio_of k' t.
Proof.
  induction fuel as [|fuel IH]; intros t k c Hb Hnc Hin Hcur Hc Hp [th Ht] Hfuel; cbn [boost];
    unfold thd; msimpl; rewrite Hp; destruct (t_prio th <? p) eqn:E; zbool.
  2, 4: exists k; split; [done|by apply (high_enough p t th)].
  { assert (H0 : low p k = ∅) by (apply map_size_empty_inv; lia).
    assert (low p k !! t = Some th) as H by (by apply map_lookup_filter_Some). by rewrite H0 in H. }
  erewrite run_call by by apply (on_thd_run t _ k th). fold (prio_set t p th k).
  assert (Hpos : NOPRIO < p) by (rewrite <- Hp; by apply (so_prio _ (mk_sched _ Hb) _ _ Hc)).
  destruct (decide (t_state th = CH_STATE_READY)) as [Hr|Hnr].
  { rewrite Hr. destruct (raise_ready k t th p) as (k' & Ek & Hra); [done..|].
    exists k'. split; [exact Ek|]. eapply last_turn; [done..|congruence|done]. }
  destruct (decide (t_state th = CH_STATE_WTMTX)) as [Hm|Hnm].
  - assert (Hwt : wview k t = Some (CH_STATE_WTMTX, t_u th)).
    { unfold wview. rewrite Ht. cbn. rewrite Hm. rewrite decide_False; [done|]. by intros [?|?]. }
    destruct (mk_wtmtx _ Hb _ _ Hwt) as [mp Hu]. rewrite Hu in Hwt. rewrite Hm, Hu.
    destruct (raise_waiting k t th mp p) as (k1 & Ek & Hra); [done..|].
    destruct (Hin mp t) as (o & Ho & _); [by apply (mk_queue _ Hb)|].
    destruct (raised_inherits t p th k k1) as [Hi1 _]; [done..|]. specialize (Hi1 mp o Hwt Ho).
    destruct (owner_of_Some k mp o Ho) as (m & Hmp & Hmo).
    destruct (IH o k1 c) as (k' & E' & Hbo & Hle); try done.
    + apply Hra.
    + by eapply no_wtcond_raised.
    + by rewrite (ra_current _ _ _ _ _ Hra).
    + rewrite (ra_threads _ _ _ _ _ Hra), lookup_insert_ne; [done|]. intros ->. simplify_eq. lia.
    + rewrite (ra_threads _ _ _ _ _ Hra), lookup_insert_is_Some.
      destruct (decide (t = o)); [by left|right]. split; [done|]. by apply (mk_owner _ Hb mp).
    + pose proof (low_raised t p th k k1 Ht E Hra). lia.
    + pose proof (boosted_trans p t th k k1 k' Ht E Hra Hbo) as Hbk.
      exists k'. split; [|split; [done|]].
      * rewrite <- run_assoc. erewrite run_call by apply Ek. unfold mtx.
        erewrite run_deref by (rewrite (ra_mtxs _ _ _ _ _ Hra); done).
        by erewrite run_deref by done.
      * destruct (bo_prio _ _ _ Hbo t) as [->|[_ ->]]; [|done].
        by rewrite (raised_prio _ _ _ _ _ t Hra), decide_True.
  - exists (prio_set t p th k). split; [|eapply last_turn; [done..|]; by apply raise_other].
    pose proof (Hnc t th Ht). by destruct (t_state th).
Qed.

(** ** Taking a mutex *)

Lemma chain_insert ms o l mp m : chain ms o l -> mp ∉ l -> chain (<[mp := m]> ms) o l.
Proof.
  revert o. induction l as [|x l IH]; intros o; cbn; [done|].
  intros (-> & mx & Hx & Hc) [? ?]%not_elem_of_cons. split; [done|].
  exists mx. rewrite lookup_insert_ne by done. auto.
Qed.

Lemma owner_of_insert k mp m x : owner_of (set_k_mtxs (insert mp m) k) x =
  if decide (x = mp) then m_owner m else owner_of k x.
Proof.
  unfold owner_of. cbn. case_decide; [subst; by rewrite lookup_insert_eq|].
  by rewrite lookup_insert_ne.
Qed.

Definition taken (mp : nat) (t : tid) (th : thread_t) (k : ch_system) : ch_system :=
  set_k_threads (insert t (set_t_mtxlist (fun _ => Some mp) th))
    (set_k_mtxs (insert mp (Mutex (Some t) (t_mtxlist th))) k).

Lemma take_run mp t m k th : k_mtxs k !! mp = Some m -> k_threads k !! t = Some th ->
  take mp t k = Some (tt, taken mp t th k).
Proof.
  intros Hm Ht. unfold take, set_owner, set_next, set_mtxlist, on_mtx, thd.
  erewrite run_update by (rewrite Hm; reflexivity).
  erewrite run_deref by (cbn; exact Ht).
  erewrite run_update by (cbn; rewrite lookup_insert_eq; reflexivity).
  erewrite on_thd_run by (cbn; exact Ht).
  unfold taken, set_k_mtxs, set_k_threads. cbn. by rewrite insert_insert_eq.
Qed.

(** A mutex in no list, of which the owner, if any, has just given it up. *)
Lemma taken_ok mp m t th k : mtx_but (Some mp) k -> k_mtxs k !! mp = Some m ->
  k_threads k !! t = Some th -> mtx_base (taken mp t th k).
Proof.
  intros Hb Hm Ht.
  assert (Hw : forall x, wview (taken mp t th k) x = wview k x).
  { intros x. unfold wview, taken. cbn. destruct (decide (x = t)) as [->|];
      [by rewrite lookup_insert_eq, Ht|by rewrite lookup_insert_ne]. }
  assert (Hp : forall x, prio_of k x = prio_of (taken mp t th k) x).
  { intros x. unfold prio_of, taken. cbn. destruct (decide (x = t)) as [->|];
      [by rewrite lookup_insert_eq, Ht|by rewrite lookup_insert_ne]. }
  assert (How : forall x, owner_of (taken mp t th k) x = if decide (x = mp) then Some t else owner_of k x)
    by (intros x; apply (owner_of_insert k mp (Mutex (Some t) (t_mtxlist th)))).
  constructor.
  - apply (sched_ok_insert t th); [by eapply sched_same, (mk_sched _ Hb)|done..].
  - intros mp' x. rewrite Hw. apply (mk_queue _ Hb).
  - intros x u. rewrite Hw. apply (mk_wtmtx _ Hb).
  - apply (mk_nodup _ Hb).
  - intros mp'. eapply prio_sorted_ext; [exact Hp|]. apply (mk_sorted _ Hb).
  - intros x thx Hx. cbn in Hx. destruct (decide (x = t)) as [->|Hne].
    + rewrite lookup_insert_eq in Hx. injection Hx as <-.
      destruct (mk_owned _ _ Hb t th Ht) as (l & Hc & Hn & Hl).
      assert (Hmp : mp ∉ l) by (intros [_ ?]%Hl; done).
      exists (mp :: l). split; [|split; [by constructor|]].
      * cbn. split; [done|]. eexists. split; [apply lookup_insert_eq|]. by apply chain_insert.
      * intros x. rewrite How, elem_of_cons, Hl. case_decide; [split; [done|by left]|].
        split; [intros [?|[? ?]]; [done|by split]|]. intros [? _]. right. split; [done|congruence].
    + rewrite lookup_insert_ne in Hx by done.
      destruct (mk_owned _ _ Hb x thx Hx) as (l & Hc & Hn & Hl).
      assert (Hmp : mp ∉ l) by (intros [_ ?]%Hl; done).
      exists l. split; [by apply chain_insert|]. split; [done|]. intros y. rewrite How, Hl.
      case_decide; [subst; split; [by intros [_ ?]|intros [? _]; congruence]|].
      split; intros [? _]; (split; [done|congruence]).
  - intros y o. rewrite How. cbn. rewrite lookup_insert_is_Some. case_decide.
    + intros [= <-]. by left.
    + intros Ho%(mk_owner _ Hb). destruct (decide (t = o)); auto.
Qed.

Lemma free_out mp k : mtx_base k -> owner_of k mp = None -> mtx_but (Some mp) k.
Proof.
  intros Hb Hf. constructor; try apply Hb. intros t th Ht.
  destruct (mk_owned _ _ Hb t th Ht) as (l & Hc & Hn & Hl). exists l. do 2 (split; [done|]).
  intros x. rewrite Hl. split; (intros [Ho _]; split; [done|]); [|done].
  intros [= ->]. congruence.
Qed.

Lemma inherits_same k k' : inherits k -> (forall x, prio_of k' x = prio_of k x) ->
  (forall mp, mqueue k' mp = mqueue k mp) ->
  (forall mp, mqueue k mp <> [] -> owner_of k' mp = owner_of k mp) -> inherits k'.
Proof.
  intros Hi Hp Hq Ho mp t. rewrite Hq. intros Ht. destruct (Hi mp t Ht) as (o & Hmo & Hle).
  exists o. rewrite Ho, !Hp; [done|]. intros H. rewrite H in Ht. by apply elem_of_nil in Ht.
Qed.

(** Locking a free mutex takes it at once, and changes no other. *)
Theorem lock_free_ok mp m k : mtx_ok k -> k_mtxs k !! mp = Some m -> m_owner m = None ->
  exists k', lock_or_sleep mp k = Some (false, k') /\ mtx_ok k' /\
    owner_of k' mp = Some (k_current k) /\ (forall x, x <> mp -> owner_of k' x = owner_of k x) /\
    k_current k' = k_current k.
Proof.
  intros [Hb Hi] Hm Ho. destruct (current_thread _ (mk_sched _ Hb)) as [th Ht].
  assert (Hof : owner_of k mp = None) by (unfold owner_of; by rewrite Hm).
  assert (Hown : forall x, owner_of (taken mp (k_current k) th k) x =
    if decide (x = mp) then Some (k_current k) else owner_of k x)
    by (intros x; apply (owner_of_insert k mp (Mutex (Some (k_current k)) (t_mtxlist th)))).
  exists (taken mp (k_current k) th k). split.
  { unfold lock_or_sleep, currp, mtx. msimpl. rewrite Ho.
    by erewrite run_call by by apply (take_run mp _ m k th). }
  split; [constructor; [by apply (taken_ok mp m); [apply free_out|..]|]|].
  - eapply inherits_same; [done| |done|].
    + intros x. unfold prio_of, taken. cbn. destruct (decide (x = k_current k)) as [->|];
        [by rewrite lookup_insert_eq, Ht|by rewrite lookup_insert_ne].
    + intros x Hx. rewrite Hown. case_decide; [subst|done].
      destruct (mqueue k mp) as [|t l] eqn:Hq; [done|].
      destruct (Hi mp t) as (o & ? & _); [rewrite Hq; by left|congruence].
  - rewrite Hown, decide_True by done. split; [done|]. split; [|done].
    intros x Hx. by rewrite Hown, decide_False.
Qed.

(** The running thread enters the queue of an owned mutex and goes to sleep. *)
Lemma sleep_on_mutex mp o k t l : mtx_base k -> inherits k -> owner_of k mp = Some o ->
  prio_of k (k_current k) <= prio_of k o -> k_rlist k = t :: l ->
  exists k', (queue_prio_insert (k_current k) (q_mtx mp);;
      set_u (k_current k) (u_wtmtxp mp);; go_sleep CH_STATE_WTMTX) k = Some (tt, k') /\
    mtx_ok k' /\ top k' /\ k_current k' = t /\
    wview k' (k_current k) = Some (CH_STATE_WTMTX, u_wtmtxp mp) /\
    k_mtxs k' = k_mtxs k /\ (forall x, prio_of k' x = prio_of k x).
Proof.
  intros Hb Hi Ho Hle Hl. destruct (current_thread _ (mk_sched _ Hb)) as [th Ht].
  set (c := k_current k) in *.
  set (k1 := set_k_queues (insert (q_mtx mp) (prio_insert k c (mqueue k mp))) k).
  destruct (set_u_ok c (u_wtmtxp mp) k1 th) as (k2 & E2 & Hok2 & Hl2 & Hc2 & Hp2 & Hk2);
    [by eapply sched_same, (mk_sched _ Hb)|done|].
  destruct (go_sleep_wview CH_STATE_WTMTX k2 t l (set_t_u (fun _ => u_wtmtxp mp) th)) as
    (k' & E & Hok' & Htop & Hf & Hcur & _ & Hw);
    [done|by rewrite Hl2|by intros [?|?]|rewrite Hc2; subst k2; apply lookup_insert_eq|].
  rewrite Hc2 in Hw. change (k_current k1) with c in Hw.
  assert (Hcw : wview k c = None) by (apply wview_running; [apply Hb|by left]).
  assert (Hwk : forall x, wview k' x = if decide (x = c) then Some (CH_STATE_WTMTX, u_wtmtxp mp) else wview k x).
  { intros x. rewrite Hw. case_decide; [done|]. subst k2. unfold wview. cbn. by rewrite lookup_insert_ne. }
  assert (Hf1 : but_sched k' = but_sched k1).
  { rewrite Hf. eapply (framed_on_thd c (set_t_u (fun _ => u_wtmtxp mp))), E2. done. }
  assert (Hp : forall x, prio_of k' x = prio_of k x) by (intros; by apply (but_sched_prio k1)).
  assert (Hq : forall mp', mqueue k' mp' = if decide (mp' = mp) then prio_insert k c (mqueue k mp) else mqueue k mp').
  { intros mp'. transitivity (mqueue k1 mp'); [exact (f_equal (fun k => mqueue k mp') Hf1)|].
    unfold k1. rewrite queue_of_insert. repeat case_decide; congruence. }
  assert (Hm : k_mtxs k' = k_mtxs k) by exact (f_equal k_mtxs Hf1).
  assert (Hin : forall mp' x, x ∈ mqueue k' mp' <-> (x = c /\ mp' = mp) \/ x ∈ mqueue k mp').
  { intros mp' x. rewrite Hq. case_decide; [subst|tauto].
    unfold prio_insert. rewrite insert_after_perm, elem_of_cons. tauto. }
  exists k'. split; [|split; [constructor|]].
  - unfold queue_prio_insert, on_queue. msimpl. by erewrite run_call by apply E2.
  - apply (mtx_but_intro _ k); try done.
    + intros x. pose proof (f_equal (fun k => t_mtxlist <$> k_threads k !! x) Hf1) as Hx. cbn in Hx.
      revert Hx. rewrite !lookup_fmap. by destruct (k_threads k !! x), (k_threads k' !! x).
    + intros mp' x. rewrite Hin, Hwk, (mk_queue _ Hb). case_decide as Hx; [subst x|tauto].
      rewrite Hcw. split; [by intros [[_ ->]|?]|]. intros [= <-]. by left.
    + intros x u. rewrite Hwk. case_decide; [intros [= <-]; by exists mp|apply (mk_wtmtx _ Hb)].
    + intros mp'. rewrite Hq. split.
      * case_decide; [subst|apply Hb]. unfold prio_insert. rewrite insert_after_perm.
        apply NoDup_cons. split; [|apply Hb]. intros Hx%(mk_queue _ Hb). congruence.
      * eapply prio_sorted_ext; [intros x; symmetry; apply Hp|].
        case_decide; [subst|apply Hb]. apply insert_after_sorted; [apply Hb|intros; zbool; lia..].
  - intros mp' x. rewrite Hin. unfold owner_of. rewrite Hm.
    intros [[-> ->]|Hx]; [exists o|destruct (Hi mp' x Hx) as (o' & Ho' & ?); exists o'];
      rewrite !Hp; auto.
  - split; [done|]. split; [done|]. split; [by rewrite Hwk, decide_True|done].
Qed.

(** Locking an owned mutex puts the thread to sleep in the queue of the mutex and lets
    the owner inherit its priority, through the owners of the mutexes the owner waits for:
    afterwards every owner has at least the priority of its waiters.  The loop over the
    owners ends. *)
Theorem lock_owned_ok mp m o k : mtx_ok k -> no_wtcond k -> k_mtxs k !! mp = Some m ->
  m_owner m = Some o -> k_rlist k <> [] ->
  exists k', lock_or_sleep mp k = Some (true, k') /\ mtx_ok k' /\ top k' /\
    k_current k' ∈ k_rlist k /\ k_mtxs k' = k_mtxs k /\
    wview k' (k_current k) = Some (CH_STATE_WTMTX, u_wtmtxp mp) /\
    prio_of k (k_current k) <= prio_of k' o /\
    (forall x, prio_of k' x = prio_of k x \/
       (prio_of k x < prio_of k (k_current k) /\ prio_of k' x = prio_of k (k_current k))).
Proof.
  intros [Hb Hi] Hnc Hm Ho Hrl. destruct (current_thread _ (mk_sched _ Hb)) as [c Hc].
  assert (Hof : owner_of k mp = Some o) by (unfold owner_of; by rewrite Hm).
  destruct (boost_ok (t_prio c) (k_current k) (size (k_threads k)) o k c) as (k1 & E1 & Hbo & Hle);
    [done|done| |done|done|done|by apply (mk_owner _ Hb mp)| |].
  { intros mp' x Hx. destruct (Hi mp' x Hx) as (o' & ? & ?). exists o'. split; [done|].
    case_decide; lia. }
  { unfold low. apply map_subseteq_size, map_filter_subseteq. }
  destruct (k_rlist k1) as [|t l] eqn:Hl1.
  { pose proof (bo_rlist _ _ _ Hbo) as Hp. rewrite Hl1 in Hp. by apply Permutation_nil_l in Hp. }
  assert (Hpc : prio_of k (k_current k) = t_prio c) by by apply prio_of_thread.
  assert (Hpc1 : prio_of k1 (k_current k) = t_prio c).
  { destruct (bo_prio _ _ _ Hbo (k_current k)) as [->|[_ ->]]; done. }
  pose proof (bo_current _ _ _ Hbo) as Hc1.
  destruct (sleep_on_mutex mp o k1 t l) as (k' & E2 & Hok & Htop & Hcur & Hw & Hms & Hp);
    [apply Hbo|apply Hbo|unfold owner_of; by rewrite (bo_mtxs _ _ _ Hbo)|rewrite Hc1; lia|done|].
  rewrite Hc1 in E2, Hw. exists k'. split; [|split; [done|split; [done|]]].
  - unfold lock_or_sleep, currp, mtx. msimpl. rewrite Ho. msimpl.
    erewrite run_call by apply E1.
    apply bind_inv in E2 as ([] & k2 & Ea & ([] & k3 & Eb & Ec)%bind_inv).
    erewrite run_call by apply Ea. erewrite run_call by apply Eb. by erewrite run_call by apply Ec.
  - split; [rewrite Hcur, <- (bo_rlist _ _ _ Hbo), Hl1; by left|].
    split; [by rewrite Hms, (bo_mtxs _ _ _ Hbo)|]. split; [done|].
    rewrite Hp, Hpc. split; [done|]. intros x. rewrite Hp. apply (bo_prio _ _ _ Hbo).
Qed.

(** ** Giving a mutex up *)

Lemma chain_lookup ms o l mp : chain ms o l -> mp ∈ l -> is_Some (ms !! mp).
Proof.
  revert o. induction l as [|x l IH]; intros o; cbn; [by intros _ ?%elem_of_nil|].
  intros (-> & m & Hx & Hc) [->|Hin]%elem_of_cons; [by exists m|by eapply IH].
Qed.

Lemma chain_length ms o l : chain ms o l -> NoDup l -> (length l <= size ms)%nat.
Proof.
  intros Hc Hn. rewrite <- size_dom. rewrite <- (size_list_to_set (C := gset nat) l) by done.
  apply subseteq_size. intros mp Hin%elem_of_list_to_set. apply elem_of_dom.
  by eapply chain_lookup.
Qed.

(** The highest priority among [p] and the first threads of the queues of [l]. *)
Fixpoint highest (k : ch_system) (p : Z) (l : list nat) : Z :=
  match l with
  | [] => p
  | mp :: l => highest k (match mqueue k mp with
      | t :: _ => if p <? prio_of k t then prio_of k t else p
      | [] => p end) l
  end.

Lemma highest_ge k l : forall p, p <= highest k p l /\
  forall mp t q, mp ∈ l -> mqueue k mp = t :: q -> prio_of k t <= highest k p l.
Proof.
  induction l as [|mp l IH]; intros p; cbn; [split; [lia|by intros ??? ?%elem_of_nil]|].
  match goal with |- context [highest k ?x l] => set (p1 := x) end.
  destruct (IH p1) as [H1 H2].
  assert (Hp1 : p <= p1 /\ forall t q, mqueue k mp = t :: q -> prio_of k t <= p1).
  { subst p1. destruct (mqueue k mp) as [|t q]; [by split|].
    destruct (p <? prio_of k t) eqn:E; zbool; (split; [lia|]); intros ?? [= <- <-]; lia. }
  split; [lia|]. intros mp' t q [->|Hin]%elem_of_cons Hq; [|by eapply H2].
  destruct Hp1 as [_ Hp1]. specialize (Hp1 _ _ Hq). lia.
Qed.

Lemma max_waiting_run k l : forall fuel o p, chain (k_mtxs k) o l -> (length l <= fuel)%nat ->
  max_waiting fuel o p k = Some (highest k p l, k).
Proof.
  induction l as [|mp l IH]; intros fuel o p; cbn [chain length highest].
  - intros -> _. by destruct fuel.
  - intros (-> & m & Hm & Hc) Hf. destruct fuel as [|fuel]; [lia|].
    cbn [max_waiting]. unfold mtx. msimpl. apply IH; [done|lia].
Qed.

(** The running thread changes its priority. *)
Lemma reprio_running out k th p : mtx_but out k -> k_threads k !! k_current k = Some th ->
  NOPRIO < p -> mtx_but out (prio_set (k_current k) p th k).
Proof.
  intros Hb Ht Hp. set (c := k_current k) in *.
  assert (Hw : wview k c = None) by (apply wview_running; [apply (mk_sched _ Hb)|by left]).
  assert (Hpr : forall x, x <> c -> prio_of (prio_set c p th k) x = prio_of k x)
    by (intros x Hx; by rewrite prio_of_set, decide_False).
  assert (Hrl : c ∉ k_rlist k).
  { pose proof (so_nodup _ (mk_sched _ Hb)) as Hn. by apply NoDup_cons in Hn as [? _]. }
  apply (mtx_but_intro _ k); try done.
  - eapply (sched_ok_reprio k _ c th p); [apply (mk_sched _ Hb)|done..|].
    eapply prio_sorted_except; [apply (mk_sched _ Hb)|exact Hrl|exact Hpr].
  - intros x. unfold prio_set. cbn. destruct (decide (x = c)) as [->|];
      [by rewrite lookup_insert_eq, Ht|by rewrite lookup_insert_ne].
  - intros mp x. rewrite (wview_set_prio c p th k x Ht). apply (mk_queue _ Hb).
  - intros x u. rewrite (wview_set_prio c p th k x Ht). apply (mk_wtmtx _ Hb).
  - intros mp. split; [apply (mk_nodup _ Hb)|].
    eapply prio_sorted_except; [apply (mk_sorted _ Hb)| |exact Hpr].
    intros Hin%(mk_queue _ Hb). congruence.
Qed.

(** The first thread of a queue leaves it and becomes ready. *)
Lemma release_first out mp k t q th l : mtx_but out k -> mqueue k mp = t :: q ->
  k_threads k !! t = Some th -> l ≡ₚ t :: k_rlist k -> prio_sorted (prio_of k) l ->
  mtx_but out (readied l t th (set_k_queues (insert (q_mtx mp) q) k)).
Proof.
  intros Hb Hq Ht Hl Hs. set (k' := readied _ _ _ _).
  assert (Htw : wview k t = Some (CH_STATE_WTMTX, u_wtmtxp mp)).
  { apply (mk_queue _ Hb). rewrite Hq. by left. }
  assert (Hst : t_state th <> CH_STATE_CURRENT /\ t_state th <> CH_STATE_READY).
  { unfold wview in Htw. rewrite Ht in Htw. cbn in Htw. unfold runnable in Htw.
    case_decide; [done|tauto]. }
  assert (Hw : forall x, wview k' x = if decide (x = t) then None else wview k x).
  { intros x. unfold wview, k'. cbn. case_decide as Hx.
    - subst x. rewrite lookup_insert_eq. cbn. by rewrite decide_True by (by right).
    - by rewrite lookup_insert_ne. }
  assert (Hqk : forall mp', mqueue k' mp' = if decide (mp' = mp) then q else mqueue k mp').
  { intros mp'. transitivity (queue_of (set_k_queues (insert (q_mtx mp) q) k) (q_mtx mp')); [done|].
    rewrite queue_of_insert. repeat case_decide; congruence. }
  assert (Hpr : forall x, prio_of k' x = prio_of k x).
  { intros x. unfold k', readied. by apply (prio_of_with_state CH_STATE_READY
      (set_k_queues (insert (q_mtx mp) q) k) t th x). }
  pose proof (mk_nodup _ Hb mp) as Hnd. rewrite Hq in Hnd. apply NoDup_cons in Hnd as [Htq Hnd].
  apply (mtx_but_intro _ k); try done.
  - apply readied_ok; try done; [by eapply sched_same, (mk_sched _ Hb)|apply Hst|apply Hst].
  - intros x. unfold k'. cbn. destruct (decide (x = t)) as [->|];
      [by rewrite lookup_insert_eq, Ht|by rewrite lookup_insert_ne].
  - intros mp' x. rewrite Hw, Hqk. destruct (decide (x = t)) as [->|Hx].
    + split; [|done]. case_decide; [done|]. intros Hin%(mk_queue _ Hb). congruence.
    + case_decide; [subst|apply (mk_queue _ Hb)]. rewrite <- (mk_queue _ Hb), Hq, elem_of_cons. tauto.
  - intros x u. rewrite Hw. case_decide; [done|apply (mk_wtmtx _ Hb)].
  - intros mp'. rewrite Hqk. split; [case_decide; [done|apply (mk_nodup _ Hb)]|].
    eapply prio_sorted_ext; [intros x; symmetry; apply Hpr|].
    case_decide; [|apply (mk_sorted _ Hb)]. pose proof (mk_sorted _ Hb mp) as Hso.
    rewrite Hq in Hso. by inversion Hso.
Qed.

Lemma hand_over_ok out mp m k t q th : mtx_but out k -> k_mtxs k !! mp = Some m ->
  mqueue k mp = t :: q -> k_threads k !! t = Some th ->
  let l := ThreadQueue.insert_after (fun c => prio_of k t <=? prio_of k c) t (k_rlist k) in
  hand_over mp k = Some (tt, taken mp t (set_t_state (fun _ => CH_STATE_READY) th)
    (readied l t th (set_k_queues (insert (q_mtx mp) q) k))).
Proof.
  intros Hb Hm Hq Ht l. unfold hand_over. erewrite run_call by by apply fifo_remove_run.
  set (k1 := set_k_queues (insert (q_mtx mp) q) k).
  erewrite run_call by (apply (take_run mp t m k1 th); done).
  assert (Ht2 : k_threads (taken mp t th k1) !! t = Some (set_t_mtxlist (fun _ => Some mp) th))
    by apply lookup_insert_eq.
  rewrite (chSchReadyI_run _ _ _ Ht2). do 2 f_equal.
  unfold readied, with_state, taken, set_k_rlist, set_k_threads, set_k_mtxs. cbn.
  rewrite !insert_insert_eq. f_equal. apply insert_after_ext. intros c.
  assert (Hpr : forall x, prio_of (taken mp t th k1) x = prio_of k x).
  { intros x. unfold prio_of, taken. cbn. destruct (decide (x = t)) as [->|];
      [by rewrite lookup_insert_eq, Ht|by rewrite lookup_insert_ne]. }
  by rewrite !Hpr.
Qed.

(** The running thread takes the mutex it has locked last out of its list. *)
Lemma drop_first mp m k th : mtx_base k -> k_mtxs k !! mp = Some m ->
  k_threads k !! k_current k = Some th -> t_mtxlist th = Some mp ->
  let th1 := set_t_mtxlist (fun _ => m_next m) th in
  let k1 := set_k_threads (insert (k_current k) th1) k in
  mtx_but (Some mp) k1 /\ exists ls, chain (k_mtxs k) (m_next m) ls /\ NoDup ls /\
    owner_of k mp = Some (k_current k) /\
    forall x, x ∈ ls <-> owner_of k x = Some (k_current k) /\ x <> mp.
Proof.
  intros Hb Hm Ht Hml th1 k1. set (c := k_current k) in *.
  destruct (mk_owned _ _ Hb c th Ht) as (l0 & Hc & Hn & Hl). rewrite Hml in Hc.
  destruct l0 as [|x ls]; [done|]. cbn in Hc. destruct Hc as ([= ->] & m' & Hm' & Hc). simplify_eq.
  apply NoDup_cons in Hn as [Hx Hn].
  assert (Hown : owner_of k x = Some c) by (apply Hl; by left).
  assert (Hls : forall y, y ∈ ls <-> owner_of k y = Some c /\ y <> x).
  { intros y. specialize (Hl y). rewrite elem_of_cons in Hl. split.
    - intros Hy. split; [apply Hl; by right|congruence].
    - intros [Hy Hne]. destruct (proj2 Hl) as [?|?]; [done|done|done]. }
  split; [|by exists ls].
  assert (Hw : forall y, wview k1 y = wview k y).
  { intros y. unfold wview, k1. cbn. destruct (decide (y = c)) as [->|];
      [by rewrite lookup_insert_eq, Ht|by rewrite lookup_insert_ne]. }
  constructor.
  - by apply (sched_ok_insert c th); [apply Hb|..].
  - intros mp y. rewrite Hw. apply Hb.
  - intros y u. rewrite Hw. apply (mk_wtmtx _ Hb).
  - apply Hb.
  - intros mp. eapply prio_sorted_ext, (mk_sorted _ Hb). intros y. symmetry.
    by apply (prio_of_insert k c th).
  - intros y thy Hy. cbn in Hy. destruct (decide (y = c)) as [->|Hyc].
    + rewrite lookup_insert_eq in Hy. injection Hy as <-. exists ls. do 2 (split; [done|]).
      intros z. rewrite Hls. by split; intros [? ?]; (split; [done|congruence]).
    + rewrite lookup_insert_ne in Hy by done.
      destruct (mk_owned _ _ Hb y thy Hy) as (ly & Hcy & Hny & Hly). exists ly.
      do 2 (split; [done|]). intros z. rewrite Hly. split; intros [Hz _]; (split; [done|]); [|done].
      intros [= ->]. change (owner_of k x = Some y) in Hz. congruence.
  - intros mp o Ho. cbn. rewrite lookup_insert_is_Some. destruct (decide (c = o)); [by left|right].
    split; [done|]. by apply (mk_owner _ Hb mp).
Qed.

(** The mutex without waiting threads becomes free. *)
Lemma set_free_ok mp m k : mtx_but (Some mp) k -> k_mtxs k !! mp = Some m ->
  mqueue k mp = [] -> mtx_base (set_k_mtxs (insert mp (set_m_owner (fun _ => None) m)) k).
Proof.
  intros Hb Hm Hq. set (k' := set_k_mtxs _ k).
  assert (Hown : forall x, owner_of k' x = if decide (x = mp) then None else owner_of k x)
    by (intros x; apply owner_of_insert).
  constructor; try apply Hb.
  - by eapply sched_same, (mk_sched _ Hb).
  - intros t th Ht. destruct (mk_owned _ _ Hb t th Ht) as (l & Hc & Hn & Hl).
    assert (mp ∉ l) by (intros [_ ?]%Hl; done).
    exists l. split; [by apply chain_insert|]. split; [done|]. intros x. rewrite Hown, Hl.
    case_decide; [subst; split; [by intros [_ ?]|by intros [? _]]|].
    split; intros [? _]; (split; [done|congruence]).
  - intros x o. rewrite Hown. case_decide; [done|]. apply (mk_owner _ Hb).
Qed.

(** Unlocking a mutex nobody waits for frees it, and changes no other. *)
Theorem unlock_free_ok mp m k th : mtx_ok k -> k_mtxs k !! mp = Some m ->
  k_threads k !! k_current k = Some th -> t_mtxlist th = Some mp -> mqueue k mp = [] ->
  exists k', unlock_mtx mp k = Some (false, k') /\ mtx_ok k' /\
    owner_of k' mp = None /\ (forall x, x <> mp -> owner_of k' x = owner_of k x) /\
    k_current k' = k_current k.
Proof.
  intros [Hb Hi] Hm Ht Hml Hq.
  destruct (drop_first mp m k th Hb Hm Ht Hml) as [Hb1 _].
  set (th1 := set_t_mtxlist (fun _ => m_next m) th) in *.
  set (k1 := set_k_threads (insert (k_current k) th1) k) in *.
  set (k' := set_k_mtxs (insert mp (set_m_owner (fun _ => None) m)) k1).
  assert (Hown : forall x, owner_of k' x = if decide (x = mp) then None else owner_of k x)
    by (intros x; apply (owner_of_insert k1)).
  exists k'. split.
  { unfold unlock_mtx, currp, mtx, set_mtxlist. msimpl.
    erewrite run_call by by apply (on_thd_run _ _ _ th). fold th1 k1.
    unfold chMtxQueueNotEmptyS, queue_notempty. msimpl. change (mqueue k1 mp) with (mqueue k mp).
    rewrite Hq. cbn. unfold set_owner, on_mtx.
    by erewrite run_update by (change (k_mtxs k1) with (k_mtxs k); rewrite Hm; reflexivity). }
  split; [constructor; [by apply (set_free_ok mp m k1)|]|].
  - eapply inherits_same; [done| |done|].
    + intros x. by apply (prio_of_insert k _ th).
    + intros x Hx. rewrite Hown. case_decide; [by subst|done].
  - rewrite Hown, decide_True by done. split; [done|]. split; [|done].
    intros x Hx. by rewrite Hown, decide_False.
Qed.

Lemma highest_ext k k' l : (forall x, prio_of k' x = prio_of k x) ->
  (forall mp, mqueue k' mp = mqueue k mp) -> forall p, highest k' p l = highest k p l.
Proof.
  intros Hp Hq. induction l as [|mp l IH]; intros p; cbn; [done|]. rewrite Hq, IH.
  by destruct (mqueue k mp); rewrite ?Hp.
Qed.

Lemma handed_over mp k m t q th : mtx_but (Some mp) k -> k_mtxs k !! mp = Some m ->
  mqueue k mp = t :: q -> k_threads k !! t = Some th ->
  exists k', hand_over mp k = Some (tt, k') /\ mtx_base k' /\
    (forall x, owner_of k' x = if decide (x = mp) then Some t else owner_of k x) /\
    (forall x, mqueue k' x = if decide (x = mp) then q else mqueue k x) /\
    (forall x, prio_of k' x = prio_of k x) /\ t ∈ k_rlist k' /\ k_current k' = k_current k.
Proof.
  intros Hb Hm Hq Ht. eexists. split; [by eapply hand_over_ok|].
  set (l := ThreadQueue.insert_after _ _ _).
  set (ks := readied l t th (set_k_queues (insert (q_mtx mp) q) k)).
  set (ths := set_t_state (fun _ => CH_STATE_READY) th).
  assert (Hl : l ≡ₚ t :: k_rlist k) by apply insert_after_perm.
  assert (Hts : k_threads ks !! t = Some ths) by apply lookup_insert_eq.
  assert (Hbs : mtx_but (Some mp) ks).
  { apply release_first; try done.
    apply insert_after_sorted; [apply (mk_sched _ Hb)|intros; zbool; lia..]. }
  split; [by apply (taken_ok mp m)|]. split; [|split; [|split; [|split; [|done]]]].
  - intros x. apply (owner_of_insert ks mp (Mutex (Some t) (t_mtxlist ths))).
  - intros x. transitivity (queue_of (set_k_queues (insert (q_mtx mp) q) k) (q_mtx x)); [done|].
    rewrite queue_of_insert. repeat case_decide; congruence.
  - intros x. unfold prio_of, taken, ks. cbn. destruct (decide (x = t)) as [->|Hx];
      [by rewrite lookup_insert_eq, Ht|by rewrite !lookup_insert_ne].
  - change (t ∈ l). rewrite Hl. by left.
Qed.

(** C9: unlocking a mutex hands it to the waiting thread of highest priority, which becomes
    ready and owns it at once, so that no third thread can take it.  The priority of the
    running thread drops to the highest still inherited, or to its own. *)
Theorem unlock_waited_ok mp m k th t q : mtx_ok k -> k_mtxs k !! mp = Some m ->
  k_threads k !! k_current k = Some th -> t_mtxlist th = Some mp -> mqueue k mp = t :: q ->
  NOPRIO < t_realprio th ->
  exists k' ls, unlock_mtx mp k = Some (true, k') /\ mtx_ok k' /\
    owner_of k' mp = Some t /\ (forall x, x <> mp -> owner_of k' x = owner_of k x) /\
    mqueue k' mp = q /\ t ∈ k_rlist k' /\ (forall x, x ∈ q -> prio_of k x <= prio_of k t) /\
    k_current k' = k_current k /\
    (forall x, x ∈ ls <-> owner_of k x = Some (k_current k) /\ x <> mp) /\
    prio_of k' (k_current k) = highest k (t_realprio th) ls /\
    (forall x, x <> k_current k -> prio_of k' x = prio_of k x).
Proof.
  intros [Hb Hi] Hm Ht Hml Hq Hpos.
  destruct (drop_first mp m k th Hb Hm Ht Hml) as (Hb1 & ls & Hc & Hn & Hown & Hls).
  set (c := k_current k) in *. set (th1 := set_t_mtxlist (fun _ => m_next m) th) in *.
  set (k1 := set_k_threads (insert c th1) k) in *.
  destruct (highest_ge k ls (t_realprio th)) as [Hp1 Hp2]. set (p := highest k _ ls) in *.
  assert (Ht1 : k_threads k1 !! c = Some th1) by apply lookup_insert_eq.
  assert (Hpk1 : forall x, prio_of k1 x = prio_of k x) by (intros; by apply (prio_of_insert k c th)).
  pose proof (reprio_running (Some mp) k1 th1 p Hb1 Ht1 ltac:(lia)) as Hb2.
  change (k_current k1) with c in Hb2. set (k2 := prio_set c p th1 k1) in *.
  assert (Hw : wview k c = None) by (apply wview_running; [apply Hb|by left]).
  assert (Hnc : forall mp' x, x ∈ mqueue k mp' -> x <> c)
    by (intros mp' x Hx%(mk_queue _ Hb) ->; congruence).
  assert (Htq : t ∈ mqueue k mp) by (rewrite Hq; by left).
  assert (exists tht, k_threads k !! t = Some tht) as [tht Htt].
  { apply (mk_queue _ Hb) in Htq. unfold wview in Htq. destruct (k_threads k !! t); [eauto|done]. }
  assert (Ht2 : k_threads k2 !! t = Some tht).
  { unfold k2, prio_set. cbn. pose proof (Hnc _ _ Htq). by rewrite !lookup_insert_ne. }
  destruct (handed_over mp k2 m t q tht Hb2 Hm Hq Ht2) as (k' & Eh & Hbk & Ho & Hqk & Hp & Hr & Hcur).
  assert (Hpk : forall x, prio_of k' x = if decide (x = c) then p else prio_of k x).
  { intros x. rewrite Hp. unfold k2. rewrite prio_of_set. by case_decide. }
  assert (Htop : forall x, x ∈ q -> prio_of k x <= prio_of k t).
  { pose proof (mk_sorted _ Hb mp) as Hs. rewrite Hq in Hs. intros x. by apply (sorted_head _ _ _ Hs). }
  exists k', ls. split; [|split; [constructor; [done|]|]].
  - unfold unlock_mtx, currp, mtx, set_mtxlist. msimpl.
    erewrite run_call by by apply (on_thd_run _ _ _ th). fold c th1 k1.
    unfold chMtxQueueNotEmptyS, queue_notempty. msimpl. change (mqueue k1 mp) with (mqueue k mp).
    rewrite Hq. rewrite bool_decide_eq_true_2 by done. unfold thd.
    erewrite run_deref by exact Ht1. msimpl.
    erewrite run_call by (apply (max_waiting_run k1 ls); [exact Hc|by eapply chain_length]).
    rewrite (highest_ext k k1) by done. fold p.
    erewrite run_call by by apply (on_thd_run c _ k1 th1).
    by erewrite run_call by apply Eh.
  - intros mp' x. rewrite Hqk, Ho. case_decide as Hmp.
    + intros Hx. exists t. split; [done|]. rewrite !Hpk.
      rewrite !decide_False by (apply (Hnc mp); rewrite Hq; by (left || right)). by apply Htop.
    + intros Hx. destruct (Hi mp' x Hx) as (o & Hoo & Hle). exists o. split; [done|].
      rewrite !Hpk. rewrite (decide_False (P := x = c)) by by apply (Hnc mp').
      case_decide as Hoc; [subst o|done].
      assert (Hin : mp' ∈ ls) by by apply Hls.
      pose proof (mk_sorted _ Hb mp') as Hs. change (x ∈ mqueue k mp') in Hx.
      destruct (mqueue k mp') as [|y r] eqn:Ey; [by apply elem_of_nil in Hx|].
      pose proof (Hp2 mp' y r Hin Ey). apply elem_of_cons in Hx as [->|Hx]; [done|].
      pose proof (sorted_head _ _ _ Hs _ Hx). lia.
  - rewrite Ho, Hqk, Hpk, !decide_True by done. split; [done|].
    split; [intros x Hx; by rewrite Ho, decide_False|]. do 6 (split; [done|]).
    intros x Hx. by rewrite Hpk, decide_False.
Qed.

End ChMtx.
