(* ===== verification/ChHeap.v ===== *)
(** * Memory: [chmemcore.c] and [chheap.c] of os/common/oslib

    The memory the allocators manage is a map from addresses to 32-bit words: a block has
    a header of two words, which are [next] and [pages] while it is free and [heap] and
    [size] while it is used.  The free list of a heap is compared with lists of blocks:
    first fit, splitting, and coalescing of neighbours when a block is freed. *)

From S2P Require Import Prelude CLib Prog ThreadQueue Kernel ChSchd ChMtx.

(** [memcore_t] *)
Record memcore_t := MemCore { nextmem : Z; endmem : Z }.

(** The memory, and [ch_memcore]. *)
Record memory := Memory { words : gmap Z Z; ch_memcore : memcore_t }.

Module ChHeap.

(** ** [chalign.h] *)

Definition MEM_ALIGN_MASK (a : Z) : Z := u32 (a - 1).
Definition MEM_ALIGN_PREV (p a : Z) : Z := Z.ldiff p (MEM_ALIGN_MASK a).
Definition MEM_ALIGN_NEXT (p a : Z) : Z := MEM_ALIGN_PREV (u32 (p + MEM_ALIGN_MASK a)) a.

(** ** The core allocator *)

Definition _core_init (heap_base heap_end : Z) : M memory unit :=
  modify (fun m => Memory (words m) (MemCore heap_base heap_end)).

(** [NULL] is [None]. *)
Definition chCoreAllocAlignedWithOffsetI (size align offset : Z) : M memory (option Z) :=
  c ← gets ch_memcore;
  let size := MEM_ALIGN_NEXT size align in
  let p := MEM_ALIGN_NEXT (u32 (nextmem c + offset)) align in
  let next := u32 (p + size) in
  if (endmem c <? next) || (next <? nextmem c) then mret None
  else modify (fun m => Memory (words m) (MemCore next (endmem c)));; mret (Some p).

(** [sizeof (void * )] *)
Definition PORT_NATURAL_ALIGN : Z := 4.
Definition chCoreAllocAlignedI (size align : Z) : M memory (option Z) := chCoreAllocAlignedWithOffsetI size align 0.
Definition chCoreAllocI (size : Z) : M memory (option Z) := chCoreAllocAlignedWithOffsetI size PORT_NATURAL_ALIGN 0.

Definition chCoreGetStatusX : M memory Z := c ← gets ch_memcore; mret (u32 (endmem c - nextmem c)).

(** ** Headers *)

Definition CH_HEAP_ALIGNMENT : Z := 8.

Definition load (p : Z) : M memory Z := deref (fun m => words m !! p).
Definition set (p v : Z) : M memory unit :=
  modify (fun m => Memory (<[p := v]> (words m)) (ch_memcore m)).

Definition H_BLOCK (hp : Z) : Z := u32 (hp + 8).
Definition H_NEXT (hp : Z) : M memory Z := load hp.
Definition H_PAGES (hp : Z) : M memory Z := load (hp + 4).
Definition H_HEAP (hp : Z) : M memory Z := load hp.
Definition H_SIZE (hp : Z) : M memory Z := load (hp + 4).
Definition H_LIMIT (hp : Z) : M memory Z := n ← H_PAGES hp; mret (u32 (H_BLOCK hp + 8 * n)).
Definition NPAGES (p1 p2 : Z) : Z := u32 ((p1 - p2) / 8).

(** [memory_heap_t]: the provider is its first word ([NULL] or not), then its header. *)
Definition header (heapp : Z) : Z := heapp + 4.

Definition pages_of (size : Z) : Z := MEM_ALIGN_NEXT size CH_HEAP_ALIGNMENT / CH_HEAP_ALIGNMENT.

(** [provider] is the address of the function. *)
Definition heap_init (heapp provider : Z) : M memory unit :=
  set heapp provider;; set (header heapp) 0;; set (header heapp + 4) 0.

Definition object_init (heapp buf size : Z) : M memory unit :=
  let hp := MEM_ALIGN_NEXT buf CH_HEAP_ALIGNMENT in
  let size := u32 (size - (hp - buf)) in
  set heapp 0;;
  set (header heapp) hp;; set (header heapp + 4) 0;;
  set hp 0;; set (hp + 4) (u32 (size - 8) / CH_HEAP_ALIGNMENT).

(** ** Allocation *)

(** The block [hp] behind [qp] is large enough for [pages] at [ahp + 1]: the header of the
    block that is used, after the rest has been split off. *)
Definition split_block (qp hp ahp pages : Z) : M memory Z :=
  if hp <? ahp then
    lim ← H_LIMIT hp;
    let bpages := NPAGES lim (H_BLOCK ahp) in
    set (hp + 4) (NPAGES ahp (H_BLOCK hp));;
    (if pages <? bpages then
       let fp := u32 (H_BLOCK ahp + 8 * pages) in
       set (fp + 4) (u32 (bpages - pages - 1));;
       n ← H_NEXT hp;
       set fp n;;
       set hp fp
     else mret tt);;
    mret ahp
  else
    k ← H_PAGES hp;
    (if k =? pages then n ← H_NEXT hp; set qp n
     else
       let fp := u32 (H_BLOCK hp + 8 * pages) in
       n ← H_NEXT hp;
       set fp n;;
       lim ← H_LIMIT hp;
       set (fp + 4) (NPAGES lim (H_BLOCK fp));;
       set qp fp);;
    mret hp.

Fixpoint alloc_search (fuel : nat) (qp pages align : Z) : M memory (option Z) :=
  hp ← H_NEXT qp;
  if hp =? 0 then mret None
  else
    match fuel with
    | O => undefined
    | S fuel =>
        let ahp := u32 (MEM_ALIGN_NEXT (H_BLOCK hp) align - 8) in
        lim ← H_LIMIT hp;
        if (ahp <? lim) && (pages <=? NPAGES lim (u32 (ahp + 8))) then
          hp ← split_block qp hp ahp pages; mret (Some hp)
        else alloc_search fuel hp pages align
    end.

(** The part of [chHeapAllocAligned] under the mutex.  The list is not longer than the
    memory. *)
Definition heap_alloc (heapp size align : Z) : M memory (option Z) :=
  n ← gets (fun m => base.size (words m));
  r ← alloc_search n (header heapp) (pages_of size) align;
  match r with
  | Some hp => set (hp + 4) size;; set hp heapp;; mret (Some (H_BLOCK hp))
  | None => mret None
  end.

(** ** Freeing *)

(** [hp] takes over [n] behind it when they are adjacent. *)
Definition merge_with (hp n : Z) : M memory unit :=
  lim ← H_LIMIT hp;
  if lim =? n then
    a ← H_PAGES hp; b ← H_PAGES n;
    set (hp + 4) (u32 (a + u32 (b + 1)));;
    nn ← H_NEXT n;
    set hp nn
  else mret tt.

(** Insertion of [hp] behind [qp]. *)
Definition insert_block (qp hp : Z) : M memory unit :=
  n ← H_NEXT qp;
  set hp n;;
  set qp hp;;
  n ← H_NEXT hp;
  merge_with hp n;;
  merge_with qp hp.

Fixpoint free_loop (fuel : nat) (hdr qp hp : Z) : M memory unit :=
  n ← H_NEXT qp;
  if ((qp =? hdr) || (qp <? hp)) && ((n =? 0) || (hp <? n)) then insert_block qp hp
  else
    match fuel with
    | O => undefined
    | S fuel => free_loop fuel hdr n hp
    end.

(** [hp] is inserted, from the header of its heap on. *)
Definition heap_insert (heapp hp : Z) : M memory unit :=
  n ← gets (fun m => base.size (words m));
  free_loop n (header heapp) (header heapp) hp.

(** [H_PAGES(hp) = ...] *)
Definition size_to_pages (hp : Z) : M memory Z :=
  heapp ← H_HEAP hp;
  size ← H_SIZE hp;
  set (hp + 4) (pages_of size);;
  mret heapp.

(** The number of blocks, the pages in all and in the largest. *)
Fixpoint status_loop (fuel : nat) (qp n tpages lpages : Z) : M memory (Z * Z * Z) :=
  nx ← H_NEXT qp;
  if nx =? 0 then mret (n, tpages, lpages)
  else
    match fuel with
    | O => undefined
    | S fuel =>
        pages ← H_PAGES nx;
        status_loop fuel nx (u32 (n + 1)) (u32 (tpages + pages)) (if lpages <? pages then pages else lpages)
    end.
Definition heap_status (heapp : Z) : M memory (Z * Z * Z) :=
  k ← gets (fun m => base.size (words m));
  '(n, t, l) ← status_loop k (header heapp) 0 0 0;
  mret (n, u32 (t * CH_HEAP_ALIGNMENT), u32 (l * CH_HEAP_ALIGNMENT)).

(** ** The calls *)

Section heap.
Context {S : Type} `{!Component S ch_system, !Component S memory}.
(** The mutex of a heap; the address of [default_heap], which [NULL] stands for. *)
Context (mtx_of : Z -> nat) (default_heap : Z).

Definition the_heap (heapp : Z) : Z := if heapp =? 0 then default_heap else heapp.

Definition H_LOCK (heapp : Z) : prog S unit := lift (ChMtx.chMtxLock (mtx_of heapp)).
Definition H_UNLOCK (heapp : Z) : prog S unit := lift (ChMtx.chMtxUnlock (mtx_of heapp)).

Definition chCoreAllocAlignedWithOffset (size align offset : Z) : prog S (option Z) :=
  locked (Atom (liftM (chCoreAllocAlignedWithOffsetI size align offset))).
Definition chCoreAllocAligned (size align : Z) : prog S (option Z) :=
  locked (Atom (liftM (chCoreAllocAlignedWithOffsetI size align 0))).
Definition chCoreAlloc (size : Z) : prog S (option Z) := chCoreAllocAlignedWithOffset size PORT_NATURAL_ALIGN 0.

Definition _heap_init (provider : Z) : M S unit :=
  liftM (heap_init default_heap provider);; liftM (ChMtx.chMtxObjectInit (mtx_of default_heap)).
Definition chHeapObjectInit (heapp buf size : Z) : M S unit :=
  liftM (object_init heapp buf size);; liftM (ChMtx.chMtxObjectInit (mtx_of heapp)).

Definition chHeapAllocAligned (heapp size align : Z) : prog S (option Z) :=
  let heapp := the_heap heapp in
  let align := if align <? CH_HEAP_ALIGNMENT then CH_HEAP_ALIGNMENT else align in
  H_LOCK heapp;;
  r ← Atom (liftM (heap_alloc heapp size align));
  H_UNLOCK heapp;;
  match r with
  | Some p => mret (Some p)
  | None =>
      provider ← Atom (liftM (load heapp));
      if provider =? 0 then mret None
      else
        r ← chCoreAllocAlignedWithOffset (u32 (pages_of size * CH_HEAP_ALIGNMENT)) align 8;
        match r with
        | Some ahp =>
            Atom (liftM (set (ahp - 8) heapp;; set (ahp - 8 + 4) size));;
            mret (Some ahp)
        | None => mret None
        end
  end.

Definition chHeapAlloc (heapp size : Z) : prog S (option Z) := chHeapAllocAligned heapp size CH_HEAP_ALIGNMENT.

Definition chHeapFree (p : Z) : prog S unit :=
  let hp := p - 8 in
  heapp ← Atom (liftM (size_to_pages hp));
  H_LOCK heapp;;
  Atom (liftM (heap_insert heapp hp));;
  H_UNLOCK heapp.

Definition chHeapGetSize (p : Z) : M S Z := liftM (H_SIZE (p - 8)).

Definition chHeapStatus (heapp : Z) : prog S (Z * Z * Z) :=
  let heapp := the_heap heapp in
  H_LOCK heapp;;
  r ← Atom (liftM (heap_status heapp));
  H_UNLOCK heapp;;
  mret r.
End heap.

(** ** Free lists as lists of blocks *)

(** A block: the address of its header, its pages. *)
Definition limit (b : Z * Z) : Z := fst b + 8 + 8 * snd b.

(** In order of addresses between [lo] and [hi], and no two adjacent. *)
Fixpoint spaced (lo hi : Z) (l : list (Z * Z)) : Prop :=
  match l with
  | [] => lo <= hi
  | b :: l => lo < fst b /\ (8 | fst b) /\ 0 <= snd b /\ spaced (limit b) hi l
  end.

(** The address is in a block. *)
Definition covers (l : list (Z * Z)) (x : Z) : Prop := exists b, b ∈ l /\ fst b <= x < limit b.

(** The header of a block of [pages] aligned pages in [b]. *)
Definition fit (b : Z * Z) (pages align : Z) : option Z :=
  let ahp := MEM_ALIGN_NEXT (fst b + 8) align - 8 in
  if (ahp <? limit b) && (pages <=? (limit b - (ahp + 8)) / 8) then Some ahp else None.

(** What is left of [b]. *)
Definition carve (b : Z * Z) (ahp pages : Z) : list (Z * Z) :=
  let rest := (limit b - (ahp + 8)) / 8 in
  (if fst b <? ahp then [(fst b, (ahp - (fst b + 8)) / 8)] else []) ++
  (if pages <? rest then [(ahp + 8 + 8 * pages, rest - pages - 1)] else []).

(** First fit. *)
Fixpoint alloc_list (pages align : Z) (l : list (Z * Z)) : option (Z * list (Z * Z)) :=
  match l with
  | [] => None
  | b :: l =>
      match fit b pages align with
      | Some ahp => Some (ahp, carve b ahp pages ++ l)
      | None => '(p, l') ← alloc_list pages align l; Some (p, b :: l')
      end
  end.

(** [b] in front of [l], merged with its head when they are adjacent. *)
Definition join (b : Z * Z) (l : list (Z * Z)) : list (Z * Z) :=
  match l with
  | c :: l' => if limit b =? fst c then (fst b, snd b + (snd c + 1)) :: l' else b :: l
  | [] => [b]
  end.

Fixpoint free_list (b : Z * Z) (l : list (Z * Z)) : list (Z * Z) :=
  match l with
  | [] => [b]
  | c :: l' =>
      if fst b <? fst c then join b l
      else match l' with
           | [] => join c [b]
           | d :: _ => if fst b <? fst d then join c (join b l') else c :: free_list b l'
           end
  end.

Definition upd (p v : Z) (m : memory) : memory := Memory (<[p := v]> (words m)) (ch_memcore m).

Lemma set_run {A} p v (k' : unit -> M memory A) m : (set p v ≫= k') m = k' tt (upd p v m).
Proof. reflexivity. Qed.
Lemma load_run {A} p v (k' : Z -> M memory A) m : words m !! p = Some v -> (load p ≫= k') m = k' v m.
Proof. intros E. unfold load. by rewrite (run_deref _ _ _ v). Qed.
Lemma upd_same p v m : words (upd p v m) !! p = Some v.
Proof. apply lookup_insert_eq. Qed.
Lemma upd_other p v x m : x <> p -> words (upd p v m) !! x = words m !! x.
Proof. intros. by apply lookup_insert_ne. Qed.

(** Look through the writes. *)
Ltac updates := repeat first [rewrite upd_same | rewrite upd_other by lia].

Section lists.
Context (hi align : Z).
(** The blocks end where aligning an address does not overflow. *)
Context (k : Z) (Halign : align = 2 ^ k) (Hk : 3 <= k <= 31) (Hhi : hi + align <= 2 ^ 32).

Lemma spaced_le lo l : spaced lo hi l -> lo <= hi.
Proof.
  revert lo. induction l as [|b l IH]; intros lo; simpl; [done|].
  intros (? & _ & ? & ?%IH). unfold limit in *. lia.
Qed.
Lemma spaced_weaken lo lo' l : lo' <= lo -> spaced lo hi l -> spaced lo' hi l.
Proof. destruct l; simpl; intuition lia. Qed.

(** Aligning an address below [hi]. *)
Lemma align_next p : 0 <= p <= hi ->
  let q := MEM_ALIGN_NEXT p align in (align | q) /\ p <= q < p + align.
Proof.
  intros Hp. assert (Ha : 0 < align) by (subst align; lia).
  assert (Hm : MEM_ALIGN_MASK align = Z.ones k).
  { unfold MEM_ALIGN_MASK. rewrite Z.ones_equiv, <- Halign, u32_id by lia. lia. }
  unfold MEM_ALIGN_NEXT, MEM_ALIGN_PREV. rewrite Hm. rewrite Z.ldiff_ones_r by lia.
  rewrite Z.ones_equiv, <- Halign. rewrite u32_id by lia.
  rewrite Z.shiftl_mul_pow2, Z.shiftr_div_pow2, <- Halign by lia.
  split; [apply Z.divide_factor_r|].
  pose proof (Z.div_mod (p + Z.pred align) align). pose proof (Z.mod_pos_bound (p + Z.pred align) align). lia.
Qed.

Lemma align_8 q : (align | q) -> (8 | q).
Proof.
  intros H. etransitivity; [|exact H]. exists (2 ^ (k - 3)). subst align.
  change 8 with (2 ^ 3). rewrite <- Z.pow_add_r by lia. f_equal. lia.
Qed.
(** The block found starts [j] pages into [b] and is in it. *)
Lemma fit_inv lo l b pages ahp : 0 <= lo -> spaced lo hi (b :: l) -> fit b pages align = Some ahp ->
  exists j, 0 <= j /\ ahp = fst b + 8 * j /\ pages <= snd b - j /\ (align | ahp + 8) /\
    fst b + 8 * j + 8 + 8 * (snd b - j) = limit b /\ (ahp + 8 < limit b \/ j <= snd b).
Proof.
  intros Hlo (Hb & [u Hu] & Hn & Hs%spaced_le) Hf. unfold limit in Hs.
  unfold fit in Hf. destruct (align_next (fst b + 8) ltac:(lia)) as [Hd Hr].
  set (q := MEM_ALIGN_NEXT (fst b + 8) align) in *.
  destruct (_ && _) eqn:E in Hf; [|done]. injection Hf as <-.
  apply andb_true_iff in E as [E1%Z.ltb_lt E2%Z.leb_le]. unfold limit in *.
  destruct (align_8 q Hd) as [v Hv]. exists (v - u - 1).
  assert (E : (fst b + 8 + 8 * snd b - (q - 8 + 8)) / 8 = snd b - (v - u - 1)).
  { replace (fst b + 8 + 8 * snd b - (q - 8 + 8)) with ((snd b - (v - u - 1)) * 8) by lia. apply Z.div_mul. lia. }
  split_and!; try lia. by replace (q - 8 + 8) with q by lia.
Qed.

Lemma carve_eq b j pages : carve b (fst b + 8 * j) pages =
  (if 0 <? j then [(fst b, j - 1)] else []) ++
  (if pages <? snd b - j then [(fst b + 8 * j + 8 + 8 * pages, snd b - j - pages - 1)] else []).
Proof.
  unfold carve, limit.
  replace (fst b + 8 + 8 * snd b - (fst b + 8 * j + 8)) with ((snd b - j) * 8) by lia.
  replace (fst b + 8 * j - (fst b + 8)) with ((j - 1) * 8) by lia. rewrite !Z.div_mul by lia.
  replace (fst b <? fst b + 8 * j) with (0 <? j); [done|].
  destruct (Z.ltb_spec 0 j), (Z.ltb_spec (fst b) (fst b + 8 * j)); lia || done.
Qed.

Lemma covers_cons b l x : covers (b :: l) x <-> fst b <= x < limit b \/ covers l x.
Proof.
  unfold covers. split.
  - intros (c & [->|H]%elem_of_cons & Hc); eauto.
  - intros [H|(c & H & Hc)]; [exists b|exists c]; (split; [rewrite elem_of_cons; auto|done]).
Qed.
Lemma covers_nil x : covers [] x <-> False.
Proof. split; [intros (b & H%elem_of_nil & _)|]; done. Qed.
Lemma covers_app l1 l2 x : covers (l1 ++ l2) x <-> covers l1 x \/ covers l2 x.
Proof. induction l1 as [|b l1 IH]; simpl; rewrite ?covers_nil, ?covers_cons; tauto. Qed.
Lemma spaced_in lo l c : spaced lo hi l -> c ∈ l -> lo < fst c /\ limit c <= hi /\ 0 <= snd c.
Proof.
  revert lo. induction l as [|b l IH]; intros lo; [by intros _ ?%elem_of_nil|].
  intros (H1 & _ & H2 & H3) [->|Hc]%elem_of_cons; [by apply spaced_le in H3|].
  destruct (IH _ H3 Hc) as (? & ? & ?). unfold limit in *. lia.
Qed.
Lemma covers_range lo l x : spaced lo hi l -> covers l x -> lo < x < hi.
Proof.
  revert lo. induction l as [|b l IH]; intros lo; [by rewrite covers_nil|]. rewrite covers_cons.
  intros (H1 & _ & H2 & H3). pose proof (spaced_le _ _ H3) as Hle. unfold limit in *.
  intros [?|Hc]; [lia|]. specialize (IH _ H3 Hc). lia.
Qed.

(** Splitting a block keeps the order, and what is covered but for the block taken. *)
Lemma carve_ok lo l b pages ahp : 0 <= lo -> 0 <= pages -> spaced lo hi (b :: l) ->
  fit b pages align = Some ahp ->
  spaced lo hi (carve b ahp pages ++ l) /\
  forall x, fst b <= x < limit b <->
    ahp <= x < limit (ahp, pages) \/ covers (carve b ahp pages) x.
Proof.
  intros Hlo Hp Hs Hf. destruct (fit_inv _ _ _ _ _ Hlo Hs Hf) as (j & Hj & -> & Hr & _ & El & Hn).
  destruct Hs as (Hb & Hd & Hn' & Hs). rewrite carve_eq. unfold limit in *. cbn [fst snd].
  assert (Hd' : (8 | fst b + 8 * j + 8 + 8 * pages)).
  { destruct Hd as [u ->]. exists (u + j + 1 + pages). lia. }
  destruct (Z.ltb_spec 0 j), (Z.ltb_spec pages (snd b - j)); cbn [app spaced fst snd]; unfold limit; cbn [fst snd];
    (split; [try split_and!; try done; try lia; eapply spaced_weaken, Hs; lia|]);
    intros x; rewrite ?covers_cons, ?covers_nil; unfold limit; cbn [fst snd]; lia.
Qed.

(** Allocation takes the block from what is covered, aligned. *)
Lemma alloc_ok pages : 0 <= pages -> forall l lo p l', 0 <= lo -> spaced lo hi l ->
  alloc_list pages align l = Some (p, l') ->
  spaced lo hi l' /\ lo < p /\ limit (p, pages) <= hi /\ (align | p + 8) /\ (8 | p) /\
  forall x, covers l x <-> p <= x < limit (p, pages) \/ covers l' x.
Proof.
  intros Hp. induction l as [|b l IH]; intros lo p l' Hlo Hs H; [done|]. cbn in H.
  destruct (fit b pages align) as [ahp|] eqn:Ef.
  - injection H as <- <-. destruct (carve_ok _ _ _ _ _ Hlo Hp Hs Ef) as [H1 H2]. split; [done|].
    destruct (fit_inv _ _ _ _ _ Hlo Hs Ef) as (j & Hj & -> & Hr & Ha & El & _).
    destruct Hs as (Hb & [u Hu] & Hn' & Hs). pose proof (spaced_le _ _ Hs). unfold limit in *. cbn [fst snd] in *.
    split_and!; [lia|lia|done|exists (u + j); lia|].
    intros x. rewrite covers_cons, covers_app. unfold limit. rewrite H2. tauto.
  - destruct (alloc_list pages align l) as [[p1 l1]|] eqn:E; [|done]. injection H as <- <-.
    destruct Hs as (Hb & Hd & Hn & Hs). assert (0 <= limit b) by (unfold limit; lia).
    destruct (IH _ _ _ H Hs eq_refl) as (H1 & H2 & H3 & H4 & H5 & H6). split_and!; try done.
    + unfold limit in *. lia.
    + intros x. rewrite !covers_cons, H6. tauto.
Qed.

(** The block taken is apart from what is left. *)
Lemma alloc_apart pages : 0 <= pages -> forall l lo p l', 0 <= lo -> spaced lo hi l ->
  alloc_list pages align l = Some (p, l') ->
  Forall (fun c => limit c <= p \/ limit (p, pages) <= fst c) l'.
Proof.
  intros Hp. induction l as [|b l IH]; intros lo p l' Hlo Hs H; [done|]. cbn in H.
  destruct (fit b pages align) as [ahp|] eqn:Ef.
  - injection H as <- <-. destruct (fit_inv _ _ _ _ _ Hlo Hs Ef) as (j & Hj & -> & Hr & Ha & El & _).
    destruct Hs as (Hb & _ & Hn' & Hs). rewrite carve_eq. unfold limit in *. cbn [fst snd] in *.
    apply Forall_app. split.
    + destruct (0 <? j), (Z.ltb_spec pages (snd b - j)); cbn [app]; repeat constructor; cbn; lia.
    + apply Forall_forall. intros c Hc. right. destruct (spaced_in _ _ _ Hs Hc). unfold limit in *. lia.
  - destruct (alloc_list pages align l) as [[p1 l1]|] eqn:E; [|done]. injection H as <- <-.
    destruct Hs as (Hb & Hd & Hn & Hs). assert (Hl : 0 <= limit b) by (unfold limit; lia).
    constructor; [|by eapply IH]. destruct (alloc_ok pages Hp _ _ _ _ Hl Hs E) as (_ & ? & _). lia.
Qed.
(** Merging with the head. *)
Lemma join_ok lo b l : lo < fst b -> (8 | fst b) -> 0 <= snd b -> limit b <= hi ->
  spaced (limit b - 1) hi l ->
  spaced lo hi (join b l) /\ forall x, covers (join b l) x <-> fst b <= x < limit b \/ covers l x.
Proof.
  intros Hb Hd Hn Hh Hs. destruct l as [|c l]; cbn [join].
  - split; [by split_and!|]. intros x. by rewrite covers_cons.
  - destruct Hs as (Hc & Hdc & Hnc & Hs). destruct (Z.eqb_spec (limit b) (fst c)) as [E|E].
    + assert (El : limit (fst b, snd b + (snd c + 1)) = limit c) by (unfold limit in *; cbn [fst snd]; lia).
      split.
      * cbn [spaced]. rewrite El. cbn [fst snd]. split_and!; [done|done|lia|done].
      * intros x. rewrite !covers_cons, El. cbn [fst]. unfold limit in *. intuition lia.
    + split; [|intros x; by rewrite covers_cons]. cbn [spaced]. split_and!; try done. lia.
Qed.
Lemma join_spaced lo b l : spaced lo hi (b :: l) -> join b l = b :: l.
Proof.
  intros (_ & _ & _ & Hs). destruct l as [|c l]; [done|]. cbn. destruct Hs as (H & _).
  by destruct (Z.eqb_spec (limit b) (fst c)); [lia|].
Qed.
Lemma join_head b l : exists n l', join b l = (fst b, n) :: l'.
Proof. destruct l as [|c l]; cbn; [|destruct (_ =? _)]; destruct b; eauto. Qed.

Lemma free_list_behind b c l : fst c <= fst b -> free_list b (c :: l) =
  match l with
  | [] => join c (join b [])
  | d :: _ => if fst b <? fst d then join c (join b l) else c :: free_list b l
  end.
Proof. intros H. cbn [free_list]. destruct (Z.ltb_spec (fst b) (fst c)); [lia|]. by destruct l. Qed.
Lemma free_list_next b c l : fst c <= fst b -> exists n l', free_list b (c :: l) = (fst c, n) :: l'.
Proof.
  intros H. cbn [free_list]. destruct (Z.ltb_spec (fst b) (fst c)); [lia|].
  destruct l as [|d l]; [apply join_head|]. destruct (fst b <? fst d); [apply join_head|].
  destruct c as [c n]. by exists n, (free_list b (d :: l)).
Qed.

(** Freeing a block apart from the free ones keeps the order and adds the block. *)
Lemma free_ok b : (8 | fst b) -> 0 <= snd b -> limit b <= hi -> forall l lo, lo < fst b ->
  spaced lo hi l -> Forall (fun c => limit c <= fst b \/ limit b <= fst c) l ->
  spaced lo hi (free_list b l) /\
  forall x, covers (free_list b l) x <-> fst b <= x < limit b \/ covers l x.
Proof.
  intros Hd Hn Hh. induction l as [|c l IH]; intros lo Hlo Hs Hf.
  - split; [by split_and!|]. intros x. cbn [free_list]. by rewrite covers_cons.
  - destruct Hs as (Hc & Hdc & Hnc & Hs). apply Forall_cons in Hf as [Hbc Hf]. cbn [free_list].
    destruct (Z.ltb_spec (fst b) (fst c)) as [Hlt|Hge].
    { apply join_ok; try done. cbn [spaced]. split_and!; try done. unfold limit in *; lia. }
    assert (Hcb : limit c <= fst b) by (unfold limit in *; lia).
    pose proof (spaced_le _ _ Hs) as Hch.
    destruct l as [|d l]; [|destruct (Z.ltb_spec (fst b) (fst d)) as [Hbd|Hbd]].
    + assert (Hb1 : spaced (limit c - 1) hi [b]) by (split_and!; [lia|done..]).
      destruct (join_ok lo c [b] Hc Hdc Hnc Hch Hb1) as [H1 H2].
      split; [exact H1|]. intros x. cbn [free_list]. rewrite H2, !covers_cons, covers_nil. tauto.
    + apply Forall_cons in Hf as [Hd' Hf]. assert (Hbd' : spaced (limit b - 1) hi (d :: l)).
      { destruct Hs as (? & ? & ? & ?). split_and!; try done. unfold limit in *; lia. }
      destruct (join_ok (limit c - 1) b (d :: l) ltac:(lia) Hd Hn Hh Hbd') as [H1 H2].
      destruct (join_ok lo c (join b (d :: l)) Hc Hdc Hnc Hch H1) as [H3 H4].
      split; [exact H3|]. intros x. rewrite H4, H2, !covers_cons. tauto.
    + assert (Hlt : limit c < fst b).
      { destruct Hs as (? & _). unfold limit in *. lia. }
      destruct (IH _ Hlt Hs Hf) as [H1 H2]. split; [by split_and!|].
      intros x. rewrite (covers_cons c (free_list b (d :: l))), H2, (covers_cons c). tauto.
Qed.

(** The list is determined by what it covers: it is the only one without adjacent blocks. *)
Lemma covers_head lo b l x : spaced lo hi (b :: l) -> covers (b :: l) x -> fst b <= x.
Proof.
  intros (_ & _ & ? & Hs). rewrite covers_cons. intros [?|Hc]; [lia|].
  apply (covers_range _ _ _ Hs) in Hc. unfold limit in *. lia.
Qed.
Lemma covers_gap lo b l : spaced lo hi (b :: l) -> ~ covers (b :: l) (limit b).
Proof.
  intros (_ & _ & _ & Hs). rewrite covers_cons. intros [?|Hc]; [lia|].
  apply (covers_range _ _ _ Hs) in Hc. lia.
Qed.
Lemma covers_first lo b l x : spaced lo hi (b :: l) -> fst b <= x < limit b -> covers (b :: l) x.
Proof. intros _ H. rewrite covers_cons. by left. Qed.

Lemma head_le lo b1 l1 b2 l2 : spaced lo hi (b1 :: l1) -> spaced lo hi (b2 :: l2) ->
  (forall x, covers (b1 :: l1) x -> covers (b2 :: l2) x) -> fst b2 <= fst b1.
Proof.
  intros H1 H2 Hc. eapply (covers_head lo), Hc, (covers_first lo); [done|done|].
  destruct H1 as (_ & _ & ? & _). unfold limit. lia.
Qed.
Lemma limit_le lo b1 l1 b2 l2 : spaced lo hi (b1 :: l1) -> spaced lo hi (b2 :: l2) ->
  fst b1 = fst b2 -> (forall x, covers (b1 :: l1) x -> covers (b2 :: l2) x) -> limit b1 <= limit b2.
Proof.
  intros H1 H2 E Hc. destruct (Z.le_gt_cases (limit b1) (limit b2)) as [|Hgt]; [done|exfalso].
  apply (covers_gap lo b2 l2 H2), Hc, (covers_first lo); [done|].
  destruct H2 as (_ & _ & ? & _). unfold limit in *. lia.
Qed.

Lemma spaced_unique l1 : forall lo l2, spaced lo hi l1 -> spaced lo hi l2 ->
  (forall x, covers l1 x <-> covers l2 x) -> l1 = l2.
Proof.
  induction l1 as [|b1 l1 IH]; intros lo [|b2 l2] H1 H2 Hc; [done|..].
  - destruct (proj2 (Hc (fst b2))) as (? & ?%elem_of_nil & _); [|done].
    apply (covers_first lo); [done|]. destruct H2 as (_ & _ & ? & _). unfold limit. lia.
  - destruct (proj1 (Hc (fst b1))) as (? & ?%elem_of_nil & _); [|done].
    apply (covers_first lo); [done|]. destruct H1 as (_ & _ & ? & _). unfold limit. lia.
  - assert (E : fst b1 = fst b2).
    { apply Z.le_antisymm; eapply (head_le lo); try done; intros x; apply Hc. }
    assert (El : limit b1 = limit b2).
    { apply Z.le_antisymm; eapply (limit_le lo); try done; intros x; apply Hc. }
    assert (Hb : b1 = b2).
    { destruct b1, b2. unfold limit in El. cbn [fst snd] in *. f_equal; lia. }
    subst b2. f_equal. destruct H1 as (_ & _ & Hn & H1), H2 as (_ & _ & _ & H2). eapply IH; [done..|].
    intros x. specialize (Hc x). rewrite !covers_cons in Hc. split; intros Hx.
    + destruct (covers_range _ _ _ H1 Hx). destruct (proj1 Hc) as [?|?]; [by right|lia|done].
    + destruct (covers_range _ _ _ H2 Hx). destruct (proj2 Hc) as [?|?]; [by right|lia|done].
Qed.

(** Freeing what was allocated gives the list back. *)
Lemma free_alloc pages l lo p l' : 0 <= pages -> 0 <= lo -> spaced lo hi l ->
  alloc_list pages align l = Some (p, l') -> free_list (p, pages) l' = l.
Proof.
  intros Hp Hlo Hs H. pose proof (alloc_apart _ Hp _ _ _ _ Hlo Hs H) as Hf.
  destruct (alloc_ok _ Hp _ _ _ _ Hlo Hs H) as (Hs' & Hlp & Hlim & _ & Hd & Hc).
  destruct (free_ok (p, pages) Hd Hp Hlim _ _ Hlp Hs' Hf) as [H1 H2].
  apply (spaced_unique _ lo); [done..|]. intros x. rewrite H2, Hc. cbn. tauto.
Qed.

(** ** The pointer code implements the lists *)

(** [qp] is the header or the block in front of [l]. *)
Fixpoint chain (w : gmap Z Z) (qp : Z) (l : list (Z * Z)) : Prop :=
  match l with
  | [] => w !! qp = Some 0
  | b :: l => w !! qp = Some (fst b) /\ w !! (fst b + 4) = Some (snd b) /\ chain w (fst b) l
  end.

Lemma chain_frame w w' l : forall lo qp qp', spaced lo hi l -> chain w qp l ->
  w' !! qp' = w !! qp -> (forall x, covers l x -> w' !! x = w !! x) -> chain w' qp' l.
Proof.
  induction l as [|b l IH]; intros lo qp qp' Hs Hch Hq Hw; cbn [chain] in *; [by rewrite Hq|].
  destruct Hs as (_ & _ & Hn & Hs), Hch as (H1 & H2 & H3).
  assert (Hcov : forall x, fst b <= x < limit b -> w' !! x = w !! x)
    by (intros; apply Hw; rewrite covers_cons; by left).
  unfold limit in Hcov. rewrite Hq, Hcov by lia. split_and!; [done..|].
  eapply IH; [done..|rewrite Hcov by lia; done|]. intros x Hx. apply Hw. rewrite covers_cons. by right.
Qed.
Lemma chain_next w l qp : chain w qp l -> exists n, w !! qp = Some n.
Proof. destruct l; [eauto|intros [? _]; eauto]. Qed.

(** The block at the head, read. *)
Section head.
Context (lo : Z) (b : Z * Z) (l : list (Z * Z)) (Hlo : 0 <= lo) (Hs : spaced lo hi (b :: l)).

Lemma head_range : 0 < fst b /\ 0 <= snd b /\ limit b <= hi /\ fst b + 8 <= limit b /\ hi < 2 ^ 32 /\ (8 | fst b).
Proof.
  destruct Hs as (H1 & H2 & H3 & H4%spaced_le). unfold limit in *.
  assert (0 < align) by (subst align; lia). split_and!; try done; lia.
Qed.
Lemma block_head : H_BLOCK (fst b) = fst b + 8.
Proof. destruct head_range as (? & ? & ? & ? & ? & _). unfold H_BLOCK. apply u32_id. lia. Qed.
Lemma limit_head {A} (k' : Z -> M memory A) m : words m !! (fst b + 4) = Some (snd b) ->
  (H_LIMIT (fst b) ≫= k') m = k' (limit b) m.
Proof.
  intros E. unfold H_LIMIT, H_PAGES. rewrite run_assoc, (load_run _ _ _ _ E), run_ret, block_head.
  destruct head_range as (? & ? & ? & ? & ? & _). unfold limit in *. by rewrite u32_id by lia.
Qed.

(** The test of the loop. *)
Lemma fit_head pages : let ahp := u32 (MEM_ALIGN_NEXT (fst b + 8) align - 8) in
  fit b pages align =
    if (ahp <? limit b) && (pages <=? NPAGES (limit b) (u32 (ahp + 8))) then Some ahp else None.
Proof.
  destruct head_range as (? & ? & ? & ? & ? & Hd).
  destruct (align_next (fst b + 8) ltac:(lia)) as [Hq Hr]. apply align_8 in Hq.
  unfold fit. set (q := MEM_ALIGN_NEXT (fst b + 8) align) in *. cbn zeta.
  rewrite (u32_id (q - 8)) by lia. replace (q - 8 + 8) with q by lia. rewrite (u32_id q) by lia.
  destruct (Z.ltb_spec (q - 8) (limit b)) as [Hlt|]; [|done]. cbn [andb]. unfold NPAGES.
  rewrite u32_id; [done|]. destruct Hq as [u ->], Hd as [v Hv]. unfold limit in *. rewrite Hv in *.
  split; [apply Z.div_pos; lia|]. apply Z.div_lt_upper_bound; lia.
Qed.
End head.

Lemma split_block_ok lo b l qp pages ahp m : 0 <= lo -> spaced lo hi (b :: l) -> 0 <= pages ->
  fit b pages align = Some ahp -> chain (words m) qp (b :: l) -> qp + 8 <= lo \/ hi <= qp ->
  exists m', split_block qp (fst b) ahp pages m = Some (ahp, m') /\
    chain (words m') qp (carve b ahp pages ++ l) /\ ch_memcore m' = ch_memcore m /\
    forall x, x <> qp -> ~ fst b <= x < limit b -> words m' !! x = words m !! x.
Proof.
  intros Hlo Hs Hp Hf (Hq & Hn & Hch) Hqp.
  destruct (head_range _ _ _ Hlo Hs) as (R1 & R2 & R3 & R4 & R5 & _).
  destruct (fit_inv _ _ _ _ _ Hlo Hs Hf) as (j & Hj & -> & Hr & _ & El & _).
  pose proof Hs as (Hb & _ & _ & Hs'). destruct (chain_next _ _ _ Hch) as [n Hnext].
  assert (El' : limit b = fst b + 8 + 8 * snd b) by done.
  assert (Hl : forall x, covers l x -> limit b < x < hi) by (intros x Hx; destruct (covers_range _ _ _ Hs' Hx); lia).
  assert (Hpg : forall i d, 0 <= i <= snd b -> NPAGES (d + 8 * i) d = i).
  { intros i d Hi. unfold NPAGES. replace (d + 8 * i - d) with (i * 8) by lia. rewrite Z.div_mul by lia.
    apply u32_id. lia. }
  rewrite carve_eq. unfold split_block. rewrite (block_head _ _ _ Hlo Hs).
  replace (fst b <? fst b + 8 * j) with (0 <? j)
    by (destruct (Z.ltb_spec 0 j), (Z.ltb_spec (fst b) (fst b + 8 * j)); done || lia).
  destruct (Z.ltb_spec 0 j).
  - rewrite (limit_head _ _ _ Hlo Hs) by done. unfold H_BLOCK. rewrite (u32_id (fst b + 8 * j + 8)) by lia.
    replace (limit b) with (fst b + 8 * j + 8 + 8 * (snd b - j)) by lia. rewrite Hpg by lia.
    replace (NPAGES (fst b + 8 * j) (fst b + 8)) with (j - 1)
      by (replace (fst b + 8 * j) with (fst b + 8 + 8 * (j - 1)) by lia; rewrite Hpg; lia).
    rewrite set_run.
    destruct (Z.ltb_spec pages (snd b - j)).
    + set (fp := u32 (fst b + 8 * j + 8 + 8 * pages)).
      assert (Hfp : fp = fst b + 8 * j + 8 + 8 * pages) by (apply u32_id; lia).
      rewrite run_assoc, set_run. unfold H_NEXT. rewrite run_assoc.
      rewrite (load_run _ n) by (updates; done). rewrite run_assoc, !set_run. cbn beta.
      rewrite u32_id by lia. eexists. split; [reflexivity|]. split; [|split; [reflexivity|]].
      * cbn [app chain fst snd]. rewrite <- Hfp. updates. split_and!; try done.
        apply (chain_frame (words m) _ _ (limit b) (fst b)); [done..|updates; by rewrite ?Hnext|].
        intros x Hx%Hl. updates. done.
      * intros x Hx Hx'. updates. done.
    + rewrite run_ret. eexists. split; [reflexivity|]. split; [|split; [reflexivity|]].
      * cbn [app chain fst snd]. updates. split_and!; try done.
        apply (chain_frame (words m) _ _ (limit b) (fst b)); [done..|updates; by rewrite ?Hnext|].
        intros x Hx%Hl. updates. done.
      * intros x Hx Hx'. updates. done.
  - assert (j = 0) as -> by lia. rewrite !Z.mul_0_r, !Z.add_0_r, !Z.sub_0_r in *.
    unfold H_PAGES at 1. rewrite (load_run _ (snd b)) by done. unfold H_NEXT.
    destruct (Z.eqb_spec (snd b) pages) as [->|Hne].
    + rewrite run_assoc, (load_run _ n) by done. rewrite set_run.
      eexists. split; [reflexivity|]. rewrite Z.ltb_irrefl. split; [|split; [reflexivity|]].
      * cbn [app]. apply (chain_frame (words m) _ _ (limit b) (fst b)); [done..|updates; by rewrite ?Hnext|].
        intros x Hx%Hl. updates. done.
      * intros x Hx Hx'. updates. done.
    + destruct (Z.ltb_spec pages (snd b)); [|lia].
      set (fp := u32 (fst b + 8 + 8 * pages)).
      assert (Hfp : fp = fst b + 8 + 8 * pages) by (apply u32_id; lia).
      rewrite run_assoc, (load_run _ n) by done. rewrite run_assoc, set_run, run_assoc.
      rewrite (limit_head _ _ _ Hlo Hs) by (updates; done). rewrite run_assoc, !set_run.
      unfold H_BLOCK. rewrite (u32_id (fp + 8)) by lia.
      replace (NPAGES (limit b) (fp + 8)) with (snd b - pages - 1)
        by (replace (limit b) with (fp + 8 + 8 * (snd b - pages - 1)) by lia; rewrite Hpg; lia).
      eexists. split; [reflexivity|]. split; [|split; [reflexivity|]].
      * cbn [app chain fst snd]. rewrite <- Hfp. updates. split_and!; try done.
        apply (chain_frame (words m) _ _ (limit b) (fst b)); [done..|updates; by rewrite ?Hnext|].
        intros x Hx%Hl. updates. done.
      * intros x Hx Hx'. updates. done.
Qed.

(** The search is first fit on the list. *)
Lemma alloc_search_ok pages l : forall fuel lo qp m, 0 <= pages -> 0 <= lo -> spaced lo hi l ->
  (length l <= fuel)%nat -> chain (words m) qp l -> qp + 8 <= lo \/ hi <= qp ->
  match alloc_list pages align l with
  | Some (p, l') => exists m', alloc_search fuel qp pages align m = Some (Some p, m') /\
      chain (words m') qp l' /\ ch_memcore m' = ch_memcore m /\
      forall x, x <> qp -> ~ covers l x -> words m' !! x = words m !! x
  | None => alloc_search fuel qp pages align m = Some (None, m)
  end.
Proof.
  induction l as [|b l IH]; intros fuel lo qp m Hp Hlo Hs Hfuel Hch Hqp.
  - cbn [alloc_list]. destruct fuel; cbn [alloc_search]; unfold H_NEXT; by rewrite (load_run _ 0).
  - destruct fuel as [|fuel]; [cbn in Hfuel; lia|]. pose proof Hch as (Hq & Hn & Hch').
    destruct (head_range _ _ _ Hlo Hs) as (R1 & R2 & R3 & R4 & R5 & _).
    cbn [alloc_search]. unfold H_NEXT. rewrite (load_run _ _ _ _ Hq).
    destruct (Z.eqb_spec (fst b) 0); [lia|]. rewrite (limit_head _ _ _ Hlo Hs) by done.
    rewrite (block_head _ _ _ Hlo Hs). pose proof (fit_head _ _ _ Hlo Hs pages) as Hf. cbn zeta in Hf.
    cbn [alloc_list]. rewrite Hf. destruct (_ && _) eqn:E.
    + destruct (split_block_ok _ _ _ _ _ _ _ Hlo Hs Hp Hf Hch Hqp) as (m' & E1 & H1 & H2 & H3).
      exists m'. rewrite (run_call _ _ _ _ _ E1). split_and!; try done.
      intros x Hx Hc. apply H3; [done|]. intros Hr. apply Hc. rewrite covers_cons. by left.
    + destruct Hs as (Hb & Hd & Hnn & Hs). assert (Hl0 : 0 <= limit b) by lia.
      assert (Hq' : fst b + 8 <= limit b \/ hi <= fst b) by lia.
      cbn in Hfuel. pose proof (IH fuel (limit b) (fst b) m Hp Hl0 Hs ltac:(lia) Hch' Hq') as IH'.
      destruct (alloc_list pages align l) as [[p l']|]; [|done].
      destruct IH' as (m' & E1 & H1 & H2 & H3). exists m'. split; [done|].
      assert (Hrest : forall x, covers l x -> limit b < x < hi) by (intros x; apply (covers_range _ _ _ Hs)).
      split; [|split; [done|]].
      * cbn [chain]. split_and!; [| |done].
        -- rewrite H3; [done|lia|]. intros ?%Hrest. lia.
        -- rewrite H3; [done|lia|]. intros ?%Hrest. lia.
      * intros x Hx Hc. rewrite covers_cons in Hc. apply H3; [|tauto]. intros ->. apply Hc. left. lia.
Qed.

(** No block has room when nothing is found. *)
Lemma alloc_none pages l : 0 <= pages -> forall lo, 0 <= lo -> spaced lo hi l ->
  alloc_list pages align l = None ->
  forall b q, b ∈ l -> (align | q) -> fst b + 8 <= q -> limit b < q + 8 * pages.
Proof.
  intros Hp. induction l as [|c l IH]; intros lo Hlo Hs H b q; [by intros ?%elem_of_nil|]. cbn in H.
  destruct (fit c pages align) as [ahp|] eqn:Ef; [done|].
  destruct (alloc_list pages align l) as [[p1 l1]|] eqn:E; [done|].
  pose proof (head_range _ _ _ Hlo Hs) as (R1 & R2 & R3 & R4 & R5 & [u Hu]).
  destruct Hs as (Hb & _ & Hn & Hs). intros [->|Hin]%elem_of_cons Hq Hle.
  2: { apply (IH (limit c) ltac:(lia) Hs eq_refl b q); done. }
  destruct (Z.le_gt_cases (q + 8 * pages) (limit c)) as [Hroom|]; [exfalso|lia].
  unfold fit in Ef. destruct (align_next (fst c + 8) ltac:(lia)) as [[v Hv] Hr].
  set (q0 := MEM_ALIGN_NEXT (fst c + 8) align) in *. replace (q0 - 8 + 8) with q0 in Ef by lia.
  assert (Hq0 : q0 <= q).
  { destruct Hq as [w ->]. rewrite Hv in *. assert (v - 1 < w) by nia. nia. }
  destruct (Z.ltb_spec (q0 - 8) (limit c)); [|lia].
  destruct (Z.leb_spec pages ((limit c - q0) / 8)) as [|Hgt]; [done|].
  assert (pages <= (limit c - q0) / 8) by (apply Z.div_le_lower_bound; lia). lia.
Qed.

(** The memory has a word for every block. *)
Lemma chain_size w l : forall lo qp, spaced lo hi l -> chain w qp l -> (length l <= base.size w)%nat.
Proof.
  intros lo qp Hs Hch. rewrite <- (length_map fst), <- (size_dom (D := gset Z)).
  assert (Hnd : NoDup (map fst l)).
  { clear Hch. revert lo Hs. induction l as [|b l IH]; intros lo Hs; [constructor|].
    destruct Hs as (_ & _ & ? & Hs). constructor; [|by eapply IH].
    intros (c & E & Hc)%list_elem_of_fmap. apply (spaced_in _ _ _ Hs) in Hc. unfold limit in Hc. lia. }
  rewrite <- (size_list_to_set (C := gset Z)) by done. apply subseteq_size.
  intros x (c & -> & Hc)%elem_of_list_to_set%list_elem_of_fmap. clear Hnd.
  revert lo qp Hs Hch. induction l as [|b l IH]; intros lo qp Hs Hch; [by apply elem_of_nil in Hc|].
  destruct Hs as (_ & _ & _ & Hs), Hch as (_ & _ & Hch). apply elem_of_cons in Hc as [->|Hc]; [|by eapply IH].
  destruct (chain_next _ _ _ Hch) as [n Hn]. apply elem_of_dom. eauto.
Qed.

Lemma pages_of_ok n : 0 <= n -> n + 7 < 2 ^ 32 -> pages_of n = (n + 7) / 8.
Proof.
  intros H0 H. unfold pages_of, MEM_ALIGN_NEXT, MEM_ALIGN_PREV, CH_HEAP_ALIGNMENT.
  change (MEM_ALIGN_MASK 8) with (Z.ones 3). change (n + Z.ones 3) with (n + 7). rewrite u32_id by lia.
  rewrite Z.ldiff_ones_r, Z.shiftl_mul_pow2, Z.shiftr_div_pow2 by lia. by rewrite Z.div_mul.
Qed.

(** The block behind [qp] is [b]. *)
Definition linked (w : gmap Z Z) (l : list (Z * Z)) : Prop :=
  match l with
  | [] => True
  | b :: l => w !! (fst b + 4) = Some (snd b) /\ chain w (fst b) l
  end.
Definition next (l : list (Z * Z)) : Z := match l with [] => 0 | b :: _ => fst b end.
Lemma chain_linked w qp l : chain w qp l <-> w !! qp = Some (next l) /\ linked w l.
Proof. destruct l; cbn; tauto. Qed.

(** Only what [l] covers and [qp] were written. *)
Definition wrote (qp : Z) (l : list (Z * Z)) (m m' : memory) : Prop :=
  ch_memcore m' = ch_memcore m /\
  forall x, x <> qp -> ~ covers l x -> words m' !! x = words m !! x.
Lemma linked_frame w w' lo l : spaced lo hi l -> linked w l ->
  (forall x, covers l x -> w' !! x = w !! x) -> linked w' l.
Proof.
  destruct l as [|b l]; [done|]. intros Hs [H1 H2] Hw.
  assert (Hcov : forall x, fst b <= x < limit b -> w' !! x = w !! x)
    by (intros; apply Hw; rewrite covers_cons; by left).
  destruct Hs as (_ & _ & Hn & Hs). unfold limit in Hcov. split; [rewrite Hcov by lia; done|].
  eapply chain_frame; [done..|rewrite Hcov by lia; done|]. intros x Hx. apply Hw. rewrite covers_cons. by right.
Qed.

(** Joining a block with the next one. *)
Lemma merge_with_ok c l m : 0 < fst c -> (8 | fst c) -> 0 <= snd c -> limit c <= hi ->
  spaced (limit c - 1) hi l -> linked (words m) (c :: l) ->
  exists m', merge_with (fst c) (next l) m = Some (tt, m') /\
    linked (words m') (join c l) /\ wrote (fst c) [c] m m'.
Proof.
  intros Hc Hd Hn Hh Hs (H1 & H2). assert (Hl0 : 0 < limit c) by (unfold limit; lia).
  assert (Hs0 : spaced 0 hi [c]) by done.
  unfold merge_with. rewrite (limit_head 0 c [] ltac:(lia) Hs0) by done.
  assert (Hcov : forall x, x <> fst c -> ~ covers [c] x -> x <> fst c + 4).
  { intros x _ Hx ->. apply Hx. rewrite covers_cons. left. unfold limit. lia. }
  destruct l as [|d l]; cbn [next join].
  { destruct (Z.eqb_spec (limit c) 0); [lia|]. by eexists. }
  destruct (Z.eqb_spec (limit c) (fst d)) as [E|E]; [|by eexists].
  destruct H2 as (H2 & H3 & H4). destruct (chain_next _ _ _ H4) as [n Hnext].
  destruct (head_range (limit c - 1) d l ltac:(lia) Hs) as (R1 & R2 & R3 & R4 & R5 & _).
  assert (Hlc : limit c = fst c + 8 + 8 * snd c) by done.
  assert (Hld : limit d = fst d + 8 + 8 * snd d) by done.
  unfold H_PAGES, H_NEXT. rewrite (load_run _ _ _ _ H1), (load_run _ _ _ _ H3), set_run.
  rewrite (load_run _ n) by (rewrite upd_other by lia; done).
  rewrite (u32_id (snd d + 1)), u32_id by lia.
  exists (upd (fst c) n (upd (fst c + 4) (snd c + (snd d + 1)) m)). split; [reflexivity|]. split.
  - cbn [linked fst snd]. split; [rewrite upd_other, upd_same by lia; done|].
    destruct Hs as (_ & _ & _ & Hs).
    apply (chain_frame (words m) _ _ (limit d) (fst d)); [done..|by rewrite upd_same, Hnext|].
    intros x Hx. destruct (covers_range _ _ _ Hs Hx). rewrite !upd_other by lia. done.
  - split; [done|]. intros x Hx Hx'. pose proof (Hcov x Hx Hx'). by rewrite !upd_other by done.
Qed.

(** The new block [b] between [qp] and [l]. *)
Lemma insert_block_ok b l qp m : 0 < fst b -> (8 | fst b) -> 0 <= snd b -> limit b <= hi ->
  spaced (limit b - 1) hi l -> chain (words m) qp l -> words m !! (fst b + 4) = Some (snd b) ->
  qp + 8 <= fst b \/ hi <= qp ->
  exists m1, insert_block qp (fst b) m = merge_with qp (fst b) m1 /\
    chain (words m1) qp (join b l) /\ wrote qp [b] m m1.
Proof.
  intros Hb Hd Hn Hh Hs Hch Hp Hqp. apply chain_linked in Hch as [Hq Hl].
  assert (Hlim : limit b = fst b + 8 + 8 * snd b) by done.
  unfold insert_block, H_NEXT. rewrite (load_run _ _ _ _ Hq), !set_run.
  rewrite (load_run _ (next l)) by (updates; done).
  set (m0 := upd qp (fst b) (upd (fst b) (next l) m)).
  assert (Hl0 : linked (words m0) (b :: l)).
  { split; [unfold m0; updates; done|]. apply chain_linked. unfold m0. split; [updates; done|].
    apply (linked_frame (words m) _ _ _ Hs Hl). intros x Hx. destruct (covers_range _ _ _ Hs Hx).
    updates. done. }
  destruct (merge_with_ok b l m0 Hb Hd Hn Hh Hs Hl0) as (m1 & E1 & H1 & Hc1 & Hf1).
  exists m1. split; [by rewrite (run_call _ _ _ _ _ E1)|]. split; [|split; [done|]].
  - destruct (join_head b l) as (n' & l' & Ej). rewrite Ej in *. cbn [chain]. split; [|by destruct H1].
    rewrite Hf1; [unfold m0; updates; done|lia|]. rewrite covers_cons, covers_nil. lia.
  - intros x Hx Hx'. assert (x <> fst b).
    { intros ->. apply Hx'. rewrite covers_cons. left. lia. }
    rewrite Hf1 by done. unfold m0. updates. done.
Qed.

Lemma insert_behind_ok b l c lo m : (8 | fst b) -> 0 <= snd b -> limit b <= hi ->
  0 <= lo -> spaced lo hi (c :: l) -> limit c <= fst b -> spaced (limit b - 1) hi l ->
  linked (words m) (c :: l) -> words m !! (fst b + 4) = Some (snd b) ->
  exists m', insert_block (fst c) (fst b) m = Some (tt, m') /\
    linked (words m') (join c (join b l)) /\ wrote (fst c) [b; c] m m'.
Proof.
  intros Hd Hn Hh Hlo Hs Hcb Hsb [Hc1 Hc2] Hp.
  destruct (head_range _ _ _ Hlo Hs) as (R1 & R2 & R3 & R4 & R5 & R6).
  assert (Hlc : limit c = fst c + 8 + 8 * snd c) by done.
  destruct (insert_block_ok b l (fst c) m ltac:(lia) Hd Hn Hh Hsb Hc2 Hp ltac:(lia)) as (m1 & E1 & H1 & Hm1 & Hw1).
  destruct (join_ok (limit c - 1) b l ltac:(lia) Hd Hn Hh Hsb) as [Hj _].
  assert (Hl1 : linked (words m1) (c :: join b l)).
  { split; [|done]. rewrite Hw1; [done|lia|]. rewrite covers_cons, covers_nil. lia. }
  destruct (merge_with_ok c (join b l) m1 R1 R6 R2 R3 Hj Hl1) as (m' & E2 & H2 & Hm2 & Hw2).
  exists m'. rewrite E1. destruct (join_head b l) as (n' & l' & Ej). rewrite Ej in *.
  split; [exact E2|]. split; [exact H2|]. split; [by rewrite Hm2|].
  intros x Hx Hx'. rewrite covers_cons in Hx'. rewrite Hw2 by tauto. apply Hw1; [done|].
  rewrite covers_cons, covers_nil. tauto.
Qed.

(** One turn of the loop, at a block in front of [hp]. *)
Lemma free_loop_step fuel hdr qp hp n m : words m !! qp = Some n -> qp <> hdr -> qp < hp ->
  free_loop fuel hdr qp hp m =
    if (n =? 0) || (hp <? n) then insert_block qp hp m
    else match fuel with O => undefined m | S fuel => free_loop fuel hdr n hp m end.
Proof.
  intros Hq Hne Hlt. destruct fuel; cbn [free_loop]; unfold H_NEXT at 1; rewrite (load_run _ _ _ _ Hq);
    destruct (Z.eqb_spec qp hdr), (Z.ltb_spec qp hp); try lia; cbn [orb andb];
    by destruct ((n =? 0) || (hp <? n)).
Qed.

Lemma free_loop_head fuel hdr hp n m : words m !! hdr = Some n ->
  free_loop fuel hdr hdr hp m =
    if (n =? 0) || (hp <? n) then insert_block hdr hp m
    else match fuel with O => undefined m | S fuel => free_loop fuel hdr n hp m end.
Proof.
  intros Hq. destruct fuel; cbn [free_loop]; unfold H_NEXT at 1; rewrite (load_run _ _ _ _ Hq), Z.eqb_refl;
    cbn [orb andb]; by destruct ((n =? 0) || (hp <? n)).
Qed.

(** From a free block in front of [b] on, the loop is [free_list]. *)
Lemma free_loop_ok hdr b : (8 | fst b) -> 0 <= snd b -> limit b <= hi -> forall l c lo fuel m,
  0 <= lo -> spaced lo hi (c :: l) -> limit c <= fst b ->
  Forall (fun d => limit d <= fst b \/ limit b <= fst d) l ->
  linked (words m) (c :: l) -> words m !! (fst b + 4) = Some (snd b) ->
  hdr <= lo \/ hi <= hdr -> (length l <= fuel)%nat ->
  exists m', free_loop fuel hdr (fst c) (fst b) m = Some (tt, m') /\
    linked (words m') (free_list b (c :: l)) /\ wrote (fst c) (b :: c :: l) m m'.
Proof.
  intros Hd Hn Hh. induction l as [|d l IH]; intros c lo fuel m Hlo Hs Hcb Hf Hl Hp Hhdr Hfuel;
    destruct (head_range _ _ _ Hlo Hs) as (R1 & R2 & R3 & R4 & R5 & _);
    pose proof (proj1 Hs) as Hlc; pose proof Hl as [Hl1 [Hnx _]%chain_linked];
    rewrite (free_loop_step _ _ _ _ _ _ Hnx) by lia; rewrite free_list_behind by lia; cbn [next].
  { destruct (insert_behind_ok b [] c lo m Hd Hn Hh Hlo Hs Hcb ltac:(cbn; lia) Hl Hp) as (m' & E & H1 & H2).
    by exists m'. }
  apply Forall_cons in Hf as [Hbd Hf]. pose proof Hs as (_ & _ & _ & Hs').
  pose proof (head_range _ _ _ (ltac:(lia) : 0 <= limit c) Hs') as (Q1 & Q2 & Q3 & Q4 & Q5 & Q6).
  destruct (Z.eqb_spec (fst d) 0); [lia|]. cbn [orb]. destruct (Z.ltb_spec (fst b) (fst d)) as [Hlt|Hge].
  - assert (Hlb : limit b = fst b + 8 + 8 * snd b) by done.
    assert (Hsb : spaced (limit b - 1) hi (d :: l)) by (destruct Hs' as (?&?&?&?); split_and!; [lia|done..]).
    destruct (insert_behind_ok b _ c lo m Hd Hn Hh Hlo Hs Hcb Hsb Hl Hp) as (m' & E & H1 & Hm & Hw).
    exists m'. split; [done|]. split; [exact H1|]. split; [done|]. intros x Hx Hx'. apply Hw; [done|].
    rewrite !covers_cons, covers_nil in *. tauto.
  - assert (Hlb : limit b = fst b + 8 + 8 * snd b) by done.
    destruct fuel as [|fuel]; cbn in Hfuel; [lia|]. assert (Hdb : limit d <= fst b) by lia.
    destruct Hl as (_ & Hq & Hl2).
    destruct (IH d (limit c) fuel m ltac:(lia) Hs' Hdb Hf Hl2 Hp ltac:(lia) ltac:(lia)) as (m' & E & H1 & Hm & Hw).
    assert (Hout : forall x, x < fst d -> ~ covers (b :: d :: l) x).
    { intros x Hx. rewrite covers_cons. intros [?|Hc]; [lia|].
      apply (covers_head (limit c) d l _ Hs') in Hc. lia. }
    pose proof (proj1 Hs') as Hcd. assert (Hlc' : limit c = fst c + 8 + 8 * snd c) by done.
    exists m'. split; [done|]. split; [|split; [done|]].
    + cbn [linked]. rewrite Hw by (try apply Hout; lia). split; [done|]. apply chain_linked.
      rewrite Hw by (try apply Hout; lia). split; [|done]. rewrite Hq. f_equal.
      destruct (free_list_next b d l) as [n' [l' ->]]; [lia|done].
    + intros x Hx Hx'. apply Hw; [|rewrite !covers_cons in *; tauto].
      intros ->. apply Hx'. rewrite !covers_cons. right. right. left. lia.
Qed.

(** [b] is apart from the blocks of [l]. *)
Definition apart (b : Z * Z) (l : list (Z * Z)) : Prop :=
  Forall (fun c => limit c <= fst b \/ limit b <= fst c) l.

Section insert.
Context (lo heapp : Z) (b : Z * Z) (l : list (Z * Z)) (m : memory).
Context (Hlo : 0 <= lo) (Hs : spaced lo hi l) (Hch : chain (words m) (header heapp) l)
  (Hz : words m !! (header heapp + 4) = Some 0) (Hr : 0 <= heapp < 2 ^ 32 - 16)
  (Hhdr : header heapp + 8 <= lo \/ hi <= header heapp)
  (Hb : lo < fst b) (Hd : (8 | fst b)) (Hn : 0 <= snd b) (Hh : limit b <= hi) (Ha : apart b l)
  (Hp : words m !! (fst b + 4) = Some (snd b)).

(** In front of the first free block: the header is not taken for a block. *)
Lemma insert_first : spaced (limit b - 1) hi l ->
  exists m', insert_block (header heapp) (fst b) m = Some (tt, m') /\
    chain (words m') (header heapp) (join b l) /\ wrote (header heapp) (b :: l) m m'.
Proof.
  intros Hsb. assert (Hlb : limit b = fst b + 8 + 8 * snd b) by done.
  destruct (insert_block_ok b l (header heapp) m ltac:(lia) Hd Hn Hh Hsb Hch Hp ltac:(lia))
    as (m' & E & H1 & Hm & Hw).
  exists m'. rewrite E. split; [|split; [done|split; [done|]]].
  - unfold merge_with, H_LIMIT, H_PAGES. rewrite run_assoc, (load_run _ 0), run_ret.
    2: { rewrite Hw; [done|lia|]. rewrite covers_cons, covers_nil. lia. }
    unfold H_BLOCK. unfold header in *. rewrite (u32_id (heapp + 4 + 8)) by lia. rewrite u32_id by lia.
    destruct (Z.eqb_spec (heapp + 4 + 8 + 8 * 0) (fst b)); [lia|done].
  - intros x Hx Hx'. apply Hw; [done|]. rewrite !covers_cons, covers_nil in *. tauto.
Qed.

Lemma heap_insert_list : exists m', heap_insert heapp (fst b) m = Some (tt, m') /\
  chain (words m') (header heapp) (free_list b l) /\ wrote (header heapp) (b :: l) m m'.
Proof.
  assert (Hlb : limit b = fst b + 8 + 8 * snd b) by done.
  pose proof (chain_size _ _ _ _ Hs Hch) as Hfuel. pose proof Hch as [Hq Hl]%chain_linked.
  unfold heap_insert. rewrite (run_gets (fun m => base.size (words m))), (free_loop_head _ _ _ _ _ Hq).
  pose proof insert_first as Hif. destruct l as [|c l'] eqn:El; cbn [next].
  { apply Hif. cbn. lia. }
  pose proof Hs as (Hc1 & Hc2 & Hc3 & Hc4). pose proof Ha as [Hbc Ha']%Forall_cons.
  assert (Hlc : limit c = fst c + 8 + 8 * snd c) by done.
  destruct (Z.eqb_spec (fst c) 0); [lia|]. cbn [orb]. destruct (Z.ltb_spec (fst b) (fst c)) as [Hlt|Hge].
  - cbn [free_list]. destruct (Z.ltb_spec (fst b) (fst c)); [|lia].
    apply Hif. split_and!; [lia|done..].
  - destruct (base.size (words m)) as [|fuel]; cbn in Hfuel; [lia|].
    destruct (free_loop_ok (header heapp) b Hd Hn Hh l' c lo fuel m Hlo Hs ltac:(lia) Ha' Hl Hp ltac:(lia) ltac:(lia))
      as (m' & E & H1 & Hm & Hw).
    exists m'. split; [done|].
    assert (Hout : forall x, x <= lo \/ hi <= x -> ~ covers (b :: c :: l') x).
    { intros x Hx. rewrite covers_cons. intros [?|Hc]; [lia|].
      apply (covers_range _ _ _ Hs) in Hc. lia. }
    assert (Hcx : forall x, ~ covers (b :: c :: l') x -> x <> fst c).
    { intros x Hx ->. apply Hx. rewrite !covers_cons. right. left. lia. }
    split; [|split; [done|auto]].
    apply chain_linked. split; [|done]. rewrite Hw by auto with lia. rewrite Hq. f_equal.
    by destruct (free_list_next b c l' Hge) as [n' [l2 ->]].
Qed.

(** Freeing a block apart from the free ones is [free_list]. *)
Theorem heap_insert_ok :
  exists m', heap_insert heapp (fst b) m = Some (tt, m') /\
    chain (words m') (header heapp) (free_list b l) /\ spaced lo hi (free_list b l) /\
    (forall x, covers (free_list b l) x <-> fst b <= x < limit b \/ covers l x) /\
    wrote (header heapp) (b :: l) m m'.
Proof.
  pose proof (free_ok b Hd Hn Hh l lo Hb Hs Ha) as [Hs' Hcov].
  destruct heap_insert_list as (m' & E & H1 & H2). by exists m'.
Qed.
End insert.

(** The sizes that round up to whole pages without overflow, and the room found for them. *)
Theorem heap_alloc_ok lo heapp size l m : 0 <= lo -> spaced lo hi l ->
  chain (words m) (header heapp) l -> header heapp + 8 <= lo \/ hi <= header heapp ->
  0 <= size -> size + 7 < 2 ^ 32 ->
  let pages := (size + 7) / 8 in
  match alloc_list pages align l with
  | Some (p, l') => exists m', heap_alloc heapp size align m = Some (Some (p + 8), m') /\
      (align | p + 8) /\ lo < p /\ p + 8 + size <= limit (p, pages) <= hi /\
      words m' !! p = Some heapp /\ words m' !! (p + 4) = Some size /\
      chain (words m') (header heapp) l' /\ spaced lo hi l' /\ apart (p, pages) l' /\
      (forall x, covers l x <-> p <= x < limit (p, pages) \/ covers l' x) /\
      wrote (header heapp) l m m'
  | None => heap_alloc heapp size align m = Some (None, m) /\
      forall b q, b ∈ l -> (align | q) -> fst b + 8 <= q -> limit b < q + 8 * pages
  end.
Proof.
  intros Hlo Hs Hch Hhdr H0 Hsz pages. assert (Hp : 0 <= pages) by (apply Z.div_pos; lia).
  pose proof (chain_size _ _ _ _ Hs Hch) as Hfuel.
  pose proof (alloc_search_ok pages l _ lo (header heapp) m Hp Hlo Hs Hfuel Hch ltac:(lia)) as Hso.
  unfold heap_alloc. rewrite (run_gets (fun m => base.size (words m))), pages_of_ok by lia. fold pages.
  destruct (alloc_list pages align l) as [[p l']|] eqn:El.
  - destruct Hso as (m1 & E1 & H1 & Hm1 & Hw1). rewrite (run_call _ _ _ _ _ E1), !set_run.
    destruct (alloc_ok pages Hp _ _ _ _ Hlo Hs El) as (Hs' & Hlp & Hlim & Hal & Hp8 & Hc).
    pose proof (alloc_apart pages Hp _ _ _ _ Hlo Hs El) as Ha.
    assert (Elim : limit (p, pages) = p + 8 + 8 * pages) by done.
    assert (Hpg : size <= 8 * pages) by (unfold pages; pose proof (Z.div_mod (size + 7) 8); pose proof (Z.mod_pos_bound (size + 7) 8); lia).
    assert (Hin : forall x, p <= x < p + 8 -> covers l x /\ ~ covers l' x).
    { intros x Hx. split; [apply Hc; lia|]. intros (c & Hin & Hcx). rewrite Forall_forall in Ha.
      destruct (Ha c Hin); cbn in *; lia. }
    assert (H32 : hi < 2 ^ 32) by (assert (0 < align) by (subst align; lia); lia).
    exists (upd p heapp (upd (p + 4) size m1)).
    split; [unfold H_BLOCK; rewrite u32_id by lia; reflexivity|]. updates.
    split_and!; try done; try lia.
    + eapply (chain_frame (words m1)); [exact Hs'|exact H1|updates; done|]. intros x Hx.
      assert (x <> p) by (intros ->; by apply (Hin p ltac:(lia))).
      assert (x <> p + 4) by (intros ->; by apply (Hin (p + 4) ltac:(lia))). updates. done.
    + split; [done|]. intros x Hx Hx'. assert (x <> p) by (intros ->; by apply Hx', Hin; lia).
      assert (x <> p + 4) by (intros ->; by apply Hx', Hin; lia). updates. by apply Hw1.
  - rewrite (run_call _ _ _ _ _ Hso). split; [done|]. by apply (alloc_none pages l Hp lo).
Qed.

(** ** The calls of threads *)

(** The heap [heapp] has the free blocks [l], between [lo] and [hi]. *)
Record heap_inv (lo heapp : Z) (l : list (Z * Z)) (m : memory) : Prop := {
  inv_spaced : spaced lo hi l;
  inv_chain : chain (words m) (header heapp) l;
  inv_header : words m !! (header heapp + 4) = Some 0
}.

(** The used block [b] of [size] bytes belongs to [heapp]. *)
Record used (heapp size : Z) (b : Z * Z) (m : memory) : Prop := {
  used_heap : words m !! fst b = Some heapp;
  used_size : words m !! (fst b + 4) = Some size;
  used_pages : snd b = (size + 7) / 8
}.

Section calls.
Context {S : Type} `{!Component S ch_system, !Component S memory, !Apart S ch_system memory}.
Context (mtx_of : Z -> nat) (default_heap : Z).

Definition mem (s : S) : memory := proj s.

(** The others leave the memory alone while the thread waits: they work on other blocks,
    and on the list of the heap with its mutex. *)
Context (R : why -> S -> S -> Prop) (HR : forall w s s', R w s s' -> same mem s s').

Lemma exec_kernel {A} (p : prog ch_system A) s a s' : exec R (lift p) s a s' -> mem s' = mem s.
Proof.
  intros H. symmetry. apply (exec_lift_rel (K := ch_system) R (same mem)) in H; [done| |done].
  intros c s0. unfold same, mem. by rewrite (apart_l c).
Qed.
Lemma liftM_mem {A} (f : M memory A) s a s' : liftM f s = Some (a, s') -> f (mem s) = Some (a, mem s').
Proof.
  unfold liftM, mem. destruct (f (proj s)) as [[b c]|]; [|done]. intros [= <- <-]. by rewrite proj_inj.
Qed.

(** [f] under the mutex of a heap. *)
Lemma exec_heap_locked {A B} heapp (f : M memory A) (rest : A -> prog S B) s b s' :
  exec R (H_LOCK mtx_of heapp;; r ← Atom (liftM f); H_UNLOCK mtx_of heapp;; rest r) s b s' ->
  exists a s1, f (mem s) = Some (a, mem s1) /\ exec R (rest a) s1 b s'.
Proof.
  intros (? & s1 & H1%exec_kernel & a & s2 & H2%liftM_mem & ? & s3 & H3%exec_kernel & H4).
  exists a, s3. by rewrite <- H1, H3.
Qed.

(** [chHeapAllocAligned] is first fit on the free list: it returns an aligned block of
    whole pages that was free, with its heap and size in its header, takes exactly that
    block from what the list covers, keeps the list in order with no adjacent blocks, and
    writes nothing but the link of the heap and free memory.  It returns [NULL] (in a heap
    without a provider) only when no free block has aligned room for the pages. *)
Theorem chHeapAllocAligned_ok lo h heapp size a l s r s' :
  the_heap default_heap h = heapp -> align = (if a <? 8 then 8 else a) -> 0 <= lo -> heap_inv lo heapp l (mem s) ->
  header heapp + 8 <= lo \/ hi <= header heapp -> 0 <= size -> size + 7 < 2 ^ 32 ->
  exec R (chHeapAllocAligned mtx_of default_heap h size a) s r s' ->
  let pages := (size + 7) / 8 in
  match alloc_list pages align l with
  | Some (p, l') => r = Some (p + 8) /\ (align | p + 8) /\ lo < p /\
      p + 8 + size <= limit (p, pages) <= hi /\ used heapp size (p, pages) (mem s') /\
      heap_inv lo heapp l' (mem s') /\ apart (p, pages) l' /\
      (forall x, covers l x <-> p <= x < limit (p, pages) \/ covers l' x) /\
      wrote (header heapp) l (mem s) (mem s')
  | None =>
      (forall b q, b ∈ l -> (align | q) -> fst b + 8 <= q -> limit b < q + 8 * pages) /\
      (words (mem s) !! heapp = Some 0 -> r = None /\ mem s' = mem s)
  end.
Proof.
  intros Eh Ea Hlo [Hs Hch Hz] Hhdr H0 Hsz H pages. unfold chHeapAllocAligned in H. rewrite Eh in H.
  change CH_HEAP_ALIGNMENT with 8 in H. rewrite <- Ea in H.
  apply exec_heap_locked in H as (r1 & s1 & E1 & H).
  pose proof (heap_alloc_ok lo heapp size l (mem s) Hlo Hs Hch Hhdr H0 Hsz) as Hok. fold pages in Hok. cbn zeta in Hok.
  destruct (alloc_list pages align l) as [[p l']|].
  - destruct Hok as (m' & E & H1 & H2 & H3 & H4 & H5 & H6 & H7 & H8 & H9 & H10 & H11).
    rewrite E in E1. injection E1 as <- ->. destruct H as [-> ->]. unfold mem in *. split_and!; try done; try lia.
    split; try done. rewrite H11; [done|lia|]. intros Hx. destruct (covers_range _ _ _ Hs Hx). lia.
  - destruct Hok as [E Hn]. split; [done|]. intros Hprov. rewrite E in E1. injection E1 as <- Em.
    destruct H as (pv & s2 & H2%liftM_mem & H). rewrite <- Em in H2. unfold load, deref in H2.
    rewrite Hprov in H2. injection H2 as <- H2. destruct H as [-> ->]. by rewrite <- H2.
Qed.

Lemma chHeapFree_run lo heapp size b l s s' : 0 <= lo -> heap_inv lo heapp l (mem s) ->
  0 <= heapp < 2 ^ 32 - 16 -> header heapp + 8 <= lo \/ hi <= header heapp ->
  0 <= size -> size + 7 < 2 ^ 32 -> used heapp size b (mem s) -> lo < fst b -> (8 | fst b) -> limit b <= hi ->
  apart b l ->
  exec R (chHeapFree mtx_of (fst b + 8)) s tt s' ->
  heap_inv lo heapp (free_list b l) (mem s') /\
  (forall x, covers (free_list b l) x <-> fst b <= x < limit b \/ covers l x) /\
  wrote (header heapp) (b :: l) (mem s) (mem s').
Proof.
  intros Hlo [Hs Hch Hz] Hr Hhdr H0 Hsz [Hu1 Hu2 Hu3] Hb Hd Hh Ha H. unfold chHeapFree in H.
  replace (fst b + 8 - 8) with (fst b) in H by lia.
  destruct H as (hp & s1 & H1%liftM_mem & H). unfold size_to_pages, H_HEAP, H_SIZE in H1.
  rewrite (load_run _ _ _ _ Hu1), (load_run _ _ _ _ Hu2), set_run, pages_of_ok, <- Hu3 in H1 by lia.
  injection H1 as <- Hm1. destruct H as ([] & s2 & H2%exec_kernel & [] & s3 & H3%liftM_mem & H4%exec_kernel).
  assert (Hlb : limit b = fst b + 8 + 8 * snd b) by done.
  assert (Hb0 : 0 <= snd b) by (rewrite Hu3; apply Z.div_pos; lia). pose proof (spaced_le _ _ Hs) as Hlh.
  assert (Hfree : ~ covers l (fst b + 4)).
  { intros (c & Hin & Hc). unfold apart in Ha. rewrite Forall_forall in Ha. destruct (Ha c Hin); lia. }
  assert (Hw1 : forall x, x <> fst b + 4 -> words (mem s2) !! x = words (mem s) !! x)
    by (intros x Hx; rewrite H2, <- Hm1; by apply upd_other).
  assert (Hch2 : chain (words (mem s2)) (header heapp) l).
  { eapply (chain_frame (words (mem s))); [done|done|apply Hw1; lia|].
    intros x Hx. apply Hw1. by intros ->. }
  destruct (heap_insert_ok lo heapp b l (mem s2) Hlo Hs Hch2) as (m' & E & H5 & H6 & H7 & H8 & H9); try done.
  { rewrite Hw1 by lia. done. }
  { rewrite H2, <- Hm1. apply upd_same. }
  rewrite E in H3. injection H3 as ->. rewrite H4. split_and!; try done.
  - constructor; [done..|]. rewrite H9, Hw1; [done|lia..|]. rewrite covers_cons. intros [?|Hc]; [lia|].
    apply (covers_range _ _ _ Hs) in Hc. lia.
  - split; [by rewrite H8, H2, <- Hm1|]. intros x Hx Hx'. rewrite H9 by done. apply Hw1.
    intros ->. apply Hx'. rewrite covers_cons. left. lia.
Qed.

End calls.

(** ** Status *)

Definition total (l : list (Z * Z)) : Z := foldr (fun b n => snd b + n) 0 l.
Definition largest (l : list (Z * Z)) : Z := foldr (fun b n => snd b `max` n) 0 l.

Lemma spaced_total l : forall lo, spaced lo hi l -> lo + 8 * (Z.of_nat (length l) + total l) <= hi.
Proof.
  induction l as [|b l IH]; intros lo; cbn [spaced total foldr length]; [lia|].
  intros (? & _ & ? & Hs). apply IH in Hs. unfold total, limit in *. lia.
Qed.
Lemma total_pages_nonneg lo l : spaced lo hi l -> 0 <= total l.
Proof.
  revert lo. induction l as [|b l IH]; intros lo; cbn; [lia|]. intros (_ & _ & ? & Hs).
  apply IH in Hs. unfold total in Hs. lia.
Qed.

Lemma largest_le lo l : spaced lo hi l -> 0 <= largest l <= total l.
Proof.
  revert lo. induction l as [|b l IH]; intros lo; cbn; [lia|]. intros (_ & _ & ? & Hs).
  apply IH in Hs. unfold total, largest in Hs. lia.
Qed.

Lemma status_loop_ok l : forall fuel lo qp n t g m, (length l <= fuel)%nat -> spaced lo hi l ->
  chain (words m) qp l -> 0 <= lo -> 0 <= n -> 0 <= t -> 0 <= g -> n + t <= lo ->
  status_loop fuel qp n t g m = Some ((n + Z.of_nat (length l), t + total l, g `max` largest l), m).
Proof.
  induction l as [|b l IH]; intros fuel lo qp n t g m Hfuel Hs Hch Hlo Hn Ht Hg Hsum.
  - destruct fuel; cbn [status_loop]; unfold H_NEXT; rewrite (load_run _ 0) by done; cbn; unfold mret, M_ret;
      repeat f_equal; lia.
  - destruct fuel as [|fuel]; cbn in Hfuel; [lia|].
    destruct (head_range _ _ _ Hlo Hs) as (R1 & R2 & R3 & R4 & R5 & _).
    pose proof (spaced_total _ _ Hs) as Htot. pose proof (total_pages_nonneg _ _ Hs). destruct Hs as (Hb & _ & _ & Hs).
    destruct Hch as (Hq & Hp & Hch). pose proof (total_pages_nonneg _ _ Hs).
    assert (Hl : limit b = fst b + 8 + 8 * snd b) by done. cbn [total foldr length] in *. unfold total in *.
    cbn [status_loop]. unfold H_NEXT, H_PAGES. rewrite (load_run _ _ _ _ Hq).
    destruct (Z.eqb_spec (fst b) 0); [lia|]. rewrite (load_run _ _ _ _ Hp), !u32_id by lia.
    rewrite (IH fuel (limit b)) by (done || lia || destruct (g <? snd b); lia).
    cbn [largest foldr]. unfold largest, total. f_equal. f_equal.
    destruct (Z.ltb_spec g (snd b)); f_equal; first [lia|f_equal; lia].
Qed.

(** [chHeapStatus] reports the fragments, the free bytes and the largest block. *)
Lemma heap_status_ok lo heapp l m : 0 <= lo -> heap_inv lo heapp l m ->
  heap_status heapp m = Some ((Z.of_nat (length l), 8 * total l, 8 * largest l), m).
Proof.
  intros Hlo [Hs Hch _]. pose proof (chain_size _ _ _ _ Hs Hch) as Hfuel.
  unfold heap_status. rewrite (run_gets (fun m => base.size (words m))).
  assert (E := status_loop_ok l _ lo _ 0 0 0 m Hfuel Hs Hch Hlo ltac:(lia) ltac:(lia) ltac:(lia) ltac:(lia)).
  rewrite (run_call _ _ _ _ _ E). unfold CH_HEAP_ALIGNMENT.
  pose proof (spaced_total _ _ Hs). pose proof (total_pages_nonneg _ _ Hs). pose proof (largest_le _ _ Hs).
  assert (hi < 2 ^ 32) by (assert (0 < align) by (subst align; lia); lia).
  unfold mret, M_ret. rewrite !u32_id by lia. f_equal. f_equal. f_equal; [f_equal|]; lia.
Qed.
End lists.

(** ** The core allocator and the first block *)

(** [chCoreAllocAlignedWithOffsetI]: the block is in the core memory, aligned, behind
    [offset] bytes of its own; [NULL] when there is no room.  The sum of the sizes must
    not overflow. *)
Lemma core_alloc_ok align k size offset m :
  align = 2 ^ k -> 3 <= k <= 31 -> 0 <= size -> 0 <= offset ->
  let c := ch_memcore m in
  0 <= nextmem c <= endmem c -> endmem c < 2 ^ 32 -> nextmem c + offset + size + 3 * align <= 2 ^ 32 ->
  exists r m', chCoreAllocAlignedWithOffsetI size align offset m = Some (r, m') /\ words m' = words m /\
  match r with
  | Some p => (align | p) /\ nextmem c + offset <= p /\
      p + size <= nextmem (ch_memcore m') <= endmem c /\ endmem (ch_memcore m') = endmem c
  | None => m' = m /\ forall p, (align | p) -> nextmem c + offset <= p -> endmem c < p + size + align
  end.
Proof.
  intros Ea Hk H0 Ho c Hc He Hb. assert (Hal : 0 < align) by (subst align; lia).
  destruct (align_next size align k Ea Hk ltac:(lia) size ltac:(lia)) as [Hd1 Hr1].
  destruct (align_next (nextmem c + offset) align k Ea Hk ltac:(lia) (nextmem c + offset) ltac:(lia)) as [Hd2 Hr2].
  unfold chCoreAllocAlignedWithOffsetI. rewrite run_gets. fold c. rewrite (u32_id (nextmem c + offset)) by lia.
  set (sz := MEM_ALIGN_NEXT size align) in *. set (p := MEM_ALIGN_NEXT (nextmem c + offset) align) in *.
  cbv zeta. rewrite (u32_id (p + sz)) by lia.
  destruct (Z.ltb_spec (endmem c) (p + sz)) as [Hlt|Hge]; cbn [orb].
  - exists None, m. split_and!; try done. intros q [v Hv] Hq. destruct Hd2 as [w Hw].
    assert (w - 1 < v) by nia. assert (p <= q) by nia. lia.
  - destruct (Z.ltb_spec (p + sz) (nextmem c)); [lia|].
    exists (Some p), (Memory (words m) (MemCore (p + sz) (endmem c))). cbn. split_and!; try done; lia.
Qed.

(** A size that does not round up within 32 bits is taken for 0, although the overflow of
    the end of the block is considered. *)
Example core_alloc_wraps : exists m',
  chCoreAllocAlignedWithOffsetI (2 ^ 32 - 1) 8 8 (Memory empty (MemCore 4096 4200)) = Some (Some 4104, m') /\
  nextmem (ch_memcore m') = 4104.
Proof. eexists. split; [vm_compute; reflexivity|reflexivity]. Qed.

(** [chHeapObjectInit]: one free block in the buffer. *)
Lemma object_init_ok heapp buf size m :
  let hp := MEM_ALIGN_NEXT buf 8 in let n := (size - (hp - buf) - 8) / 8 in
  0 < buf -> 15 <= size -> buf + size + 8 <= 2 ^ 32 -> heapp + 12 <= buf \/ buf + size <= heapp ->
  exists m', object_init heapp buf size m = Some (tt, m') /\ words m' !! heapp = Some 0 /\
    heap_inv (buf + size) (buf - 1) heapp [(hp, n)] m' /\ buf + size - 8 < limit (hp, n).
Proof.
  intros hp n Hbuf Hsz Hb Hh.
  destruct (align_next (buf + size) 8 3 eq_refl ltac:(lia) ltac:(lia) buf ltac:(lia)) as [Hd Hr]. fold hp in Hd, Hr.
  assert (Hn : 8 * n <= size - (hp - buf) - 8 < 8 * n + 8).
  { unfold n. pose proof (Z.div_mod (size - (hp - buf) - 8) 8). pose proof (Z.mod_pos_bound (size - (hp - buf) - 8) 8). lia. }
  unfold object_init, CH_HEAP_ALIGNMENT. fold hp. rewrite !set_run, (u32_id (size - (hp - buf))) by lia.
  rewrite u32_id by lia. fold n.
  exists (upd (hp + 4) n (upd hp 0 (upd (header heapp + 4) 0 (upd (header heapp) hp (upd heapp 0 m))))).
  unfold header in *. split; [done|]. split; [updates; done|].
  split; [|unfold limit; cbn; lia].
  constructor; cbn [spaced chain fst snd]; unfold limit, header; cbn [fst snd].
  - split_and!; try done; lia.
  - split_and!; updates; done.
  - updates. done.
Qed.
End ChHeap.
