(* ===== verification/Checks.v ===== *)
(** * The invariants, decided

    Boolean checks of the invariants of the kernel, sound for the propositions; with them
    an invariant of a given state is proved by computation. *)

From stdpp Require Import sorting fin_maps.
From S2P Require Import Prelude CLib Prog ThreadQueue Kernel ChVt ChSchd ChSem ChThreads ChMbox ChEvents ChMtx.

Module Checks.
Import ChVt ChSchd ChSem ChThreads ChEvents ChMtx.
#[local] Abbreviation take := firstn.

(** ** Maps *)

Definition all_in {K A} `{Countable K} (P : K -> A -> bool) (m : gmap K A) : bool :=
  forallb (fun x => P (fst x) (snd x)) (map_to_list m).

Lemma all_in_ok {K A} `{Countable K} (P : K -> A -> bool) (m : gmap K A) :
  all_in P m = true -> forall i x, m !! i = Some x -> P i x = true.
Proof.
  unfold all_in. rewrite forallb_forall. intros H0 i x Hi.
  apply (H0 (i, x)). rewrite <- list_elem_of_In. by apply elem_of_map_to_list.
Qed.

Lemma forallb_in {A} (P : A -> bool) l : forallb P l = true -> forall x, x ∈ l -> P x = true.
Proof. rewrite forallb_forall. intros H x Hx. apply H. by rewrite <- list_elem_of_In. Qed.

Ltac checks :=
  cbv beta iota in *;
  repeat match goal with
  | H : _ && _ = true |- _ => apply andb_true_iff in H as [? ?]
  | H : bool_decide _ = true |- _ => apply bool_decide_eq_true_1 in H
  end.

(** ** The scheduler *)

Fixpoint sorted_check (pr : tid -> Z) (l : list tid) : bool :=
  match l with
  | [] => true
  | t :: l => forallb (fun x => pr x <=? pr t) l && sorted_check pr l
  end.

Lemma sorted_check_ok pr l : sorted_check pr l = true -> prio_sorted pr l.
Proof.
  induction l as [|t l IH]; cbn; intros H; [constructor|]. checks. constructor; [by apply IH|].
  apply Forall_forall. intros x Hx. pose proof (forallb_in _ _ H _ Hx). checks. by zbool.
Qed.

Definition sched_check (k : ch_system) : bool :=
  bool_decide (NoDup (k_current k :: k_rlist k)) &&
  forallb (fun t => bool_decide (is_Some (k_threads k !! t))) (k_current k :: k_rlist k) &&
  all_in (fun t th => bool_decide (t_state th = CH_STATE_CURRENT <-> t = k_current k) &&
    bool_decide (t_state th = CH_STATE_READY <-> t ∈ k_rlist k) &&
    (NOPRIO <? t_prio th)) (k_threads k) &&
  sorted_check (prio_of k) (k_rlist k).

Lemma sched_check_ok k : sched_check k = true -> sched_ok k.
Proof.
  intros H. unfold sched_check in H. checks.
  assert (Hth : forall t th, k_threads k !! t = Some th ->
    (t_state th = CH_STATE_CURRENT <-> t = k_current k) /\
    (t_state th = CH_STATE_READY <-> t ∈ k_rlist k) /\ NOPRIO < t_prio th).
  { intros t th Ht. pose proof (all_in_ok _ _ H1 _ _ Ht) as E. cbv beta in E. checks. by zbool. }
  constructor; [done| |intros t th Ht; by apply Hth..| |intros t th Ht; by eapply Hth].
  - intros t Ht. pose proof (forallb_in _ _ H2 _ Ht). by checks.
  - by apply sorted_check_ok.
Qed.

Definition top_check (k : ch_system) : bool :=
  forallb (fun t => prio_of k t <=? prio_of k (k_current k)) (k_rlist k).
Lemma top_check_ok k : top_check k = true -> top k.
Proof. intros H t Ht. pose proof (forallb_in _ _ H _ Ht). checks. by zbool. Qed.

Definition waits_check (k : ch_system) (t : tid) : bool := bool_decide (is_Some (wview k t)).
Lemma waits_check_ok k t : waits_check k t = true -> waits k t.
Proof. intros H. apply waits_wview. unfold waits_check in H. by checks. Qed.

Lemma queue_waits_ok k q : forallb (waits_check k) (queue_of k q) = true -> queue_waits k q.
Proof. intros H t Ht. apply waits_check_ok. by apply (forallb_in _ _ H). Qed.

(** ** Timers *)

Definition vt_check (k : ch_system) : bool :=
  bool_decide (NoDup (keys (k_vtlist k))) &&
  forallb (fun x => (0 <=? snd x) && (snd x <? 2 ^ 32)) (k_vtlist k) &&
  (total (k_vtlist k) <? 2 ^ 32) &&
  forallb (fun v => bool_decide (is_Some (k_vts k !! v ≫= vt_func))) (keys (k_vtlist k)) &&
  all_in (fun v vt => bool_decide (vt_func vt <> None -> v ∈ keys (k_vtlist k))) (k_vts k).

Lemma vt_check_ok k : vt_check k = true -> vt_ok k.
Proof.
  intros H. unfold vt_check in H. checks. zbool. constructor; [done| |done|].
  - apply Forall_forall. intros x Hx. pose proof (forallb_in _ _ H3 _ Hx). checks. by zbool.
  - intros v. split.
    + intros Hv. pose proof (forallb_in _ _ H1 _ Hv) as [f E]%bool_decide_eq_true_1.
      apply bind_Some in E as (vt & E & Ef). exists vt. by rewrite Ef.
    + intros (vt & E & Hf). pose proof (all_in_ok _ _ H0 _ _ E) as E0. cbv beta in E0. checks. auto.
Qed.

(** ** Waiting threads *)

(** Every waiting thread and what it waits for. *)
Definition all_waiting (P : tid -> tstate_t -> thread_u -> bool) (k : ch_system) : bool :=
  all_in (fun t th => match wview k t with Some (st, u) => P t st u | None => true end) (k_threads k).
Lemma all_waiting_ok P k : all_waiting P k = true ->
  forall t st u, wview k t = Some (st, u) -> P t st u = true.
Proof.
  intros H t st u Hw. unfold all_waiting in H.
  assert (exists th, k_threads k !! t = Some th) as [th Ht].
  { unfold wview in Hw. destruct (k_threads k !! t); [eauto|done]. }
  pose proof (all_in_ok _ _ H _ _ Ht) as E. cbv beta in E. by rewrite Hw in E.
Qed.

(** Every queue, those never initialised being empty. *)
Lemma all_queues_ok (P : qid -> list tid -> bool) k :
  all_in P (k_queues k) = true -> forall q t, t ∈ queue_of k q -> P q (queue_of k q) = true.
Proof.
  intros H q t Ht. unfold queue_of in *. destruct (k_queues k !! q) as [l|] eqn:E.
  - by apply (all_in_ok _ _ H).
  - by apply elem_of_nil in Ht.
Qed.

#[global] Instance thread_u_eq_dec : EqDecision thread_u.
Proof. solve_decision. Defined.

(** The threads of a queue are those that wait for it. *)
Definition queue_check (k : ch_system) (st : tstate_t) (u : thread_u) (l : list tid) : bool :=
  forallb (fun t => bool_decide (wview k t = Some (st, u))) l && bool_decide (NoDup l).

Lemma queue_nodup k q (P : qid -> list tid -> bool) : all_in P (k_queues k) = true ->
  (P q (queue_of k q) = true -> NoDup (queue_of k q)) -> NoDup (queue_of k q).
Proof.
  intros H HP. unfold queue_of in *. destruct (k_queues k !! q) as [l|] eqn:E; [|constructor].
  apply HP. by apply (all_in_ok _ _ H).
Qed.

Definition sems_check (k : ch_system) : bool :=
  sched_check k &&
  all_in (fun sp n => (- 2 ^ 31 <? n) && (n <? 2 ^ 31 - 1) &&
    (Z.of_nat (length (queue_of k (q_sem sp))) =? Z.max 0 (- n))) (k_sems k) &&
  all_in (fun q l => match q with q_sem sp => queue_check k CH_STATE_WTSEM (u_wtsemp sp) l | _ => true end) (k_queues k) &&
  all_waiting (fun t st u =>
    match st, u with
    | CH_STATE_WTSEM, u_wtsemp sp => bool_decide (t ∈ queue_of k (q_sem sp))
    | _, _ => true
    end) k.

Lemma sems_check_ok k : sems_check k = true -> sems_ok k.
Proof.
  intros H. unfold sems_check in H. checks. constructor.
  - by apply sched_check_ok.
  - intros sp n Hn. pose proof (all_in_ok _ _ H2 _ _ Hn) as E. cbv beta in E. checks. by zbool.
  - intros sp t. split.
    + intros Ht. pose proof (all_queues_ok _ _ H1 _ _ Ht) as E. cbv beta iota in E. unfold queue_check in E.
      checks. pose proof (forallb_in _ _ H3 _ Ht). by checks.
    + intros Hw. pose proof (all_waiting_ok _ _ H0 _ _ _ Hw) as E. cbv beta iota in E. by checks.
  - intros sp. apply (queue_nodup _ _ _ H1). cbv beta iota. unfold queue_check. intros E. by checks.
Qed.

Definition evt_check (k : ch_system) : bool :=
  sched_check k &&
  all_waiting (fun t st u =>
    if bool_decide (st = CH_STATE_WTOREVT \/ st = CH_STATE_WTANDEVT) then
      match u, k_threads k !! t with
      | u_ewmask m, Some th => negb (satisfied st (t_epending th) m)
      | _, _ => false
      end
    else true) k.

Lemma evt_check_ok k : evt_check k = true -> evt_ok k.
Proof.
  intros H. unfold evt_check in H. checks. constructor; [by apply sched_check_ok|].
  intros t st u Hw Hst. pose proof (all_waiting_ok _ _ H0 _ _ _ Hw) as E. cbv beta iota in E.
  rewrite bool_decide_eq_true_2 in E by done.
  destruct u; try done. destruct (k_threads k !! t) as [th|]; [|done].
  exists m, th. apply negb_true_iff in E. done.
Qed.

Definition listens_check (k : ch_system) (elp : nat) : bool :=
  bool_decide (is_Some (el ← k_lsts k !! elp; k_threads k !! el_listener el)).
Lemma listens_check_ok k elp : listens_check k elp = true -> listens k elp.
Proof.
  unfold listens_check. intros H. checks. destruct H as [th E]. apply bind_Some in E as (el & ? & ?).
  by exists el, th.
Qed.

(** ** Mutexes *)

(** The mutexes from [o] on. *)
Fixpoint chain_from (fuel : nat) (ms : gmap nat mutex_t) (o : option nat) : option (list nat) :=
  match o, fuel with
  | None, _ => Some []
  | Some _, O => None
  | Some mp, S fuel => m ← ms !! mp; cons mp <$> chain_from fuel ms (m_next m)
  end.

Lemma chain_from_ok fuel ms : forall o l, chain_from fuel ms o = Some l -> chain ms o l.
Proof.
  induction fuel as [|fuel IH]; intros [mp|] l; cbn; [done|by intros [= <-]| |by intros [= <-]].
  intros (m & Hm & (l' & Hl & ->)%fmap_Some)%bind_Some. split; [done|]. exists m. eauto.
Qed.

Definition owned_check (k : ch_system) (t : tid) (th : thread_t) : bool :=
  match chain_from (size (k_mtxs k)) (k_mtxs k) (t_mtxlist th) with
  | Some l => bool_decide (NoDup l) &&
      forallb (fun mp => bool_decide (owner_of k mp = Some t)) l &&
      all_in (fun mp m => if bool_decide (m_owner m = Some t) then bool_decide (mp ∈ l) else true) (k_mtxs k)
  | None => false
  end.

Lemma owned_check_ok k t th : owned_check k t th = true -> exists l,
  chain (k_mtxs k) (t_mtxlist th) l /\ NoDup l /\
  forall mp, mp ∈ l <-> owner_of k mp = Some t /\ Some mp <> None.
Proof.
  unfold owned_check. destruct (chain_from _ _ _) as [l|] eqn:E; [|done]. intros H. checks.
  exists l. split; [by eapply chain_from_ok|]. split; [done|]. intros mp. split.
  - intros Hmp. pose proof (forallb_in _ _ H1 _ Hmp). by checks.
  - intros [Ho _]. unfold owner_of in Ho. apply bind_Some in Ho as (m & Hm & Ho).
    pose proof (all_in_ok _ _ H0 _ _ Hm) as E0. cbv beta in E0.
    rewrite bool_decide_eq_true_2 in E0 by done. by checks.
Qed.

Definition mtx_check (k : ch_system) : bool :=
  sched_check k &&
  all_in (fun q l => match q with q_mtx mp =>
    queue_check k CH_STATE_WTMTX (u_wtmtxp mp) l && sorted_check (prio_of k) l &&
    forallb (fun t => match owner_of k mp with
                      | Some o => prio_of k t <=? prio_of k o
                      | None => false end) l | _ => true end) (k_queues k) &&
  all_waiting (fun t st u =>
    if bool_decide (st = CH_STATE_WTMTX) then
      match u with u_wtmtxp mp => bool_decide (t ∈ mqueue k mp) | _ => false end
    else true) k &&
  all_in (owned_check k) (k_threads k) &&
  all_in (fun mp m => match m_owner m with
                      | Some o => bool_decide (is_Some (k_threads k !! o))
                      | None => true end) (k_mtxs k).

Lemma mtx_check_ok k : mtx_check k = true -> mtx_ok k.
Proof.
  intros H. unfold mtx_check in H. checks. split; [constructor|].
  - by apply sched_check_ok.
  - intros mp t. split.
    + intros Ht. pose proof (all_queues_ok _ _ H3 _ _ Ht) as E. cbv beta iota in E. unfold queue_check in E.
      checks. pose proof (forallb_in _ _ H4 _ Ht). by checks.
    + intros Hw. pose proof (all_waiting_ok _ _ H2 _ _ _ Hw) as E. cbv beta iota in E.
      rewrite bool_decide_eq_true_2 in E by done. by checks.
  - intros t u Hw. pose proof (all_waiting_ok _ _ H2 _ _ _ Hw) as E. cbv beta iota in E.
    rewrite bool_decide_eq_true_2 in E by done. destruct u; try done. eauto.
  - intros mp. apply (queue_nodup _ _ _ H3). cbv beta iota. unfold queue_check. intros E. by checks.
  - intros mp. destruct (mqueue k mp) as [|t l] eqn:El; [constructor|].
    assert (Hin : t ∈ mqueue k mp) by (rewrite El; by left).
    pose proof (all_queues_ok _ _ H3 _ _ Hin) as E. cbv beta iota in E. checks.
    rewrite <- El. by apply sorted_check_ok.
  - intros t th Ht. apply owned_check_ok. by apply (all_in_ok _ _ H1).
  - intros mp o Ho. unfold owner_of in Ho. apply bind_Some in Ho as (m & Hm & Ho).
    pose proof (all_in_ok _ _ H0 _ _ Hm) as E. cbv beta in E. rewrite Ho in E. by checks.
  - intros mp t Ht. pose proof (all_queues_ok _ _ H3 _ _ Ht) as E. cbv beta iota in E. checks.
    pose proof (forallb_in _ _ H5 _ Ht) as E. cbv beta in E.
    destruct (owner_of k mp) as [o|]; [|done]. exists o. by zbool.
Qed.

Definition no_wtcond_check (k : ch_system) : bool :=
  all_in (fun _ th => bool_decide (t_state th <> CH_STATE_WTCOND)) (k_threads k).
Lemma no_wtcond_check_ok k : no_wtcond_check k = true -> no_wtcond k.
Proof. intros H t th Ht. pose proof (all_in_ok _ _ H _ _ Ht). by checks. Qed.

(** The mutexes of a thread are among [l]. *)
Definition owns_check (k : ch_system) (t : tid) (l : list nat) : bool :=
  all_in (fun mp m => bool_decide (m_owner m = Some t -> mp ∈ l)) (k_mtxs k).
Lemma owns_check_ok k t l mp : owns_check k t l = true -> owner_of k mp = Some t -> mp ∈ l.
Proof.
  intros H Ho. unfold owner_of in Ho. apply bind_Some in Ho as (m & Hm & Ho).
  pose proof (all_in_ok _ _ H _ _ Hm). checks. auto.
Qed.
End Checks.
