(* ===== verification/HalQueues.v ===== *)
(** * I/O queues: [os/hal/src/hal_queues.c]

    Byte queues between a thread and an interrupt handler.  An input queue counts the
    bytes it holds, an output queue its free slots; the pointers of the code are indices
    in the buffer.  The state [S] of the system has the kernel and the queues as
    components; [q_notify] is the function pointer of the queues ([NULL] is a function
    that does nothing). *)

From S2P Require Import Prelude CLib Prog ThreadQueue Kernel ChVt ChSchd ChThreads.

(** [struct io_queue], its queue of threads apart: that is [q_io qp] of the kernel. *)
Record io_queue := IOQueue {
  q_counter : nat;
  q_buffer : list Z;
  q_wrptr : nat;
  q_rdptr : nat
}.

Abbreviation io_queues := (gmap nat io_queue).

Class QNotify (S : Type) := q_notify : nat -> M S unit.

Module HalQueues.
Import ChSchd ChThreads.

(** ** One queue *)

Definition qSizeX (q : io_queue) : nat := length (q_buffer q).
Definition iqGetFullI (q : io_queue) : nat := q_counter q.
Definition iqGetEmptyI (q : io_queue) : nat := (qSizeX q - q_counter q)%nat.
Definition iqIsEmptyI (q : io_queue) : bool := (q_counter q =? 0)%nat.
Definition iqIsFullI (q : io_queue) : bool :=
  (q_wrptr q =? q_rdptr q)%nat && negb (q_counter q =? 0)%nat.
Definition oqGetFullI (q : io_queue) : nat := (qSizeX q - q_counter q)%nat.
Definition oqGetEmptyI (q : io_queue) : nat := q_counter q.
Definition oqIsEmptyI (q : io_queue) : bool :=
  (q_wrptr q =? q_rdptr q)%nat && negb (q_counter q =? 0)%nat.
Definition oqIsFullI (q : io_queue) : bool := (q_counter q =? 0)%nat.

(** [if (ptr >= q_top) ptr = q_buffer] *)
Definition wrap (q : io_queue) (p : nat) : nat := if (qSizeX q <=? p)%nat then O else p.

(** [*q_wrptr++ = b; if (q_wrptr >= q_top) ...], the counter set to [c]. *)
Definition put_byte (c : nat) (b : Z) (q : io_queue) : option io_queue :=
  if (q_wrptr q <? qSizeX q)%nat then
    Some (IOQueue c (<[q_wrptr q := b]> (q_buffer q)) (wrap q (S (q_wrptr q))) (q_rdptr q))
  else None.

(** [b = *q_rdptr++; if (q_rdptr >= q_top) ...], the counter set to [c]. *)
Definition get_byte (c : nat) (q : io_queue) : option (Z * io_queue) :=
  b ← q_buffer q !! q_rdptr q;
  Some (b, IOQueue c (q_buffer q) (q_wrptr q) (wrap q (S (q_rdptr q)))).

(** [memcpy] out of the buffer and into it. *)
Definition memcpy_from (buf : list Z) (p n : nat) : option (list Z) :=
  if (p + n <=? length buf)%nat then Some (take n (drop p buf)) else None.
Definition memcpy_to (buf : list Z) (p : nat) (bs : list Z) : option (list Z) :=
  if (p + length bs <=? length buf)%nat
  then Some (take p buf ++ bs ++ drop (p + length bs) buf) else None.

Definition iq_read (q : io_queue) (n : nat) : option (list Z * io_queue) :=
  let n := if (iqGetFullI q <? n)%nat then iqGetFullI q else n in
  let s1 := (qSizeX q - q_rdptr q)%nat in
  let c := (q_counter q - n)%nat in
  if (n <? s1)%nat then
    bs ← memcpy_from (q_buffer q) (q_rdptr q) n;
    Some (bs, IOQueue c (q_buffer q) (q_wrptr q) (q_rdptr q + n))
  else if (s1 <? n)%nat then
    bs1 ← memcpy_from (q_buffer q) (q_rdptr q) s1;
    let s2 := (n - s1)%nat in
    bs2 ← memcpy_from (q_buffer q) 0 s2;
    Some (bs1 ++ bs2, IOQueue c (q_buffer q) (q_wrptr q) s2)
  else
    bs ← memcpy_from (q_buffer q) (q_rdptr q) n;
    Some (bs, IOQueue c (q_buffer q) (q_wrptr q) 0).

(** [oq_write(oqp, bp, n)] with the [n] bytes at [bp]; the number of bytes written. *)
Definition oq_write (q : io_queue) (bs : list Z) : option (nat * io_queue) :=
  let n := if (oqGetEmptyI q <? length bs)%nat then oqGetEmptyI q else length bs in
  let s1 := (qSizeX q - q_wrptr q)%nat in
  let c := (q_counter q - n)%nat in
  if (n <? s1)%nat then
    buf ← memcpy_to (q_buffer q) (q_wrptr q) (take n bs);
    Some (n, IOQueue c buf (q_wrptr q + n) (q_rdptr q))
  else if (s1 <? n)%nat then
    buf1 ← memcpy_to (q_buffer q) (q_wrptr q) (take s1 bs);
    let s2 := (n - s1)%nat in
    buf2 ← memcpy_to buf1 0 (take s2 (drop s1 bs));
    Some (n, IOQueue c buf2 s2 (q_rdptr q))
  else
    buf ← memcpy_to (q_buffer q) (q_wrptr q) (take n bs);
    Some (n, IOQueue c buf 0 (q_rdptr q)).

(** ** The operations *)

Section operations.
Context {S : Type} `{!Component S ch_system, !Component S io_queues, !QNotify S}.

Definition ioq (qp : nat) : M S io_queue := deref (fun s => proj (K := io_queues) s !! qp).
Definition set_ioq (qp : nat) (q : io_queue) : M S unit := alter (insert (M := io_queues) qp q).

Definition iqObjectInit (qp : nat) (bp : list Z) : M S unit :=
  liftM (chThdQueueObjectInit (q_io qp));;
  set_ioq qp (IOQueue 0 bp 0 0).

Definition iqResetI (qp : nat) : M S unit :=
  q ← ioq qp;
  set_ioq qp (IOQueue 0 (q_buffer q) 0 0);;
  liftM (chThdDequeueAllI (q_io qp) MSG_RESET).

Definition iqPutI (qp : nat) (b : Z) : M S Z :=
  q ← ioq qp;
  if negb (iqIsFullI q) then
    q' ← deref (fun _ => put_byte (Datatypes.S (q_counter q)) b q);
    set_ioq qp q';;
    liftM (chThdDequeueNextI (q_io qp) MSG_OK);;
    mret MSG_OK
  else mret MSG_TIMEOUT.

(** The part of [iqGetI] and [iqGetTimeout] that takes a byte. *)
Definition iq_take (qp : nat) : M S Z :=
  q ← ioq qp;
  '(b, q') ← deref (fun _ => get_byte (q_counter q - 1) q);
  set_ioq qp q';;
  q_notify qp;;
  mret b.

Definition iqGetI (qp : nat) : M S Z :=
  q ← ioq qp;
  if negb (iqIsEmptyI q) then iq_take qp else mret MSG_TIMEOUT.

(** [while (blocked) { msg = osalThreadEnqueueTimeoutS(...); if (msg < MSG_OK) ... }]:
    [Some msg] is the early return. *)
Definition wait_while (blocked : io_queue -> bool) (qp : nat) (timeout : Z) : prog S (option Z) :=
  Loop (fun _ : unit =>
    q ← Atom (ioq qp);
    if blocked q then
      msg ← lift (chThdEnqueueTimeoutS (q_io qp) timeout);
      mret (if msg <? MSG_OK then inr (Some msg) else inl tt)
    else mret (inr None)) tt.

Definition iqGetTimeout (qp : nat) (timeout : Z) : prog S Z :=
  locked (
    r ← wait_while iqIsEmptyI qp timeout;
    match r with
    | Some msg => mret msg
    | None => Atom (iq_take qp)
    end).
Definition iqGet (qp : nat) : prog S Z := iqGetTimeout qp TIME_INFINITE.

Definition iqReadI (qp n : nat) : M S (list Z) :=
  q ← ioq qp;
  '(bs, q') ← deref (fun _ => iq_read q n);
  set_ioq qp q';;
  (if (0 <? length bs)%nat then q_notify qp else mret tt);;
  mret bs.

(** One turn of [iqReadTimeout] after [iq_read]: [None] when the queue was empty. *)
Definition read_some (qp n : nat) : M S (option (list Z)) :=
  q ← ioq qp;
  '(bs, q') ← deref (fun _ => iq_read q n);
  set_ioq qp q';;
  if (length bs =? 0)%nat then mret None else q_notify qp;; mret (Some bs).

(** The loop's variable is what was read and what is left to read. *)
Definition read_turn (qp : nat) (timeout : Z) (x : list Z * nat)
    : prog S (list Z * nat + list Z) :=
  let '(bs, n) := x in
  if (0 <? n)%nat then
    r ← Atom (read_some qp n);
    match r with
    | None =>
        msg ← lift (chThdEnqueueTimeoutS (q_io qp) timeout);
        mret (if msg =? MSG_OK then inl (bs, n) else inr bs)
    | Some got =>
        Yield unlocked;;
        mret (inl (bs ++ got, (n - length got)%nat))
    end
  else mret (inr bs).

(** The bytes read. *)
Definition iqReadTimeout (qp n : nat) (timeout : Z) : prog S (list Z) :=
  locked (Loop (read_turn qp timeout) ([], n)).

Definition oqObjectInit (qp : nat) (bp : list Z) : M S unit :=
  liftM (chThdQueueObjectInit (q_io qp));;
  set_ioq qp (IOQueue (length bp) bp 0 0).

Definition oqResetI (qp : nat) : M S unit :=
  q ← ioq qp;
  set_ioq qp (IOQueue (qSizeX q) (q_buffer q) 0 0);;
  liftM (chThdDequeueAllI (q_io qp) MSG_RESET).

Definition oq_append (qp : nat) (b : Z) : M S unit :=
  q ← ioq qp;
  q' ← deref (fun _ => put_byte (q_counter q - 1) b q);
  set_ioq qp q';;
  q_notify qp.

Definition oqPutI (qp : nat) (b : Z) : M S Z :=
  q ← ioq qp;
  if negb (oqIsFullI q) then oq_append qp b;; mret MSG_OK else mret MSG_TIMEOUT.

Definition oqPutTimeout (qp : nat) (b timeout : Z) : prog S Z :=
  locked (
    r ← wait_while oqIsFullI qp timeout;
    match r with
    | Some msg => mret msg
    | None => Atom (oq_append qp b;; mret MSG_OK)
    end).
Definition oqPut (qp : nat) (b : Z) : prog S Z := oqPutTimeout qp b TIME_INFINITE.

Definition oqGetI (qp : nat) : M S Z :=
  q ← ioq qp;
  if negb (oqIsEmptyI q) then
    '(b, q') ← deref (fun _ => get_byte (Datatypes.S (q_counter q)) q);
    set_ioq qp q';;
    liftM (chThdDequeueNextI (q_io qp) MSG_OK);;
    mret b
  else mret MSG_TIMEOUT.

Definition oqWriteI (qp : nat) (bs : list Z) : M S nat :=
  q ← ioq qp;
  '(n, q') ← deref (fun _ => oq_write q bs);
  set_ioq qp q';;
  (if (0 <? n)%nat then q_notify qp else mret tt);;
  mret n.

Definition write_some (qp : nat) (bs : list Z) : M S (option nat) :=
  q ← ioq qp;
  '(n, q') ← deref (fun _ => oq_write q bs);
  set_ioq qp q';;
  if (n =? 0)%nat then mret None else q_notify qp;; mret (Some n).

(** The loop's variable is what is left to write of [max] bytes. *)
Definition write_turn (qp max : nat) (timeout : Z) (rest : list Z) : prog S (list Z + nat) :=
  if (0 <? length rest)%nat then
    r ← Atom (write_some qp rest);
    match r with
    | None =>
        msg ← lift (chThdEnqueueTimeoutS (q_io qp) timeout);
        mret (if msg =? MSG_OK then inl rest else inr (max - length rest)%nat)
    | Some n => Yield unlocked;; mret (inl (drop n rest))
    end
  else mret (inr (max - length rest)%nat).

(** The number of bytes written. *)
Definition oqWriteTimeout (qp : nat) (bs : list Z) (timeout : Z) : prog S nat :=
  locked (Loop (write_turn qp (length bs) timeout) bs).
End operations.

(** ** The ring buffer is a FIFO list *)

(** The [i]th byte from index [p]. *)
Definition ring_index (n p i : nat) : nat := if (p + i <? n)%nat then (p + i)%nat else (p + i - n)%nat.
Definition ring (buf : list Z) (p n : nat) : list Z :=
  (fun i => default 0 (buf !! ring_index (length buf) p i)) <$> seq 0 n.

(** The bytes in a queue that holds [n], oldest first. *)
Definition content (n : nat) (q : io_queue) : list Z := ring (q_buffer q) (q_rdptr q) n.

Record queue_ok (n : nat) (q : io_queue) : Prop := {
  qo_rd : (q_rdptr q < qSizeX q)%nat;
  qo_n : (n <= qSizeX q)%nat;
  qo_wr : q_wrptr q = ring_index (qSizeX q) (q_rdptr q) n
}.

Ltac nbool :=
  repeat match goal with
    | |- context [ (?a <? ?b)%nat ] => destruct (Nat.ltb_spec a b)
    | |- context [ (?a <=? ?b)%nat ] => destruct (Nat.leb_spec a b)
    end.

Lemma ring_length buf p n : length (ring buf p n) = n.
Proof. unfold ring. by rewrite length_fmap, length_seq. Qed.

Lemma ring_snoc buf p n b : (p < length buf)%nat -> (n < length buf)%nat ->
  ring (<[ring_index (length buf) p n := b]> buf) p (S n) = ring buf p n ++ [b].
Proof.
  intros Hp Hn. unfold ring. rewrite length_insert, seq_S, fmap_app. f_equal.
  - apply list_fmap_ext. intros ? i [-> Hi]%lookup_seq.
    rewrite list_lookup_insert_ne; [done|]. unfold ring_index. nbool; lia.
  - cbn [fmap list_fmap Nat.add]. f_equal. rewrite list_lookup_insert_eq; [done|].
    unfold ring_index. nbool; lia.
Qed.

Lemma ring_cons buf p n b : (S n <= length buf)%nat -> buf !! p = Some b ->
  ring buf p (S n) = b :: ring buf (if (length buf <=? S p)%nat then 0 else S p)%nat n.
Proof.
  intros Hn Hb. pose proof (lookup_lt_Some _ _ _ Hb) as Hp. unfold ring. cbn [seq].
  rewrite fmap_cons. f_equal.
  - unfold ring_index. destruct (Nat.ltb_spec (p + 0) (length buf)); [|lia].
    by rewrite Nat.add_0_r, Hb.
  - rewrite <- fmap_S_seq, <- list_fmap_compose. apply list_fmap_ext.
    intros ? i [-> Hi]%lookup_seq. unfold compose. do 2 f_equal. unfold ring_index. nbool; lia.
Qed.

(** A byte put in a queue with room is the last one of its content. *)
Lemma put_byte_ok c n b q : queue_ok n q -> (n < qSizeX q)%nat ->
  exists q', put_byte c b q = Some q' /\ queue_ok (S n) q' /\ q_counter q' = c /\
    content (S n) q' = content n q ++ [b] /\ qSizeX q' = qSizeX q.
Proof.
  intros [Hrd Hn Hwr] Hfree. unfold put_byte.
  assert (Hw : (q_wrptr q < qSizeX q)%nat) by (rewrite Hwr; unfold ring_index; nbool; lia).
  rewrite (proj2 (Nat.ltb_lt _ _) Hw).
  assert (Hs : length (<[q_wrptr q := b]> (q_buffer q)) = qSizeX q) by apply length_insert.
  eexists. split; [done|]. split; [|split; [done|split; [|exact Hs]]].
  - constructor; unfold qSizeX in *; cbn; rewrite ?Hs; [lia..|].
    unfold wrap, qSizeX. revert Hwr. unfold ring_index. nbool; lia.
  - unfold content. cbn. rewrite Hwr. by apply ring_snoc.
Qed.

(** The byte taken from a non-empty queue is the first one of its content. *)
Lemma get_byte_ok c n q : queue_ok (S n) q ->
  exists b q', get_byte c q = Some (b, q') /\ queue_ok n q' /\ q_counter q' = c /\
    content (S n) q = b :: content n q' /\ qSizeX q' = qSizeX q.
Proof.
  intros [Hrd Hn Hwr]. unfold get_byte.
  destruct (lookup_lt_is_Some_2 (q_buffer q) (q_rdptr q) Hrd) as [b Hb]. rewrite Hb.
  do 2 eexists. split; [done|]. split; [|split; [done|split; [by apply ring_cons|done]]].
  constructor; unfold qSizeX in *; cbn; unfold wrap, qSizeX; [nbool; lia|lia|].
  revert Hwr. unfold ring_index. nbool; lia.
Qed.

(** *** The block transfers are byte transfers *)

Fixpoint put_all (bs : list Z) (q : io_queue) : option io_queue :=
  match bs with
  | [] => Some q
  | b :: bs => q' ← put_byte (q_counter q - 1) b q; put_all bs q'
  end.

Fixpoint get_all (n : nat) (q : io_queue) : option (list Z * io_queue) :=
  match n with
  | O => Some ([], q)
  | S n => '(b, q') ← get_byte (q_counter q - 1) q; '(bs, q'') ← get_all n q'; Some (b :: bs, q'')
  end.

Lemma put_all_app bs bs' q : put_all (bs ++ bs') q = put_all bs q ≫= put_all bs'.
Proof.
  revert q. induction bs as [|b bs IH]; intros q; [done|]. cbn.
  destruct (put_byte _ b q); cbn; [apply IH|done].
Qed.

Lemma get_all_app n m q : get_all (n + m) q =
  '(bs, q') ← get_all n q; '(bs', q'') ← get_all m q'; Some (bs ++ bs', q'').
Proof.
  revert q. induction n as [|n IH]; intros q; cbn; [by destruct (get_all m q) as [[]|]|].
  destruct (get_byte _ q) as [[b q']|]; cbn; [|done]. rewrite IH.
  destruct (get_all n q') as [[bs q1]|]; cbn; [|done]. by destruct (get_all m q1) as [[]|].
Qed.

(** A block that ends before the end of the buffer, or there. *)
Lemma put_all_block bs : forall q, (q_wrptr q < qSizeX q)%nat ->
  (q_wrptr q + length bs <= qSizeX q)%nat ->
  exists buf, memcpy_to (q_buffer q) (q_wrptr q) bs = Some buf /\ length buf = qSizeX q /\
    put_all bs q = Some (IOQueue (q_counter q - length bs) buf
      (wrap q (q_wrptr q + length bs)) (q_rdptr q)).
Proof.
  induction bs as [|b bs IH]; intros q Hw Hl; unfold memcpy_to;
    fold (qSizeX q); rewrite (proj2 (Nat.leb_le _ _) Hl).
  - eexists. split; [reflexivity|]. cbn [length app]. rewrite Nat.add_0_r, take_drop.
    split; [done|]. cbn. unfold wrap. destruct (Nat.leb_spec (qSizeX q) (q_wrptr q)); [lia|].
    rewrite Nat.sub_0_r. by destruct q.
  - eexists. split; [reflexivity|]. cbn [length] in *. split.
    { unfold qSizeX in *. rewrite length_app, length_take. cbn [length app]. rewrite length_app, length_drop. lia. }
    cbn [put_all]. unfold put_byte. rewrite (proj2 (Nat.ltb_lt _ _) Hw). cbn [mbind option_bind].
    assert (Hs : length (<[q_wrptr q := b]> (q_buffer q)) = qSizeX q) by apply length_insert.
    assert (Htail : take (q_wrptr q) (q_buffer q) ++ b :: bs ++ drop (q_wrptr q + S (length bs)) (q_buffer q)
      = take (S (q_wrptr q)) (<[q_wrptr q := b]> (q_buffer q)) ++ bs ++
        drop (S (q_wrptr q) + length bs) (<[q_wrptr q := b]> (q_buffer q))).
    { rewrite (take_S_r _ _ b) by by apply list_lookup_insert_eq.
      rewrite take_insert_ge, drop_insert_lt, <- app_assoc by lia. cbn. do 4 f_equal. lia. }
    cbn [app]. rewrite Htail. destruct bs as [|b' bs].
    + cbn [put_all length app]. rewrite Nat.add_0_r, take_drop. do 2 f_equal; try lia.
      unfold wrap. nbool; lia.
    + destruct (IH (IOQueue (q_counter q - 1) (<[q_wrptr q := b]> (q_buffer q))
        (wrap q (S (q_wrptr q))) (q_rdptr q))) as (buf & Hm & Hlen & E);
        unfold wrap, qSizeX in *; cbn [q_wrptr q_buffer q_rdptr q_counter length] in *;
        rewrite ?Hs in *; [nbool; lia..|].
      rewrite E. destruct (Nat.leb_spec (length (q_buffer q)) (S (q_wrptr q))); [lia|].
      unfold memcpy_to in Hm. rewrite Hs in Hm. cbn [length] in Hm.
      rewrite (proj2 (Nat.leb_le _ _)) in Hm by lia. injection Hm as <-.
      f_equal. f_equal; [lia|nbool; lia].
Qed.

Lemma get_all_block n : forall q, (q_rdptr q < qSizeX q)%nat ->
  (q_rdptr q + n <= qSizeX q)%nat ->
  get_all n q = Some (take n (drop (q_rdptr q) (q_buffer q)),
    IOQueue (q_counter q - n) (q_buffer q) (q_wrptr q) (wrap q (q_rdptr q + n))).
Proof.
  induction n as [|n IH]; intros q Hr Hl.
  - cbn. unfold wrap. rewrite Nat.add_0_r, Nat.sub_0_r.
    destruct (Nat.leb_spec (qSizeX q) (q_rdptr q)); [lia|]. by destruct q.
  - cbn [get_all]. unfold get_byte.
    destruct (lookup_lt_is_Some_2 (q_buffer q) (q_rdptr q) Hr) as [b Hb].
    rewrite Hb. cbn [mbind option_bind]. rewrite (drop_S _ b) by done. cbn [take].
    destruct n as [|n].
    + cbn. do 3 f_equal. unfold wrap. nbool; lia.
    + rewrite IH; unfold wrap, qSizeX in *; cbn; [|nbool; lia..].
      destruct (Nat.leb_spec (length (q_buffer q)) (S (q_rdptr q))); [lia|].
      f_equal. f_equal. f_equal; [lia|nbool; lia].
Qed.

Lemma block_end n q p : (p + n < qSizeX q)%nat -> wrap q (p + n) = (p + n)%nat.
Proof. unfold wrap. nbool; lia. Qed.

Lemma iq_read_bytes q n : queue_ok (q_counter q) q ->
  iq_read q n = get_all (n `min` q_counter q) q.
Proof.
  intros [Hrd Hn _]. unfold iq_read, iqGetFullI.
  replace (if (q_counter q <? n)%nat then q_counter q else n) with (n `min` q_counter q)%nat
    by (nbool; lia).
  set (m := (n `min` q_counter q)%nat). assert (Hm : (m <= qSizeX q)%nat) by lia.
  unfold memcpy_from. fold (qSizeX q).
  destruct (Nat.ltb_spec m (qSizeX q - q_rdptr q)); [|destruct (Nat.ltb_spec (qSizeX q - q_rdptr q) m)].
  - rewrite (proj2 (Nat.leb_le _ _)) by lia. rewrite get_all_block by lia. cbn.
    by rewrite block_end by lia.
  - rewrite !(proj2 (Nat.leb_le _ _)) by lia. cbn [mbind option_bind].
    replace m with ((qSizeX q - q_rdptr q) + (m - (qSizeX q - q_rdptr q)))%nat at 4 by lia.
    rewrite get_all_app, get_all_block by lia. cbn [mbind option_bind].
    replace (wrap q _) with O by (unfold wrap; nbool; lia).
    rewrite get_all_block by (unfold qSizeX in *; cbn; lia). cbn. unfold wrap.
    do 3 f_equal; [lia|]. unfold qSizeX in *. cbn. nbool; lia.
  - rewrite (proj2 (Nat.leb_le _ _)) by lia. rewrite get_all_block by lia. cbn.
    unfold wrap. do 3 f_equal. nbool; lia.
Qed.

(** [iq_read], which copies one or two blocks, is the repetition of the single-byte
    read. *)
Theorem iq_read_get_all q n : queue_ok (q_counter q) q ->
  iq_read q n = get_all (n `min` q_counter q) q.
Proof. apply iq_read_bytes. Qed.

Lemma put_all_ok bs : forall n q, queue_ok n q -> (n + length bs <= qSizeX q)%nat ->
  exists q', put_all bs q = Some q' /\ queue_ok (n + length bs) q' /\
    q_counter q' = (q_counter q - length bs)%nat /\
    content (n + length bs) q' = content n q ++ bs /\ qSizeX q' = qSizeX q.
Proof.
  induction bs as [|b bs IH]; intros n q Hq Hl; cbn [put_all length] in *.
  - exists q. rewrite Nat.add_0_r, Nat.sub_0_r, app_nil_r. done.
  - destruct (put_byte_ok (q_counter q - 1) n b q) as (q1 & E & Hq1 & Hc & Hcont & Hs); [done|lia|].
    rewrite E. cbn. destruct (IH (S n) q1) as (q' & E' & Hq' & Hc' & Hcont' & Hs'); [done|lia|].
    exists q'. replace (n + S (length bs))%nat with (S n + length bs)%nat by lia.
    split; [done|]. split; [done|]. split; [lia|]. split; [|congruence].
    by rewrite Hcont', Hcont, <- app_assoc.
Qed.

Lemma get_all_ok m : forall n q, queue_ok (m + n) q ->
  exists q', get_all m q = Some (take m (content (m + n) q), q') /\ queue_ok n q' /\
    q_counter q' = (q_counter q - m)%nat /\
    content n q' = drop m (content (m + n) q) /\ qSizeX q' = qSizeX q.
Proof.
  induction m as [|m IH]; intros n q Hq; cbn [get_all Nat.add] in *.
  - exists q. by rewrite Nat.sub_0_r.
  - destruct (get_byte_ok (q_counter q - 1) (m + n) q) as (b & q1 & E & Hq1 & Hc & Hcont & Hs); [done|].
    rewrite E. cbn [mbind option_bind]. destruct (IH n q1) as (q' & E' & Hq' & Hc' & Hcont' & Hs'); [done|].
    rewrite E'. cbn [mbind option_bind]. exists q'. rewrite Hcont. cbn [take drop].
    split; [done|]. split; [done|]. split; [lia|]. split; [done|congruence].
Qed.

Lemma oq_write_bytes q bs : queue_ok (oqGetFullI q) q -> (q_counter q <= qSizeX q)%nat ->
  let n := (length bs `min` q_counter q)%nat in
  oq_write q bs = q' ← put_all (take n bs) q; Some (n, q').
Proof.
  intros [Hrd Hfull Hwr] Hc n. unfold oqGetFullI in *.
  assert (Hw : (q_wrptr q < qSizeX q)%nat) by (rewrite Hwr; unfold ring_index; nbool; lia).
  unfold oq_write, oqGetEmptyI.
  replace (if (q_counter q <? length bs)%nat then q_counter q else length bs) with n
    by (subst n; nbool; lia).
  assert (Hn : length (take n bs) = n) by (rewrite length_take; lia).
  destruct (Nat.ltb_spec n (qSizeX q - q_wrptr q)); [|destruct (Nat.ltb_spec (qSizeX q - q_wrptr q) n)].
  - destruct (put_all_block (take n bs) q) as (buf & -> & _ & ->); [lia..|]. cbn.
    by rewrite Hn, block_end by lia.
  - set (s1 := (qSizeX q - q_wrptr q)%nat) in *.
    assert (Hs1 : length (take s1 bs) = s1) by (rewrite length_take; lia).
    replace (take n bs) with (take s1 bs ++ take (n - s1) (drop s1 bs)).
    2: { rewrite <- (take_drop s1 bs) at 3. rewrite take_app, Hs1. f_equal. symmetry. apply take_ge. lia. }
    assert (Hs2 : length (take (n - s1) (drop s1 bs)) = (n - s1)%nat)
      by (rewrite length_take, length_drop; lia).
    rewrite put_all_app. destruct (put_all_block (take s1 bs) q) as (buf & -> & Hlen & ->); [lia..|].
    cbn [mbind option_bind]. rewrite Hs1.
    replace (wrap q _) with O by (unfold wrap; nbool; lia).
    destruct (put_all_block (take (n - s1) (drop s1 bs)) (IOQueue (q_counter q - s1) buf 0 (q_rdptr q)))
      as (buf2 & Hm & _ & E); unfold qSizeX in *; cbn in *; [lia..|].
    rewrite Hm, E. cbn. rewrite Hs2. do 3 f_equal; [lia|].
    unfold wrap, qSizeX. cbn. nbool; lia.
  - destruct (put_all_block (take n bs) q) as (buf & -> & _ & ->); [lia..|]. cbn. rewrite Hn.
    unfold wrap. do 3 f_equal. nbool; lia.
Qed.

(** [oq_write], which copies one or two blocks, is the repetition of the single-byte
    write. *)
Theorem oq_write_put_all q bs : queue_ok (oqGetFullI q) q -> (q_counter q <= qSizeX q)%nat ->
  let n := (length bs `min` q_counter q)%nat in
  oq_write q bs = q' ← put_all (take n bs) q; Some (n, q').
Proof. apply oq_write_bytes. Qed.

(** ** The operations *)

Definition iq_ok (q : io_queue) : Prop := queue_ok (q_counter q) q.
Definition iq_content (q : io_queue) : list Z := content (q_counter q) q.
Definition oq_ok (q : io_queue) : Prop :=
  queue_ok (oqGetFullI q) q /\ (q_counter q <= qSizeX q)%nat.
Definition oq_content (q : io_queue) : list Z := content (oqGetFullI q) q.

Lemma iq_content_length q : length (iq_content q) = q_counter q.
Proof. apply ring_length. Qed.
Lemma oq_content_length q : length (oq_content q) = (qSizeX q - q_counter q)%nat.
Proof. apply ring_length. Qed.

(** The pointers meet when the queue is empty and when it is full. *)
Lemma pointers_meet n q : queue_ok n q ->
  (q_wrptr q =? q_rdptr q)%nat = (n =? 0)%nat || (n =? qSizeX q)%nat.
Proof.
  intros [Hrd Hn Hwr]. apply eq_true_iff_eq. rewrite Nat.eqb_eq, orb_true_iff, !Nat.eqb_eq, Hwr.
  unfold ring_index. nbool; lia.
Qed.

Lemma iqIsFullI_eq q : iq_ok q -> iqIsFullI q = (q_counter q =? qSizeX q)%nat.
Proof.
  intros Hq. unfold iqIsFullI. rewrite (pointers_meet _ _ Hq). pose proof (qo_rd _ _ Hq).
  destruct (Nat.eqb_spec (q_counter q) 0), (Nat.eqb_spec (q_counter q) (qSizeX q)); cbn; lia || done.
Qed.

Lemma oqIsEmptyI_eq q : oq_ok q -> oqIsEmptyI q = (oqGetFullI q =? 0)%nat.
Proof.
  intros [Hq Hc]. unfold oqIsEmptyI. rewrite (pointers_meet _ _ Hq). pose proof (qo_rd _ _ Hq).
  unfold oqGetFullI in *. destruct (Nat.eqb_spec (qSizeX q - q_counter q) 0),
    (Nat.eqb_spec (qSizeX q - q_counter q) (qSizeX q)), (Nat.eqb_spec (q_counter q) 0); cbn; lia || done.
Qed.

Section operations_spec.
Context {S : Type} `{!Component S ch_system, !Component S io_queues, !Apart S ch_system io_queues}.
Implicit Types (s : S) (qp : nat).

Definition kern (s : S) : ch_system := proj s.
Definition queue (s : S) (qp : nat) : option io_queue := proj (K := io_queues) s !! qp.

Lemma ioq_run qp s q : queue s qp = Some q -> ioq qp s = Some (q, s).
Proof. intros E. unfold ioq, deref. unfold queue in E. by rewrite E. Qed.

Definition with_queue (qp : nat) (q : io_queue) (s : S) : S :=
  inj (insert (M := io_queues) qp q (proj s)) s.

Lemma set_ioq_run qp q s : set_ioq qp q s = Some (tt, with_queue qp q s).
Proof. reflexivity. Qed.

Lemma queue_with qp q s : queue (with_queue qp q s) qp = Some q.
Proof. unfold queue, with_queue. rewrite proj_inj. apply lookup_insert_eq. Qed.
Lemma kern_with qp q s : kern (with_queue qp q s) = kern s.
Proof. apply (apart_r (B := io_queues)). Qed.
Lemma queue_inj (k : ch_system) s qp : queue (inj k s) qp = queue s qp.
Proof. unfold queue. by rewrite (apart_l k). Qed.

(** A kernel call, its result known. *)
Lemma liftM_run {A} (m : K A) s a k : m (kern s) = Some (a, k) -> liftM m s = Some (a, inj k s).
Proof. unfold liftM, kern. by intros ->. Qed.

(** The first waiting thread is told: the end of [iqPutI] and [oqGetI]. *)
Lemma notify_queue_ok qp s : sched_ok (kern s) -> queue_waits (kern s) (q_io qp) ->
  exists s', liftM (chThdDequeueNextI (q_io qp) MSG_OK) s = Some (tt, s') /\
    notified (q_io qp) (kern s) (kern s') /\ sched_ok (kern s') /\
    queue s' = queue s.
Proof.
  intros Hok Hw. destruct (chThdDequeueNextI_ok (q_io qp) (kern s)) as (k' & E & Hn & Hok' & _); [done..|].
  exists (inj k' s). split; [by apply liftM_run|]. unfold kern at 2 3. rewrite proj_inj.
  do 2 (split; [done|]). unfold queue. by rewrite (apart_l k').
Qed.

(** A byte an interrupt handler puts in an input queue is behind the others and wakes the
    first reader; a full queue is left alone and says so. *)
Theorem iqPutI_ok qp b s q : sched_ok (kern s) -> queue_waits (kern s) (q_io qp) ->
  queue s qp = Some q -> iq_ok q ->
  if decide (length (iq_content q) < qSizeX q)%nat then
    exists s' q', iqPutI qp b s = Some (MSG_OK, s') /\ queue s' qp = Some q' /\ iq_ok q' /\
      iq_content q' = iq_content q ++ [b] /\ sched_ok (kern s') /\
      notified (q_io qp) (kern s) (kern s')
  else iqPutI qp b s = Some (MSG_TIMEOUT, s).
Proof.
  intros Hok Hw Hq Hqok. rewrite iq_content_length. unfold iqPutI.
  erewrite run_call by by apply ioq_run. rewrite iqIsFullI_eq by done. pose proof (qo_n _ _ Hqok).
  destruct (Nat.eqb_spec (q_counter q) (qSizeX q)) as [He|He]; case_decide; try lia; [done|].
  cbn [negb]. destruct (put_byte_ok (Datatypes.S (q_counter q)) _ b q Hqok) as
    (q' & E & Hq' & Hc & Hcont & _); [done|]. msimpl.
  erewrite run_call by apply set_ioq_run.
  destruct (notify_queue_ok qp (with_queue qp q' s)) as (s' & E' & Hn & Hok' & Hqs);
    rewrite ?kern_with in *; [done..|].
  exists s', q'. split; [by erewrite run_call by apply E'|]. split; [by rewrite Hqs, queue_with|].
  unfold iq_ok, iq_content. by rewrite Hc.
Qed.

(** The byte a transmitter takes from an output queue is the oldest one, and the first
    waiting writer is woken; an empty queue is left alone and says so. *)
Theorem oqGetI_ok qp s q : sched_ok (kern s) -> queue_waits (kern s) (q_io qp) ->
  queue s qp = Some q -> oq_ok q ->
  match oq_content q with
  | [] => oqGetI qp s = Some (MSG_TIMEOUT, s)
  | b :: bs => exists s' q', oqGetI qp s = Some (b, s') /\ queue s' qp = Some q' /\ oq_ok q' /\
      oq_content q' = bs /\ sched_ok (kern s') /\ notified (q_io qp) (kern s) (kern s')
  end.
Proof.
  intros Hok Hw Hq Hqok. unfold oqGetI. erewrite run_call by by apply ioq_run.
  rewrite oqIsEmptyI_eq by done. destruct Hqok as [Hqok Hle].
  pose proof (oq_content_length q) as Hlen. unfold oq_content in *. fold (oqGetFullI q) in Hlen.
  destruct (oqGetFullI q) as [|n] eqn:En; cbn [Nat.eqb negb].
  { done. }
  destruct (get_byte_ok (Datatypes.S (q_counter q)) _ q Hqok) as (b & q' & E & Hq' & Hc & Hcont & Hs).
  rewrite Hcont. msimpl. cbv beta iota. msimpl. erewrite run_call by apply set_ioq_run.
  destruct (notify_queue_ok qp (with_queue qp q' s)) as (s' & E' & Hn & Hok' & Hqs);
    rewrite ?kern_with in *; [done..|].
  exists s', q'. split; [by erewrite run_call by apply E'|]. split; [by rewrite Hqs, queue_with|].
  unfold oqGetFullI in *.
  assert (Hn' : (qSizeX q' - q_counter q' = n)%nat) by lia.
  unfold oq_ok, oqGetFullI. rewrite Hn'. split; [|done]. split; [done|lia].
Qed.

(** ** Blocking operations

    Others only append to an input queue and only take from an output queue. *)

Definition grown (qp : nat) (s s' : S) : Prop := forall q, queue s qp = Some q -> iq_ok q ->
  exists q' added, queue s' qp = Some q' /\ iq_ok q' /\ iq_content q' = iq_content q ++ added.

Definition drained (qp : nat) (s s' : S) : Prop := forall q, queue s qp = Some q -> oq_ok q ->
  exists q' n, queue s' qp = Some q' /\ oq_ok q' /\ oq_content q' = drop n (oq_content q).

#[global] Instance grown_preorder qp : PreOrder (grown qp).
Proof.
  split.
  - intros s q Hq Hok. exists q, []. by rewrite app_nil_r.
  - intros s1 s2 s3 H1 H2 q Hq Hok. destruct (H1 q Hq Hok) as (q2 & a1 & Hq2 & Hok2 & E1).
    destruct (H2 q2 Hq2 Hok2) as (q3 & a2 & Hq3 & Hok3 & E2).
    exists q3, (a1 ++ a2). by rewrite E2, E1, app_assoc.
Qed.

#[global] Instance drained_preorder qp : PreOrder (drained qp).
Proof.
  split.
  - intros s q Hq Hok. by exists q, O.
  - intros s1 s2 s3 H1 H2 q Hq Hok. destruct (H1 q Hq Hok) as (q2 & n1 & Hq2 & Hok2 & E1).
    destruct (H2 q2 Hq2 Hok2) as (q3 & n2 & Hq3 & Hok3 & E2).
    exists q3, (n1 + n2)%nat. by rewrite E2, E1, drop_drop.
Qed.

Lemma grown_same qp s s' : queue s' qp = queue s qp -> grown qp s s'.
Proof. intros E q Hq Hok. exists q, []. by rewrite E, app_nil_r. Qed.
Lemma drained_same qp s s' : queue s' qp = queue s qp -> drained qp s s'.
Proof. intros E q Hq Hok. exists q, O. by rewrite E. Qed.

Lemma wait_while_exec R (T : S -> S -> Prop) `{!PreOrder T} blocked qp timeout s r s' :
  (forall (k : ch_system) s, T s (inj k s)) -> (forall w s s', R w s s' -> T s s') ->
  exec R (wait_while blocked qp timeout) s r s' ->
  T s s' /\ match r with
           | Some m => m < MSG_OK
           | None => exists q, queue s' qp = Some q /\ blocked q = false
           end.
Proof.
  intros Hk HR H. unfold wait_while in H. cbn [exec] in H.
  assert (Hturn : forall x s r s', exec R (q ← Atom (ioq qp);
      if blocked q then msg ← lift (chThdEnqueueTimeoutS (q_io qp) timeout);
        mret (if msg <? MSG_OK then inr (Some msg) else inl tt)
      else mret (inr None)) s r s' -> T s s' /\
    match r with
    | inl _ => x = tt
    | inr (Some m) => m < MSG_OK
    | inr None => exists q, queue s' qp = Some q /\ blocked q = false
    end).
  { clear s r s' H. intros [] s r s' (q & s1 & E & H). cbn in E. unfold ioq, deref in E.
    destruct (proj s !! qp) eqn:Hq; [|done]. injection E as <- <-.
    destruct (blocked i) eqn:Hb.
    - destruct H as (m & s2 & H1 & [-> ->]).
      split; [by eapply (exec_lift_rel (K := ch_system)), H1|]. by destruct (Z.ltb_spec m MSG_OK).
    - destruct H as [-> ->]. split; [done|]. by exists i. }
  induction H as [x s x' s1 a s2 H1 H2 IH|x s a s1 H1]; apply (Hturn x) in H1 as [HT H1].
  - destruct IH as [HT' IH]. split; [by etransitivity|done].
  - split; [done|]. by destruct a.
Qed.

(** The queue is ready: there is nothing to wait for. *)
Lemma wait_while_ready R blocked qp timeout s q : queue s qp = Some q -> blocked q = false ->
  exec R (wait_while blocked qp timeout) s None s.
Proof.
  intros Hq Hb. cbn [exec wait_while]. apply loop_done. cbn [exec mbind prog_bind].
  exists q, s. rewrite (ioq_run _ _ _ Hq). split; [done|]. by rewrite Hb.
Qed.

Section notify.
Context `{!QNotify S} (qp : nat).
Context (Hnotify : forall s, exists s', q_notify qp s = Some (tt, s') /\ queue s' qp = queue s qp).

Lemma iq_take_ok s q : queue s qp = Some q -> iq_ok q -> iqIsEmptyI q = false ->
  exists b s' q', iq_take qp s = Some (b, s') /\ queue s' qp = Some q' /\ iq_ok q' /\
    iq_content q = b :: iq_content q'.
Proof.
  intros Hq Hok He. unfold iq_take. erewrite run_call by by apply ioq_run.
  unfold iqIsEmptyI, iq_ok, iq_content in *. destruct (q_counter q) as [|n] eqn:Ec; [done|].
  destruct (get_byte_ok (Datatypes.S n - 1) n q Hok) as (b & q' & E & Hq' & Hc & Hcont & _).
  replace (Datatypes.S n - 1)%nat with n in * by lia.
  msimpl. cbv beta iota. erewrite run_call by apply set_ioq_run.
  destruct (Hnotify (with_queue qp q' s)) as (s' & E' & Hs'). erewrite run_call by apply E'.
  exists b, s', q'. rewrite Hs', queue_with, Hc. done.
Qed.

(** [iqGetTimeout] takes the oldest byte, at once when there is one.  Otherwise it waits,
    and whatever else arrives meanwhile it returns the oldest byte of what was in the queue and
    arrived, or an error and then has taken nothing. *)
Theorem iqGetTimeout_ok timeout s q : queue s qp = Some q -> iq_ok q ->
  (forall b bs, iq_content q = b :: bs -> exists s' q', exec alone (iqGetTimeout qp timeout) s b s' /\
    queue s' qp = Some q' /\ iq_ok q' /\ iq_content q' = bs) /\
  (forall R m s', (forall w s s', R w s s' -> grown qp s s') ->
    exec R (iqGetTimeout qp timeout) s m s' ->
    exists q' added, queue s' qp = Some q' /\ iq_ok q' /\
      (m < MSG_OK /\ iq_content q' = iq_content q ++ added \/
       m :: iq_content q' = iq_content q ++ added)).
Proof.
  intros Hq Hok. split.
  - intros b bs Hc. pose proof (iq_content_length q) as Hl. rewrite Hc in Hl.
    assert (He : iqIsEmptyI q = false) by (unfold iqIsEmptyI; by rewrite <- Hl).
    destruct (iq_take_ok s q Hq Hok He) as (b' & s' & q' & E & Hq' & Hok' & Hc').
    rewrite Hc in Hc'. injection Hc' as -> ->.
    exists s', q'. split; [|done]. exists b', s'. split.
    + exists None, s. split; [by eapply wait_while_ready|exact E].
    + cbn. exists tt, s'. done.
  - intros R m s' HR (m' & s2 & (r & s1 & Hw & Hr) & (? & s3 & HR3 & -> & ->)).
    destruct (wait_while_exec R (grown qp) _ _ _ _ _ _
      (fun k s => grown_same qp s _ (queue_inj k s qp)) HR Hw) as [HT Hw'].
    destruct (HT q Hq Hok) as (q1 & a1 & Hq1 & Hok1 & Hc1). destruct r as [m|].
    + destruct Hr as [-> ->]. destruct (HR _ _ _ HR3 q1 Hq1 Hok1) as (q3 & a3 & Hq3 & Hok3 & Hc3).
      exists q3, (a1 ++ a3). rewrite Hc3, Hc1, app_assoc. auto.
    + destruct Hw' as (q1' & Hq1' & He). simplify_eq.
      destruct (iq_take_ok s1 q1' Hq1' Hok1 He) as (b & s2' & q2 & E & Hq2 & Hok2 & Hc2).
      cbn in Hr. rewrite E in Hr. injection Hr as -> ->.
      destruct (HR _ _ _ HR3 q2 Hq2 Hok2) as (q3 & a3 & Hq3 & Hok3 & Hc3).
      exists q3, (a1 ++ a3). do 2 (split; [done|]). right. by rewrite Hc3, app_assoc, <- Hc1, Hc2.
Qed.

Lemma iq_read_ok n q : iq_ok q -> exists q', iq_read q n = Some (take n (iq_content q), q') /\
  iq_ok q' /\ iq_content q' = drop n (iq_content q).
Proof.
  intros Hok. rewrite iq_read_bytes by done. pose proof (iq_content_length q) as Hl.
  unfold iq_ok, iq_content in *. set (m := (n `min` q_counter q)%nat).
  replace (q_counter q) with (m + (q_counter q - m))%nat in Hok at 1 by lia.
  destruct (get_all_ok m _ q Hok) as (q' & E & Hq' & Hc & Hcont & _). exists q'.
  replace (m + (q_counter q - m))%nat with (q_counter q) in * by lia. rewrite E, Hc, Hcont.
  split; [|split; [done|]].
  - do 2 f_equal. subst m. destruct (Nat.min_spec n (q_counter q)) as [[? ->]|[? ->]]; [done|].
    by rewrite !take_ge by lia.
  - subst m. destruct (Nat.min_spec n (q_counter q)) as [[? ->]|[? ->]]; [done|].
    by rewrite !drop_ge by lia.
Qed.

Lemma read_some_ok n s q : queue s qp = Some q -> iq_ok q -> (0 < n)%nat ->
  exists r s' q', read_some qp n s = Some (r, s') /\ queue s' qp = Some q' /\ iq_ok q' /\
    match r with
    | None => iq_content q = [] /\ iq_content q' = []
    | Some got => got = take n (iq_content q) /\ iq_content q' = drop n (iq_content q)
    end.
Proof.
  intros Hq Hok Hn. unfold read_some. erewrite run_call by by apply ioq_run.
  destruct (iq_read_ok n q Hok) as (q' & E & Hq' & Hc). msimpl. cbv beta iota.
  erewrite run_call by apply set_ioq_run. destruct (iq_content q) as [|b bs] eqn:Ec.
  - rewrite take_nil. cbn. exists None, (with_queue qp q' s), q'.
    rewrite queue_with, Hc, drop_nil. done.
  - destruct n as [|n]; [lia|]. cbn [take length Nat.eqb].
    destruct (Hnotify (with_queue qp q' s)) as (s' & E' & Hs'). erewrite run_call by apply E'.
    exists (Some (b :: take n bs)), s', q'. rewrite Hs', queue_with. done.
Qed.

(** [c]: what was in the queue; at most [n] bytes are read. *)
Definition reading (n : nat) (c bs : list Z) (m : nat) (s : S) : Prop := exists q a,
  queue s qp = Some q /\ iq_ok q /\ (length bs + m <= n)%nat /\ bs ++ iq_content q = c ++ a.

Lemma reading_grown n c bs m s s' : reading n c bs m s -> grown qp s s' -> reading n c bs m s'.
Proof.
  intros (q & a & Hq & Hok & Hl & Hc) HT. destruct (HT q Hq Hok) as (q' & a' & Hq' & Hok' & Hc').
  exists q', (a ++ a'). by rewrite Hc', !app_assoc, Hc.
Qed.

Lemma read_turn_ok R n c timeout x s r s' : (forall w s s', R w s s' -> grown qp s s') ->
  reading n c (fst x) (snd x) s -> exec R (read_turn qp timeout x) s r s' ->
  match r with inl x' => reading n c (fst x') (snd x') s' | inr bs => reading n c bs 0 s' end.
Proof.
  intros HR Hrd. destruct x as [bs m]. cbn [fst snd] in *. unfold read_turn.
  assert (Hend : forall s, reading n c bs m s -> reading n c bs 0 s).
  { intros s0 (q & a & ? & ? & ? & ?). exists q, a. do 2 (split; [done|]); split; [lia|done]. }
  destruct (Nat.ltb_spec 0 m) as [Hm|_].
  2: { intros [-> ->]. by apply Hend. }
  pose proof Hrd as (q & a & Hq & Hok & Hl & Hc).
  destruct (read_some_ok m s q Hq Hok Hm) as (r1 & s1 & q1 & E & Hq1 & Hok1 & Hr).
  cbn [exec mbind prog_bind]. intros (r2 & s2 & E2 & H). rewrite E in E2. injection E2 as <- <-.
  assert (Hlen : match r1 with Some got => (length got <= m)%nat /\ got ++ iq_content q1 = iq_content q
                             | None => iq_content q1 = iq_content q end).
  { destruct r1 as [got|]; [|destruct Hr; congruence]. destruct Hr as [-> ->].
    rewrite take_drop, length_take. split; [lia|done]. }
  destruct r1 as [got|]; cbn in H.
  - destruct H as (? & s3 & HR3 & -> & ->). destruct Hlen as [Hlm Hgot].
    eapply reading_grown; [|by eapply HR]. exists q1, a. cbn. do 2 (split; [done|]). split.
    + rewrite length_app. lia.
    + by rewrite <- app_assoc, Hgot.
  - destruct H as (msg & s3 & H & -> & ->).
    assert (Hrd3 : reading n c bs m s3).
    { eapply reading_grown; [exists q1, a; by rewrite Hlen|].
      eapply (exec_lift_rel (K := ch_system) R (grown qp)), H; [|exact HR].
      intros. apply grown_same, queue_inj. }
    destruct (msg =? MSG_OK); [done|by apply Hend].
Qed.


(** *** Output *)

Lemma oq_append_ok b s q : queue s qp = Some q -> oq_ok q -> oqIsFullI q = false ->
  exists s' q', oq_append qp b s = Some (tt, s') /\ queue s' qp = Some q' /\ oq_ok q' /\
    oq_content q' = oq_content q ++ [b].
Proof.
  intros Hq [Hok Hle] He. unfold oq_append. erewrite run_call by by apply ioq_run.
  unfold oqIsFullI in He. apply Nat.eqb_neq in He. unfold oqGetFullI in *.
  destruct (put_byte_ok (q_counter q - 1) _ b q Hok) as (q' & E & Hq' & Hc & Hcont & Hs); [lia|].
  msimpl. erewrite run_call by apply set_ioq_run.
  destruct (Hnotify (with_queue qp q' s)) as (s' & E' & Hs').
  exists s', q'. rewrite Hs', queue_with. unfold oq_ok, oq_content, oqGetFullI in *. rewrite Hs, Hc.
  replace (qSizeX q - (q_counter q - 1))%nat with (Datatypes.S (qSizeX q - q_counter q)) by lia.
  split; [done|]. do 2 (split; [done || (split; [done|lia])|]). done.
Qed.

(** [oqPutTimeout] puts the byte behind those in the queue, at once when there is room.
    Otherwise it waits; whatever the transmitter takes meanwhile, it appends the byte once and
    returns [MSG_OK], or returns an error and then has written nothing. *)
Theorem oqPutTimeout_ok b timeout s q : queue s qp = Some q -> oq_ok q ->
  ((length (oq_content q) < qSizeX q)%nat ->
    exists s' q', exec alone (oqPutTimeout qp b timeout) s MSG_OK s' /\
      queue s' qp = Some q' /\ oq_ok q' /\ oq_content q' = oq_content q ++ [b]) /\
  (forall R m s', (forall w s s', R w s s' -> drained qp s s') ->
    exec R (oqPutTimeout qp b timeout) s m s' ->
    exists q' n, queue s' qp = Some q' /\ oq_ok q' /\
      (m = MSG_OK /\ (exists j, oq_content q' = drop n (drop j (oq_content q) ++ [b])) \/
       m < MSG_OK /\ oq_content q' = drop n (oq_content q))).
Proof.
  intros Hq Hok. split.
  - intros Hroom. rewrite oq_content_length in Hroom.
    assert (He : oqIsFullI q = false) by (apply Nat.eqb_neq; destruct Hok; lia).
    destruct (oq_append_ok b s q Hq Hok He) as (s' & q' & E & Hq').
    exists s', q'. split; [|done]. exists MSG_OK, s'. split; [|by exists tt, s'].
    exists None, s. split; [by eapply wait_while_ready|]. cbn [exec]. by erewrite run_call by apply E.
  - intros R m s' HR (m' & s2 & (r & s1 & Hw & Hr) & (? & s3 & HR3 & -> & ->)).
    destruct (wait_while_exec R (drained qp) _ _ _ _ _ _
      (fun k s => drained_same qp s _ (queue_inj k s qp)) HR Hw) as [HT Hw'].
    destruct (HT q Hq Hok) as (q1 & n1 & Hq1 & Hok1 & Hc1). destruct r as [m|].
    + destruct Hr as [-> ->]. destruct (HR _ _ _ HR3 q1 Hq1 Hok1) as (q3 & n3 & Hq3 & Hok3 & Hc3).
      exists q3, (n1 + n3)%nat. rewrite Hc3, Hc1, drop_drop. auto.
    + destruct Hw' as (q1' & Hq1' & He). simplify_eq.
      destruct (oq_append_ok b s1 q1' Hq1' Hok1 He) as (s2' & q2 & E & Hq2 & Hok2 & Hc2).
      cbn [exec] in Hr. erewrite run_call in Hr by apply E. injection Hr as <- <-.
      destruct (HR _ _ _ HR3 q2 Hq2 Hok2) as (q3 & n3 & Hq3 & Hok3 & Hc3).
      exists q3, n3. do 2 (split; [done|]). left. split; [done|]. exists n1. congruence.
Qed.

Lemma write_some_ok bs s q : queue s qp = Some q -> oq_ok q -> bs <> [] ->
  exists r s' q', write_some qp bs s = Some (r, s') /\ queue s' qp = Some q' /\ oq_ok q' /\
    match r with
    | None => oq_content q' = oq_content q /\ q_counter q = 0%nat
    | Some n => n = (length bs `min` q_counter q)%nat /\ oq_content q' = oq_content q ++ take n bs
    end.
Proof.
  intros Hq [Hok Hle] Hbs. unfold write_some. erewrite run_call by by apply ioq_run.
  pose proof (oq_write_bytes q bs Hok Hle) as E. cbv zeta in E.
  set (n := (length bs `min` q_counter q)%nat) in *.
  assert (Hn : length (take n bs) = n) by (rewrite length_take; lia).
  unfold oqGetFullI in *.
  destruct (put_all_ok (take n bs) _ q Hok) as (q' & E' & Hq' & Hc & Hcont & Hs); [lia|].
  rewrite E' in E. cbn in E. msimpl. cbv beta iota. erewrite run_call by apply set_ioq_run.
  assert (Hfull : (qSizeX q' - q_counter q' = qSizeX q - q_counter q + length (take n bs))%nat) by lia.
  assert (Hok' : oq_ok q').
  { unfold oq_ok, oqGetFullI. rewrite Hfull. split; [done|lia]. }
  assert (Hcont' : oq_content q' = oq_content q ++ take n bs).
  { unfold oq_content, oqGetFullI. by rewrite Hfull. }
  destruct (Nat.eqb_spec n 0) as [Hz|Hz].
  - exists None, (with_queue qp q' s), q'. rewrite queue_with. do 3 (split; [done|]).
    rewrite Hcont', Hz, take_0, app_nil_r. split; [done|].
    subst n. destruct bs; [done|]. cbn [length] in Hz. lia.
  - destruct (Hnotify (with_queue qp q' s)) as (s' & E2 & Hs'). erewrite run_call by apply E2.
    exists (Some n), s', q'. rewrite Hs', queue_with. done.
Qed.

(** [c]: what was in the queue; of [bs], [rest] is still to be written. *)
Definition writing (c bs rest : list Z) (s : S) : Prop := exists q i done,
  queue s qp = Some q /\ oq_ok q /\ bs = done ++ rest /\ (i <= length (c ++ done))%nat /\
  oq_content q = drop i (c ++ done).

Lemma writing_drained c bs rest s s' : writing c bs rest s -> drained qp s s' -> writing c bs rest s'.
Proof.
  intros (q & i & dn & Hq & Hok & Hbs & Hi & Hc) HT.
  destruct (HT q Hq Hok) as (q' & n & Hq' & Hok' & Hc').
  exists q', ((i + n) `min` length (c ++ dn))%nat, dn. do 3 (split; [done|]). split; [lia|].
  rewrite Hc', Hc, drop_drop.
  destruct (Nat.min_spec (i + n) (length (c ++ dn))) as [[? ->]|[? ->]]; [done|].
  by rewrite !drop_ge by lia.
Qed.

Lemma write_turn_ok R c bs timeout rest s r s' : (forall w s s', R w s s' -> drained qp s s') ->
  writing c bs rest s -> exec R (write_turn qp (length bs) timeout rest) s r s' ->
  match r with
  | inl rest' => writing c bs rest' s'
  | inr n => (n <= length bs)%nat /\ writing c bs (drop n bs) s'
  end.
Proof.
  intros HR Hwr. unfold write_turn.
  assert (Hend : forall s, writing c bs rest s ->
    (length bs - length rest <= length bs)%nat /\ writing c bs (drop (length bs - length rest) bs) s).
  { intros s0 (q & i & dn & Hq & Hok & Hbs & Hi). split; [lia|]. exists q, i, dn.
    do 2 (split; [done|]). split; [|done]. rewrite Hbs at 1. f_equal.
    rewrite Hbs, length_app. replace (_ - _)%nat with (length dn) by lia. by rewrite drop_app_length. }
  destruct (Nat.ltb_spec 0 (length rest)) as [Hm|_].
  2: { intros [-> ->]. by apply Hend. }
  pose proof Hwr as (q & i & dn & Hq & Hok & Hbs & Hi & Hc).
  destruct (write_some_ok rest s q Hq Hok) as (r1 & s1 & q1 & E & Hq1 & Hok1 & Hr);
    [intros ->; cbn in Hm; lia|].
  cbn [exec mbind prog_bind]. intros (r2 & s2 & E2 & H). rewrite E in E2. injection E2 as <- <-.
  destruct r1 as [n|]; cbn in H.
  - destruct H as (? & s3 & HR3 & -> & ->). destruct Hr as [Hn Hr].
    eapply writing_drained; [|by eapply HR]. exists q1, i, (dn ++ take n rest). do 2 (split; [done|]).
    split; [by rewrite <- app_assoc, take_drop|]. rewrite app_assoc, length_app. split; [lia|].
    rewrite Hr, Hc. symmetry. by apply drop_app_le.
  - destruct H as (msg & s3 & H & -> & ->). destruct Hr as [Hr _].
    assert (Hw3 : writing c bs rest s3).
    { eapply writing_drained; [exists q1, i, dn; by rewrite Hr|].
      eapply (exec_lift_rel (K := ch_system) R (drained qp)), H; [|exact HR].
      intros. apply drained_same, queue_inj. }
    destruct (msg =? MSG_OK); [done|by apply Hend].
Qed.

(** C12: [oqWriteTimeout] writes a prefix of its bytes, once and in order, behind what was in
    the queue, whatever the transmitter takes meanwhile, and returns its length.  When there is
    room for all of them it writes them at once. *)
Theorem oqWriteTimeout_ok bs timeout s q : queue s qp = Some q -> oq_ok q ->
  (forall R n s', (forall w s s', R w s s' -> drained qp s s') ->
    exec R (oqWriteTimeout qp bs timeout) s n s' ->
    (n <= length bs)%nat /\ exists q' i, queue s' qp = Some q' /\ oq_ok q' /\
      oq_content q' = drop i (oq_content q ++ take n bs)) /\
  ((length bs <= q_counter q)%nat -> exists s' q',
    exec alone (oqWriteTimeout qp bs timeout) s (length bs) s' /\
    queue s' qp = Some q' /\ oq_ok q' /\ oq_content q' = oq_content q ++ bs).
Proof.
  intros Hq Hok. split.
  - intros R n s' HR (n' & s2 & Hloop & (? & s3 & HR3 & -> & ->)).
    assert (HQ : (n' <= length bs)%nat /\ writing (oq_content q) bs (drop n' bs) s2).
    { eapply (loop_exec_inv (writing (oq_content q) bs)
        (fun n s => (n <= length bs)%nat /\ writing (oq_content q) bs (drop n bs) s)), Hloop.
      + intros x0 s0 r s1 H0 H1. exact (write_turn_ok R _ bs _ x0 s0 r s1 HR H0 H1).
      + exists q, O, []. rewrite app_nil_r. by do 3 (split; [done|]); split; [lia|]. }
    destruct HQ as [Hn HQ]. split; [done|].
    destruct (writing_drained _ _ _ _ _ HQ (HR _ _ _ HR3)) as (q3 & i & dn & ? & ? & Hbs & _ & Hc).
    exists q3, i. do 2 (split; [done|]). rewrite Hc. do 2 f_equal.
    rewrite <- (take_drop n' bs) in Hbs at 1. by apply app_inv_tail in Hbs.
  - intros Hroom. destruct (decide (bs = [])) as [->|Hbs].
    + exists s, q. rewrite app_nil_r. split; [|done]. exists O, s.
      split; [by apply loop_done|]. by exists tt, s.
    + destruct (write_some_ok bs s q Hq Hok Hbs) as (r & s1 & q1 & E & Hq1 & Hok1 & Hr).
      destruct r as [n|]; [|destruct Hr, bs; cbn in *; [done|lia]]. destruct Hr as [Hn Hc].
      replace n with (length bs) in * by lia. rewrite take_ge in Hc by done.
      exists s1, q1. split; [|done]. exists (length bs), s1. split; [|by exists tt, s1].
      apply (loop_more _ _ _ [] s1).
      * unfold write_turn. destruct (Nat.ltb_spec 0 (length bs)); [|destruct bs; cbn in *; [done|lia]].
        do 2 eexists. split; [exact E|]. exists tt, s1. split; [done|]. by rewrite drop_all.
      * apply loop_done. unfold write_turn. cbn. by rewrite Nat.sub_0_r.
Qed.
End notify.
End operations_spec.

End HalQueues.
