(* ===== verification/HalSerial.v ===== *)
(** * The serial driver: [os/hal/src/hal_serial.c]

    A driver is a pair of I/O queues, an event source and a state; the interrupt
    handlers of the UART move bytes with [sdIncomingDataI] and [sdRequestDataI].
    The low level driver is an interface, [SerialLLD]. *)

From S2P Require Import Prelude CLib Prog ThreadQueue Kernel ChVt ChSchd ChThreads ChEvents HalQueues.

Inductive sdstate_t := SD_UNINIT | SD_STOP | SD_READY.

(** [struct SerialDriver]: the addresses of its event source and of its queues. *)
Record SerialDriver := SerialDrv {
  sd_state : sdstate_t;
  sd_event : nat;
  sd_iqueue : nat;
  sd_oqueue : nat
}.
Definition set_sd_state (st : sdstate_t) (d : SerialDriver) : SerialDriver :=
  SerialDrv st (sd_event d) (sd_iqueue d) (sd_oqueue d).

Abbreviation sdrivers := (gmap nat SerialDriver).

(** [sd_lld_start], [sd_lld_stop]. *)
Class SerialLLD (S : Type) := {
  sd_lld_start : nat -> M S unit;
  sd_lld_stop : nat -> M S unit
}.

Module HalSerial.
Import ChSchd ChThreads ChEvents HalQueues.

Definition SERIAL_BUFFERS_SIZE : nat := 16.
Definition CHN_INPUT_AVAILABLE : Z := 4.
Definition CHN_OUTPUT_EMPTY : Z := 8.
Definition SD_QUEUE_FULL_ERROR : Z := 1024.
Definition CHN_CTL_INVALID : Z := 0.
Definition CHN_CTL_NOP : Z := 1.

Section driver.
Context {S : Type} `{!Component S ch_system, !Component S io_queues, !Component S sdrivers}.
Context `{!QNotify S, !SerialLLD S}.

Definition sdrv (sdp : nat) : M S SerialDriver := deref (fun s => proj (K := sdrivers) s !! sdp).
Definition set_sdrv (sdp : nat) (d : SerialDriver) : M S unit := alter (insert (M := sdrivers) sdp d).

(** The driver's methods, as a channel. *)
Definition _writet (sdp : nat) (bs : list Z) (timeout : Z) : prog S nat :=
  d ← Atom (sdrv sdp); oqWriteTimeout (sd_oqueue d) bs timeout.
Definition _readt (sdp n : nat) (timeout : Z) : prog S (list Z) :=
  d ← Atom (sdrv sdp); iqReadTimeout (sd_iqueue d) n timeout.
Definition _putt (sdp : nat) (b timeout : Z) : prog S Z :=
  d ← Atom (sdrv sdp); oqPutTimeout (sd_oqueue d) b timeout.
Definition _gett (sdp : nat) (timeout : Z) : prog S Z :=
  d ← Atom (sdrv sdp); iqGetTimeout (sd_iqueue d) timeout.
Definition _write (sdp : nat) (bs : list Z) : prog S nat := _writet sdp bs TIME_INFINITE.
Definition _read (sdp n : nat) : prog S (list Z) := _readt sdp n TIME_INFINITE.
Definition _put (sdp : nat) (b : Z) : prog S Z := _putt sdp b TIME_INFINITE.
Definition _get (sdp : nat) : prog S Z := _gett sdp TIME_INFINITE.

(** [SD_LLD_IMPLEMENTS_CTL] is not defined. *)
Definition _ctl (sdp : nat) (operation : Z) : M S Z := mret MSG_OK.
Definition sdControl (sdp : nat) (operation : Z) : M S Z := _ctl sdp operation.

Definition sdObjectInit (sdp : nat) (d : SerialDriver) : M S unit :=
  liftM (chEvtObjectInit (sd_event d));;
  set_sdrv sdp (set_sd_state SD_STOP d);;
  iqObjectInit (sd_iqueue d) (replicate SERIAL_BUFFERS_SIZE 0);;
  oqObjectInit (sd_oqueue d) (replicate SERIAL_BUFFERS_SIZE 0).

Definition sdStart (sdp : nat) : prog S unit :=
  locked (Atom (
    sd_lld_start sdp;;
    d ← sdrv sdp;
    set_sdrv sdp (set_sd_state SD_READY d))).

Definition sdStop (sdp : nat) : prog S unit :=
  locked (
    Atom (
      sd_lld_stop sdp;;
      d ← sdrv sdp;
      set_sdrv sdp (set_sd_state SD_STOP d);;
      oqResetI (sd_oqueue d);;
      iqResetI (sd_iqueue d));;
    lift chSchRescheduleS).

Definition chnAddFlagsI (sdp : nat) (flags : Z) : M S unit :=
  d ← sdrv sdp; liftM (chEvtBroadcastFlagsI (sd_event d) flags).

Definition sdIncomingDataI (sdp : nat) (b : Z) : M S unit :=
  d ← sdrv sdp;
  q ← ioq (sd_iqueue d);
  (if iqIsEmptyI q then chnAddFlagsI sdp CHN_INPUT_AVAILABLE else mret tt);;
  r ← iqPutI (sd_iqueue d) b;
  if r <? MSG_OK then chnAddFlagsI sdp SD_QUEUE_FULL_ERROR else mret tt.

Definition sdRequestDataI (sdp : nat) : M S Z :=
  d ← sdrv sdp;
  b ← oqGetI (sd_oqueue d);
  (if b <? MSG_OK then chnAddFlagsI sdp CHN_OUTPUT_EMPTY else mret tt);;
  mret b.

Definition sdPutWouldBlock (sdp : nat) : prog S bool :=
  locked (Atom (d ← sdrv sdp; q ← ioq (sd_oqueue d); mret (oqIsFullI q))).
Definition sdGetWouldBlock (sdp : nat) : prog S bool :=
  locked (Atom (d ← sdrv sdp; q ← ioq (sd_iqueue d); mret (iqIsEmptyI q))).
End driver.

(** ** Reception *)

Section reception.
Context {S : Type} `{!Component S ch_system, !Component S io_queues, !Component S sdrivers}.
Context `{!Apart S ch_system io_queues, !Apart S ch_system sdrivers, !Apart S io_queues sdrivers}.
Implicit Types (s : S).

Definition driver (s : S) (sdp : nat) : option SerialDriver := proj (K := sdrivers) s !! sdp.

(** The listeners of a source are well formed. *)
Definition source_ok (s : S) (esp : nat) (l : list nat) : Prop :=
  k_srcs (kern s) !! esp = Some l /\ NoDup l /\ forall elp, elp ∈ l -> listens (kern s) elp.

Lemma add_flags_ok sdp flags s d l : driver s sdp = Some d -> evt_ok (kern s) ->
  source_ok s (sd_event d) l ->
  exists s', chnAddFlagsI sdp flags s = Some (tt, s') /\ evt_ok (kern s') /\
    driver s' sdp = Some d /\ queue s' = queue s /\ k_queues (kern s') = k_queues (kern s) /\
    forall x, epending_of (kern s') x =
      (fun e => Z.lor e (posted (k_lsts (kern s)) flags x l)) <$> epending_of (kern s) x.
Proof.
  intros Hd Hok (Hs & _ & Hl). destruct (broadcast_loop flags l (kern s) Hok Hl) as (k' & E & Hok' & He & _).
  exists (inj k' s).
  assert (Hk : kern (inj k' s) = k') by apply proj_inj. rewrite Hk.
  unfold chnAddFlagsI, sdrv. split.
  { unfold driver in Hd. msimpl. apply liftM_run. unfold chEvtBroadcastFlagsI, source. by msimpl. }
  split; [done|]. unfold driver, queue. rewrite !(apart_l k'). split; [done|]. split; [done|].
  split; [|done]. by eapply (broadcast_frame k_queues flags l (k_queues (kern s))), E.
Qed.

(** Nobody waits for the byte. *)
Lemma iqPutI_quiet qp b s q : queue s qp = Some q -> iq_ok q ->
  queue_of (kern s) (q_io qp) = [] ->
  if (length (iq_content q) =? qSizeX q)%nat then iqPutI qp b s = Some (MSG_TIMEOUT, s)
  else exists q', iqPutI qp b s = Some (MSG_OK, with_queue qp q' s) /\ iq_ok q' /\
    iq_content q' = iq_content q ++ [b].
Proof.
  intros Hq Hok Hw. rewrite iq_content_length. unfold iqPutI.
  erewrite run_call by by apply ioq_run. rewrite iqIsFullI_eq by done. pose proof (qo_n _ _ Hok).
  destruct (Nat.eqb_spec (q_counter q) (qSizeX q)) as [He|He]; [done|]. cbn [negb].
  destruct (put_byte_ok (Datatypes.S (q_counter q)) _ b q Hok) as (q' & E & Hq' & Hc & Hcont & _); [lia|].
  msimpl. erewrite run_call by apply set_ioq_run. exists q'. split.
  - erewrite run_call; [reflexivity|]. unfold liftM. fold (kern (with_queue qp q' s)).
    rewrite kern_with. unfold chThdDequeueNextI, queue_notempty. msimpl. rewrite Hw. cbn.
    rewrite <- (kern_with qp q' s). unfold kern, mret, M_ret. by rewrite inj_proj.
  - unfold iq_ok, iq_content. by rewrite Hc.
Qed.

(** What the handler tells the listeners of the driver. *)
Definition incoming_flags (q : io_queue) : option Z :=
  if (length (iq_content q) =? 0)%nat then Some CHN_INPUT_AVAILABLE
  else if (length (iq_content q) =? qSizeX q)%nat then Some SD_QUEUE_FULL_ERROR
  else None.

(** C38: a received byte is appended to the receive queue, or dropped when the queue is full.
    The listeners are told [CHN_INPUT_AVAILABLE] when the queue was empty and
    [SD_QUEUE_FULL_ERROR] when the byte is dropped, and nothing otherwise. *)
Theorem sdIncomingDataI_ok sdp b s d q l : driver s sdp = Some d ->
  queue s (sd_iqueue d) = Some q -> iq_ok q -> evt_ok (kern s) ->
  queue_of (kern s) (q_io (sd_iqueue d)) = [] -> source_ok s (sd_event d) l ->
  exists s' q', sdIncomingDataI sdp b s = Some (tt, s') /\
    queue s' (sd_iqueue d) = Some q' /\ iq_ok q' /\ evt_ok (kern s') /\
    iq_content q' = (if (length (iq_content q) =? qSizeX q)%nat then iq_content q
                     else iq_content q ++ [b]) /\
    forall x, epending_of (kern s') x =
      (fun e => match incoming_flags q with
                | Some f => Z.lor e (posted (k_lsts (kern s)) f x l)
                | None => e
                end) <$> epending_of (kern s) x.
Proof.
  intros Hd Hq Hok He Hw Hs.
  pose proof (iqPutI_quiet (sd_iqueue d) b) as Hput. pose proof (qo_rd _ _ Hok) as Hsize.
  unfold sdIncomingDataI, sdrv. unfold driver in Hd. msimpl.
  erewrite run_call by by apply ioq_run. fold (driver s sdp) in Hd.
  unfold incoming_flags. unfold iqIsEmptyI. rewrite <- iq_content_length.
  destruct (Nat.eqb_spec (length (iq_content q)) 0) as [Hz|Hz].
  - destruct (add_flags_ok sdp CHN_INPUT_AVAILABLE s d l Hd He Hs) as
      (s1 & E1 & He1 & _ & Hq1 & Hw1 & Hp1). erewrite run_call by apply E1.
    specialize (Hput s1 q). rewrite Hq1 in Hput. unfold queue_of in Hput, Hw. rewrite Hw1 in Hput.
    specialize (Hput Hq Hok Hw). rewrite (proj2 (Nat.eqb_neq _ _)) in Hput |- * by lia.
    destruct Hput as (q' & E2 & Hok' & Hc'). erewrite run_call by apply E2. cbn.
    exists (with_queue (sd_iqueue d) q' s1), q'. rewrite kern_with, queue_with. done.
  - msimpl. specialize (Hput s q Hq Hok Hw).
    destruct (Nat.eqb_spec (length (iq_content q)) (qSizeX q)).
    + erewrite run_call by apply Hput. cbn.
      destruct (add_flags_ok sdp SD_QUEUE_FULL_ERROR s d l Hd He Hs) as
        (s1 & E1 & He1 & _ & Hq1 & Hw1 & Hp1).
      exists s1, q. by rewrite E1, Hq1.
    + destruct Hput as (q' & E2 & Hok' & Hc'). erewrite run_call by apply E2. cbn.
      exists (with_queue (sd_iqueue d) q' s), q'. rewrite kern_with, queue_with.
      do 5 (split; [done|]). intros x. by destruct (epending_of (kern s) x).
Qed.
End reception.

End HalSerial.
