(* ===== verification/HalMmcsd.v ===== *)
(** * Registers of MMC and SD cards: [os/hal/src/hal_mmcsd.c]

    Bit fields of the 128-bit registers of a card, which the driver keeps as four words,
    the least significant first, and the capacity computed from them.  A shift by 32 or
    more is undefined in C; here it is what the shift instructions of the processor do. *)

From S2P Require Import Prelude CLib.

Module HalMmcsd.
#[local] Abbreviation take := firstn.

(** [x << n] and [x >> n] of a [uint32_t] by a register: the low byte of [n] counts, and
    the result is 0 from 32 on. *)
Definition shl32 (x n : Z) : Z := if u8 n <? 32 then u32 (Z.shiftl x (u8 n)) else 0.
Definition shr32 (x n : Z) : Z := if u8 n <? 32 then Z.shiftr x (u8 n) else 0.

Definition MMCSD_BLOCK_SIZE : Z := 512.

(** A slice: the last bit and the first bit. *)
Definition MMCSD_CSD_10_CSD_STRUCTURE_SLICE : Z * Z := (127, 126).
Definition MMCSD_CSD_10_C_SIZE_SLICE : Z * Z := (73, 62).
Definition MMCSD_CSD_10_C_SIZE_MULT_SLICE : Z * Z := (49, 47).
Definition MMCSD_CSD_10_READ_BL_LEN_SLICE : Z * Z := (83, 80).
Definition MMCSD_CSD_20_C_SIZE_SLICE : Z * Z := (69, 48).

Definition _mmcsd_get_slice (data : list Z) (slice : Z * Z) : option Z :=
  let '(end_, start) := slice in
  let startidx := start / 32 in
  let startoff := start mod 32 in
  let endidx := end_ / 32 in
  let endmask := u32 (shl32 1 (end_ mod 32 + 1) - 1) in
  lo ← data !! Z.to_nat startidx;
  if startidx <? endidx then
    hi ← data !! Z.to_nat endidx;
    Some (Z.lor (shr32 lo startoff) (shl32 (Z.land hi endmask) (u32 (32 - startoff))))
  else Some (shr32 (Z.land lo endmask) startoff).

(** The number of blocks of 512 bytes, 0 when the format is not known. *)
Definition _mmcsd_get_capacity (csd : list Z) : option Z :=
  structure ← _mmcsd_get_slice csd MMCSD_CSD_10_CSD_STRUCTURE_SLICE;
  if structure =? 0 then
    a ← _mmcsd_get_slice csd MMCSD_CSD_10_C_SIZE_SLICE;
    b ← _mmcsd_get_slice csd MMCSD_CSD_10_C_SIZE_MULT_SLICE;
    c ← _mmcsd_get_slice csd MMCSD_CSD_10_READ_BL_LEN_SLICE;
    Some (shl32 (shl32 (u32 (a + 1)) (u32 (b + 2))) (u32 (c - 9)))
  else if structure =? 1 then
    a ← _mmcsd_get_slice csd MMCSD_CSD_20_C_SIZE_SLICE;
    Some (u32 (1024 * u32 (a + 1)))
  else Some 0.

(** The capacity of an MMC card from its 512 bytes of extended CSD. *)
Definition _mmcsd_get_capacity_ext (ext_csd : list Z) : option Z :=
  b3 ← ext_csd !! 215%nat;
  b2 ← ext_csd !! 214%nat;
  b1 ← ext_csd !! 213%nat;
  b0 ← ext_csd !! 212%nat;
  Some (u32 (u32 (u32 (Z.shiftl b3 24 + Z.shiftl b2 16) + Z.shiftl b1 8) + b0)).

(** ** The register as one number *)

(** The number whose words are [data], the least significant first. *)
Fixpoint number (data : list Z) : Z :=
  match data with
  | [] => 0
  | d :: data => Z.lor d (Z.shiftl (number data) 32)
  end.

(** The bits from [start] to [end_] of a number. *)
Definition bits (x : Z) (slice : Z * Z) : Z := Z.land (Z.shiftr x (snd slice)) (Z.ones (fst slice - snd slice + 1)).

Definition word (d : Z) : Prop := 0 <= d < 2 ^ 32.

Lemma word_high d n : word d -> 32 <= n -> Z.testbit d n = false.
Proof.
  intros [H0 H] Hn. destruct (Z.eq_dec d 0) as [->|]; [apply Z.testbit_0_l|].
  apply Z.bits_above_log2; [lia|]. enough (Z.log2 d < 32) by lia. apply Z.log2_lt_pow2; lia.
Qed.

Lemma number_testbit data : Forall word data -> forall n, 0 <= n ->
  Z.testbit (number data) n = match data !! Z.to_nat (n / 32) with Some d => Z.testbit d (n mod 32) | None => false end.
Proof.
  induction 1 as [|d data Hd H IH]; intros n Hn; cbn [number]; [by rewrite Z.testbit_0_l|].
  rewrite Z.lor_spec, Z.shiftl_spec by lia. destruct (Z.lt_ge_cases n 32) as [Hlt|Hge].
  - rewrite (Z.testbit_neg_r _ (n - 32)), orb_false_r by lia.
    by rewrite Z.div_small, Z.mod_small by lia.
  - rewrite (word_high d) by done. rewrite IH by lia. cbn [orb].
    replace (n / 32) with (Z.succ ((n - 32) / 32)).
    2: { replace n with ((n - 32) + 1 * 32) at 2 by lia. rewrite Z.div_add by lia. lia. }
    rewrite Z2Nat.inj_succ by (apply Z.div_pos; lia). cbn.
    replace (n mod 32) with ((n - 32) mod 32); [done|].
    replace n with ((n - 32) + 1 * 32) at 2 by lia. by rewrite Z.mod_add by lia.
Qed.

Lemma endmask_ok e : 0 <= e < 32 -> u32 (shl32 1 (e + 1) - 1) = Z.ones (e + 1).
Proof.
  intros He. unfold shl32. rewrite u8_id by lia. destruct (Z.ltb_spec (e + 1) 32).
  - assert (1 <= 2 ^ (e + 1) < 2 ^ 32).
    { split; [pose proof (Z.pow_pos_nonneg 2 (e + 1)); lia|apply Z.pow_lt_mono_r; lia]. }
    rewrite Z.shiftl_mul_pow2, Z.mul_1_l by lia. rewrite (u32_id (2 ^ (e + 1))), u32_id by lia.
    rewrite Z.ones_equiv. lia.
  - by replace e with 31 by lia.
Qed.
Lemma u32_testbit x n : 0 <= n -> Z.testbit (u32 x) n = (n <? 32) && Z.testbit x n.
Proof. intros Hn. unfold u32. rewrite Z.testbit_mod_pow2 by lia. done. Qed.

(** A bit of a field that is in the words [lo] at [i] and [hi]. *)
Lemma bits_testbit data e s n : Forall word data -> 0 <= s -> s <= e -> 0 <= n ->
  Z.testbit (bits (number data) (e, s)) n =
    (n <=? e - s) && match data !! Z.to_nat ((s + n) / 32) with
                     | Some d => Z.testbit d ((s + n) mod 32) | None => false end.
Proof.
  intros Hd Hs He Hn. unfold bits. cbn [fst snd].
  rewrite Z.land_spec, Z.testbit_ones, Z.shiftr_spec, number_testbit by (done || lia).
  rewrite andb_comm. rewrite (Z.add_comm n s).
  destruct (Z.leb_spec 0 n); [|lia]. destruct (Z.ltb_spec n (e - s + 1)), (Z.leb_spec n (e - s)); done || lia.
Qed.

(** A slice is the field of the register between its two bits, for every slice of at most
    32 bits, within a word or across two, up to the last bit. *)
Lemma get_slice_ok data e s : Forall word data -> 0 <= s <= e -> e - s < 32 -> e < 32 * Z.of_nat (length data) ->
  _mmcsd_get_slice data (e, s) = Some (bits (number data) (e, s)).
Proof.
  intros Hd Hs Hw He. unfold _mmcsd_get_slice.
  pose proof (Z.div_mod s 32 ltac:(lia)) as Ds. pose proof (Z.mod_pos_bound s 32 ltac:(lia)) as Ms.
  pose proof (Z.div_mod e 32 ltac:(lia)) as De. pose proof (Z.mod_pos_bound e 32 ltac:(lia)) as Me.
  assert (0 <= s / 32) by (apply Z.div_pos; lia).
  set (i := s / 32) in *. set (so := s mod 32) in *. set (j := e / 32) in *. set (eo := e mod 32) in *.
  rewrite endmask_ok by lia.
  destruct (lookup_lt_is_Some_2 data (Z.to_nat i)) as [lo Hlo]; [lia|].
  destruct (lookup_lt_is_Some_2 data (Z.to_nat j)) as [hi Hhi]; [lia|].
  pose proof (Forall_lookup_1 _ _ _ _ Hd Hlo) as Wlo. pose proof (Forall_lookup_1 _ _ _ _ Hd Hhi) as Whi.
  rewrite Hlo. cbn [mbind option_bind]. unfold shr32. rewrite (u8_id so) by lia.
  destruct (Z.ltb_spec so 32); [|lia].
  assert (Hin : forall n, 0 <= n -> so + n < 32 -> (s + n) / 32 = i /\ (s + n) mod 32 = so + n).
  { intros n Hn0 Hn. split; symmetry; [apply Z.div_unique with (so + n)|apply Z.mod_unique with i]; lia. }
  assert (Hout : forall n, 32 <= so + n < 64 -> (s + n) / 32 = i + 1 /\ (s + n) mod 32 = so + n - 32).
  { intros n Hn. split; symmetry; [apply Z.div_unique with (so + n - 32)|apply Z.mod_unique with (i + 1)]; lia. }
  destruct (Z.ltb_spec i j) as [Hij|Hij].
  - rewrite Hhi. cbn [mbind option_bind]. f_equal. apply Z.bits_inj'. intros n Hn.
    rewrite bits_testbit by (done || lia). rewrite Z.lor_spec, Z.shiftr_spec by lia.
    unfold shl32. rewrite (u32_id (32 - so)), u8_id by lia. destruct (Z.ltb_spec (32 - so) 32); [|lia].
    rewrite u32_testbit, Z.shiftl_spec, Z.land_spec by lia.
    destruct (Z.lt_ge_cases (so + n) 32) as [Hlt|Hge].
    + destruct (Hin n Hn Hlt) as [-> ->]. rewrite Hlo, (Z.testbit_neg_r _ (n - (32 - so))) by lia.
      rewrite andb_false_l, andb_false_r, orb_false_r, (Z.add_comm n). by destruct (Z.leb_spec n (e - s)); [|lia].
    + rewrite (word_high lo) by (done || lia). cbn [orb].
      destruct (Z.leb_spec n (e - s)) as [Hle|Hgt]; cbn [andb].
      * destruct (Hout n ltac:(lia)) as [-> ->]. replace (i + 1) with j by lia. rewrite Hhi.
        destruct (Z.ltb_spec n 32); [|lia]. cbn [andb]. rewrite Z.ones_spec_low, andb_true_r by lia. f_equal. lia.
      * rewrite Z.ones_spec_high by lia. by rewrite !andb_false_r.
  - assert (i = j) as <- by lia. f_equal. apply Z.bits_inj'. intros n Hn.
    rewrite bits_testbit by (done || lia). rewrite Z.shiftr_spec, Z.land_spec by lia.
    destruct (Z.leb_spec n (e - s)) as [Hle|Hgt]; cbn [andb].
    + destruct (Hin n Hn ltac:(lia)) as [-> ->]. rewrite Hlo, Z.ones_spec_low, andb_true_r by lia. f_equal. lia.
    + rewrite Z.ones_spec_high by lia. apply andb_false_r.
Qed.

Lemma bits_range x e s : 0 <= s <= e -> 0 <= bits x (e, s) < 2 ^ (e - s + 1).
Proof.
  intros H. unfold bits. cbn [fst snd]. rewrite Z.land_ones by lia. apply Z.mod_pos_bound. apply Z.pow_pos_nonneg; lia.
Qed.

Lemma shl32_small x n : 0 <= x -> 0 <= n < 32 -> x * 2 ^ n < 2 ^ 32 -> shl32 x n = x * 2 ^ n.
Proof.
  intros Hx Hn H. unfold shl32. rewrite u8_id by lia. destruct (Z.ltb_spec n 32); [|lia].
  rewrite Z.shiftl_mul_pow2, u32_id; [done| |lia]. split; [|done]. pose proof (Z.pow_pos_nonneg 2 n). nia.
Qed.
Lemma capacity_v1 a b c : 0 <= a < 2 ^ 12 -> 0 <= b < 2 ^ 3 -> 0 <= c < 2 ^ 4 ->
  shl32 (shl32 (u32 (a + 1)) (u32 (b + 2))) (u32 (c - 9)) =
    if c <? 9 then 0 else (a + 1) * 2 ^ (b + 2) * 2 ^ c / 512.
Proof.
  intros Ha Hb Hc. destruct (Z.ltb_spec c 9) as [Hlt|Hge].
  - unfold shl32 at 1. replace (u8 (u32 (c - 9))) with (c + 247); [by destruct (Z.ltb_spec (c + 247) 32); [lia|]|].
    unfold u8, u32. assert (Hcase : c = 0 \/ c = 1 \/ c = 2 \/ c = 3 \/ c = 4 \/ c = 5 \/ c = 6 \/ c = 7 \/ c = 8) by lia.
    by destruct Hcase as [->|[->|[->|[->|[->|[->|[->|[->| ->]]]]]]]].
  - assert (P1 : 1 <= 2 ^ (b + 2) <= 2 ^ 9) by (split; [pose proof (Z.pow_pos_nonneg 2 (b + 2)); lia|apply Z.pow_le_mono_r; lia]).
    assert (P2 : 1 <= 2 ^ (c - 9) <= 2 ^ 6) by (split; [pose proof (Z.pow_pos_nonneg 2 (c - 9)); lia|apply Z.pow_le_mono_r; lia]).
    assert (P3 : (a + 1) * 2 ^ (b + 2) <= 2 ^ 12 * 2 ^ 9) by nia.
    rewrite !u32_id by lia. rewrite (shl32_small (a + 1)) by lia. rewrite shl32_small by (lia || nia).
    replace (2 ^ c) with (2 ^ (c - 9) * 512); [|change 512 with (2 ^ 9); rewrite <- Z.pow_add_r by lia; f_equal; lia].
    by rewrite Z.mul_assoc, Z.div_mul by lia.
Qed.

(** The capacity in blocks of 512 bytes that a CSD register denotes: for version 1
    [(C_SIZE + 1) * 2 ^ (C_SIZE_MULT + 2) * 2 ^ READ_BL_LEN / 512], where a block length
    below 512 is taken for no capacity; for version 2 [(C_SIZE + 1) * 1024], where 2 TB
    wrap to 0; and 0, a format error, for the reserved versions. *)
Definition card_capacity (csd : Z) : Z :=
  let field := bits csd in
  let c_size := field (73, 62) in
  let c_size_mult := field (49, 47) in
  let read_bl_len := field (83, 80) in
  match field (127, 126) with
  | 0 => if read_bl_len <? 9 then 0 else (c_size + 1) * 2 ^ (c_size_mult + 2) * 2 ^ read_bl_len / 512
  | 1 => ((field (69, 48) + 1) * 1024) mod 2 ^ 32
  | _ => 0
  end.

Lemma get_capacity_bits csd : length csd = 4%nat -> Forall word csd ->
  _mmcsd_get_capacity csd = Some (card_capacity (number csd)).
Proof.
  intros Hl Hd. unfold _mmcsd_get_capacity, card_capacity. cbv zeta.
  unfold MMCSD_CSD_10_CSD_STRUCTURE_SLICE, MMCSD_CSD_10_C_SIZE_SLICE, MMCSD_CSD_10_C_SIZE_MULT_SLICE,
    MMCSD_CSD_10_READ_BL_LEN_SLICE, MMCSD_CSD_20_C_SIZE_SLICE.
  rewrite !get_slice_ok by (done || lia). cbn [mbind option_bind].
  pose proof (bits_range (number csd) 127 126 ltac:(lia)). pose proof (bits_range (number csd) 73 62 ltac:(lia)).
  pose proof (bits_range (number csd) 49 47 ltac:(lia)). pose proof (bits_range (number csd) 83 80 ltac:(lia)).
  pose proof (bits_range (number csd) 69 48 ltac:(lia)).
  generalize dependent (bits (number csd) (127, 126)). intros v Hv.
  generalize dependent (bits (number csd) (73, 62)). intros a Ha.
  generalize dependent (bits (number csd) (49, 47)). intros b Hb.
  generalize dependent (bits (number csd) (83, 80)). intros c Hc.
  generalize dependent (bits (number csd) (69, 48)). intros d Hd2.
  assert (Hcase : v = 0 \/ v = 1 \/ v = 2 \/ v = 3) by lia.
  destruct Hcase as [->|[->|[->| ->]]]; cbn [Z.eqb]; [|rewrite (u32_id (d + 1)) by lia; unfold u32; do 2 f_equal; lia|done..].
  f_equal. by apply capacity_v1.
Qed.

(** C37: The capacity the driver computes from the four words of a CSD register is the one the
    register denotes; it fits 32 bits, and no slice is read outside the register. *)
Theorem get_capacity_ok csd : length csd = 4%nat -> Forall word csd ->
  exists n, _mmcsd_get_capacity csd = Some n /\ n = card_capacity (number csd) /\ 0 <= n < 2 ^ 32.
Proof.
  intros Hl Hd. rewrite get_capacity_bits by done. eexists. split; [done|]. split; [done|].
  unfold card_capacity. cbv zeta.
  pose proof (bits_range (number csd) 73 62 ltac:(lia)) as Ha.
  pose proof (bits_range (number csd) 49 47 ltac:(lia)) as Hb.
  pose proof (bits_range (number csd) 83 80 ltac:(lia)) as Hc.
  generalize dependent (bits (number csd) (73, 62)). intros a Ha.
  generalize dependent (bits (number csd) (49, 47)). intros b Hb.
  generalize dependent (bits (number csd) (83, 80)). intros c Hc.
  destruct (bits (number csd) (127, 126)) as [|[]|]; try lia; [|apply Z.mod_pos_bound; lia].
  destruct (Z.ltb_spec c 9); [lia|].
  assert (P1 : 1 <= 2 ^ (b + 2) <= 2 ^ 9) by (split; [pose proof (Z.pow_pos_nonneg 2 (b + 2)); lia|apply Z.pow_le_mono_r; lia]).
  assert (P2 : 1 <= 2 ^ c <= 2 ^ 15) by (split; [pose proof (Z.pow_pos_nonneg 2 c); lia|apply Z.pow_le_mono_r; lia]).
  assert (P3 : (a + 1) * 2 ^ (b + 2) * 2 ^ c <= 2 ^ 12 * 2 ^ 9 * 2 ^ 15) by nia.
  split; [apply Z.div_pos; nia|apply Z.div_lt_upper_bound; lia].
Qed.
End HalMmcsd.
