(* ===== verification/AppState.v ===== *)
(** * The static objects of the application, and its interfaces to the drivers

    The kernel objects the application owns, the I/O lines of [board/board.h] it uses
    with the operations of [hal_pal.h], and its static variables by source file, in the
    record [app].  The drivers it calls are type classes: the serial driver (which
    [HalSerial.v] implements), the file system, the MMC and USB drivers. *)

From S2P Require Import Prelude CLib CDouble AtCommands Prog ThreadQueue Kernel.

(** ** Kernel objects, by their address *)

(** [SIM8D1] (source/sim8xx/sim8xx.c) *)
Definition SIM8D1_lock : nat := 0.
Definition SIM8D1_rxlock : nat := 1.
Definition SIM8D1_sync : nat := 0.
Definition SIM8D1_writer : nat := 0.
Definition SIM8D1_reader : nat := 1.
Definition dashboard_lock : nat := 2.
Definition gpsSem : nat := 1.
Definition systemMailbox : nat := 0.

(** Event sources and listeners *)
Definition besSdcardInserted : nat := 0.
Definition besSdcardRemoved : nat := 1.
Definition besUsbConnected : nat := 2.
Definition besUsbDisconnected : nat := 3.
Definition besIgnitionOn : nat := 4.
Definition besIgnitionOff : nat := 5.
Definition monitorTimerEvent : nat := 6.
Definition shell_terminated : nat := 7.
Definition sdcardInsertedListener : nat := 0.
Definition sdcardRemovedListener : nat := 1.
Definition usbConnectedListener : nat := 2.
Definition usbDisconnectedListener : nat := 3.
Definition debugShellTerminatedListener : nat := 4.
Definition timerEventListener : nat := 5.
Definition serial_event_listener : nat := 6.

(** Timers, and the callbacks they are set with *)
Definition guard_timer : vtid := vt_obj 0.
Definition monitorTimer : vtid := vt_obj 1.
Definition gpsTimer : vtid := vt_obj 2.
Definition timer_cb : vtfunc_t := vt_callback 0.
Definition monitorTimerCallback : vtfunc_t := vt_callback 1.
Definition gpsTimerCallback : vtfunc_t := vt_callback 2.

(** Threads: those of [main.c], the reader and the shell *)
Definition HeartBeatThread : tid := 1.
Definition SystemThread : tid := 2.
Definition BoardMonitorThread : tid := 3.
Definition PeripheralManagerThread : tid := 4.
Definition GpsReaderThread : tid := 5.

(** ** The I/O lines *)

Inductive ioline_t :=
  | LINE_SDC_CARD_DETECT | LINE_USB_VBUS_SENSE | LINE_WAVESHARE_POWER
  | LINE_LED_2_RED | LINE_LED_3_GREEN.
#[global] Instance ioline_eq_dec : EqDecision ioline_t.
Proof. solve_decision. Defined.

(** The input and output data registers of the ports, by line. *)
Record gpio_t := Gpio { IDR : ioline_t -> bool; ODR : ioline_t -> bool }.

Definition PAL_HIGH : bool := true.
Definition palReadLine (l : ioline_t) (g : gpio_t) : bool := IDR g l.
Definition palReadLatch (l : ioline_t) (g : gpio_t) : bool := ODR g l.
Definition palWriteLine (l : ioline_t) (b : bool) (g : gpio_t) : gpio_t :=
  Gpio (IDR g) (fun l' => if decide (l' = l) then b else ODR g l').
Definition palSetLine (l : ioline_t) : gpio_t -> gpio_t := palWriteLine l true.
Definition palClearLine (l : ioline_t) : gpio_t -> gpio_t := palWriteLine l false.
Definition palToggleLine (l : ioline_t) (g : gpio_t) : gpio_t :=
  palWriteLine l (negb (palReadLatch l g)) g.

(** ** [source/sim8xx/sim8xx.h] *)

Inductive sim8xxstate_t := SIM8XX_UNINIT | SIM8XX_STOP | SIM8XX_READY.
#[global] Instance sim8xxstate_eq_dec : EqDecision sim8xxstate_t.
Proof. solve_decision. Defined.

Record Sim8xxConfig := SimConfig { sdp : nat; powerline : ioline_t }.

(** [Sim8xxDriver], its kernel objects apart. *)
Record Sim8xxDriver := Sim {
  sim_state : sim8xxstate_t;
  sim_config : option Sim8xxConfig;
  rxbuf : list ascii;
  rxlength : nat
}.

Inductive Sim8xxCommandStatus_t :=
  | SIM8XX_OK | SIM8XX_CONNECT | SIM8XX_RING | SIM8XX_NO_CARRIER | SIM8XX_ERROR
  | SIM8XX_NO_DIALTONE | SIM8XX_BUSY | SIM8XX_NO_ANSWER | SIM8XX_PROCEEDING
  | SIM8XX_TIMEOUT | SIM8XX_INVALID_STATUS.
#[global] Instance status_eq_dec : EqDecision Sim8xxCommandStatus_t.
Proof. solve_decision. Defined.

Record Sim8xxCommand := Command {
  request : list ascii;
  response : list ascii;
  status : Sim8xxCommandStatus_t
}.

(** ** [source/Dashboard.h], [source/SystemThread.c], [source/GpsReaderThread.c] *)

Record Position_t := Position {
  p_date : list ascii;
  p_latitude : double;
  p_longitude : double;
  p_altitude : double;
  p_speed : double;
  p_gpsSatInView : Z;
  p_gnssSatInUse : Z;
  p_gnssSatInView : Z
}.

Inductive SystemState_t := SYSTEM_INIT | SYSTEM_PARKING | SYSTEM_RIDING | SYSTEM_TRACKING.
#[global] Instance SystemState_eq_dec : EqDecision SystemState_t.
Proof. solve_decision. Defined.
Inductive gpsError_t :=
  | GPS_ERROR_NO_ERROR | GPS_ERROR_POWER_ON | GPS_ERROR_POWER_OFF
  | GPS_ERROR_DATA_UPDATE | GPS_ERROR_IN_RESPONSE.
#[global] Instance gpsError_eq_dec : EqDecision gpsError_t.
Proof. solve_decision. Defined.

(** The static variables of the application. *)
Record app := App {
  a_gpio : gpio_t;
  SIM8D1 : Sim8xxDriver;
  cmd : Sim8xxCommand;
  error : gpsError_t;
  position : Position_t;
  sys_state : SystemState_t;
  sdcard_counter : Z;
  usb_counter : Z;
  fsReady : bool;
  fbuff : list ascii;
  shelltp : option tid
}.

Definition set_sim_state (f : sim8xxstate_t -> sim8xxstate_t) (r : Sim8xxDriver) : Sim8xxDriver :=
  Sim (f (sim_state r)) (sim_config r) (rxbuf r) (rxlength r).
Definition set_sim_config (f : option Sim8xxConfig -> option Sim8xxConfig) (r : Sim8xxDriver) : Sim8xxDriver :=
  Sim (sim_state r) (f (sim_config r)) (rxbuf r) (rxlength r).
Definition set_rxbuf (f : list ascii -> list ascii) (r : Sim8xxDriver) : Sim8xxDriver :=
  Sim (sim_state r) (sim_config r) (f (rxbuf r)) (rxlength r).
Definition set_rxlength (f : nat -> nat) (r : Sim8xxDriver) : Sim8xxDriver :=
  Sim (sim_state r) (sim_config r) (rxbuf r) (f (rxlength r)).

Definition set_request (f : list ascii -> list ascii) (r : Sim8xxCommand) : Sim8xxCommand :=
  Command (f (request r)) (response r) (status r).
Definition set_response (f : list ascii -> list ascii) (r : Sim8xxCommand) : Sim8xxCommand :=
  Command (request r) (f (response r)) (status r).
Definition set_status (f : Sim8xxCommandStatus_t -> Sim8xxCommandStatus_t) (r : Sim8xxCommand) : Sim8xxCommand :=
  Command (request r) (response r) (f (status r)).

Definition set_a_gpio (f : gpio_t -> gpio_t) (r : app) : app :=
  App (f (a_gpio r)) (SIM8D1 r) (cmd r) (error r) (position r) (sys_state r) (sdcard_counter r)
    (usb_counter r) (fsReady r) (fbuff r) (shelltp r).
Definition set_SIM8D1 (f : Sim8xxDriver -> Sim8xxDriver) (r : app) : app :=
  App (a_gpio r) (f (SIM8D1 r)) (cmd r) (error r) (position r) (sys_state r) (sdcard_counter r)
    (usb_counter r) (fsReady r) (fbuff r) (shelltp r).
Definition set_cmd (f : Sim8xxCommand -> Sim8xxCommand) (r : app) : app :=
  App (a_gpio r) (SIM8D1 r) (f (cmd r)) (error r) (position r) (sys_state r) (sdcard_counter r)
    (usb_counter r) (fsReady r) (fbuff r) (shelltp r).
Definition set_error (f : gpsError_t -> gpsError_t) (r : app) : app :=
  App (a_gpio r) (SIM8D1 r) (cmd r) (f (error r)) (position r) (sys_state r) (sdcard_counter r)
    (usb_counter r) (fsReady r) (fbuff r) (shelltp r).
Definition set_position (f : Position_t -> Position_t) (r : app) : app :=
  App (a_gpio r) (SIM8D1 r) (cmd r) (error r) (f (position r)) (sys_state r) (sdcard_counter r)
    (usb_counter r) (fsReady r) (fbuff r) (shelltp r).
Definition set_sys_state (f : SystemState_t -> SystemState_t) (r : app) : app :=
  App (a_gpio r) (SIM8D1 r) (cmd r) (error r) (position r) (f (sys_state r)) (sdcard_counter r)
    (usb_counter r) (fsReady r) (fbuff r) (shelltp r).
Definition set_sdcard_counter (f : Z -> Z) (r : app) : app :=
  App (a_gpio r) (SIM8D1 r) (cmd r) (error r) (position r) (sys_state r) (f (sdcard_counter r))
    (usb_counter r) (fsReady r) (fbuff r) (shelltp r).
Definition set_usb_counter (f : Z -> Z) (r : app) : app :=
  App (a_gpio r) (SIM8D1 r) (cmd r) (error r) (position r) (sys_state r) (sdcard_counter r) (f
    (usb_counter r)) (fsReady r) (fbuff r) (shelltp r).
Definition set_fsReady (f : bool -> bool) (r : app) : app :=
  App (a_gpio r) (SIM8D1 r) (cmd r) (error r) (position r) (sys_state r) (sdcard_counter r)
    (usb_counter r) (f (fsReady r)) (fbuff r) (shelltp r).
Definition set_fbuff (f : list ascii -> list ascii) (r : app) : app :=
  App (a_gpio r) (SIM8D1 r) (cmd r) (error r) (position r) (sys_state r) (sdcard_counter r)
    (usb_counter r) (fsReady r) (f (fbuff r)) (shelltp r).
Definition set_shelltp (f : option tid -> option tid) (r : app) : app :=
  App (a_gpio r) (SIM8D1 r) (cmd r) (error r) (position r) (sys_state r) (sdcard_counter r)
    (usb_counter r) (fsReady r) (fbuff r) (f (shelltp r)).

(** ** Interfaces *)

(** The serial driver: [sdStart], the channel methods [put] and [gett], its event source. *)
Class Serial (S : Type) := {
  sdStart : nat -> prog S unit;
  streamPut : nat -> Z -> prog S Z;
  chnGetTimeout : nat -> Z -> prog S Z;
  chnGetEventSource : nat -> M S nat
}.

(** What the application relies on.  [rx_pending] is what was received and not read yet;
    reading does not block; the driver leaves the application alone. *)
Class SerialSpec (S : Type) `{!Component S app, !Serial S} := {
  serial_ok : nat -> S -> Prop;
  rx_pending : nat -> S -> list Z;
  get_some sdp s b bs : serial_ok sdp s -> rx_pending sdp s = b :: bs ->
    0 <= b < 256 /\
    exists s', exec alone (chnGetTimeout sdp TIME_IMMEDIATE) s b s' /\
      serial_ok sdp s' /\ rx_pending sdp s' = bs /\ proj (K := app) s' = proj s;
  get_none sdp s : serial_ok sdp s -> rx_pending sdp s = [] ->
    exec alone (chnGetTimeout sdp TIME_IMMEDIATE) s MSG_TIMEOUT s;
  serial_ok_app sdp (a : app) s : serial_ok sdp s -> serial_ok sdp (inj a s);
  rx_pending_app sdp (a : app) s : rx_pending sdp (inj a s) = rx_pending sdp s;
  serial_frame (T : S -> S -> Prop) : PreOrder T ->
    (forall s s', proj (K := app) s' = proj s -> T s s') ->
    (forall sdp, within T (sdStart sdp)) /\
    (forall sdp b, within T (streamPut sdp b)) /\
    (forall sdp t, within T (chnGetTimeout sdp t)) /\
    (forall sdp s src s', chnGetEventSource sdp s = Some (src, s') -> T s s')
}.

(** FatFs: the [FRESULT] of the calls, [FR_OK] being 0.  [f_write] appends to the file
    opened last by the calling thread; [f_readdir] returns a name, empty at the end, and
    whether it is a directory. *)
Definition FR_OK : Z := 0.
Class FatFs (S : Type) := {
  DIR : Type;
  f_mount : prog S Z;
  f_open : string -> prog S Z;
  f_write : list ascii -> prog S Z;
  f_close : prog S Z;
  f_getfree : prog S (Z * Z);
  f_opendir : list ascii -> prog S (Z * DIR);
  f_readdir : DIR -> prog S (Z * (list ascii * bool) * DIR);
  csize : M S Z
}.

(** The file system leaves the application alone. *)
Class FatFsSpec (S : Type) `{!Component S app, !FatFs S} :=
  fat_frame (T : S -> S -> Prop) :
    (forall s s', proj (K := app) s' = proj s -> T s s') ->
    (forall name, within T (f_open name)) /\ (forall bs, within T (f_write bs)) /\
    within T f_close /\ (forall path, within T (f_opendir path)) /\
    (forall dir, within T (f_readdir dir)) /\ within T f_mount /\
    within T f_getfree /\ moves T csize.

(** The MMC driver over SPI; [mmcConnect] and [mmcDisconnect] return [HAL_FAILED] as [true]. *)
Class Mmc (S : Type) := {
  mmcObjectInit : M S unit;
  mmcStart : prog S unit;
  mmcConnect : prog S bool;
  mmcDisconnect : prog S bool;
  mmcStop : prog S unit
}.

(** The MMC driver leaves alone what others can observe by [f]. *)
Class MmcSpec {S X : Type} (f : S -> X) `{!Mmc S} := {
  mmcObjectInit_frame : moves (same f) mmcObjectInit;
  mmcStart_frame : within (same f) mmcStart;
  mmcConnect_frame : within (same f) mmcConnect;
  mmcDisconnect_frame : within (same f) mmcDisconnect;
  mmcStop_frame : within (same f) mmcStop
}.

(** The serial over USB driver [SDU1] and the USB driver. *)
Class Usb (S : Type) := {
  sduObjectInit : M S unit;
  sduStart : prog S unit;
  sduStop : prog S unit;
  usbStart : prog S unit;
  usbStop : prog S unit;
  usbConnectBus : prog S unit;
  usbDisconnectBus : prog S unit
}.

(** The USB drivers leave alone what others can observe by [f]. *)
Class UsbSpec {S X : Type} (f : S -> X) `{!Usb S} := {
  sduObjectInit_frame s s' : sduObjectInit s = Some (tt, s') -> same f s s';
  sduStart_frame : within (same f) sduStart;
  sduStop_frame : within (same f) sduStop;
  usbStart_frame : within (same f) usbStart;
  usbStop_frame : within (same f) usbStop;
  usbConnectBus_frame : within (same f) usbConnectBus;
  usbDisconnectBus_frame : within (same f) usbDisconnectBus
}.

(** The memory of a new thread, from the heap. *)
Class Heap (S : Type) := chHeapAllocThread : prog S (option tid).
Class HeapSpec {S X : Type} (f : S -> X) `{!Heap S} :=
  heap_frame : within (same f) chHeapAllocThread.

(** The application in the state. *)
Section app.
Context {S : Type} `{!Component S app}.
Definition appl : M S app := view.
Definition on_app (f : app -> app) : M S unit := alter f.
Definition gpio (f : gpio_t -> gpio_t) : M S unit := on_app (set_a_gpio f).
Definition readLine (l : ioline_t) : M S bool := a ← appl; mret (palReadLine l (a_gpio a)).
End app.
