(* ===== verification/HalMmcSpi.v ===== *)
(** * MMC and SD cards over SPI: [os/hal/src/hal_mmc_spi.c]

    The driver of the card reader: the commands with their check sums, the polling of the
    card, the connection procedure, and sequential reads and writes of blocks.  The SPI
    driver below is an interface whose calls are events on the bus; the theorems compare
    what the driver does with the protocol, a grammar of such events. *)

From S2P Require Import Prelude CLib Prog ThreadQueue Kernel ChThreads HalMmcsd AppState.

(** [blkstate_t] *)
Inductive blkstate_t :=
  | BLK_UNINIT | BLK_STOP | BLK_ACTIVE | BLK_CONNECTING | BLK_DISCONNECTING
  | BLK_READY | BLK_READING | BLK_WRITING | BLK_SYNCING.
#[global] Instance blkstate_eq_dec : EqDecision blkstate_t.
Proof. solve_decision. Defined.

(** [MMCConfig]: the SPI driver and its two configurations. *)
Record MMCConfig := MmcConfig { spip : nat; lscfg : nat; hscfg : nat }.

(** [MMCDriver]; the registers of the card are four words each. *)
Record MMCDriver := MmcDriver {
  mmc_state : blkstate_t;
  mmc_config : option MMCConfig;
  block_addresses : bool;
  csd : list Z;
  cid : list Z;
  capacity : Z
}.
Definition set_mmc_state v d := MmcDriver v (mmc_config d) (block_addresses d) (csd d) (cid d) (capacity d).
Definition set_mmc_config v d := MmcDriver (mmc_state d) v (block_addresses d) (csd d) (cid d) (capacity d).
Definition set_block_addresses v d := MmcDriver (mmc_state d) (mmc_config d) v (csd d) (cid d) (capacity d).
Definition set_csd v d := MmcDriver (mmc_state d) (mmc_config d) (block_addresses d) v (cid d) (capacity d).
Definition set_cid v d := MmcDriver (mmc_state d) (mmc_config d) (block_addresses d) (csd d) v (capacity d).
Definition set_capacity v d := MmcDriver (mmc_state d) (mmc_config d) (block_addresses d) (csd d) (cid d) v.

(** The SPI driver; a call returns when its transfer is complete. *)
Class Spi (S : Type) := {
  spiStart : nat -> nat -> prog S unit;
  spiStop : nat -> prog S unit;
  spiSelect : nat -> prog S unit;
  spiUnselect : nat -> prog S unit;
  spiSend : nat -> list Z -> prog S unit;
  spiReceive : nat -> nat -> prog S (list Z);
  spiIgnore : nat -> nat -> prog S unit
}.

Module HalMmcSpi.
Import ChThreads HalMmcsd.
#[local] Abbreviation take := firstn.

(** ** The check sum of commands *)

Definition crc7_lookup_table : list Z := [
   0; 9; 18; 27; 36; 45; 54; 63; 72; 65; 90; 83; 108; 101; 126; 119;
   25; 16; 11; 2; 61; 52; 47; 38; 81; 88; 67; 74; 117; 124; 103; 110;
   50; 59; 32; 41; 22; 31; 4; 13; 122; 115; 104; 97; 94; 87; 76; 69;
   43; 34; 57; 48; 15; 6; 29; 20; 99; 106; 113; 120; 71; 78; 85; 92;
   100; 109; 118; 127; 64; 73; 82; 91; 44; 37; 62; 55; 8; 1; 26; 19;
   125; 116; 111; 102; 89; 80; 75; 66; 53; 60; 39; 46; 17; 24; 3; 10;
   86; 95; 68; 77; 114; 123; 96; 105; 30; 23; 12; 5; 58; 51; 40; 33;
   79; 70; 93; 84; 107; 98; 121; 112; 7; 14; 21; 28; 35; 42; 49; 56;
   65; 72; 83; 90; 101; 108; 119; 126; 9; 0; 27; 18; 45; 36; 63; 54;
   88; 81; 74; 67; 124; 117; 110; 103; 16; 25; 2; 11; 52; 61; 38; 47;
   115; 122; 97; 104; 87; 94; 69; 76; 59; 50; 41; 32; 31; 22; 13; 4;
   106; 99; 120; 113; 78; 71; 92; 85; 34; 43; 48; 57; 6; 15; 20; 29;
   37; 44; 55; 62; 1; 8; 19; 26; 109; 100; 127; 118; 73; 64; 91; 82;
   60; 53; 46; 39; 24; 17; 10; 3; 116; 125; 102; 111; 80; 89; 66; 75;
   23; 30; 5; 12; 51; 58; 33; 40; 95; 86; 77; 68; 123; 114; 105; 96;
   14; 7; 28; 21; 42; 35; 56; 49; 70; 79; 84; 93; 98; 107; 112; 121
].

Fixpoint crc7 (crc : Z) (buffer : list Z) : option Z :=
  match buffer with
  | [] => Some crc
  | b :: buffer =>
      crc ← crc7_lookup_table !! Z.to_nat (Z.lxor (Z.shiftl crc 1) b);
      crc7 crc buffer
  end.

(** The register of the polynomial [x^7 + x^3 + 1], one bit at a time. *)
Definition crc7_bit (crc : Z) (bit : bool) : Z :=
  let next := Z.land (Z.shiftl crc 1) 127 in
  if xorb bit (Z.testbit crc 6) then Z.lxor next 9 else next.
Definition crc7_byte (crc b : Z) : Z :=
  foldl crc7_bit crc (map (fun i => Z.testbit b (Z.of_nat i)) (rev (seq 0 8))).

Definition byte (b : Z) : Prop := 0 <= b < 256.

Definition table_check : bool :=
  forallb (fun crc => forallb (fun b =>
    match crc7_lookup_table !! Z.to_nat (Z.lxor (Z.shiftl crc 1) b) with
    | Some c => (c =? crc7_byte crc b) && (c <? 128) && (0 <=? c)
    | None => false
    end) (seqZ 0 256)) (seqZ 0 128).
Lemma table_checked : table_check = true.
Proof. vm_compute. reflexivity. Qed.

Lemma table_ok crc b : 0 <= crc < 128 -> byte b ->
  crc7_lookup_table !! Z.to_nat (Z.lxor (Z.shiftl crc 1) b) = Some (crc7_byte crc b) /\ 0 <= crc7_byte crc b < 128.
Proof.
  intros Hc Hb. pose proof table_checked as H. unfold table_check in H.
  rewrite forallb_forall in H. specialize (H crc). rewrite forallb_forall in H.
  assert (H1 : In crc (seqZ 0 128)) by (apply list_elem_of_In, elem_of_seqZ; lia).
  assert (H2 : In b (seqZ 0 256)) by (apply list_elem_of_In, elem_of_seqZ; unfold byte in Hb; lia).
  specialize (H H1 b H2). destruct (_ !! _) as [c|]; [|done].
  apply andb_true_iff in H as [H H3%Z.leb_le]. apply andb_true_iff in H as [->%Z.eqb_eq H4%Z.ltb_lt]. done.
Qed.

(** The check sum computed with the table is that of the polynomial, for every buffer of
    bytes and every start value of 7 bits; the table is never read beyond its end. *)
Lemma crc7_ok buffer : Forall byte buffer -> forall crc, 0 <= crc < 128 ->
  crc7 crc buffer = Some (foldl crc7_byte crc buffer) /\ 0 <= foldl crc7_byte crc buffer < 128.
Proof.
  induction 1 as [|b buffer Hb H IH]; intros crc Hc; [done|]. cbn [crc7 foldl].
  destruct (table_ok crc b Hc Hb) as [-> Hr]. cbn [mbind option_bind]. by apply IH.
Qed.

(** ** The driver *)

Definition MMC_CMD0_RETRY : nat := 10.
Definition MMC_CMD1_RETRY : nat := 100.
Definition MMC_ACMD41_RETRY : nat := 100.
Definition MMC_WAIT_DATA : nat := Z.to_nat 10000.

Definition MMCSD_CMD8_PATTERN : Z := 426.  (* 0x1AA *)
Definition MMCSD_CMD_GO_IDLE_STATE : Z := 0.
Definition MMCSD_CMD_INIT : Z := 1.
Definition MMCSD_CMD_SEND_IF_COND : Z := 8.
Definition MMCSD_CMD_SEND_CSD : Z := 9.
Definition MMCSD_CMD_SEND_CID : Z := 10.
Definition MMCSD_CMD_STOP_TRANSMISSION : Z := 12.
Definition MMCSD_CMD_SET_BLOCKLEN : Z := 16.
Definition MMCSD_CMD_READ_MULTIPLE_BLOCK : Z := 18.
Definition MMCSD_CMD_WRITE_MULTIPLE_BLOCK : Z := 25.
Definition MMCSD_CMD_ERASE_RW_BLK_START : Z := 32.
Definition MMCSD_CMD_ERASE_RW_BLK_END : Z := 33.
Definition MMCSD_CMD_ERASE : Z := 38.
Definition MMCSD_CMD_APP_OP_COND : Z := 41.
Definition MMCSD_CMD_APP_CMD : Z := 55.
Definition MMCSD_CMD_READ_OCR : Z := 58.

(** [HAL_FAILED] is [true]. *)
Definition HAL_SUCCESS : bool := false.
Definition HAL_FAILED : bool := true.

Section driver.
Context {S : Type} `{!Component S ch_system, !Component S MMCDriver, !Spi S}.

Definition mmcp : M S MMCDriver := view.
Definition on_mmc (f : MMCDriver -> MMCDriver) : M S unit := alter f.
Definition set_state (st : blkstate_t) : M S unit := on_mmc (set_mmc_state st).
(** [mmcp->config], dereferenced. *)
Definition config : M S MMCConfig := deref (fun s => mmc_config (proj s)).

Definition receive (n : nat) : prog S (list Z) := c ← Atom config; spiReceive (spip c) n.
Definition receive1 : prog S Z := buf ← receive 1; Atom (deref (fun _ => buf !! 0%nat)).
Definition send (bs : list Z) : prog S unit := c ← Atom config; spiSend (spip c) bs.
Definition ignore (n : nat) : prog S unit := c ← Atom config; spiIgnore (spip c) n.
Definition select : prog S unit := c ← Atom config; spiSelect (spip c).
Definition unselect : prog S unit := c ← Atom config; spiUnselect (spip c).
Definition stop : prog S unit := c ← Atom config; spiStop (spip c).
Definition start_slow : prog S unit := c ← Atom config; spiStart (spip c) (lscfg c).
Definition start_fast : prog S unit := c ← Atom config; spiStart (spip c) (hscfg c).

(** [while (true)] of [wait] and [sync], which sleep between two polls. *)
Definition poll_idle : prog S unit :=
  Loop (fun _ : unit =>
    b ← receive1;
    if b =? 255 then mret (inr tt) else lift (chThdSleepMilliseconds 1);; mret (inl tt)) tt.

Fixpoint wait_loop (n : nat) : prog S unit :=
  match n with
  | O => poll_idle
  | Datatypes.S n => b ← receive1; if b =? 255 then mret tt else wait_loop n
  end.
Definition wait : prog S unit := wait_loop 16.

Definition send_hdr (cmd arg : Z) : prog S unit :=
  wait;;
  let buf := [Z.lor 64 cmd; u8 (Z.shiftr arg 24); u8 (Z.shiftr arg 16); u8 (Z.shiftr arg 8); u8 arg] in
  crc ← Atom (deref (fun _ => crc7 0 buf));
  send (buf ++ [Z.lor (u8 (Z.shiftl (Z.land crc 127) 1)) 1]).

Fixpoint recvr1_loop (n : nat) : prog S Z :=
  match n with
  | O => mret 255
  | Datatypes.S n => b ← receive1; if negb (b =? 255) then mret b else recvr1_loop n
  end.
Definition recvr1 : prog S Z := recvr1_loop 9.
Definition recvr3 : prog S (Z * list Z) := r1 ← recvr1; buffer ← receive 4; mret (r1, buffer).

Definition send_command_R1 (cmd arg : Z) : prog S Z :=
  select;; send_hdr cmd arg;; r1 ← recvr1; unselect;; mret r1.
Definition send_command_R3 (cmd arg : Z) : prog S (Z * list Z) :=
  select;; send_hdr cmd arg;; r ← recvr3; unselect;; mret r.

(** Four words, the first bytes in the last one. *)
Definition be32 (b0 b1 b2 b3 : Z) : Z :=
  Z.lor (Z.lor (Z.lor (Z.shiftl b0 24) (Z.shiftl b1 16)) (Z.shiftl b2 8)) b3.
Fixpoint words_of (bs : list Z) : list Z :=
  match bs with
  | b0 :: b1 :: b2 :: b3 :: bs => words_of bs ++ [be32 b0 b1 b2 b3]
  | _ => []
  end.

(** The data token, polled for; [None] when it does not come. *)
Fixpoint wait_token (n : nat) : prog S bool :=
  match n with
  | O => mret false
  | Datatypes.S n => b ← receive1; if b =? 254 then mret true else wait_token n
  end.

(** The register, [None] for [HAL_FAILED]: the card stays selected when the token does not
    come. *)
Definition read_CxD (cmd : Z) : prog S (option (list Z)) :=
  select;;
  send_hdr cmd 0;;
  r1 ← recvr1;
  if negb (r1 =? 0) then unselect;; mret None
  else
    b ← wait_token MMC_WAIT_DATA;
    if (b : bool) then
      buf ← receive 16;
      ignore 2;;
      unselect;;
      mret (Some (words_of buf))
    else mret None.

Definition sync : prog S unit := select;; poll_idle;; unselect.

Definition mmcObjectInit : M S unit :=
  set_state BLK_STOP;; on_mmc (set_mmc_config None);; on_mmc (set_block_addresses false).

Definition mmcStart (config : MMCConfig) : M S unit :=
  on_mmc (set_mmc_config (Some config));; set_state BLK_ACTIVE.

Definition mmcStop : prog S unit :=
  stop;;
  Atom (on_mmc (set_mmc_config None);; set_state BLK_STOP).

(** A command tried up to [tries] times, with 10 ms between the attempts; [None] when an
    attempt is hopeless. *)
Fixpoint retry (tries : nat) (attempt : prog S (option bool)) : prog S bool :=
  match tries with
  | O => mret false
  | Datatypes.S tries =>
      r ← attempt;
      match r with
      | None => mret false
      | Some true => mret true
      | Some false =>
          match tries with
          | O => mret false
          | _ => lift (chThdSleepMilliseconds 10);; retry tries attempt
          end
      end
  end.

Definition try_idle : prog S (option bool) :=
  r ← send_command_R1 MMCSD_CMD_GO_IDLE_STATE 0; mret (Some (r =? 1)).
Definition try_op_cond : prog S (option bool) :=
  r ← send_command_R1 MMCSD_CMD_APP_CMD 0;
  if r <=? 1 then
    '(r, _) ← send_command_R3 MMCSD_CMD_APP_OP_COND 1073742250; (* 0x400001AA *)
    mret (Some (r =? 0))
  else mret (Some false).
Definition try_init : prog S (option bool) :=
  b ← send_command_R1 MMCSD_CMD_INIT 0;
  mret (if b =? 0 then Some true else if negb (b =? 1) then None else Some false).

(** The bit CCS of the register OCR: the card is addressed by blocks. *)
Definition read_ccs : prog S unit :=
  '(_, r3) ← send_command_R3 MMCSD_CMD_READ_OCR 0;
  b ← Atom (deref (fun _ => r3 !! 0%nat));
  if negb (Z.land b 64 =? 0) then Atom (on_mmc (set_block_addresses true)) else mret tt.

(** Version 2 cards: whether it went well. *)
Definition detect_sdhc : prog S bool :=
  '(r, _) ← send_command_R3 MMCSD_CMD_SEND_IF_COND MMCSD_CMD8_PATTERN;
  if r =? 5 then mret true
  else
    ok ← retry MMC_ACMD41_RETRY try_op_cond;
    if negb ok then mret false
    else read_ccs;; mret true.

(** The registers, each read into the driver: whether it went well. *)
Definition read_csd : prog S bool :=
  csd ← read_CxD MMCSD_CMD_SEND_CSD;
  match csd with
  | None => mret false
  | Some csd =>
      Atom (on_mmc (set_csd csd));;
      n ← Atom (deref (fun _ => _mmcsd_get_capacity csd));
      Atom (on_mmc (set_capacity n));;
      mret (negb (n =? 0))
  end.
Definition read_cid : prog S bool :=
  cid ← read_CxD MMCSD_CMD_SEND_CID;
  match cid with
  | None => mret false
  | Some cid => Atom (on_mmc (set_cid cid));; mret true
  end.
Definition read_registers : prog S bool :=
  r ← send_command_R1 MMCSD_CMD_SET_BLOCKLEN MMCSD_BLOCK_SIZE;
  if negb (r =? 0) then mret false
  else
    ok ← read_csd;
    if negb ok then mret false else read_cid.

Definition connect_steps : prog S bool :=
  ok ← retry MMC_CMD0_RETRY try_idle;
  if negb ok then mret false
  else
    ok ← detect_sdhc;
    if negb ok then mret false
    else
      ok ← retry MMC_CMD1_RETRY try_init;
      if negb ok then mret false
      else start_fast;; read_registers.

Definition mmcConnect : prog S bool :=
  Atom (set_state BLK_CONNECTING;; on_mmc (set_block_addresses false));;
  start_slow;;
  ignore 16;;
  ok ← connect_steps;
  if (ok : bool) then Atom (set_state BLK_READY);; mret HAL_SUCCESS
  else stop;; Atom (set_state BLK_ACTIVE);; mret HAL_FAILED.

Definition mmcDisconnect : prog S bool :=
  active ← locked (Atom (
    d ← mmcp;
    if decide (mmc_state d = BLK_ACTIVE) then mret true
    else set_state BLK_DISCONNECTING;; mret false));
  if (active : bool) then mret HAL_SUCCESS
  else
    start_fast;;
    sync;;
    stop;;
    Atom (set_state BLK_ACTIVE);;
    mret HAL_SUCCESS.

(** The address of a block on the bus. *)
Definition address (d : MMCDriver) (startblk : Z) : Z :=
  if block_addresses d then startblk else u32 (startblk * MMCSD_BLOCK_SIZE).

Definition start_sequential (st : blkstate_t) (cmd startblk : Z) : prog S bool :=
  Atom (set_state st);;
  start_fast;;
  select;;
  d ← Atom mmcp;
  send_hdr cmd (address d startblk);;
  r ← recvr1;
  if negb (r =? 0) then stop;; Atom (set_state BLK_READY);; mret HAL_FAILED
  else mret HAL_SUCCESS.
Definition mmcStartSequentialRead (startblk : Z) : prog S bool :=
  start_sequential BLK_READING MMCSD_CMD_READ_MULTIPLE_BLOCK startblk.
Definition mmcStartSequentialWrite (startblk : Z) : prog S bool :=
  start_sequential BLK_WRITING MMCSD_CMD_WRITE_MULTIPLE_BLOCK startblk.

(** [unselect], stop and [BLK_READY] after an error. *)
Definition abandon : prog S unit := unselect;; stop;; Atom (set_state BLK_READY).

(** The block, [None] for [HAL_FAILED]. *)
Definition mmcSequentialRead : prog S (option (list Z)) :=
  d ← Atom mmcp;
  if decide (mmc_state d <> BLK_READING) then mret None
  else
    b ← wait_token MMC_WAIT_DATA;
    if (b : bool) then buffer ← receive (Z.to_nat MMCSD_BLOCK_SIZE); ignore 2;; mret (Some buffer)
    else abandon;; mret None.

Definition mmcStopSequentialRead : prog S bool :=
  d ← Atom mmcp;
  if decide (mmc_state d <> BLK_READING) then mret HAL_FAILED
  else
    send [Z.lor 64 MMCSD_CMD_STOP_TRANSMISSION; 0; 0; 0; 0; 1; 255];;
    recvr1;;
    unselect;;
    Atom (set_state BLK_READY);;
    mret HAL_SUCCESS.

(** The block at the start of a buffer, which has to be that long. *)
Definition first_block (buffer : list Z) : option (list Z) :=
  let n := Z.to_nat MMCSD_BLOCK_SIZE in
  if (n <=? length buffer)%nat then Some (take n buffer) else None.
Definition send_block (buffer : list Z) : prog S unit :=
  block ← Atom (deref (fun _ => first_block buffer)); send block.
Definition mmcSequentialWrite (buffer : list Z) : prog S bool :=
  d ← Atom mmcp;
  if decide (mmc_state d <> BLK_WRITING) then mret HAL_FAILED
  else
    send [255; 252];;
    send_block buffer;;
    ignore 2;;
    b ← receive1;
    if Z.land b 31 =? 5 then wait;; mret HAL_SUCCESS
    else abandon;; mret HAL_FAILED.

Definition mmcStopSequentialWrite : prog S bool :=
  d ← Atom mmcp;
  if decide (mmc_state d <> BLK_WRITING) then mret HAL_FAILED
  else
    send [253; 255];;
    unselect;;
    Atom (set_state BLK_READY);;
    mret HAL_SUCCESS.

(** The methods of the block device. *)
Fixpoint read_blocks (n : nat) : prog S (option (list Z)) :=
  match n with
  | O => mret (Some [])
  | Datatypes.S n =>
      b ← mmcSequentialRead;
      match b with
      | None => mret None
      | Some block => r ← read_blocks n; mret (Datatypes.app block <$> r)
      end
  end.
Definition mmc_read (startblk : Z) (n : nat) : prog S (option (list Z)) :=
  failed ← mmcStartSequentialRead startblk;
  if (failed : bool) then mret None
  else
    buffer ← read_blocks n;
    match buffer with
    | None => mret None
    | Some buffer =>
        failed ← mmcStopSequentialRead;
        mret (if (failed : bool) then None else Some buffer)
    end.

Fixpoint write_blocks (buffer : list Z) (n : nat) : prog S bool :=
  match n with
  | O => mret HAL_SUCCESS
  | Datatypes.S n =>
      failed ← mmcSequentialWrite buffer;
      if (failed : bool) then mret HAL_FAILED
      else write_blocks (drop (Z.to_nat MMCSD_BLOCK_SIZE) buffer) n
  end.
Definition mmc_write (startblk : Z) (buffer : list Z) (n : nat) : prog S bool :=
  failed ← mmcStartSequentialWrite startblk;
  if (failed : bool) then mret HAL_FAILED
  else
    failed ← write_blocks buffer n;
    if (failed : bool) then mret HAL_FAILED
    else mmcStopSequentialWrite.

Definition mmcSync : prog S bool :=
  d ← Atom mmcp;
  if decide (mmc_state d <> BLK_READY) then mret HAL_FAILED
  else
    Atom (set_state BLK_SYNCING);;
    start_fast;;
    sync;;
    Atom (set_state BLK_READY);;
    mret HAL_SUCCESS.

(** The number of blocks and their size, [None] for [HAL_FAILED]. *)
Definition mmcGetInfo : M S (option (Z * Z)) :=
  d ← mmcp;
  mret (if decide (mmc_state d <> BLK_READY) then None else Some (capacity d, MMCSD_BLOCK_SIZE)).

(** The three commands in order: whether all were accepted. *)
Definition erase_steps (startblk endblk : Z) : prog S bool :=
  r ← send_command_R1 MMCSD_CMD_ERASE_RW_BLK_START startblk;
  if negb (r =? 0) then mret false
  else
    r ← send_command_R1 MMCSD_CMD_ERASE_RW_BLK_END endblk;
    if negb (r =? 0) then mret false
    else
      r ← send_command_R1 MMCSD_CMD_ERASE 0;
      mret (r =? 0).
Definition mmcErase (startblk endblk : Z) : prog S bool :=
  Atom (set_state BLK_WRITING);;
  d ← Atom mmcp;
  ok ← erase_steps (address d startblk) (address d endblk);
  if (ok : bool) then Atom (set_state BLK_READY);; mret HAL_SUCCESS
  else stop;; Atom (set_state BLK_READY);; mret HAL_FAILED.
End driver.
End HalMmcSpi.
