(* ===== verification/MmcProtocol.v ===== *)
(** * What the card driver says on the bus

    The theorems on [HalMmcSpi].  The calls of the SPI driver are recorded as events; the
    protocol of the card is a set of lists of events, made of polls, command frames, replies
    and blocks of data.  Every operation of the driver speaks it, and takes the driver from
    state to state as its documentation draws it. *)

From S2P Require Import Prelude CLib Prog ThreadQueue Kernel ChThreads HalMmcsd AppState HalMmcSpi.

(** The events, each with the SPI driver it is for. *)
Inductive ev :=
  | EvStart (spip config : nat) | EvStop (spip : nat) | EvSelect (spip : nat) | EvUnselect (spip : nat)
  | EvSend (spip : nat) (bs : list Z) | EvReceive (spip : nat) (bs : list Z) | EvIgnore (spip : nat) (n : nat).

Module MmcProtocol.
Import ChThreads HalMmcsd HalMmcSpi.
#[local] Abbreviation take := firstn.

(** ** The protocol *)

(** Attempts that fail, at most [n] in all, the last of which may succeed. *)
Inductive attempts (P : option bool -> list ev -> Prop) : nat -> bool -> list ev -> Prop :=
  | att_done n t : P (Some true) t -> attempts P (S n) true t
  | att_hopeless n t : P None t -> attempts P (S n) false t
  | att_last t : P (Some false) t -> attempts P 1 false t
  | att_again n ok t1 t2 : P (Some false) t1 -> attempts P (S n) ok t2 -> attempts P (S (S n)) ok (t1 ++ t2).

Section protocol.
Variable c : MMCConfig.
#[local] Abbreviation p := (spip c).

Definition polls (bs : list Z) : list ev := map (fun b => EvReceive p [b]) bs.

(** Polled until the line is high. *)
Definition idle (t : list ev) : Prop := exists bs, Forall (fun b => b <> 255) bs /\ t = polls (bs ++ [255]).

(** At most nine polls; 255 when none is answered. *)
Definition reply (r : Z) (t : list ev) : Prop :=
  exists n, t = polls (replicate n 255 ++ (if r =? 255 then [] else [r])) /\
    if r =? 255 then n = 9%nat else (n < 9)%nat.

(** Start bits, command, argument from the high byte on, check sum and stop bit. *)
Definition header (cmd arg : Z) : list Z :=
  [64 + cmd; arg / 2 ^ 24; arg / 2 ^ 16 mod 256; arg / 2 ^ 8 mod 256; arg mod 256].
Definition frame (cmd arg : Z) : list Z :=
  header cmd arg ++ [2 * foldl crc7_byte 0 (header cmd arg) + 1].

Definition opened (cmd arg r : Z) (t : list ev) : Prop :=
  exists w a, idle w /\ reply r a /\ t = [EvSelect p] ++ w ++ [EvSend p (frame cmd arg)] ++ a.
Definition command1 (cmd arg r : Z) (t : list ev) : Prop :=
  exists o, opened cmd arg r o /\ t = o ++ [EvUnselect p].
Definition command3 (cmd arg : Z) (r : Z * list Z) (t : list ev) : Prop :=
  exists o, opened cmd arg (fst r) o /\ length (snd r) = 4%nat /\ t = o ++ [EvReceive p (snd r); EvUnselect p].

(** Polls without the data token, the token, the bytes and two bytes of check sum. *)
Definition no_token (bs : list Z) : Prop := Forall (fun b => b <> 254) bs.
Definition data_block (n : nat) (bs : list Z) (t : list ev) : Prop :=
  exists w, no_token w /\ (length w < MMC_WAIT_DATA)%nat /\ length bs = n /\ Forall byte bs /\
    t = polls (w ++ [254]) ++ [EvReceive p bs; EvIgnore p 2].
Definition no_data (t : list ev) : Prop := exists w, no_token w /\ length w = MMC_WAIT_DATA /\ t = polls w.

(** A register; without it, the card refuses and is deselected, or is silent and stays selected. *)
Definition register (cmd : Z) (v : option (list Z)) (t : list ev) : Prop :=
  match v with
  | Some bs => exists o d, opened cmd 0 0 o /\ data_block 16 bs d /\ t = o ++ d ++ [EvUnselect p]
  | None => (exists r, r <> 0 /\ command1 cmd 0 r t) \/
            exists o d, opened cmd 0 0 o /\ no_data d /\ t = o ++ d
  end.

Definition start_stream (cmd arg r : Z) (t : list ev) : Prop :=
  exists o, opened cmd arg r o /\ t = EvStart p (hscfg c) :: o.
(** Blocks are read from an address on, until a stop command. *)
Definition reading (addr : Z) (blocks : list (list Z)) (t : list ev) : Prop :=
  exists o ds r e, start_stream MMCSD_CMD_READ_MULTIPLE_BLOCK addr 0 o /\ Forall2 (data_block 512) blocks ds /\
    reply r e /\
    t = o ++ concat ds ++ [EvSend p [76; 0; 0; 0; 0; 1; 255]] ++ e ++ [EvUnselect p].
(** A block written is accepted and the card becomes idle again. *)
Definition written (block : list Z) (t : list ev) : Prop :=
  exists r w, r mod 32 = 5 /\ idle w /\
    t = [EvSend p [255; 252]; EvSend p block; EvIgnore p 2; EvReceive p [r]] ++ w.
Definition writing (addr : Z) (blocks : list (list Z)) (t : list ev) : Prop :=
  exists o ds, start_stream MMCSD_CMD_WRITE_MULTIPLE_BLOCK addr 0 o /\ Forall2 written blocks ds /\
    t = o ++ concat ds ++ [EvSend p [253; 255]; EvUnselect p].

(** An attempt of the connection procedure: whether to go on, [None] to give up. *)
Definition idle_try (r : option bool) (t : list ev) : Prop :=
  exists r1, command1 MMCSD_CMD_GO_IDLE_STATE 0 r1 t /\ r = Some (r1 =? 1).
Definition op_cond_try (r : option bool) (t : list ev) : Prop :=
  exists r1 t1 t2, command1 MMCSD_CMD_APP_CMD 0 r1 t1 /\ t = t1 ++ t2 /\
    if r1 <=? 1 then exists r3, command3 MMCSD_CMD_APP_OP_COND 0x400001AA r3 t2 /\ r = Some (fst r3 =? 0)
    else r = Some false /\ t2 = [].
Definition init_try (r : option bool) (t : list ev) : Prop :=
  exists r1, command1 MMCSD_CMD_INIT 0 r1 t /\
    r = match r1 with 0 => Some true | 1 => Some false | _ => None end.

(** Cards of version 2 are asked for their operating conditions and their addressing. *)
Definition detected (blocks : bool) (t : list ev) : Prop :=
  exists r t1 t2, command3 MMCSD_CMD_SEND_IF_COND MMCSD_CMD8_PATTERN r t1 /\ t = t1 ++ t2 /\
    if fst r =? 5 then blocks = false /\ t2 = []
    else exists ta to r1 b0 b1 b2 b3, attempts op_cond_try MMC_ACMD41_RETRY true ta /\
      command3 MMCSD_CMD_READ_OCR 0 (r1, [b0; b1; b2; b3]) to /\ blocks = Z.testbit b0 6 /\ t2 = ta ++ to.
Definition registers (csd cid : list Z) (t : list ev) : Prop :=
  exists t1 t2 t3, command1 MMCSD_CMD_SET_BLOCKLEN 512 0 t1 /\ register MMCSD_CMD_SEND_CSD (Some csd) t2 /\
    register MMCSD_CMD_SEND_CID (Some cid) t3 /\ t = t1 ++ t2 ++ t3.
(** The whole procedure: idle at the low clock, detection, initialisation, registers at the high clock. *)
Definition connected (blocks : bool) (csd cid : list Z) (t : list ev) : Prop :=
  exists t0 t1 t2 t3, attempts idle_try MMC_CMD0_RETRY true t0 /\ detected blocks t1 /\
    attempts init_try MMC_CMD1_RETRY true t2 /\ registers csd cid t3 /\
    t = [EvStart p (lscfg c); EvIgnore p 16] ++ t0 ++ t1 ++ t2 ++ [EvStart p (hscfg c)] ++ t3.
End protocol.

(** ** The driver *)

(** One event happens, and the card driver is left alone. *)
Definition spi_event {S : Type} `{!Component S MMCDriver} (bus : S -> list ev) (e : ev) (s s' : S) : Prop :=
  bus s' = bus s ++ [e] /\ proj (K := MMCDriver) s' = proj s.

(** The calls of the SPI driver are events on the bus, and leave the card driver alone. *)
Class SpiSpec {S : Type} (R : why -> S -> S -> Prop) (bus : S -> list ev)
    `{!Component S ch_system, !Component S MMCDriver, !Spi S} := {
  spiStart_ok p cfg s u s' : exec R (spiStart p cfg) s u s' -> spi_event bus (EvStart p cfg) s s';
  spiStop_ok p s u s' : exec R (spiStop p) s u s' -> spi_event bus (EvStop p) s s';
  spiSelect_ok p s u s' : exec R (spiSelect p) s u s' -> spi_event bus (EvSelect p) s s';
  spiUnselect_ok p s u s' : exec R (spiUnselect p) s u s' -> spi_event bus (EvUnselect p) s s';
  spiSend_ok p bs s u s' : exec R (spiSend p bs) s u s' -> spi_event bus (EvSend p bs) s s';
  spiReceive_ok p n s bs s' : exec R (spiReceive p n) s bs s' ->
    spi_event bus (EvReceive p bs) s s' /\ length bs = n /\ Forall byte bs;
  spiIgnore_ok p n s u s' : exec R (spiIgnore p n) s u s' -> spi_event bus (EvIgnore p n) s s';
  bus_kernel (k : ch_system) s : bus (inj k s) = bus s;
  bus_mmc (d : MMCDriver) s : bus (inj d s) = bus s
}.

Section driver.
Context {S : Type} (R : why -> S -> S -> Prop) (bus : S -> list ev).
Context `{!Component S ch_system, !Component S MMCDriver, !Apart S ch_system MMCDriver, !Spi S, !SpiSpec R bus}.
Hypothesis others : forall w s s', R w s s' -> bus s' = bus s /\ proj (K := MMCDriver) s' = proj s.
Variable c : MMCConfig.
#[local] Abbreviation p := (spip c).
#[local] Abbreviation drv := (proj (K := MMCDriver)).

(** With the configuration [c] the program speaks [t] and changes the driver as [P] says. *)
Definition acts {A} (q : prog S A) (P : MMCDriver -> A -> list ev -> MMCDriver -> Prop) : Prop :=
  forall s a s', mmc_config (drv s) = Some c -> exec R q s a s' ->
    exists t, bus s' = bus s ++ t /\ mmc_config (drv s') = Some c /\ P (drv s) a t (drv s').
Definition talk {A} (q : prog S A) (P : A -> list ev -> Prop) : Prop :=
  acts q (fun d a t d' => d' = d /\ P a t).

Lemma acts_mono {A} (q : prog S A) (P Q : MMCDriver -> A -> list ev -> MMCDriver -> Prop) :
  acts q P -> (forall d a t d', P d a t d' -> Q d a t d') -> acts q Q.
Proof. intros H HPQ s a s' Hc (t & H1 & H2 & H3)%H; [|done]. exists t. auto. Qed.
Lemma acts_bind {A B} (q : prog S A) (k : A -> prog S B) P Q :
  acts q P -> (forall a, acts (k a) (Q a)) ->
  acts (q ≫= k) (fun d b t d' => exists a t1 t2 d1, t = t1 ++ t2 /\ P d a t1 d1 /\ Q a d1 b t2 d').
Proof.
  intros H1 H2 s b s2 Hc (a & s1 & E1 & E2). apply H1 in E1 as (t1 & B1 & C1 & HP); [|done].
  apply H2 in E2 as (t2 & B2 & C2 & HQ); [|done].
  exists (t1 ++ t2). rewrite B2, B1, app_assoc. split_and!; [done..|]. by exists a, t1, t2, (drv s1).
Qed.
Lemma acts_ret {A} (a : A) : acts (mret a) (fun d b t d' => d' = d /\ b = a /\ t = []).
Proof. intros s b s' Hc [-> ->]. exists []. by rewrite app_nil_r. Qed.

Lemma talk_mono {A} (q : prog S A) (P Q : A -> list ev -> Prop) :
  talk q P -> (forall a t, P a t -> Q a t) -> talk q Q.
Proof. intros H HPQ. eapply acts_mono; [exact H|]. intros d a t d' []. auto. Qed.
Lemma talk_bind {A B} (q : prog S A) (k : A -> prog S B) P Q :
  talk q P -> (forall a, talk (k a) (Q a)) ->
  talk (q ≫= k) (fun b t => exists a t1 t2, t = t1 ++ t2 /\ P a t1 /\ Q a b t2).
Proof.
  intros H1 H2. eapply acts_mono; [exact (acts_bind q k (fun d a t d' => d' = d /\ P a t) (fun a d b t d' => d' = d /\ Q a b t) H1 H2)|].
  intros d b t d' (a & t1 & t2 & d1 & -> & [-> HP] & [-> HQ]). split; [done|]. by exists a, t1, t2.
Qed.
Lemma talk_ret {A} (a : A) : talk (mret a) (fun b t => b = a /\ t = []).
Proof. exact (acts_ret a). Qed.
Lemma talk_deref {A} (a : A) o : o = Some a -> talk (Atom (deref (fun _ => o))) (fun b t => b = a /\ t = []).
Proof. intros -> s b s' Hc [= <- <-]. exists []. by rewrite app_nil_r. Qed.

Lemma talk_call {A} (f : nat -> prog S A) e (Q : A -> Prop) :
  (forall s a s', exec R (f p) s a s' -> spi_event bus (e a) s s' /\ Q a) ->
  talk (c ← Atom config; f (spip c)) (fun a t => t = [e a] /\ Q a).
Proof.
  intros H s a s' Hc (c' & s1 & E1 & E2). unfold config in E1. cbn [exec] in E1. unfold deref in E1.
  rewrite Hc in E1. injection E1 as <- <-. apply H in E2 as [[E1 E2] HQ]. exists [e a].
  by rewrite E2.
Qed.
Lemma talk_receive n : talk (receive n) (fun bs t => t = [EvReceive p bs] /\ length bs = n /\ Forall byte bs).
Proof. apply (talk_call (fun p => spiReceive p n)). intros s bs s'. apply spiReceive_ok. Qed.
Lemma talk_send bs : talk (send bs) (fun _ t => t = [EvSend p bs] /\ True).
Proof. apply (talk_call (fun p => spiSend p bs) (fun _ => EvSend p bs)). by intros s [] s' H%spiSend_ok. Qed.
Lemma talk_ignore n : talk (ignore n) (fun _ t => t = [EvIgnore p n] /\ True).
Proof. apply (talk_call (fun p => spiIgnore p n) (fun _ => EvIgnore p n)). by intros s [] s' H%spiIgnore_ok. Qed.
Lemma talk_select : talk select (fun _ t => t = [EvSelect p] /\ True).
Proof. apply (talk_call spiSelect (fun _ => EvSelect p)). by intros s [] s' H%spiSelect_ok. Qed.
Lemma talk_unselect : talk unselect (fun _ t => t = [EvUnselect p] /\ True).
Proof. apply (talk_call spiUnselect (fun _ => EvUnselect p)). by intros s [] s' H%spiUnselect_ok. Qed.
Lemma talk_stop : talk stop (fun _ t => t = [EvStop p] /\ True).
Proof. apply (talk_call spiStop (fun _ => EvStop p)). by intros s [] s' H%spiStop_ok. Qed.
Lemma talk_start_with (cfg : MMCConfig -> nat) :
  talk (c ← Atom config; spiStart (spip c) (cfg c)) (fun _ t => t = [EvStart p (cfg c)] /\ True).
Proof.
  intros s a s' Hc (c' & s1 & E1 & E2). unfold config in E1. cbn [exec] in E1. unfold deref in E1.
  rewrite Hc in E1. injection E1 as <- <-. apply spiStart_ok in E2 as [E1 E2]. exists [EvStart p (cfg c)].
  by rewrite E2.
Qed.
Lemma talk_sleep ms : talk (lift (chThdSleepMilliseconds ms)) (fun _ t => t = []).
Proof.
  intros s a s' Hc E. set (T := fun s s' : S => bus s' = bus s /\ drv s' = drv s).
  assert (PreOrder T) by (split; [done|]; intros s1 s2 s3 [H1 H2] [H3 H4]; unfold T; split; congruence).
  apply (exec_lift_rel (K := ch_system) R T) in E as [E1 E2]; [|intros k s1; split; [apply bus_kernel|apply apart_l]|apply others].
  exists []. by rewrite app_nil_r, E2.
Qed.

Lemma talk_receive1 : talk receive1 (fun b t => t = polls c [b] /\ byte b).
Proof.
  unfold receive1. intros s a s' Hc (bs & s1 & E1 & E2).
  apply talk_receive in E1 as (t & B1 & C1 & D1 & -> & L & F); [|done].
  destruct bs as [|b [|??]]; [done| |done]. injection E2 as <- <-. exists [EvReceive p [b]].
  split_and!; [done..|]. by inversion F.
Qed.
(** *** Polls, frames and replies *)

Lemma idle_done : idle c (polls c [255]).
Proof. exists []. by split; [by apply Forall_nil|]. Qed.
Lemma idle_more b t : b <> 255 -> idle c t -> idle c (polls c [b] ++ t).
Proof. intros Hb (bs & H & ->). exists (b :: bs). split; [by apply Forall_cons|done]. Qed.

Lemma talk_poll_idle : talk poll_idle (fun _ => idle c).
Proof.
  assert (Hb : talk (A := unit + unit) (b ← receive1;
      if b =? 255 then mret (inr tt) else lift (chThdSleepMilliseconds 1);; mret (inl tt))
    (fun r t => match r with inr () => t = polls c [255] | inl () => exists b, b <> 255 /\ t = polls c [b] end)).
  { eapply talk_mono; [eapply talk_bind; [apply talk_receive1|intros b]|].
    - instantiate (1 := fun b r t => t = [] /\ match r with inr () => b = 255 | inl () => b <> 255 end).
      destruct (Z.eqb_spec b 255).
      + eapply talk_mono; [apply talk_ret|]. by intros ?? [-> ->].
      + eapply talk_mono; [eapply talk_bind; [apply talk_sleep|intros u; apply talk_ret]|].
        by intros ?? (? & t1 & t2 & -> & -> & -> & ->).
    - intros r t (b & t1 & t2 & -> & [-> _] & -> & H). rewrite app_nil_r. destruct r as [[]|[]]; [by exists b|by subst]. }
  intros s a s' Hc H. revert Hc. cbn [poll_idle exec] in H. induction H as [[] s [] s1 a s2 H1 H2 IH|[] s a s1 H1]; intros Hc.
  - apply Hb in H1 as (t & B1 & C1 & D1 & b & Hne & ->); [|done]. destruct (IH C1) as (t2 & B2 & C2 & D2 & Hi).
    exists (polls c [b] ++ t2). rewrite B2, B1, app_assoc. split_and!; [done..|congruence|by apply idle_more].
  - apply Hb in H1 as (t & B1 & C1 & D1 & Ht); [|done]. destruct a. subst t. eexists. by split_and!; eauto using idle_done.
Qed.

Lemma talk_wait : talk wait (fun _ => idle c).
Proof.
  unfold wait. generalize 16%nat. intros n. induction n as [|n IH]; [apply talk_poll_idle|]. cbn [wait_loop].
  eapply talk_mono; [eapply (talk_bind _ _ _ (fun b _ t => if b =? 255 then t = [] else idle c t)); [apply talk_receive1|intros b]|].
  - destruct (Z.eqb_spec b 255); [|exact IH]. eapply talk_mono; [apply talk_ret|]. by intros ?? [_ ->].
  - intros _ t (b & t1 & t2 & -> & [-> _] & H). destruct (Z.eqb_spec b 255).
    + subst. rewrite app_nil_r. apply idle_done.
    + by apply idle_more.
Qed.

Definition command_ok (cmd arg : Z) : Prop := 0 <= cmd < 64 /\ 0 <= arg < 2 ^ 32.

Lemma header_ok cmd arg : command_ok cmd arg ->
  [Z.lor 64 cmd; u8 (Z.shiftr arg 24); u8 (Z.shiftr arg 16); u8 (Z.shiftr arg 8); u8 arg] = header cmd arg.
Proof.
  intros [Hc Ha]. unfold header, u8. rewrite !Z.shiftr_div_pow2 by lia. f_equal.
  - symmetry. rewrite <- Z.lxor_lor; [apply Z.add_nocarry_lxor|]; apply Z.bits_inj'; intros n Hn;
    rewrite Z.land_spec, Z.bits_0; destruct (Z.eq_dec n 6) as [->|Hne].
    all: try (rewrite (Z.bits_above_log2 cmd), andb_false_r; [done|lia|]; destruct (Z.eq_dec cmd 0) as [->|]; [done|]; apply Z.log2_lt_pow2; lia).
    all: by rewrite (Z.pow2_bits_false 6) by lia.
  - f_equal. rewrite Z.mod_small; [done|]. split; [apply Z.div_pos; lia|apply Z.div_lt_upper_bound; lia].
Qed.
Lemma header_bytes cmd arg : command_ok cmd arg -> Forall byte (header cmd arg).
Proof.
  intros [Hc Ha]. unfold header, byte. repeat apply Forall_cons_2; [lia| |apply Z.mod_pos_bound; lia..|by apply Forall_nil].
  split; [apply Z.div_pos; lia|apply Z.div_lt_upper_bound; lia].
Qed.
Lemma checksum_ok crc : 0 <= crc < 128 -> Z.lor (u8 (Z.shiftl (Z.land crc 127) 1)) 1 = 2 * crc + 1.
Proof.
  intros H. change 127 with (Z.ones 7). rewrite (Z.land_ones crc 7), (Z.mod_small crc) by lia.
  rewrite Z.shiftl_mul_pow2, u8_id by lia. rewrite Z.mul_comm. change (2 ^ 1) with 2.
  rewrite <- Z.lxor_lor; [symmetry; apply Z.add_nocarry_lxor|].
  all: apply Z.bits_inj'; intros n Hn; rewrite Z.land_spec, Z.bits_0; destruct (Z.eq_dec n 0) as [->|].
  all: try by rewrite Z.testbit_even_0.
  all: by rewrite (Z.bits_above_log2 1), andb_false_r by (cbn; lia).
Qed.

Lemma talk_send_hdr cmd arg : command_ok cmd arg ->
  talk (send_hdr cmd arg) (fun _ t => exists w, idle c w /\ t = w ++ [EvSend p (frame cmd arg)]).
Proof.
  intros Hca. unfold send_hdr. rewrite (header_ok cmd arg Hca).
  destruct (crc7_ok (header cmd arg) (header_bytes _ _ Hca) 0 ltac:(lia)) as [E Hr].
  eapply talk_mono.
  { eapply talk_bind; [apply talk_wait|intros u]. eapply talk_bind; [by apply talk_deref|intros crc; apply talk_send]. }
  intros _ t (_ & w & ? & -> & Hw & ? & ? & ? & -> & [-> ->] & -> & _). exists w. split; [done|].
  by rewrite (checksum_ok _ Hr).
Qed.

Lemma talk_recvr1 : talk recvr1 (reply c).
Proof.
  assert (H : forall n, talk (recvr1_loop n) (fun r t => exists k, t = polls c (replicate k 255 ++ (if r =? 255 then [] else [r])) /\
    if r =? 255 then k = n else (k < n)%nat)).
  { induction n as [|n IH]; cbn [recvr1_loop].
    - eapply talk_mono; [apply talk_ret|]. intros r t [-> ->]. by exists 0%nat.
    - eapply talk_mono; [eapply (talk_bind _ _ _ (fun b r t => if b =? 255 then
        exists k, t = polls c (replicate k 255 ++ (if r =? 255 then [] else [r])) /\
          if r =? 255 then k = n else (k < n)%nat else r = b /\ t = [])); [apply talk_receive1|intros b]|].
      + destruct (Z.eqb_spec b 255); [exact IH|apply talk_ret].
      + intros r t (b & t1 & t2 & -> & [-> _] & H). destruct (Z.eqb_spec b 255) as [->|Hb].
        * destruct H as (k & -> & Hk). exists (Datatypes.S k). split; [done|]. destruct (r =? 255); lia.
        * destruct H as [-> ->]. exists 0%nat. destruct (Z.eqb_spec b 255); [done|]. split; [done|lia]. }
  exact (H 9%nat).
Qed.
(** *** Commands and registers *)

(** Follow a program of talking steps. *)
Ltac talk_known := first
  [ eapply talk_select | eapply talk_unselect | eapply talk_stop | eapply talk_send_hdr; eassumption
  | eapply talk_recvr1 | eapply talk_wait | eapply talk_receive1 | eapply talk_receive | eapply talk_send
  | eapply talk_ignore | eapply talk_start_with | eassumption ].
Ltac talks_to :=
  lazymatch goal with
  | |- talk (_ ≫= _) _ => eapply talk_bind; [talk_known|intros ?; talks_to]
  | |- talk (mret _) _ => eapply talk_ret
  | |- _ => first [talk_known | idtac]
  end.
Ltac talks := eapply talk_mono; [talks_to|].

Lemma talk_open cmd arg : command_ok cmd arg ->
  talk (select;; send_hdr cmd arg;; recvr1) (opened c cmd arg).
Proof.
  intros H. talks. intros r t (_ & ? & ? & -> & [-> _] & _ & ? & ? & -> & (w & Hw & ->) & Hr).
  exists w. eexists. split_and!; [done..|]. by rewrite <- !app_assoc.
Qed.
(** A bind whose rest is known for every value. *)
Lemma talk_then {A B} (q : prog S A) (k : A -> prog S B) P (Q : A -> B -> list ev -> Prop) (T : B -> list ev -> Prop) :
  talk q P -> (forall a, talk (k a) (Q a)) ->
  (forall a b t1 t2, P a t1 -> Q a b t2 -> T b (t1 ++ t2)) -> talk (q ≫= k) T.
Proof.
  intros H1 H2 HT. eapply talk_mono; [exact (talk_bind _ _ _ _ H1 H2)|].
  intros b t (a & t1 & t2 & -> & HP & HQ). eauto.
Qed.

Lemma opened_bind {B} cmd arg (k : Z -> prog S B) Q : command_ok cmd arg -> (forall r, talk (k r) (Q r)) ->
  talk (select;; send_hdr cmd arg;; r ← recvr1; k r)
    (fun b t => exists r o t2, opened c cmd arg r o /\ Q r b t2 /\ t = o ++ t2).
Proof.
  intros H Hk. eapply talk_mono.
  { eapply talk_bind; [talk_known|intros ?]. eapply talk_bind; [talk_known|intros ?].
    eapply talk_bind; [talk_known|exact Hk]. }
  intros b t (_ & ? & ? & -> & [-> _] & _ & ? & ? & -> & (w & Hw & ->) & r & a & t2 & -> & Hr & HQ).
  eexists r, _, t2. split_and!; [exists w, a; split_and!; [done..|reflexivity]|done|]. by rewrite <- !app_assoc.
Qed.

Lemma talk_command1 cmd arg : command_ok cmd arg -> talk (send_command_R1 cmd arg) (command1 c cmd arg).
Proof.
  intros H. unfold send_command_R1. eapply talk_mono; [apply opened_bind; [done|intros r; talks_to]|].
  intros r t (r' & o & t2 & Ho & (u & ? & ? & -> & [-> _] & -> & ->) & ->). exists o. by rewrite app_nil_r.
Qed.
Lemma talk_command3 cmd arg : command_ok cmd arg -> talk (send_command_R3 cmd arg) (command3 c cmd arg).
Proof.
  intros H. unfold send_command_R3.
  assert (Hq : talk (select;; send_hdr cmd arg;; r ← recvr1; buffer ← receive 4; unselect;; mret (r, buffer)) (command3 c cmd arg)).
  { eapply talk_mono; [apply opened_bind; [done|intros r; talks_to]|].
    intros r t (r' & o & t2 & Ho & (u & ? & ? & -> & [-> [Hl _]] & _ & ? & ? & -> & [-> _] & -> & ->) & ->).
    by exists o. }
  intros s a s' Hc E. apply (Hq s a s' Hc). unfold recvr3 in E. cbn [exec mbind prog_bind mret prog_ret] in E |- *.
  destruct E as (u & s1 & E1 & v & s2 & E2 & x & s3 & (r & s4 & E3 & b & s5 & E4 & E5) & w & s6 & E6 & E7).
  destruct E5 as [-> ->]. exists u, s1. split; [done|]. exists v, s2. split; [done|]. exists r, s4. split; [done|].
  exists b, s5. split; [done|]. by exists w, s6.
Qed.

Lemma talk_token n : talk (wait_token n) (fun b t => exists w, no_token w /\
  if (b : bool) then (length w < n)%nat /\ t = polls c (w ++ [254]) else length w = n /\ t = polls c w).
Proof.
  induction n as [|n IH]; cbn [wait_token].
  - eapply talk_mono; [apply talk_ret|]. intros b t [-> ->]. exists []. split; [by apply Forall_nil|done].
  - eapply (talk_then _ _ _ (fun x b t => if x =? 254 then b = true /\ t = [] else exists w, no_token w /\
      if (b : bool) then (length w < n)%nat /\ t = polls c (w ++ [254]) else length w = n /\ t = polls c w));
      [apply talk_receive1|intros x; destruct (x =? 254); [apply talk_ret|exact IH]|].
    intros x b t1 t2 [-> _] H. destruct (Z.eqb_spec x 254) as [->|Hx].
    + destruct H as [-> ->]. exists []. split; [by apply Forall_nil|]. split; [cbn; lia|done].
    + destruct H as (w & Hw & H). exists (x :: w). split; [by apply Forall_cons|].
      destruct b; destruct H as [Hl ->]; (split; [cbn; lia|done]).
Qed.

(** A block of [n] bytes after its token, [None] when the token does not come. *)
Lemma talk_data {B} n (yes : list Z -> prog S B) (no : prog S B) Y N :
  (forall bs, talk (yes bs) (Y bs)) -> talk no N ->
  talk (b ← wait_token MMC_WAIT_DATA; if (b : bool) then buf ← receive n; ignore 2;; yes buf else no)
    (fun b t => (exists bs d t2, data_block c n bs d /\ Y bs b t2 /\ t = d ++ t2) \/
                exists d t2, no_data c d /\ N b t2 /\ t = d ++ t2).
Proof.
  intros HY HN.
  eapply (talk_then _ _ _ (fun x b t => if (x : bool) then exists bs t2, length bs = n /\ Forall byte bs /\
    t = [EvReceive p bs; EvIgnore p 2] ++ t2 /\ Y bs b t2 else N b t)).
  - apply talk_token.
  - intros [|]; [|exact HN]. eapply talk_mono.
    { eapply talk_bind; [apply talk_receive|intros bs]. eapply talk_bind; [apply talk_ignore|intros ?]. apply HY. }
    intros b t (bs & ? & ? & -> & (-> & Hl & Hb) & _ & ? & t2 & -> & [-> _] & HYb). by exists bs, t2.
  - intros [|] b t1 t2 (w & Hw & Hl & ->) H.
    + left. destruct H as (bs & t3 & Hn & Hb & -> & H). eexists bs, _, t3.
      split_and!; [by exists w|done|]. by rewrite <- app_assoc.
    + right. eexists _, t2. split_and!; [by exists w|done..].
Qed.

Definition register_words (v : option (list Z)) : option (list Z) := words_of <$> v.
Lemma talk_register cmd : command_ok cmd 0 ->
  talk (read_CxD cmd) (fun w t => exists v, register c cmd v t /\ w = register_words v).
Proof.
  intros H. unfold read_CxD. eapply talk_mono.
  { apply (opened_bind _ _ _ (fun r w t => if negb (r =? 0) then w = None /\ t = [EvUnselect p] else
      (exists bs d, data_block c 16 bs d /\ w = Some (words_of bs) /\ t = d ++ [EvUnselect p]) \/ no_data c t /\ w = None)); [done|].
    intros r. destruct (negb (r =? 0)).
    - talks. intros w t (_ & ? & ? & -> & [-> _] & -> & ->). done.
    - eapply talk_mono; [apply talk_data; [intros bs; talks_to|apply talk_ret]|].
      intros w t [(bs & d & t2 & Hd & (_ & ? & ? & -> & [-> _] & -> & ->) & ->)|(d & t2 & Hd & [-> ->] & ->)].
      + left. by exists bs, d.
      + right. by rewrite app_nil_r. }
  intros w t (r & o & t2 & Ho & Hr & ->). destruct (Z.eqb_spec r 0) as [->|Hne]; cbn [negb] in Hr.
  - destruct Hr as [(bs & d & Hd & -> & ->)|[Hd ->]].
    + exists (Some bs). split; [by exists o, d|done].
    + exists None. split; [|done]. right. by exists o, t2.
  - destruct Hr as [-> ->]. exists None. split; [|done]. left. exists r. split; [done|]. by exists o.
Qed.

(** *** Blocks *)

Lemma acts_then {A B} (q : prog S A) (k : A -> prog S B) P (Q : A -> MMCDriver -> B -> list ev -> MMCDriver -> Prop)
    (T : MMCDriver -> B -> list ev -> MMCDriver -> Prop) :
  acts q P -> (forall a, acts (k a) (Q a)) ->
  (forall d a t1 d1 b t2 d2, P d a t1 d1 -> Q a d1 b t2 d2 -> T d b (t1 ++ t2) d2) -> acts (q ≫= k) T.
Proof.
  intros H1 H2 HT. eapply acts_mono; [exact (acts_bind _ _ _ _ H1 H2)|].
  intros d b t d2 (a & t1 & t2 & d1 & -> & HP & HQ). eauto.
Qed.
Lemma acts_alter f : (forall d, mmc_config (f d) = mmc_config d) ->
  acts (Atom (on_mmc f)) (fun d _ t d' => d' = f d /\ t = []).
Proof.
  intros Hf s a s' Hc [= <- <-]. exists []. rewrite bus_mmc, app_nil_r, proj_inj, Hf. done.
Qed.
Lemma acts_state st : acts (Atom (set_state st)) (fun d _ t d' => d' = set_mmc_state st d /\ t = []).
Proof. by apply acts_alter. Qed.
Lemma acts_view : acts (Atom mmcp) (fun d a t d' => a = d /\ d' = d /\ t = []).
Proof. intros s a s' Hc [= <- <-]. exists []. by rewrite app_nil_r. Qed.

Definition abandoned (t : list ev) : Prop := t = [EvUnselect p; EvStop p].
Lemma acts_abandon : acts abandon (fun d _ t d' => d' = set_mmc_state BLK_READY d /\ abandoned t).
Proof.
  eapply acts_then; [apply talk_unselect|intros ?; eapply acts_bind; [apply talk_stop|intros ?; apply acts_state]|].
  cbv beta. by intros d _ t1 d1 _ t2 d2 [-> [-> _]] (_ & ? & ? & ? & -> & [-> [-> _]] & -> & ->).
Qed.

Lemma address_ok cmd d blk : 0 <= cmd < 64 -> 0 <= blk < 2 ^ 32 -> command_ok cmd (address d blk).
Proof.
  intros Hcmd Hblk. split; [done|]. unfold address. destruct (block_addresses _); [done|]. apply Z.mod_pos_bound. lia.
Qed.

(** A stream is started, or the SPI driver is stopped with the card still selected. *)
Lemma acts_start st cmd blk : 0 <= cmd < 64 -> 0 <= blk < 2 ^ 32 ->
  acts (start_sequential st cmd blk) (fun d failed t d' => exists r o, start_stream c cmd (address d blk) r o /\
    if (failed : bool) then r <> 0 /\ d' = set_mmc_state BLK_READY d /\ t = o ++ [EvStop p]
    else r = 0 /\ d' = set_mmc_state st d /\ t = o).
Proof.
  intros Hcmd Hblk. unfold start_sequential.
  eapply (acts_then _ _ _ (fun _ d failed t d' => exists r o, start_stream c cmd (address d blk) r o /\
    if (failed : bool) then r <> 0 /\ d' = set_mmc_state BLK_READY d /\ t = o ++ [EvStop p]
    else r = 0 /\ d' = d /\ t = o)); [apply acts_state|intros _|].
  2: { intros d _ t1 d1 failed t2 d2 [-> ->] (r & o & Ho & H). exists r, o. split; [done|]. by destruct failed. }
  eapply (acts_then _ _ _ (fun _ d failed t d' => exists r o, opened c cmd (address d blk) r o /\
    if (failed : bool) then r <> 0 /\ d' = set_mmc_state BLK_READY d /\ t = o ++ [EvStop p]
    else r = 0 /\ d' = d /\ t = o)); [apply (talk_start_with hscfg)|intros _|].
  2: { intros d _ t1 d1 failed t2 d2 [-> [-> _]] (r & o & Ho & H). exists r, (EvStart p (hscfg c) :: o).
    split; [by exists o|]. destruct failed; destruct H as (? & ? & ->); done. }
  eapply acts_mono.
  { eapply acts_bind; [apply talk_select|intros ?]. eapply acts_bind; [apply acts_view|intros d].
    eapply acts_bind; [apply (talk_send_hdr cmd), (address_ok cmd d); done|intros ?].
    eapply (acts_bind _ _ _ (fun r d failed t d' => if (failed : bool) then r <> 0 /\ d' = set_mmc_state BLK_READY d /\ t = [EvStop p]
      else r = 0 /\ d' = d /\ t = [])); [apply talk_recvr1|intros r].
    destruct (Z.eqb_spec r 0); cbn [negb].
    - eapply acts_mono; [apply acts_ret|]. by intros d' ? ? ? (-> & -> & ->).
    - eapply acts_then; [apply talk_stop|intros ?; eapply acts_bind; [apply acts_state|intros ?; apply acts_ret]|].
      cbv beta. by intros d' ? ? ? ? ? ? [-> [-> _]] (_ & ? & ? & ? & -> & [-> ->] & -> & -> & ->). }
  intros d failed t d' (_ & ? & ? & ? & -> & [-> [-> _]] & ? & ? & ? & ? & -> & (-> & -> & ->) & _ & ? & ? & ? & -> &
    [-> (w & Hw & ->)] & r & a & t2 & ? & -> & [-> Ha] & H).
  eexists r, _. split; [exists w, a; split_and!; [done..|reflexivity]|].
  destruct failed; destruct H as (? & -> & ->); by rewrite <- ?app_assoc, ?app_nil_r.
Qed.
(** In the state the operation needs; otherwise it fails and does nothing. *)
Lemma acts_guard {B} st (v : B) (k : prog S B) P :
  acts k P ->
  acts (d ← Atom mmcp; if decide (mmc_state d <> st) then mret v else k)
    (fun d b t d' => if decide (mmc_state d = st) then P d b t d' else b = v /\ d' = d /\ t = []).
Proof.
  intros Hk. eapply (acts_then _ _ _ (fun d0 d b t d' => if decide (mmc_state d0 = st) then P d b t d' else b = v /\ d' = d /\ t = []));
    [apply acts_view|intros d0|].
  - destruct (decide (mmc_state d0 <> st)), (decide (mmc_state d0 = st)); [done| |done|tauto].
    eapply acts_mono; [apply acts_ret|]. by intros d b t d' (-> & -> & ->).
  - intros d d0 t1 d1 b t2 d2 (-> & -> & ->). done.
Qed.

Lemma acts_read_block : acts mmcSequentialRead (fun d b t d' => if decide (mmc_state d = BLK_READING) then
    match b with
    | Some bs => d' = d /\ data_block c 512 bs t
    | None => d' = set_mmc_state BLK_READY d /\ exists w, no_data c w /\ t = w ++ [EvUnselect p; EvStop p]
    end else b = None /\ d' = d /\ t = []).
Proof.
  unfold mmcSequentialRead. apply acts_guard.
  eapply (acts_then _ _ _ (fun x d b t d' => if (x : bool) then exists bs, b = Some bs /\ d' = d /\ length bs = 512%nat /\
    Forall byte bs /\ t = [EvReceive p bs; EvIgnore p 2] else b = None /\ d' = set_mmc_state BLK_READY d /\ abandoned t)).
  - apply talk_token.
  - intros [|].
    + eapply acts_then; [apply talk_receive|intros bs; eapply acts_bind; [apply talk_ignore|intros ?; apply acts_ret]|].
      cbv beta. intros d bs t1 d1 b t2 d2 [-> (-> & Hl & Hb)] (_ & ? & ? & ? & -> & [-> [-> _]] & -> & -> & ->). by exists bs.
    + eapply acts_then; [apply acts_abandon|intros ?; apply acts_ret|].
      cbv beta. intros d _ t1 d1 b t2 d2 [-> Ht] (-> & -> & ->). by rewrite app_nil_r.
  - intros d [|] t1 d1 b t2 d2 (-> & w & Hw & Hl & ->) H.
    + destruct H as (bs & -> & -> & Hn & Hb & ->). split; [done|]. by exists w.
    + destruct H as (-> & -> & ->). split; [done|]. eexists. split; [by exists w|done].
Qed.

Lemma acts_read_blocks n : acts (read_blocks n) (fun d b t d' => mmc_state d = BLK_READING ->
    match b with
    | Some bs => d' = d /\ exists blocks ds, Forall2 (data_block c 512) blocks ds /\ length blocks = n /\ bs = concat blocks /\ t = concat ds
    | None => d' = set_mmc_state BLK_READY d /\ exists w, t = w ++ [EvStop p]
    end).
Proof.
  induction n as [|n IH]; cbn [read_blocks].
  - eapply acts_mono; [apply acts_ret|]. intros d b t d' (-> & -> & ->) _. split; [done|]. by exists [], [].
  - eapply (acts_then _ _ _ (fun x d b t d' => match x with
      | None => b = None /\ d' = d /\ t = []
      | Some block => exists r, b = Datatypes.app block <$> r /\ (mmc_state d = BLK_READING ->
          match r with
          | Some bs => d' = d /\ exists blocks ds, Forall2 (data_block c 512) blocks ds /\ length blocks = n /\ bs = concat blocks /\ t = concat ds
          | None => d' = set_mmc_state BLK_READY d /\ exists w, t = w ++ [EvStop p]
          end)
      end)); [apply acts_read_block|intros [block|]|].
    + eapply acts_then; [apply IH|intros r; apply acts_ret|]. cbv beta.
      intros d r t1 d1 b t2 d2 H (-> & -> & ->). exists r. by rewrite app_nil_r.
    + eapply acts_mono; [apply acts_ret|]. by intros d b t d' (-> & -> & ->).
    + intros d x t1 d1 b t2 d2 H1 H2 Hs. cbv beta in H1. rewrite decide_True in H1 by done. destruct x as [block|].
      * destruct H1 as [-> Hb], H2 as (r & -> & H2). specialize (H2 Hs). destruct r as [bs|]; cbn.
        -- destruct H2 as [-> (blocks & ds & H & <- & -> & ->)]. split; [done|].
           exists (block :: blocks), (t1 :: ds). split_and!; [by constructor|done..].
        -- destruct H2 as [-> (w & ->)]. split; [done|]. exists (t1 ++ w). by rewrite app_assoc.
      * destruct H1 as [-> (w & Hw & ->)], H2 as (-> & -> & ->). split; [done|]. exists (w ++ [EvUnselect p]).
        by rewrite app_nil_r, <- app_assoc.
Qed.

Lemma acts_stop_read : acts mmcStopSequentialRead (fun d failed t d' => if decide (mmc_state d = BLK_READING) then
    failed = HAL_SUCCESS /\ d' = set_mmc_state BLK_READY d /\ exists r e, reply c r e /\
    t = [EvSend p [76; 0; 0; 0; 0; 1; 255]] ++ e ++ [EvUnselect p] else failed = HAL_FAILED /\ d' = d /\ t = []).
Proof.
  unfold mmcStopSequentialRead. apply acts_guard. eapply acts_mono.
  { eapply acts_bind; [apply talk_send|intros ?]. eapply acts_bind; [apply talk_recvr1|intros r].
    eapply acts_bind; [apply talk_unselect|intros ?]. eapply acts_bind; [apply acts_state|intros ?; apply acts_ret]. }
  intros d b t d' (_ & ? & ? & ? & -> & [-> [-> _]] & r & e & ? & ? & -> & [-> Hr] & _ & ? & ? & ? & -> & [-> [-> _]] &
    _ & ? & ? & ? & -> & [-> ->] & -> & -> & ->).
  split_and!; [done..|]. by exists r, e.
Qed.

Lemma acts_read blk n : 0 <= blk < 2 ^ 32 -> acts (mmc_read blk n) (fun d b t d' =>
    d' = set_mmc_state BLK_READY d /\
    match b with
    | Some bs => exists blocks, reading c (address d blk) blocks t /\ length blocks = n /\ bs = concat blocks
    | None => exists w, t = w ++ [EvStop p]
    end).
Proof.
  intros Hblk. unfold mmc_read.
  eapply (acts_then _ _ _ (fun (failed : bool) d b t d' => if failed then b = None /\ d' = d /\ t = [] else
    mmc_state d = BLK_READING -> d' = set_mmc_state BLK_READY d /\
    match b with
    | Some bs => exists blocks ds r e, Forall2 (data_block c 512) blocks ds /\ length blocks = n /\ bs = concat blocks /\
        reply c r e /\ t = concat ds ++ [EvSend p [76; 0; 0; 0; 0; 1; 255]] ++ e ++ [EvUnselect p]
    | None => exists w, t = w ++ [EvStop p]
    end)).
  - by apply acts_start.
  - intros [|]; [eapply acts_mono; [apply acts_ret|]; by intros d b t d' (-> & -> & ->)|].
    eapply (acts_then _ _ _ (fun x d b t d' => match x with
      | None => b = None /\ d' = d /\ t = []
      | Some bs => mmc_state d = BLK_READING -> b = Some bs /\ d' = set_mmc_state BLK_READY d /\ exists r e, reply c r e /\
          t = [EvSend p [76; 0; 0; 0; 0; 1; 255]] ++ e ++ [EvUnselect p]
      end)); [apply acts_read_blocks|intros [bs|]|].
    + eapply acts_then; [apply acts_stop_read|intros ?; apply acts_ret|]. cbv beta.
      intros d failed t1 d1 b t2 d2 H (-> & -> & ->) Hs. rewrite decide_True in H by done.
      destruct H as (-> & -> & r & e & He & ->). rewrite app_nil_r. split_and!; [done..|]. by exists r, e.
    + eapply acts_mono; [apply acts_ret|]. by intros d b t d' (-> & -> & ->).
    + intros d [bs|] t1 d1 b t2 d2 H1 H2 Hs; specialize (H1 Hs).
      * destruct H1 as [-> (blocks & ds & H & Hl & -> & ->)]. destruct (H2 Hs) as (-> & -> & r & e & He & ->).
        split; [done|]. by exists blocks, ds, r, e.
      * destruct H1 as [-> (w & ->)], H2 as (-> & -> & ->). split; [done|]. exists w. by rewrite app_nil_r.
  - intros d failed t1 d1 b t2 d2 (r & o & Ho & H1) H2. destruct failed.
    + destruct H1 as (_ & -> & ->), H2 as (-> & -> & ->). split; [done|]. exists o. by rewrite app_nil_r.
    + destruct H1 as (-> & -> & ->). destruct (H2 eq_refl) as [-> H]. split; [done|]. destruct b as [bs|].
      * destruct H as (blocks & ds & r & e & H & Hl & -> & He & ->). exists blocks. split_and!; [|done..].
        by exists o, ds, r, e.
      * destruct H as (w & ->). exists (o ++ w). by rewrite app_assoc.
Qed.

Lemma talk_block buffer : talk (send_block buffer)
  (fun _ t => (512 <= length buffer)%nat /\ t = [EvSend p (take 512 buffer)]).
Proof.
  intros s a s' Hc (b & s1 & E1 & E2). cbn [exec] in E1. unfold deref, first_block in E1.
  change (Z.to_nat MMCSD_BLOCK_SIZE) with 512%nat in E1.
  destruct (Nat.leb_spec 512 (length buffer)) as [Hl|]; [|done]. injection E1 as <- <-.
  apply talk_send in E2 as (t & B & C & D & -> & _); [|done]. by eexists.
Qed.

Lemma low_bits b : Z.land b 31 = b mod 32.
Proof. by change 31 with (Z.ones 5); rewrite Z.land_ones by lia. Qed.

Lemma acts_write_block buffer : acts (mmcSequentialWrite buffer) (fun d failed t d' => if decide (mmc_state d = BLK_WRITING) then
    (512 <= length buffer)%nat /\
    if (failed : bool) then d' = set_mmc_state BLK_READY d /\ exists w, t = w ++ [EvStop p]
    else d' = d /\ written c (take 512 buffer) t else failed = HAL_FAILED /\ d' = d /\ t = []).
Proof.
  unfold mmcSequentialWrite. apply acts_guard. eapply acts_mono.
  { eapply acts_bind; [apply talk_send|intros ?]. eapply acts_bind; [apply talk_block|intros ?].
    eapply acts_bind; [apply talk_ignore|intros ?].
    eapply (acts_bind _ _ _ (fun b d failed t d' => if b mod 32 =? 5 then failed = HAL_SUCCESS /\ d' = d /\ idle c t
      else failed = HAL_FAILED /\ d' = set_mmc_state BLK_READY d /\ abandoned t)); [apply talk_receive1|intros b].
    rewrite low_bits. destruct (Z.eqb_spec (b mod 32) 5).
    - eapply acts_then; [apply talk_wait|intros ?; apply acts_ret|]. cbv beta.
      intros d _ t1 d1 r t2 d2 [-> Hw] (-> & -> & ->). by rewrite app_nil_r.
    - eapply acts_then; [apply acts_abandon|intros ?; apply acts_ret|]. cbv beta.
      intros d _ t1 d1 r t2 d2 [-> Hw] (-> & -> & ->). by rewrite app_nil_r. }
  intros d failed t d' (_ & ? & ? & ? & -> & [-> [-> _]] & _ & ? & ? & ? & -> & [-> [Hl ->]] & _ & ? & ? & ? & -> & [-> [-> _]] &
    b & ? & w & ? & -> & [-> [-> _]] & H).
  split; [done|]. destruct (Z.eqb_spec (b mod 32) 5); destruct H as (-> & -> & H).
  - split; [done|]. by exists b, w.
  - split; [done|]. rewrite H. by exists [EvSend p [255; 252]; EvSend p (take 512 buffer); EvIgnore p 2; EvReceive p [b]; EvUnselect p].
Qed.

Lemma acts_write_blocks n : forall buffer, acts (write_blocks buffer n) (fun d failed t d' => mmc_state d = BLK_WRITING ->
    if (failed : bool) then d' = set_mmc_state BLK_READY d /\ exists w, t = w ++ [EvStop p]
    else d' = d /\ (512 * n <= length buffer)%nat /\
      exists ds, Forall2 (written c) (reshape (replicate n 512%nat) buffer) ds /\ t = concat ds).
Proof.
  induction n as [|n IH]; intros buffer; cbn [write_blocks].
  - eapply acts_mono; [apply acts_ret|]. intros d failed t d' (-> & -> & ->) _. split_and!; [done|lia|]. by exists [].
  - eapply (acts_then _ _ _ (fun (x : bool) d failed t d' => if x then failed = HAL_FAILED /\ d' = d /\ t = [] else
      mmc_state d = BLK_WRITING ->
      if (failed : bool) then d' = set_mmc_state BLK_READY d /\ exists w, t = w ++ [EvStop p]
      else d' = d /\ (512 * n <= length (drop 512 buffer))%nat /\
        exists ds, Forall2 (written c) (reshape (replicate n 512%nat) (drop 512 buffer)) ds /\ t = concat ds));
      [apply acts_write_block|intros [|]; [|apply IH]|].
    + eapply acts_mono; [apply acts_ret|]. by intros d b t d' (-> & -> & ->).
    + intros d x t1 d1 failed t2 d2 H1 H2 Hs. cbv beta in H1. rewrite decide_True in H1 by done.
      destruct H1 as [Hl H1]. destruct x.
      * destruct H1 as [-> (w & ->)], H2 as (-> & -> & ->). split; [done|]. exists w. by rewrite app_nil_r.
      * destruct H1 as [-> Hw]. specialize (H2 Hs). destruct failed.
        -- destruct H2 as [-> (w & ->)]. split; [done|]. exists (t1 ++ w). by rewrite app_assoc.
        -- destruct H2 as (-> & Hn & ds & H & ->). rewrite length_drop in Hn. split_and!; [done|lia|].
           exists (t1 :: ds). split; [by constructor|done].
Qed.

Lemma acts_stop_write : acts mmcStopSequentialWrite (fun d failed t d' => if decide (mmc_state d = BLK_WRITING) then
    failed = HAL_SUCCESS /\ d' = set_mmc_state BLK_READY d /\ t = [EvSend p [253; 255]; EvUnselect p]
    else failed = HAL_FAILED /\ d' = d /\ t = []).
Proof.
  unfold mmcStopSequentialWrite. apply acts_guard. eapply acts_mono.
  { eapply acts_bind; [apply talk_send|intros ?]. eapply acts_bind; [apply talk_unselect|intros ?].
    eapply acts_bind; [apply acts_state|intros ?; apply acts_ret]. }
  intros d b t d' (_ & ? & ? & ? & -> & [-> [-> _]] & _ & ? & ? & ? & -> & [-> [-> _]] &
    _ & ? & ? & ? & -> & [-> ->] & -> & -> & ->). done.
Qed.

Lemma acts_write blk buffer n : 0 <= blk < 2 ^ 32 -> acts (mmc_write blk buffer n) (fun d failed t d' =>
    d' = set_mmc_state BLK_READY d /\
    if (failed : bool) then exists w, t = w ++ [EvStop p]
    else (512 * n <= length buffer)%nat /\ writing c (address d blk) (reshape (replicate n 512%nat) buffer) t).
Proof.
  intros Hblk. unfold mmc_write.
  eapply (acts_then _ _ _ (fun (x : bool) d failed t d' => if x then failed = HAL_FAILED /\ d' = d /\ t = [] else
    mmc_state d = BLK_WRITING -> d' = set_mmc_state BLK_READY d /\
    if (failed : bool) then exists w, t = w ++ [EvStop p]
    else (512 * n <= length buffer)%nat /\ exists ds, Forall2 (written c) (reshape (replicate n 512%nat) buffer) ds /\
      t = concat ds ++ [EvSend p [253; 255]; EvUnselect p])).
  - by apply acts_start.
  - intros [|]; [eapply acts_mono; [apply acts_ret|]; by intros d b t d' (-> & -> & ->)|].
    eapply (acts_then _ _ _ (fun (x : bool) d failed t d' => if x then failed = HAL_FAILED /\ d' = d /\ t = [] else
      mmc_state d = BLK_WRITING -> failed = HAL_SUCCESS /\ d' = set_mmc_state BLK_READY d /\ t = [EvSend p [253; 255]; EvUnselect p]));
      [apply acts_write_blocks|intros [|]|].
    + eapply acts_mono; [apply acts_ret|]. by intros d b t d' (-> & -> & ->).
    + eapply acts_mono; [apply acts_stop_write|]. intros d b t d' H Hs. cbv beta in H. by rewrite decide_True in H.
    + intros d [|] t1 d1 b t2 d2 H1 H2 Hs; specialize (H1 Hs).
      * destruct H1 as [-> (w & ->)], H2 as (-> & -> & ->). split; [done|]. exists w. by rewrite app_nil_r.
      * destruct H1 as (-> & Hl & ds & H & ->). destruct (H2 Hs) as (-> & -> & ->). split; [done|]. split; [done|]. by exists ds.
  - intros d failed t1 d1 b t2 d2 (r & o & Ho & H1) H2. destruct failed.
    + destruct H1 as (_ & -> & ->), H2 as (-> & -> & ->). split; [done|]. exists o. by rewrite app_nil_r.
    + destruct H1 as (-> & -> & ->). destruct (H2 eq_refl) as [-> H]. split; [done|]. destruct b.
      * destruct H as (w & ->). exists (o ++ w). by rewrite app_assoc.
      * destruct H as (Hl & ds & H & ->). split; [done|]. by exists o, ds.
Qed.

(** *** The connection *)

Lemma talk_retry P attempt n : talk attempt P -> talk (retry (Datatypes.S n) attempt) (attempts P (Datatypes.S n)).
Proof.
  intros Ha. induction n as [|n IH].
  - eapply (talk_then _ _ _ (fun r b t => b = (if r is Some true then true else false) /\ t = [])); [exact Ha| |].
    + intros [[|]|]; apply talk_ret.
    + intros [[|]|] b t1 t2 H [-> ->]; rewrite app_nil_r; by constructor.
  - change (retry (Datatypes.S (Datatypes.S n)) attempt) with
      (r ← attempt; match r with None => mret false | Some true => mret true
        | Some false => lift (chThdSleepMilliseconds 10);; retry (Datatypes.S n) attempt end).
    eapply (talk_then _ _ _ (fun r b t => match r with None => b = false /\ t = [] | Some true => b = true /\ t = []
      | Some false => attempts P (Datatypes.S n) b t end)); [exact Ha| |].
    + intros [[|]|]; [apply talk_ret| |apply talk_ret].
      eapply talk_then; [apply talk_sleep|intros ?; exact IH|]. cbv beta. by intros _ b t1 t2 -> H.
    + intros [[|]|] b t1 t2 H H2; [|by constructor|]; destruct H2 as [-> ->]; rewrite app_nil_r; by constructor.
Qed.
Ltac command_range := split; [unfold MMCSD_CMD_GO_IDLE_STATE, MMCSD_CMD_APP_CMD, MMCSD_CMD_APP_OP_COND, MMCSD_CMD_INIT,
  MMCSD_CMD_SEND_IF_COND, MMCSD_CMD_READ_OCR, MMCSD_CMD_SET_BLOCKLEN, MMCSD_CMD_SEND_CSD, MMCSD_CMD_SEND_CID,
  MMCSD_CMD_ERASE_RW_BLK_START, MMCSD_CMD_ERASE_RW_BLK_END, MMCSD_CMD_ERASE; lia|
  unfold MMCSD_CMD8_PATTERN, MMCSD_BLOCK_SIZE; lia].

Lemma talk_try_idle : talk try_idle (idle_try c).
Proof.
  unfold try_idle. eapply talk_then; [apply talk_command1; command_range|intros r; apply talk_ret|]. cbv beta.
  intros r b t1 t2 H [-> ->]. rewrite app_nil_r. by exists r.
Qed.
Lemma talk_try_op_cond : talk try_op_cond (op_cond_try c).
Proof.
  unfold try_op_cond.
  eapply (talk_then _ _ _ (fun r1 r t2 => if r1 <=? 1 then exists r3, command3 c MMCSD_CMD_APP_OP_COND 1073742250 r3 t2 /\ r = Some (fst r3 =? 0)
    else r = Some false /\ t2 = [])); [apply talk_command1; command_range|intros r|].
  - destruct (r <=? 1); [|apply talk_ret].
    eapply (talk_then _ _ _ (fun '(x, _) b t => b = Some (x =? 0) /\ t = []));
      [apply talk_command3; command_range|intros [x y]; apply talk_ret|].
    intros [x y] b t1 t2 H [-> ->]. rewrite app_nil_r. by exists (x, y).
  - intros r b t1 t2 H1 H2. by exists r, t1, t2.
Qed.
Lemma talk_try_init : talk try_init (init_try c).
Proof.
  unfold try_init. eapply talk_then; [apply talk_command1; command_range|intros r; apply talk_ret|]. cbv beta.
  intros r b t1 t2 H [-> ->]. rewrite app_nil_r. exists r. split; [done|]. by destruct r as [|[]|].
Qed.

Definition with_ccs (blocks : bool) (d : MMCDriver) : MMCDriver :=
  if blocks then set_block_addresses true d else d.

Lemma ccs_bit b : negb (Z.land b 64 =? 0) = Z.testbit b 6.
Proof.
  destruct (Z.testbit b 6) eqn:E.
  - apply negb_true_iff, Z.eqb_neq. intros H. apply (f_equal (fun x => Z.testbit x 6)) in H.
    rewrite Z.land_spec, E, Z.bits_0 in H. done.
  - apply negb_false_iff, Z.eqb_eq, Z.bits_inj'. intros n Hn. rewrite Z.land_spec, Z.bits_0.
    destruct (Z.eq_dec n 6) as [->|Hne]; [by rewrite E|]. by rewrite (Z.pow2_bits_false 6), andb_false_r by lia.
Qed.

Lemma acts_read_ccs : acts read_ccs (fun d _ t d' => exists r1 b0 b1 b2 b3,
  command3 c MMCSD_CMD_READ_OCR 0 (r1, [b0; b1; b2; b3]) t /\ d' = with_ccs (Z.testbit b0 6) d).
Proof.
  unfold read_ccs.
  eapply (acts_then _ _ _ (fun '(_, r3) d _ t d' => exists b0, r3 !! 0%nat = Some b0 /\ t = [] /\ d' = with_ccs (Z.testbit b0 6) d));
    [apply talk_command3; command_range|intros [r1 r3]|].
  - destruct (r3 !! 0%nat) as [b0|] eqn:Eb.
    + eapply (acts_then _ _ _ (fun b d _ t d' => t = [] /\ d' = with_ccs (Z.testbit b 6) d)); [by apply talk_deref|intros b|].
      * rewrite ccs_bit. destruct (Z.testbit b 6); (eapply acts_mono; [first [by apply acts_alter|apply acts_ret]|]).
        -- by intros d [] t d' [-> ->].
        -- by intros d [] t d' (-> & _ & ->).
      * intros d b t1 d1 [] t2 d2 (-> & -> & ->) [-> ->]. by exists b0.
    + intros s a s' Hc (b & s1 & E1 & E2). done.
  - intros d [r1 r3] t1 d1 [] t2 d2 [-> (o & Ho & Hl & ->)] (b0 & Hb & -> & ->). cbn [fst snd] in *.
    destruct r3 as [|b [|b1 [|b2 [|b3 [|??]]]]]; try done. injection Hb as ->. exists r1, b0, b1, b2, b3.
    rewrite app_nil_r. split; [|done]. by exists o.
Qed.

Lemma acts_detect : acts detect_sdhc (fun d ok t d' => if (ok : bool) then
    exists blocks, detected c blocks t /\ d' = with_ccs blocks d else True).
Proof.
  unfold detect_sdhc.
  eapply (acts_then _ _ _ (fun '(r, _) d ok t d' => if r =? 5 then d' = d /\ ok = true /\ t = []
    else if (ok : bool) then exists ta to r1 b0 b1 b2 b3, attempts (op_cond_try c) MMC_ACMD41_RETRY true ta /\
      command3 c MMCSD_CMD_READ_OCR 0 (r1, [b0; b1; b2; b3]) to /\ t = ta ++ to /\
      d' = with_ccs (Z.testbit b0 6) d else True)); [apply talk_command3; command_range|intros [r y]|].
  - destruct (r =? 5); [apply acts_ret|].
    eapply (acts_then _ _ _ (fun (x : bool) d ok t d' => if x then exists r1 b0 b1 b2 b3,
      command3 c MMCSD_CMD_READ_OCR 0 (r1, [b0; b1; b2; b3]) t /\
      d' = with_ccs (Z.testbit b0 6) d else ok = false)); [apply talk_retry, talk_try_op_cond|intros [|]|].
    + eapply acts_then; [apply acts_read_ccs|intros ?; apply acts_ret|]. cbv beta.
      intros d _ t1 d1 b t2 d2 (r1 & b0 & b1 & b2 & b3 & H & ->) (-> & -> & ->). rewrite app_nil_r. by exists r1, b0, b1, b2, b3.
    + eapply acts_mono; [apply acts_ret|]. by intros d b t d' (-> & -> & ->).
    + intros d [|] t1 d1 ok t2 d2 [-> Ha] H; [|by subst]. destruct ok; [|done].
      destruct H as (r1 & b0 & b1 & b2 & b3 & H & ->). by exists t1, t2, r1, b0, b1, b2, b3.
  - intros d [r y] t1 d1 ok t2 d2 [-> H1] H2. destruct ok; [|done]. destruct (r =? 5) eqn:Er.
    + destruct H2 as (-> & _ & ->). exists false. split; [|done]. exists (r, y), t1, []. cbn. by rewrite Er.
    + destruct H2 as (ta & to & r1 & b0 & b1 & b2 & b3 & Ha & Hr & -> & ->). exists (Z.testbit b0 6). split; [|done].
      exists (r, y), t1, (ta ++ to). cbn [fst]. rewrite Er. split_and!; [done..|]. by exists ta, to, r1, b0, b1, b2, b3.
Qed.

Definition with_registers (csd cid : list Z) (n : Z) (d : MMCDriver) : MMCDriver :=
  set_cid (words_of cid) (set_capacity n (set_csd (words_of csd) d)).

Lemma acts_csd : acts read_csd (fun d ok t d' => if (ok : bool) then exists csd n,
    register c MMCSD_CMD_SEND_CSD (Some csd) t /\ _mmcsd_get_capacity (words_of csd) = Some n /\ n <> 0 /\
    d' = set_capacity n (set_csd (words_of csd) d) else True).
Proof.
  unfold read_csd.
  eapply (acts_then _ _ _ (fun w d ok t d' => if (ok : bool) then exists csd n, w = Some csd /\ t = [] /\
    _mmcsd_get_capacity csd = Some n /\ n <> 0 /\ d' = set_capacity n (set_csd csd d) else True));
    [apply talk_register; command_range|intros [csd|]|].
  - destruct (_mmcsd_get_capacity csd) as [n|] eqn:En; [|by intros s a s' Hc (? & ? & ? & ? & ? & ? & ?)].
    eapply acts_mono.
    { eapply acts_bind; [by apply (acts_alter (set_csd csd))|intros ?]. eapply acts_bind; [by apply talk_deref|intros ?].
      eapply acts_bind; [by apply (acts_alter (set_capacity _))|intros ?; apply acts_ret]. }
    intros d ok t d' (_ & ? & ? & ? & -> & [-> ->] & ? & ? & ? & ? & -> & (-> & -> & ->) & _ & ? & ? & ? & -> & [-> ->] & -> & -> & ->).
    destruct (Z.eqb_spec n 0); [done|]. by exists csd, n.
  - eapply acts_mono; [apply acts_ret|]. by intros d b t d' (-> & -> & ->).
  - intros d w t1 d1 ok t2 d2 (-> & v & H1 & ->) H2. destruct ok; [|done].
    destruct H2 as (csd & n & Hv & -> & Hn & Hz & ->). destruct v as [v|]; [|done]. injection Hv as <-.
    exists v, n. by rewrite app_nil_r.
Qed.
Lemma acts_cid : acts read_cid (fun d ok t d' => if (ok : bool) then exists cid,
    register c MMCSD_CMD_SEND_CID (Some cid) t /\ d' = set_cid (words_of cid) d else True).
Proof.
  unfold read_cid.
  eapply (acts_then _ _ _ (fun w d ok t d' => if (ok : bool) then exists cid, w = Some cid /\ t = [] /\ d' = set_cid cid d else True));
    [apply talk_register; command_range|intros [cid|]|].
  - eapply acts_then; [by apply (acts_alter (set_cid cid))|intros ?; apply acts_ret|]. cbv beta.
    intros d _ t1 d1 b t2 d2 [-> ->] (-> & -> & ->). by exists cid.
  - eapply acts_mono; [apply acts_ret|]. by intros d b t d' (-> & -> & ->).
  - intros d w t1 d1 ok t2 d2 (-> & v & H1 & ->) H2. destruct ok; [|done].
    destruct H2 as (cid & Hv & -> & ->). destruct v as [v|]; [|done]. injection Hv as <-. exists v. by rewrite app_nil_r.
Qed.

(** A step after one that has to succeed. *)
Lemma acts_and (q : prog S bool) (k : prog S bool) P Q (T : MMCDriver -> bool -> list ev -> MMCDriver -> Prop) :
  acts q (fun d (ok : bool) t d' => if ok then P d t d' else True) -> acts k (fun d (ok : bool) t d' => if ok then Q d t d' else True) ->
  (forall d t1 d1 t2 d2, P d t1 d1 -> Q d1 t2 d2 -> T d true (t1 ++ t2) d2) -> (forall d t d', T d false t d') ->
  acts (ok ← q; if negb ok then mret false else k) T.
Proof.
  intros Hq Hk HT HF. eapply (acts_then _ _ _ (fun (x : bool) d (ok : bool) t d' => if x then if ok then Q d t d' else True else ok = false));
    [exact Hq|intros [|]; [exact Hk|]|].
  - eapply acts_mono; [apply acts_ret|]. by intros d b t d' (-> & -> & ->).
  - intros d [|] t1 d1 [|] t2 d2 H1 H2; by eauto.
Qed.

Lemma acts_registers : acts read_registers (fun d ok t d' => if (ok : bool) then
    exists csd cid n, registers c csd cid t /\ _mmcsd_get_capacity (words_of csd) = Some n /\ n <> 0 /\
      d' = with_registers csd cid n d else True).
Proof.
  unfold read_registers.
  eapply (acts_then _ _ _ (fun r d ok t d' => if (ok : bool) then r = 0 /\ exists csd cid n t2 t3,
    register c MMCSD_CMD_SEND_CSD (Some csd) t2 /\ register c MMCSD_CMD_SEND_CID (Some cid) t3 /\ t = t2 ++ t3 /\
    _mmcsd_get_capacity (words_of csd) = Some n /\ n <> 0 /\ d' = with_registers csd cid n d else True));
    [apply talk_command1; command_range|intros r|].
  - destruct (Z.eqb_spec r 0) as [->|]; cbn [negb].
    + eapply acts_and; [apply acts_csd|apply acts_cid| |done]. cbv beta.
      intros d t1 d1 t2 d2 (csd & n & H1 & Hn & Hz & ->) (cid & H2 & ->). split; [done|]. by exists csd, cid, n, t1, t2.
    + eapply acts_mono; [apply acts_ret|]. by intros d b t d' (-> & -> & ->).
  - intros d r t1 d1 ok t2 d2 [-> H1] H2. destruct ok; [|done].
    destruct H2 as (-> & csd & cid & n & t3 & t4 & H2 & H3 & -> & Hn & Hz & ->). exists csd, cid, n.
    split_and!; [|done..]. by exists t1, t3, t4.
Qed.

Lemma acts_connect_steps : acts connect_steps (fun d ok t d' => if (ok : bool) then exists blocks csd cid n t0 t1 t2 t3,
    attempts (idle_try c) MMC_CMD0_RETRY true t0 /\ detected c blocks t1 /\ attempts (init_try c) MMC_CMD1_RETRY true t2 /\
    registers c csd cid t3 /\ t = t0 ++ t1 ++ t2 ++ [EvStart p (hscfg c)] ++ t3 /\
    _mmcsd_get_capacity (words_of csd) = Some n /\ n <> 0 /\ d' = with_registers csd cid n (with_ccs blocks d) else True).
Proof.
  unfold connect_steps.
  apply (acts_and _ _ (fun d t d' => d' = d /\ attempts (idle_try c) MMC_CMD0_RETRY true t) (fun d t d' => exists blocks csd cid n t1 t2 t3,
    detected c blocks t1 /\ attempts (init_try c) MMC_CMD1_RETRY true t2 /\
    registers c csd cid t3 /\ t = t1 ++ t2 ++ [EvStart p (hscfg c)] ++ t3 /\
    _mmcsd_get_capacity (words_of csd) = Some n /\ n <> 0 /\ d' = with_registers csd cid n (with_ccs blocks d))); [| | |done].
  - eapply acts_mono; [apply talk_retry, talk_try_idle|]. by intros d [|] t d' H.
  - apply (acts_and _ _ (fun d t d' => exists blocks, detected c blocks t /\ d' = with_ccs blocks d) (fun d t d' => exists csd cid n t2 t3,
      attempts (init_try c) MMC_CMD1_RETRY true t2 /\ registers c csd cid t3 /\ t = t2 ++ [EvStart p (hscfg c)] ++ t3 /\
      _mmcsd_get_capacity (words_of csd) = Some n /\ n <> 0 /\ d' = with_registers csd cid n d)); [apply acts_detect| | |done].
    + apply (acts_and _ _ (fun d t d' => d' = d /\ attempts (init_try c) MMC_CMD1_RETRY true t) (fun d t d' => exists csd cid n t3,
        registers c csd cid t3 /\ t = [EvStart p (hscfg c)] ++ t3 /\
        _mmcsd_get_capacity (words_of csd) = Some n /\ n <> 0 /\ d' = with_registers csd cid n d)); [| | |done].
      * eapply acts_mono; [apply talk_retry, talk_try_init|]. by intros d [|] t d' H.
      * eapply acts_then; [apply (talk_start_with hscfg)|intros ?; apply acts_registers|]. cbv beta.
        intros d _ t1 d1 [|] t2 d2 [-> [-> _]] H; [|done]. destruct H as (csd & cid & n & H1 & H2 & H3 & ->). by exists csd, cid, n, t2.
      * intros d t1 d1 t2 d2 [-> H] (csd & cid & n & t3 & H1 & -> & H2 & H3 & ->). by exists csd, cid, n, t1, t3.
    + intros d t1 d1 t2 d2 (blocks & H & ->) (csd & cid & n & t3 & t4 & H1 & H2 & -> & H3 & H4 & ->). by exists blocks, csd, cid, n, t1, t3, t4.
  - intros d t1 d1 t2 d2 [-> H] (blocks & csd & cid & n & t3 & t4 & t5 & H1 & H2 & H3 & -> & H4 & H5 & ->).
    by exists blocks, csd, cid, n, t1, t3, t4, t5.
Qed.
Lemma acts_atoms f g : (forall d, mmc_config (f d) = mmc_config d) -> (forall d, mmc_config (g d) = mmc_config d) ->
  acts (Atom (on_mmc f;; on_mmc g)) (fun d _ t d' => d' = g (f d) /\ t = []).
Proof.
  intros Hf Hg s a s' Hc [= <- <-]. exists []. rewrite !bus_mmc, app_nil_r, !proj_inj, Hg, Hf. done.
Qed.

Lemma acts_connect : acts mmcConnect (fun d failed t d' => if (failed : bool) then
    mmc_state d' = BLK_ACTIVE /\ exists w, t = w ++ [EvStop p]
  else exists blocks csd cid n, connected c blocks csd cid t /\ _mmcsd_get_capacity (words_of csd) = Some n /\ n <> 0 /\
    d' = set_mmc_state BLK_READY (with_registers csd cid n (with_ccs blocks (set_block_addresses false d)))).
Proof.
  unfold mmcConnect. eapply acts_mono.
  { eapply acts_bind; [eapply (acts_atoms (set_mmc_state BLK_CONNECTING) (set_block_addresses false)); done|intros ?].
    eapply acts_bind; [apply (talk_start_with lscfg)|intros ?]. eapply acts_bind; [apply talk_ignore|intros ?].
    eapply (acts_bind _ _ _ (fun (ok : bool) d failed t d' => if ok then failed = HAL_SUCCESS /\ t = [] /\ d' = set_mmc_state BLK_READY d
      else failed = HAL_FAILED /\ mmc_state d' = BLK_ACTIVE /\ t = [EvStop p])); [apply acts_connect_steps|intros [|]].
    - eapply acts_then; [apply acts_state|intros ?; apply acts_ret|]. cbv beta.
      by intros d _ t1 d1 b t2 d2 [-> ->] (-> & -> & ->).
    - eapply acts_then; [apply talk_stop|intros ?; eapply acts_bind; [apply acts_state|intros ?; apply acts_ret]|].
      cbv beta. by intros d' ? ? ? ? ? ? [-> [-> _]] (_ & ? & ? & ? & -> & [-> ->] & -> & -> & ->). }
  intros d failed t d' (_ & ? & ? & ? & -> & [-> ->] & _ & ? & ? & ? & -> & [-> [-> _]] & _ & ? & ? & ? & -> & [-> [-> _]] &
    ok & t1 & t2 & d1 & -> & H1 & H2). destruct ok.
  - destruct H1 as (blocks & csd & cid & n & t0 & t3 & t4 & t5 & H3 & H4 & H5 & H6 & -> & Hn & Hz & ->), H2 as (-> & -> & ->).
    exists blocks, csd, cid, n. split; [|by destruct blocks]. exists t0, t3, t4, t5. by rewrite app_nil_r.
  - destruct H2 as (-> & Hs & ->). split; [done|]. exists ([EvStart p (lscfg c); EvIgnore p 16] ++ t1). by rewrite <- !app_assoc.
Qed.

Lemma acts_locked {A} (q : prog S A) P : acts q P -> acts (locked q) P.
Proof.
  intros Hq s a s' Hc (b & s1 & E1 & u & s2 & E2 & [-> ->]). apply Hq in E1 as (t & B & C & HP); [|done].
  apply others in E2 as [B2 D2]. exists t. by rewrite B2, D2.
Qed.

Lemma talk_sync : talk sync (fun _ t => exists w, idle c w /\ t = [EvSelect p] ++ w ++ [EvUnselect p]).
Proof.
  unfold sync. eapply talk_then; [apply talk_select|intros ?; eapply talk_bind; [apply talk_poll_idle|intros ?; apply talk_unselect]|].
  cbv beta. intros _ _ t1 t2 [-> _] (_ & w & ? & -> & Hw & -> & _). by exists w.
Qed.

Lemma acts_disconnect : acts mmcDisconnect (fun d failed t d' => failed = HAL_SUCCESS /\ d' = set_mmc_state BLK_ACTIVE d /\
  if decide (mmc_state d = BLK_ACTIVE) then t = []
  else exists w, idle c w /\ t = [EvStart p (hscfg c); EvSelect p] ++ w ++ [EvUnselect p; EvStop p]).
Proof.
  unfold mmcDisconnect.
  eapply (acts_then _ _ (fun d active t d' => t = [] /\ if (active : bool) then mmc_state d = BLK_ACTIVE /\ d' = d
      else mmc_state d <> BLK_ACTIVE /\ d' = set_mmc_state BLK_DISCONNECTING d)
    (fun (active : bool) d failed t d' => failed = HAL_SUCCESS /\ if active then d' = d /\ t = [] else d' = set_mmc_state BLK_ACTIVE d /\
      exists w, idle c w /\ t = [EvStart p (hscfg c); EvSelect p] ++ w ++ [EvUnselect p; EvStop p])).
  - apply acts_locked. intros s a s' Hc E. exists []. rewrite app_nil_r. unfold mmcp, view in E. cbn [exec] in E.
    rewrite bind_run in E. cbn in E. destruct (decide (mmc_state (drv s) = BLK_ACTIVE)) as [Ha|Ha].
    + by injection E as <- <-.
    + injection E as <- <-. by rewrite bus_mmc, proj_inj.
  - intros [|]; [eapply acts_mono; [apply acts_ret|]; by intros d b t d' (-> & -> & ->)|]. eapply acts_mono.
    { eapply acts_bind; [apply (talk_start_with hscfg)|intros ?]. eapply acts_bind; [apply talk_sync|intros ?].
      eapply acts_bind; [apply talk_stop|intros ?]. eapply acts_bind; [apply acts_state|intros ?; apply acts_ret]. }
    intros d b t d' (_ & ? & ? & ? & -> & [-> [-> _]] & _ & ? & ? & ? & -> & [-> (w & Hw & ->)] & _ & ? & ? & ? & -> & [-> [-> _]] &
      _ & ? & ? & ? & -> & [-> ->] & -> & -> & ->). split_and!; [done..|]. exists w. split; [done|]. by rewrite <- !app_assoc.
  - intros d [|] t1 d1 failed t2 d2 [-> [Hs ->]] [-> H].
    + destruct H as [-> ->]. rewrite decide_True by done. split_and!; [done| |done]. destruct d; cbn in *; by subst.
    + destruct H as [-> H]. by rewrite decide_False by done.
Qed.

Lemma acts_sync : acts mmcSync (fun d failed t d' => if decide (mmc_state d = BLK_READY) then
    failed = HAL_SUCCESS /\ d' = set_mmc_state BLK_READY d /\
    exists w, idle c w /\ t = [EvStart p (hscfg c); EvSelect p] ++ w ++ [EvUnselect p]
  else failed = HAL_FAILED /\ d' = d /\ t = []).
Proof.
  unfold mmcSync. apply acts_guard. eapply acts_mono.
  { eapply acts_bind; [apply acts_state|intros ?]. eapply acts_bind; [apply (talk_start_with hscfg)|intros ?].
    eapply acts_bind; [apply talk_sync|intros ?]. eapply acts_bind; [apply acts_state|intros ?; apply acts_ret]. }
  intros d b t d' (_ & ? & ? & ? & -> & [-> ->] & _ & ? & ? & ? & -> & [-> [-> _]] & _ & ? & ? & ? & -> & [-> (w & Hw & ->)] &
    _ & ? & ? & ? & -> & [-> ->] & -> & -> & ->). split_and!; [done..|]. exists w. by rewrite app_nil_r.
Qed.

Definition erased (a b : Z) (t : list ev) : Prop :=
  exists t1 t2 t3, command1 c MMCSD_CMD_ERASE_RW_BLK_START a 0 t1 /\ command1 c MMCSD_CMD_ERASE_RW_BLK_END b 0 t2 /\
    command1 c MMCSD_CMD_ERASE 0 0 t3 /\ t = t1 ++ t2 ++ t3.

Lemma talk_erase a b : 0 <= a < 2 ^ 32 -> 0 <= b < 2 ^ 32 ->
  talk (erase_steps a b) (fun ok t => if (ok : bool) then erased a b t else True).
Proof.
  intros Ha Hb. unfold erase_steps.
  assert (Hlast : talk (r ← send_command_R1 MMCSD_CMD_ERASE 0; mret (r =? 0)) (fun ok t => if (ok : bool) then command1 c MMCSD_CMD_ERASE 0 0 t else True)).
  { eapply talk_then; [apply talk_command1; command_range|intros r; apply talk_ret|]. cbv beta. intros r ok t1 t2 H [-> ->].
    rewrite app_nil_r. by destruct (Z.eqb_spec r 0) as [->|]. }
  assert (Hif : forall r (q : prog S bool) P, talk q (fun ok t => if (ok : bool) then P t else True) ->
    talk (if negb (r =? 0) then mret false else q) (fun ok t => if (ok : bool) then r = 0 /\ P t else True)).
  { intros r q P Hq. destruct (Z.eqb_spec r 0); cbn [negb]; [eapply talk_mono; [exact Hq|]; by intros [|] t H|].
    eapply talk_mono; [apply talk_ret|]. by intros ? t [-> _]. }
  eapply (talk_then _ _ _ (fun r (ok : bool) t => if ok then r = 0 /\ exists t2 t3, command1 c MMCSD_CMD_ERASE_RW_BLK_END b 0 t2 /\
      command1 c MMCSD_CMD_ERASE 0 0 t3 /\ t = t2 ++ t3 else True)); [apply talk_command1; command_range|intros r; apply Hif|].
  - eapply talk_then; [apply talk_command1; command_range|intros r2; apply Hif, Hlast|]. cbv beta.
    intros r2 [|] t1 t2 H1 H2; [|done]. destruct H2 as [-> H2]. by exists t1, t2.
  - intros r [|] t1 t2 H1 H2; [|done]. destruct H2 as (-> & t3 & t4 & H2 & H3 & ->). by exists t1, t3, t4.
Qed.

Lemma acts_erase a b : 0 <= a < 2 ^ 32 -> 0 <= b < 2 ^ 32 ->
  acts (mmcErase a b) (fun d failed t d' => d' = set_mmc_state BLK_READY d /\
    if (failed : bool) then exists w, t = w ++ [EvStop p] else erased (address d a) (address d b) t).
Proof.
  intros Ha Hb. unfold mmcErase. eapply acts_mono.
  { eapply acts_bind; [apply acts_state|intros ?]. eapply acts_bind; [apply acts_view|intros d].
    eapply (acts_bind _ _ _ (fun (ok : bool) d failed t d' => d' = set_mmc_state BLK_READY d /\
      if ok then failed = HAL_SUCCESS /\ t = [] else failed = HAL_FAILED /\ t = [EvStop p])).
    - apply talk_erase; apply (address_ok 0); (done || lia).
    - intros [|].
      + eapply acts_then; [apply acts_state|intros ?; apply acts_ret|]. cbv beta.
        by intros d0 _ t1 d1 r t2 d2 [-> ->] (-> & -> & ->).
      + eapply acts_then; [apply talk_stop|intros ?; eapply acts_bind; [apply acts_state|intros ?; apply acts_ret]|].
        cbv beta. by intros d' ? ? ? ? ? ? [-> [-> _]] (_ & ? & ? & ? & -> & [-> ->] & -> & -> & ->). }
  intros d failed t d' (_ & ? & ? & ? & -> & [-> ->] & ? & ? & ? & ? & -> & (-> & -> & ->) & ok & t1 & t2 & ? & -> & [-> H1] & -> & H2).
  split; [done|]. destruct ok; destruct H2 as [-> ->].
  - by rewrite app_nil_r.
  - by exists t1.
Qed.
(** *** Bytes of a register as a number *)

Definition big_endian (bs : list Z) : Z := foldl (fun n b => 256 * n + b) 0 bs.

Lemma lor_shiftl a b k : 0 <= k -> 0 <= a < 2 ^ k -> Z.lor (Z.shiftl b k) a = b * 2 ^ k + a.
Proof.
  intros Hk Ha. rewrite <- (Z.shiftl_mul_pow2 b k) by lia. symmetry. rewrite <- Z.lxor_lor; [apply Z.add_nocarry_lxor|].
  all: apply Z.bits_inj'; intros n Hn; rewrite Z.land_spec, Z.bits_0, Z.shiftl_spec by lia.
  all: destruct (Z.lt_ge_cases n k); [by rewrite Z.testbit_neg_r by lia|].
  all: destruct (Z.eq_dec a 0) as [->|]; [by rewrite Z.bits_0, andb_false_r|].
  all: rewrite (Z.bits_above_log2 a), andb_false_r; [done|lia|]; enough (Z.log2 a < k) by lia; apply Z.log2_lt_pow2; lia.
Qed.

Lemma be32_ok b0 b1 b2 b3 : byte b0 -> byte b1 -> byte b2 -> byte b3 ->
  be32 b0 b1 b2 b3 = big_endian [b0; b1; b2; b3] /\ word (be32 b0 b1 b2 b3).
Proof.
  unfold byte, word. intros H0 H1 H2 H3. enough (be32 b0 b1 b2 b3 = big_endian [b0; b1; b2; b3]) as E.
  { split; [done|]. rewrite E. cbn. lia. }
  unfold be32. rewrite (lor_shiftl (Z.shiftl b1 16) b0 24); [|lia|rewrite Z.shiftl_mul_pow2; lia].
  replace (b0 * 2 ^ 24 + Z.shiftl b1 16) with (Z.shiftl (b0 * 256 + b1) 16) by (rewrite !Z.shiftl_mul_pow2 by lia; lia).
  rewrite (lor_shiftl (Z.shiftl b2 8)); [|lia|rewrite Z.shiftl_mul_pow2; lia].
  replace (_ + Z.shiftl b2 8) with (Z.shiftl ((b0 * 256 + b1) * 256 + b2) 8) by (rewrite !Z.shiftl_mul_pow2 by lia; lia).
  rewrite lor_shiftl by lia. cbn. lia.
Qed.

Lemma number_cons d ds : word d -> number (d :: ds) = number ds * 2 ^ 32 + d.
Proof. intros Hd. cbn [number]. rewrite Z.lor_comm. by apply lor_shiftl. Qed.

(** The words of a register of 16 bytes, as the bits of one number. *)
Lemma words_ok bs : length bs = 16%nat -> Forall byte bs ->
  length (words_of bs) = 4%nat /\ Forall word (words_of bs) /\ number (words_of bs) = big_endian bs.
Proof.
  intros Hl Hb. do 16 (destruct bs as [|?b bs]; [done|]). destruct bs; [|done]. cbn [words_of Datatypes.app].
  rewrite !Forall_cons in Hb. destruct_and!.
  repeat match goal with |- context [be32 ?a ?b ?c ?d] =>
    destruct (be32_ok a b c d) as [? ?]; [done..|]; generalize dependent (be32 a b c d); intros end.
  split; [done|]. split; [by repeat apply Forall_cons_2|].
  rewrite !number_cons by done. subst. cbn [number big_endian foldl] in *. lia.
Qed.

(** ** The theorems *)

(** C15: A connection that succeeds has spoken the whole procedure: idle within ten attempts at
    the low clock, detection of version 2 cards, initialisation within a hundred attempts,
    block length and registers at the high clock.  The driver is then ready, addresses blocks
    exactly when the card's register OCR says so, and its capacity is the one the 16 bytes of
    the CSD denote, never 0.  A connection that fails leaves the driver active and the SPI
    driver stopped. *)
Theorem mmcConnect_ok s failed s' :
  mmc_config (drv s) = Some c -> exec R mmcConnect s failed s' ->
  exists t, bus s' = bus s ++ t /\ mmc_config (drv s') = Some c /\
    if (failed : bool) then mmc_state (drv s') = BLK_ACTIVE /\ exists w, t = w ++ [EvStop p]
    else mmc_state (drv s') = BLK_READY /\ exists csd_bytes cid_bytes,
      connected c (block_addresses (drv s')) csd_bytes cid_bytes t /\
      capacity (drv s') = card_capacity (big_endian csd_bytes) /\ capacity (drv s') <> 0 /\
      number (csd (drv s')) = big_endian csd_bytes /\ number (cid (drv s')) = big_endian cid_bytes.
Proof.
  intros Hc (t & B & C & H)%acts_connect; [|done]. exists t. split; [done|]. split; [done|]. destruct failed; [done|].
  destruct H as (blocks & csd & cid & n & Hcon & Hn & Hz & ->). split; [done|]. exists csd, cid.
  assert (Hlen : forall cmd bs t, register c cmd (Some bs) t -> length bs = 16%nat /\ Forall byte bs).
  { intros cmd bs t' (o & d & _ & (w & _ & _ & Hl & Hb & _) & _). done. }
  pose proof Hcon as (t0 & t1 & t2 & t3 & _ & _ & _ & (t4 & t5 & t6 & _ & [Hl1 Hb1]%Hlen & [Hl2 Hb2]%Hlen & _) & _).
  destruct (words_ok csd Hl1 Hb1) as (L1 & W1 & N1), (words_ok cid Hl2 Hb2) as (L2 & W2 & N2).
  rewrite get_capacity_bits, N1 in Hn by done. injection Hn as <-.
  split_and!; [by destruct blocks|by destruct blocks..].
Qed.

(** C13: A read of [n] blocks that succeeds is one multiple-block read at the address of the
    first block, in blocks or in bytes as the card is addressed: the buffer is the data of
    [n] blocks of 512 bytes in the order the card sent them, each behind its data token, and
    the read is ended by the stop command and the card deselected.  A read that fails leaves
    the SPI driver stopped.  The driver is ready again in both cases. *)
Theorem mmc_read_ok s blk n r s' : 0 <= blk < 2 ^ 32 ->
  mmc_config (drv s) = Some c -> exec R (mmc_read blk n) s r s' ->
  exists t, bus s' = bus s ++ t /\ drv s' = set_mmc_state BLK_READY (drv s) /\
    match r with
    | Some buffer => exists blocks, reading c (address (drv s) blk) blocks t /\ length blocks = n /\ buffer = concat blocks
    | None => exists w, t = w ++ [EvStop p]
    end.
Proof. intros Hb Hc E. apply acts_read in E as (t & B & C & -> & H); [|done..]. by exists t. Qed.

(** C14: A write that succeeds sends the [n] blocks of 512 bytes of the buffer, in order and
    each behind its start token, to the address of the first block; the card has accepted
    each of them and has become idle after it, and the write is ended by the stop token.  No
    byte outside the buffer is read.  A write that fails leaves the SPI driver stopped, and
    the driver is ready again in both cases. *)
Theorem mmc_write_ok s blk buffer n failed s' : 0 <= blk < 2 ^ 32 ->
  mmc_config (drv s) = Some c -> exec R (mmc_write blk buffer n) s failed s' ->
  exists t, bus s' = bus s ++ t /\ drv s' = set_mmc_state BLK_READY (drv s) /\
    if (failed : bool) then exists w, t = w ++ [EvStop p]
    else (512 * n <= length buffer)%nat /\ writing c (address (drv s) blk) (reshape (replicate n 512%nat) buffer) t.
Proof. intros Hb Hc E. apply acts_write in E as (t & B & C & -> & H); [|done..]. by exists t. Qed.

(** *** The states of the driver *)

Inductive mmc_op :=
  | OpStart (cfg : MMCConfig) | OpStop | OpConnect | OpDisconnect
  | OpRead (blk : Z) (n : nat) | OpWrite (blk : Z) (buffer : list Z) (n : nat)
  | OpStartRead (blk : Z) | OpReadBlock | OpStopRead
  | OpStartWrite (blk : Z) | OpWriteBlock (buffer : list Z) | OpStopWrite
  | OpSync | OpErase (startblk endblk : Z).

Definition failing {A} (o : option A) : bool := match o with Some _ => HAL_SUCCESS | None => HAL_FAILED end.
Definition run_op (op : mmc_op) : prog S bool :=
  match op with
  | OpStart cfg => Atom (mmcStart cfg);; mret HAL_SUCCESS
  | OpStop => mmcStop;; mret HAL_SUCCESS
  | OpConnect => mmcConnect
  | OpDisconnect => mmcDisconnect
  | OpRead blk n => r ← mmc_read blk n; mret (failing r)
  | OpWrite blk buffer n => mmc_write blk buffer n
  | OpStartRead blk => mmcStartSequentialRead blk
  | OpReadBlock => r ← mmcSequentialRead; mret (failing r)
  | OpStopRead => mmcStopSequentialRead
  | OpStartWrite blk => mmcStartSequentialWrite blk
  | OpWriteBlock buffer => mmcSequentialWrite buffer
  | OpStopWrite => mmcStopSequentialWrite
  | OpSync => mmcSync
  | OpErase a b => mmcErase a b
  end.
Definition op_range (op : mmc_op) : Prop :=
  match op with
  | OpRead blk _ | OpWrite blk _ _ | OpStartRead blk | OpStartWrite blk => 0 <= blk < 2 ^ 32
  | OpErase a b => 0 <= a < 2 ^ 32 /\ 0 <= b < 2 ^ 32
  | _ => True
  end.

(** The diagram of the states: the next one, [None] where the operation needs a
    configuration and there is none. *)
Definition during (st : blkstate_t) (now : blkstate_t) (failed : bool) (yes no : blkstate_t) : option (bool * blkstate_t) :=
  if decide (now = st) then Some (failed, if failed then no else yes) else Some (HAL_FAILED, now).
Definition next (op : mmc_op) (st : blkstate_t) (failed : bool) : option (bool * blkstate_t) :=
  let started := decide (st <> BLK_STOP) in
  match op with
  | OpStart _ => Some (HAL_SUCCESS, BLK_ACTIVE)
  | OpStop => if started then Some (HAL_SUCCESS, BLK_STOP) else None
  | OpConnect => if started then Some (failed, if failed then BLK_ACTIVE else BLK_READY) else None
  | OpDisconnect => if started then Some (HAL_SUCCESS, BLK_ACTIVE) else None
  | OpRead _ _ | OpWrite _ _ _ | OpErase _ _ => if started then Some (failed, BLK_READY) else None
  | OpStartRead _ => if started then Some (failed, if failed then BLK_READY else BLK_READING) else None
  | OpStartWrite _ => if started then Some (failed, if failed then BLK_READY else BLK_WRITING) else None
  | OpReadBlock => during BLK_READING st failed BLK_READING BLK_READY
  | OpWriteBlock _ => during BLK_WRITING st failed BLK_WRITING BLK_READY
  | OpStopRead => during BLK_READING st false BLK_READY BLK_READY
  | OpStopWrite => during BLK_WRITING st false BLK_READY BLK_READY
  | OpSync => during BLK_READY st false BLK_READY BLK_READY
  end.

(** Between operations the driver is in a stable state, stopped exactly when it has no configuration. *)
Definition stable (d : MMCDriver) : Prop :=
  match mmc_state d with
  | BLK_STOP => mmc_config d = None
  | BLK_ACTIVE | BLK_READY | BLK_READING | BLK_WRITING => exists c, mmc_config d = Some c
  | _ => False
  end.
End driver.

Section lifecycle.
Context {S : Type} (R : why -> S -> S -> Prop) (bus : S -> list ev).
Context `{!Component S ch_system, !Component S MMCDriver, !Apart S ch_system MMCDriver, !Spi S, !SpiSpec R bus}.
Hypothesis others : forall w s s', R w s s' -> bus s' = bus s /\ proj (K := MMCDriver) s' = proj s.
#[local] Abbreviation drv := (proj (K := MMCDriver)).

(** Without a configuration a call of the SPI driver is a null pointer. *)
Lemma no_config {A} (k : MMCConfig -> prog S A) s a s' :
  mmc_config (drv s) = None -> ~ exec R (c ← Atom config; k c) s a s'.
Proof. intros Hc (c & s1 & E1 & _). cbn [exec] in E1. unfold config, deref in E1. by rewrite Hc in E1. Qed.
Definition usable (st : blkstate_t) : Prop := st = BLK_ACTIVE \/ st = BLK_READY \/ st = BLK_READING \/ st = BLK_WRITING.
Lemma stable_usable c d : mmc_config d = Some c -> stable d <-> usable (mmc_state d).
Proof.
  unfold stable, usable. intros Hc. split.
  - destruct (mmc_state d); try (intros H; by auto). congruence.
  - by intros [->|[->|[->| ->]]]; exists c.
Qed.
Lemma usable_started st : usable st -> st <> BLK_STOP.
Proof. by intros [->|[->|[->| ->]]]. Qed.

(** What an operation of the configured driver has to show. *)
Definition moves_to (op : mmc_op) (d : MMCDriver) (failed : bool) (d' : MMCDriver) : Prop :=
  usable (mmc_state d') /\ next op (mmc_state d) failed = Some (failed, mmc_state d').

Lemma ends_in op d failed d' st : mmc_state d' = st -> usable st ->
  next op (mmc_state d) failed = Some (failed, st) -> moves_to op d failed d'.
Proof. intros <- H E. by split. Qed.
Ltac goes := lazymatch goal with
  | |- usable _ => unfold usable; tauto
  | |- next _ _ _ = _ => unfold next, during; repeat case_decide; try tauto; try congruence; done
  end.

#[local] Abbreviation acts_on c := (acts R bus c).
Lemma acts_failing {A} c (q : prog S (option A)) P :
  acts_on c q P -> acts_on c (r ← q; mret (failing r)) (fun d failed t d' => exists r, failed = failing r /\ P d r t d').
Proof.
  intros Hq. eapply acts_then; [exact Hq|intros r; apply acts_ret|]. cbv beta.
  intros d r t1 d1 b t2 d2 H (-> & -> & ->). exists r. by rewrite app_nil_r.
Qed.

Ltac arrives st := apply (ends_in _ _ _ _ st); [first [done | assumption]|goes|goes].

Lemma configured c op : op_range op -> op <> OpStop -> (forall cfg, op <> OpStart cfg) ->
  acts_on c (run_op op) (fun d failed t d' => usable (mmc_state d) -> moves_to op d failed d').
Proof using others SpiSpec0 Apart0.
  intros Hr Hs Hst. destruct op as [cfg| | | |blk n|blk buffer n|blk| | |blk|buffer| | |a b]; cbn [run_op op_range] in *;
    [by destruct (Hst cfg)|done|..].
  - eapply acts_mono; [eapply acts_connect; first [exact others | exact _ | eassumption | done]|]. intros d failed t d' H Hu%usable_started. destruct failed.
    + destruct H as [H _]. arrives BLK_ACTIVE.
    + destruct H as (blocks & csd & cid & n & _ & _ & _ & ->). destruct blocks; arrives BLK_READY.
  - eapply acts_mono; [eapply acts_disconnect; first [exact others | exact _ | eassumption | done]|]. intros d failed t d' (-> & -> & _) Hu%usable_started. arrives BLK_ACTIVE.
  - eapply acts_mono; [eapply acts_failing, acts_read; first [exact others | exact _ | eassumption]|]. intros d failed t d' (r & -> & -> & _) Hu%usable_started. arrives BLK_READY.
  - eapply acts_mono; [eapply acts_write; first [exact others | exact _ | eassumption | done]|]. intros d failed t d' (-> & _) Hu%usable_started. arrives BLK_READY.
  - eapply acts_mono; [eapply acts_start; first [exact others | exact _ | eassumption | done]|]. intros d failed t d' (r & o & _ & H) Hu%usable_started.
    destruct failed; destruct H as (_ & -> & _); [arrives BLK_READY|arrives BLK_READING].
  - eapply acts_mono; [eapply acts_failing, acts_read_block; first [exact others | exact _ | eassumption]|]. intros d failed t d' (r & -> & H) Hu. cbv beta in H. case_decide as Hd.
    + destruct r; destruct H as [-> _]; [arrives BLK_READING|arrives BLK_READY].
    + destruct H as (-> & -> & _). by split; [|goes].
  - eapply acts_mono; [eapply acts_stop_read; first [exact others | exact _ | eassumption | done]|]. intros d failed t d' H Hu. cbv beta in H. case_decide as Hd.
    + destruct H as (-> & -> & _). arrives BLK_READY.
    + destruct H as (-> & -> & _). by split; [|goes].
  - eapply acts_mono; [eapply acts_start; first [exact others | exact _ | eassumption | done]|]. intros d failed t d' (r & o & _ & H) Hu%usable_started.
    destruct failed; destruct H as (_ & -> & _); [arrives BLK_READY|arrives BLK_WRITING].
  - eapply acts_mono; [eapply acts_write_block; first [exact others | exact _ | eassumption | done]|]. intros d failed t d' H Hu. cbv beta in H. case_decide as Hd.
    + destruct failed; destruct H as (_ & -> & _); [arrives BLK_READY|arrives BLK_WRITING].
    + destruct H as (-> & -> & _). by split; [|goes].
  - eapply acts_mono; [eapply acts_stop_write; first [exact others | exact _ | eassumption | done]|]. intros d failed t d' H Hu. cbv beta in H. case_decide as Hd.
    + destruct H as (-> & -> & _). arrives BLK_READY.
    + destruct H as (-> & -> & _). by split; [|goes].
  - eapply acts_mono; [eapply acts_sync; first [exact others | exact _ | eassumption | done]|]. intros d failed t d' H Hu. cbv beta in H. case_decide as Hd.
    + destruct H as (-> & -> & _). arrives BLK_READY.
    + destruct H as (-> & -> & _). by split; [|goes].
  - destruct Hr. eapply acts_mono; [eapply acts_erase; first [exact others | exact _ | eassumption | done]|]. intros d failed t d' (-> & _) Hu%usable_started. arrives BLK_READY.
Qed.
(** A stopped driver. *)
Definition stopped (s : S) : Prop := mmc_config (drv s) = None /\ mmc_state (drv s) = BLK_STOP.

Lemma alter_config f s u s' : (forall d, mmc_config (f d) = mmc_config d) ->
  exec R (Atom (on_mmc f)) s u s' -> mmc_config (drv s) = None -> mmc_config (drv s') = None.
Proof. intros Hf [= <- <-] Hc. by rewrite proj_inj, Hf. Qed.

Lemma stopped_start s st cmd blk failed s' : stopped s -> ~ exec R (start_sequential st cmd blk) s failed s'.
Proof.
  intros [Hc _] (u & s1 & E1 & v & s2 & E2 & _). apply alter_config in E1; [|done..].
  by eapply no_config, E2.
Qed.
Lemma stopped_connect s failed s' : stopped s -> ~ exec R mmcConnect s failed s'.
Proof.
  intros [Hc _] (u & s1 & E1 & v & s2 & E2 & _). injection E1 as <- <-.
  eapply no_config, E2. by rewrite !proj_inj.
Qed.
Lemma stopped_disconnect s failed s' : stopped s -> ~ exec R mmcDisconnect s failed s'.
Proof using others.
  intros [Hc Hs] (active & s1 & (a & s2 & E1 & u & s3 & E2 & -> & ->) & E3). apply others in E2 as [_ E2].
  unfold mmcp, view in E1. cbn [exec] in E1. rewrite bind_run in E1. cbn in E1. rewrite decide_False in E1 by congruence.
  injection E1 as <- <-. destruct E3 as (v & s4 & E3 & _). eapply no_config, E3. by rewrite E2, proj_inj.
Qed.
Lemma stopped_erase s a b failed s' : stopped s -> ~ exec R (mmcErase a b) s failed s'.
Proof.
  intros [Hc _] (u & s1 & E1 & d & s2 & E2 & ok & s3 & (r & s4 & (v & s5 & E3 & _) & _) & _).
  apply alter_config in E1; [|done..]. injection E2 as <- <-. by eapply no_config, E3.
Qed.
Lemma stopped_guard {B} st (v : B) (k : prog S B) s b s' : stopped s -> st <> BLK_STOP ->
  exec R (d ← Atom mmcp; if decide (mmc_state d <> st) then mret v else k) s b s' -> b = v /\ s' = s.
Proof.
  intros [_ Hs] Hst (d & s1 & E1 & E2). injection E1 as <- <-. rewrite decide_True in E2 by congruence. exact E2.
Qed.

Lemma stopped_step op s failed s' : stopped s -> (forall cfg, op <> OpStart cfg) -> exec R (run_op op) s failed s' ->
  failed = HAL_FAILED /\ s' = s /\ next op BLK_STOP failed = Some (failed, BLK_STOP).
Proof using others.
  intros Hs Hst E. destruct op as [cfg| | | |blk n|blk buffer n|blk| | |blk|buffer| | |a b]; cbn [run_op] in E.
  - by destruct (Hst cfg).
  - destruct E as (u & s1 & (v & s2 & E & _) & _). by eapply no_config in E; [|apply Hs].
  - by eapply stopped_connect in E.
  - by eapply stopped_disconnect in E.
  - destruct E as (u & s1 & (v & s2 & E & _) & _). by eapply stopped_start in E.
  - destruct E as (v & s2 & E & _). by eapply stopped_start in E.
  - by eapply stopped_start in E.
  - destruct E as (r & s1 & E & -> & ->). by apply stopped_guard in E as [-> ->].
  - by apply stopped_guard in E as [-> ->].
  - by eapply stopped_start in E.
  - by apply stopped_guard in E as [-> ->].
  - by apply stopped_guard in E as [-> ->].
  - by apply stopped_guard in E as [-> ->].
  - by eapply stopped_erase in E.
Qed.

End lifecycle.

End MmcProtocol.
