(* ===== verification/CardRegisters.v ===== *)
(** * Unpacked registers of MMC and SD cards: [os/hal/src/hal_mmcsd.c], [os/hal/include/hal_mmcsd.h]

    The identification (CID) and configuration (CSD) registers of a card, taken to pieces.
    The layouts of the cards' specification are given apart from the slices of the code;
    what a card packs with them, the driver unpacks. *)

From S2P Require Import Prelude CLib.
From S2P Require Import HalMmcsd HalMmcSpi MmcProtocol.

Module CardRegisters.
Import HalMmcsd HalMmcSpi MmcProtocol.

(** *** Slices of the registers *)

Definition MMCSD_CSD_MMC_CSD_STRUCTURE_SLICE : Z * Z := (127, 126).
Definition MMCSD_CSD_MMC_SPEC_VERS_SLICE : Z * Z := (125, 122).
Definition MMCSD_CSD_MMC_TAAC_SLICE : Z * Z := (119, 112).
Definition MMCSD_CSD_MMC_NSAC_SLICE : Z * Z := (111, 104).
Definition MMCSD_CSD_MMC_TRAN_SPEED_SLICE : Z * Z := (103, 96).
Definition MMCSD_CSD_MMC_CCC_SLICE : Z * Z := (95, 84).
Definition MMCSD_CSD_MMC_READ_BL_LEN_SLICE : Z * Z := (83, 80).
Definition MMCSD_CSD_MMC_READ_BL_PARTIAL_SLICE : Z * Z := (79, 79).
Definition MMCSD_CSD_MMC_WRITE_BLK_MISALIGN_SLICE : Z * Z := (78, 78).
Definition MMCSD_CSD_MMC_READ_BLK_MISALIGN_SLICE : Z * Z := (77, 77).
Definition MMCSD_CSD_MMC_DSR_IMP_SLICE : Z * Z := (76, 76).
Definition MMCSD_CSD_MMC_C_SIZE_SLICE : Z * Z := (73, 62).
Definition MMCSD_CSD_MMC_VDD_R_CURR_MIN_SLICE : Z * Z := (61, 59).
Definition MMCSD_CSD_MMC_VDD_R_CURR_MAX_SLICE : Z * Z := (58, 56).
Definition MMCSD_CSD_MMC_VDD_W_CURR_MIN_SLICE : Z * Z := (55, 53).
Definition MMCSD_CSD_MMC_VDD_W_CURR_MAX_SLICE : Z * Z := (52, 50).
Definition MMCSD_CSD_MMC_C_SIZE_MULT_SLICE : Z * Z := (49, 47).
Definition MMCSD_CSD_MMC_ERASE_GRP_SIZE_SLICE : Z * Z := (46, 42).
Definition MMCSD_CSD_MMC_ERASE_GRP_MULT_SLICE : Z * Z := (41, 37).
Definition MMCSD_CSD_MMC_WP_GRP_SIZE_SLICE : Z * Z := (36, 32).
Definition MMCSD_CSD_MMC_WP_GRP_ENABLE_SLICE : Z * Z := (31, 31).
Definition MMCSD_CSD_MMC_DEFAULT_ECC_SLICE : Z * Z := (30, 29).
Definition MMCSD_CSD_MMC_R2W_FACTOR_SLICE : Z * Z := (28, 26).
Definition MMCSD_CSD_MMC_WRITE_BL_LEN_SLICE : Z * Z := (25, 22).
Definition MMCSD_CSD_MMC_WRITE_BL_PARTIAL_SLICE : Z * Z := (21, 21).
Definition MMCSD_CSD_MMC_CONTENT_PROT_APP_SLICE : Z * Z := (16, 16).
Definition MMCSD_CSD_MMC_FILE_FORMAT_GRP_SLICE : Z * Z := (15, 15).
Definition MMCSD_CSD_MMC_COPY_SLICE : Z * Z := (14, 14).
Definition MMCSD_CSD_MMC_PERM_WRITE_PROTECT_SLICE : Z * Z := (13, 13).
Definition MMCSD_CSD_MMC_TMP_WRITE_PROTECT_SLICE : Z * Z := (12, 12).
Definition MMCSD_CSD_MMC_FILE_FORMAT_SLICE : Z * Z := (11, 10).
Definition MMCSD_CSD_MMC_ECC_SLICE : Z * Z := (9, 8).
Definition MMCSD_CSD_MMC_CRC_SLICE : Z * Z := (7, 1).
Definition MMCSD_CSD_20_CRC_SLICE : Z * Z := (7, 1).
Definition MMCSD_CSD_20_FILE_FORMAT_SLICE : Z * Z := (11, 10).
Definition MMCSD_CSD_20_TMP_WRITE_PROTECT_SLICE : Z * Z := (12, 12).
Definition MMCSD_CSD_20_PERM_WRITE_PROTECT_SLICE : Z * Z := (13, 13).
Definition MMCSD_CSD_20_COPY_SLICE : Z * Z := (14, 14).
Definition MMCSD_CSD_20_FILE_FORMAT_GRP_SLICE : Z * Z := (15, 15).
Definition MMCSD_CSD_20_WRITE_BL_PARTIAL_SLICE : Z * Z := (21, 21).
Definition MMCSD_CSD_20_WRITE_BL_LEN_SLICE : Z * Z := (25, 12).
Definition MMCSD_CSD_20_R2W_FACTOR_SLICE : Z * Z := (28, 26).
Definition MMCSD_CSD_20_WP_GRP_ENABLE_SLICE : Z * Z := (31, 31).
Definition MMCSD_CSD_20_WP_GRP_SIZE_SLICE : Z * Z := (38, 32).
Definition MMCSD_CSD_20_ERASE_SECTOR_SIZE_SLICE : Z * Z := (45, 39).
Definition MMCSD_CSD_20_ERASE_BLK_EN_SLICE : Z * Z := (46, 46).
Definition MMCSD_CSD_20_DSR_IMP_SLICE : Z * Z := (76, 76).
Definition MMCSD_CSD_20_READ_BLK_MISALIGN_SLICE : Z * Z := (77, 77).
Definition MMCSD_CSD_20_WRITE_BLK_MISALIGN_SLICE : Z * Z := (78, 78).
Definition MMCSD_CSD_20_READ_BL_PARTIAL_SLICE : Z * Z := (79, 79).
Definition MMCSD_CSD_20_READ_BL_LEN_SLICE : Z * Z := (83, 80).
Definition MMCSD_CSD_20_CCC_SLICE : Z * Z := (95, 84).
Definition MMCSD_CSD_20_TRANS_SPEED_SLICE : Z * Z := (103, 96).
Definition MMCSD_CSD_20_NSAC_SLICE : Z * Z := (111, 104).
Definition MMCSD_CSD_20_TAAC_SLICE : Z * Z := (119, 112).
Definition MMCSD_CSD_20_CSD_STRUCTURE_SLICE : Z * Z := (127, 126).
Definition MMCSD_CSD_10_CRC_SLICE : Z * Z := MMCSD_CSD_20_CRC_SLICE.
Definition MMCSD_CSD_10_FILE_FORMAT_SLICE : Z * Z := MMCSD_CSD_20_FILE_FORMAT_SLICE.
Definition MMCSD_CSD_10_TMP_WRITE_PROTECT_SLICE : Z * Z := MMCSD_CSD_20_TMP_WRITE_PROTECT_SLICE.
Definition MMCSD_CSD_10_PERM_WRITE_PROTECT_SLICE : Z * Z := MMCSD_CSD_20_PERM_WRITE_PROTECT_SLICE.
Definition MMCSD_CSD_10_COPY_SLICE : Z * Z := MMCSD_CSD_20_COPY_SLICE.
Definition MMCSD_CSD_10_FILE_FORMAT_GRP_SLICE : Z * Z := MMCSD_CSD_20_FILE_FORMAT_GRP_SLICE.
Definition MMCSD_CSD_10_WRITE_BL_PARTIAL_SLICE : Z * Z := MMCSD_CSD_20_WRITE_BL_PARTIAL_SLICE.
Definition MMCSD_CSD_10_WRITE_BL_LEN_SLICE : Z * Z := MMCSD_CSD_20_WRITE_BL_LEN_SLICE.
Definition MMCSD_CSD_10_R2W_FACTOR_SLICE : Z * Z := MMCSD_CSD_20_R2W_FACTOR_SLICE.
Definition MMCSD_CSD_10_WP_GRP_ENABLE_SLICE : Z * Z := MMCSD_CSD_20_WP_GRP_ENABLE_SLICE.
Definition MMCSD_CSD_10_WP_GRP_SIZE_SLICE : Z * Z := MMCSD_CSD_20_WP_GRP_SIZE_SLICE.
Definition MMCSD_CSD_10_ERASE_SECTOR_SIZE_SLICE : Z * Z := MMCSD_CSD_20_ERASE_SECTOR_SIZE_SLICE.
Definition MMCSD_CSD_10_ERASE_BLK_EN_SLICE : Z * Z := MMCSD_CSD_20_ERASE_BLK_EN_SLICE.
Definition MMCSD_CSD_10_VDD_W_CURR_MAX_SLICE : Z * Z := (52, 50).
Definition MMCSD_CSD_10_VDD_W_CURR_MIN_SLICE : Z * Z := (55, 53).
Definition MMCSD_CSD_10_VDD_R_CURR_MAX_SLICE : Z * Z := (58, 56).
Definition MMCSD_CSD_10_VDD_R_CURR_MIX_SLICE : Z * Z := (61, 59).
Definition MMCSD_CSD_10_DSR_IMP_SLICE : Z * Z := MMCSD_CSD_20_DSR_IMP_SLICE.
Definition MMCSD_CSD_10_READ_BLK_MISALIGN_SLICE : Z * Z := MMCSD_CSD_20_READ_BLK_MISALIGN_SLICE.
Definition MMCSD_CSD_10_WRITE_BLK_MISALIGN_SLICE : Z * Z := MMCSD_CSD_20_WRITE_BLK_MISALIGN_SLICE.
Definition MMCSD_CSD_10_READ_BL_PARTIAL_SLICE : Z * Z := MMCSD_CSD_20_READ_BL_PARTIAL_SLICE.
Definition MMCSD_CSD_10_CCC_SLICE : Z * Z := MMCSD_CSD_20_CCC_SLICE.
Definition MMCSD_CSD_10_TRANS_SPEED_SLICE : Z * Z := MMCSD_CSD_20_TRANS_SPEED_SLICE.
Definition MMCSD_CSD_10_NSAC_SLICE : Z * Z := MMCSD_CSD_20_NSAC_SLICE.
Definition MMCSD_CSD_10_TAAC_SLICE : Z * Z := MMCSD_CSD_20_TAAC_SLICE.
Definition MMCSD_CID_SDC_CRC_SLICE : Z * Z := (7, 1).
Definition MMCSD_CID_SDC_MDT_M_SLICE : Z * Z := (11, 8).
Definition MMCSD_CID_SDC_MDT_Y_SLICE : Z * Z := (19, 12).
Definition MMCSD_CID_SDC_PSN_SLICE : Z * Z := (55, 24).
Definition MMCSD_CID_SDC_PRV_M_SLICE : Z * Z := (59, 56).
Definition MMCSD_CID_SDC_PRV_N_SLICE : Z * Z := (63, 60).
Definition MMCSD_CID_SDC_PNM0_SLICE : Z * Z := (71, 64).
Definition MMCSD_CID_SDC_PNM1_SLICE : Z * Z := (79, 72).
Definition MMCSD_CID_SDC_PNM2_SLICE : Z * Z := (87, 80).
Definition MMCSD_CID_SDC_PNM3_SLICE : Z * Z := (95, 88).
Definition MMCSD_CID_SDC_PNM4_SLICE : Z * Z := (103, 96).
Definition MMCSD_CID_SDC_OID_SLICE : Z * Z := (119, 104).
Definition MMCSD_CID_SDC_MID_SLICE : Z * Z := (127, 120).
Definition MMCSD_CID_MMC_CRC_SLICE : Z * Z := (7, 1).
Definition MMCSD_CID_MMC_MDT_Y_SLICE : Z * Z := (11, 8).
Definition MMCSD_CID_MMC_MDT_M_SLICE : Z * Z := (15, 12).
Definition MMCSD_CID_MMC_PSN_SLICE : Z * Z := (47, 16).
Definition MMCSD_CID_MMC_PRV_M_SLICE : Z * Z := (51, 48).
Definition MMCSD_CID_MMC_PRV_N_SLICE : Z * Z := (55, 52).
Definition MMCSD_CID_MMC_PNM0_SLICE : Z * Z := (63, 56).
Definition MMCSD_CID_MMC_PNM1_SLICE : Z * Z := (71, 64).
Definition MMCSD_CID_MMC_PNM2_SLICE : Z * Z := (79, 72).
Definition MMCSD_CID_MMC_PNM3_SLICE : Z * Z := (87, 80).
Definition MMCSD_CID_MMC_PNM4_SLICE : Z * Z := (95, 88).
Definition MMCSD_CID_MMC_PNM5_SLICE : Z * Z := (103, 96).
Definition MMCSD_CID_MMC_OID_SLICE : Z * Z := (119, 104).
Definition MMCSD_CID_MMC_MID_SLICE : Z * Z := (127, 120).

(** *** The unpacked registers *)

Record unpacked_sdc_cid_t := SdcCid {
  sc_mid : Z;
  sc_oid : Z;
  sc_pnm : list Z;
  sc_prv_n : Z;
  sc_prv_m : Z;
  sc_psn : Z;
  sc_mdt_m : Z;
  sc_mdt_y : Z;
  sc_crc : Z
}.

Record unpacked_mmc_cid_t := MmcCid {
  mc_mid : Z;
  mc_oid : Z;
  mc_pnm : list Z;
  mc_prv_n : Z;
  mc_prv_m : Z;
  mc_psn : Z;
  mc_mdt_m : Z;
  mc_mdt_y : Z;
  mc_crc : Z
}.

Record unpacked_sdc_csd_10_t := Csd10 {
  c10_csd_structure : Z;
  c10_taac : Z;
  c10_nsac : Z;
  c10_tran_speed : Z;
  c10_ccc : Z;
  c10_read_bl_len : Z;
  c10_read_bl_partial : Z;
  c10_write_blk_misalign : Z;
  c10_read_blk_misalign : Z;
  c10_dsr_imp : Z;
  c10_c_size : Z;
  c10_vdd_r_curr_min : Z;
  c10_vdd_r_curr_max : Z;
  c10_vdd_w_curr_min : Z;
  c10_vdd_w_curr_max : Z;
  c10_c_size_mult : Z;
  c10_erase_blk_en : Z;
  c10_erase_sector_size : Z;
  c10_wp_grp_size : Z;
  c10_wp_grp_enable : Z;
  c10_r2w_factor : Z;
  c10_write_bl_len : Z;
  c10_write_bl_partial : Z;
  c10_file_format_grp : Z;
  c10_copy : Z;
  c10_perm_write_protect : Z;
  c10_tmp_write_protect : Z;
  c10_file_format : Z;
  c10_crc : Z
}.

Record unpacked_sdc_csd_20_t := Csd20 {
  c20_csd_structure : Z;
  c20_taac : Z;
  c20_nsac : Z;
  c20_tran_speed : Z;
  c20_ccc : Z;
  c20_read_bl_len : Z;
  c20_read_bl_partial : Z;
  c20_write_blk_misalign : Z;
  c20_read_blk_misalign : Z;
  c20_dsr_imp : Z;
  c20_c_size : Z;
  c20_erase_blk_en : Z;
  c20_erase_sector_size : Z;
  c20_wp_grp_size : Z;
  c20_wp_grp_enable : Z;
  c20_r2w_factor : Z;
  c20_write_bl_len : Z;
  c20_write_bl_partial : Z;
  c20_file_format_grp : Z;
  c20_copy : Z;
  c20_perm_write_protect : Z;
  c20_tmp_write_protect : Z;
  c20_file_format : Z;
  c20_crc : Z
}.

Record unpacked_mmc_csd_t := CsdMmc {
  cm_csd_structure : Z;
  cm_spec_vers : Z;
  cm_taac : Z;
  cm_nsac : Z;
  cm_tran_speed : Z;
  cm_ccc : Z;
  cm_read_bl_len : Z;
  cm_read_bl_partial : Z;
  cm_write_blk_misalign : Z;
  cm_read_blk_misalign : Z;
  cm_dsr_imp : Z;
  cm_c_size : Z;
  cm_vdd_r_curr_min : Z;
  cm_vdd_r_curr_max : Z;
  cm_vdd_w_curr_min : Z;
  cm_vdd_w_curr_max : Z;
  cm_c_size_mult : Z;
  cm_erase_grp_size : Z;
  cm_erase_grp_mult : Z;
  cm_wp_grp_size : Z;
  cm_wp_grp_enable : Z;
  cm_default_ecc : Z;
  cm_r2w_factor : Z;
  cm_write_bl_len : Z;
  cm_write_bl_partial : Z;
  cm_content_prot_app : Z;
  cm_file_format_grp : Z;
  cm_copy : Z;
  cm_perm_write_protect : Z;
  cm_tmp_write_protect : Z;
  cm_file_format : Z;
  cm_ecc : Z;
  cm_crc : Z
}.

(** *** Unpacking: from the words of the register of the block device into the structure
    that is filled, whose other members stay.  A plain [char] is unsigned. *)

Definition _mmcsd_unpack_sdc_cid (cid : list Z) (cidsdc : unpacked_sdc_cid_t) : option unpacked_sdc_cid_t :=
  crc ← _mmcsd_get_slice cid MMCSD_CID_SDC_CRC_SLICE;
  mdt_y ← _mmcsd_get_slice cid MMCSD_CID_SDC_MDT_Y_SLICE;
  mdt_m ← _mmcsd_get_slice cid MMCSD_CID_SDC_MDT_M_SLICE;
  mid ← _mmcsd_get_slice cid MMCSD_CID_SDC_MID_SLICE;
  oid ← _mmcsd_get_slice cid MMCSD_CID_SDC_OID_SLICE;
  pnm4 ← _mmcsd_get_slice cid MMCSD_CID_SDC_PNM0_SLICE;
  pnm3 ← _mmcsd_get_slice cid MMCSD_CID_SDC_PNM1_SLICE;
  pnm2 ← _mmcsd_get_slice cid MMCSD_CID_SDC_PNM2_SLICE;
  pnm1 ← _mmcsd_get_slice cid MMCSD_CID_SDC_PNM3_SLICE;
  pnm0 ← _mmcsd_get_slice cid MMCSD_CID_SDC_PNM4_SLICE;
  prv_n ← _mmcsd_get_slice cid MMCSD_CID_SDC_PRV_N_SLICE;
  prv_m ← _mmcsd_get_slice cid MMCSD_CID_SDC_PRV_M_SLICE;
  psn ← _mmcsd_get_slice cid MMCSD_CID_SDC_PSN_SLICE;
  Some {|
    sc_mid := u8 mid;
    sc_oid := u16 oid;
    sc_pnm := [u8 pnm0; u8 pnm1; u8 pnm2; u8 pnm3; u8 pnm4];
    sc_prv_n := u8 prv_n;
    sc_prv_m := u8 prv_m;
    sc_psn := psn;
    sc_mdt_m := u8 mdt_m;
    sc_mdt_y := u16 (u16 mdt_y + 2000);
    sc_crc := u8 crc
  |}.

Definition _mmcsd_unpack_mmc_cid (cid : list Z) (cidmmc : unpacked_mmc_cid_t) : option unpacked_mmc_cid_t :=
  crc ← _mmcsd_get_slice cid MMCSD_CID_MMC_CRC_SLICE;
  mdt_y ← _mmcsd_get_slice cid MMCSD_CID_MMC_MDT_Y_SLICE;
  mdt_m ← _mmcsd_get_slice cid MMCSD_CID_MMC_MDT_M_SLICE;
  mid ← _mmcsd_get_slice cid MMCSD_CID_MMC_MID_SLICE;
  oid ← _mmcsd_get_slice cid MMCSD_CID_MMC_OID_SLICE;
  pnm5 ← _mmcsd_get_slice cid MMCSD_CID_MMC_PNM0_SLICE;
  pnm4 ← _mmcsd_get_slice cid MMCSD_CID_MMC_PNM1_SLICE;
  pnm3 ← _mmcsd_get_slice cid MMCSD_CID_MMC_PNM2_SLICE;
  pnm2 ← _mmcsd_get_slice cid MMCSD_CID_MMC_PNM3_SLICE;
  pnm1 ← _mmcsd_get_slice cid MMCSD_CID_MMC_PNM4_SLICE;
  pnm0 ← _mmcsd_get_slice cid MMCSD_CID_MMC_PNM5_SLICE;
  prv_n ← _mmcsd_get_slice cid MMCSD_CID_MMC_PRV_N_SLICE;
  prv_m ← _mmcsd_get_slice cid MMCSD_CID_MMC_PRV_M_SLICE;
  psn ← _mmcsd_get_slice cid MMCSD_CID_MMC_PSN_SLICE;
  Some {|
    mc_mid := u8 mid;
    mc_oid := u16 oid;
    mc_pnm := [u8 pnm0; u8 pnm1; u8 pnm2; u8 pnm3; u8 pnm4; u8 pnm5];
    mc_prv_n := u8 prv_n;
    mc_prv_m := u8 prv_m;
    mc_psn := psn;
    mc_mdt_m := u8 mdt_m;
    mc_mdt_y := u16 (u16 mdt_y + 1997);
    mc_crc := u8 crc
  |}.

Definition _mmcsd_unpack_csd_mmc (csd : list Z) (csdmmc : unpacked_mmc_csd_t) : option unpacked_mmc_csd_t :=
  c_size ← _mmcsd_get_slice csd MMCSD_CSD_MMC_C_SIZE_SLICE;
  c_size_mult ← _mmcsd_get_slice csd MMCSD_CSD_MMC_C_SIZE_MULT_SLICE;
  ccc ← _mmcsd_get_slice csd MMCSD_CSD_MMC_CCC_SLICE;
  copy ← _mmcsd_get_slice csd MMCSD_CSD_MMC_COPY_SLICE;
  crc ← _mmcsd_get_slice csd MMCSD_CSD_MMC_CRC_SLICE;
  csd_structure ← _mmcsd_get_slice csd MMCSD_CSD_MMC_CSD_STRUCTURE_SLICE;
  dsr_imp ← _mmcsd_get_slice csd MMCSD_CSD_MMC_DSR_IMP_SLICE;
  ecc ← _mmcsd_get_slice csd MMCSD_CSD_MMC_ECC_SLICE;
  erase_grp_mult ← _mmcsd_get_slice csd MMCSD_CSD_MMC_ERASE_GRP_MULT_SLICE;
  erase_grp_size ← _mmcsd_get_slice csd MMCSD_CSD_MMC_ERASE_GRP_SIZE_SLICE;
  file_format ← _mmcsd_get_slice csd MMCSD_CSD_MMC_FILE_FORMAT_SLICE;
  file_format_grp ← _mmcsd_get_slice csd MMCSD_CSD_MMC_FILE_FORMAT_GRP_SLICE;
  nsac ← _mmcsd_get_slice csd MMCSD_CSD_MMC_NSAC_SLICE;
  perm_write_protect ← _mmcsd_get_slice csd MMCSD_CSD_MMC_PERM_WRITE_PROTECT_SLICE;
  r2w_factor ← _mmcsd_get_slice csd MMCSD_CSD_MMC_R2W_FACTOR_SLICE;
  read_bl_len ← _mmcsd_get_slice csd MMCSD_CSD_MMC_READ_BL_LEN_SLICE;
  read_bl_partial ← _mmcsd_get_slice csd MMCSD_CSD_MMC_READ_BL_PARTIAL_SLICE;
  read_blk_misalign ← _mmcsd_get_slice csd MMCSD_CSD_MMC_READ_BLK_MISALIGN_SLICE;
  spec_vers ← _mmcsd_get_slice csd MMCSD_CSD_MMC_SPEC_VERS_SLICE;
  taac ← _mmcsd_get_slice csd MMCSD_CSD_MMC_TAAC_SLICE;
  tmp_write_protect ← _mmcsd_get_slice csd MMCSD_CSD_MMC_TMP_WRITE_PROTECT_SLICE;
  tran_speed ← _mmcsd_get_slice csd MMCSD_CSD_MMC_TRAN_SPEED_SLICE;
  vdd_r_curr_max ← _mmcsd_get_slice csd MMCSD_CSD_MMC_VDD_R_CURR_MAX_SLICE;
  vdd_r_curr_min ← _mmcsd_get_slice csd MMCSD_CSD_MMC_VDD_R_CURR_MIN_SLICE;
  vdd_w_curr_max ← _mmcsd_get_slice csd MMCSD_CSD_MMC_VDD_W_CURR_MAX_SLICE;
  vdd_w_curr_min ← _mmcsd_get_slice csd MMCSD_CSD_MMC_VDD_W_CURR_MIN_SLICE;
  wp_grp_enable ← _mmcsd_get_slice csd MMCSD_CSD_MMC_WP_GRP_ENABLE_SLICE;
  wp_grp_size ← _mmcsd_get_slice csd MMCSD_CSD_MMC_WP_GRP_SIZE_SLICE;
  write_bl_len ← _mmcsd_get_slice csd MMCSD_CSD_MMC_WRITE_BL_LEN_SLICE;
  write_bl_partial ← _mmcsd_get_slice csd MMCSD_CSD_MMC_WRITE_BL_PARTIAL_SLICE;
  write_blk_misalign ← _mmcsd_get_slice csd MMCSD_CSD_MMC_WRITE_BLK_MISALIGN_SLICE;
  Some {|
    cm_csd_structure := u8 csd_structure;
    cm_spec_vers := u8 spec_vers;
    cm_taac := u8 taac;
    cm_nsac := u8 nsac;
    cm_tran_speed := u8 tran_speed;
    cm_ccc := u16 ccc;
    cm_read_bl_len := u8 read_bl_len;
    cm_read_bl_partial := u8 read_bl_partial;
    cm_write_blk_misalign := u8 write_blk_misalign;
    cm_read_blk_misalign := u8 read_blk_misalign;
    cm_dsr_imp := u8 dsr_imp;
    cm_c_size := u16 c_size;
    cm_vdd_r_curr_min := u8 vdd_r_curr_min;
    cm_vdd_r_curr_max := u8 vdd_r_curr_max;
    cm_vdd_w_curr_min := u8 vdd_w_curr_min;
    cm_vdd_w_curr_max := u8 vdd_w_curr_max;
    cm_c_size_mult := u8 c_size_mult;
    cm_erase_grp_size := u8 erase_grp_size;
    cm_erase_grp_mult := u8 erase_grp_mult;
    cm_wp_grp_size := u8 wp_grp_size;
    cm_wp_grp_enable := u8 wp_grp_enable;
    cm_default_ecc := cm_default_ecc csdmmc;
    cm_r2w_factor := u8 r2w_factor;
    cm_write_bl_len := u8 write_bl_len;
    cm_write_bl_partial := u8 write_bl_partial;
    cm_content_prot_app := cm_content_prot_app csdmmc;
    cm_file_format_grp := u8 file_format_grp;
    cm_copy := u8 copy;
    cm_perm_write_protect := u8 perm_write_protect;
    cm_tmp_write_protect := u8 tmp_write_protect;
    cm_file_format := u8 file_format;
    cm_ecc := u8 ecc;
    cm_crc := u8 crc
  |}.

Definition _mmcsd_unpack_csd_v10 (csd : list Z) (csd10 : unpacked_sdc_csd_10_t) : option unpacked_sdc_csd_10_t :=
  c_size ← _mmcsd_get_slice csd MMCSD_CSD_10_C_SIZE_SLICE;
  c_size_mult ← _mmcsd_get_slice csd MMCSD_CSD_10_C_SIZE_MULT_SLICE;
  ccc ← _mmcsd_get_slice csd MMCSD_CSD_10_CCC_SLICE;
  copy ← _mmcsd_get_slice csd MMCSD_CSD_10_COPY_SLICE;
  crc ← _mmcsd_get_slice csd MMCSD_CSD_10_CRC_SLICE;
  csd_structure ← _mmcsd_get_slice csd MMCSD_CSD_10_CSD_STRUCTURE_SLICE;
  dsr_imp ← _mmcsd_get_slice csd MMCSD_CSD_10_DSR_IMP_SLICE;
  erase_blk_en ← _mmcsd_get_slice csd MMCSD_CSD_10_ERASE_BLK_EN_SLICE;
  erase_sector_size ← _mmcsd_get_slice csd MMCSD_CSD_10_ERASE_SECTOR_SIZE_SLICE;
  file_format ← _mmcsd_get_slice csd MMCSD_CSD_10_FILE_FORMAT_SLICE;
  file_format_grp ← _mmcsd_get_slice csd MMCSD_CSD_10_FILE_FORMAT_GRP_SLICE;
  nsac ← _mmcsd_get_slice csd MMCSD_CSD_10_NSAC_SLICE;
  perm_write_protect ← _mmcsd_get_slice csd MMCSD_CSD_10_PERM_WRITE_PROTECT_SLICE;
  r2w_factor ← _mmcsd_get_slice csd MMCSD_CSD_10_R2W_FACTOR_SLICE;
  read_bl_len ← _mmcsd_get_slice csd MMCSD_CSD_10_READ_BL_LEN_SLICE;
  read_bl_partial ← _mmcsd_get_slice csd MMCSD_CSD_10_READ_BL_PARTIAL_SLICE;
  read_blk_misalign ← _mmcsd_get_slice csd MMCSD_CSD_10_READ_BLK_MISALIGN_SLICE;
  taac ← _mmcsd_get_slice csd MMCSD_CSD_10_TAAC_SLICE;
  tmp_write_protect ← _mmcsd_get_slice csd MMCSD_CSD_10_TMP_WRITE_PROTECT_SLICE;
  tran_speed ← _mmcsd_get_slice csd MMCSD_CSD_10_TRANS_SPEED_SLICE;
  wp_grp_enable ← _mmcsd_get_slice csd MMCSD_CSD_10_WP_GRP_ENABLE_SLICE;
  wp_grp_size ← _mmcsd_get_slice csd MMCSD_CSD_10_WP_GRP_SIZE_SLICE;
  write_bl_len ← _mmcsd_get_slice csd MMCSD_CSD_10_WRITE_BL_LEN_SLICE;
  write_bl_partial ← _mmcsd_get_slice csd MMCSD_CSD_10_WRITE_BL_PARTIAL_SLICE;
  write_blk_misalign ← _mmcsd_get_slice csd MMCSD_CSD_10_WRITE_BLK_MISALIGN_SLICE;
  Some {|
    c10_csd_structure := u8 csd_structure;
    c10_taac := u8 taac;
    c10_nsac := u8 nsac;
    c10_tran_speed := u8 tran_speed;
    c10_ccc := u16 ccc;
    c10_read_bl_len := u8 read_bl_len;
    c10_read_bl_partial := u8 read_bl_partial;
    c10_write_blk_misalign := u8 write_blk_misalign;
    c10_read_blk_misalign := u8 read_blk_misalign;
    c10_dsr_imp := u8 dsr_imp;
    c10_c_size := u16 c_size;
    c10_vdd_r_curr_min := c10_vdd_r_curr_min csd10;
    c10_vdd_r_curr_max := c10_vdd_r_curr_max csd10;
    c10_vdd_w_curr_min := c10_vdd_w_curr_min csd10;
    c10_vdd_w_curr_max := c10_vdd_w_curr_max csd10;
    c10_c_size_mult := u8 c_size_mult;
    c10_erase_blk_en := u8 erase_blk_en;
    c10_erase_sector_size := u8 erase_sector_size;
    c10_wp_grp_size := u8 wp_grp_size;
    c10_wp_grp_enable := u8 wp_grp_enable;
    c10_r2w_factor := u8 r2w_factor;
    c10_write_bl_len := u8 write_bl_len;
    c10_write_bl_partial := u8 write_bl_partial;
    c10_file_format_grp := u8 file_format_grp;
    c10_copy := u8 copy;
    c10_perm_write_protect := u8 perm_write_protect;
    c10_tmp_write_protect := u8 tmp_write_protect;
    c10_file_format := u8 file_format;
    c10_crc := u8 crc
  |}.

Definition _mmcsd_unpack_csd_v20 (csd : list Z) (csd20 : unpacked_sdc_csd_20_t) : option unpacked_sdc_csd_20_t :=
  c_size ← _mmcsd_get_slice csd MMCSD_CSD_20_C_SIZE_SLICE;
  crc ← _mmcsd_get_slice csd MMCSD_CSD_20_CRC_SLICE;
  ccc ← _mmcsd_get_slice csd MMCSD_CSD_20_CCC_SLICE;
  copy ← _mmcsd_get_slice csd MMCSD_CSD_20_COPY_SLICE;
  csd_structure ← _mmcsd_get_slice csd MMCSD_CSD_20_CSD_STRUCTURE_SLICE;
  dsr_imp ← _mmcsd_get_slice csd MMCSD_CSD_20_DSR_IMP_SLICE;
  erase_blk_en ← _mmcsd_get_slice csd MMCSD_CSD_20_ERASE_BLK_EN_SLICE;
  file_format ← _mmcsd_get_slice csd MMCSD_CSD_20_FILE_FORMAT_SLICE;
  file_format_grp ← _mmcsd_get_slice csd MMCSD_CSD_20_FILE_FORMAT_GRP_SLICE;
  nsac ← _mmcsd_get_slice csd MMCSD_CSD_20_NSAC_SLICE;
  perm_write_protect ← _mmcsd_get_slice csd MMCSD_CSD_20_PERM_WRITE_PROTECT_SLICE;
  r2w_factor ← _mmcsd_get_slice csd MMCSD_CSD_20_R2W_FACTOR_SLICE;
  read_bl_len ← _mmcsd_get_slice csd MMCSD_CSD_20_READ_BL_LEN_SLICE;
  read_bl_partial ← _mmcsd_get_slice csd MMCSD_CSD_20_READ_BL_PARTIAL_SLICE;
  read_blk_misalign ← _mmcsd_get_slice csd MMCSD_CSD_20_READ_BLK_MISALIGN_SLICE;
  erase_sector_size ← _mmcsd_get_slice csd MMCSD_CSD_20_ERASE_SECTOR_SIZE_SLICE;
  taac ← _mmcsd_get_slice csd MMCSD_CSD_20_TAAC_SLICE;
  tmp_write_protect ← _mmcsd_get_slice csd MMCSD_CSD_20_TMP_WRITE_PROTECT_SLICE;
  tran_speed ← _mmcsd_get_slice csd MMCSD_CSD_20_TRANS_SPEED_SLICE;
  wp_grp_enable ← _mmcsd_get_slice csd MMCSD_CSD_20_WP_GRP_ENABLE_SLICE;
  wp_grp_size ← _mmcsd_get_slice csd MMCSD_CSD_20_WP_GRP_SIZE_SLICE;
  write_bl_len ← _mmcsd_get_slice csd MMCSD_CSD_20_WRITE_BL_LEN_SLICE;
  write_bl_partial ← _mmcsd_get_slice csd MMCSD_CSD_20_WRITE_BL_PARTIAL_SLICE;
  write_blk_misalign ← _mmcsd_get_slice csd MMCSD_CSD_20_WRITE_BLK_MISALIGN_SLICE;
  Some {|
    c20_csd_structure := u8 csd_structure;
    c20_taac := u8 taac;
    c20_nsac := u8 nsac;
    c20_tran_speed := u8 tran_speed;
    c20_ccc := u16 ccc;
    c20_read_bl_len := u8 read_bl_len;
    c20_read_bl_partial := u8 read_bl_partial;
    c20_write_blk_misalign := u8 write_blk_misalign;
    c20_read_blk_misalign := u8 read_blk_misalign;
    c20_dsr_imp := u8 dsr_imp;
    c20_c_size := c_size;
    c20_erase_blk_en := u8 erase_blk_en;
    c20_erase_sector_size := u8 erase_sector_size;
    c20_wp_grp_size := u8 wp_grp_size;
    c20_wp_grp_enable := u8 wp_grp_enable;
    c20_r2w_factor := u8 r2w_factor;
    c20_write_bl_len := u8 write_bl_len;
    c20_write_bl_partial := u8 write_bl_partial;
    c20_file_format_grp := u8 file_format_grp;
    c20_copy := u8 copy;
    c20_perm_write_protect := u8 perm_write_protect;
    c20_tmp_write_protect := u8 tmp_write_protect;
    c20_file_format := u8 file_format;
    c20_crc := u8 crc
  |}.

(** ** Registers as the cards lay them out *)

(** A field: its last and first bit, and its value. *)
Definition field : Type := Z * Z * Z.

Definition field_ok (f : field) : Prop := let '(e, s, v) := f in 0 <= s <= e /\ 0 <= v < 2 ^ (e - s + 1).

(** The number made of some fields. *)
Definition place (fs : list field) : Z := foldr (fun f x => let '(e, s, v) := f in Z.lor (Z.shiftl v s) x) 0 fs.

Definition apart (f g : field) : bool := let '(e1, s1, _) := f in let '(e2, s2, _) := g in (e1 <? s2) || (e2 <? s1).

(** No two fields share a bit. *)
Fixpoint separate (fs : list field) : bool :=
  match fs with [] => true | f :: fs => forallb (apart f) fs && separate fs end.

Lemma bits_lor x y sl : bits (Z.lor x y) sl = Z.lor (bits x sl) (bits y sl).
Proof. unfold bits. by rewrite Z.shiftr_lor, Z.land_lor_distr_l. Qed.

Lemma field_testbit v s e n : 0 <= s <= e -> 0 <= v < 2 ^ (e - s + 1) -> e < n -> Z.testbit (Z.shiftl v s) n = false.
Proof.
  intros Hs Hv Hn. rewrite Z.shiftl_spec by lia. destruct (Z.eq_dec v 0) as [->|]; [apply Z.testbit_0_l|].
  apply Z.bits_above_log2; [lia|]. enough (Z.log2 v < e - s + 1) by lia. apply Z.log2_lt_pow2; lia.
Qed.

(** A field alone: its bits are its value, and no other bit is set. *)
Lemma bits_same e s v : field_ok (e, s, v) -> bits (Z.shiftl v s) (e, s) = v.
Proof.
  intros [Hs Hv]. unfold bits. cbn [fst snd]. rewrite Z.shiftr_shiftl_l, Z.sub_diag, Z.shiftl_0_r by lia.
  rewrite Z.land_ones by lia. by apply Z.mod_small.
Qed.
Lemma bits_apart e s v e' s' v' : field_ok (e, s, v) -> field_ok (e', s', v') -> apart (e, s, v) (e', s', v') = true ->
  bits (Z.shiftl v s) (e', s') = 0.
Proof.
  intros [Hs Hv] [Hs' Hv'] Ha. cbn in Ha. apply orb_true_iff in Ha. rewrite !Z.ltb_lt in Ha.
  unfold bits. cbn [fst snd]. apply Z.bits_inj'. intros n Hn. rewrite Z.testbit_0_l, Z.land_spec, Z.shiftr_spec by lia.
  destruct Ha as [Ha|Ha].
  - by rewrite (field_testbit v s e) by lia.
  - destruct (Z.lt_ge_cases n (e' - s' + 1)); [|by rewrite Z.ones_spec_high, andb_false_r by lia].
    by rewrite Z.shiftl_spec_low by lia.
Qed.

Lemma apart_sym f g : apart f g = apart g f.
Proof. destruct f as [[e s] v], g as [[e' s'] v']. apply orb_comm. Qed.

Lemma bits_place_apart fs e s v : Forall field_ok fs -> field_ok (e, s, v) -> forallb (apart (e, s, v)) fs = true ->
  bits (place fs) (e, s) = 0.
Proof.
  intros Hfs Hf. induction Hfs as [|[[e' s'] v'] fs Hf' Hfs IH]; cbn [forallb place foldr].
  - intros _. unfold bits. by rewrite Z.shiftr_0_l.
  - intros [Ha Hrest]%andb_true_iff. rewrite bits_lor, (bits_apart e' s' v' e s v) by (rewrite ?(apart_sym (e', s', v')); done).
    by apply IH.
Qed.

(** The fields of a register can be read back from it. *)
Lemma bits_place fs : Forall field_ok fs -> separate fs = true ->
  Forall (fun f => bits (place fs) (fst f) = snd f) fs.
Proof.
  induction 1 as [|[[e s] v] fs Hf Hfs IH]; cbn [separate]; [constructor|].
  intros [Ha Hs]%andb_true_iff. constructor; cbn [place foldr fst snd].
  - rewrite bits_lor, bits_same by done. change (Z.lor v (bits (place fs) (e, s)) = v).
    by rewrite (bits_place_apart fs e s v), Z.lor_0_r.
  - apply Forall_forall. intros [[e' s'] v'] Hin. cbn [fst snd].
    rewrite forallb_forall in Ha. specialize (Ha _ (proj1 (list_elem_of_In _ _) Hin)).
    pose proof (proj1 (Forall_forall _ _) Hfs _ Hin) as Hf'. cbn beta in Hf'.
    rewrite bits_lor, (bits_apart e s v e' s' v') by done.
    exact (proj1 (Forall_forall _ _) (IH Hs) _ Hin).
Qed.

(** A field is its low part and its high part. *)
Lemma bits_split x e m s : 0 <= s <= m -> m < e -> bits x (e, s) = bits x (m, s) + 2 ^ (m - s + 1) * bits x (e, m + 1).
Proof.
  intros Hs Hm. unfold bits. cbn [fst snd]. rewrite !Z.land_ones by lia.
  replace (Z.shiftr x (m + 1)) with (Z.shiftr x s / 2 ^ (m - s + 1)).
  2: { rewrite !Z.shiftr_div_pow2, Z.div_div, <- Z.pow_add_r by (lia || apply Z.pow_pos_nonneg; lia). do 2 f_equal. lia. }
  replace (e - s + 1) with ((m - s + 1) + (e - (m + 1) + 1)) by lia.
  rewrite Z.pow_add_r by lia. apply Z.rem_mul_r; [apply Z.pow_nonzero|apply Z.pow_pos_nonneg]; lia.
Qed.
Lemma u8_bits x e s : 0 <= s -> s + 7 <= e -> u8 (bits x (e, s)) = bits x (s + 7, s).
Proof.
  intros Hs He. unfold bits, u8. cbn [fst snd]. rewrite !Z.land_ones by lia.
  replace (e - s + 1) with (8 + (e - s - 7)) by lia. replace (s + 7 - s + 1) with 8 by lia.
  rewrite Z.pow_add_r, Z.rem_mul_r by (try apply Z.pow_nonzero; try apply Z.pow_pos_nonneg; lia).
  change (2 ^ 8) with 256. rewrite (Z.mul_comm 256), Z.mod_add by lia. by apply Z.mod_mod.
Qed.

(** *** The layouts, as the specifications of the cards print them *)

Definition letter (pnm : list Z) (i : nat) : Z := nth i pnm 0.

Definition sdc_cid (c : unpacked_sdc_cid_t) : list field :=
  [ (127, 120, sc_mid c); (119, 104, sc_oid c);
    (103, 96, letter (sc_pnm c) 0); (95, 88, letter (sc_pnm c) 1); (87, 80, letter (sc_pnm c) 2);
    (79, 72, letter (sc_pnm c) 3); (71, 64, letter (sc_pnm c) 4);
    (63, 60, sc_prv_n c); (59, 56, sc_prv_m c); (55, 24, sc_psn c);
    (19, 12, sc_mdt_y c - 2000); (11, 8, sc_mdt_m c); (7, 1, sc_crc c); (0, 0, 1) ].

Definition mmc_cid (c : unpacked_mmc_cid_t) : list field :=
  [ (127, 120, mc_mid c); (119, 104, mc_oid c);
    (103, 96, letter (mc_pnm c) 0); (95, 88, letter (mc_pnm c) 1); (87, 80, letter (mc_pnm c) 2);
    (79, 72, letter (mc_pnm c) 3); (71, 64, letter (mc_pnm c) 4); (63, 56, letter (mc_pnm c) 5);
    (55, 52, mc_prv_n c); (51, 48, mc_prv_m c); (47, 16, mc_psn c);
    (15, 12, mc_mdt_m c); (11, 8, mc_mdt_y c - 1997); (7, 1, mc_crc c); (0, 0, 1) ].

Definition mmc_csd (c : unpacked_mmc_csd_t) : list field :=
  [ (127, 126, cm_csd_structure c); (125, 122, cm_spec_vers c); (119, 112, cm_taac c); (111, 104, cm_nsac c);
    (103, 96, cm_tran_speed c); (95, 84, cm_ccc c); (83, 80, cm_read_bl_len c); (79, 79, cm_read_bl_partial c);
    (78, 78, cm_write_blk_misalign c); (77, 77, cm_read_blk_misalign c); (76, 76, cm_dsr_imp c);
    (73, 62, cm_c_size c); (61, 59, cm_vdd_r_curr_min c); (58, 56, cm_vdd_r_curr_max c);
    (55, 53, cm_vdd_w_curr_min c); (52, 50, cm_vdd_w_curr_max c); (49, 47, cm_c_size_mult c);
    (46, 42, cm_erase_grp_size c); (41, 37, cm_erase_grp_mult c); (36, 32, cm_wp_grp_size c);
    (31, 31, cm_wp_grp_enable c); (30, 29, cm_default_ecc c); (28, 26, cm_r2w_factor c);
    (25, 22, cm_write_bl_len c); (21, 21, cm_write_bl_partial c); (16, 16, cm_content_prot_app c);
    (15, 15, cm_file_format_grp c); (14, 14, cm_copy c); (13, 13, cm_perm_write_protect c);
    (12, 12, cm_tmp_write_protect c); (11, 10, cm_file_format c); (9, 8, cm_ecc c); (7, 1, cm_crc c); (0, 0, 1) ].

Definition sdc_csd_10 (c : unpacked_sdc_csd_10_t) : list field :=
  [ (127, 126, c10_csd_structure c); (119, 112, c10_taac c); (111, 104, c10_nsac c); (103, 96, c10_tran_speed c);
    (95, 84, c10_ccc c); (83, 80, c10_read_bl_len c); (79, 79, c10_read_bl_partial c);
    (78, 78, c10_write_blk_misalign c); (77, 77, c10_read_blk_misalign c); (76, 76, c10_dsr_imp c);
    (73, 62, c10_c_size c); (61, 59, c10_vdd_r_curr_min c); (58, 56, c10_vdd_r_curr_max c);
    (55, 53, c10_vdd_w_curr_min c); (52, 50, c10_vdd_w_curr_max c); (49, 47, c10_c_size_mult c);
    (46, 46, c10_erase_blk_en c); (45, 39, c10_erase_sector_size c); (38, 32, c10_wp_grp_size c);
    (31, 31, c10_wp_grp_enable c); (28, 26, c10_r2w_factor c); (25, 22, c10_write_bl_len c);
    (21, 21, c10_write_bl_partial c); (19, 16, 0); (15, 15, c10_file_format_grp c); (14, 14, c10_copy c);
    (13, 13, c10_perm_write_protect c); (12, 12, c10_tmp_write_protect c); (11, 10, c10_file_format c);
    (7, 1, c10_crc c); (0, 0, 1) ].

Definition sdc_csd_20 (c : unpacked_sdc_csd_20_t) : list field :=
  [ (127, 126, c20_csd_structure c); (119, 112, c20_taac c); (111, 104, c20_nsac c); (103, 96, c20_tran_speed c);
    (95, 84, c20_ccc c); (83, 80, c20_read_bl_len c); (79, 79, c20_read_bl_partial c);
    (78, 78, c20_write_blk_misalign c); (77, 77, c20_read_blk_misalign c); (76, 76, c20_dsr_imp c);
    (69, 48, c20_c_size c); (46, 46, c20_erase_blk_en c); (45, 39, c20_erase_sector_size c);
    (38, 32, c20_wp_grp_size c); (31, 31, c20_wp_grp_enable c); (28, 26, c20_r2w_factor c);
    (25, 22, c20_write_bl_len c); (21, 21, c20_write_bl_partial c); (19, 16, 0); (15, 15, c20_file_format_grp c);
    (14, 14, c20_copy c); (13, 13, c20_perm_write_protect c); (12, 12, c20_tmp_write_protect c);
    (11, 10, c20_file_format c); (7, 1, c20_crc c); (0, 0, 1) ].

(** The bytes of a register, the first on the wire first, that hold some fields. *)
Definition holds (bs : list Z) (fs : list field) : Prop :=
  length bs = 16%nat /\ Forall byte bs /\ Forall field_ok fs /\ big_endian bs = place fs.

(** What the driver reads at a slice of it. *)
Lemma holds_slice bs fs e s : holds bs fs -> 0 <= s <= e -> e - s < 32 -> e < 128 ->
  _mmcsd_get_slice (words_of bs) (e, s) = Some (bits (place fs) (e, s)).
Proof.
  intros (Hl & Hb & _ & Hn) Hs Hw He. destruct (words_ok bs Hl Hb) as (Hl' & Hw' & Hn').
  rewrite <- Hn, <- Hn'. apply get_slice_ok; [done..|]. rewrite Hl'. lia.
Qed.
Lemma holds_fields bs fs : holds bs fs -> separate fs = true ->
  Forall (fun f => bits (place fs) (fst f) = snd f) fs /\ Forall field_ok fs.
Proof. intros (_ & _ & Hf & _) Hs. split; [by apply bits_place|done]. Qed.

Create HintDb slices.
#[local] Hint Unfold
  HalMmcsd.MMCSD_CSD_10_CSD_STRUCTURE_SLICE HalMmcsd.MMCSD_CSD_10_C_SIZE_SLICE
  HalMmcsd.MMCSD_CSD_10_C_SIZE_MULT_SLICE HalMmcsd.MMCSD_CSD_10_READ_BL_LEN_SLICE
  HalMmcsd.MMCSD_CSD_20_C_SIZE_SLICE MMCSD_CSD_MMC_CSD_STRUCTURE_SLICE MMCSD_CSD_MMC_SPEC_VERS_SLICE
  MMCSD_CSD_MMC_TAAC_SLICE MMCSD_CSD_MMC_NSAC_SLICE MMCSD_CSD_MMC_TRAN_SPEED_SLICE
  MMCSD_CSD_MMC_CCC_SLICE MMCSD_CSD_MMC_READ_BL_LEN_SLICE MMCSD_CSD_MMC_READ_BL_PARTIAL_SLICE
  MMCSD_CSD_MMC_WRITE_BLK_MISALIGN_SLICE MMCSD_CSD_MMC_READ_BLK_MISALIGN_SLICE
  MMCSD_CSD_MMC_DSR_IMP_SLICE MMCSD_CSD_MMC_C_SIZE_SLICE MMCSD_CSD_MMC_VDD_R_CURR_MIN_SLICE
  MMCSD_CSD_MMC_VDD_R_CURR_MAX_SLICE MMCSD_CSD_MMC_VDD_W_CURR_MIN_SLICE
  MMCSD_CSD_MMC_VDD_W_CURR_MAX_SLICE MMCSD_CSD_MMC_C_SIZE_MULT_SLICE
  MMCSD_CSD_MMC_ERASE_GRP_SIZE_SLICE MMCSD_CSD_MMC_ERASE_GRP_MULT_SLICE
  MMCSD_CSD_MMC_WP_GRP_SIZE_SLICE MMCSD_CSD_MMC_WP_GRP_ENABLE_SLICE MMCSD_CSD_MMC_DEFAULT_ECC_SLICE
  MMCSD_CSD_MMC_R2W_FACTOR_SLICE MMCSD_CSD_MMC_WRITE_BL_LEN_SLICE
  MMCSD_CSD_MMC_WRITE_BL_PARTIAL_SLICE MMCSD_CSD_MMC_CONTENT_PROT_APP_SLICE
  MMCSD_CSD_MMC_FILE_FORMAT_GRP_SLICE MMCSD_CSD_MMC_COPY_SLICE
  MMCSD_CSD_MMC_PERM_WRITE_PROTECT_SLICE MMCSD_CSD_MMC_TMP_WRITE_PROTECT_SLICE
  MMCSD_CSD_MMC_FILE_FORMAT_SLICE MMCSD_CSD_MMC_ECC_SLICE MMCSD_CSD_MMC_CRC_SLICE
  MMCSD_CSD_20_CRC_SLICE MMCSD_CSD_20_FILE_FORMAT_SLICE MMCSD_CSD_20_TMP_WRITE_PROTECT_SLICE
  MMCSD_CSD_20_PERM_WRITE_PROTECT_SLICE MMCSD_CSD_20_COPY_SLICE MMCSD_CSD_20_FILE_FORMAT_GRP_SLICE
  MMCSD_CSD_20_WRITE_BL_PARTIAL_SLICE MMCSD_CSD_20_WRITE_BL_LEN_SLICE MMCSD_CSD_20_R2W_FACTOR_SLICE
  MMCSD_CSD_20_WP_GRP_ENABLE_SLICE MMCSD_CSD_20_WP_GRP_SIZE_SLICE
  MMCSD_CSD_20_ERASE_SECTOR_SIZE_SLICE MMCSD_CSD_20_ERASE_BLK_EN_SLICE MMCSD_CSD_20_DSR_IMP_SLICE
  MMCSD_CSD_20_READ_BLK_MISALIGN_SLICE MMCSD_CSD_20_WRITE_BLK_MISALIGN_SLICE
  MMCSD_CSD_20_READ_BL_PARTIAL_SLICE MMCSD_CSD_20_READ_BL_LEN_SLICE MMCSD_CSD_20_CCC_SLICE
  MMCSD_CSD_20_TRANS_SPEED_SLICE MMCSD_CSD_20_NSAC_SLICE MMCSD_CSD_20_TAAC_SLICE
  MMCSD_CSD_20_CSD_STRUCTURE_SLICE MMCSD_CSD_10_CRC_SLICE MMCSD_CSD_10_FILE_FORMAT_SLICE
  MMCSD_CSD_10_TMP_WRITE_PROTECT_SLICE MMCSD_CSD_10_PERM_WRITE_PROTECT_SLICE MMCSD_CSD_10_COPY_SLICE
  MMCSD_CSD_10_FILE_FORMAT_GRP_SLICE MMCSD_CSD_10_WRITE_BL_PARTIAL_SLICE
  MMCSD_CSD_10_WRITE_BL_LEN_SLICE MMCSD_CSD_10_R2W_FACTOR_SLICE MMCSD_CSD_10_WP_GRP_ENABLE_SLICE
  MMCSD_CSD_10_WP_GRP_SIZE_SLICE MMCSD_CSD_10_ERASE_SECTOR_SIZE_SLICE
  MMCSD_CSD_10_ERASE_BLK_EN_SLICE MMCSD_CSD_10_VDD_W_CURR_MAX_SLICE
  MMCSD_CSD_10_VDD_W_CURR_MIN_SLICE MMCSD_CSD_10_VDD_R_CURR_MAX_SLICE
  MMCSD_CSD_10_VDD_R_CURR_MIX_SLICE MMCSD_CSD_10_DSR_IMP_SLICE MMCSD_CSD_10_READ_BLK_MISALIGN_SLICE
  MMCSD_CSD_10_WRITE_BLK_MISALIGN_SLICE MMCSD_CSD_10_READ_BL_PARTIAL_SLICE MMCSD_CSD_10_CCC_SLICE
  MMCSD_CSD_10_TRANS_SPEED_SLICE MMCSD_CSD_10_NSAC_SLICE MMCSD_CSD_10_TAAC_SLICE
  MMCSD_CID_SDC_CRC_SLICE MMCSD_CID_SDC_MDT_M_SLICE MMCSD_CID_SDC_MDT_Y_SLICE
  MMCSD_CID_SDC_PSN_SLICE MMCSD_CID_SDC_PRV_M_SLICE MMCSD_CID_SDC_PRV_N_SLICE
  MMCSD_CID_SDC_PNM0_SLICE MMCSD_CID_SDC_PNM1_SLICE MMCSD_CID_SDC_PNM2_SLICE
  MMCSD_CID_SDC_PNM3_SLICE MMCSD_CID_SDC_PNM4_SLICE MMCSD_CID_SDC_OID_SLICE MMCSD_CID_SDC_MID_SLICE
  MMCSD_CID_MMC_CRC_SLICE MMCSD_CID_MMC_MDT_Y_SLICE MMCSD_CID_MMC_MDT_M_SLICE
  MMCSD_CID_MMC_PSN_SLICE MMCSD_CID_MMC_PRV_M_SLICE MMCSD_CID_MMC_PRV_N_SLICE
  MMCSD_CID_MMC_PNM0_SLICE MMCSD_CID_MMC_PNM1_SLICE MMCSD_CID_MMC_PNM2_SLICE
  MMCSD_CID_MMC_PNM3_SLICE MMCSD_CID_MMC_PNM4_SLICE MMCSD_CID_MMC_PNM5_SLICE MMCSD_CID_MMC_OID_SLICE
  MMCSD_CID_MMC_MID_SLICE : slices.

(** The slices of the code, read in a register that holds fields. *)
Ltac read_slices H :=
  let Hv := fresh "Hv" in let Hr := fresh "Hr" in let Hf := fresh "Hf" in
  autounfold with slices;
  repeat (rewrite (holds_slice _ _ _ _ H) by lia; cbn [mbind option_bind]);
  pose proof (holds_fields _ _ H) as Hf; destruct (Hf eq_refl) as [Hv Hr]; clear Hf;
  match type of Hv with context [bits ?x] =>
    let Hx := fresh "Hx" in assert (Hx : exists y, bits x = bits y) by (by exists x);
    generalize dependent (bits x)
  end; intros get Hv Hx;
  unfold sdc_cid, mmc_cid, mmc_csd, sdc_csd_10, sdc_csd_20 in Hv, Hr;
  rewrite !Forall_cons in Hv; rewrite !Forall_cons in Hr; cbn [fst snd] in Hv;
  destruct_and!.

(** A member as wide as its field, or wider. *)
Lemma u8_field e s v : field_ok (e, s, v) -> e - s < 8 -> u8 v = v.
Proof. intros [Hs Hv] Hw. apply u8_id. pose proof (Z.pow_le_mono_r 2 (e - s + 1) 8 ltac:(lia) ltac:(lia)). lia. Qed.
Lemma u16_field e s v : field_ok (e, s, v) -> e - s < 16 -> u16 v = v.
Proof.
  intros [Hs Hv] Hw. unfold u16. apply Z.mod_small.
  pose proof (Z.pow_le_mono_r 2 (e - s + 1) 16 ltac:(lia) ltac:(lia)). lia.
Qed.
Ltac read_fields :=
  repeat match goal with E : ?get (_, _) = _ |- context [?get (_, _)] => rewrite E; clear E end;
  repeat match goal with H : field_ok (_, _, ?v) |- context [u8 ?v] => rewrite (u8_field _ _ v H) by lia end;
  repeat match goal with H : field_ok (_, _, ?v) |- context [u16 ?v] => rewrite (u16_field _ _ v H) by lia end.

(** The year is kept as a date, in 16 bits. *)
Lemma year_field e s y base : field_ok (e, s, y - base) -> e - s < 8 -> 0 <= base < 2 ^ 15 ->
  u16 (y - base + base) = y.
Proof.
  intros [Hs Hv] Hw Hb.
  pose proof (Z.pow_le_mono_r 2 (e - s + 1) 8 ltac:(lia) ltac:(lia)).
  unfold u16. rewrite Z.mod_small; lia.
Qed.

(** ** What the card packs is what is unpacked *)

Lemma unpack_sdc_cid_ok bs c old : length (sc_pnm c) = 5%nat -> holds bs (sdc_cid c) ->
  _mmcsd_unpack_sdc_cid (words_of bs) old = Some c.
Proof.
  intros Hl H. unfold _mmcsd_unpack_sdc_cid. read_slices H. read_fields. erewrite year_field by (done || lia).
  destruct c as [? ? pnm]. cbn in *. do 5 (destruct pnm as [|? pnm]; [done|]). by destruct pnm.
Qed.
Lemma unpack_mmc_cid_ok bs c old : length (mc_pnm c) = 6%nat -> holds bs (mmc_cid c) ->
  _mmcsd_unpack_mmc_cid (words_of bs) old = Some c.
Proof.
  intros Hl H. unfold _mmcsd_unpack_mmc_cid. read_slices H. read_fields. erewrite year_field by (done || lia).
  destruct c as [? ? pnm]. cbn in *. do 6 (destruct pnm as [|? pnm]; [done|]). by destruct pnm.
Qed.

(** The two members of the configuration of an MMC card that the code does not write are
    those the caller had. *)
Definition csd_mmc_from (old c : unpacked_mmc_csd_t) : unpacked_mmc_csd_t :=
  CsdMmc (cm_csd_structure c) (cm_spec_vers c) (cm_taac c) (cm_nsac c) (cm_tran_speed c) (cm_ccc c)
    (cm_read_bl_len c) (cm_read_bl_partial c) (cm_write_blk_misalign c) (cm_read_blk_misalign c)
    (cm_dsr_imp c) (cm_c_size c) (cm_vdd_r_curr_min c) (cm_vdd_r_curr_max c) (cm_vdd_w_curr_min c)
    (cm_vdd_w_curr_max c) (cm_c_size_mult c) (cm_erase_grp_size c) (cm_erase_grp_mult c) (cm_wp_grp_size
    c) (cm_wp_grp_enable c) (cm_default_ecc old) (cm_r2w_factor c) (cm_write_bl_len c)
    (cm_write_bl_partial c) (cm_content_prot_app old) (cm_file_format_grp c) (cm_copy c)
    (cm_perm_write_protect c) (cm_tmp_write_protect c) (cm_file_format c) (cm_ecc c) (cm_crc c).

Lemma unpack_csd_mmc_ok bs c old : holds bs (mmc_csd c) ->
  _mmcsd_unpack_csd_mmc (words_of bs) old = Some (csd_mmc_from old c).
Proof. intros H. unfold _mmcsd_unpack_csd_mmc. read_slices H. read_fields. done. Qed.

(** For SD cards, the slice of [write_bl_len] has a wrong start: the member gets the write
    protections and the copy flag.  The four currents are not written. *)
Definition misread (tmp_write_protect perm_write_protect copy file_format_grp : Z) : Z :=
  tmp_write_protect + 2 * perm_write_protect + 4 * copy + 8 * file_format_grp.

Lemma misread_ok get tmp perm copy grp : get (12, 12) = tmp -> get (13, 13) = perm -> get (14, 14) = copy ->
  get (15, 15) = grp -> get (19, 16) = 0 ->
  (exists x, get = bits x) -> u8 (get (25, 12)) = misread tmp perm copy grp.
Proof.
  intros <- <- <- <- Hz [x ->]. unfold misread. rewrite u8_bits by lia. change (12 + 7) with 19.
  assert (Hs : forall m, 12 <= m < 19 -> bits x (19, m) = bits x (m, m) + 2 * bits x (19, m + 1)).
  { intros m Hm. rewrite (bits_split x 19 m m) by lia. by replace (m - m + 1) with 1 by lia. }
  rewrite (Hs 12), (Hs (12 + 1)), (Hs (12 + 1 + 1)), (Hs (12 + 1 + 1 + 1)) by lia.
  change (12 + 1 + 1 + 1 + 1) with 16. rewrite Hz. change (12 + 1 + 1 + 1) with 15.
  change (12 + 1 + 1) with 14. change (12 + 1) with 13. lia.
Qed.

Definition csd_10_from (old c : unpacked_sdc_csd_10_t) : unpacked_sdc_csd_10_t :=
  Csd10 (c10_csd_structure c) (c10_taac c) (c10_nsac c) (c10_tran_speed c) (c10_ccc c) (c10_read_bl_len
    c) (c10_read_bl_partial c) (c10_write_blk_misalign c) (c10_read_blk_misalign c) (c10_dsr_imp c)
    (c10_c_size c) (c10_vdd_r_curr_min old) (c10_vdd_r_curr_max old) (c10_vdd_w_curr_min old)
    (c10_vdd_w_curr_max old) (c10_c_size_mult c) (c10_erase_blk_en c) (c10_erase_sector_size c)
    (c10_wp_grp_size c) (c10_wp_grp_enable c) (c10_r2w_factor c) (misread (c10_tmp_write_protect c)
    (c10_perm_write_protect c) (c10_copy c) (c10_file_format_grp c)) (c10_write_bl_partial c)
    (c10_file_format_grp c) (c10_copy c) (c10_perm_write_protect c) (c10_tmp_write_protect c)
    (c10_file_format c) (c10_crc c).

Definition csd_20_from (c : unpacked_sdc_csd_20_t) : unpacked_sdc_csd_20_t :=
  Csd20 (c20_csd_structure c) (c20_taac c) (c20_nsac c) (c20_tran_speed c) (c20_ccc c) (c20_read_bl_len
    c) (c20_read_bl_partial c) (c20_write_blk_misalign c) (c20_read_blk_misalign c) (c20_dsr_imp c)
    (c20_c_size c) (c20_erase_blk_en c) (c20_erase_sector_size c) (c20_wp_grp_size c) (c20_wp_grp_enable
    c) (c20_r2w_factor c) (misread (c20_tmp_write_protect c) (c20_perm_write_protect c) (c20_copy c)
    (c20_file_format_grp c)) (c20_write_bl_partial c) (c20_file_format_grp c) (c20_copy c)
    (c20_perm_write_protect c) (c20_tmp_write_protect c) (c20_file_format c) (c20_crc c).

Lemma unpack_csd_v10_ok bs c old : holds bs (sdc_csd_10 c) ->
  _mmcsd_unpack_csd_v10 (words_of bs) old = Some (csd_10_from old c).
Proof.
  intros H. unfold _mmcsd_unpack_csd_v10. read_slices H. erewrite misread_ok by eauto. read_fields. done.
Qed.
Lemma unpack_csd_v20_ok bs c old : holds bs (sdc_csd_20 c) ->
  _mmcsd_unpack_csd_v20 (words_of bs) old = Some (csd_20_from c).
Proof.
  intros H. unfold _mmcsd_unpack_csd_v20. read_slices H. erewrite misread_ok by eauto. read_fields. done.
Qed.


End CardRegisters.
