(* ===== verification/Sim8xx.v ===== *)
(** * The SIM8xx modem: [source/sim8xx/sim8xx.c] and [sim8xxReaderThread.c]

    A command is written to the serial line by the thread that executes it, which then
    sleeps on [writer]; the reader thread collects the bytes that come back in [rxbuf]
    until they end with a status line, wakes the writer and sleeps on [reader] until the
    response has been copied.  The semaphore [sync] keeps 250 ms between commands. *)

From S2P Require Import Prelude CLib Chprintf Prog ThreadQueue Kernel ChVt ChSchd ChSem.
From S2P Require Import ChThreads ChEvents ChMtx AppState.

Module Sim8xx.
Import ChVt ChThreads ChSem ChEvents ChMtx.
#[local] Abbreviation take := firstn.

(** ** The status of a response *)

(** [for (crlf = needle = data; crlf; crlf = strstr(needle, "\r\n")) needle = crlf + 2;]
    with [crlf] not null. *)
Fixpoint last_line (fuel : nat) (data : list ascii) (crlf : nat) : option nat :=
  match fuel with
  | O => None
  | S fuel =>
      let needle := (crlf + 2)%nat in
      r ← strstr data needle (String CR (String LF EmptyString));
      match r with
      | Some crlf => last_line fuel data crlf
      | None => Some needle
      end
  end.

(** The chain of [strcmp]. *)
Fixpoint match_status (data : list ascii) (needle : nat)
    (table : list (string * Sim8xxCommandStatus_t)) : option Sim8xxCommandStatus_t :=
  match table with
  | [] => Some SIM8XX_INVALID_STATUS
  | (text, st) :: table =>
      b ← streq data needle text;
      if (b : bool) then Some st else match_status data needle table
  end.

Definition status_table : list (string * Sim8xxCommandStatus_t) :=
  [("OK", SIM8XX_OK); ("CONNECT", SIM8XX_CONNECT); ("RING", SIM8XX_RING);
   ("NO CARRIER", SIM8XX_NO_CARRIER); ("ERROR", SIM8XX_ERROR);
   ("NO DIALTONE", SIM8XX_NO_DIALTONE); ("BUSY", SIM8XX_BUSY);
   ("NO ANSWER", SIM8XX_NO_ANSWER); ("PROCEEDING", SIM8XX_PROCEEDING)]%string.

(** The status and the buffer, which is written to and restored.  Every turn of the search
    moves forward, so the length of the buffer is fuel enough ([last_line_fuel]). *)
Definition sim8xxGetStatus (data : list ascii) : option (Sim8xxCommandStatus_t * list ascii) :=
  len ← strlen data 0;
  if (len <? 2)%nat then Some (SIM8XX_INVALID_STATUS, data)
  else
    c2 ← data !! (len - 2)%nat;
    c1 ← data !! (len - 1)%nat;
    if negb (bool_decide (c2 = CR)) || negb (bool_decide (c1 = LF))
    then Some (SIM8XX_INVALID_STATUS, data)
    else
      cut ← store data (len - 2) NUL;
      needle ← last_line (S (length data)) cut 0;
      st ← match_status cut needle status_table;
      data ← store cut (len - 2) CR;
      Some (st, data).

(** ** The driver *)

Definition sim8xxCommandInit : Sim8xxCommand :=
  Command (zeros 512) (zeros 512) SIM8XX_INVALID_STATUS.

Section driver.
Context {S : Type} `{!Component S ch_system, !Component S app, !Serial S, !FatFs S}.

(** [chprintf] on a channel: one [streamPut] per character. *)
Fixpoint put_chars (st : nat) (cs : list ascii) : prog S unit :=
  match cs with
  | [] => mret tt
  | c :: cs => streamPut st (zchar c);; put_chars st cs
  end.
Definition chprintf (st : nat) (fmt : string) (ap : list Chprintf.va) : prog S unit :=
  cs ← Atom (deref (fun _ => Chprintf.chvprintf fmt ap)); put_chars st cs.

Definition on_sim (f : Sim8xxDriver -> Sim8xxDriver) : M S unit := on_app (set_SIM8D1 f).
Definition on_cmd (f : Sim8xxCommand -> Sim8xxCommand) : M S unit := on_app (set_cmd f).
Definition config : M S Sim8xxConfig := deref (fun s => sim_config (SIM8D1 (proj s))).

Definition sim8xxInit : M S unit :=
  on_sim (set_sim_config (fun _ => None));;
  liftM (set_tref SIM8D1_writer None);;
  liftM (set_tref SIM8D1_reader None);;
  liftM (chMtxObjectInit SIM8D1_lock);;
  liftM (chMtxObjectInit SIM8D1_rxlock);;
  liftM (chSemObjectInit SIM8D1_sync 1);;
  on_sim (set_rxbuf (fun _ => zeros 512));;
  on_sim (set_rxlength (fun _ => 0%nat));;
  on_sim (set_sim_state (fun _ => SIM8XX_STOP)).

(** [chThdCreateFromHeap] (os/rt/src/chdynamic.c) *)
Definition chThdCreateFromHeap `{!Heap S} (prio : Z) : prog S (option tid) :=
  r ← chHeapAllocThread;
  match r with
  | None => mret None
  | Some tp =>
      locked (
        Atom (liftM (chThdCreateSuspendedI tp prio;; on_thd tp (set_t_flags (fun _ => CH_FLAG_MODE_HEAP))));;
        lift (ChSchd.chSchWakeupS tp MSG_OK));;
      mret (Some tp)
  end.

Definition sim8xxStart `{!Heap S} (cfgp : Sim8xxConfig) : prog S unit :=
  lift (chMtxLock SIM8D1_lock);;
  Atom (on_sim (set_sim_config (fun _ => Some cfgp)));;
  sdStart (sdp cfgp);;
  Atom (liftM (set_tref SIM8D1_reader None));;
  chThdCreateFromHeap (NORMALPRIO + 1);;
  Atom (on_sim (set_sim_state (fun _ => SIM8XX_READY)));;
  lift (chMtxUnlock SIM8D1_lock).

(** [msg = chThdSuspendTimeoutS(&simp->writer, ...); simp->writer = NULL;] *)
Definition wait_response (msec : Z) : prog S Z :=
  lift (locked (
    msg ← chThdSuspendTimeoutS SIM8D1_writer (chTimeMS2I msec);
    Atom (set_tref SIM8D1_writer None);;
    mret msg)).

(** [if (simp->reader) ...] *)
Definition resume_reader : prog S unit :=
  r ← Atom (liftM (tref SIM8D1_reader));
  match r with
  | Some _ => lift (chThdResume SIM8D1_reader MSG_OK)
  | None => mret tt
  end.

(** [strcpy(cmdp->response, simp->rxbuf); cmdp->status = sim8xxGetStatus(cmdp->response);] *)
Definition take_response : M S unit :=
  a ← appl;
  resp ← deref (fun _ => strcpy (response (cmd a)) (rxbuf (SIM8D1 a)) 0);
  '(st, resp) ← deref (fun _ => sim8xxGetStatus resp);
  on_cmd (fun c => Command (request c) resp st).

(** [cmdp] is the only command of the program, [cmd] of [GpsReaderThread.c]. *)
Definition sim8xxExecute : prog S unit :=
  lift (chMtxLock SIM8D1_lock);;
  lift (chSemWait SIM8D1_sync);;
  cfg ← Atom config;
  a ← Atom appl;
  chprintf (sdp cfg) ("%s" ++ String CR EmptyString) [Chprintf.va_str (request (cmd a))];;
  msg ← wait_response 5000;
  (if msg =? MSG_OK then
     lift (chMtxLock SIM8D1_rxlock);;
     Atom take_response;;
     lift (chMtxUnlock SIM8D1_rxlock)
   else
     lift (chSemSignal SIM8D1_sync);;
     Atom (on_cmd (set_status (fun _ => SIM8XX_TIMEOUT))));;
  resume_reader;;
  lift (chMtxUnlock SIM8D1_lock).

(** [status = sim8xxGetStatus(simp->rxbuf)] *)
Definition rx_status : M S Sim8xxCommandStatus_t :=
  a ← appl;
  '(st, buf) ← deref (fun _ => sim8xxGetStatus (rxbuf (SIM8D1 a)));
  on_sim (set_rxbuf (fun _ => buf));;
  mret st.

Definition sim8xxIsConnected : prog S bool :=
  lift (chMtxLock SIM8D1_lock);;
  lift (chSemWait SIM8D1_sync);;
  cfg ← Atom config;
  chprintf (sdp cfg) ("at" ++ String CR EmptyString) [];;
  msg ← wait_response 1000;
  result ← (
    if msg =? MSG_OK then
      lift (chMtxLock SIM8D1_rxlock);;
      st ← Atom rx_status;
      lift (chMtxUnlock SIM8D1_rxlock);;
      mret (bool_decide (st = SIM8XX_OK))
    else if msg =? MSG_TIMEOUT then
      lift (chSemSignal SIM8D1_sync);;
      mret false
    else mret false);
  resume_reader;;
  lift (chMtxUnlock SIM8D1_lock);;
  mret result.

Definition sim8xxTogglePower : prog S unit :=
  lift (chMtxLock SIM8D1_lock);;
  cfg ← Atom config;
  Atom (gpio (palClearLine (powerline cfg)));;
  lift (chThdSleepMilliseconds 2500);;
  cfg ← Atom config;
  Atom (gpio (palSetLine (powerline cfg)));;
  lift (chThdSleepMilliseconds 1000);;
  lift (chSemSignal SIM8D1_sync);;
  lift (chMtxUnlock SIM8D1_lock).

(** ** The reader thread *)

Definition GUARD_TIME_IN_MS : Z := 250.

Definition save_buffer (name : string) (data : list ascii) : prog S unit :=
  r ← f_open name;
  if r =? FR_OK then f_write data;; f_close;; mret tt else mret tt.

Definition process_response : prog S bool :=
  st ← Atom rx_status;
  if decide (st = SIM8XX_INVALID_STATUS) then mret false
  else
    lift (locked (
      r ← Atom (tref SIM8D1_writer);
      match r with
      | Some _ => chThdResumeS SIM8D1_writer MSG_OK
      | None => mret tt
      end));;
    mret true.

Definition process_urc : prog S bool := mret false.

Definition process_message : prog S bool :=
  b ← process_response;
  if (b : bool) then mret true else process_urc.

(** The callback of [guard_timer]. *)
Definition sim_timer_cb : K unit := chSemSignalI SIM8D1_sync.

(** [simp->rxbuf[simp->rxlength++] = c]: beyond the array it is undefined. *)
Definition store_char (c : Z) : M S unit :=
  update (fun s =>
    let d := SIM8D1 (proj s) in
    b ← store (rxbuf d) (rxlength d) (charz c);
    Some (inj (set_SIM8D1 (fun d => Sim (sim_state d) (sim_config d) b (Datatypes.S (rxlength d)))
                (proj s)) s)).

(** [do { c = chnGetTimeout(...); ... } while (c != STM_TIMEOUT);] *)
Definition drain : prog S unit :=
  Loop (fun _ : unit =>
    cfg ← Atom config;
    c ← chnGetTimeout (sdp cfg) TIME_IMMEDIATE;
    if c =? MSG_TIMEOUT then mret (inr tt)
    else Atom (store_char c);; mret (inl tt)) tt.

(** [while (!process_message(simp)) ...]; the test [evt && EVENT_MASK(7)] is that of
    [evt]. *)
Definition collect : prog S unit :=
  Loop (fun _ : unit =>
    b ← process_message;
    if (b : bool) then mret (inr tt)
    else
      evt ← lift (chEvtWaitAny (EVENT_MASK 7));
      (if negb (evt =? 0) then
         flags ← lift (chEvtGetAndClearFlags serial_event_listener);
         if negb (Z.land flags 4 =? 0) then drain else mret tt
       else mret tt);;
      mret (inl tt)) tt.

(** One turn of the thread. *)
Definition reader_turn : prog S unit :=
  lift (chMtxLock SIM8D1_rxlock);;
  Atom (on_sim (set_rxbuf (fun _ => zeros 512));; on_sim (set_rxlength (fun _ => 0%nat)));;
  collect;;
  a ← Atom appl;
  save_buffer "/sim8xx_at.log" (firstn (rxlength (SIM8D1 a)) (rxbuf (SIM8D1 a)));;
  lift (locked (
    Atom (chVTSetI guard_timer (chTimeMS2I GUARD_TIME_IN_MS) timer_cb 0;;
          chMtxUnlockS SIM8D1_rxlock);;
    chThdSuspendS SIM8D1_reader;;
    Atom (set_tref SIM8D1_reader None))).

Definition sim8xxReaderThread : prog S Empty_set :=
  cfg ← Atom config;
  src ← Atom (chnGetEventSource (sdp cfg));
  lift (chEvtRegisterMaskWithFlags src serial_event_listener (EVENT_MASK 7) 4);;
  Loop (fun _ : unit => reader_turn;; mret (inl tt)) tt.
End driver.

(** ** The status of a response *)

Definition CRLF : list ascii := [CR; LF].

Lemma crlf_no_nul : NUL ∉ CRLF.
Proof. apply (bool_decide_eq_false_1 (NUL ∈ CRLF)). reflexivity. Qed.

(** The status a line stands for. *)
Definition status_of (t : list ascii) : Sim8xxCommandStatus_t :=
  default SIM8XX_INVALID_STATUS
    (snd <$> list_find (fun x => t = str (fst x)) status_table ≫= fun x => Some (snd x)).

Section get_status.
Context (p t r : list ascii).
Context (Hp : NUL ∉ p) (Ht : NUL ∉ t) (Hline : strstr_l t CRLF = None).

(** The buffer with its last CR overwritten. *)
Let s : list ascii := p ++ CRLF ++ t.
Let cut : list ascii := s ++ NUL :: LF :: r.

Lemma cut_at n : (n <= length s)%nat -> cstr_at cut n = Some (drop n s).
Proof.
  intros Hn. change n with (0 + n)%nat. eapply cstr_at_add; [|done].
  unfold cstr_at. rewrite drop_0. apply cstr_app. unfold s. rewrite !elem_of_app.
  intros [?|[?|?]]; [done|by apply crlf_no_nul|done].
Qed.

Lemma last_line_ok fuel : forall crlf, (length p < fuel + crlf)%nat ->
  (crlf + 2 <= length p \/ crlf = length p)%nat ->
  last_line (S fuel) cut crlf = Some (length p + 2)%nat.
Proof.
  assert (Hs : length s = (length p + 2 + length t)%nat)
    by (unfold s; rewrite !length_app; cbn; lia).
  assert (Hlast : drop (length p + 2) s = t).
  { unfold s. rewrite app_assoc. apply drop_app_length'. rewrite length_app. cbn. lia. }
  induction fuel as [|fuel IH]; intros crlf Hfuel Hc; cbn [last_line]; unfold strstr.
  - assert (crlf = length p) as -> by lia. rewrite cut_at by lia. rewrite Hlast. cbn.
    unfold CRLF in Hline. by rewrite Hline.
  - rewrite cut_at by lia. cbn [mbind option_bind]. destruct Hc as [Hc|Hc].
    2: { subst crlf. rewrite Hlast. change (str _) with CRLF. by rewrite Hline. }
    assert (Hat : take (length CRLF) (drop (length p - (crlf + 2)) (drop (crlf + 2) s)) = CRLF).
    { rewrite drop_drop. replace (crlf + 2 + (length p - (crlf + 2)))%nat with (length p) by lia.
      unfold s. rewrite drop_app_length. done. }
    destruct (strstr_l_first (drop (crlf + 2) s) CRLF (length p - (crlf + 2))) as (i & Hi & E & Hti);
      [rewrite length_drop; lia|done|].
    change (str (String CR (String LF ""))) with CRLF. rewrite E. cbn [fmap option_fmap option_map].
    apply IH; [lia|]. destruct (decide (crlf + 2 + i = length p)%nat) as [He|He]; [by right|left].
    rewrite drop_drop in Hti. change (length CRLF) with 2%nat in Hti.
    assert (Hlf : s !! (crlf + 2 + i + 1)%nat = Some LF).
    { assert (take 2 (drop (crlf + 2 + i) s) !! 1%nat = Some LF) as Hk by by rewrite Hti.
      rewrite lookup_take_lt, lookup_drop in Hk by lia. done. }
    assert (Hcr : s !! length p = Some CR) by (unfold s; apply lookup_app_mid).
    destruct (decide (crlf + 2 + i + 1 = length p)%nat) as [Hn|Hn]; [|lia].
    rewrite Hn, Hcr in Hlf. done.
Qed.

Lemma match_status_ok table :
  match_status cut (length p + 2) table =
    Some (default SIM8XX_INVALID_STATUS
      (snd <$> list_find (fun x => t = str (fst x)) table ≫= fun x => Some (snd x))).
Proof.
  assert (Hs : cstr_at cut (length p + 2) = Some t).
  { rewrite cut_at by (unfold s; rewrite !length_app; cbn; lia). f_equal. unfold s. rewrite app_assoc.
    apply drop_app_length'. rewrite length_app. cbn. lia. }
  induction table as [|[text st] table IH]; cbn [match_status]; [done|].
  unfold streq. rewrite Hs. cbn [mbind option_bind list_find fst].
  case_bool_decide as Hx; [by rewrite decide_True|]. rewrite decide_False by done.
  rewrite IH. by destruct (list_find _ table) as [[]|].
Qed.
End get_status.

(** The status of a response that ends with the line [t] is the one of the table for [t],
    wherever the line begins except at the second character; the buffer is left as it was. *)
Theorem sim8xxGetStatus_reply p t r : NUL ∉ p -> NUL ∉ t -> strstr_l t CRLF = None ->
  length p <> 1%nat ->
  let data := p ++ CRLF ++ t ++ CRLF ++ NUL :: r in
  sim8xxGetStatus data = Some (status_of t, data).
Proof.
  intros Hp Ht Hline Hp1 data.
  set (s := p ++ CRLF ++ t).
  assert (Hdata : data = s ++ CR :: LF :: NUL :: r) by (unfold data, s; by rewrite <- !app_assoc).
  assert (Hcut : <[length s := NUL]> data = s ++ NUL :: LF :: NUL :: r)
    by (rewrite Hdata; apply insert_app_mid).
  assert (Hlen : strlen data 0 = Some (length s + 2)%nat).
  { unfold strlen, cstr_at. rewrite drop_0, Hdata.
    change (CR :: LF :: NUL :: r) with ([CR; LF] ++ NUL :: r). rewrite app_assoc, cstr_app.
    - cbn. by rewrite length_app.
    - unfold s. rewrite !elem_of_app. 
      pose proof crlf_no_nul. unfold CRLF in *. tauto. }
  assert (Hsl : length s = (length p + 2 + length t)%nat) by (unfold s; rewrite !length_app; cbn; lia).
  assert (Hdl : length data = (length s + 3 + length r)%nat)
    by (rewrite Hdata, length_app; cbn; lia).
  unfold sim8xxGetStatus. rewrite Hlen. cbn [mbind option_bind].
  rewrite (proj2 (Nat.ltb_ge _ _)) by lia.
  replace (length s + 2 - 2)%nat with (length s) by lia.
  replace (length s + 2 - 1)%nat with (S (length s)) by lia.
  assert (Hcr : data !! length s = Some CR) by (rewrite Hdata; apply lookup_app_mid).
  assert (Hlf : data !! S (length s) = Some LF).
  { rewrite Hdata. change (CR :: LF :: NUL :: r) with ([CR] ++ LF :: NUL :: r).
    rewrite app_assoc. replace (S (length s)) with (length (s ++ [CR]))
      by (rewrite length_app; cbn; lia). apply lookup_app_mid. }
  rewrite Hcr, Hlf. cbn [mbind option_bind]. rewrite !bool_decide_eq_true_2 by done. cbn [negb orb].
  rewrite store_run by lia. cbn [mbind option_bind]. rewrite Hcut.
  rewrite (last_line_ok p t (NUL :: r) Hp Ht Hline) by lia. cbn [mbind option_bind].
  rewrite (match_status_ok p t (NUL :: r) Hp Ht). cbn [mbind option_bind].
  rewrite store_run by (rewrite length_app; cbn; lia). cbn [mbind option_bind].
  rewrite <- Hcut, insert_back by done. done.
Qed.

(** A status line that is not preceded by another line is not recognized: the search
    starts at the third character. *)
Theorem sim8xxGetStatus_bare : Forall (fun x =>
  let data := str (fst x) ++ CRLF ++ [NUL] in
  sim8xxGetStatus data = Some (SIM8XX_INVALID_STATUS, data)) status_table.
Proof. by repeat constructor. Qed.

(** The buffer is always restored. *)
Lemma sim8xxGetStatus_restores data st data' : sim8xxGetStatus data = Some (st, data') -> data' = data.
Proof.
  unfold sim8xxGetStatus. destruct (strlen data 0) as [len|]; [|done]. cbn [mbind option_bind].
  destruct (len <? 2)%nat; [by intros [= _ <-]|].
  destruct (data !! (len - 2)%nat) as [c2|] eqn:E2; [|done]. cbn [mbind option_bind].
  destruct (data !! (len - 1)%nat) as [c1|]; [|done]. cbn [mbind option_bind].
  case_bool_decide as Hc; cbn [negb orb]; [|by intros [= _ <-]]. subst c2.
  destruct (negb _); [by intros [= _ <-]|].
  pose proof (lookup_lt_Some _ _ _ E2) as Hl. rewrite store_run by done. cbn [mbind option_bind].
  destruct (last_line _ _ _) as [n|]; [|done]. cbn [mbind option_bind].
  destruct (match_status _ _ _) as [st0|]; [|done]. cbn [mbind option_bind].
  rewrite store_run by (rewrite length_insert; done). cbn [mbind option_bind]. intros [= _ <-].
  by rewrite insert_back.
Qed.

(** ** Receiving *)

Section driver_spec.
Context {S : Type} `{!Component S ch_system, !Component S app, !Apart S ch_system app}.
Context `{!Serial S, !SerialSpec S, !FatFs S}.
Implicit Types (s : S).

Definition sim (s : S) : Sim8xxDriver := SIM8D1 (proj s).
Definition command (s : S) : Sim8xxCommand := cmd (proj s).

Definition with_sim (d : Sim8xxDriver) (s : S) : S := inj (set_SIM8D1 (fun _ => d) (proj s)) s.

Lemma sim_with d s : sim (with_sim d s) = d.
Proof. unfold sim, with_sim. by rewrite proj_inj. Qed.

Lemma store_char_run c s : (rxlength (sim s) < length (rxbuf (sim s)))%nat ->
  store_char c s = Some (tt, with_sim (Sim (sim_state (sim s)) (sim_config (sim s))
    (<[rxlength (sim s) := charz c]> (rxbuf (sim s))) (Datatypes.S (rxlength (sim s)))) s).
Proof. intros H. unfold store_char, update. fold (sim s). by rewrite store_run. Qed.

(** When the bytes received so far fit in [rxbuf], the reader stores all of them, in
    order, behind those already there, and stops when there are no more. *)
Theorem drain_ok cfg bs : forall s, sim_config (sim s) = Some cfg -> serial_ok (sdp cfg) s ->
  rx_pending (sdp cfg) s = bs -> (rxlength (sim s) + length bs <= length (rxbuf (sim s)))%nat ->
  exists s', exec alone drain s tt s' /\ rx_pending (sdp cfg) s' = [] /\
    sim s' = Sim (sim_state (sim s)) (sim_config (sim s))
      (take (rxlength (sim s)) (rxbuf (sim s)) ++ (charz <$> bs) ++
        drop (rxlength (sim s) + length bs) (rxbuf (sim s)))
      (rxlength (sim s) + length bs).
Proof.
  induction bs as [|b bs IH]; intros s Hcfg Hok Hrx Hroom.
  - exists s. split; [|split; [done|]].
    + cbn [exec drain]. apply loop_done. cbn [exec mbind prog_bind]. exists cfg, s.
      split; [unfold config, deref; fold (sim s); by rewrite Hcfg|].
      exists MSG_TIMEOUT, s. split; [by apply get_none|done].
    + change (charz <$> []) with (@nil ascii). rewrite app_nil_l, Nat.add_0_r, take_drop.
      by destruct (sim s).
  - cbn [length] in Hroom.
    destruct (get_some (sdp cfg) s b bs Hok Hrx) as (Hb & s1 & Hget & Hok1 & Hrx1 & Ha1).
    assert (Hs1 : sim s1 = sim s) by (unfold sim; by rewrite Ha1).
    set (d := Sim (sim_state (sim s)) (sim_config (sim s))
      (<[rxlength (sim s) := charz b]> (rxbuf (sim s))) (Datatypes.S (rxlength (sim s)))).
    destruct (IH (with_sim d s1)) as (s' & Hex & Hrx' & Hsim').
    { rewrite sim_with. exact Hcfg. } { by apply serial_ok_app. }
    { by rewrite <- Hrx1; apply rx_pending_app. }
    { rewrite sim_with. cbn. rewrite length_insert. lia. }
    exists s'. split; [|split; [done|]].
    + cbn [exec drain] in *. apply (loop_more _ tt s tt (with_sim d s1)); [|done].
      cbn [exec mbind prog_bind]. exists cfg, s.
      split; [unfold config, deref; fold (sim s); by rewrite Hcfg|]. exists b, s1. split; [done|].
      destruct (Z.eqb_spec b MSG_TIMEOUT) as [->|_]; [unfold MSG_TIMEOUT in Hb; lia|].
      exists tt, (with_sim d s1). split; [|done]. subst d. rewrite <- Hs1. apply store_char_run.
      rewrite Hs1. lia.
    + rewrite Hsim', sim_with. subst d. cbn [sim_state sim_config rxbuf rxlength]. f_equal.
      * rewrite (take_S_r _ _ (charz b)) by (apply list_lookup_insert_eq; lia).
        rewrite take_insert_ge, drop_insert_lt, <- app_assoc by lia. cbn [length fmap list_fmap].
        cbn [Datatypes.app]. do 4 f_equal. lia.
      * cbn [length]. lia.
Qed.

(** Others leave the buffer alone: its mutex is taken. *)
Lemma rx_status_run s st s' : rx_status s = Some (st, s') ->
  sim s' = sim s /\ sim8xxGetStatus (rxbuf (sim s)) = Some (st, rxbuf (sim s)).
Proof.
  unfold rx_status, appl, view. msimpl. intros ([st' buf] & s1 & E & H)%bind_inv.
  unfold deref in E. destruct (sim8xxGetStatus _) as [[st0 buf0]|] eqn:Eg; [|done].
  injection E as <- <- <-. pose proof (sim8xxGetStatus_restores _ _ _ Eg) as ->.
  unfold on_sim, on_app, alter in H. rewrite run_modify in H. injection H as <- <-.
  unfold sim. rewrite proj_inj. fold (sim s). split; [|done]. cbn. unfold sim. by destruct (SIM8D1 (proj s)).
Qed.


(** ** Executing a command *)

Lemma put_chars_within (T : S -> S -> Prop) `{!PreOrder T} st cs :
  (forall s s', proj (K := app) s' = proj s -> T s s') -> within T (put_chars st cs).
Proof.
  intros HT. pose proof (serial_frame T _ HT) as (_ & Hput & _).
  induction cs as [|c cs IH]; simpl; auto.
Qed.

Lemma chprintf_within (T : S -> S -> Prop) `{!PreOrder T} st fmt ap :
  (forall s s', proj (K := app) s' = proj s -> T s s') -> within T (chprintf st fmt ap).
Proof.
  intros HT. split; [|intros cs; by apply (put_chars_within T)].
  intros s cs s'. unfold deref. destruct (Chprintf.chvprintf _ _); [|done]. intros [= _ <-]. by apply HT.
Qed.

(** The kernel and the serial line leave the application alone. *)
Lemma lift_app {X} (f : app -> X) {A} R (p : prog ch_system A) s a s' :
  (forall w s s', R w s s' -> same (fun s => f (proj s)) s s') ->
  exec R (lift p) s a s' -> f (proj s') = f (proj s).
Proof.
  intros HR. apply (exec_lift_rel (K := ch_system) R (same (fun s => f (proj s)))); [|done].
  intros k s0. unfold same. by rewrite (apart_l k).
Qed.

Lemma chprintf_app {X} (f : app -> X) R st fmt ap s a s' :
  (forall w s s', R w s s' -> same (fun s => f (proj s)) s s') ->
  exec R (chprintf st fmt ap) s a s' -> f (proj s') = f (proj s).
Proof.
  intros HR. apply (exec_within R (same (fun s => f (proj s)))); [|done].
  apply chprintf_within; [exact _|]. intros s0 s1 E. unfold same. by rewrite E.
Qed.

Lemma resume_reader_app {X} (f : app -> X) R s a s' :
  (forall w s s', R w s s' -> same (fun s => f (proj s)) s s') ->
  exec R resume_reader s a s' -> f (proj s') = f (proj s).
Proof.
  intros HR (r & s1 & E & H).
  assert (Hs1 : f (proj s1) = f (proj s)) by exact (lift_app f R (Atom (tref SIM8D1_reader)) s r s1 HR E).
  rewrite <- Hs1. destruct r; [by eapply lift_app|]. by destruct H as [_ ->].
Qed.

(** *** What the functions of the driver leave alone *)

Section frame.
Context {X : Type} (f : app -> X).
Let T : S -> S -> Prop := same (fun s => f (proj s)).

Lemma frame_lift A (p : prog ch_system A) : within T (lift p).
Proof. apply within_lift. intros k s. unfold T, same. by rewrite (apart_l k). Qed.

Lemma frame_app s s' : proj (K := app) s' = proj s -> T s s'.
Proof. intros E. unfold T, same. by rewrite E. Qed.

Lemma frame_on_app g s s' : (forall a, f (g a) = f a) -> on_app g s = Some (tt, s') -> T s s'.
Proof.
  intros Hg. unfold on_app, alter, modify. intros [= <-]. unfold T, same. by rewrite proj_inj, Hg.
Qed.

Lemma frame_config : within T (Atom config).
Proof. intros s a s'. unfold config, deref. destruct (sim_config _); [|done]. by intros [= _ <-]. Qed.

Lemma frame_print st fmt ap : within T (chprintf st fmt ap).
Proof. apply chprintf_within; [apply same_preorder|apply frame_app]. Qed.

Lemma frame_resume : within T resume_reader.
Proof.
  split; [apply (frame_lift _ (Atom (tref SIM8D1_reader)))|]. intros [t|]; [apply frame_lift|done].
Qed.

(** Executing a command changes the command only. *)
Lemma execute_frame : (forall g a, f (set_cmd g a) = f a) -> within T sim8xxExecute.
Proof.
  intros Hf. split; [apply frame_lift|]. intros _. split; [apply frame_lift|]. intros _.
  split; [apply frame_config|].
  intros cfg. split; [by intros s a s' [= _ <-]|]. intros a.
  split; [apply frame_print|]. intros _. split; [apply frame_lift|]. intros msg.
  split; [|intros _; split; [apply frame_resume|intros _; apply frame_lift]].
  destruct (msg =? MSG_OK).
  - split; [apply frame_lift|]. intros _. split; [|intros _; apply frame_lift]. intros s [] s' H.
    unfold take_response, appl, view in H. rewrite run_gets in H.
    apply bind_inv in H as (resp & s1 & E & H). unfold deref in E.
    destruct (strcpy _ _ _); [|done]. injection E as _ <-.
    apply bind_inv in H as ([st buf] & s2 & E & H). destruct (sim8xxGetStatus _); [|done].
    injection E as _ <-. by apply frame_on_app in H.
  - split; [apply frame_lift|]. intros _ s [] s' H. by apply frame_on_app in H.
Qed.

(** Asking for the connection changes nothing ([rxbuf] is restored). *)
Lemma connected_frame : (forall g a, f (set_SIM8D1 g a) = f a) -> within T sim8xxIsConnected.
Proof.
  intros Hf. split; [apply frame_lift|]. intros _. split; [apply frame_lift|]. intros _.
  split; [apply frame_config|]. intros cfg.
  split; [apply frame_print|]. intros _. split; [apply frame_lift|]. intros msg.
  split; [|intros b; split; [apply frame_resume|intros _; split; [apply frame_lift|done]]].
  destruct (msg =? MSG_OK); [|destruct (msg =? MSG_TIMEOUT); [split; [apply frame_lift|done]|done]].
  split; [apply frame_lift|]. intros _. split; [|intros st; split; [apply frame_lift|done]].
  intros s st s' H. unfold rx_status, appl, view in H. rewrite run_gets in H.
  apply bind_inv in H as ([st0 buf] & s1 & E & H). unfold deref in E.
  destruct (sim8xxGetStatus _); [|done]. injection E as _ <-.
  apply bind_inv in H as ([] & s2 & E & H). injection H as _ <-.
  by apply frame_on_app in E.
Qed.

Lemma toggle_frame : (forall g a, f (set_a_gpio g a) = f a) -> within T sim8xxTogglePower.
Proof.
  intros Hf. split; [apply frame_lift|]. intros _. split; [apply frame_config|]. intros cfg.
  split; [intros s [] s' H; by apply frame_on_app in H|]. intros _. split; [apply frame_lift|].
  intros _. split; [apply frame_config|]. intros cfg'.
  split; [intros s [] s' H; by apply frame_on_app in H|]. intros _.
  do 2 (split; [apply frame_lift|]; intros _). apply frame_lift.
Qed.
End frame.

Lemma take_response_run s s' : take_response s = Some (tt, s') ->
  exists resp st, strcpy (response (command s)) (rxbuf (sim s)) 0 = Some resp /\
    sim8xxGetStatus resp = Some (st, resp) /\
    command s' = Command (request (command s)) resp st.
Proof.
  unfold take_response, appl, view. msimpl. intros (resp & s1 & E & H)%bind_inv.
  unfold deref in E. destruct (strcpy _ _ _) as [resp0|] eqn:Es; [|done]. injection E as -> <-.
  apply bind_inv in H as ([st buf] & s2 & E2 & H).
  destruct (sim8xxGetStatus resp) as [[st0 buf0]|] eqn:Eg; [|done]. injection E2 as -> -> <-.
  pose proof (sim8xxGetStatus_restores _ _ _ Eg) as ->. unfold on_cmd, on_app, alter, modify in H.
  injection H as <-. exists resp, st. split; [done|]. split; [done|].
  unfold command. by rewrite proj_inj.
Qed.

Lemma execute_run R s s' : (forall w s s', R w s s' -> same command s s') ->
  exec R sim8xxExecute s tt s' ->
  let c := command s in let c' := command s' in
  request c' = request c /\
  (status c' = SIM8XX_TIMEOUT /\ response c' = response c \/
   exists buf, strcpy (response c) buf 0 = Some (response c') /\
     sim8xxGetStatus (response c') = Some (status c', response c')).
Proof.
  intros HR H.
  destruct H as (? & s1 & H1 & ? & s2 & H2 & cfg & s3 & H3 & a & s4 & H4 & ? & s5 & H5 & msg & s6 & H6 &
    ? & s7 & H7 & ? & s8 & H8 & H9).
  apply (lift_app cmd R) in H1, H2, H9; [|done..].
  apply (chprintf_app cmd R) in H5; [|done]. unfold wait_response in H6.
  apply (lift_app cmd R) in H6; [|done]. apply (resume_reader_app cmd R) in H8; [|done].
  cbn in H3, H4. unfold config, deref in H3. destruct (sim_config _); [|done].
  injection H3 as _ <-. unfold appl, view, gets in H4. injection H4 as _ <-.
  assert (H6' : command s6 = command s) by (unfold command; congruence).
  assert (H9' : command s' = command s7) by (unfold command; congruence).
  cbv zeta. rewrite H9', <- H6'. clear H1 H2 H5 H6 H6' H8 H9 H9'. destruct (msg =? MSG_OK).
  - destruct H7 as (? & t1 & K1 & [] & t2 & K2 & K3).
    apply (lift_app cmd R) in K1, K3; [|done..]. cbn in K2.
    apply take_response_run in K2 as (resp & st & Hs & Hg & Hc).
    assert (Hc7 : command s7 = Command (request (command s6)) resp st)
      by (unfold command in *; congruence).
    assert (K1' : command t1 = command s6) by (unfold command; congruence).
    rewrite Hc7. cbn. split; [done|]. right. exists (rxbuf (sim t1)). by rewrite <- K1'.
  - destruct H7 as (? & t1 & K1 & K2). apply (lift_app cmd R) in K1; [|done].
    cbn in K2. unfold on_cmd, on_app, alter, modify in K2. injection K2 as _ <-.
    assert (Hc : forall s, command (inj (set_cmd (set_status (fun _ => SIM8XX_TIMEOUT)) (proj s)) s) =
      set_status (fun _ => SIM8XX_TIMEOUT) (command s)) by (intros; unfold command; by rewrite proj_inj).
    rewrite Hc. unfold command at 1 3. rewrite K1. split; [done|]. left. split; [done|].
    unfold command. cbn. by rewrite K1.
Qed.

End driver_spec.

End Sim8xx.
