(* ===== verification/BoardMonitor.v ===== *)
(** * The board monitor: [source/BoardEvents.c] and [source/BoardMonitorThread.c]

    Every 10 ms a timer wakes the thread, which samples the card detect and the USB
    power lines, debounces them and broadcasts their changes.  In the functions called
    by the thread, [chSysLockFromISR] and [chSysUnlockFromISR] are a critical section
    without a reschedule. *)

From S2P Require Import Prelude CLib Prog ThreadQueue Kernel ChVt ChSchd ChThreads ChMbox.
From S2P Require Import ChEvents AppState.

Module BoardMonitor.
Import ChVt ChThreads ChMbox ChEvents.

Definition DEBOUNCE_COUNTER_START : Z := 10.
Definition POLLING_DELAY : Z := 10.

(** [SystemEvent_t] *)
Definition SYS_EVT_IGNITION_ON : Z := 0.
Definition SYS_EVT_IGNITION_OFF : Z := 1.

Definition boardEventsInit : K unit :=
  chEvtObjectInit besSdcardInserted;;
  chEvtObjectInit besSdcardRemoved;;
  chEvtObjectInit besUsbConnected;;
  chEvtObjectInit besUsbDisconnected;;
  chEvtObjectInit besIgnitionOn;;
  chEvtObjectInit besIgnitionOff.

Section monitor.
Context {S : Type} `{!Component S ch_system, !Component S app}.

Definition isSdcardInserted : M S bool :=
  b ← readLine LINE_SDC_CARD_DETECT; mret (bool_decide (PAL_HIGH = b)).

Definition checkSdcard : prog S unit :=
  a ← Atom appl;
  if 0 <? sdcard_counter a then
    b ← Atom isSdcardInserted;
    if (b : bool) then
      Atom (on_app (set_sdcard_counter (fun c => u8 (c - 1))));;
      a ← Atom appl;
      if sdcard_counter a =? 0 then lift (locked (Atom (chEvtBroadcastI besSdcardInserted)))
      else mret tt
    else Atom (on_app (set_sdcard_counter (fun _ => DEBOUNCE_COUNTER_START)))
  else
    b ← Atom isSdcardInserted;
    if negb b then
      Atom (on_app (set_sdcard_counter (fun _ => DEBOUNCE_COUNTER_START)));;
      lift (locked (Atom (chEvtBroadcastI besSdcardRemoved)))
    else mret tt.

Definition isUsbConnected : M S bool :=
  b ← readLine LINE_USB_VBUS_SENSE; mret (bool_decide (PAL_HIGH = b)).

(** What [checkUsb] tells the others. *)
Definition usb_event (esp : nat) (evt : Z) : K unit :=
  chEvtBroadcastI esp;; chMBPostI systemMailbox evt;; mret tt.

Definition checkUsb : prog S unit :=
  a ← Atom appl;
  if 0 <? usb_counter a then
    b ← Atom isUsbConnected;
    if (b : bool) then
      Atom (on_app (set_usb_counter (fun c => u8 (c - 1))));;
      a ← Atom appl;
      if usb_counter a =? 0 then lift (locked (Atom (usb_event besUsbConnected SYS_EVT_IGNITION_ON)))
      else mret tt
    else Atom (on_app (set_usb_counter (fun _ => DEBOUNCE_COUNTER_START)))
  else
    b ← Atom isUsbConnected;
    if negb b then
      Atom (on_app (set_usb_counter (fun _ => DEBOUNCE_COUNTER_START)));;
      lift (locked (Atom (usb_event besUsbDisconnected SYS_EVT_IGNITION_OFF)))
    else mret tt.

Definition timerEventHandler (id : Z) : prog S unit := checkSdcard;; checkUsb.

Definition boardMonitorThread : prog S Empty_set :=
  lift (chEvtRegister monitorTimerEvent timerEventListener 0);;
  Loop (fun _ : unit =>
    events ← lift (chEvtWaitOne ALL_EVENTS);
    chEvtDispatch [timerEventHandler] events;;
    mret (inl tt)) tt.
End monitor.

(** The callback of [monitorTimer]. *)
Definition monitor_timer_callback : K unit :=
  chEvtBroadcastI monitorTimerEvent;;
  chVTSetI monitorTimer (chTimeMS2I POLLING_DELAY) monitorTimerCallback 0.

Definition boardMonitorThreadInit : prog ch_system unit :=
  Atom (boardEventsInit;; chEvtObjectInit monitorTimerEvent);;
  locked (Atom (chVTSetI monitorTimer (chTimeMS2I POLLING_DELAY) monitorTimerCallback 0)).

(** ** Debouncing *)

(** The number of samples at the end of [xs] that are all high. *)
Fixpoint highs (xs : list bool) : nat :=
  match xs with [] => O | x :: xs => if x then S (highs xs) else O end.
Definition trailing (xs : list bool) : nat := highs (rev xs).

(** The counter after the samples [xs]. *)
Definition debounced (xs : list bool) : Z :=
  DEBOUNCE_COUNTER_START - Z.min DEBOUNCE_COUNTER_START (Z.of_nat (trailing xs)).

Lemma trailing_snoc xs x : trailing (xs ++ [x]) = if x then S (trailing xs) else O.
Proof. unfold trailing. by rewrite rev_app_distr. Qed.

(** The change seen when [x] follows [xs]: to on with the tenth high sample in a row, to
    off with the first low one after that. *)
Definition change (xs : list bool) (x : bool) : option bool :=
  if x then (if (trailing xs =? 9)%nat then Some true else None)
  else (if (10 <=? trailing xs)%nat then Some false else None).

Section debounce.
Context {S : Type} `{!Component S ch_system, !Component S app, !Apart S ch_system app}.
Implicit Types (s : S).

Definition kern (s : S) : ch_system := proj s.
Definition ap (s : S) : app := proj s.

(** The outcome of a call that may have told the kernel something. *)
Definition told (m : option (K unit)) (f : app -> app) (p : prog S unit) (s : S) : Prop :=
  match m with
  | None => exists s', exec alone p s tt s' /\ ap s' = f (ap s) /\ kern s' = kern s
  | Some m => forall k', m (kern s) = Some (tt, k') ->
      exists s', exec alone p s tt s' /\ ap s' = f (ap s) /\ kern s' = k'
  end.

(** The two checks are the same program. *)
Section generic.
Context (counter : app -> Z) (set_counter : (Z -> Z) -> app -> app) (sample : M S bool).
Context (on off : K unit).

Definition debounce : prog S unit :=
  a ← Atom appl;
  if 0 <? counter a then
    b ← Atom sample;
    if (b : bool) then
      Atom (on_app (set_counter (fun c => u8 (c - 1))));;
      a ← Atom appl;
      if counter a =? 0 then lift (locked (Atom on)) else mret tt
    else Atom (on_app (set_counter (fun _ => DEBOUNCE_COUNTER_START)))
  else
    b ← Atom sample;
    if negb b then
      Atom (on_app (set_counter (fun _ => DEBOUNCE_COUNTER_START)));;
      lift (locked (Atom off))
    else mret tt.

Context (counter_set : forall f a, counter (set_counter f a) = f (counter a)).
Context (set_ext : forall f g a, f (counter a) = g (counter a) -> set_counter f a = set_counter g a).
Context (set_id : forall a, set_counter (fun c => c) a = a).

Lemma appl_run s : appl s = Some (ap s, s).
Proof. reflexivity. Qed.
Lemma ap_on_app f s : ap (inj (f (ap s)) s) = f (ap s).
Proof. apply proj_inj. Qed.
Lemma kern_on_app (a : app) s : kern (inj a s) = kern s.
Proof. apply apart_r. Qed.
Lemma ap_inj (k : ch_system) s : ap (inj k s) = ap s.
Proof. apply (apart_l k). Qed.

(** Telling the kernel, after the counter has been set. *)
Lemma told_lift (m : K unit) f s k' : m (kern s) = Some (tt, k') ->
  exists s', exec alone (lift (locked (Atom m))) (inj (f (ap s)) s) tt s' /\
    ap s' = f (ap s) /\ kern s' = k'.
Proof.
  intros E. exists (inj k' (inj (f (ap s)) s)). split; [|split].
  - exists tt, (inj k' (inj (f (ap s)) s)). split.
    + cbn. unfold liftM. fold (kern (inj (f (ap s)) s)). by rewrite kern_on_app, E.
    + by exists tt, (inj k' (inj (f (ap s)) s)).
  - by rewrite ap_inj, ap_on_app.
  - apply proj_inj.
Qed.

Definition with_counter (f : Z -> Z) (s : S) : S := inj (set_counter f (ap s)) s.

(** The four ways through the function. *)
Lemma way_high s s' : 0 < counter (ap s) -> sample s = Some (true, s) ->
  exec alone (if u8 (counter (ap s) - 1) =? 0 then lift (locked (Atom on)) else mret tt)
    (with_counter (fun c => u8 (c - 1)) s) tt s' ->
  exec alone debounce s tt s'.
Proof.
  intros Hc Hs H. exists (ap s), s. split; [done|]. rewrite (proj2 (Z.ltb_lt _ _) Hc).
  exists true, s. split; [exact Hs|]. exists tt, (with_counter (fun c => u8 (c - 1)) s).
  split; [done|]. exists (ap (with_counter (fun c => u8 (c - 1)) s)), (with_counter (fun c => u8 (c - 1)) s).
  split; [done|]. unfold with_counter at 1. by rewrite ap_on_app, counter_set.
Qed.

Lemma way_low s : 0 < counter (ap s) -> sample s = Some (false, s) ->
  exec alone debounce s tt (with_counter (fun _ => DEBOUNCE_COUNTER_START) s).
Proof.
  intros Hc Hs. exists (ap s), s. split; [done|]. rewrite (proj2 (Z.ltb_lt _ _) Hc). by exists false, s.
Qed.

Lemma way_still_high s : counter (ap s) <= 0 -> sample s = Some (true, s) -> exec alone debounce s tt s.
Proof.
  intros Hc Hs. exists (ap s), s. split; [done|]. rewrite (proj2 (Z.ltb_ge _ _) Hc). by exists true, s.
Qed.

Lemma way_falls s s' : counter (ap s) <= 0 -> sample s = Some (false, s) ->
  exec alone (lift (locked (Atom off))) (with_counter (fun _ => DEBOUNCE_COUNTER_START) s) tt s' ->
  exec alone debounce s tt s'.
Proof.
  intros Hc Hs H. exists (ap s), s. split; [done|]. rewrite (proj2 (Z.ltb_ge _ _) Hc).
  exists false, s. split; [exact Hs|]. exists tt, (with_counter (fun _ => DEBOUNCE_COUNTER_START) s).
  by split.
Qed.

Lemma with_counter_ok f v s : f (counter (ap s)) = v ->
  ap (with_counter f s) = set_counter (fun _ => v) (ap s) /\ kern (with_counter f s) = kern s.
Proof.
  intros Hf. unfold with_counter. rewrite ap_on_app, kern_on_app. split; [by apply set_ext|done].
Qed.

Lemma debounce_ok xs x s : counter (ap s) = debounced xs -> sample s = Some (x, s) ->
  told ((fun b : bool => if b then on else off) <$> change xs x)
    (set_counter (fun _ => debounced (xs ++ [x]))) debounce s.
Proof.
  intros Hc Hs.
  assert (Hd : debounced (xs ++ [x]) = if x then 10 - Z.min 10 (Z.of_nat (Datatypes.S (trailing xs))) else 10)
    by (unfold debounced; rewrite trailing_snoc; by destruct x).
  unfold debounced at 1, DEBOUNCE_COUNTER_START in Hc. unfold change.
  destruct (decide (trailing xs < 10)%nat) as [Hn|Hn], x.
  - assert (Hf : u8 (counter (ap s) - 1) = debounced (xs ++ [true])) by (rewrite Hd, Hc, u8_id; lia).
    destruct (with_counter_ok (fun c => u8 (c - 1)) _ s Hf) as [Ha Hk].
    destruct (Nat.eqb_spec (trailing xs) 9) as [H9|H9]; cbn [told fmap option_fmap option_map].
    + intros k' E. destruct (told_lift on (set_counter (fun c => u8 (c - 1))) s k' E)
        as (s' & Hx & Ha' & Hk').
      exists s'. split; [|split; [|done]].
      * apply way_high; [lia|done|]. rewrite Hf, Hd, H9. exact Hx.
      * rewrite Ha'. by apply set_ext.
    + exists (with_counter (fun c => u8 (c - 1)) s). split; [|done].
      apply way_high; [lia|done|]. rewrite Hf, Hd. by rewrite (proj2 (Z.eqb_neq _ _)) by lia.
  - replace (10 <=? trailing xs)%nat with false by (symmetry; apply Nat.leb_gt; lia).
    exists (with_counter (fun _ => DEBOUNCE_COUNTER_START) s). split; [by apply way_low; [lia|]|].
    apply with_counter_ok. by rewrite Hd.
  - replace (trailing xs =? 9)%nat with false by (symmetry; apply Nat.eqb_neq; lia).
    exists s. split; [by apply way_still_high; [lia|]|]. split; [|done].
    rewrite <- (set_id (ap s)) at 1. apply set_ext. rewrite Hd. lia.
  - rewrite (proj2 (Nat.leb_le _ _)) by lia. cbn [told fmap option_fmap option_map]. intros k' E.
    destruct (told_lift off (set_counter (fun _ => DEBOUNCE_COUNTER_START)) s k' E)
      as (s' & Hx & Ha' & Hk').
    exists s'. split; [by apply way_falls; [lia| |]|]. split; [|done]. rewrite Ha'.
    apply set_ext. by rewrite Hd.
Qed.
End generic.

(** C33: the card is reported inserted with the tenth high sample in a row, and removed with
    the first low one after that; [xs] is the history since the start. *)
Theorem checkSdcard_debounce xs s : sdcard_counter (ap s) = debounced xs ->
  let x := IDR (a_gpio (ap s)) LINE_SDC_CARD_DETECT in
  told ((fun b : bool => if b then chEvtBroadcastI besSdcardInserted
                         else chEvtBroadcastI besSdcardRemoved) <$> change xs x)
    (set_sdcard_counter (fun _ => debounced (xs ++ [x]))) checkSdcard s.
Proof.
  intros Hc x. apply (debounce_ok sdcard_counter set_sdcard_counter isSdcardInserted).
  - done.
  - intros f g a Hf. unfold set_sdcard_counter. by rewrite Hf.
  - by intros [].
  - done.
  - unfold isSdcardInserted, readLine, appl, view. msimpl. unfold palReadLine, PAL_HIGH.
    fold (ap s). fold x. by destruct x.
Qed.

(** The same of the USB power line; the system thread is told too. *)
Theorem checkUsb_debounce xs s : usb_counter (ap s) = debounced xs ->
  let x := IDR (a_gpio (ap s)) LINE_USB_VBUS_SENSE in
  told ((fun b : bool => if b then usb_event besUsbConnected SYS_EVT_IGNITION_ON
                         else usb_event besUsbDisconnected SYS_EVT_IGNITION_OFF) <$> change xs x)
    (set_usb_counter (fun _ => debounced (xs ++ [x]))) checkUsb s.
Proof.
  intros Hc x. apply (debounce_ok usb_counter set_usb_counter isUsbConnected).
  - done.
  - intros f g a Hf. unfold set_usb_counter. by rewrite Hf.
  - by intros [].
  - done.
  - unfold isUsbConnected, readLine, appl, view. msimpl. unfold palReadLine, PAL_HIGH.
    fold (ap s). fold x. by destruct x.
Qed.
End debounce.

(** ** The timer *)

(** The callback of the timer sets it again, 10 ms later, and signals the thread; the other
    timers keep their deadlines. *)
Theorem monitorTimerCallback_rearms k l : evt_ok k -> vt_ok k ->
  monitorTimer ∉ keys (k_vtlist k) -> is_Some (k_vts k !! monitorTimer) -> elapsed k < 2 ^ 31 ->
  k_srcs k !! monitorTimerEvent = Some l -> (forall elp, elp ∈ l -> listens k elp) ->
  exists k', monitor_timer_callback k = Some (tt, k') /\ remaining k' monitorTimer = Some 100 /\
    (forall w, w <> monitorTimer -> remaining k' w = remaining k w) /\
    forall x, epending_of k' x = (fun e => Z.lor e (posted (k_lsts k) 0 x l)) <$> epending_of k x.
Proof.
  intros Hok Hvt Hno [vt Hv] Hel Hs Hl.
  destruct (broadcast_loop 0 l k Hok Hl) as (k1 & E1 & _ & He & _).
  assert (Htm : timers k1 = timers k) by by eapply (broadcast_frame timers 0 l (timers k)), E1.
  injection Htm as Hvl Hvts Hlt Hnow.
  assert (Hrem : forall w, remaining k1 w = remaining k w)
    by (intros w; unfold remaining, elapsed; by rewrite Hvl, Hlt, Hnow).
  assert (Hvt1 : vt_ok k1) by (destruct Hvt; constructor; by rewrite ?Hvl, ?Hvts).
  assert (Hf : vt_func vt = None).
  { destruct (vt_func vt) eqn:Ef; [|done]. destruct Hno. apply (vo_armed _ Hvt).
    exists vt. by rewrite Ef. }
  destruct (set_deadline monitorTimer (chTimeMS2I POLLING_DELAY) monitorTimerCallback 0 k1) as
    (k' & E & Hbut & _ & Hr & Hw); [done|by rewrite Hvl|by vm_compute| |].
  { unfold elapsed. rewrite Hlt, Hnow. fold (elapsed k).
    change (Z.max _ _) with 100. pose proof (vo_positive _ Hvt) as Hp. rewrite Hvl.
    destruct (k_vtlist k) as [|[v d] vl]; cbn; [unfold HDR_DELTA; lia|].
    inversion_clear Hp as [|?? Hd _]. cbn in Hd. lia. }
  exists k'. split; [|split; [exact Hr|split]].
  - unfold monitor_timer_callback, chEvtBroadcastI, chEvtBroadcastFlagsI, source. msimpl.
    erewrite run_call by apply E1. unfold chVTSetI, chVTResetI, chVTIsArmedI. msimpl.
    erewrite run_deref by (rewrite Hvts; exact Hv). msimpl. rewrite Hf. cbn. exact E.
  - intros w Hne. by rewrite Hw, Hrem.
  - intros x. rewrite <- He. unfold epending_of. f_equal.
    exact (f_equal (fun k => k_threads k !! x) Hbut).
Qed.

End BoardMonitor.
