(* ===== verification/GpsReader.v ===== *)
(** * The GPS reader and the dashboard: [source/GpsReaderThread.c] and [source/Dashboard.c]

    Every five seconds the thread asks the modem for a CGNSINF report, publishes the
    position on the dashboard and logs it on the SD card. *)

From S2P Require Import Prelude CLib CDouble Chprintf AtCommands Prog ThreadQueue Kernel.
From S2P Require Import ChVt ChSchd ChSem ChThreads ChMtx AppState Sim8xx.

Module GpsReader.
Import ChVt ChThreads ChSem ChMtx Sim8xx.
Import AtCgnspwr AtCgnsinf.
#[local] Abbreviation take := firstn.

Definition GPS_UPDATE_PERIOD_IN_MS : Z := 5000.

(** The callback of [gpsTimer]. *)
Definition gps_timer_callback : K unit :=
  chVTSetI gpsTimer (chTimeMS2I GPS_UPDATE_PERIOD_IN_MS) gpsTimerCallback 0;;
  chSemSignalI gpsSem.

Definition gpsReaderThreadInit : K unit :=
  chVTObjectInit gpsTimer;; chSemObjectInit gpsSem 0.

(** [memset(&dashboard, 0, sizeof(dashboard))] *)
Definition position_zero : Position_t := Position (zeros 19) d_zero d_zero d_zero d_zero 0 0 0.

(** The assignments of [savePosition]. *)
Definition copy_position (data : CGNSINF_Response_t) (pos : Position_t) : option Position_t :=
  d ← strncpy (p_date pos) (date data) 0 19;
  Some (Position d (latitude data) (longitude data) (altitude data) (speed data)
    (gpsSatInView data) (gnssSatInUse data) (gnssSatInView data)).

(** The line of the log. *)
Definition log_line (pdata : CGNSINF_Response_t) : option (list ascii) :=
  '(buf, _) ← Chprintf.chsnprintf (zeros 150) 150
    ("%s %f %f %f %f %d %d %d %d" ++ String LF EmptyString)
    [Chprintf.va_str (date pdata); Chprintf.va_double (latitude pdata);
     Chprintf.va_double (longitude pdata); Chprintf.va_double (speed pdata);
     Chprintf.va_double (altitude pdata); Chprintf.va_int (fixStatus pdata);
     Chprintf.va_int (gpsSatInView pdata); Chprintf.va_int (gnssSatInView pdata);
     Chprintf.va_int (gnssSatInUse pdata)];
  n ← strlen buf 0;
  Some (take n buf).

Section gps.
Context {S : Type} `{!Component S ch_system, !Component S app, !Serial S, !FatFs S}.

(** ** [Dashboard.c] *)

Definition dbInit : M S unit :=
  on_app (set_position (fun _ => position_zero));; liftM (chMtxObjectInit dashboard_lock).
Definition dbLock : prog S unit := lift (chMtxLock dashboard_lock).
Definition dbUnlock : prog S unit := lift (chMtxUnlock dashboard_lock).

(** ** [GpsReaderThread.c] *)

Definition set_err (e : gpsError_t) : M S unit := on_app (set_error (fun _ => e)).

(** Writing the request. *)
Definition create_request (create : list ascii -> nat -> option (list ascii * bool)) : M S unit :=
  a ← appl;
  '(b, _) ← deref (fun _ => create (request (cmd a)) 512%nat);
  on_cmd (set_request (fun _ => b)).

(** [do ... while (GPS_ERROR_NO_ERROR != error)], for the two directions. *)
Definition gps_power (create : list ascii -> nat -> option (list ascii * bool)) (err : gpsError_t)
    : prog S unit :=
  Loop (fun _ : unit =>
    Atom (create_request create);;
    sim8xxExecute;;
    a ← Atom appl;
    (if decide (status (cmd a) = SIM8XX_OK) then Atom (set_err GPS_ERROR_NO_ERROR)
     else Atom (set_err err);; lift (chThdSleepMilliseconds 1000));;
    a ← Atom appl;
    mret (if decide (error a = GPS_ERROR_NO_ERROR) then inr tt else inl tt)) tt.

Definition gpsPowerOn : prog S unit := gps_power atCgnspwrCreateOn GPS_ERROR_POWER_ON.
Definition gpsPowerOff : prog S unit := gps_power atCgnspwrCreateOff GPS_ERROR_POWER_OFF.

Definition saveBuffer (data : list ascii) : prog S unit := save_buffer "/sim8xx_gnss.log" data.

Definition logGpsData (pdata : CGNSINF_Response_t) : prog S unit :=
  line ← Atom (deref (fun _ => log_line pdata)); saveBuffer line.

Definition savePosition (data : CGNSINF_Response_t) : prog S unit :=
  dbLock;;
  Atom (
    a ← appl;
    pos ← deref (fun _ => copy_position data (position a));
    on_app (set_position (fun _ => pos)));;
  dbUnlock.

(** [atCgnsinfParse(&data, cmd.response)] *)
Definition parse_response : M S (CGNSINF_Response_t * bool) :=
  a ← appl;
  '(b, data, st) ← deref (fun _ => atCgnsinfParse (response (cmd a)));
  on_cmd (set_response (fun _ => b));;
  mret (data, st).

(** One turn of the thread after [chSemWait]. *)
Definition gps_update : prog S unit :=
  Atom (on_cmd (fun _ => sim8xxCommandInit);; create_request atCgnsinfCreate);;
  sim8xxExecute;;
  a ← Atom appl;
  if decide (status (cmd a) = SIM8XX_OK) then
    '(data, st) ← Atom parse_response;
    Atom (set_err (if (st : bool) then GPS_ERROR_NO_ERROR else GPS_ERROR_IN_RESPONSE));;
    savePosition data;;
    logGpsData data
  else Atom (set_err GPS_ERROR_DATA_UPDATE).

Definition gpsReaderThread : prog S Empty_set :=
  Loop (fun _ : unit => lift (chSemWait gpsSem);; gps_update;; mret (inl tt)) tt.

Definition gpsReaderStart : prog S unit :=
  gpsPowerOn;;
  lift (locked (Atom (
    chVTSetI gpsTimer (chTimeMS2I GPS_UPDATE_PERIOD_IN_MS) gpsTimerCallback 0;;
    chSemSignalI gpsSem))).

Definition gpsReaderStop : prog S unit :=
  lift (locked (Atom (chVTResetI gpsTimer)));;
  gpsPowerOff.
End gps.

(** ** Switching the receiver *)

Section gps_spec.
Context {S : Type} `{!Component S ch_system, !Component S app, !Apart S ch_system app}.
Context `{!Serial S, !SerialSpec S, !FatFs S, !FatFsSpec S}.
Implicit Types (s : S).

(** The variables of the GPS reader. *)
Definition gps_vars (s : S) : Sim8xxCommand * gpsError_t := (cmd (proj s), error (proj s)).

Lemma gps_vars_cmd s s' : same gps_vars s s' -> same command s s'.
Proof. intros H. exact (f_equal fst H). Qed.

(** Writing a request never fails on the command's buffer, and makes it a [Q]. *)
Definition creates (create : list ascii -> nat -> option (list ascii * bool)) (Q : list ascii -> Prop)
  : Prop := forall b, length b = 512%nat ->
    exists b', create b 512%nat = Some (b', true) /\ length b' = 512%nat /\ Q b'.

Lemma create_request_run create Q s s' : creates create Q -> length (request (command s)) = 512%nat ->
  create_request create s = Some (tt, s') ->
  length (request (command s')) = 512%nat /\ Q (request (command s')).
Proof.
  intros HQ Hl. unfold create_request, appl, view. msimpl. intros ([b r] & s1 & E & H)%bind_inv.
  unfold deref in E. destruct (HQ _ Hl) as (b' & Ec & Hl' & Hb'). unfold command in Ec.
  rewrite Ec in E. injection E as <- <- <-. unfold on_cmd, on_app, alter, modify in H.
  injection H as <-. unfold command. by rewrite proj_inj.
Qed.

(** The loop ends when the modem has accepted the request. *)
Lemma gps_power_ok create Q err R s s' : err <> GPS_ERROR_NO_ERROR -> creates create Q ->
  length (request (command s)) = 512%nat ->
  (forall w s s', R w s s' -> same gps_vars s s') -> exec R (gps_power create err) s tt s' ->
  status (command s') = SIM8XX_OK /\ error (proj s') = GPS_ERROR_NO_ERROR /\
  Q (request (command s')).
Proof.
  intros Herr HQ Hl HR H. cbn [exec gps_power] in H.
  refine (loop_exec_inv (fun _ t => length (request (command t)) = 512%nat)
    (fun _ s' => status (command s') = SIM8XX_OK /\ error (proj s') = GPS_ERROR_NO_ERROR /\
      Q (request (command s'))) _ _ tt s tt s' Hl H).
  clear s s' Hl H. intros [] t r t' Hl
    ([] & t1 & H1 & [] & t2 & H2 & a & t3 & H3 & ? & t4 & H4 & a' & t5 & H5 & -> & ->).
  cbn in H1. destruct (create_request_run create Q t t1 HQ Hl H1) as [Hl1 HQ1].
  apply execute_run in H2 as [Hreq _]; [|intros; eapply gps_vars_cmd; eauto].
  cbn in H3, H5. injection H3 as <- <-. injection H5 as <- <-.
  fold (command t2) in H4. rewrite <- Hreq in Hl1, HQ1.
  destruct (decide (status (command t2) = SIM8XX_OK)) as [Hst|Hst].
  - cbn in H4. unfold set_err, on_app, alter, modify in H4. injection H4 as _ <-.
    rewrite proj_inj. cbn. unfold command. by rewrite proj_inj.
  - destruct H4 as (? & t3 & E3 & H4). cbn in E3.
    unfold set_err, on_app, alter, modify in E3. injection E3 as _ <-.
    apply (lift_app (fun a => (cmd a, error a)) R) in H4; [|exact HR].
    rewrite proj_inj in H4. injection H4 as Hcmd Herr4. cbn in Hcmd, Herr4.
    rewrite Herr4, decide_False by done. unfold command. by rewrite Hcmd.
Qed.

Definition asks (text : string) (b : list ascii) : Prop := cstr b = Some (str text).

Lemma creates_cgnspwr act : creates (fun b n => atCgnspwrCreate b n act)
  (asks match act with GNSSPWR_ON => "AT+CGNSPWR=1" | GNSSPWR_OFF => "AT+CGNSPWR=0" end).
Proof.
  intros b Hb. destruct (atCgnspwrCreate_request b act) as (b' & E & Hl & Hc); [lia|].
  rewrite Hb in *. by exists b'.
Qed.

Lemma power_on_run R s s' : length (request (command s)) = 512%nat ->
  (forall w s s', R w s s' -> same gps_vars s s') -> exec R gpsPowerOn s tt s' ->
  status (command s') = SIM8XX_OK /\ error (proj s') = GPS_ERROR_NO_ERROR /\
  cstr (request (command s')) = Some (str "AT+CGNSPWR=1").
Proof.
  intros Hl HR. by refine (gps_power_ok atCgnspwrCreateOn _ GPS_ERROR_POWER_ON R s s' _
    (creates_cgnspwr GNSSPWR_ON) Hl HR).
Qed.

(** Switching the receiver on ends only when the modem has answered [OK] to the request
    [AT+CGNSPWR=1], and then there is no error left. *)
Theorem gpsPowerOn_ok R s s' : length (request (command s)) = 512%nat ->
  (forall w s s', R w s s' -> same gps_vars s s') -> exec R gpsPowerOn s tt s' ->
  status (command s') = SIM8XX_OK /\ error (proj s') = GPS_ERROR_NO_ERROR /\
  cstr (request (command s')) = Some (str "AT+CGNSPWR=1").
Proof. apply power_on_run. Qed.

(** ** Reports *)

(** What the dashboard shows of a report. *)
Definition shown (d : CGNSINF_Response_t) (p : Position_t) : Prop :=
  strncpy_l (date d) 19 = Some (p_date p) /\
  p_latitude p = latitude d /\ p_longitude p = longitude d /\ p_altitude p = altitude d /\
  p_speed p = speed d /\ p_gpsSatInView p = gpsSatInView d /\
  p_gnssSatInUse p = gnssSatInUse d /\ p_gnssSatInView p = gnssSatInView d.

Lemma copy_position_ok d p p' : length (p_date p) = 19%nat -> copy_position d p = Some p' ->
  shown d p' /\ length (p_date p') = 19%nat.
Proof.
  intros Hl. unfold copy_position, strncpy. rewrite drop_0.
  destruct (strncpy_l (date d) 19) as [bs|] eqn:E; cbn [mbind option_bind]; [|done].
  pose proof (strncpy_l_length _ _ _ E) as Hbs. unfold write_prefix. rewrite decide_True by lia.
  cbn [mbind option_bind]. intros [= <-]. rewrite drop_ge, app_nil_r by lia.
  split; [|exact Hbs]. split; [exact E|done].
Qed.

(** The variables of the GPS reader and the dashboard. *)
Definition gps_data (s : S) := (cmd (proj s), error (proj s), position (proj s)).

Lemma gps_data_cmd s s' : same gps_data s s' -> same command s s'.
Proof. intros H. exact (f_equal (fun x => fst (fst x)) H). Qed.
Lemma gps_data_rest s s' : same gps_data s s' ->
  same (fun s => (error (proj s), position (proj s))) s s'.
Proof. intros H. injection H as _ He Hp. unfold same. by rewrite He, Hp. Qed.

(** The end of a turn: the report is shown, then logged; the log leaves it alone. *)
Lemma save_log_ok R d s s' : length (p_date (position (proj s))) = 19%nat ->
  (forall w s s', R w s s' -> same gps_data s s') ->
  exec R (savePosition d;; logGpsData d) s tt s' ->
  command s' = command s /\ error (proj s') = error (proj s) /\ shown d (position (proj s')).
Proof.
  intros Hl HR ([] & s4 & (? & s1 & H1 & [] & s2 & H2 & H3) & H4).
  assert (HR' : forall w s s', R w s s' -> same (fun s => (cmd (proj s), error (proj s), position (proj s))) s s')
    by exact HR.
  apply (lift_app (fun a => (cmd a, error a, position a)) R) in H1, H3; [|done..].
  assert (H4' : same gps_data s4 s').
  { destruct (fat_frame (same gps_data)) as (Ho & Hw & Hc & _).
    { intros t t' E. unfold same, gps_data. by rewrite E. }
    refine (exec_within R (same gps_data) (logGpsData d) _ HR _ _ _ H4). split.
    - intros t l t'. unfold deref. destruct (log_line d); [|done]. by intros [= _ <-].
    - intros l. unfold saveBuffer, save_buffer. split; [apply Ho|]. intros r.
      destruct (r =? FR_OK); [|done]. repeat split; auto. }
  cbn [exec] in H2. unfold appl, view in H2. rewrite run_gets in H2.
  apply bind_inv in H2 as (pos & t & E & H2). unfold deref in E.
  destruct (copy_position d (position (proj s1))) as [pos0|] eqn:Ec; [|done]. injection E as -> <-.
  unfold on_app, alter, modify in H2. injection H2 as <-. rewrite proj_inj in H3. cbn in H3.
  injection H1 as Hc1 He1 Hp1. injection H3 as Hc3 He3 Hp3. injection H4' as Hc4 He4 Hp4.
  assert (Hl1 : length (p_date (position (proj s1))) = 19%nat) by congruence.
  destruct (copy_position_ok _ _ _ Hl1 Ec) as [Hs _].
  unfold command. rewrite Hp4, Hp3. split; [congruence|]. by split; [congruence|].
Qed.

Lemma parse_response_run s d ok s' : parse_response s = Some ((d, ok), s') ->
  exists b, atCgnsinfParse (response (command s)) = Some (b, d, ok) /\
    proj s' = set_cmd (set_response (fun _ => b)) (proj s).
Proof.
  unfold parse_response, appl, view. msimpl. intros ([[b d0] ok0] & s1 & E & H)%bind_inv.
  unfold deref in E. destruct (atCgnsinfParse _) as [[[b1 d1] ok1]|] eqn:Ep; [|done].
  injection E as -> -> -> <-. unfold on_cmd, on_app, alter in H. rewrite run_modify in H.
  injection H as <- <- <-. exists b. split; [done|]. apply proj_inj.
Qed.

(** C31: a turn of the thread asks for a report and, when the modem answers [OK], shows on the
    dashboard what the parser made of the response, an error included; otherwise the dashboard
    is left alone.  The error variable tells which. *)
Theorem gps_update_ok R s s' : length (p_date (position (proj s))) = 19%nat ->
  (forall w s s', R w s s' -> same gps_data s s') ->
  exec R gps_update s tt s' ->
  cstr (request (command s')) = Some (str "AT+CGNSINF") /\
  if decide (status (command s') = SIM8XX_OK) then
    exists b d ok, atCgnsinfParse b = Some (response (command s'), d, ok) /\
      error (proj s') = (if ok then GPS_ERROR_NO_ERROR else GPS_ERROR_IN_RESPONSE) /\
      shown d (position (proj s'))
  else error (proj s') = GPS_ERROR_DATA_UPDATE /\ position (proj s') = position (proj s).
Proof.
  intros Hl HR ([] & s1 & H1 & [] & s2 & H2 & a & s3 & H3 & H4).
  assert (HR1 : forall w s s', R w s s' -> same command s s') by (intros; by eapply gps_data_cmd, HR).
  assert (HR2 : forall w s s', R w s s' -> same (fun s => (error (proj s), position (proj s))) s s')
    by (intros; by eapply gps_data_rest, HR).
  cbn in H1. apply bind_inv in H1 as ([] & s0 & E0 & H1).
  assert (Hs0 : command s0 = sim8xxCommandInit /\ position (proj s0) = position (proj s)).
  { unfold on_cmd, on_app, alter, modify in E0. injection E0 as <-. unfold command. by rewrite proj_inj. }
  destruct Hs0 as [Hs0 Hpos0].
  assert (Hreq : request (command s1) = str "AT+CGNSINF" ++ zeros 502 /\
    position (proj s1) = position (proj s)).
  { unfold create_request, appl, view in H1. rewrite run_gets in H1.
    apply bind_inv in H1 as ([b r] & t & E & H1). unfold deref in E.
    fold (command s0) in E. rewrite Hs0 in E. vm_compute in E. injection E as <- _ <-.
    unfold on_cmd, on_app, alter, modify in H1. injection H1 as <-.
    unfold command. rewrite proj_inj. cbn [cmd set_cmd request set_request position].
    by rewrite Hpos0. }
  destruct Hreq as [Hreq Hpos1].
  pose proof (exec_within R _ _ (execute_frame (fun a => (error a, position a)) (fun _ _ => eq_refl)) HR2 _ _ _ H2)
    as Hrest. injection Hrest as _ Hpos2.
  apply execute_run in H2 as [Hreq2 _]; [|done].
  cbn in H3. injection H3 as <- <-. fold (command s2) in H4.
  assert (Hask : forall t, request (command t) = request (command s2) ->
    cstr (request (command t)) = Some (str "AT+CGNSINF")).
  { intros t ->. rewrite Hreq2, Hreq. reflexivity. }
  destruct (decide (status (command s2) = SIM8XX_OK)) as [Hst|Hst].
  - destruct H4 as ([d ok] & s4 & H4 & [] & s5 & H5 & H6). cbn in H4, H5.
    apply parse_response_run in H4 as (b & Hp & Hs4).
    unfold set_err, on_app, alter, modify in H5. injection H5 as <-.
    apply save_log_ok in H6 as (Hc & He & Hsh); [| |done].
    2: { rewrite proj_inj, Hs4. cbn. congruence. }
    rewrite proj_inj in He. unfold command in Hc. rewrite proj_inj, Hs4 in Hc. cbn in Hc.
    split; [apply Hask; unfold command; by rewrite Hc|].
    rewrite decide_True by (unfold command; rewrite Hc; exact Hst).
    exists (response (command s2)), d, ok. split; [|done]. rewrite Hp. unfold command. by rewrite Hc.
  - cbn in H4. unfold set_err, on_app, alter, modify in H4. injection H4 as <-.
    assert (Hc : command (inj (set_error (fun _ => GPS_ERROR_DATA_UPDATE) (proj s2)) s2) = command s2)
      by (unfold command; by rewrite proj_inj).
    rewrite Hc. split; [by apply Hask|]. rewrite decide_False by done. rewrite proj_inj. cbn.
    by rewrite Hpos2.
Qed.
End gps_spec.

End GpsReader.
