(* ===== verification/SystemThread.v ===== *)
(** * The system thread: [source/SystemThread.c]

    The state machine of the tracker, driven by the messages of [systemMailbox]. *)

From S2P Require Import Prelude CLib Prog ThreadQueue Kernel ChSchd ChThreads ChMbox.
From S2P Require Import ChMtx AppState Sim8xx BoardMonitor GpsReader.

Module SystemThread.
Import ChMbox Sim8xx BoardMonitor GpsReader.

Section system.
Context {S : Type} `{!Component S ch_system, !Component S app, !Serial S, !FatFs S}.

Definition connectModem : prog S unit :=
  Loop (fun _ : unit =>
    b ← sim8xxIsConnected;
    if negb b then sim8xxTogglePower;; mret (inl tt) else mret (inr tt)) tt.

Definition disconnectModem : prog S unit :=
  Loop (fun _ : unit =>
    b ← sim8xxIsConnected;
    if (b : bool) then sim8xxTogglePower;; mret (inl tt) else mret (inr tt)) tt.

Definition systemInitHandler (evt : Z) : prog S SystemState_t :=
  if evt =? SYS_EVT_IGNITION_ON then
    connectModem;; gpsReaderStart;; mret SYSTEM_RIDING
  else if evt =? SYS_EVT_IGNITION_OFF then
    gpsReaderStop;; disconnectModem;; mret SYSTEM_PARKING
  else mret SYSTEM_INIT.

Definition systemParkingHandler (evt : Z) : prog S SystemState_t := mret SYSTEM_PARKING.
Definition systemRidingHandler (evt : Z) : prog S SystemState_t := mret SYSTEM_RIDING.
Definition systemTrackingHandler (evt : Z) : prog S SystemState_t := mret SYSTEM_TRACKING.

(** One turn of the thread. *)
Definition system_turn : prog S unit :=
  '(msg, evt) ← lift (chMBFetchTimeout systemMailbox TIME_INFINITE);
  if msg =? MSG_OK then
    match evt with
    | Some evt =>
        a ← Atom appl;
        st ← (match sys_state a with
              | SYSTEM_INIT => systemInitHandler evt
              | SYSTEM_PARKING => systemParkingHandler evt
              | SYSTEM_RIDING => systemRidingHandler evt
              | SYSTEM_TRACKING => systemTrackingHandler evt
              end);
        Atom (on_app (set_sys_state (fun _ => st)))
    | None => Atom undefined
    end
  else mret tt.

Definition systemThread : prog S Empty_set :=
  Loop (fun _ : unit => system_turn;; mret (inl tt)) tt.

Definition systemThreadInit : M S unit :=
  dbInit;; liftM (chMBObjectInit systemMailbox (replicate 10 0)).
End system.

(** ** The state machine *)

(** The state after an event. *)
Definition next_state (st : SystemState_t) (evt : Z) : SystemState_t :=
  match st with
  | SYSTEM_INIT =>
      if evt =? SYS_EVT_IGNITION_ON then SYSTEM_RIDING
      else if evt =? SYS_EVT_IGNITION_OFF then SYSTEM_PARKING else SYSTEM_INIT
  | _ => st
  end.

Section system_spec.
Context {S : Type} `{!Component S ch_system, !Component S app, !Apart S ch_system app}.
Context `{!Serial S, !SerialSpec S, !FatFs S}.
Implicit Types (s : S).

Definition sysst (s : S) : SystemState_t := sys_state (proj s).
Definition turn (R : why -> S -> S -> Prop) (s s' : S) : Prop := exec R system_turn s tt s'.

Lemma init_handler_result R evt s st s' : exec R (systemInitHandler evt) s st s' ->
  st = next_state SYSTEM_INIT evt.
Proof.
  unfold systemInitHandler, next_state.
  destruct (evt =? SYS_EVT_IGNITION_ON); [by intros (? & ? & _ & ? & ? & _ & -> & _)|].
  destruct (evt =? SYS_EVT_IGNITION_OFF); [by intros (? & ? & _ & ? & ? & _ & -> & _)|].
  by intros [-> _].
Qed.

(** A turn: nothing was fetched, or an event was handled in the state. *)
Lemma turn_ok R s s' : (forall w s s', R w s s' -> same sysst s s') -> turn R s s' ->
  sysst s' = sysst s \/ exists evt, sysst s' = next_state (sysst s) evt.
Proof.
  intros HR ([msg oevt] & s1 & H1 & H2).
  apply (lift_app sys_state R) in H1; [|exact HR]. cbn in H2.
  destruct (msg =? MSG_OK); [|destruct H2 as [_ ->]; by left].
  destruct oevt as [evt|]; [|done]. right. exists evt.
  destruct H2 as (a & s2 & H2 & st & s3 & H3 & H4). cbn in H2. injection H2 as <- <-.
  cbn in H4. unfold on_app, alter, modify in H4. injection H4 as <-.
  unfold sysst. rewrite proj_inj. cbn. rewrite <- H1.
  destruct (sys_state (proj s1)); [by apply init_handler_result in H3|by destruct H3 as [-> _]..].
Qed.

(** Whatever the events, in any number: the tracker never gets to [SYSTEM_TRACKING] from
    its initial state, and [SYSTEM_PARKING] and [SYSTEM_RIDING] are never left. *)
Theorem system_absorbing R s s' : (forall w s s', R w s s' -> same sysst s s') ->
  rtc (turn R) s s' ->
  match sysst s with
  | SYSTEM_INIT => sysst s' <> SYSTEM_TRACKING
  | st => sysst s' = st
  end.
Proof.
  intros HR. induction 1 as [s|s s1 s' H1 H2 IH]; [by destruct (sysst s)|].
  destruct (turn_ok R _ _ HR H1) as [H3|[evt H3]]; [by rewrite <- H3|]. clear H1. rename H3 into H1.
  rewrite H1 in IH. unfold next_state in IH.
  destruct (sysst s); [|exact IH..].
  destruct (evt =? SYS_EVT_IGNITION_ON); [by rewrite IH|].
  by destruct (evt =? SYS_EVT_IGNITION_OFF); [rewrite IH|].
Qed.

Lemma connect_frame : within (same gps_vars) connectModem.
Proof.
  intros []. split; [by apply (connected_frame (fun a => (cmd a, error a)))|].
  intros [|]; [done|]. split; [|done]. by apply (toggle_frame (fun a => (cmd a, error a))).
Qed.

(** The tracker rides only after the modem has accepted to switch the receiver on. *)
Theorem system_riding R s s' : (forall w s s', R w s s' -> same sysst s s') ->
  (forall w s s', R w s s' -> same gps_vars s s') -> length (request (command s)) = 512%nat ->
  sysst s = SYSTEM_INIT -> turn R s s' -> sysst s' = SYSTEM_RIDING ->
  status (command s') = SIM8XX_OK /\ error (proj s') = GPS_ERROR_NO_ERROR /\
  cstr (request (command s')) = Some (str "AT+CGNSPWR=1").
Proof.
  intros HR HR2 Hl Hi ([msg oevt] & s1 & H1 & H2) Hr.
  apply (lift_app (fun a => (sys_state a, (cmd a, error a))) R) in H1.
  2: { intros w t t' Ht. pose proof (HR _ _ _ Ht) as E1. pose proof (HR2 _ _ _ Ht) as E2.
       unfold same, sysst, gps_vars in *. by rewrite E1, E2. }
  injection H1 as Hs1 Hc1 He1. unfold sysst in Hi, Hr. cbn in H2.
  destruct (msg =? MSG_OK); [|destruct H2 as [_ ->]; congruence].
  destruct oevt as [evt|]; [|done].
  destruct H2 as (a & s2 & H2 & st & s3 & H3 & H4). cbn in H2. injection H2 as <- <-.
  cbn in H4. unfold on_app, alter, modify in H4. injection H4 as <-.
  rewrite proj_inj in Hr. cbn in Hr. subst st. rewrite Hs1, Hi in H3.
  assert (Hc : forall s, command (inj (set_sys_state (fun _ => SYSTEM_RIDING) (proj s)) s) = command s)
    by (intros; unfold command; by rewrite proj_inj).
  rewrite Hc, proj_inj. cbn [error set_sys_state]. clear Hc.
  unfold systemInitHandler in H3. destruct (evt =? SYS_EVT_IGNITION_ON).
  2: { destruct (evt =? SYS_EVT_IGNITION_OFF); [by destruct H3 as (? & ? & _ & ? & ? & _ & ? & _)|].
       by destruct H3. }
  destruct H3 as ([] & s2 & H3 & [] & s4 & ([] & s5 & H4 & H5) & _ & ->).
  pose proof (exec_within R _ _ connect_frame HR2 _ _ _ H3) as E3. injection E3 as Hc3 _.
  apply (lift_app (fun a => (cmd a, error a)) R) in H5; [|exact HR2]. injection H5 as Hc5 He5.
  apply power_on_run in H4; [|unfold command in *; congruence|exact HR2].
  unfold command in *. by rewrite Hc5, He5.
Qed.
End system_spec.

End SystemThread.
