(* ===== verification/Peripherals.v ===== *)
(** * SD card, debug shell and peripheral manager: [source/Sdcard.c], [source/DebugShell.c]
    and [source/PeripheralManagerThread.c]

    The manager thread mounts the card and starts the shell when the board monitor
    reports them.  The drivers below (MMC, FatFs, USB) and the shell are interfaces. *)

From S2P Require Import Prelude CLib Chprintf Prog ThreadQueue Kernel ChVt ChSchd.
From S2P Require Import ChThreads ChEvents AppState Sim8xx.

Module Peripherals.
Import ChVt ChSchd ChThreads ChEvents Sim8xx.
#[local] Abbreviation take := firstn.

(** The stream of the shell, for [chprintf]. *)
Definition SDU1 : nat := 1.
Definition SD1 : nat := 0.

Definition slash : ascii := "/"%char.
Definition crlf_s (s : string) : string := s ++ String CR (String LF EmptyString).

(** [strcpy(path + i, fn)] *)
Definition strcpy_at (path : list ascii) (i : nat) (fn : list ascii) : option (list ascii) :=
  if (i <=? length path)%nat then
    tail ← strcpy (drop i path) (fn ++ [NUL]) 0; Some (take i path ++ tail)
  else None.

Section peripherals.
Context {S : Type} `{!Component S ch_system, !Component S app, !Serial S, !FatFs S, !Mmc S, !Usb S, !Heap S}.

(** ** [Sdcard.c] *)

Definition sdcardInit : M S unit := mmcObjectInit.

Definition sdcardMount : prog S unit :=
  mmcStart;;
  failed ← mmcConnect;
  if (failed : bool) then mret tt
  else
    r ← f_mount;
    if negb (FR_OK =? r) then mmcDisconnect;; mmcStop
    else
      Atom (on_app (set_fsReady (fun _ => true)));;
      Atom (gpio (palClearLine LINE_LED_2_RED)).

Definition sdcardUnmount : prog S unit :=
  mmcDisconnect;;
  mmcStop;;
  Atom (on_app (set_fsReady (fun _ => false)));;
  Atom (gpio (palSetLine LINE_LED_2_RED)).

(** [path] is the array [fbuff] at every call. *)
Definition on_fbuff (f : list ascii -> option (list ascii)) : M S unit :=
  a ← appl;
  b ← deref (fun _ => f (fbuff a));
  on_app (set_fbuff (fun _ => b)).

(** The fuel bounds the depth of the recursion. *)
Fixpoint scanFiles (fuel : nat) (chp : nat) : prog S Z :=
  match fuel with
  | O => Atom undefined
  | Datatypes.S fuel =>
      a ← Atom appl;
      path ← Atom (deref (fun _ => cstr (fbuff a)));
      '(res, dir) ← f_opendir path;
      if res =? FR_OK then
        i ← Atom (a ← appl; deref (fun _ => strlen (fbuff a) 0));
        Loop (fun dir =>
          '(res, (fn, is_dir), dir) ← f_readdir dir;
          if negb (res =? FR_OK) || bool_decide (fn = []) then mret (inr res)
          else if (is_dir : bool) then
            Atom (on_fbuff (fun b => store b i slash));;
            Atom (on_fbuff (fun b => strcpy_at b (i + 1) fn));;
            res ← scanFiles fuel chp;
            Atom (on_fbuff (fun b => store b i NUL));;
            mret (if negb (res =? FR_OK) then inr res else inl dir)
          else
            a ← Atom appl;
            chprintf chp (crlf_s "%s/%s") [Chprintf.va_str (fbuff a); Chprintf.va_str (fn ++ [NUL])];;
            mret (inl dir)) dir
      else mret res
  end.

(** [argc > 0] is [args]. *)
Definition sdcardCmdTree (fuel : nat) (chp : nat) (args : bool) : prog S unit :=
  if args then chprintf chp (crlf_s "Usage: tree") []
  else
    a ← Atom appl;
    if negb (fsReady a) then chprintf chp (crlf_s "File System not mounted") []
    else
      '(err, clusters) ← f_getfree;
      if negb (err =? FR_OK) then chprintf chp (crlf_s "FS: f_getfree() failed") []
      else
        cs ← Atom csize;
        chprintf chp (crlf_s "FS: %lu free clusters, %lu sectors per cluster, %lu bytes free")
          [Chprintf.va_int (i32 clusters); Chprintf.va_int (i32 cs);
           Chprintf.va_int (i32 (u32 (clusters * cs * 512)))];;
        Atom (on_fbuff (fun b => store b 0 NUL));;
        scanFiles fuel chp;;
        mret tt.

(** ** [DebugShell.c] *)

(** [shellInit] of os/various/shell/shell.c *)
Definition shellInit : K unit := chEvtObjectInit shell_terminated.

Definition debugShellInit : prog S unit :=
  Atom (sduObjectInit;; liftM shellInit);;
  usbDisconnectBus;;
  lift (chThdSleepMilliseconds 1000).

Definition debugShellStart : prog S unit :=
  sduStart;;
  usbStart;;
  usbConnectBus;;
  lift (chThdSleepMilliseconds 500);;
  a ← Atom appl;
  match shelltp a with
  | None =>
      tp ← chThdCreateFromHeap (NORMALPRIO + 1);
      Atom (on_app (set_shelltp (fun _ => tp)))
  | Some _ => mret tt
  end.

(** [chThdWait(shelltp); shelltp = NULL;] *)
Definition shell_wait (tp : tid) : prog S unit :=
  lift (chThdWait tp);; Atom (on_app (set_shelltp (fun _ => None))).

Definition debugShellStop : prog S unit :=
  a ← Atom appl;
  (match shelltp a with
   | Some tp =>
       b ← Atom (liftM (chThdTerminatedX tp));
       if (b : bool) then shell_wait tp else mret tt
   | None => mret tt
   end);;
  usbDisconnectBus;;
  usbStop;;
  sduStop.

(** A null [shelltp] is dereferenced. *)
Definition debugShellTerminated : prog S unit :=
  tp ← Atom (deref (fun s => shelltp (proj s)));
  b ← Atom (liftM (chThdTerminatedX tp));
  if (b : bool) then shell_wait tp else mret tt.

(** ** [PeripheralManagerThread.c] *)

Definition sdcardInsertedHandler (id : Z) : prog S unit := sdcardMount.
Definition sdcardRemovedHandler (id : Z) : prog S unit := sdcardUnmount.
Definition usbConnectedHandler (id : Z) : prog S unit := debugShellStart.
Definition usbDisconnectedHandler (id : Z) : prog S unit := debugShellStop.
Definition debugShellTerminatedHandler (id : Z) : prog S unit := debugShellTerminated.

(** Up to the loop. *)
Definition manager_setup : prog S unit :=
  lift (chEvtRegister besSdcardInserted sdcardInsertedListener 0);;
  lift (chEvtRegister besSdcardRemoved sdcardRemovedListener 1);;
  lift (chEvtRegister besUsbConnected usbConnectedListener 2);;
  lift (chEvtRegister besUsbDisconnected usbDisconnectedListener 3);;
  lift (chEvtRegister shell_terminated debugShellTerminatedListener 4);;
  Atom sdcardInit;;
  debugShellInit.

Definition event_handlers : list (Z -> prog S unit) :=
  [sdcardInsertedHandler; sdcardRemovedHandler; usbConnectedHandler;
   usbDisconnectedHandler; debugShellTerminatedHandler].

Definition peripheralManagerThread : prog S Empty_set :=
  manager_setup;;
  Loop (fun _ : unit =>
    events ← lift (chEvtWaitOne ALL_EVENTS);
    chEvtDispatch event_handlers events;;
    mret (inl tt)) tt.

Definition peripheralManagerThreadInit : prog S unit :=
  Atom sim8xxInit;;
  sim8xxStart (SimConfig SD1 LINE_WAVESHARE_POWER).
End peripherals.

(** ** The shell *)

Section shell_spec.
Context {S : Type} `{!Component S ch_system, !Component S app, !Apart S ch_system app}.
Context `{!Serial S, !FatFs S, !Mmc S, !Usb S, !Heap S}.
Implicit Types (s : S).

Definition shell (s : S) : option tid := shelltp (proj s).
Definition threads (s : S) : gmap tid thread_t := k_threads (proj s).

(** When the shell's end is handled after [debugShellStop] has already noticed it, a null
    pointer is dereferenced. *)
Theorem debugShellTerminated_null s : shell s = None -> run debugShellTerminated s = None.
Proof. intros H. cbn. unfold deref. unfold shell in H. by rewrite H. Qed.

Context `{!UsbSpec shell}.

Lemma shell_lift R A (p : prog ch_system A) s a s' :
  (forall w s s', R w s s' -> same shell s s') -> exec R (lift p) s a s' -> shell s' = shell s.
Proof.
  intros HR. apply (exec_lift_rel (K := ch_system) R (same shell)); [|done].
  intros k t. unfold same, shell. by rewrite (apart_l k).
Qed.

(** A shell that still runs when USB is disconnected is not replaced when USB is connected
    again: whatever becomes of it, the manager keeps its thread and creates no other. *)
Theorem debugShell_reconnect R s s' tp th : (forall w s s', R w s s' -> same shell s s') ->
  shell s = Some tp -> threads s !! tp = Some th -> t_state th <> CH_STATE_FINAL ->
  exec R (debugShellStop;; debugShellStart) s tt s' -> shell s' = Some tp.
Proof.
  intros HR Hs Ht Hst ([] & s1 & Hstop & Hstart).
  assert (Hw : forall A (p : prog S A), within (same shell) p -> forall s a s', exec R p s a s' ->
    shell s' = shell s) by (intros A p Hp t a t'; exact (exec_within R (same shell) p Hp HR t a t')).
  destruct Hstop as (a & t1 & E & ? & t2 & H1 & ? & t3 & H2 & ? & t4 & H3 & H4).
  cbn in E. injection E as <- <-. fold (shell s) in H1. rewrite Hs in H1.
  destruct H1 as (b & t5 & E & H1). cbn in E. unfold liftM, chThdTerminatedX, thd in E.
  unfold threads in Ht. erewrite run_deref in E by exact Ht. cbn in E. injection E as <- <-.
  rewrite bool_decide_eq_false_2 in H1 by done. destruct H1 as [_ ->].
  rewrite inj_proj in H2.
  apply Hw in H2, H3, H4; [|apply sduStop_frame|apply usbStop_frame|apply usbDisconnectBus_frame].
  destruct Hstart as (? & u1 & H5 & ? & u2 & H6 & ? & u3 & H7 & ? & u4 & H8 & a & u5 & E & H9).
  apply Hw in H5, H6, H7; [|apply usbConnectBus_frame|apply usbStart_frame|apply sduStart_frame].
  apply (shell_lift R) in H8; [|done]. cbn in E. injection E as <- <-. fold (shell u4) in H9.
  assert (Hu4 : shell u4 = Some tp) by congruence. rewrite Hu4 in H9. by destruct H9 as [_ ->].
Qed.
End shell_spec.

(** ** The end of the shell goes unheard *)

(** [shell_terminated] has no listener. *)
Definition unheard (k : ch_system) : option (list nat) := k_srcs k !! shell_terminated.

Lemma sleep_frame msec : within (same k_srcs) (chThdSleepMilliseconds msec).
Proof.
  assert (Hset : forall v d f par, moves (same k_srcs) (chVTDoSetI v d f par)).
  { intros. unfold chVTDoSetI, chVTGetSystemTimeX, set_vtlist, port_timer_set_alarm. moves_tac. }
  assert (Hreset : forall v, moves (same k_srcs) (chVTResetI v)).
  { intros. unfold chVTResetI, chVTIsArmedI, chVTDoResetI, set_vtlist, set_func, port_timer_stop_alarm,
      port_timer_set_alarm, chVTGetSystemTimeX. moves_tac. }
  assert (Hsleep : forall st, moves (same k_srcs) (go_sleep st)).
  { intros st k a k' E. exact (f_equal k_srcs (framed_go_sleep st _ _ _ E)). }
  assert (Hcur : moves (same k_srcs) (t ← currp; get_rdymsg t)) by (unfold currp, get_rdymsg; moves_tac).
  unfold chThdSleepMilliseconds, chThdSleep, chThdSleepS, chSchGoSleepTimeoutS, chSchGoSleepS.
  split; [|by intros ?; split; [|intros ?]]. split; [|done].
  destruct (bool_decide _).
  - split; [unfold currp; moves_tac|]. intros self. split; [apply Hset|]. intros _.
    split; [by split; [apply Hsleep|]|]. intros _. split; [apply Hreset|]. intros _. apply Hcur.
  - split; [by split; [apply Hsleep|]|]. intros _. apply Hcur.
Qed.

Section setup_spec.
Context {S : Type} `{!Component S ch_system, !Component S app, !Apart S ch_system app}.
Context `{!Serial S, !FatFs S, !Mmc S, !Usb S, !Heap S}.
Definition heard (s : S) : option (list nat) := unheard (proj s).
Context `{!UsbSpec heard}.

Lemma within_lift_kernel {X} (f : ch_system -> X) A (p : prog ch_system A) :
  within (same f) p -> within (same (fun s : S => f (proj s))) (lift p).
Proof.
  induction p as [B b|B C q IHq k IHk|B m|w|Y B body IH x]; simpl.
  - done.
  - intros [H1 H2]. split; [by apply IHq|]. intros b. by apply IHk, H2.
  - intros H s b s'. unfold liftM. destruct (m (proj s)) as [[c k]|] eqn:E; [|done].
    intros [= <- <-]. unfold same. rewrite proj_inj. exact (H _ _ _ E).
  - done.
  - intros H y. by apply IH.
Qed.

(** The set up of the manager registers a listener for the end of the shell, and then
    [shellInit] empties the event source: after it nobody listens, and [debugShellTerminated]
    is never called. *)
Theorem manager_setup_unheard R (s s' : S) : (forall w s s', R w s s' -> same heard s s') ->
  exec R manager_setup s tt s' -> heard s' = Some [].
Proof.
  intros HR (? & s1 & _ & ? & s2 & _ & ? & s3 & _ & ? & s4 & _ & ? & s5 & _ & ? & s6 & _ & H).
  destruct H as (? & s7 & H7 & ? & s8 & H8 & H9). cbn in H7.
  apply bind_inv in H7 as ([] & t & _ & H7). unfold liftM in H7. cbn in H7. injection H7 as _ <-.
  assert (H9' : heard s' = heard s8).
  { refine (exec_within R (same heard) _ _ HR _ _ _ H9). apply (within_lift_kernel unheard).
    assert (Hsub : forall A (p : prog ch_system A), within (same k_srcs) p -> within (same unheard) p).
    { clear. intros A p. induction p as [B b|B C q IHq k IHk|B m|w|Y B body IH x]; simpl; auto.
      - intros [H1 H2]. split; auto.
      - intros H s a s' E. unfold same, unheard. by rewrite (H _ _ _ E). }
    apply Hsub, sleep_frame. }
  assert (H8' : heard s8 = heard (inj (set_k_srcs (insert shell_terminated []) (proj t)) t))
    by exact (exec_within R (same heard) _ usbDisconnectBus_frame HR _ _ _ H8).
  rewrite H9', H8'. unfold heard, unheard. rewrite proj_inj. apply lookup_insert_eq.
Qed.
End setup_spec.

(** ** The file tree *)

Section scan_spec.
Context {S : Type} `{!Component S ch_system, !Component S app, !Apart S ch_system app}.
Context `{!Serial S, !SerialSpec S, !FatFs S, !FatFsSpec S, !Mmc S, !Usb S, !Heap S}.

Definition path (s : S) : list ascii := fbuff (proj s).

Lemma on_fbuff_run f (s s' : S) : on_fbuff f s = Some (tt, s') -> f (path s) = Some (path s').
Proof.
  unfold on_fbuff, appl, view. rewrite run_gets. intros (b & s1 & E & H)%bind_inv.
  unfold deref in E. fold (path s) in E. destruct (f (path s)) as [b0|]; [|done].
  injection E as -> <-. unfold on_app, alter, modify in H. injection H as <-.
  unfold path. by rewrite proj_inj.
Qed.

(** A name is appended to the path... *)
Lemma append_str b i c fn b1 b2 p : cstr b = Some p -> i = length p -> c <> NUL ->
  store b i c = Some b1 -> strcpy_at b1 (i + 1) fn = Some b2 ->
  exists w, cstr b2 = Some (p ++ c :: w).
Proof.
  intros (r & -> & Hp)%cstr_Some -> Hc H1 H2.
  rewrite store_run in H1 by (rewrite length_app; cbn; lia). injection H1 as <-.
  rewrite insert_app_mid in H2. unfold strcpy_at in H2.
  rewrite (proj2 (Nat.leb_le _ _)) in H2 by (rewrite length_app; cbn; lia).
  assert (Hsplit : p ++ c :: r = (p ++ [c]) ++ r) by by rewrite <- app_assoc.
  assert (Hlen : length (p ++ [c]) = (length p + 1)%nat) by (rewrite length_app; done).
  rewrite Hsplit, <- Hlen, take_app_length, drop_app_length in H2.
  unfold strcpy, cstr_at in H2. rewrite drop_0 in H2.
  destruct (cstr (fn ++ [NUL])) as [w|] eqn:Hw; [|done]. cbn [mbind option_bind] in H2.
  unfold write_prefix in H2. case_decide; [|done]. cbn [mbind option_bind] in H2. injection H2 as <-.
  exists w. rewrite <- !app_assoc. change ([c] ++ w ++ ?x) with (c :: w ++ x).
  rewrite app_comm_cons, app_assoc. apply cstr_app.
  pose proof (cstr_no_nul _ _ Hw). rewrite elem_of_app, elem_of_cons. intros [?|[?|?]]; congruence.
Qed.

(** ... and cut again. *)
Lemma cut_str b i c w b' p : cstr b = Some (p ++ c :: w) -> i = length p ->
  store b i NUL = Some b' -> cstr b' = Some p.
Proof.
  intros (r & -> & Hn)%cstr_Some -> H. rewrite <- app_assoc in H. cbn [Datatypes.app] in H.
  rewrite store_run in H by (rewrite length_app; cbn; lia). injection H as <-.
  rewrite insert_app_mid. apply cstr_app. intros Hp. apply Hn. rewrite elem_of_app. by left.
Qed.

(** What the driver and the file system do in between. *)
Lemma path_within {A} R (p : prog S A) s a s' : (forall w s s', R w s s' -> same path s s') ->
  within (same path) p -> exec R p s a s' -> path s' = path s.
Proof. intros HR Hp. exact (exec_within R (same path) p Hp HR s a s'). Qed.

(** Whatever the directories hold, the recursive listing leaves the path it was given in
    its buffer as it was. *)
Theorem scanFiles_restores R chp fuel : forall (s s' : S) res p,
  (forall w s s', R w s s' -> same path s s') -> cstr (path s) = Some p ->
  exec R (scanFiles fuel chp) s res s' -> cstr (path s') = Some p.
Proof.
  destruct (fat_frame (same path)) as (_ & _ & _ & Hod & Hrd & _).
  { intros s s' E. unfold same, path. by rewrite E. }
  induction fuel as [|fuel IH]; intros s s' res p HR Hp; [done|].
  intros (a & s1 & E & pa & s2 & E2 & [r dir] & s3 & H3 & H). cbn in E, E2. injection E as <- <-.
  assert (Hs2 : s2 = s) by (unfold deref in E2; destruct (cstr _); [|done]; by injection E2).
  subst s2. apply (path_within R) in H3; [|done|apply Hod]. cbn in H.
  destruct (r =? FR_OK); [|destruct H as [_ ->]; by rewrite H3].
  destruct H as (i & s4 & E4 & H). cbn in E4. unfold appl, view in E4. rewrite run_gets in E4.
  unfold deref in E4. fold (path s3) in E4. rewrite H3 in E4.
  unfold strlen, cstr_at in E4. rewrite drop_0, Hp in E4. injection E4 as Hi <-.
  assert (HJ : cstr (path s3) = Some p) by by rewrite H3. clear Hp H3 E2 pa.
  refine (loop_exec_inv (fun _ s => cstr (path s) = Some p) (fun _ s' => cstr (path s') = Some p)
    _ _ dir s3 res s' HJ H).
  clear s s' HJ H dir s3 res. intros dir t q t' Ht ([[r' [fn is_dir]] dir'] & t1 & H1 & H).
  apply (path_within R) in H1; [|done|apply Hrd]. cbv beta iota in H.
  destruct (negb (r' =? FR_OK) || _); [destruct H as [-> ->]; by rewrite H1|]. destruct is_dir.
  - destruct H as ([] & t2 & E2 & [] & t3 & E3 & r2 & t4 & H4 & [] & t5 & E5 & -> & ->).
    apply on_fbuff_run in E2, E3, E5. rewrite H1 in E2.
    destruct (append_str _ i slash _ _ _ p Ht (eq_sym Hi) ltac:(done) E2 E3) as [w Hw].
    assert (Ht5 : cstr (path t5) = Some p) by (eapply (cut_str _ i slash w); [by eapply IH|done|exact E5]).
    by destruct (negb _).
  - destruct H as (a & t2 & E2 & ? & t3 & H3 & -> & ->). cbn in E2. injection E2 as <- <-.
    assert (H3' : path t3 = path t1).
    { refine (path_within R (chprintf chp (crlf_s "%s/%s") [Chprintf.va_str (fbuff (proj t1));
        Chprintf.va_str (fn ++ [NUL])]) _ _ _ HR _ H3).
      apply chprintf_within; [exact _|]. intros u u' E. unfold same, path. by rewrite E. }
    by rewrite H3', H1.
Qed.
End scan_spec.
End Peripherals.
