(* ===== verification/CardDriver.v ===== *)
(** * The card driver under the application

    [HalMmcSpi] implements the class [Mmc] the application uses, with the configuration of
    [source/Sdcard.c]; what it leaves alone, and what mounting and removing a card do to it. *)

From S2P Require Import Prelude CLib Prog ThreadQueue Kernel ChThreads HalMmcsd AppState HalMmcSpi MmcProtocol Peripherals.

(** [mmccfg]: the second SPI driver, the low and the high speed configuration, by name. *)
Definition SPID2 : nat := 2.
Definition hs_spicfg : nat := 0.
Definition ls_spicfg : nat := 1.
Definition mmccfg : MMCConfig := MmcConfig SPID2 ls_spicfg hs_spicfg.

#[global] Instance mmc_driver {S} `{!Component S ch_system, !Component S MMCDriver, !Spi S} : Mmc S := {|
  mmcObjectInit := HalMmcSpi.mmcObjectInit;
  mmcStart := Atom (HalMmcSpi.mmcStart mmccfg);
  mmcConnect := HalMmcSpi.mmcConnect;
  mmcDisconnect := HalMmcSpi.mmcDisconnect;
  mmcStop := HalMmcSpi.mmcStop
|}.

(** The SPI driver leaves alone what others can observe by [f]. *)
Class SpiFrame {S X : Type} (f : S -> X) `{!Spi S} := {
  spiStart_frame p cfg : within (same f) (spiStart p cfg);
  spiStop_frame p : within (same f) (spiStop p);
  spiSelect_frame p : within (same f) (spiSelect p);
  spiUnselect_frame p : within (same f) (spiUnselect p);
  spiSend_frame p bs : within (same f) (spiSend p bs);
  spiReceive_frame p n : within (same f) (spiReceive p n);
  spiIgnore_frame p n : within (same f) (spiIgnore p n)
}.

Module CardDriver.
Import ChThreads HalMmcsd HalMmcSpi MmcProtocol Peripherals.

Section frame.
Context {S X : Type} (f : S -> X) `{!Component S ch_system, !Component S MMCDriver, !Spi S, !SpiFrame f}.
Hypothesis f_kernel : forall (k : ch_system) s, f (inj k s) = f s.
Hypothesis f_mmc : forall (d : MMCDriver) s, f (inj d s) = f s.

Lemma frame_bind {A B} (p : prog S A) (k : A -> prog S B) :
  within (same f) p -> (forall a, within (same f) (k a)) -> within (same f) (p ≫= k).
Proof. by split. Qed.
Lemma frame_ret {A} (a : A) : within (same f) (mret a : prog S A).
Proof. done. Qed.
Lemma frame_alter g : moves (same f) (on_mmc g).
Proof using f_mmc. intros s u s' [= _ <-]. apply f_mmc. Qed.
Lemma frame_set_state st : moves (same f) (set_state st).
Proof using f_mmc. apply frame_alter. Qed.
Lemma frame_mmcp : moves (same f) mmcp.
Proof. by intros s u s' [= _ <-]. Qed.
Lemma frame_cfg {A} (k : MMCConfig -> prog S A) :
  (forall c, within (same f) (k c)) -> within (same f) (c ← Atom config; k c).
Proof. intros Hk. split; [|done]. apply moves_deref. exact _. Qed.
Lemma frame_deref {A} (o : option A) : within (same f) (Atom (deref (fun _ : S => o))).
Proof. apply moves_deref. exact _. Qed.
Lemma frame_sleep ms : within (same f) (lift (chThdSleepMilliseconds ms)).
Proof using f_kernel. apply within_lift. intros k s. apply f_kernel. Qed.

Lemma frame_receive1 : within (same f) receive1.
Proof. apply frame_bind; [|intros ?; apply frame_deref]. apply frame_cfg. intros c. apply spiReceive_frame. Qed.
Ltac framed :=
  lazymatch goal with
  | |- within _ (_ ≫= _) => apply frame_bind; [framed|intros ?; framed]
  | |- within _ (mret _) => apply frame_ret
  | |- within _ (if ?b then _ else _) => destruct b; framed
  | |- within _ (match ?x with _ => _ end) => destruct x; framed
  | |- within _ (Atom (set_state _)) => apply frame_set_state
  | |- within _ (Atom (on_mmc _)) => apply frame_alter
  | |- within _ (Atom mmcp) => apply frame_mmcp
  | |- within _ (Atom (deref _)) => apply frame_deref
  | |- within _ (lift (chThdSleepMilliseconds _)) => apply frame_sleep
  | |- within _ receive1 => apply frame_receive1
  | |- within _ _ => auto with frame
  end.
Create HintDb frame.

Lemma frame_receive n : within (same f) (receive n).
Proof. apply frame_cfg. intros c. apply spiReceive_frame. Qed.
Lemma frame_send bs : within (same f) (send bs).
Proof. apply frame_cfg. intros c. apply spiSend_frame. Qed.
Lemma frame_ignore n : within (same f) (ignore n).
Proof. apply frame_cfg. intros c. apply spiIgnore_frame. Qed.
Lemma frame_select : within (same f) select.
Proof. apply frame_cfg. intros c. apply spiSelect_frame. Qed.
Lemma frame_unselect : within (same f) unselect.
Proof. apply frame_cfg. intros c. apply spiUnselect_frame. Qed.
Lemma frame_stop : within (same f) stop.
Proof. apply frame_cfg. intros c. apply spiStop_frame. Qed.
Lemma frame_slow : within (same f) start_slow.
Proof. apply frame_cfg. intros c. apply spiStart_frame. Qed.
Lemma frame_fast : within (same f) start_fast.
Proof. apply frame_cfg. intros c. apply spiStart_frame. Qed.
Hint Resolve frame_receive frame_send frame_ignore frame_select frame_unselect frame_stop frame_slow frame_fast : frame.

Lemma frame_poll_idle : within (same f) poll_idle.
Proof using All. cbn [within poll_idle]. intros ?. framed. Qed.
Lemma frame_wait : within (same f) wait.
Proof using All. unfold wait. generalize 16%nat. intros n. induction n; cbn [wait_loop]; [apply frame_poll_idle|framed]. Qed.
Lemma frame_recvr1 : within (same f) recvr1.
Proof using All. unfold recvr1. generalize 9%nat. intros n. induction n; cbn [recvr1_loop]; framed. Qed.
Lemma frame_token n : within (same f) (wait_token n).
Proof using All. induction n; cbn [wait_token]; framed. Qed.
Hint Resolve frame_poll_idle frame_wait frame_recvr1 frame_token : frame.
Lemma frame_send_hdr cmd arg : within (same f) (send_hdr cmd arg).
Proof using All. unfold send_hdr. framed. Qed.
Hint Resolve frame_send_hdr : frame.
Lemma frame_command1 cmd arg : within (same f) (send_command_R1 cmd arg).
Proof using All. unfold send_command_R1. framed. Qed.
Lemma frame_command3 cmd arg : within (same f) (send_command_R3 cmd arg).
Proof using All. unfold send_command_R3, recvr3. framed. Qed.
Lemma frame_register cmd : within (same f) (read_CxD cmd).
Proof using All. unfold read_CxD. framed. Qed.
Lemma frame_sync : within (same f) sync.
Proof using All. unfold sync. framed. Qed.
Hint Resolve frame_command1 frame_command3 frame_register frame_sync : frame.
Lemma frame_retry n attempt : within (same f) attempt -> within (same f) (retry n attempt).
Proof using All. intros Ha. induction n; cbn [retry]; framed. Qed.
Lemma frame_ccs : within (same f) read_ccs.
Proof using All. unfold read_ccs. framed. Qed.
Hint Resolve frame_ccs : frame.
Lemma frame_detect : within (same f) detect_sdhc.
Proof using All.
  unfold detect_sdhc. framed. apply frame_retry. unfold try_op_cond. framed.
Qed.
Lemma frame_registers : within (same f) read_registers.
Proof using All. unfold read_registers, read_csd, read_cid. framed. Qed.
Hint Resolve frame_detect frame_registers : frame.
Lemma frame_connect_steps : within (same f) connect_steps.
Proof using All. unfold connect_steps. framed; apply frame_retry; unfold try_idle, try_init; framed. Qed.
Hint Resolve frame_connect_steps : frame.

(** The card driver leaves alone what the SPI driver and the kernel leave alone. *)
#[global] Instance mmc_frame : MmcSpec f.
Proof using All.
  split.
  - intros s u s' (a & s1 & H1%frame_set_state & (b & s2 & H2%frame_alter & H3%frame_alter)%bind_inv)%bind_inv.
    unfold same in *. congruence.
  - intros s u s' (a & s1 & H1%frame_alter & H2%frame_set_state)%bind_inv. unfold same in *. congruence.
  - unfold AppState.mmcConnect, mmc_driver, mmcConnect. apply frame_bind; [|intros _; framed].
    intros s u s' (a & s1 & H1%frame_set_state & H2%frame_alter)%bind_inv. unfold same in *. congruence.
  - unfold AppState.mmcDisconnect, mmc_driver, mmcDisconnect. apply frame_bind; [|intros [|]; framed].
    split; [|by split]. intros s b s' (d & s1 & H1%frame_mmcp & H2)%bind_inv. case_decide.
    + injection H2 as _ <-. exact H1.
    + apply bind_inv in H2 as (u & s2 & H2%frame_set_state & H3). injection H3 as _ <-. unfold same in *. congruence.
  - unfold AppState.mmcStop, mmc_driver, mmcStop. apply frame_bind; [framed|intros _].
    intros s u s' (a & s1 & H1%frame_alter & H2%frame_set_state)%bind_inv. unfold same in *. congruence.
Qed.
End frame.

(** ** Mounting and removing a card *)

Section sdcard.
Context {S : Type} (R : why -> S -> S -> Prop) (bus : S -> list ev).
Context `{!Component S ch_system, !Component S app, !Component S MMCDriver, !Apart S ch_system MMCDriver, !Apart S app MMCDriver}.
Context `{!Spi S, !SpiSpec R bus, !FatFs S}.
Hypothesis others : forall w s s', R w s s' -> bus s' = bus s /\ proj (K := MMCDriver) s' = proj s.
#[local] Abbreviation drv := (proj (K := MMCDriver)).

End sdcard.
End CardDriver.
