(* ===== verification/Shell.v ===== *)
(** * The shell: [os/various/shell/shell.c] and [shell_cmd.c]

    A line is edited in a buffer of 64 bytes as its characters arrive, then cut into words
    by writing terminators into it, and the command named by the first word is called with
    the others.  The stream is an interface; the options for history, completion and
    escape sequences are off. *)

From S2P Require Import Prelude CLib Chprintf Prog ThreadQueue Kernel ChVt ChThreads ChEvents.
From S2P Require Import ChHeap AppState Sim8xx Peripherals.

Module Shell.
Import ChVt ChThreads ChEvents ChHeap Sim8xx Peripherals.
#[local] Abbreviation take := firstn.

Definition SHELL_MAX_LINE_LENGTH : nat := 64.
Definition SHELL_MAX_ARGUMENTS : nat := 4.
Definition SHELL_PROMPT_STR : string := "ch> ".
Definition SHELL_NEWLINE_STR : string := String CR (String LF EmptyString).

(** ** The words of a line *)

Definition quote : ascii := "034"%char.
Definition TAB : ascii := "009"%char.
Definition blanks : list ascii := [" "%char; TAB].

(** The argument, the line and [*saveptr]; the null pointer is [None]. *)
Definition parse_arguments (line : list ascii) (s saveptr : option nat)
    : option (option nat * list ascii * option nat) :=
  let saveptr := match s with Some p => Some p | None => saveptr end in
  match saveptr with
  | None => Some (None, line, None)
  | Some p =>
      n ← strspn line p blanks;
      let p := (p + n)%nat in
      c ← line !! p;
      let '(p, set) := if bool_decide (c = quote) then (S p, [quote]) else (p, blanks) in
      saveptr ← strpbrk line p set;
      line ← match saveptr with Some d => store line d NUL | None => Some line end;
      c ← line !! p;
      Some (if bool_decide (c = NUL) then None else Some p, line, S <$> saveptr)
  end.

(** The loop over the arguments: those stored, whether there were too many, the line. *)
Fixpoint collect_args (room : nat) (line : list ascii) (saveptr : option nat)
    : option (list nat * bool * list ascii) :=
  '(lp, line, saveptr) ← parse_arguments line None saveptr;
  match lp with
  | None => Some ([], false, line)
  | Some p =>
      match room with
      | O => Some ([], true, line)
      | S room =>
          '(args, many, line) ← collect_args room line saveptr;
          Some (p :: args, many, line)
      end
  end.

(** [cmd], the arguments, whether there were too many, and the line they point into. *)
Definition parse_line (line : list ascii) : option (option nat * list nat * bool * list ascii) :=
  '(cmd, line, tokp) ← parse_arguments line (Some O) None;
  '(args, many, line) ← collect_args SHELL_MAX_ARGUMENTS line tokp;
  Some (if many : bool then None else cmd, args, many, line).

(** What the words are: blanks separate them, quotes keep blanks, and an empty word in
    quotes ends the line. *)
Inductive scanner := Between | Word (acc : list ascii) | Quoted (acc : list ascii).
Fixpoint scan (st : scanner) (s : list ascii) : list (list ascii) :=
  match s with
  | [] => match st with Between | Quoted [] => [] | Word acc | Quoted acc => [acc] end
  | c :: s =>
      match st with
      | Between =>
          if decide (c ∈ blanks) then scan Between s
          else if decide (c = quote) then scan (Quoted []) s
          else scan (Word [c]) s
      | Word acc => if decide (c ∈ blanks) then acc :: scan Between s else scan (Word (acc ++ [c])) s
      | Quoted acc =>
          if decide (c = quote) then
            match acc with [] => [] | _ => acc :: scan Between s end
          else scan (Quoted (acc ++ [c])) s
      end
  end.

Example scan_tree : scan Between (str " tree  x") = [str "tree"; str "x"].
Proof. reflexivity. Qed.

Lemma blanks_ok : (NUL ∉ blanks) /\ (quote ∉ blanks) /\ quote <> NUL.
Proof. split_and!; [apply (bool_decide_unpack _)..|done]; by vm_compute. Qed.

(** The first character of a set splits a string. *)
Lemma split_set (set s : list ascii) :
  Forall (fun x => x ∉ set) s \/
  exists s1 c s2, s = s1 ++ c :: s2 /\ Forall (fun x => x ∉ set) s1 /\ c ∈ set.
Proof.
  induction s as [|x s IH]; [by left; constructor|]. destruct (decide (x ∈ set)) as [Hx|Hx].
  - right. exists [], x, s. by split_and!.
  - destruct IH as [IH|(s1 & c & s2 & -> & H1 & H2)]; [left; by constructor|right].
    exists (x :: s1), c, s2. split_and!; [done|by constructor|done].
Qed.
Lemma split_blanks s : exists s1 s2, s = s1 ++ s2 /\ Forall (fun x => x ∈ blanks) s1 /\
  match s2 with [] => True | c :: _ => c ∉ blanks end.
Proof.
  induction s as [|x s (s1 & s2 & -> & H1 & H2)]; [by exists [], []|].
  destruct (decide (x ∈ blanks)); [exists (x :: s1), s2|exists [], (x :: s1 ++ s2)]; split_and!; try done.
  by constructor.
Qed.

(** The scanner on what was split. *)
Lemma scan_blanks s1 s2 : Forall (fun x => x ∈ blanks) s1 -> scan Between (s1 ++ s2) = scan Between s2.
Proof. induction 1 as [|x s1 Hx H IH]; [done|]. cbn [Datatypes.app scan]. by rewrite decide_True. Qed.
Lemma scan_word acc s1 s2 : Forall (fun x => x ∉ blanks) s1 -> scan (Word acc) (s1 ++ s2) = scan (Word (acc ++ s1)) s2.
Proof.
  intros H. revert acc. induction H as [|x s1 Hx H IH]; intros acc; [by rewrite app_nil_r|].
  cbn [Datatypes.app scan]. rewrite decide_False by done. rewrite IH, <- app_assoc. done.
Qed.
Lemma scan_quoted acc s1 s2 : Forall (fun x => x ∉ [quote]) s1 ->
  scan (Quoted acc) (s1 ++ s2) = scan (Quoted (acc ++ s1)) s2.
Proof.
  intros H. revert acc. induction H as [|x s1 Hx H IH]; intros acc; [by rewrite app_nil_r|].
  cbn [Datatypes.app scan]. rewrite decide_False by (intros ->; apply Hx; by left). rewrite IH, <- app_assoc. done.
Qed.

Section parse.
Context (junk : list ascii).

(** Parsing goes on at [sp] behind [pre], and finds [ws]. *)
Definition resumes (pre line : list ascii) (sp : option nat) (ws : list (list ascii)) : Prop :=
  (sp = None /\ ws = []) \/
  exists s, line = pre ++ s ++ NUL :: junk /\ sp = Some (length pre) /\ (NUL ∉ s) /\ scan Between s = ws.

(** The text [w] behind [pre], ended by a terminator. *)
Lemma cstr_behind pre w l : NUL ∉ w -> (pre ++ w ++ [NUL]) `prefix_of` l -> cstr_at l (length pre) = Some w.
Proof.
  intros Hw [r ->]. unfold cstr_at. rewrite <- !app_assoc, drop_app_length. by apply cstr_app.
Qed.

(** Up to the delimiter of a set. *)
Lemma delimit pre w set : (NUL ∉ w) -> (NUL ∉ set) ->
  exists line sp, strpbrk (pre ++ w ++ NUL :: junk) (length pre) set = Some sp /\
    match sp with Some d => store (pre ++ w ++ NUL :: junk) d NUL | None => Some (pre ++ w ++ NUL :: junk) end = Some line /\
    ((Forall (fun x => x ∉ set) w /\ sp = None /\ line = pre ++ w ++ NUL :: junk) \/
     exists w1 c w2, w = w1 ++ c :: w2 /\ Forall (fun x => x ∉ set) w1 /\ c ∈ set /\
       sp = Some (length pre + length w1)%nat /\ line = (pre ++ w1 ++ [NUL]) ++ w2 ++ NUL :: junk).
Proof.
  intros Hw Hset. unfold strpbrk. rewrite drop_app_length. destruct (split_set set w) as [H|(w1 & c & w2 & -> & H1 & H2)].
  - rewrite strpbrk_l_none by done. eexists _, None. split_and!; [done..|]. by left.
  - assert (Hc : c <> NUL) by (intros ->; by apply Hset). apply not_elem_of_app in Hw as [Hw1 Hw2].
    rewrite <- (app_assoc w1). cbn [Datatypes.app]. rewrite strpbrk_l_some by done. cbn.
    eexists _, (Some (length pre + length w1)%nat). split; [done|].
    rewrite store_run by (rewrite !length_app; cbn; lia). split; [done|]. right.
    exists w1, c, w2. split_and!; try done.
    rewrite insert_app_r, insert_app_r_alt, Nat.sub_diag by lia. cbn. by rewrite <- !app_assoc.
Qed.

(** What a call finds: the first word of [ws], behind [pre]. *)
Definition finds (pre : list ascii) (o : option (option nat * list ascii * option nat)) (ws : list (list ascii)) : Prop :=
  exists r line sp, o = Some (r, line, sp) /\
  match ws with
  | [] => r = None /\ exists pre' ws', resumes pre' line sp ws' /\ pre `prefix_of` pre' /\ pre' `prefix_of` line
  | w :: ws => exists pre' p, r = Some p /\ resumes pre' line sp ws /\
      pre `prefix_of` pre' /\ pre' `prefix_of` line /\ forall l, pre' `prefix_of` l -> cstr_at l p = Some w
  end.

Lemma finds_weaken pre1 pre o ws : pre1 `prefix_of` pre -> finds pre o ws -> finds pre1 o ws.
Proof.
  intros Hp (r & line & sp & E & H). exists r, line, sp. split; [done|]. destruct ws as [|w ws].
  - destruct H as (-> & pre' & ws' & H1 & H2 & H3). split; [done|]. exists pre', ws'.
    split_and!; [done|by etransitivity|done].
  - destruct H as (pre' & p & H1 & H2 & H3 & H4 & H5). exists pre', p. split_and!; [done|done|by etransitivity|done..].
Qed.

(** A word, possibly empty, and what is behind it. *)
Definition one (w : list ascii) (ws : list (list ascii)) : list (list ascii) :=
  match w with [] => [] | _ => w :: ws end.

Lemma find_word pre w set ws : (NUL ∉ w) -> (NUL ∉ set) ->
  (Forall (fun x => x ∉ set) w -> ws = one w []) ->
  (forall w1 c w2, w = w1 ++ c :: w2 -> Forall (fun x => x ∉ set) w1 -> c ∈ set -> ws = one w1 (scan Between w2)) ->
  finds pre (saveptr ← strpbrk (pre ++ w ++ NUL :: junk) (length pre) set;
    line ← match saveptr with
           | Some d => store (pre ++ w ++ NUL :: junk) d NUL
           | None => Some (pre ++ w ++ NUL :: junk)
           end;
    c ← line !! length pre;
    Some (if bool_decide (c = NUL) then None else Some (length pre), line, S <$> saveptr)) ws.
Proof.
  intros Hw Hset H1 H2. destruct (delimit pre w set Hw Hset) as (line & sp & E1 & E2 & Hd).
  rewrite E1. cbn [mbind option_bind]. rewrite E2. cbn [mbind option_bind].
  assert (Hfin : exists w1 rest, ws = one w1 rest /\ (NUL ∉ w1) /\ (pre ++ w1 ++ [NUL]) `prefix_of` line /\
    resumes (pre ++ w1 ++ [NUL]) line (S <$> sp) rest).
  { destruct Hd as [(Hf & -> & ->)|(w1 & c & w2 & -> & Hf & Hc & -> & ->)].
    - exists w, []. split_and!; [auto|done| |by left]. exists junk. by rewrite <- !app_assoc.
    - apply not_elem_of_app in Hw as [Hw1 Hw2]. apply not_elem_of_cons in Hw2 as [_ Hw2].
      exists w1, (scan Between w2). split_and!; [by eapply H2|done|by eexists|]. right. exists w2.
      split_and!; try done. cbn. f_equal. rewrite !length_app. cbn. lia. }
  destruct Hfin as (w1 & rest & -> & Hw1 & Hp & Hr). destruct Hp as [tl ->].
  assert (Ec : ((pre ++ w1 ++ [NUL]) ++ tl) !! length pre = Some (hd NUL w1)).
  { rewrite <- app_assoc, lookup_app_r, Nat.sub_diag by lia. by destruct w1. }
  rewrite Ec. cbn [mbind option_bind]. eexists _, _, _. split; [reflexivity|].
  destruct w1 as [|x w1]; cbn [hd one].
  - rewrite bool_decide_eq_true_2 by done. split; [done|]. exists (pre ++ [] ++ [NUL]), rest.
    split_and!; [done|by eexists|by eexists].
  - rewrite bool_decide_eq_false_2 by (intros ->; apply Hw1; by left).
    exists (pre ++ (x :: w1) ++ [NUL]), (length pre). split_and!; [done|done|by eexists|by eexists|].
    intros l Hl. by apply cstr_behind.
Qed.

(** One call finds the next word. *)
Lemma parse_arguments_ok pre s : (NUL ∉ s) ->
  finds pre (parse_arguments (pre ++ s ++ NUL :: junk) None (Some (length pre))) (scan Between s).
Proof.
  intros Hs. destruct blanks_ok as (B1 & B2 & B3). destruct (split_blanks s) as (b & t & -> & Hb & Ht).
  apply not_elem_of_app in Hs as [Hnb Hnt]. rewrite scan_blanks by done.
  unfold parse_arguments. unfold strspn. rewrite drop_app_length, <- app_assoc.
  assert (Hspn : strspn_l (b ++ t ++ NUL :: junk) blanks = Some (length b)).
  { destruct t as [|c t]; cbn [Datatypes.app]; apply strspn_l_app; try done; [by left|by right]. }
  rewrite Hspn. cbn [mbind option_bind]. rewrite app_assoc, <- (length_app pre b).
  assert (Hc : ((pre ++ b) ++ t ++ NUL :: junk) !! length (pre ++ b) = Some (hd NUL t)).
  { rewrite lookup_app_r, Nat.sub_diag by lia. by destruct t. }
  rewrite Hc. cbn [mbind option_bind].
  destruct (decide (hd NUL t = quote)) as [Hq|Hq].
  - destruct t as [|c t]; [by destruct B3|]. cbn in Hq. subst c. rewrite bool_decide_eq_true_2 by done.
    apply not_elem_of_cons in Hnt as [_ Hnt].
    replace (S (length (pre ++ b))) with (length ((pre ++ b) ++ [quote])) by (rewrite (length_app (pre ++ b)); cbn; lia).
    replace ((pre ++ b) ++ (quote :: t) ++ NUL :: junk) with (((pre ++ b) ++ [quote]) ++ t ++ NUL :: junk)
      by (by rewrite <- (app_assoc _ [quote])).
    cbn [scan]. rewrite decide_False, decide_True by done.
    eapply finds_weaken, find_word; [by rewrite <- app_assoc; eexists|done|..].
    + apply not_elem_of_cons. split; [done|apply not_elem_of_nil].
    + intros Hf. rewrite <- (app_nil_r t) at 1. rewrite scan_quoted by done. by destruct t.
    + intros w1 c w2 -> Hf ->%list_elem_of_singleton. rewrite scan_quoted by done. cbn [scan Datatypes.app].
      rewrite decide_True by done. by destruct w1.
  - rewrite bool_decide_eq_false_2 by done. eapply finds_weaken, find_word; [by eexists|done|done|..].
    + intros Hf. destruct t as [|c t]; [done|]. cbn [scan one]. rewrite !decide_False by done.
      apply Forall_cons in Hf as [_ Hf]. rewrite <- (app_nil_r t) at 1. by rewrite scan_word.
    + intros w1 c w2 -> Hf Hc'. destruct w1 as [|x w1]; [done|]. cbn [Datatypes.app scan one].
      rewrite !decide_False by done. apply Forall_cons in Hf as [_ Hf]. rewrite scan_word by done.
      cbn [scan Datatypes.app]. by rewrite decide_True.
Qed.

Lemma collect_args_eq room line sp : collect_args room line sp =
  '(lp, line, sp) ← parse_arguments line None sp;
  match lp, room with
  | None, _ => Some ([], false, line)
  | Some p, O => Some ([], true, line)
  | Some p, Datatypes.S room => '(args, many, line) ← collect_args room line sp; Some (p :: args, many, line)
  end.
Proof. destruct room; cbn; by destruct (parse_arguments line None sp) as [[[[p|] l] sp']|]. Qed.

Lemma collect_args_ok room : forall pre line sp ws, resumes pre line sp ws -> pre `prefix_of` line ->
  exists args many line', collect_args room line sp = Some (args, many, line') /\ pre `prefix_of` line' /\
    many = (room <? length ws)%nat /\ (many = false -> mapM (cstr_at line') args = Some ws).
Proof.
  induction room as [|room IH]; intros pre line sp ws Hr Hp; rewrite collect_args_eq;
    (destruct Hr as [[-> ->]|(s & -> & -> & Hs & <-)]; [by eexists _, _, _|]);
    destruct (parse_arguments_ok pre s Hs) as (r & line' & sp' & -> & H); cbn [mbind option_bind];
    destruct (scan Between s) as [|w ws].
  1, 3: destruct H as (-> & pre' & ws' & _ & H1 & H2); eexists _, _, _; split_and!; [done|by etransitivity|done|done].
  - destruct H as (pre' & p & -> & _ & H1 & H2 & _). eexists _, _, _. split_and!; [done|by etransitivity|done|done].
  - destruct H as (pre' & p & -> & Hr & H1 & H2 & Hw).
    destruct (IH pre' line' sp' ws Hr H2) as (args & many & line2 & -> & H3 & -> & H4). cbn [mbind option_bind].
    eexists _, _, _. split_and!; [done|by etransitivity|done|]. intros Hm. cbn. rewrite (Hw _ H3). cbn.
    by rewrite (H4 Hm).
Qed.
End parse.

(** C29: The line is cut into the words it denotes: the command is its first word and the
    arguments are the others, each a string in the line when the command is called; a line
    without words (or that begins with an empty word in quotes) and one with more than
    [SHELL_MAX_ARGUMENTS] arguments call no command. *)
Theorem parse_line_ok s junk : (NUL ∉ s) ->
  exists cmd args many line, parse_line (s ++ NUL :: junk) = Some (cmd, args, many, line) /\
  match scan Between s with
  | [] => cmd = None
  | w :: ws =>
      many = (SHELL_MAX_ARGUMENTS <? length ws)%nat /\
      if many : bool then cmd = None
      else (p ← cmd; cstr_at line p) = Some w /\ mapM (cstr_at line) args = Some ws
  end.
Proof.
  intros Hs. unfold parse_line.
  change (parse_arguments (s ++ NUL :: junk) (Some 0%nat) None)
    with (parse_arguments ([] ++ s ++ NUL :: junk) None (Some (length (A := ascii) []))).
  destruct (parse_arguments_ok junk [] s Hs) as (r & line & sp & -> & H). cbn [mbind option_bind].
  destruct (scan Between s) as [|w ws].
  - destruct H as (-> & pre' & ws' & Hr & _ & H2).
    destruct (collect_args_ok junk SHELL_MAX_ARGUMENTS pre' line sp ws' Hr H2) as (args & many & l & -> & _).
    cbn [mbind option_bind]. eexists _, _, _, _. split; [done|]. by destruct many.
  - destruct H as (pre' & p & -> & Hr & _ & H2 & Hw).
    destruct (collect_args_ok junk SHELL_MAX_ARGUMENTS pre' line sp ws Hr H2) as (args & many & l & -> & H3 & -> & H4).
    cbn [mbind option_bind]. eexists _, _, _, _. split; [done|]. split; [done|].
    destruct (_ <? _)%nat; [done|]. split; [|by apply H4]. cbn. by apply Hw.
Qed.

(** An empty argument hides those behind it. *)
Example scan_empty : scan Between (str "echo " ++ [quote; quote] ++ str " x") = [str "echo"].
Proof. reflexivity. Qed.

(** ** The line editor *)

(** The stream of the shell: [streamRead(chp, &c, 1)], [None] when it returns 0.
    Characters are written with [streamPut]. *)
Class Stream (S : Type) := streamRead : nat -> prog S (option ascii).

Section editor.
Context {S : Type} `{!Serial S, !Stream S}.

(** One turn of the loop: [line] and [p]. *)
Definition getline_turn (chp : nat) (size : nat) (x : list ascii * nat)
    : prog S (list ascii * nat + bool * list ascii) :=
  let '(line, p) := x in
  r ← streamRead chp;
  match r with
  | None => mret (inr (true, line))
  | Some c =>
      if zchar c =? 4 then chprintf chp "^D" [];; mret (inr (true, line))
      else if (zchar c =? 8) || (zchar c =? 127) then
        if (p =? 0)%nat then mret (inl (line, p))
        else streamPut chp 8;; streamPut chp 32;; streamPut chp 8;; mret (inl (line, (p - 1)%nat))
      else if bool_decide (c = CR) then
        chprintf chp SHELL_NEWLINE_STR [];;
        line ← Atom (deref (fun _ => store line p NUL));
        mret (inr (false, line))
      else if zchar c <? 32 then mret (inl (line, p))
      else if (p <? size - 1)%nat then
        streamPut chp (zchar c);;
        line ← Atom (deref (fun _ => store line p c));
        mret (inl (line, Datatypes.S p))
      else mret (inl (line, p))
  end.

(** Whether the shell is to end, and the line. *)
Definition shellGetLine (chp : nat) (line : list ascii) (size : nat) : prog S (bool * list ascii) :=
  Loop (getline_turn chp size) (line, O).
End editor.

(** What a key does to the text of a line of at most [limit] characters. *)
Inductive key_class := Rubout | Printable | Ignored.
Definition classify (c : ascii) : key_class :=
  if (zchar c =? 8) || (zchar c =? 127) then Rubout
  else if zchar c <? 32 then Ignored
  else Printable.
Definition type_key (limit : nat) (text : list ascii) (c : ascii) : list ascii :=
  match classify c with
  | Rubout => removelast text
  | Printable => if (length text <? limit)%nat then text ++ [c] else text
  | Ignored => text
  end.
Definition typed (limit : nat) (keys : list ascii) : list ascii := foldl (type_key limit) [] keys.

(** What is written for it. *)
Definition echo_key (limit : nat) (text : list ascii) (c : ascii) : list Z :=
  match classify c with
  | Rubout => if decide (text = []) then [] else [8; 32; 8]
  | Printable => if (length text <? limit)%nat then [zchar c] else []
  | Ignored => []
  end.
Fixpoint echo (limit : nat) (text : list ascii) (keys : list ascii) : list Z :=
  match keys with
  | [] => []
  | c :: keys => echo_key limit text c ++ echo limit (type_key limit text c) keys
  end.

(** The last line of a terminal and its cursor; backspace moves the cursor. *)
Record screen := Screen { row : list ascii; cursor : nat }.
Definition put_screen (s : screen) (b : Z) : screen :=
  if b =? 8 then Screen (row s) (cursor s - 1)
  else Screen (take (cursor s) (row s) ++ charz b :: drop (Datatypes.S (cursor s)) (row s)) (Datatypes.S (cursor s)).
(** It shows [text] and blanks behind the cursor. *)
Definition shows (text : list ascii) (s : screen) : Prop :=
  cursor s = length text /\ exists n, row s = text ++ replicate n " "%char.

Lemma typed_snoc limit cs c : typed limit (cs ++ [c]) = type_key limit (typed limit cs) c.
Proof. unfold typed. by rewrite foldl_app. Qed.
Lemma echo_snoc limit cs c : forall text,
  echo limit text (cs ++ [c]) = echo limit text cs ++ echo_key limit (foldl (type_key limit) text cs) c.
Proof.
  induction cs as [|x cs IH]; intros text; cbn; [by rewrite app_nil_r|]. by rewrite IH, app_assoc.
Qed.
Lemma printable c : classify c = Printable -> 32 <= zchar c < 256 /\ zchar c <> 127.
Proof.
  unfold classify. pose proof (zchar_range c).
  destruct (Z.eqb_spec (zchar c) 8), (Z.eqb_spec (zchar c) 127), (Z.ltb_spec (zchar c) 32); done || lia.
Qed.
Lemma typed_ok limit cs : (length (typed limit cs) <= limit)%nat /\ Forall (fun c => classify c = Printable) (typed limit cs).
Proof.
  induction cs as [|c cs [IH1 IH2]] using rev_ind; [split; [cbn; lia|constructor]|]. rewrite typed_snoc.
  unfold type_key. destruct (classify c) eqn:E; [| |done].
  - destruct (typed limit cs) as [|x t _] using rev_ind; [done|]. rewrite removelast_last.
    rewrite length_app in IH1. apply Forall_app in IH2 as [IH2 _]. split; [lia|done].
  - destruct (Nat.ltb_spec (length (typed limit cs)) limit); [|done]. rewrite length_app. cbn.
    split; [lia|]. apply Forall_app. by repeat constructor.
Qed.

(** What is echoed makes the terminal show what is typed. *)
Lemma put_at text rest c : c <> 8 -> put_screen (Screen (text ++ rest) (length text)) c =
  Screen (text ++ charz c :: drop 1 rest) (Datatypes.S (length text)).
Proof.
  intros Hc. unfold put_screen. cbn [row cursor]. destruct (Z.eqb_spec c 8); [done|].
  rewrite take_app_length, drop_app_ge by lia.
  by replace (Datatypes.S (length text) - length text)%nat with 1%nat by lia.
Qed.
Lemma put_back r n : put_screen (Screen r (Datatypes.S n)) 8 = Screen r n.
Proof. cbn. by rewrite Nat.sub_0_r. Qed.
Lemma echo_key_shows limit text c t : shows text t -> Forall (fun c => classify c = Printable) text ->
  shows (type_key limit text c) (foldl put_screen t (echo_key limit text c)).
Proof.
  destruct t as [r k]. intros [Hc [n Hr]] Hp. cbn in Hc, Hr. subst r k. unfold type_key, echo_key.
  destruct (classify c) eqn:E; [| |by split; [|exists n]].
  - destruct text as [|x text _] using rev_ind; [by split; [|exists n]|].
    rewrite removelast_last, decide_False by (by destruct text). rewrite length_app, Nat.add_comm. cbn [foldl length Nat.add].
    rewrite put_back, <- app_assoc, put_at, put_back by done. split; [done|]. by exists (Datatypes.S n).
  - destruct (length text <? limit)%nat; [|by split; [|exists n]]. cbn [foldl].
    apply printable in E. rewrite put_at, charz_zchar by lia. split; [cbn; rewrite length_app; cbn; lia|].
    exists (n - 1)%nat. cbn [row]. by rewrite <- app_assoc, drop_replicate.
Qed.
Lemma echo_shows limit cs t : shows [] t -> shows (typed limit cs) (foldl put_screen t (echo limit [] cs)).
Proof.
  intros Ht. induction cs as [|c cs IH] using rev_ind; [done|].
  rewrite echo_snoc, typed_snoc, foldl_app. apply echo_key_shows; [done|apply typed_ok].
Qed.

Section editing.
Context {S : Type} `{!Serial S, !Stream S} (R : why -> S -> S -> Prop) (chp : nat).
(** What was read from the stream and written to it. *)
Context (io : list (option ascii) -> list Z -> S -> Prop).
Context (Hread : forall k o s r s', io k o s -> exec R (streamRead chp) s r s' -> io (k ++ [r]) o s').
Context (Hput : forall k o b s r s', io k o s -> exec R (streamPut chp b) s r s' -> io k (o ++ [b]) s').

Lemma put_chars_out cs : forall k o s s', io k o s -> exec R (put_chars chp cs) s tt s' -> io k (o ++ map zchar cs) s'.
Proof.
  induction cs as [|c cs IH]; intros k o s s' Hio; cbn [put_chars]; [intros [_ ->]; by rewrite app_nil_r|].
  intros (r & s1 & H1 & H2). apply (Hput k o) in H1; [|done]. apply (IH k (o ++ [zchar c])) in H2; [|done].
  by rewrite <- app_assoc in H2.
Qed.
Lemma chprintf_out fmt ap cs k o s s' : Chprintf.chvprintf fmt ap = Some cs -> io k o s ->
  exec R (chprintf chp fmt ap) s tt s' -> io k (o ++ map zchar cs) s'.
Proof.
  intros E Hio (cs' & s1 & H1 & H2). cbn [exec] in H1. unfold deref in H1. rewrite E in H1. injection H1 as <- <-.
  by eapply put_chars_out.
Qed.

(** The keys that end the line. *)
Definition ends_line (c : ascii) : bool := (zchar c =? 4) || bool_decide (c = CR).

(** [cs] were typed since [k0] and [o0]. *)
Record editing (size : nat) (k0 : list (option ascii)) (o0 : list Z) (cs : list ascii) (x : list ascii * nat) (s : S) : Prop := {
  ed_io : io (k0 ++ map Some cs) (o0 ++ echo (size - 1) [] cs) s;
  ed_ends : Forall (fun c => ends_line c = false) cs;
  ed_size : length (fst x) = size;
  ed_text : take (snd x) (fst x) = typed (size - 1) cs;
  ed_p : snd x = length (typed (size - 1) cs)
}.

(** The line has ended. *)
Definition ended (size : nat) (k0 : list (option ascii)) (o0 : list Z) (cs : list ascii) (r : bool * list ascii) (s' : S) : Prop :=
  length (snd r) = size /\
  let k := k0 ++ map Some cs in let o := o0 ++ echo (size - 1) [] cs in
  if fst r then io (k ++ [None]) o s' \/ exists c, zchar c = 4 /\ io (k ++ [Some c]) (o ++ [94; 68]) s'
  else io (k ++ [Some CR]) (o ++ [13; 10]) s' /\ cstr (snd r) = Some (typed (size - 1) cs).

(** A key that is not the end of the line. *)
Lemma editing_key size k0 o0 cs line p s c line' p' s' : editing size k0 o0 cs (line, p) s -> ends_line c = false ->
  io ((k0 ++ map Some cs) ++ [Some c])
    ((o0 ++ echo (size - 1) [] cs) ++ echo_key (size - 1) (typed (size - 1) cs) c) s' ->
  length line' = size -> take p' line' = type_key (size - 1) (typed (size - 1) cs) c ->
  p' = length (type_key (size - 1) (typed (size - 1) cs) c) ->
  editing size k0 o0 (cs ++ [c]) (line', p') s'.
Proof.
  intros [K F L T P] Hc HK HL HT HP. constructor; cbn [fst snd] in *.
  - by rewrite map_app, echo_snoc, !app_assoc.
  - apply Forall_app. by repeat constructor.
  - done.
  - by rewrite typed_snoc.
  - by rewrite typed_snoc.
Qed.

Lemma zchar_inj c c' : zchar c = zchar c' -> c = c'.
Proof. intros H. by rewrite <- (charz_zchar c), H, charz_zchar. Qed.

Lemma rubout_ok size k0 o0 cs line p s s1 c r s' : editing size k0 o0 cs (line, p) s ->
  io ((k0 ++ map Some cs) ++ [Some c]) (o0 ++ echo (size - 1) [] cs) s1 -> ends_line c = false -> classify c = Rubout ->
  exec R (if (p =? 0)%nat then mret (inl (line, p))
          else streamPut chp 8;; streamPut chp 32;; streamPut chp 8;; mret (inl (line, (p - 1)%nat))) s1 r s' ->
  exists x', r = inl (A := list ascii * nat) (B := bool * list ascii) x' /\ editing size k0 o0 (cs ++ [c]) x' s'.
Proof.
  intros He K1 Hc Hcl H. pose proof He as [K F L T P]. cbn [fst snd] in *.
  assert (Hkey := editing_key size k0 o0 cs line p s c line (p - 1) s' He Hc). unfold type_key, echo_key in Hkey.
  rewrite Hcl in Hkey. destruct (Nat.eqb_spec p 0) as [->|Hp0].
  - destruct H as [-> ->]. exists (line, 0%nat). split; [done|]. destruct (typed (size - 1) cs) eqn:Et; [|done].
    rewrite decide_True in Hkey by done. apply Hkey; try done. by rewrite app_nil_r.
  - destruct H as (u1 & s2 & A1 & u2 & s3 & A2 & u3 & s4 & A3 & [-> ->]). eexists. split; [done|].
    apply (Hput _ _ _ _ _ _ K1) in A1. apply (Hput _ _ _ _ _ _ A1) in A2. apply (Hput _ _ _ _ _ _ A2) in A3.
    destruct (typed (size - 1) cs) as [|x t _] using rev_ind; [done|]. rewrite length_app in P. cbn in P.
    rewrite removelast_last in Hkey. apply Hkey; try done; [| |lia].
    + rewrite decide_False by (by destruct t). by rewrite <- !(app_assoc (o0 ++ _)) in A3.
    + replace (p - 1)%nat with ((p - 1) `min` p)%nat by lia. rewrite <- take_take, T.
      replace (p - 1)%nat with (length t) by lia. apply take_app_length.
Qed.

Lemma printable_ok size k0 o0 cs line p s s1 c r s' : (0 < size)%nat -> editing size k0 o0 cs (line, p) s ->
  io ((k0 ++ map Some cs) ++ [Some c]) (o0 ++ echo (size - 1) [] cs) s1 -> ends_line c = false -> classify c = Printable ->
  exec R (if (p <? size - 1)%nat then
            streamPut chp (zchar c);;
            line ← Atom (deref (fun _ => store line p c));
            mret (inl (line, Datatypes.S p))
          else mret (inl (line, p))) s1 r s' ->
  exists x', r = inl (A := list ascii * nat) (B := bool * list ascii) x' /\ editing size k0 o0 (cs ++ [c]) x' s'.
Proof.
  intros Hsize He K1 Hc Hcl H. pose proof He as [K F L T P]. cbn [fst snd] in *.
  assert (Hkey := fun line' p' => editing_key size k0 o0 cs line p s c line' p' s' He Hc). unfold type_key, echo_key in Hkey.
  rewrite Hcl, <- P in Hkey. destruct (Nat.ltb_spec p (size - 1)) as [Hp|Hp].
  - destruct H as (u1 & s2 & A1 & line' & s3 & A2 & [-> ->]). apply (Hput _ _ _ _ _ _ K1) in A1.
    cbn [exec] in A2. unfold deref in A2. rewrite store_run in A2 by lia. injection A2 as <- <-.
    eexists. split; [done|]. apply Hkey; [done|by rewrite length_insert| |rewrite length_app; cbn; lia].
    rewrite (take_S_r _ _ c) by (apply list_lookup_insert_eq; lia). rewrite take_insert_ge by lia. by rewrite T.
  - destruct H as [-> ->]. eexists. split; [done|]. apply Hkey; try done. by rewrite app_nil_r.
Qed.

Lemma getline_turn_ok size k0 o0 cs line p s r s' : (0 < size)%nat -> editing size k0 o0 cs (line, p) s ->
  exec R (getline_turn chp size (line, p)) s r s' ->
  match r with
  | inl x' => exists c, editing size k0 o0 (cs ++ [c]) x' s'
  | inr r => ended size k0 o0 cs r s'
  end.
Proof.
  intros Hsize He. pose proof He as [K F L T P]. cbn [fst snd] in *.
  destruct (typed_ok (size - 1) cs) as [Hlen Hpr]. rewrite <- P in Hlen.
  intros (k & s1 & Hr & H). pose proof (Hread _ _ _ _ _ K Hr) as K1.
  destruct k as [c|]; [|destruct H as [-> ->]; split; [done|by left]].
  destruct (Z.eqb_spec (zchar c) 4) as [H4|H4].
  { destruct H as ([] & s2 & H2 & [-> ->]). eapply (chprintf_out _ _ (str "^D")) in H2 as K2; [|reflexivity|done].
    split; [done|]. right. by exists c. }
  assert (Hends : c <> CR -> ends_line c = false).
  { intros Hc. unfold ends_line. destruct (Z.eqb_spec (zchar c) 4); [done|]. by rewrite bool_decide_eq_false_2. }
  destruct ((zchar c =? 8) || (zchar c =? 127)) eqn:Erub.
  { destruct (rubout_ok size k0 o0 cs line p s s1 c r s' He K1) as (x' & -> & H'); [|by unfold classify; rewrite Erub|done|by exists c].
    apply Hends. by intros ->. }
  destruct (decide (c = CR)) as [->|Hcr].
  { rewrite bool_decide_eq_true_2 in H by done. destruct H as ([] & s2 & H2 & line' & s3 & H3 & [-> ->]).
    eapply (chprintf_out _ _ (str SHELL_NEWLINE_STR)) in H2 as K2; [|reflexivity|done].
    cbn [exec] in H3. unfold deref in H3. rewrite store_run in H3 by lia. injection H3 as <- <-.
    split; [by cbn; rewrite length_insert|]. cbn [fst snd]. split; [exact K2|].
    rewrite insert_take_drop, T by lia. apply cstr_app. intros Hin. rewrite Forall_forall in Hpr. apply Hpr, printable in Hin. destruct Hin as [[Hin _] _]. by vm_compute in Hin. }
  rewrite bool_decide_eq_false_2 in H by done. destruct (Z.ltb_spec (zchar c) 32) as [Hlow|Hhigh].
  - destruct H as [-> ->]. exists c. assert (Hcl : classify c = Ignored).
    { unfold classify. rewrite Erub. by destruct (Z.ltb_spec (zchar c) 32); [|lia]. }
    eapply editing_key; unfold type_key, echo_key; rewrite ?Hcl, ?app_nil_r; eauto.
  - destruct (printable_ok size k0 o0 cs line p s s1 c r s' Hsize He K1 (Hends Hcr)) as (x' & -> & H'); [|done|by exists c].
    unfold classify. rewrite Erub. by destruct (Z.ltb_spec (zchar c) 32); [lia|].
Qed.

(** [shellGetLine], for the theorem below and its clients. *)
Lemma getline_ok line size k o s stop line' s' : (0 < size)%nat -> length line = size -> io k o s ->
  exec R (shellGetLine chp line size) s (stop, line') s' ->
  exists cs, let text := typed (size - 1) cs in let echoed := echo (size - 1) [] cs in
    Forall (fun c => ends_line c = false) cs /\ length line' = size /\ (length text < size)%nat /\
    (forall n t, shows [] t -> shows (typed (size - 1) (take n cs)) (foldl put_screen t (echo (size - 1) [] (take n cs)))) /\
    if stop : bool then
      io (k ++ map Some cs ++ [None]) (o ++ echoed) s' \/
      exists c, zchar c = 4 /\ io (k ++ map Some cs ++ [Some c]) (o ++ echoed ++ [94; 68]) s'
    else io (k ++ map Some cs ++ [Some CR]) (o ++ echoed ++ [13; 10]) s' /\ cstr line' = Some text.
Proof.
  intros Hsize Hline Hio H. cbn [exec shellGetLine] in H.
  apply (loop_exec_inv (fun x s1 => exists cs, editing size k o cs x s1)
    (fun r s' => exists cs x s1, editing size k o cs x s1 /\ ended size k o cs r s')) in H.
  - destruct H as (cs & x & s1 & [K F L T P] & HL & He). exists cs. cbn zeta in He |- *.
    destruct (typed_ok (size - 1) cs) as [Hlen _]. split_and!; [done|done|lia| |].
    { intros n t Ht. by apply echo_shows. }
    destruct stop; cbn [fst snd] in He; repeat setoid_rewrite <- app_assoc in He; exact He.
  - intros [l p] s1 r s2 (cs & He) Ht. pose proof (getline_turn_ok size k o cs l p s1 r s2 Hsize He Ht) as Hr.
    destruct r; [|by exists cs, (l, p), s1]. destruct Hr as [c Hc]. by exists (cs ++ [c]).
  - exists []. constructor; cbn; rewrite ?app_nil_r; done || by constructor.
Qed.

(** A line that is read is what was typed: each printable character appended while there
    is room, each rubout removing the last one, other controls ignored, up to the first
    carriage return; it fits the buffer with its terminator, and after every key the echo
    makes a terminal show exactly the text so far.  The shell is told to end exactly when
    the stream ends or control-D is typed first. *)
Theorem shellGetLine_ok line size k o s stop line' s' : (0 < size)%nat -> length line = size -> io k o s ->
  exec R (shellGetLine chp line size) s (stop, line') s' ->
  exists cs, let text := typed (size - 1) cs in let echoed := echo (size - 1) [] cs in
    Forall (fun c => ends_line c = false) cs /\ length line' = size /\ (length text < size)%nat /\
    (forall n t, shows [] t -> shows (typed (size - 1) (take n cs)) (foldl put_screen t (echo (size - 1) [] (take n cs)))) /\
    if stop : bool then
      io (k ++ map Some cs ++ [None]) (o ++ echoed) s' \/
      exists c, zchar c = 4 /\ io (k ++ map Some cs ++ [Some c]) (o ++ echoed ++ [94; 68]) s'
    else io (k ++ map Some cs ++ [Some CR]) (o ++ echoed ++ [13; 10]) s' /\ cstr line' = Some text.
Proof. apply getline_ok. Qed.
End editing.

(** A line that is there, with room for its echo, is read at once. *)
Section ready.
Context {S : Type} `{!Serial S, !Stream S} (R : why -> S -> S -> Prop) (chp : nat).
(** What is to be read, and what was written, at most [limit] bytes. *)
Context (limit : nat) (io : list ascii -> list Z -> S -> Prop).
Context (Hread : forall c k o s, io (c :: k) o s -> exists s', exec R (streamRead chp) s (Some c) s' /\ io k o s').
Context (Hput : forall b k o s, (length o < limit)%nat -> io k o s ->
  exists r s', exec R (streamPut chp b) s r s' /\ io k (o ++ [b]) s').

Lemma put_chars_ready cs : forall k o s, (length o + length cs <= limit)%nat -> io k o s ->
  exists s', exec R (put_chars chp cs) s tt s' /\ io k (o ++ map zchar cs) s'.
Proof.
  induction cs as [|c cs IH]; intros k o s Hl Hio; cbn [put_chars]; [exists s; by rewrite app_nil_r|].
  cbn [length] in Hl. destruct (Hput (zchar c) k o s) as (r & s1 & H1 & Hio1); [lia|done|].
  destruct (IH k (o ++ [zchar c]) s1) as (s2 & H2 & Hio2); [rewrite length_app; cbn; lia|done|].
  exists s2. split; [by exists r, s1|]. by rewrite <- app_assoc in Hio2.
Qed.
Lemma chprintf_ready fmt ap cs k o s : Chprintf.chvprintf fmt ap = Some cs -> (length o + length cs <= limit)%nat -> io k o s ->
  exists s', exec R (chprintf chp fmt ap) s tt s' /\ io k (o ++ map zchar cs) s'.
Proof.
  intros E Hl Hio. destruct (put_chars_ready cs k o s Hl Hio) as (s' & Hx & Hio'). exists s'. split; [|done].
  exists cs, s. split; [|done]. cbn [exec]. unfold deref. by rewrite E.
Qed.

Lemma turn_ready size cs c line k o s : (0 < size)%nat -> length line = size -> ends_line c = false ->
  let text := typed (size - 1) cs in
  (length o + length (echo_key (size - 1) text c) <= limit)%nat -> io (c :: k) o s ->
  exists line' s', exec R (getline_turn chp size (line, length text)) s (inl (line', length (type_key (size - 1) text c))) s' /\
    length line' = size /\ io k (o ++ echo_key (size - 1) text c) s'.
Proof.
  intros Hsize Hline Hc text Hroom Hio. destruct (Hread _ _ _ _ Hio) as (s1 & H1 & Hio1).
  assert (Hgo : forall line' p s', exec R (if zchar c =? 4 then chprintf chp "^D" [];; mret (inr (true, line))
      else if (zchar c =? 8) || (zchar c =? 127) then
        if (length text =? 0)%nat then mret (inl (line, length text))
        else streamPut chp 8;; streamPut chp 32;; streamPut chp 8;; mret (inl (line, (length text - 1)%nat))
      else if bool_decide (c = CR) then
        chprintf chp SHELL_NEWLINE_STR [];;
        line ← Atom (deref (fun _ => store line (length text) NUL));
        mret (inr (false, line))
      else if zchar c <? 32 then mret (inl (line, length text))
      else if (length text <? size - 1)%nat then
        streamPut chp (zchar c);;
        line ← Atom (deref (fun _ => store line (length text) c));
        mret (inl (line, Datatypes.S (length text)))
      else mret (inl (line, length text))) s1 (inl (line', p)) s' ->
    exec R (getline_turn chp size (line, length text)) s (inl (line', p)) s') by (intros line' p s' Hx; by exists (Some c), s1).
  unfold ends_line in Hc. apply orb_false_iff in Hc as [H4 Hcr]. rewrite H4, Hcr in Hgo.
  unfold echo_key, type_key, classify in *. destruct ((zchar c =? 8) || (zchar c =? 127)).
  - destruct (decide (text = [])) as [->|Hne].
    + exists line, s1. split; [by apply Hgo|]. by rewrite app_nil_r.
    + destruct text as [|x t _] using rev_ind; [done|]. rewrite removelast_last, length_app in *. cbn [length] in *.
      destruct (Hput 8 k o s1) as (r1 & s2 & P1 & I1); [lia|done|].
      destruct (Hput 32 k (o ++ [8]) s2) as (r2 & s3 & P2 & I2); [rewrite length_app; cbn; lia|done|].
      destruct (Hput 8 k ((o ++ [8]) ++ [32]) s3) as (r3 & s4 & P3 & I3); [rewrite !length_app; cbn; lia|done|].
      exists line, s4. split; [|by rewrite <- !app_assoc in I3]. apply Hgo.
      destruct (Nat.eqb_spec (length t + 1) 0); [lia|]. exists r1, s2. split; [done|]. exists r2, s3. split; [done|].
      exists r3, s4. split; [done|]. split; [|done]. do 2 f_equal. lia.
  - destruct (zchar c <? 32).
    + exists line, s1. split; [by apply Hgo|]. by rewrite app_nil_r.
    + destruct (Nat.ltb_spec (length text) (size - 1)) as [Hp|Hp].
      * destruct (Hput (zchar c) k o s1) as (r1 & s2 & P1 & I1); [cbn in Hroom; lia|done|].
        exists (<[length text := c]> line), s2. rewrite length_insert, length_app, Nat.add_comm. cbn [length Nat.add].
        split; [|done]. apply Hgo. exists r1, s2. split; [done|]. exists (<[length text := c]> line), s2. split; [|done].
        cbn. unfold deref. by rewrite store_run by lia.
      * exists line, s1. split; [by apply Hgo|]. by rewrite app_nil_r.
Qed.

Lemma getline_ready size : (0 < size)%nat -> forall keys cs line k o s,
  let text := typed (size - 1) cs in Forall (fun c => ends_line c = false) keys -> length line = size ->
  (length o + length (echo (size - 1) text keys) + 2 <= limit)%nat -> io (keys ++ CR :: k) o s ->
  exists line' s', loop_exec (fun x => exec R (getline_turn chp size x)) (line, length text) s (false, line') s' /\
    io k (o ++ echo (size - 1) text keys ++ [13; 10]) s'.
Proof.
  intros Hsize keys. induction keys as [|c keys IH]; intros cs line k o s text Hends Hline Hroom Hio.
  - destruct (Hread _ _ _ _ Hio) as (s1 & H1 & Hio1).
    destruct (chprintf_ready SHELL_NEWLINE_STR [] (str SHELL_NEWLINE_STR) k o s1) as (s2 & H2 & Hio2);
      [reflexivity|cbn in Hroom |- *; lia|done|].
    destruct (typed_ok (size - 1) cs) as [Hlen _]. fold text in Hlen.
    exists (<[length text := NUL]> line), s2. split; [|exact Hio2]. apply loop_done. exists (Some CR), s1. split; [done|].
    exists tt, s2. split; [done|]. exists (<[length text := NUL]> line), s2. split; [|done].
    cbn. unfold deref. by rewrite store_run by lia.
  - apply Forall_cons in Hends as [Hc Hends]. cbn [echo] in *. rewrite length_app in Hroom.
    destruct (turn_ready size cs c line (keys ++ CR :: k) o s Hsize Hline Hc) as (line1 & s1 & H1 & Hl1 & Hio1); [fold text; lia|done|].
    fold text in H1, Hio1. unfold text in IH. specialize (IH (cs ++ [c]) line1 k (o ++ echo_key (size - 1) text c) s1).
    rewrite typed_snoc in IH. fold text in IH. destruct IH as (line' & s' & H2 & Hio2); [done|done|rewrite length_app; lia|done|].
    exists line', s'. split; [by eapply loop_more|]. by rewrite <- !app_assoc in *.
Qed.
End ready.

(** ** The commands and the thread *)

(** [argc] and [argv]: pointers into the line. *)
Record ShellCommand (S : Type) := ShellCmd {
  sc_name : string;
  sc_function : nat -> list ascii -> list nat -> prog S unit
}.
Arguments ShellCmd {S}.
Arguments sc_name {S}.
Arguments sc_function {S}.

(** The macros [cmd_info] prints: of the kernel, the port, the board and the compiler. *)
Record build_info := BuildInfo {
  CH_KERNEL_VERSION : string; PORT_COMPILER_NAME : string; PORT_ARCHITECTURE_NAME : string;
  PORT_CORE_VARIANT_NAME : string; PORT_INFO : string; PLATFORM_NAME : string;
  BOARD_NAME : string; build_date : string; build_time : string
}.

(** A string literal as an argument. *)
Definition lit (s : string) : Chprintf.va := Chprintf.va_str (str s ++ [NUL]).

Section commands.
Context {S : Type} `{!Component S ch_system, !Component S memory, !Serial S, !Stream S}.
(** The mutex and the address of the default heap. *)
Context (mtx_of : Z -> nat) (default_heap : Z) (build : build_info).
(** The commands on the registry and the test suites. *)
Context (cmd_threads cmd_test : nat -> list ascii -> list nat -> prog S unit).
(** The commands of the application. *)
Context (sc_commands : option (list (ShellCommand S))).

Definition shellUsage (chp : nat) (message : string) : prog S unit :=
  chprintf chp (crlf_s "Usage: %s") [lit message].

(** The thread has ended: it is not scheduled again. *)
Definition never {A} : prog S A := Loop (fun _ : unit => Switch;; mret (inl tt)) tt.
Definition shellExit {A} (msg : Z) : prog S A :=
  Atom (liftM (chEvtBroadcastI shell_terminated));;
  lift (chThdExitS msg);;
  never.

Definition cmd_exit (chp : nat) (line : list ascii) (argv : list nat) : prog S unit :=
  if (0 <? length argv)%nat then shellUsage chp "exit" else shellExit MSG_OK.

Definition cmd_info (chp : nat) (line : list ascii) (argv : list nat) : prog S unit :=
  if (0 <? length argv)%nat then shellUsage chp "info"
  else
    chprintf chp (crlf_s "Kernel:       %s") [lit (CH_KERNEL_VERSION build)];;
    chprintf chp (crlf_s "Compiler:     %s") [lit (PORT_COMPILER_NAME build)];;
    chprintf chp (crlf_s "Architecture: %s") [lit (PORT_ARCHITECTURE_NAME build)];;
    chprintf chp (crlf_s "Core Variant: %s") [lit (PORT_CORE_VARIANT_NAME build)];;
    chprintf chp (crlf_s "Port Info:    %s") [lit (PORT_INFO build)];;
    chprintf chp (crlf_s "Platform:     %s") [lit (PLATFORM_NAME build)];;
    chprintf chp (crlf_s "Board:        %s") [lit (BOARD_NAME build)];;
    chprintf chp (crlf_s "Build time:   %s%s%s") [lit (build_date build); lit " - "; lit (build_time build)].

Definition cmd_echo (chp : nat) (line : list ascii) (argv : list nat) : prog S unit :=
  match argv with
  | [a] => chprintf chp (crlf_s "%s") [Chprintf.va_str (drop a line)]
  | _ => shellUsage chp ("echo " ++ String quote ("message" ++ String quote EmptyString))
  end.

Definition cmd_systime (chp : nat) (line : list ascii) (argv : list nat) : prog S unit :=
  if (0 <? length argv)%nat then shellUsage chp "systime"
  else
    now ← locked (Atom (liftM chVTGetSystemTimeX));
    chprintf chp (crlf_s "%lu") [Chprintf.va_int (i32 now)].

Definition cmd_mem (chp : nat) (line : list ascii) (argv : list nat) : prog S unit :=
  if (0 <? length argv)%nat then shellUsage chp "mem"
  else
    '(n, total, largest) ← chHeapStatus mtx_of default_heap 0;
    core ← Atom (liftM chCoreGetStatusX);
    chprintf chp (crlf_s "core free memory : %u bytes") [Chprintf.va_int (i32 core)];;
    chprintf chp (crlf_s "heap fragments   : %u") [Chprintf.va_int (i32 n)];;
    chprintf chp (crlf_s "heap free total  : %u bytes") [Chprintf.va_int (i32 total)];;
    chprintf chp (crlf_s "heap free largest: %u bytes") [Chprintf.va_int (i32 largest)].

Definition shell_local_commands : list (ShellCommand S) :=
  [ShellCmd "exit" cmd_exit; ShellCmd "info" cmd_info; ShellCmd "echo" cmd_echo;
   ShellCmd "systime" cmd_systime; ShellCmd "mem" cmd_mem; ShellCmd "threads" cmd_threads;
   ShellCmd "test" cmd_test].

Fixpoint list_commands (chp : nat) (scp : list (ShellCommand S)) : prog S unit :=
  match scp with
  | [] => mret tt
  | c :: scp => chprintf chp "%s " [lit (sc_name c)];; list_commands chp scp
  end.

(** [true] when there is no such command. *)
Fixpoint cmdexec (scp : list (ShellCommand S)) (chp : nat) (name : nat) (line : list ascii) (argv : list nat)
    : prog S bool :=
  match scp with
  | [] => mret true
  | c :: scp =>
      eq ← Atom (deref (fun _ => streq line name (sc_name c)));
      if (eq : bool) then sc_function c chp line argv;; mret false
      else cmdexec scp chp name line argv
  end.

Definition unknown_command (chp : nat) (line : list ascii) (cmd : nat) : prog S unit :=
  chprintf chp "%s" [Chprintf.va_str (drop cmd line)];;
  chprintf chp (crlf_s " ?") [].

(** The loop after a line has been read: the command. *)
Definition shell_parsed (chp : nat) (cmd : option nat) (args : list nat) (many : bool) (line : list ascii)
    : prog S (list ascii) :=
  (if (many : bool) then chprintf chp (crlf_s "too many arguments") [] else mret tt);;
  match cmd with
  | None => mret line
  | Some cmd =>
      help ← Atom (deref (fun _ => streq line cmd "help"));
      if (help : bool) then
        if (0 <? length args)%nat then shellUsage chp "help";; mret line
        else
          chprintf chp "Commands: help " [];;
          list_commands chp shell_local_commands;;
          (match sc_commands with Some scp => list_commands chp scp | None => mret tt end);;
          chprintf chp SHELL_NEWLINE_STR [];;
          mret line
      else
        b ← cmdexec shell_local_commands chp cmd line args;
        b ← (if (b : bool) then
               match sc_commands with
               | None => mret true
               | Some scp => cmdexec scp chp cmd line args
               end
             else mret false);
        (if (b : bool) then unknown_command chp line cmd else mret tt);;
        mret line
  end.

Definition shell_line (chp : nat) (line : list ascii) : prog S (list ascii) :=
  '(cmd, args, many, line) ← Atom (deref (fun _ => parse_line line));
  shell_parsed chp cmd args many line.

(** [line] is the array on the stack, which is not initialised. *)
Definition shellThread (chp : nat) (line : list ascii) : prog S Empty_set :=
  chprintf chp SHELL_NEWLINE_STR [];;
  chprintf chp (crlf_s "ChibiOS/RT Shell") [];;
  Loop (fun line =>
    b ← Atom (liftM chThdShouldTerminateX);
    if (b : bool) then mret (inr tt)
    else
      chprintf chp SHELL_PROMPT_STR [];;
      '(stop, line) ← shellGetLine chp line (length line);
      if (stop : bool) then
        chprintf chp SHELL_NEWLINE_STR [];;
        chprintf chp "logout" [];;
        mret (inr tt)
      else
        line ← shell_line chp line;
        mret (inl line)) line;;
  shellExit MSG_OK.

(** The command named [name], the local ones first. *)
Definition find_command (name : list ascii) (scp : list (ShellCommand S)) : option (ShellCommand S) :=
  List.find (fun c => bool_decide (str (sc_name c) = name)) scp.

(** What a line with the words [w] and [ws], at [p] and [args] in [line], does. *)
Definition dispatch (chp : nat) (w : list ascii) (ws : list (list ascii)) (p : nat) (args : list nat)
    (line : list ascii) : prog S (list ascii) :=
  (if decide (w = str "help") then
     if decide (ws = []) then
       chprintf chp "Commands: help " [];;
       list_commands chp (shell_local_commands ++ default [] sc_commands);;
       chprintf chp SHELL_NEWLINE_STR []
     else shellUsage chp "help"
   else
     match find_command w (shell_local_commands ++ default [] sc_commands) with
     | Some c => sc_function c chp line args
     | None => unknown_command chp line p
     end);;
  mret line.

Lemma Atom_some {A B} (a : A) (k : A -> prog S B) : Bind (Atom (deref (fun _ => Some a))) k ≡ k a.
Proof.
  intros R s b s2. cbn [exec]. unfold deref. split.
  - by intros (a' & s1 & [= <- <-] & H).
  - intros H. by exists a, s.
Qed.
Lemma Bind_tt {A} (p : prog S unit) (q : prog S A) : Bind (Bind p (fun _ => Ret tt)) (fun _ => q) ≡ Bind p (fun _ => q).
Proof. rewrite Bind_assoc. f_equiv. intros []. apply Bind_Ret_l. Qed.

Lemma cmdexec_ok scp chp p line argv w : cstr_at line p = Some w ->
  cmdexec scp chp p line argv ≡
    match find_command w scp with
    | Some c => sc_function c chp line argv;; mret false
    | None => mret true
    end.
Proof.
  intros Hw. induction scp as [|c scp IH]; [done|]. cbn [cmdexec find_command List.find].
  unfold streq. rewrite Hw. cbn [mbind option_bind]. unfold mbind at 1, prog_bind. rewrite Atom_some.
  replace (bool_decide (w = str (sc_name c))) with (bool_decide (str (sc_name c) = w))
    by (apply bool_decide_ext; by split).
  destruct (bool_decide _); [done|exact IH].
Qed.
Lemma list_commands_app chp l1 l2 : list_commands chp (l1 ++ l2) ≡ (list_commands chp l1;; list_commands chp l2).
Proof.
  induction l1 as [|c l1 IH]; cbn [list_commands Datatypes.app].
  - unfold mbind, prog_bind, mret, prog_ret. by rewrite Bind_Ret_l.
  - unfold mbind, prog_bind in *. rewrite Bind_assoc. f_equiv. intros _. exact IH.
Qed.

Lemma find_app name l1 l2 : find_command name (l1 ++ l2) =
  match find_command name l1 with Some c => Some c | None => find_command name l2 end.
Proof.
  induction l1 as [|c l1 IH]; cbn; [done|]. destruct (bool_decide _); [done|]. exact IH.
Qed.

(** The two tables, searched one after the other. *)
Lemma search_ok {A} chp p line args w (k : bool -> prog S A) : cstr_at line p = Some w ->
  (b ← cmdexec shell_local_commands chp p line args;
   b ← (if (b : bool) then
          match sc_commands with
          | None => mret true
          | Some scp => cmdexec scp chp p line args
          end
        else mret false);
   k b) ≡
  match find_command w (shell_local_commands ++ default [] sc_commands) with
  | Some c => sc_function c chp line args;; k false
  | None => k true
  end.
Proof.
  intros Hw. rewrite find_app. unfold mbind, prog_bind, mret, prog_ret. rewrite (cmdexec_ok _ _ _ _ _ w) by done.
  destruct (find_command w shell_local_commands) as [c|].
  - unfold mbind, prog_bind, mret, prog_ret. rewrite Bind_assoc. f_equiv. intros []. by rewrite !Bind_Ret_l.
  - unfold mret, prog_ret. rewrite Bind_Ret_l. destruct sc_commands as [scp|]; cbn [default id from_option].
    + rewrite (cmdexec_ok _ _ _ _ _ w) by done. destruct (find_command w scp) as [c|]; unfold mbind, prog_bind, mret, prog_ret;
        [|by rewrite Bind_Ret_l].
      rewrite Bind_assoc. f_equiv. intros []. by rewrite Bind_Ret_l.
    + by rewrite Bind_Ret_l.
Qed.

(** C34: A line runs the command its first word names, on the other words: [help], then the
    local commands, then those of the application, the first of that name; an unknown name
    is answered by the name and a question mark; a line without words runs nothing, and
    one with more than four arguments is refused. *)
Theorem shell_line_ok chp s junk : (NUL ∉ s) ->
  exists p args many line,
  match scan Between s with
  | [] => shell_line chp (s ++ NUL :: junk) ≡
      ((if many : bool then chprintf chp (crlf_s "too many arguments") [] else mret tt);; mret line)
  | w :: ws =>
      if (SHELL_MAX_ARGUMENTS <? length ws)%nat then
        shell_line chp (s ++ NUL :: junk) ≡ (chprintf chp (crlf_s "too many arguments") [];; mret line)
      else cstr_at line p = Some w /\ mapM (cstr_at line) args = Some ws /\
        shell_line chp (s ++ NUL :: junk) ≡ dispatch chp w ws p args line
  end.
Proof.
  intros Hs. destruct (parse_line_ok s junk Hs) as (cmd & args & many & line & E & H).
  exists (default O cmd), args, many, line. 
  assert (Hline : shell_line chp (s ++ NUL :: junk) ≡ shell_parsed chp cmd args many line)
    by (unfold shell_line, mbind, prog_bind; by rewrite E, Atom_some).
  destruct (scan Between s) as [|w ws]; [by subst cmd|].
  destruct H as [-> H]. destruct (SHELL_MAX_ARGUMENTS <? length ws)%nat; [by subst cmd|].
  destruct H as [Hw Ha]. destruct cmd as [p|]; [|done]. cbn in Hw. split; [done|]. split; [done|].
  rewrite Hline. unfold shell_parsed. unfold mbind at 1, prog_bind at 1, mret at 1, prog_ret at 1. rewrite Bind_Ret_l.
  assert (Hlen : length args = length ws) by (by apply length_mapM in Ha).
  unfold streq. rewrite Hw. unfold mbind, prog_bind, option_bind. rewrite Atom_some.
  unfold dispatch, mbind, prog_bind. cbn [default id from_option].
  destruct (decide (w = str "help")) as [Hh|Hh].
  - rewrite bool_decide_eq_true_2 by done.
    destruct ws as [|x ws], args as [|y args]; try done; cbn [length Nat.ltb Nat.leb].
    rewrite decide_True by done. unfold mbind, prog_bind, mret, prog_ret. rewrite !Bind_assoc.
    f_equiv. intros _. rewrite Bind_assoc. rewrite (list_commands_app chp). unfold mbind, prog_bind. rewrite Bind_assoc.
    f_equiv. intros _. destruct sc_commands; [done|cbn]. done.
  - rewrite bool_decide_eq_false_2 by done. etransitivity; [exact (search_ok chp p line args w (fun b : bool => Bind (if b then unknown_command chp line p else Ret tt) (fun _ => Ret line)) Hw)|].
    destruct (find_command _ _) as [c|]; unfold mbind, prog_bind, mret, prog_ret.
    + f_equiv. intros []. by rewrite Bind_Ret_l.
    + done.
Qed.
End commands.

(** [commands] of source/DebugShell.c; [fuel] bounds the depth of the directories. *)
Definition commands {S} `{!Component S app, !Serial S, !FatFs S} (fuel : nat) : list (ShellCommand S) :=
  [ShellCmd "tree" (fun chp line argv => sdcardCmdTree fuel chp (0 <? length argv)%nat)].
End Shell.
