(* ===== verification/SerialChannel.v ===== *)
(** * The serial driver implements the channel the modem driver uses

    The operations of [AppState.Serial] are those of [HalSerial.v]; what the modem
    driver relies on, [SerialSpec], holds for them in every state that has the kernel,
    the queues, the drivers and the application as separate components. *)

From S2P Require Import Prelude CLib Prog ThreadQueue Kernel ChSchd ChThreads ChEvents.
From S2P Require Import HalQueues HalSerial AppState.

Module SerialChannel.
Import ChSchd ChThreads HalQueues HalSerial.

Section channel.
Context {S : Type} `{!Component S ch_system, !Component S io_queues, !Component S sdrivers}.
Context `{!Component S app}.
Context `{!QNotify S, !SerialLLD S}.

#[global] Instance serial_channel : Serial S := {
  AppState.sdStart := HalSerial.sdStart;
  streamPut := _put;
  chnGetTimeout := _gett;
  chnGetEventSource sdp := d ← sdrv sdp; mret (sd_event d)
}.

Context `{!Apart S ch_system app, !Apart S io_queues app, !Apart S sdrivers app}.
Context `{!Apart S ch_system io_queues, !Apart S io_queues sdrivers}.

(** What the low level driver may do. *)
Class LldSpec := {
  notify_ok qp s : exists s', q_notify qp s = Some (tt, s') /\ queue s' = queue s /\
    driver s' = driver s /\ proj (K := app) s' = proj s;
  lld_start_ok sdp s s' : sd_lld_start sdp s = Some (tt, s') -> proj (K := app) s' = proj s
}.
Context `{!LldSpec}.

Section frame.
Context (T : S -> S -> Prop) `{!PreOrder T}.
Context (HT : forall s s', proj (K := app) s' = proj s -> T s s').

Lemma moves_liftM {A} (m : K A) : moves T (liftM m).
Proof.
  intros s a s'. unfold liftM. destruct (m (proj s)) as [[b k]|]; [|done]. intros [= _ <-].
  apply HT. apply (apart_l (B := app)).
Qed.
Lemma moves_set_ioq qp q : moves T (set_ioq qp q).
Proof. intros s [] s' [= <-]. apply HT. apply (apart_l (B := app)). Qed.
Lemma moves_set_sdrv sdp d : moves T (set_sdrv sdp d).
Proof. intros s [] s' [= <-]. apply HT. apply (apart_l (B := app)). Qed.
Lemma moves_notify qp : moves T (q_notify qp).
Proof.
  intros s [] s' E. apply HT. destruct (notify_ok qp s) as (s2 & E2 & _ & _ & Ha).
  rewrite E in E2. by injection E2 as <-.
Qed.
Lemma moves_start sdp : moves T (sd_lld_start sdp).
Proof. intros s [] s' E. apply HT. by eapply lld_start_ok. Qed.
Lemma moves_sdrv sdp : moves T (sdrv sdp).
Proof. apply moves_deref. exact _. Qed.
Lemma moves_ioq qp : moves T (ioq qp).
Proof. apply moves_deref. exact _. Qed.

Lemma within_kernel {A} (p : prog ch_system A) : within T (lift p).
Proof. apply within_lift. intros k s. apply HT. apply (apart_l (B := app)). Qed.

Lemma within_wait blocked qp timeout : within T (wait_while blocked qp timeout).
Proof.
  intros []. split; [apply moves_ioq|]. intros q. destruct (blocked q); [|done].
  split; [apply within_kernel|done].
Qed.

Lemma within_gett sdp timeout : within T (_gett sdp timeout).
Proof.
  split; [apply moves_sdrv|]. intros d. split; [|intros ?; by split]. split; [apply within_wait|].
  intros [m|]; [done|]. cbn [within]. unfold iq_take.
  apply moves_bind; [exact _|apply moves_ioq|]. intros q.
  apply moves_bind; [exact _|apply moves_deref; exact _|]. intros [b q'].
  apply moves_bind; [exact _|apply moves_set_ioq|]. intros _.
  apply moves_bind; [exact _|apply moves_notify|]. intros _. apply moves_ret; exact _.
Qed.

Lemma within_put sdp b : within T (_put sdp b).
Proof.
  split; [apply moves_sdrv|]. intros d. split; [|intros ?; by split]. split; [apply within_wait|].
  intros [m|]; [done|]. cbn [within]. unfold oq_append.
  apply moves_bind; [exact _| |intros _; apply moves_ret; exact _].
  apply moves_bind; [exact _|apply moves_ioq|]. intros q.
  apply moves_bind; [exact _|apply moves_deref; exact _|]. intros q'.
  apply moves_bind; [exact _|apply moves_set_ioq|]. intros _. apply moves_notify.
Qed.

Lemma within_start sdp : within T (HalSerial.sdStart sdp).
Proof.
  split; [|intros ?; by split]. cbn [within].
  apply moves_bind; [exact _|apply moves_start|]. intros _.
  apply moves_bind; [exact _|apply moves_sdrv|]. intros d. apply moves_set_sdrv.
Qed.
End frame.

(** ** Reading *)

Definition channel_ok (sdp : nat) (s : S) : Prop := exists d q, driver s sdp = Some d /\
  queue s (sd_iqueue d) = Some q /\ iq_ok q /\ Forall (fun b => 0 <= b < 256) (iq_content q).

Definition received (sdp : nat) (s : S) : list Z :=
  default [] (d ← driver s sdp; iq_content <$> queue s (sd_iqueue d)).

(** Taking a byte leaves the drivers and the application alone. *)
Lemma take_moves qp : moves (same (fun s : S => (driver s, proj (K := app) s))) (iq_take qp).
Proof.
  unfold iq_take. apply moves_bind; [exact _|apply moves_deref; exact _|]. intros q.
  apply moves_bind; [exact _|apply moves_deref; exact _|]. intros [b q'].
  apply moves_bind; [exact _| |intros _; apply moves_bind;
    [exact _| |intros _; apply moves_ret; exact _]].
  - intros s [] s' [= <-]. unfold same, driver. by rewrite (apart_l (B := app)), (apart_l (B := sdrivers)).
  - intros s [] s' E. destruct (notify_ok qp s) as (s2 & E2 & _ & Hd & Ha).
    rewrite E in E2. injection E2 as <-. unfold same. by rewrite Hd, Ha.
Qed.

Lemma channel_get_some sdp s b bs : channel_ok sdp s -> received sdp s = b :: bs ->
  0 <= b < 256 /\
  exists s', exec alone (_gett sdp TIME_IMMEDIATE) s b s' /\
    channel_ok sdp s' /\ received sdp s' = bs /\ proj (K := app) s' = proj s.
Proof.
  intros (d & q & Hd & Hq & Hok & Hb) Hr. unfold received in Hr. rewrite Hd in Hr. cbn in Hr.
  rewrite Hq in Hr. cbn in Hr. rewrite Hr in Hb. apply Forall_cons in Hb as [Hb Hbs].
  split; [done|].
  assert (Hn : forall s, exists s', q_notify (sd_iqueue d) s = Some (tt, s') /\
    queue s' (sd_iqueue d) = queue s (sd_iqueue d)).
  { intros t. destruct (notify_ok (sd_iqueue d) t) as (t' & E & Hqs & _). exists t'. by rewrite Hqs. }
  assert (He : iqIsEmptyI q = false).
  { unfold iqIsEmptyI. rewrite <- iq_content_length, Hr. done. }
  destruct (iq_take_ok (sd_iqueue d) Hn s q Hq Hok He) as (b' & s' & q' & E & Hq' & Hok' & Hc').
  rewrite Hr in Hc'. injection Hc' as <- Hc'.
  pose proof (take_moves _ _ _ _ E) as Hm. injection Hm as Hd' Ha'.
  assert (Hds : driver s' sdp = Some d) by by rewrite Hd'.
  exists s'. split; [|split; [|split; [|exact Ha']]].
  - exists d, s. split; [cbn; unfold sdrv, deref; unfold driver in Hd; by rewrite Hd|].
    exists b, s'. split; [|by exists tt, s'].
    exists None, s. split; [by eapply wait_while_ready|exact E].
  - exists d, q'. by rewrite <- Hc'.
  - unfold received. rewrite Hds. cbn. by rewrite Hq'.
Qed.

Lemma channel_get_none sdp s : channel_ok sdp s -> received sdp s = [] ->
  exec alone (_gett sdp TIME_IMMEDIATE) s MSG_TIMEOUT s.
Proof.
  intros (d & q & Hd & Hq & Hok & _) Hr. unfold received in Hr. rewrite Hd in Hr. cbn in Hr.
  rewrite Hq in Hr. cbn in Hr.
  assert (He : iqIsEmptyI q = true).
  { unfold iqIsEmptyI. rewrite <- iq_content_length, Hr. done. }
  exists d, s. split; [cbn; unfold sdrv, deref; unfold driver in Hd; by rewrite Hd|].
  exists MSG_TIMEOUT, s. split; [|by exists tt, s]. exists (Some MSG_TIMEOUT), s. split; [|done].
  cbn [exec wait_while]. apply loop_done. exists q, s. split; [by apply ioq_run|]. rewrite He.
  exists MSG_TIMEOUT, s. by split.
Qed.

#[global] Instance serial_channel_spec : SerialSpec S.
Proof.
  refine {| serial_ok := channel_ok; rx_pending := received |}.
  - exact channel_get_some.
  - exact channel_get_none.
  - intros sdp a s (d & q & Hd & Hq & Hx). exists d, q. unfold driver, queue in *.
    by rewrite (apart_r (B := app)), (apart_r (B := app)).
  - intros sdp a s. unfold received, driver, queue. by rewrite !(apart_r (B := app)).
  - intros T HT0 HT. split; [intros; by apply within_start|]. split; [intros; by apply within_put|].
    split; [intros; by apply within_gett|]. intros sdp s src s' E. cbn in E.
    apply bind_inv in E as (d & s1 & E & E2). unfold sdrv, deref in E.
    destruct (proj s !! sdp); [|done]. injection E as _ <-. injection E2 as _ <-. by apply HT.
Defined.
End channel.
End SerialChannel.
