(* ===== verification/UsbRegs.v ===== *)
(** * The registers of the USB device: [ports/STM32/LLD/USBv1/stm32_usb.h]

    The register block, the packet memory and the macros that access the endpoint registers.
    Some bits of an endpoint register toggle when a one is written, others are cleared by a zero,
    since the device changes them at any time; the macros have to respect that. *)

From S2P Require Import Prelude CLib Prog.

(** [stm32_usb_t] and the packet memory, as half-words ([STM32_USB_ACCESS_SCHEME_2x16]). *)
Record stm32_usb := Hw {
  EPR : list Z;
  CNTR : Z;
  ISTR : Z;
  FNR : Z;
  DADDR : Z;
  BTABLE : Z;
  BCDR : Z;
  PMA : list Z
}.
Definition set_EPR (f : list Z -> list Z) (r : stm32_usb) : stm32_usb :=
  Hw (f (EPR r)) (CNTR r) (ISTR r) (FNR r) (DADDR r) (BTABLE r) (BCDR r) (PMA r).
Definition set_CNTR (f : Z -> Z) (r : stm32_usb) : stm32_usb :=
  Hw (EPR r) (f (CNTR r)) (ISTR r) (FNR r) (DADDR r) (BTABLE r) (BCDR r) (PMA r).
Definition set_ISTR (f : Z -> Z) (r : stm32_usb) : stm32_usb :=
  Hw (EPR r) (CNTR r) (f (ISTR r)) (FNR r) (DADDR r) (BTABLE r) (BCDR r) (PMA r).
Definition set_DADDR (f : Z -> Z) (r : stm32_usb) : stm32_usb :=
  Hw (EPR r) (CNTR r) (ISTR r) (FNR r) (f (DADDR r)) (BTABLE r) (BCDR r) (PMA r).
Definition set_BTABLE (f : Z -> Z) (r : stm32_usb) : stm32_usb :=
  Hw (EPR r) (CNTR r) (ISTR r) (FNR r) (DADDR r) (f (BTABLE r)) (BCDR r) (PMA r).
Definition set_BCDR (f : Z -> Z) (r : stm32_usb) : stm32_usb :=
  Hw (EPR r) (CNTR r) (ISTR r) (FNR r) (DADDR r) (BTABLE r) (f (BCDR r)) (PMA r).
Definition set_PMA (f : list Z -> list Z) (r : stm32_usb) : stm32_usb :=
  Hw (EPR r) (CNTR r) (ISTR r) (FNR r) (DADDR r) (BTABLE r) (BCDR r) (f (PMA r)).

(** The device: what a write to an endpoint register and to the interrupt status register makes
    of them, and what a read of the latter shows. *)
Class UsbDevice := {
  epr_write : Z -> Z -> Z;
  istr_write : Z -> Z -> Z;
  istr_read : stm32_usb -> Z;
  cntr_write : Z -> stm32_usb -> stm32_usb
}.

Module UsbRegs.

Definition USB_ENDOPOINTS_NUMBER : nat := 7.

Definition EPR_EA_MASK : Z := 0x000F.
Definition EPR_STAT_TX_MASK : Z := 0x0030.
Definition EPR_STAT_TX_DIS : Z := 0x0000.
Definition EPR_STAT_TX_STALL : Z := 0x0010.
Definition EPR_STAT_TX_NAK : Z := 0x0020.
Definition EPR_STAT_TX_VALID : Z := 0x0030.
Definition EPR_DTOG_TX : Z := 0x0040.
Definition EPR_CTR_TX : Z := 0x0080.
Definition EPR_EP_KIND : Z := 0x0100.
Definition EPR_EP_TYPE_MASK : Z := 0x0600.
Definition EPR_EP_TYPE_BULK : Z := 0x0000.
Definition EPR_EP_TYPE_CONTROL : Z := 0x0200.
Definition EPR_EP_TYPE_ISO : Z := 0x0400.
Definition EPR_EP_TYPE_INTERRUPT : Z := 0x0600.
Definition EPR_SETUP : Z := 0x0800.
Definition EPR_STAT_RX_MASK : Z := 0x3000.
Definition EPR_STAT_RX_DIS : Z := 0x0000.
Definition EPR_STAT_RX_STALL : Z := 0x1000.
Definition EPR_STAT_RX_NAK : Z := 0x2000.
Definition EPR_STAT_RX_VALID : Z := 0x3000.
Definition EPR_DTOG_RX : Z := 0x4000.
Definition EPR_CTR_RX : Z := 0x8000.

Definition EPR_TOGGLE_MASK : Z :=
  Eval cbv in Z.lor (Z.lor (Z.lor EPR_STAT_TX_MASK EPR_DTOG_TX) (Z.lor EPR_STAT_RX_MASK EPR_DTOG_RX))
    EPR_SETUP.
Definition EPR_CTR_MASK : Z := Eval cbv in Z.lor EPR_CTR_TX EPR_CTR_RX.

Definition CNTR_FRES : Z := 0x0001.
Definition CNTR_PDWN : Z := 0x0002.
Definition CNTR_FSUSP : Z := 0x0008.
Definition CNTR_RESUME : Z := 0x0010.
Definition CNTR_SOFM : Z := 0x0200.
Definition CNTR_RESETM : Z := 0x0400.
Definition CNTR_SUSPM : Z := 0x0800.
Definition CNTR_WKUPM : Z := 0x1000.
Definition CNTR_CTRM : Z := 0x8000.

Definition ISTR_EP_ID_MASK : Z := 0x000F.
Definition ISTR_SOF : Z := 0x0200.
Definition ISTR_RESET : Z := 0x0400.
Definition ISTR_SUSP : Z := 0x0800.
Definition ISTR_WKUP : Z := 0x1000.
Definition ISTR_CTR : Z := 0x8000.

Definition FNR_FN_MASK : Z := 0x07FF.
Definition FNR_RXDP : Z := 0x8000.
Definition DADDR_EF : Z := 0x0080.
Definition USB_BCDR_DPPU : Z := 0x8000.
Definition RXCOUNT_COUNT_MASK : Z := 0x03FF.

(** ** The macros *)

(** The words the macros write, from the value [r] read before. *)
Definition epr_set (epr : Z) : Z := Z.lor (Z.land epr (Z.lnot EPR_TOGGLE_MASK)) EPR_CTR_MASK.
Definition epr_toggle (r epr : Z) : Z := Z.lor (Z.lxor r (Z.land epr EPR_TOGGLE_MASK)) EPR_CTR_MASK.
Definition epr_set_stat_rx (r epr : Z) : Z :=
  Z.lor (Z.lxor (Z.land r (Z.lnot (Z.land EPR_TOGGLE_MASK (Z.lnot EPR_STAT_RX_MASK)))) epr) EPR_CTR_MASK.
Definition epr_set_stat_tx (r epr : Z) : Z :=
  Z.lor (Z.lxor (Z.land r (Z.lnot (Z.land EPR_TOGGLE_MASK (Z.lnot EPR_STAT_TX_MASK)))) epr) EPR_CTR_MASK.
Definition epr_clear_ctr_rx (r : Z) : Z :=
  Z.lor (Z.land (Z.land r (Z.lnot EPR_CTR_RX)) (Z.lnot EPR_TOGGLE_MASK)) EPR_CTR_TX.
Definition epr_clear_ctr_tx (r : Z) : Z :=
  Z.lor (Z.land (Z.land r (Z.lnot EPR_CTR_TX)) (Z.lnot EPR_TOGGLE_MASK)) EPR_CTR_RX.

Section macros.
Context `{!UsbDevice}.
Implicit Types (ep : nat).

(** [STM32_USB->EPR[ep]], read and written; there are eight. *)
Definition EPR_get ep : M stm32_usb Z := deref (fun h => EPR h !! ep).
Definition EPR_put ep (w : Z) : M stm32_usb unit :=
  r ← EPR_get ep; modify (set_EPR (fun l => <[ep := epr_write r w]> l)).

Definition EPR_SET ep (epr : Z) : M stm32_usb unit := EPR_put ep (epr_set epr).
Definition EPR_TOGGLE ep (epr : Z) : M stm32_usb unit := r ← EPR_get ep; EPR_put ep (epr_toggle r epr).
Definition EPR_SET_STAT_RX ep (epr : Z) : M stm32_usb unit :=
  r ← EPR_get ep; EPR_put ep (epr_set_stat_rx r epr).
Definition EPR_SET_STAT_TX ep (epr : Z) : M stm32_usb unit :=
  r ← EPR_get ep; EPR_put ep (epr_set_stat_tx r epr).
Definition EPR_CLEAR_CTR_RX ep : M stm32_usb unit := r ← EPR_get ep; EPR_put ep (epr_clear_ctr_rx r).
Definition EPR_CLEAR_CTR_TX ep : M stm32_usb unit := r ← EPR_get ep; EPR_put ep (epr_clear_ctr_tx r).

(** ** The packet memory *)

(** The half-word at a byte address of the packet memory. *)
Definition pma_get (a : Z) : M stm32_usb Z := deref (fun h => PMA h !! Z.to_nat (a / 2)).
Definition pma_put (a v : Z) : M stm32_usb unit :=
  update (fun h => if (Z.to_nat (a / 2) <? length (PMA h))%nat
    then Some (set_PMA (fun l => <[Z.to_nat (a / 2) := u16 v]> l) h) else None).

(** [USB_GET_DESCRIPTOR]: the address of the descriptor of an endpoint, and its members. *)
Definition USB_GET_DESCRIPTOR (h : stm32_usb) ep : Z := BTABLE h + Z.of_nat ep * 8.
Definition TXADDR0 (udp : Z) : Z := udp.
Definition TXCOUNT0 (udp : Z) : Z := udp + 2.
Definition RXADDR0 (udp : Z) : Z := udp + 4.
Definition RXCOUNT0 (udp : Z) : Z := udp + 6.
End macros.

(** ** What the macros do *)

(** The documented behaviour of the bits of an endpoint register: [STAT] and [DTOG] toggle,
    [CTR] is cleared by a zero, [SETUP] is read-only, the others are plain. *)
Definition epr_toggles : Z := 0x7070.
Definition epr_plain : Z := 0x070F.

Class UsbDeviceSpec `{!UsbDevice} := {
  epr_write_spec r w : 0 <= r < 2 ^ 16 -> epr_write r w =
    Z.lor (Z.lor (Z.land (Z.lxor r w) epr_toggles) (Z.land (Z.land r w) EPR_CTR_MASK))
          (Z.lor (Z.land r EPR_SETUP) (Z.land w epr_plain));
  istr_ctr h : length (EPR h) = S USB_ENDOPOINTS_NUMBER -> Z.land (istr_read h) ISTR_CTR <> 0 <->
    exists ep r, EPR h !! ep = Some r /\ Z.land r EPR_CTR_MASK <> 0;
  istr_ep h : length (EPR h) = S USB_ENDOPOINTS_NUMBER -> Z.land (istr_read h) ISTR_CTR <> 0 ->
    exists r, EPR h !! Z.to_nat (Z.land (istr_read h) ISTR_EP_ID_MASK) = Some r /\
      Z.land r EPR_CTR_MASK <> 0;
  cntr_write_spec w h : Z.land w CNTR_FRES = 0 -> cntr_write w h = set_CNTR (fun _ => w) h
}.

Lemma bits_above16 r i : 0 <= r < 2 ^ 16 -> 16 <= i -> Z.testbit r i = false.
Proof. intros Hr Hi. rewrite <- (Z.mod_small r (2 ^ 16)) by done. by apply Z.mod_pow2_bits_high. Qed.

Lemma bits_above16' r i : (0 <=? r) && (r <? 2 ^ 16) = true -> 16 <= i -> Z.testbit r i = false.
Proof. intros H. apply bits_above16. lia. Qed.

(** Boolean reasoning bit by bit: the bits of constants are evaluated, a bit of a variable is a
    case.  The hypotheses that are equations between 16-bit values take part. *)
Lemma below16 i : 0 <= i -> 16 <= i \/ In i [0;1;2;3;4;5;6;7;8;9;10;11;12;13;14;15].
Proof. cbn. lia. Qed.

Ltac bit_cases i :=
  repeat match goal with H : _ = _ :> bool |- _ => revert H end;
  repeat match goal with
    | |- context [Z.testbit ?x i] => is_var x; generalize (Z.testbit x i)
    end;
  clear; repeat match goal with |- forall _ : bool, _ => intros [] end; vm_compute; congruence.
Ltac bits16 :=
  apply Z.bits_inj'; let i := fresh "i" in let Hi := fresh "Hi" in intros i Hi;
  repeat match goal with
    | H : _ = _ :> Z |- _ => apply (f_equal (fun z => Z.testbit z i)) in H; cbv beta in H
    end;
  repeat first [ rewrite Z.land_spec in * | rewrite Z.lor_spec in * | rewrite Z.lxor_spec in *
    | rewrite Z.lnot_spec in * by exact Hi ];
  apply below16 in Hi; destruct Hi as [Hi|Hi];
  [ repeat match goal with
      | |- context [Z.testbit ?c i] => is_var c; match goal with H : 0 <= c < _ |- _ => rewrite (bits_above16 c i H Hi) end
      | |- context [Z.testbit ?c i] =>
          assert_fails (is_var c); replace (Z.testbit c i) with false
            by (symmetry; apply bits_above16'; [vm_compute; reflexivity|exact Hi])
      end; rewrite ?andb_false_r, ?andb_false_l, ?orb_false_r, ?andb_false_r; try done
  | cbn [In] in Hi;
    repeat (destruct Hi as [<-|Hi]; [match goal with |- context [Z.testbit _ ?i] => bit_cases i end|]);
    destruct Hi ].

(** [r] with the bits of the mask [m] replaced by those of [v]. *)
Definition with_bits (m v r : Z) : Z := Z.lor (Z.land r (Z.lxor 0xFFFF m)) (Z.land v m).
Definition same_bits (m r r' : Z) : Prop := Z.land r m = Z.land r' m.

Lemma with_bits_same m v r : 0 <= m < 2 ^ 16 -> 0 <= r < 2 ^ 16 -> 0 <= with_bits m v r < 2 ^ 16.
Proof.
  intros Hm Hr. assert (with_bits m v r = with_bits m v r mod 2 ^ 16) as ->;
    [|apply Z.mod_pos_bound; lia].
  apply Z.bits_inj'. intros i Hi. destruct (Z_lt_le_dec i 16).
  - by rewrite Z.mod_pow2_bits_low.
  - rewrite Z.mod_pow2_bits_high by lia. unfold with_bits.
    by rewrite Z.lor_spec, !Z.land_spec, (bits_above16 m), (bits_above16 r), andb_false_r.
Qed.

Section spec.
Context `{!UsbDevice, !UsbDeviceSpec}.
Implicit Types (r v : Z).

(** The macros in general: [r] is read, and [r'] overwritten. *)
Lemma set_stat_tx_word r r' v : 0 <= r < 2 ^ 16 -> 0 <= r' < 2 ^ 16 -> v = Z.land v EPR_STAT_TX_MASK ->
  same_bits (Z.lor epr_plain EPR_STAT_TX_MASK) r r' ->
  epr_write r' (epr_set_stat_tx r v) = with_bits EPR_STAT_TX_MASK v r'.
Proof.
  intros Hr Hr' Hv Hs. rewrite epr_write_spec by done.
  unfold with_bits, epr_set_stat_tx, same_bits in *. bits16.
Qed.

Lemma set_stat_rx_word r r' v : 0 <= r < 2 ^ 16 -> 0 <= r' < 2 ^ 16 -> v = Z.land v EPR_STAT_RX_MASK ->
  same_bits (Z.lor epr_plain EPR_STAT_RX_MASK) r r' ->
  epr_write r' (epr_set_stat_rx r v) = with_bits EPR_STAT_RX_MASK v r'.
Proof.
  intros Hr Hr' Hv Hs. rewrite epr_write_spec by done.
  unfold with_bits, epr_set_stat_rx, same_bits in *. bits16.
Qed.

Lemma clear_ctr_tx_word r r' : 0 <= r < 2 ^ 16 -> 0 <= r' < 2 ^ 16 -> same_bits epr_plain r r' ->
  epr_write r' (epr_clear_ctr_tx r) = with_bits EPR_CTR_TX 0 r'.
Proof.
  intros Hr Hr' Hs. rewrite epr_write_spec by done.
  unfold with_bits, epr_clear_ctr_tx, same_bits in *. bits16.
Qed.

Lemma clear_ctr_rx_word r r' : 0 <= r < 2 ^ 16 -> 0 <= r' < 2 ^ 16 -> same_bits epr_plain r r' ->
  epr_write r' (epr_clear_ctr_rx r) = with_bits EPR_CTR_RX 0 r'.
Proof.
  intros Hr Hr' Hs. rewrite epr_write_spec by done.
  unfold with_bits, epr_clear_ctr_rx, same_bits in *. bits16.
Qed.

Lemma set_word r v : 0 <= r < 2 ^ 16 -> epr_write r (epr_set v) = with_bits epr_plain v r.
Proof. intros Hr. rewrite epr_write_spec by done. unfold with_bits, epr_set. bits16. Qed.

Lemma toggle_word r r' v : 0 <= r < 2 ^ 16 -> 0 <= r' < 2 ^ 16 ->
  same_bits (Z.lor epr_plain epr_toggles) r r' ->
  epr_write r' (epr_toggle r v) = with_bits epr_toggles v r'.
Proof.
  intros Hr Hr' Hs. rewrite epr_write_spec by done.
  unfold with_bits, epr_toggle, same_bits in *. bits16.
Qed.

(** Setting the status of the IN direction to a value of the other direction. *)
Lemma set_stat_tx_rx r : 0 <= r < 2 ^ 16 ->
  epr_write r (epr_set_stat_tx r EPR_STAT_RX_NAK) =
  with_bits EPR_STAT_TX_MASK EPR_STAT_TX_DIS (Z.lxor r EPR_STAT_RX_NAK).
Proof. intros Hr. rewrite epr_write_spec by done. unfold with_bits, epr_set_stat_tx. bits16. Qed.

(** ** Runs *)

Definition epr_is (h : stm32_usb) (ep : nat) (r : Z) : Prop := EPR h !! ep = Some r /\ 0 <= r < 2 ^ 16.
Definition put_epr (ep : nat) (r : Z) (h : stm32_usb) : stm32_usb := set_EPR (fun l => <[ep := r]> l) h.

Lemma EPR_get_run h ep r : epr_is h ep r -> EPR_get ep h = Some (r, h).
Proof. intros [E _]. unfold EPR_get, deref. by rewrite E. Qed.

Lemma EPR_put_run h ep r w : epr_is h ep r -> EPR_put ep w h = Some (tt, put_epr ep (epr_write r w) h).
Proof. intros Hr. unfold EPR_put. by rewrite (run_call _ _ _ _ _ (EPR_get_run _ _ _ Hr)). Qed.

Lemma EPR_SET_STAT_TX_run h ep r v : epr_is h ep r -> v = Z.land v EPR_STAT_TX_MASK ->
  EPR_SET_STAT_TX ep v h = Some (tt, put_epr ep (with_bits EPR_STAT_TX_MASK v r) h).
Proof.
  intros Hr Hv. unfold EPR_SET_STAT_TX. rewrite (run_call _ _ _ _ _ (EPR_get_run _ _ _ Hr)).
  rewrite (EPR_put_run _ _ _ _ Hr). destruct Hr. by rewrite set_stat_tx_word.
Qed.
Lemma EPR_SET_STAT_RX_run h ep r v : epr_is h ep r -> v = Z.land v EPR_STAT_RX_MASK ->
  EPR_SET_STAT_RX ep v h = Some (tt, put_epr ep (with_bits EPR_STAT_RX_MASK v r) h).
Proof.
  intros Hr Hv. unfold EPR_SET_STAT_RX. rewrite (run_call _ _ _ _ _ (EPR_get_run _ _ _ Hr)).
  rewrite (EPR_put_run _ _ _ _ Hr). destruct Hr. by rewrite set_stat_rx_word.
Qed.
Lemma EPR_CLEAR_CTR_TX_run h ep r : epr_is h ep r ->
  EPR_CLEAR_CTR_TX ep h = Some (tt, put_epr ep (with_bits EPR_CTR_TX 0 r) h).
Proof.
  intros Hr. unfold EPR_CLEAR_CTR_TX. rewrite (run_call _ _ _ _ _ (EPR_get_run _ _ _ Hr)).
  rewrite (EPR_put_run _ _ _ _ Hr). destruct Hr. by rewrite clear_ctr_tx_word.
Qed.
Lemma EPR_CLEAR_CTR_RX_run h ep r : epr_is h ep r ->
  EPR_CLEAR_CTR_RX ep h = Some (tt, put_epr ep (with_bits EPR_CTR_RX 0 r) h).
Proof.
  intros Hr. unfold EPR_CLEAR_CTR_RX. rewrite (run_call _ _ _ _ _ (EPR_get_run _ _ _ Hr)).
  rewrite (EPR_put_run _ _ _ _ Hr). destruct Hr. by rewrite clear_ctr_rx_word.
Qed.
Lemma EPR_SET_run h ep r v : epr_is h ep r ->
  EPR_SET ep v h = Some (tt, put_epr ep (with_bits epr_plain v r) h).
Proof. intros Hr. unfold EPR_SET. rewrite (EPR_put_run _ _ _ _ Hr). destruct Hr. by rewrite set_word. Qed.
Lemma EPR_TOGGLE_run h ep r v : epr_is h ep r ->
  EPR_TOGGLE ep v h = Some (tt, put_epr ep (with_bits epr_toggles v r) h).
Proof.
  intros Hr. unfold EPR_TOGGLE. rewrite (run_call _ _ _ _ _ (EPR_get_run _ _ _ Hr)).
  rewrite (EPR_put_run _ _ _ _ Hr). destruct Hr. by rewrite toggle_word.
Qed.

Lemma epr_is_put h ep r r' : epr_is h ep r -> 0 <= r' < 2 ^ 16 -> epr_is (put_epr ep r' h) ep r'.
Proof.
  intros [E _] Hr. split; [|done]. cbn. apply list_lookup_insert_eq. by eapply lookup_lt_Some.
Qed.

(** C26: The macros on the endpoint registers of the STM32: each changes the field it names and
    nothing else, although some bits toggle, others are cleared by a zero, and the device changes
    flags between the read ([r]) and the write (over [r']): a completion the device
    reports meanwhile is not lost, and data toggles and the other direction are untouched. *)
Theorem epr_macros_ok r r' : 0 <= r < 2 ^ 16 -> 0 <= r' < 2 ^ 16 -> same_bits epr_plain r r' ->
  (same_bits EPR_STAT_TX_MASK r r' -> forall v, v = Z.land v EPR_STAT_TX_MASK ->
    epr_write r' (epr_set_stat_tx r v) = with_bits EPR_STAT_TX_MASK v r') /\
  (same_bits EPR_STAT_RX_MASK r r' -> forall v, v = Z.land v EPR_STAT_RX_MASK ->
    epr_write r' (epr_set_stat_rx r v) = with_bits EPR_STAT_RX_MASK v r') /\
  epr_write r' (epr_clear_ctr_tx r) = with_bits EPR_CTR_TX 0 r' /\
  epr_write r' (epr_clear_ctr_rx r) = with_bits EPR_CTR_RX 0 r' /\
  (same_bits epr_toggles r r' -> forall v,
    epr_write r' (epr_toggle r v) = with_bits epr_toggles v r') /\
  forall v, epr_write r' (epr_set v) = with_bits epr_plain v r'.
Proof.
  intros Hr Hr' Hs.
  assert (Hor : forall m, same_bits m r r' -> same_bits (Z.lor epr_plain m) r r').
  { unfold same_bits in *. intros m Hm. by rewrite !Z.land_lor_distr_r, Hs, Hm. }
  repeat split; intros; eauto using set_stat_tx_word, set_stat_rx_word, clear_ctr_tx_word,
    clear_ctr_rx_word, toggle_word, set_word.
Qed.
End spec.

End UsbRegs.
