(* ===== verification/UsbLld.v ===== *)
(** * The low level USB driver: [ports/STM32/LLD/USBv1/hal_usb_lld.c]

    The data of the USB driver ([include/hal_usb.h], [hal_usb_lld.h]) and the operations on the
    endpoints, from the registers to the packet memory.  The interrupt handler, which calls the
    callbacks, is in [UsbIsr.v].

    A pointer is an object and an offset.  Objects are the members of the driver that are
    transferred, constants, and buffers of the program; a read of the byte behind an object gives
    an arbitrary byte, any other access outside of it is undefined. *)

From S2P Require Import Prelude CLib Prog UsbRegs.

(** ** Data *)

Inductive usbstate_t := USB_UNINIT | USB_STOP | USB_READY | USB_SELECTED | USB_ACTIVE | USB_SUSPENDED.
#[global] Instance usbstate_eq_dec : EqDecision usbstate_t.
Proof. solve_decision. Defined.

Inductive usbepstatus_t := EP_STATUS_DISABLED | EP_STATUS_STALLED | EP_STATUS_ACTIVE.

Inductive usbep0state_t :=
  | USB_EP0_STP_WAITING | USB_EP0_IN_TX | USB_EP0_IN_WAITING_TX0 | USB_EP0_IN_SENDING_STS
  | USB_EP0_OUT_WAITING_STS | USB_EP0_OUT_RX | USB_EP0_ERROR.
#[global] Instance usbep0state_eq_dec : EqDecision usbep0state_t.
Proof. solve_decision. Defined.

Inductive usbevent_t :=
  | USB_EVENT_RESET | USB_EVENT_ADDRESS | USB_EVENT_CONFIGURED | USB_EVENT_UNCONFIGURED
  | USB_EVENT_SUSPEND | USB_EVENT_WAKEUP | USB_EVENT_STALLED.

(** The callbacks of endpoints and of the end of a control transfer: those of the driver, or
    functions of the program by a number. *)
Inductive usbepcallback_t := cb_ep0setup | cb_ep0in | cb_ep0out | cb_program (n : nat).
Inductive usbcallback_t := end_set_address | end_program (n : nat).

Inductive object := o_status | o_configuration | o_setup | o_const (bs : list Z) | o_mem (a : nat).
Inductive ptr := null | at_ (o : object) (off : nat).
Definition ptr_add (p : ptr) (n : nat) : ptr :=
  match p with null => null | at_ o off => at_ o (off + n) end.

(** [USBInEndpointState] and [USBOutEndpointState]: the members of the two have the same places,
    since the two states of endpoint zero are a union; [txlast] is 32 bits wide and shares its
    lower half with [rxpkts]. *)
Record ep_state := EpState {
  st_size : Z;
  st_cnt : Z;
  st_buf : ptr;
  st_last : Z
}.
Definition set_st_size (f : Z -> Z) (r : ep_state) : ep_state :=
  EpState (f (st_size r)) (st_cnt r) (st_buf r) (st_last r).
Definition set_st_cnt (f : Z -> Z) (r : ep_state) : ep_state :=
  EpState (st_size r) (f (st_cnt r)) (st_buf r) (st_last r).
Definition set_st_buf (f : ptr -> ptr) (r : ep_state) : ep_state :=
  EpState (st_size r) (st_cnt r) (f (st_buf r)) (st_last r).
Definition set_st_last (f : Z -> Z) (r : ep_state) : ep_state :=
  EpState (st_size r) (st_cnt r) (st_buf r) (f (st_last r)).
Definition txlast (e : ep_state) : Z := st_last e.
Definition rxpkts (e : ep_state) : Z := u16 (st_last e).
Definition set_rxpkts (f : Z -> Z) (e : ep_state) : ep_state :=
  set_st_last (fun w => w - u16 w + u16 (f (u16 w))) e.

(** [in_state] and [out_state] are addresses of such states. *)
Record USBEndpointConfig := EpConfig {
  ep_mode : Z;
  setup_cb : option usbepcallback_t;
  in_cb : option usbepcallback_t;
  out_cb : option usbepcallback_t;
  in_maxsize : Z;
  out_maxsize : Z;
  in_state : option nat;
  out_state : option nat;
  ep_buffers : Z;
  setup_buf : ptr
}.

(** [struct USBDriver]; there is one configuration, [ud_config] says if it is set. *)
Record USBDriver := Drv {
  ud_state : usbstate_t;
  ud_config : bool;
  transmitting : Z;
  receiving : Z;
  epc : list (option USBEndpointConfig);
  in_params : list (option nat);
  out_params : list (option nat);
  ep0state : usbep0state_t;
  ep0next : ptr;
  ep0n : Z;
  ep0endcb : option usbcallback_t;
  ud_setup : list Z;
  ud_status : Z;
  ud_address : Z;
  ud_configuration : Z;
  saved_state : usbstate_t;
  pmnext : Z
}.
Definition set_ud_state (f : usbstate_t -> usbstate_t) (r : USBDriver) : USBDriver :=
  Drv (f (ud_state r)) (ud_config r) (transmitting r) (receiving r) (epc r) (in_params r)
    (out_params r) (ep0state r) (ep0next r) (ep0n r) (ep0endcb r) (ud_setup r) (ud_status r)
    (ud_address r) (ud_configuration r) (saved_state r) (pmnext r).
Definition set_ud_config (f : bool -> bool) (r : USBDriver) : USBDriver :=
  Drv (ud_state r) (f (ud_config r)) (transmitting r) (receiving r) (epc r) (in_params r)
    (out_params r) (ep0state r) (ep0next r) (ep0n r) (ep0endcb r) (ud_setup r) (ud_status r)
    (ud_address r) (ud_configuration r) (saved_state r) (pmnext r).
Definition set_transmitting (f : Z -> Z) (r : USBDriver) : USBDriver :=
  Drv (ud_state r) (ud_config r) (f (transmitting r)) (receiving r) (epc r) (in_params r)
    (out_params r) (ep0state r) (ep0next r) (ep0n r) (ep0endcb r) (ud_setup r) (ud_status r)
    (ud_address r) (ud_configuration r) (saved_state r) (pmnext r).
Definition set_receiving (f : Z -> Z) (r : USBDriver) : USBDriver :=
  Drv (ud_state r) (ud_config r) (transmitting r) (f (receiving r)) (epc r) (in_params r)
    (out_params r) (ep0state r) (ep0next r) (ep0n r) (ep0endcb r) (ud_setup r) (ud_status r)
    (ud_address r) (ud_configuration r) (saved_state r) (pmnext r).
Definition set_epc (f : list (option USBEndpointConfig) -> list (option USBEndpointConfig)) (r : USBDriver) : USBDriver :=
  Drv (ud_state r) (ud_config r) (transmitting r) (receiving r) (f (epc r)) (in_params r)
    (out_params r) (ep0state r) (ep0next r) (ep0n r) (ep0endcb r) (ud_setup r) (ud_status r)
    (ud_address r) (ud_configuration r) (saved_state r) (pmnext r).
Definition set_in_params (f : list (option nat) -> list (option nat)) (r : USBDriver) : USBDriver :=
  Drv (ud_state r) (ud_config r) (transmitting r) (receiving r) (epc r) (f (in_params r))
    (out_params r) (ep0state r) (ep0next r) (ep0n r) (ep0endcb r) (ud_setup r) (ud_status r)
    (ud_address r) (ud_configuration r) (saved_state r) (pmnext r).
Definition set_out_params (f : list (option nat) -> list (option nat)) (r : USBDriver) : USBDriver :=
  Drv (ud_state r) (ud_config r) (transmitting r) (receiving r) (epc r) (in_params r) (f
    (out_params r)) (ep0state r) (ep0next r) (ep0n r) (ep0endcb r) (ud_setup r) (ud_status r)
    (ud_address r) (ud_configuration r) (saved_state r) (pmnext r).
Definition set_ep0state (f : usbep0state_t -> usbep0state_t) (r : USBDriver) : USBDriver :=
  Drv (ud_state r) (ud_config r) (transmitting r) (receiving r) (epc r) (in_params r)
    (out_params r) (f (ep0state r)) (ep0next r) (ep0n r) (ep0endcb r) (ud_setup r) (ud_status r)
    (ud_address r) (ud_configuration r) (saved_state r) (pmnext r).
Definition set_ep0next (f : ptr -> ptr) (r : USBDriver) : USBDriver :=
  Drv (ud_state r) (ud_config r) (transmitting r) (receiving r) (epc r) (in_params r)
    (out_params r) (ep0state r) (f (ep0next r)) (ep0n r) (ep0endcb r) (ud_setup r) (ud_status r)
    (ud_address r) (ud_configuration r) (saved_state r) (pmnext r).
Definition set_ep0n (f : Z -> Z) (r : USBDriver) : USBDriver :=
  Drv (ud_state r) (ud_config r) (transmitting r) (receiving r) (epc r) (in_params r)
    (out_params r) (ep0state r) (ep0next r) (f (ep0n r)) (ep0endcb r) (ud_setup r) (ud_status r)
    (ud_address r) (ud_configuration r) (saved_state r) (pmnext r).
Definition set_ep0endcb (f : option usbcallback_t -> option usbcallback_t) (r : USBDriver) : USBDriver :=
  Drv (ud_state r) (ud_config r) (transmitting r) (receiving r) (epc r) (in_params r)
    (out_params r) (ep0state r) (ep0next r) (ep0n r) (f (ep0endcb r)) (ud_setup r) (ud_status r)
    (ud_address r) (ud_configuration r) (saved_state r) (pmnext r).
Definition set_ud_setup (f : list Z -> list Z) (r : USBDriver) : USBDriver :=
  Drv (ud_state r) (ud_config r) (transmitting r) (receiving r) (epc r) (in_params r)
    (out_params r) (ep0state r) (ep0next r) (ep0n r) (ep0endcb r) (f (ud_setup r)) (ud_status r)
    (ud_address r) (ud_configuration r) (saved_state r) (pmnext r).
Definition set_ud_status (f : Z -> Z) (r : USBDriver) : USBDriver :=
  Drv (ud_state r) (ud_config r) (transmitting r) (receiving r) (epc r) (in_params r)
    (out_params r) (ep0state r) (ep0next r) (ep0n r) (ep0endcb r) (ud_setup r) (f (ud_status r))
    (ud_address r) (ud_configuration r) (saved_state r) (pmnext r).
Definition set_ud_address (f : Z -> Z) (r : USBDriver) : USBDriver :=
  Drv (ud_state r) (ud_config r) (transmitting r) (receiving r) (epc r) (in_params r)
    (out_params r) (ep0state r) (ep0next r) (ep0n r) (ep0endcb r) (ud_setup r) (ud_status r) (f
    (ud_address r)) (ud_configuration r) (saved_state r) (pmnext r).
Definition set_ud_configuration (f : Z -> Z) (r : USBDriver) : USBDriver :=
  Drv (ud_state r) (ud_config r) (transmitting r) (receiving r) (epc r) (in_params r)
    (out_params r) (ep0state r) (ep0next r) (ep0n r) (ep0endcb r) (ud_setup r) (ud_status r)
    (ud_address r) (f (ud_configuration r)) (saved_state r) (pmnext r).
Definition set_saved_state (f : usbstate_t -> usbstate_t) (r : USBDriver) : USBDriver :=
  Drv (ud_state r) (ud_config r) (transmitting r) (receiving r) (epc r) (in_params r)
    (out_params r) (ep0state r) (ep0next r) (ep0n r) (ep0endcb r) (ud_setup r) (ud_status r)
    (ud_address r) (ud_configuration r) (f (saved_state r)) (pmnext r).
Definition set_pmnext (f : Z -> Z) (r : USBDriver) : USBDriver :=
  Drv (ud_state r) (ud_config r) (transmitting r) (receiving r) (epc r) (in_params r)
    (out_params r) (ep0state r) (ep0next r) (ep0n r) (ep0endcb r) (ud_setup r) (ud_status r)
    (ud_address r) (ud_configuration r) (saved_state r) (f (pmnext r)).

(** The driver [USBD1], the states of the endpoints, the device and the buffers. *)
Record usb := Usb {
  u_drv : USBDriver;
  u_eps : gmap nat ep_state;
  u_hw : stm32_usb;
  u_mem : gmap nat (list Z)
}.
Definition set_u_drv (f : USBDriver -> USBDriver) (r : usb) : usb :=
  Usb (f (u_drv r)) (u_eps r) (u_hw r) (u_mem r).
Definition set_u_eps (f : gmap nat ep_state -> gmap nat ep_state) (r : usb) : usb :=
  Usb (u_drv r) (f (u_eps r)) (u_hw r) (u_mem r).
Definition set_u_hw (f : stm32_usb -> stm32_usb) (r : usb) : usb :=
  Usb (u_drv r) (u_eps r) (f (u_hw r)) (u_mem r).
Definition set_u_mem (f : gmap nat (list Z) -> gmap nat (list Z)) (r : usb) : usb :=
  Usb (u_drv r) (u_eps r) (u_hw r) (f (u_mem r)).

#[global] Instance usb_hw : Component usb stm32_usb.
Proof.
  by refine (Build_Component _ _ u_hw (fun h u => Usb (u_drv u) (u_eps u) h (u_mem u)) _ _ _);
    intros; destruct s.
Defined.

(** The byte of the memory behind an object. *)
Class Beyond := beyond : object -> Z.

(** The clock and the interrupt of the device. *)
Class UsbClock := {
  rccEnableUSB : M usb unit;
  rccDisableUSB : M usb unit;
  nvicEnableVector : M usb unit;
  nvicDisableVector : M usb unit
}.

(** [USBConfig]: the callbacks of the program, [None] for a null pointer, and the functions its
    endpoints and transfers name.  A descriptor is a pointer and a size. *)
Class USBConfig (S : Type) := {
  event_cb : option (usbevent_t -> M S unit);
  get_descriptor_cb : Z -> Z -> Z -> M S (option (ptr * Z));
  requests_hook_cb : option (M S bool);
  sof_cb : option (M S unit);
  ep_program : nat -> nat -> M S unit;
  end_of_transfer : nat -> M S unit
}.

Module UsbLld.
Import UsbRegs.

(** ** Memory *)

Definition object_bytes (o : object) (u : usb) : option (list Z) :=
  match o with
  | o_status => Some [Z.land (ud_status (u_drv u)) 255; Z.shiftr (ud_status (u_drv u)) 8]
  | o_configuration => Some [ud_configuration (u_drv u)]
  | o_setup => Some (ud_setup (u_drv u))
  | o_const bs => Some bs
  | o_mem a => u_mem u !! a
  end.

Definition set_object (o : object) (bs : list Z) (u : usb) : option usb :=
  match o with
  | o_status => Some (set_u_drv (set_ud_status (fun _ => nth 0 bs 0 + 256 * nth 1 bs 0)) u)
  | o_configuration => Some (set_u_drv (set_ud_configuration (fun _ => nth 0 bs 0)) u)
  | o_setup => Some (set_u_drv (set_ud_setup (fun _ => bs)) u)
  | o_const _ => None
  | o_mem a => Some (set_u_mem (fun m => <[a := bs]> m) u)
  end.

Section lld.
Context `{!UsbDevice, !Beyond, !UsbClock}.
Implicit Types (ep : nat).

Definition load (p : ptr) : M usb Z :=
  match p with
  | null => undefined
  | at_ o off =>
      bs ← deref (object_bytes o);
      if (off =? length bs)%nat then mret (beyond o) else deref (fun _ => bs !! off)
  end.

Definition store (p : ptr) (b : Z) : M usb unit :=
  match p with
  | null => undefined
  | at_ o off =>
      bs ← deref (object_bytes o);
      if (off <? length bs)%nat then update (set_object o (<[off := b]> bs)) else undefined
  end.

(** ** Accessors *)

Definition USB_MAX_ENDPOINTS : nat := USB_ENDOPOINTS_NUMBER.

Definition drv {A} (f : USBDriver -> A) : M usb A := gets (fun u => f (u_drv u)).
Definition set_drv (f : USBDriver -> USBDriver) : M usb unit := modify (set_u_drv f).
(** [usbp->epc[ep]], dereferenced. *)
Definition epc_at ep : M usb USBEndpointConfig := deref (fun u => mjoin (epc (u_drv u) !! ep)).
(** [usbp->epc[ep] = c] *)
Definition set_epc ep (c : option USBEndpointConfig) : M usb unit :=
  if (ep <=? USB_MAX_ENDPOINTS)%nat then set_drv (set_epc (fun l => <[ep := c]> l)) else undefined.
(** The state of an endpoint behind a pointer. *)
Definition eps_at (p : option nat) : M usb ep_state := deref (fun u => a ← p; u_eps u !! a).
Definition set_eps (p : option nat) (f : ep_state -> ep_state) : M usb unit :=
  a ← deref (fun _ => p);
  e ← eps_at p;
  modify (set_u_eps (insert a (f e))).
Definition on_hw {A} (m : M stm32_usb A) : M usb A := liftM m.

(** ** Packet memory *)

Definition STM32_USB_PMA_SIZE : Z := 1024.

Definition usb_pm_reset : M usb unit := set_drv (set_pmnext (fun _ => 64)).

Definition usb_pm_alloc (size : Z) : M usb Z :=
  next ← drv pmnext;
  set_drv (set_pmnext (fun p => u32 (p + Z.land (size + 1) (Z.lnot 1))));;
  mret next.

(** [while (i >= 2) ...; if (i >= 1) ...] of [usb_packet_read_to_buffer] *)
Fixpoint read_words (pmap : Z) (buf : ptr) (i : nat) : M usb unit :=
  match i with
  | O => mret tt
  | 1%nat => w ← on_hw (pma_get pmap); store buf (u8 w)
  | S (S i) =>
      w ← on_hw (pma_get pmap);
      store buf (u8 w);;
      store (ptr_add buf 1) (u8 (Z.shiftr w 8));;
      read_words (pmap + 2) (ptr_add buf 2) i
  end.

Definition usb_packet_read_to_buffer ep (buf : ptr) : M usb Z :=
  udp ← gets (fun u => USB_GET_DESCRIPTOR (u_hw u) ep);
  pmap ← on_hw (pma_get (RXADDR0 udp));
  c ← on_hw (pma_get (RXCOUNT0 udp));
  let n := Z.land c RXCOUNT_COUNT_MASK in
  read_words pmap buf (Z.to_nat n);;
  mret n.

(** [while (i > 0) { w = *buf++; w |= *buf++ << 8; *pmap++ = w; i -= 2; }] *)
Fixpoint write_words (pmap : Z) (buf : ptr) (i : nat) : M usb unit :=
  match i with
  | O => mret tt
  | S i =>
      b0 ← load buf;
      b1 ← load (ptr_add buf 1);
      on_hw (pma_put pmap (Z.lor b0 (Z.shiftl b1 8)));;
      match i with
      | O => mret tt
      | S i => write_words (pmap + 2) (ptr_add buf 2) i
      end
  end.

Definition usb_packet_write_from_buffer ep (buf : ptr) (n : Z) : M usb unit :=
  udp ← gets (fun u => USB_GET_DESCRIPTOR (u_hw u) ep);
  pmap ← on_hw (pma_get (TXADDR0 udp));
  on_hw (pma_put (TXCOUNT0 udp) n);;
  write_words pmap buf (Z.to_nat (i32 n)).

(** ** Endpoints *)

Definition USB_EP_MODE_TYPE : Z := 3.
Definition USB_EP_MODE_TYPE_CTRL : Z := 0.
Definition USB_EP_MODE_TYPE_ISOC : Z := 1.
Definition USB_EP_MODE_TYPE_BULK : Z := 2.
Definition USB_EP_MODE_TYPE_INTR : Z := 3.

(** The state of endpoint zero, and its configuration. *)
Definition ep0_state : nat := 0.
Definition ep0setup_buffer : nat := 0.
Definition ep0config : USBEndpointConfig :=
  EpConfig USB_EP_MODE_TYPE_CTRL (Some cb_ep0setup) (Some cb_ep0in) (Some cb_ep0out)
    0x40 0x40 (Some ep0_state) (Some ep0_state) 1 (at_ (o_mem ep0setup_buffer) 0).

(** The type bits of an endpoint; without isochronous support those are bulk. *)
Definition ep_type_bits (c : USBEndpointConfig) : Z :=
  let t := Z.land (ep_mode c) USB_EP_MODE_TYPE in
  if t =? USB_EP_MODE_TYPE_ISOC then EPR_EP_TYPE_BULK
  else if t =? USB_EP_MODE_TYPE_BULK then EPR_EP_TYPE_BULK
  else if t =? USB_EP_MODE_TYPE_INTR then EPR_EP_TYPE_INTERRUPT
  else EPR_EP_TYPE_CONTROL.

Definition rx_blocks (out_maxsize : Z) : Z :=
  u16 (if 62 <? out_maxsize
    then Z.lor (Z.shiftl ((Z.lor (out_maxsize - 1) 0x1f + 1) `quot` 32) 10) 0x8000
    else Z.shiftl ((Z.lor (out_maxsize - 1) 1 + 1) `quot` 2) 10).

Definition usb_lld_init_endpoint ep : M usb unit :=
  c ← epc_at ep;
  let epr := ep_type_bits c in
  dp ← gets (fun u => USB_GET_DESCRIPTOR (u_hw u) ep);
  epr ← (if in_state c is Some _ then
      on_hw (pma_put (TXCOUNT0 dp) 0);;
      a ← usb_pm_alloc (in_maxsize c);
      on_hw (pma_put (TXADDR0 dp) a);;
      mret (Z.lor epr EPR_STAT_TX_NAK)
    else mret epr);
  epr ← (if out_state c is Some _ then
      on_hw (pma_put (RXCOUNT0 dp) (rx_blocks (out_maxsize c)));;
      a ← usb_pm_alloc (out_maxsize c);
      on_hw (pma_put (RXADDR0 dp) a);;
      mret (Z.lor epr EPR_STAT_RX_NAK)
    else mret epr);
  r ← on_hw (EPR_get ep);
  let epr := if negb (Z.land r EPR_DTOG_RX =? 0) then Z.lor epr EPR_DTOG_RX else epr in
  r ← on_hw (EPR_get ep);
  let epr := if negb (Z.land r EPR_DTOG_TX =? 0) then Z.lor epr EPR_DTOG_TX else epr in
  on_hw (EPR_SET ep (Z.lor epr (Z.of_nat ep)));;
  on_hw (EPR_TOGGLE ep epr).

Definition usb_lld_disable_endpoints : M usb unit :=
  usb_pm_reset;;
  mapM_ (fun i => on_hw (EPR_TOGGLE i 0);; on_hw (EPR_SET i 0)) (seq 1 USB_ENDOPOINTS_NUMBER).

Definition usb_lld_get_status_out ep : M usb usbepstatus_t :=
  r ← on_hw (EPR_get ep);
  let st := Z.land r EPR_STAT_RX_MASK in
  mret (if st =? EPR_STAT_RX_DIS then EP_STATUS_DISABLED
        else if st =? EPR_STAT_RX_STALL then EP_STATUS_STALLED else EP_STATUS_ACTIVE).

Definition usb_lld_get_status_in ep : M usb usbepstatus_t :=
  r ← on_hw (EPR_get ep);
  let st := Z.land r EPR_STAT_TX_MASK in
  mret (if st =? EPR_STAT_TX_DIS then EP_STATUS_DISABLED
        else if st =? EPR_STAT_TX_STALL then EP_STATUS_STALLED else EP_STATUS_ACTIVE).

(** Four half-words into [usbp->setup]. *)
Definition usb_lld_read_setup ep (buf : ptr) : M usb unit :=
  udp ← gets (fun u => USB_GET_DESCRIPTOR (u_hw u) ep);
  pmap ← on_hw (pma_get (RXADDR0 udp));
  read_words pmap buf 8.

Definition usb_lld_start_out ep : M usb unit :=
  c ← epc_at ep;
  osp ← eps_at (out_state c);
  (if st_size osp =? 0 then set_eps (out_state c) (set_rxpkts (fun _ => 1))
   else if out_maxsize c =? 0 then undefined
   else set_eps (out_state c)
     (set_rxpkts (fun _ => u16 (u32 (st_size osp + out_maxsize c - 1) / out_maxsize c))));;
  on_hw (EPR_SET_STAT_RX ep EPR_STAT_RX_VALID).

Definition usb_lld_start_in ep : M usb unit :=
  c ← epc_at ep;
  isp ← eps_at (in_state c);
  let n := if in_maxsize c <? st_size isp then in_maxsize c else st_size isp in
  set_eps (in_state c) (set_st_last (fun _ => n));;
  usb_packet_write_from_buffer ep (st_buf isp) n;;
  on_hw (EPR_SET_STAT_TX ep EPR_STAT_TX_VALID).

Definition usb_lld_stall_out ep : M usb unit := on_hw (EPR_SET_STAT_RX ep EPR_STAT_RX_STALL).
Definition usb_lld_stall_in ep : M usb unit := on_hw (EPR_SET_STAT_TX ep EPR_STAT_TX_STALL).

Definition usb_lld_clear_out ep : M usb unit :=
  r ← on_hw (EPR_get ep);
  if negb (Z.land r EPR_STAT_RX_MASK =? EPR_STAT_RX_VALID)
  then on_hw (EPR_SET_STAT_TX ep EPR_STAT_RX_NAK) else mret tt.
Definition usb_lld_clear_in ep : M usb unit :=
  r ← on_hw (EPR_get ep);
  if negb (Z.land r EPR_STAT_TX_MASK =? EPR_STAT_TX_VALID)
  then on_hw (EPR_SET_STAT_TX ep EPR_STAT_TX_NAK) else mret tt.

(** ** The device *)

Definition BTABLE_ADDR : Z := 0.

Definition usb_lld_set_address : M usb unit :=
  a ← drv ud_address;
  on_hw (modify (set_DADDR (fun _ => Z.lor a DADDR_EF))).

(** [usb_lld_reset] for a configuration with a callback for frames ([sof]) or without. *)
Definition usb_lld_reset (sof : bool) : M usb unit :=
  on_hw (modify (set_BTABLE (fun _ => BTABLE_ADDR)));;
  on_hw (modify (set_ISTR (fun r => istr_write r 0)));;
  on_hw (modify (set_DADDR (fun _ => DADDR_EF)));;
  c ← drv ud_config;
  (if c : bool then mret tt else undefined);;
  let cntr := Z.lor (Z.lor (Z.lor CNTR_RESETM CNTR_SUSPM) CNTR_WKUPM) CNTR_CTRM in
  let cntr := if sof then Z.lor cntr CNTR_SOFM else cntr in
  on_hw (modify (cntr_write cntr));;
  usb_pm_reset;;
  set_epc 0 (Some ep0config);;
  usb_lld_init_endpoint 0.

Definition usb_lld_start (sof : bool) : M usb unit :=
  st ← drv ud_state;
  if decide (st = USB_STOP) then
    rccEnableUSB;;
    on_hw (modify (cntr_write CNTR_FRES));;
    nvicEnableVector;;
    on_hw (modify (cntr_write 0));;
    usb_lld_reset sof
  else mret tt.

Definition usb_lld_stop : M usb unit :=
  st ← drv ud_state;
  if decide (st <> USB_STOP) then
    nvicDisableVector;;
    on_hw (modify (cntr_write (Z.lor CNTR_PDWN CNTR_FRES)));;
    rccDisableUSB
  else mret tt.

Definition usb_lld_connect_bus : M usb unit :=
  on_hw (modify (set_BCDR (fun r => Z.lor r USB_BCDR_DPPU))).
Definition usb_lld_disconnect_bus : M usb unit :=
  on_hw (modify (set_BCDR (fun r => Z.land r (Z.lnot USB_BCDR_DPPU)))).
Definition usb_lld_get_frame_number : M usb Z := on_hw (gets (fun h => Z.land (FNR h) FNR_FN_MASK)).
End lld.

End UsbLld.
