(* ===== verification/HalUsb.v ===== *)
(** * The USB driver: [os/hal/src/hal_usb.c]

    The state of the driver, transfers on endpoints and, on endpoint zero, the control transfers with
    the standard requests.  [default_handler] answers a request by setting up a transfer,
    [_usb_ep0setup], [_usb_ep0in] and [_usb_ep0out] run its stages.  Code that calls no callback
    is on the driver's own state, the rest on the whole, where the callbacks live. *)

From S2P Require Import Prelude CLib Prog ThreadQueue Kernel ChVt ChSchd ChThreads UsbRegs UsbLld.

Module HalUsb.
Import ChSchd ChThreads UsbRegs UsbLld.

(** ** Constants *)

Definition USB_RTYPE_DIR_MASK : Z := 0x80.
Definition USB_RTYPE_DIR_HOST2DEV : Z := 0x00.
Definition USB_RTYPE_DIR_DEV2HOST : Z := 0x80.
Definition USB_RTYPE_TYPE_MASK : Z := 0x60.
Definition USB_RTYPE_TYPE_STD : Z := 0x00.
Definition USB_RTYPE_TYPE_CLASS : Z := 0x20.
Definition USB_RTYPE_RECIPIENT_MASK : Z := 0x1F.
Definition USB_RTYPE_RECIPIENT_DEVICE : Z := 0x00.
Definition USB_RTYPE_RECIPIENT_INTERFACE : Z := 0x01.
Definition USB_RTYPE_RECIPIENT_ENDPOINT : Z := 0x02.

Definition USB_REQ_GET_STATUS : Z := 0.
Definition USB_REQ_CLEAR_FEATURE : Z := 1.
Definition USB_REQ_SET_FEATURE : Z := 3.
Definition USB_REQ_SET_ADDRESS : Z := 5.
Definition USB_REQ_GET_DESCRIPTOR : Z := 6.
Definition USB_REQ_SET_DESCRIPTOR : Z := 7.
Definition USB_REQ_GET_CONFIGURATION : Z := 8.
Definition USB_REQ_SET_CONFIGURATION : Z := 9.
Definition USB_REQ_GET_INTERFACE : Z := 10.
Definition USB_REQ_SET_INTERFACE : Z := 11.
Definition USB_REQ_SYNCH_FRAME : Z := 12.

Definition USB_FEATURE_ENDPOINT_HALT : Z := 0.
Definition USB_FEATURE_DEVICE_REMOTE_WAKEUP : Z := 1.

Definition zero_status : list Z := [0; 0].
Definition active_status : list Z := [0; 0].
Definition halted_status : list Z := [1; 0].

(** ** The driver's own state *)

Section driver.
Context `{!UsbDevice, !Beyond, !UsbClock}.
Implicit Types (ep : nat).

(** [usbp->setup[i]], and the half-word at [i]. *)
Definition setup_at (i : nat) : M usb Z := deref (fun u => ud_setup (u_drv u) !! i).
Definition get_hword (i : nat) : M usb Z :=
  b0 ← setup_at i;
  b1 ← setup_at (S i);
  mret (Z.lor b0 (Z.shiftl b1 8)).

Definition usbSetupTransfer (buf : ptr) (n : Z) (endcb : option usbcallback_t) : M usb unit :=
  set_drv (set_ep0next (fun _ => buf));;
  set_drv (set_ep0n (fun _ => n));;
  set_drv (set_ep0endcb (fun _ => endcb)).

Definition bit (ep : nat) : Z := Z.shiftl 1 (Z.of_nat ep).
Definition usbGetTransmitStatusI ep : M usb bool :=
  t ← drv transmitting; mret (negb (Z.land t (u16 (bit ep)) =? 0)).
Definition usbGetReceiveStatusI ep : M usb bool :=
  t ← drv receiving; mret (negb (Z.land t (u16 (bit ep)) =? 0)).
Definition usbGetReceiveTransactionSizeX ep : M usb Z :=
  c ← epc_at ep; osp ← eps_at (out_state c); mret (st_cnt osp).
Definition usbGetDriverStateI : M usb usbstate_t := drv ud_state.

Definition usbObjectInit : M usb unit :=
  set_drv (set_ud_state (fun _ => USB_STOP));;
  set_drv (set_ud_config (fun _ => false));;
  mapM_ (fun i =>
    set_drv (set_in_params (fun l => <[i := None]> l));;
    set_drv (set_out_params (fun l => <[i := None]> l))) (seq 0 USB_MAX_ENDPOINTS);;
  set_drv (set_transmitting (fun _ => 0));;
  set_drv (set_receiving (fun _ => 0)).
Definition usbInit : M usb unit := usbObjectInit.

Definition usbStartReceiveI ep (buf : ptr) (n : Z) : M usb unit :=
  set_drv (set_receiving (fun r => Z.lor r (u16 (bit ep))));;
  c ← epc_at ep;
  set_eps (out_state c) (fun osp => set_st_cnt (fun _ => 0) (set_st_size (fun _ => n) (set_st_buf (fun _ => buf) osp)));;
  usb_lld_start_out ep.

Definition usbStartTransmitI ep (buf : ptr) (n : Z) : M usb unit :=
  set_drv (set_transmitting (fun r => Z.lor r (u16 (bit ep))));;
  c ← epc_at ep;
  set_eps (in_state c) (fun isp => set_st_cnt (fun _ => 0) (set_st_size (fun _ => n) (set_st_buf (fun _ => buf) isp)));;
  usb_lld_start_in ep.

Definition usbStallReceiveI ep : M usb bool :=
  busy ← usbGetReceiveStatusI ep;
  if busy : bool then mret true else usb_lld_stall_out ep;; mret false.
Definition usbStallTransmitI ep : M usb bool :=
  busy ← usbGetTransmitStatusI ep;
  if busy : bool then mret true else usb_lld_stall_in ep;; mret false.

(** [memset] of the states of an endpoint; a null pointer is skipped. *)
Definition clear_state (p : option nat) : M usb unit :=
  if p is Some _ then set_eps p (fun _ => EpState 0 0 null 0) else mret tt.

Definition usbInitEndpointI ep (epcp : USBEndpointConfig) : M usb unit :=
  set_epc ep (Some epcp);;
  clear_state (in_state epcp);;
  clear_state (out_state epcp);;
  usb_lld_init_endpoint ep.

Definition usbDisableEndpointsI : M usb unit :=
  set_drv (set_transmitting (fun r => Z.land r 1));;
  set_drv (set_receiving (fun r => Z.land r 1));;
  mapM_ (fun i => set_epc i None) (seq 1 USB_MAX_ENDPOINTS);;
  usb_lld_disable_endpoints.

(** [usbp->epc[i] = NULL] for every endpoint. *)
Definition invalidate_endpoints : M usb unit :=
  mapM_ (fun i => set_epc i None) (seq 0 (S USB_MAX_ENDPOINTS)).
End driver.

(** ** Requests *)

Section requests.
Context {S : Type} `{!Component S usb, !USBConfig S}.
Context `{!UsbDevice, !Beyond, !UsbClock}.
Implicit Types (ep : nat).

(** [usbp->config], dereferenced. *)
Definition config_set : M S unit :=
  c ← liftM (drv ud_config); if c : bool then mret tt else undefined.

Definition _usb_isr_invoke_event_cb (evt : usbevent_t) : M S unit :=
  config_set;;
  if event_cb is Some f then f evt else mret tt.
Definition _usb_isr_invoke_sof_cb : M S unit :=
  config_set;;
  if sof_cb is Some f then f else mret tt.
Definition has_sof_cb : bool := if sof_cb is Some _ then true else false.

Definition set_address : M S unit :=
  a ← liftM (setup_at 2);
  liftM (set_drv (set_ud_address (fun _ => a)));;
  liftM usb_lld_set_address;;
  _usb_isr_invoke_event_cb USB_EVENT_ADDRESS;;
  liftM (set_drv (set_ud_state (fun _ => USB_SELECTED))).

Definition invoke_end (f : usbcallback_t) : M S unit :=
  match f with
  | end_set_address => set_address
  | end_program n => end_of_transfer n
  end.

(** The request of a recipient, as the code's [switch] has it. *)
Definition req (recipient request : Z) : Z := Z.lor recipient (Z.shiftl request 8).

(** The transfer of the status of an endpoint, or an error. *)
Definition endpoint_status (st : usbepstatus_t) : M usb bool :=
  match st with
  | EP_STATUS_STALLED => usbSetupTransfer (at_ (o_const halted_status) 0) 2 None;; mret true
  | EP_STATUS_ACTIVE => usbSetupTransfer (at_ (o_const active_status) 0) 2 None;; mret true
  | EP_STATUS_DISABLED => mret false
  end.

(** The standard requests that call no callback; [None] for the others. *)
Definition simple_request (key : Z) : option (M usb bool) :=
  if key =? req USB_RTYPE_RECIPIENT_DEVICE USB_REQ_GET_STATUS then Some (
    usbSetupTransfer (at_ o_status 0) 2 None;; mret true)
  else if key =? req USB_RTYPE_RECIPIENT_DEVICE USB_REQ_CLEAR_FEATURE then Some (
    f ← setup_at 2;
    if f =? USB_FEATURE_DEVICE_REMOTE_WAKEUP then
      set_drv (set_ud_status (fun s => Z.land s (Z.lxor 0xFFFF 2)));;
      usbSetupTransfer null 0 None;; mret true
    else mret false)
  else if key =? req USB_RTYPE_RECIPIENT_DEVICE USB_REQ_SET_FEATURE then Some (
    f ← setup_at 2;
    if f =? USB_FEATURE_DEVICE_REMOTE_WAKEUP then
      set_drv (set_ud_status (fun s => Z.lor s 2));;
      usbSetupTransfer null 0 None;; mret true
    else mret false)
  else if key =? req USB_RTYPE_RECIPIENT_DEVICE USB_REQ_SET_ADDRESS then Some (
    usbSetupTransfer null 0 (Some end_set_address);; mret true)
  else if key =? req USB_RTYPE_RECIPIENT_DEVICE USB_REQ_GET_CONFIGURATION then Some (
    usbSetupTransfer (at_ o_configuration 0) 1 None;; mret true)
  else if (key =? req USB_RTYPE_RECIPIENT_INTERFACE USB_REQ_GET_STATUS)
       || (key =? req USB_RTYPE_RECIPIENT_ENDPOINT USB_REQ_SYNCH_FRAME) then Some (
    usbSetupTransfer (at_ (o_const zero_status) 0) 2 None;; mret true)
  else if key =? req USB_RTYPE_RECIPIENT_ENDPOINT USB_REQ_GET_STATUS then Some (
    e ← setup_at 4;
    if negb (Z.land e 0x80 =? 0) then
      st ← usb_lld_get_status_in (Z.to_nat (Z.land e 0x0F)); endpoint_status st
    else
      st ← usb_lld_get_status_out (Z.to_nat (Z.land e 0x0F)); endpoint_status st)
  else if key =? req USB_RTYPE_RECIPIENT_ENDPOINT USB_REQ_CLEAR_FEATURE then Some (
    f ← setup_at 2;
    if negb (f =? USB_FEATURE_ENDPOINT_HALT) then mret false
    else
      e ← setup_at 4;
      (if negb (Z.land e 0x0F =? 0) then
         if negb (Z.land e 0x80 =? 0) then usb_lld_clear_in (Z.to_nat (Z.land e 0x0F))
         else usb_lld_clear_out (Z.to_nat (Z.land e 0x0F))
       else mret tt);;
      usbSetupTransfer null 0 None;; mret true)
  else if key =? req USB_RTYPE_RECIPIENT_ENDPOINT USB_REQ_SET_FEATURE then Some (
    f ← setup_at 2;
    if negb (f =? USB_FEATURE_ENDPOINT_HALT) then mret false
    else
      e ← setup_at 4;
      (if negb (Z.land e 0x0F =? 0) then
         if negb (Z.land e 0x80 =? 0) then usb_lld_stall_in (Z.to_nat (Z.land e 0x0F))
         else usb_lld_stall_out (Z.to_nat (Z.land e 0x0F))
       else mret tt);;
      usbSetupTransfer null 0 None;; mret true)
  else None.

Definition default_handler : M S bool :=
  s0 ← liftM (setup_at 0);
  s1 ← liftM (setup_at 1);
  let key := Z.lor (Z.land s0 (Z.lor USB_RTYPE_RECIPIENT_MASK USB_RTYPE_TYPE_MASK)) (Z.shiftl s1 8) in
  if (key =? req USB_RTYPE_RECIPIENT_DEVICE USB_REQ_GET_DESCRIPTOR)
  || (key =? req USB_RTYPE_RECIPIENT_INTERFACE USB_REQ_GET_DESCRIPTOR) then
    s2 ← liftM (setup_at 2);
    s3 ← liftM (setup_at 3);
    lang ← liftM (get_hword 4);
    config_set;;
    dp ← get_descriptor_cb s3 s2 lang;
    match dp with
    | None => mret false
    | Some (ud_string, ud_size) => liftM (usbSetupTransfer ud_string ud_size None);; mret true
    end
  else if key =? req USB_RTYPE_RECIPIENT_DEVICE USB_REQ_SET_CONFIGURATION then
    st ← liftM (drv ud_state);
    (if decide (st = USB_ACTIVE) then
       liftM usbDisableEndpointsI;;
       liftM (set_drv (set_ud_configuration (fun _ => 0)));;
       liftM (set_drv (set_ud_state (fun _ => USB_SELECTED)));;
       _usb_isr_invoke_event_cb USB_EVENT_UNCONFIGURED
     else mret tt);;
    s2 ← liftM (setup_at 2);
    (if negb (s2 =? 0) then
       liftM (set_drv (set_ud_configuration (fun _ => s2)));;
       liftM (set_drv (set_ud_state (fun _ => USB_ACTIVE)));;
       _usb_isr_invoke_event_cb USB_EVENT_CONFIGURED
     else mret tt);;
    liftM (usbSetupTransfer null 0 None);; mret true
  else match simple_request key with
    | Some m => liftM m
    | None => mret false
    end.

(** ** Endpoint zero *)

Definition set_ep0 (st : usbep0state_t) : M S unit := liftM (set_drv (set_ep0state (fun _ => st))).

(** The error response: both directions stalled. *)
Definition ep0_error : M S unit :=
  liftM (usb_lld_stall_in 0);;
  liftM (usb_lld_stall_out 0);;
  _usb_isr_invoke_event_cb USB_EVENT_STALLED;;
  set_ep0 USB_EP0_ERROR.

(** [config->requests_hook_cb == NULL || !requests_hook_cb()] fails when the hook handled the
    request; then the default handler. *)
Definition handle_request : M S bool :=
  config_set;;
  hooked ← (if requests_hook_cb is Some f then f else mret false);
  if hooked : bool then mret true
  else
    s0 ← liftM (setup_at 0);
    if negb (Z.land s0 USB_RTYPE_TYPE_MASK =? USB_RTYPE_TYPE_STD) then mret false else default_handler.

(** The stage after SETUP. *)
Definition start_transfer : M S unit :=
  max ← liftM (get_hword 6);
  liftM (set_drv (set_ep0n (fun n => if max <? n then max else n)));;
  n ← liftM (drv ep0n);
  buf ← liftM (drv ep0next);
  s0 ← liftM (setup_at 0);
  if Z.land s0 USB_RTYPE_DIR_MASK =? USB_RTYPE_DIR_DEV2HOST then
    if negb (n =? 0) then
      set_ep0 USB_EP0_IN_TX;;
      liftM (usbStartTransmitI 0 buf n)
    else
      set_ep0 USB_EP0_OUT_WAITING_STS;;
      liftM (usbStartReceiveI 0 null 0)
  else
    if negb (n =? 0) then
      set_ep0 USB_EP0_OUT_RX;;
      liftM (usbStartReceiveI 0 buf n)
    else
      set_ep0 USB_EP0_IN_SENDING_STS;;
      liftM (usbStartTransmitI 0 null 0).

Definition _usb_ep0setup ep : M S unit :=
  st ← liftM (drv ep0state);
  (if decide (st <> USB_EP0_STP_WAITING) then set_ep0 USB_EP0_STP_WAITING else mret tt);;
  liftM (usb_lld_read_setup ep (at_ o_setup 0));;
  ok ← handle_request;
  if ok : bool then start_transfer else ep0_error.

(** The transmission is over: the zero sized status packet is awaited. *)
Definition wait_status : M S unit :=
  set_ep0 USB_EP0_OUT_WAITING_STS;;
  liftM (usbStartReceiveI 0 null 0).

(** The status packet was exchanged. *)
Definition end_transfer : M S unit :=
  f ← liftM (drv ep0endcb);
  (if f is Some f then invoke_end f else mret tt);;
  set_ep0 USB_EP0_STP_WAITING.

Definition _usb_ep0in ep : M S unit :=
  st ← liftM (drv ep0state);
  match st with
  | USB_EP0_IN_TX =>
      max ← liftM (get_hword 6);
      n ← liftM (drv ep0n);
      c ← liftM (epc_at 0);
      if (n <? max) && (n `mod` in_maxsize c =? 0) then
        liftM (usbStartTransmitI 0 null 0);;
        set_ep0 USB_EP0_IN_WAITING_TX0
      else wait_status
  | USB_EP0_IN_WAITING_TX0 => wait_status
  | USB_EP0_IN_SENDING_STS => end_transfer
  | USB_EP0_STP_WAITING | USB_EP0_OUT_WAITING_STS | USB_EP0_OUT_RX | USB_EP0_ERROR => ep0_error
  end.

Definition _usb_ep0out ep : M S unit :=
  st ← liftM (drv ep0state);
  match st with
  | USB_EP0_OUT_RX =>
      set_ep0 USB_EP0_IN_SENDING_STS;;
      liftM (usbStartTransmitI 0 null 0)
  | USB_EP0_OUT_WAITING_STS =>
      n ← liftM (usbGetReceiveTransactionSizeX 0);
      if negb (n =? 0) then mret tt else end_transfer
  | USB_EP0_STP_WAITING | USB_EP0_IN_TX | USB_EP0_IN_WAITING_TX0 | USB_EP0_IN_SENDING_STS
  | USB_EP0_ERROR => ep0_error
  end.

(** ** Bus events *)

Definition _usb_reset : M S unit :=
  liftM (set_drv (set_ud_state (fun _ => USB_READY)));;
  liftM (set_drv (set_ud_status (fun _ => 0)));;
  liftM (set_drv (set_ud_address (fun _ => 0)));;
  liftM (set_drv (set_ud_configuration (fun _ => 0)));;
  liftM (set_drv (set_transmitting (fun _ => 0)));;
  liftM (set_drv (set_receiving (fun _ => 0)));;
  liftM invalidate_endpoints;;
  set_ep0 USB_EP0_STP_WAITING;;
  liftM (usb_lld_reset has_sof_cb);;
  _usb_isr_invoke_event_cb USB_EVENT_RESET.

Definition _usb_suspend : M S unit :=
  liftM (set_drv (fun d => set_saved_state (fun _ => ud_state d) d));;
  liftM (set_drv (set_ud_state (fun _ => USB_SUSPENDED)));;
  _usb_isr_invoke_event_cb USB_EVENT_SUSPEND.

Definition _usb_wakeup : M S unit :=
  liftM (set_drv (fun d => set_ud_state (fun _ => saved_state d) d));;
  _usb_isr_invoke_event_cb USB_EVENT_WAKEUP.
End requests.

(** ** Threads *)

Section threads.
Context {S : Type} `{!Component S usb, !Component S ch_system, !USBConfig S}.
Context `{!UsbDevice, !Beyond, !UsbClock}.

Definition usbStart : prog S unit :=
  locked (Atom (
    liftM (set_drv (set_ud_config (fun _ => true)));;
    liftM invalidate_endpoints;;
    liftM (usb_lld_start has_sof_cb);;
    liftM (set_drv (set_ud_state (fun _ => USB_READY))))).

Definition usbStop : prog S unit :=
  locked (
    Atom (
      liftM usb_lld_stop;;
      liftM (set_drv (set_ud_config (fun _ => false)));;
      liftM (set_drv (set_ud_state (fun _ => USB_STOP)));;
      liftM invalidate_endpoints);;
    lift chSchRescheduleS).

Definition usbConnectBus : prog S unit := Atom (liftM usb_lld_connect_bus).
Definition usbDisconnectBus : prog S unit := Atom (liftM usb_lld_disconnect_bus).

Definition USB_HOST_WAKEUP_DURATION : Z := 2.
Definition usb_lld_wakeup_host : prog S unit :=
  Atom (liftM (on_hw (fun h => Some (tt, cntr_write (Z.lor (CNTR h) CNTR_RESUME) h))));;
  lift (chThdSleepMilliseconds USB_HOST_WAKEUP_DURATION);;
  Atom (liftM (on_hw (fun h => Some (tt, cntr_write (Z.land (CNTR h) (Z.lnot CNTR_RESUME)) h)))).

Definition usbWakeupHost : prog S unit :=
  st ← Atom (liftM (drv ud_state));
  if decide (st = USB_SUSPENDED) then usb_lld_wakeup_host else mret tt.
End threads.

End HalUsb.
