(* ===== verification/UsbIsr.v ===== *)
(** * The USB interrupt: [usb_serve_endpoints] and the handler of [hal_usb_lld.c]

    The handler looks at the bus events first, then serves the endpoints that completed a packet,
    one at a time: the next packet of a transfer is put into the packet memory or taken from it, and
    at the end of a transfer the callback of the endpoint runs. *)

From S2P Require Import Prelude CLib Prog UsbRegs UsbLld HalUsb.

Module UsbIsr.
Import UsbRegs UsbLld HalUsb.

Section isr.
Context {S : Type} `{!Component S usb, !USBConfig S}.
Context `{!UsbDevice, !Beyond, !UsbClock}.
Implicit Types (ep : nat).

Definition invoke_ep (f : usbepcallback_t) ep : M S unit :=
  match f with
  | cb_ep0setup => _usb_ep0setup ep
  | cb_ep0in => _usb_ep0in ep
  | cb_ep0out => _usb_ep0out ep
  | cb_program n => ep_program n ep
  end.

(** [usbp->epc[ep]->setup_cb(usbp, ep)] *)
Definition _usb_isr_invoke_setup_cb ep : M S unit :=
  c ← liftM (epc_at ep);
  f ← deref (fun _ => setup_cb c);
  invoke_ep f ep.

Definition _usb_isr_invoke_in_cb ep : M S unit :=
  liftM (set_drv (set_transmitting (fun t => u16 (Z.land t (Z.lnot (bit ep))))));;
  c ← liftM (epc_at ep);
  if in_cb c is Some f then invoke_ep f ep else mret tt.

Definition _usb_isr_invoke_out_cb ep : M S unit :=
  liftM (set_drv (set_receiving (fun t => u16 (Z.land t (Z.lnot (bit ep))))));;
  c ← liftM (epc_at ep);
  if out_cb c is Some f then invoke_ep f ep else mret tt.

(** The next packet of an IN transfer; [false] when the transfer is complete. *)
Definition next_in ep (epcp : USBEndpointConfig) : M usb bool :=
  on_hw (EPR_CLEAR_CTR_TX ep);;
  set_eps (in_state epcp) (fun isp => set_st_cnt (fun c => u32 (c + txlast isp)) isp);;
  isp ← eps_at (in_state epcp);
  let n := u32 (st_size isp - st_cnt isp) in
  if 0 <? n then
    let n := if in_maxsize epcp <? n then in_maxsize epcp else n in
    let buf := ptr_add (st_buf isp) (Z.to_nat (txlast isp)) in
    set_eps (in_state epcp) (fun isp => set_st_last (fun _ => n) (set_st_buf (fun _ => buf) isp));;
    usb_packet_write_from_buffer ep buf n;;
    on_hw (EPR_SET_STAT_TX ep EPR_STAT_TX_VALID);;
    mret true
  else mret false.

(** The packet of an OUT transfer; [false] when the transfer is complete. *)
Definition next_out ep (epcp : USBEndpointConfig) : M usb bool :=
  osp ← eps_at (out_state epcp);
  n ← usb_packet_read_to_buffer ep (st_buf osp);
  set_eps (out_state epcp) (fun osp =>
    set_rxpkts (fun k => u16 (k - 1)) (set_st_size (fun z => u32 (z - n))
      (set_st_cnt (fun z => u32 (z + n)) (set_st_buf (fun p => ptr_add p (Z.to_nat n)) osp))));;
  osp ← eps_at (out_state epcp);
  if (n <? out_maxsize epcp) || (rxpkts osp =? 0) then mret false
  else on_hw (EPR_SET_STAT_RX ep EPR_STAT_RX_VALID);; mret true.

Definition usb_serve_endpoints ep : M S unit :=
  epr ← liftM (on_hw (EPR_get ep));
  epcp ← liftM (gets (fun u => mjoin (epc (u_drv u) !! ep)));
  (if negb (Z.land epr EPR_CTR_TX =? 0) then
     c ← deref (fun _ => epcp);
     more ← liftM (next_in ep c);
     if more : bool then mret tt else _usb_isr_invoke_in_cb ep
   else mret tt);;
  (if negb (Z.land epr EPR_CTR_RX =? 0) then
     liftM (on_hw (EPR_CLEAR_CTR_RX ep));;
     if negb (Z.land epr EPR_SETUP =? 0) then _usb_isr_invoke_setup_cb ep
     else
       c ← deref (fun _ => epcp);
       more ← liftM (next_out ep c);
       if more : bool then mret tt else _usb_isr_invoke_out_cb ep
   else mret tt).

(** [while (istr & ISTR_CTR)]; each endpoint is served at most once. *)
Fixpoint serve_loop (fuel : nat) (istr : Z) : M S unit :=
  if negb (Z.land istr ISTR_CTR =? 0) then
    match fuel with
    | O => undefined
    | Datatypes.S fuel =>
        usb_serve_endpoints (Z.to_nat (Z.land istr ISTR_EP_ID_MASK));;
        istr ← liftM (on_hw (gets istr_read));
        serve_loop fuel istr
    end
  else mret tt.

Definition clear_istr (flag : Z) : M S unit :=
  liftM (on_hw (modify (set_ISTR (fun r => istr_write r (u32 (Z.lnot flag)))))).
Definition set_cntr (f : Z -> Z) : M S unit :=
  liftM (on_hw (modify (fun h => cntr_write (f (CNTR h)) h))).
Definition flag (istr m : Z) (m1 : M S unit) : M S unit :=
  if negb (Z.land istr m =? 0) then m1 else mret tt.

(** The handler of the interrupt, between its prologue and its epilogue. *)
Definition STM32_USB1_LP_HANDLER : M S unit :=
  istr ← liftM (on_hw (gets istr_read));
  flag istr ISTR_RESET (
    clear_istr ISTR_RESET;;
    _usb_reset);;
  flag istr ISTR_SUSP (
    set_cntr (fun c => Z.lor c CNTR_FSUSP);;
    clear_istr ISTR_SUSP;;
    _usb_suspend);;
  flag istr ISTR_WKUP (
    fnr ← liftM (on_hw (gets FNR));
    (if Z.land fnr FNR_RXDP =? 0 then
       set_cntr (fun c => Z.land c (Z.lnot CNTR_FSUSP));;
       _usb_wakeup
     else mret tt);;
    clear_istr ISTR_WKUP);;
  flag istr ISTR_SOF (
    _usb_isr_invoke_sof_cb;;
    clear_istr ISTR_SOF);;
  serve_loop (Datatypes.S USB_MAX_ENDPOINTS) istr.
End isr.
End UsbIsr.
