(* ===== verification/UsbBus.v ===== *)
(** * The other end of the USB cable

    What the serial interface engine of the device does with the packets of the host, as the
    documentation of the STM32 has it: it answers an IN token from the packet memory when the
    endpoint is valid, and stores OUT and SETUP packets there; then it sets the flag of the
    transaction.  Lemmas on the packet memory relate the half-words the driver moves
    with the bytes on the bus. *)

From S2P Require Import Prelude CLib Prog UsbRegs UsbLld.

(** The engine: the endpoint register after a transaction, and the packet memory and
    the byte count after a packet was stored. *)
Class UsbEngine := {
  sie_in : Z -> Z;
  sie_out : Z -> Z;
  sie_setup : Z -> Z;
  sie_store : Z -> list Z -> list Z -> list Z;
  sie_count : Z -> Z -> Z
}.

Module UsbBus.
Import UsbRegs UsbLld.

(** ** Bytes of the packet memory *)

Definition pma_byte (pma : list Z) (a : Z) : option Z :=
  w ← pma !! Z.to_nat (a / 2);
  Some (if a mod 2 =? 0 then Z.land w 255 else Z.land (Z.shiftr w 8) 255).

Fixpoint pma_bytes (pma : list Z) (a : Z) (n : nat) : option (list Z) :=
  match n with
  | O => Some []
  | S n => b ← pma_byte pma a; bs ← pma_bytes pma (a + 1) n; Some (b :: bs)
  end.

(** Only the half-words that hold the [n] bytes at [a] differ. *)
Definition outside (a : Z) (n : nat) (pma pma' : list Z) : Prop :=
  length pma' = length pma /\
  forall i, ~ (a / 2 <= Z.of_nat i < (a + Z.of_nat n + 1) / 2) -> pma' !! i = pma !! i.

(** ** The host *)

(** What the documentation says about the engine. *)
Definition is_in (r r' : Z) : Prop := 0 <= r' < 2 ^ 16 /\
  same_bits (Z.lxor 0xFFFF EPR_DTOG_TX) r'
    (with_bits (Z.lor EPR_STAT_TX_MASK EPR_CTR_TX) (Z.lor EPR_STAT_TX_NAK EPR_CTR_TX) r).
Definition is_out (r r' : Z) : Prop := 0 <= r' < 2 ^ 16 /\
  same_bits (Z.lxor 0xFFFF EPR_DTOG_RX) r'
    (with_bits (Z.lor (Z.lor EPR_STAT_RX_MASK EPR_CTR_RX) EPR_SETUP) (Z.lor EPR_STAT_RX_NAK EPR_CTR_RX) r).
Definition is_setup (r r' : Z) : Prop := 0 <= r' < 2 ^ 16 /\
  same_bits (Z.lxor 0xFFFF (Z.lor EPR_DTOG_RX EPR_DTOG_TX)) r'
    (with_bits (Z.lor (Z.lor (Z.lor EPR_STAT_RX_MASK EPR_STAT_TX_MASK) EPR_CTR_RX) EPR_SETUP)
      (Z.lor (Z.lor (Z.lor EPR_STAT_RX_NAK EPR_STAT_TX_NAK) EPR_CTR_RX) EPR_SETUP) r).

Class UsbEngineSpec `{!UsbEngine} := {
  sie_in_spec r : 0 <= r < 2 ^ 16 -> is_in r (sie_in r);
  sie_out_spec r : 0 <= r < 2 ^ 16 -> is_out r (sie_out r);
  sie_setup_spec r : 0 <= r < 2 ^ 16 -> is_setup r (sie_setup r);
  sie_store_spec a bs pma : 0 <= a -> a mod 2 = 0 -> a + Z.of_nat (length bs) <= 2 * Z.of_nat (length pma) ->
    Forall (fun b => 0 <= b < 256) bs ->
    pma_bytes (sie_store a bs pma) a (length bs) = Some bs /\ outside a (length bs) pma (sie_store a bs pma);
  sie_count_spec c n : 0 <= n < 1024 -> Z.land (sie_count c n) RXCOUNT_COUNT_MASK = n
}.

Section host.
Context `{!UsbDevice, !UsbEngine}.
Implicit Types (ep : nat).

Definition TXCOUNT_COUNT_MASK : Z := 0x03FF.

(** The packet an IN token is answered with. *)
Definition tx_packet ep (h : stm32_usb) : option (list Z) :=
  let udp := USB_GET_DESCRIPTOR h ep in
  a ← PMA h !! Z.to_nat (TXADDR0 udp / 2);
  n ← PMA h !! Z.to_nat (TXCOUNT0 udp / 2);
  pma_bytes (PMA h) a (Z.to_nat (Z.land n TXCOUNT_COUNT_MASK)).

(** The host reads a packet: an endpoint that is not valid does not answer. *)
Definition host_in ep : M stm32_usb (list Z) :=
  r ← EPR_get ep;
  if Z.land r EPR_STAT_TX_MASK =? EPR_STAT_TX_VALID then
    pkt ← deref (tx_packet ep);
    modify (put_epr ep (sie_in r));;
    mret pkt
  else undefined.

(** A packet of the host is stored. *)
Definition rx_packet ep (pkt : list Z) : M stm32_usb unit :=
  udp ← gets (fun h => USB_GET_DESCRIPTOR h ep);
  a ← pma_get (RXADDR0 udp);
  c ← pma_get (RXCOUNT0 udp);
  modify (set_PMA (sie_store a pkt));;
  pma_put (RXCOUNT0 udp) (sie_count c (Z.of_nat (length pkt))).

Definition host_out ep (pkt : list Z) : M stm32_usb unit :=
  r ← EPR_get ep;
  if Z.land r EPR_STAT_RX_MASK =? EPR_STAT_RX_VALID then
    rx_packet ep pkt;;
    modify (put_epr ep (sie_out r))
  else undefined.

(** A SETUP packet is always accepted. *)
Definition host_setup ep (pkt : list Z) : M stm32_usb unit :=
  r ← EPR_get ep;
  rx_packet ep pkt;;
  modify (put_epr ep (sie_setup r)).
End host.

(** ** Lemmas *)

Lemma pma_bytes_length pma n a bs : pma_bytes pma a n = Some bs -> length bs = n.
Proof.
  revert a bs. induction n as [|n IH]; intros a bs E; simpl in E; [by injection E as <-|].
  destruct (pma_byte pma a); [|done]. simpl in E. destruct (pma_bytes pma (a + 1) n) eqn:E2; [|done].
  injection E as <-. simpl. f_equal. by eapply IH.
Qed.

(** Bytes outside of the written half-words are unchanged. *)
Lemma pma_byte_outside a n pma pma' x : 0 <= a -> outside a n pma pma' -> 0 <= x ->
  x < a - a mod 2 \/ a + Z.of_nat n + (a + Z.of_nat n) mod 2 <= x -> pma_byte pma' x = pma_byte pma x.
Proof.
  intros Ha [_ H] Hx Hr. unfold pma_byte. rewrite H; [done|]. rewrite Z2Nat.id by dlia. dlia.
Qed.

Lemma pma_bytes_outside a n pma pma' m x : 0 <= a -> outside a n pma pma' -> 0 <= x ->
  x + Z.of_nat m <= a - a mod 2 \/ a + Z.of_nat n + (a + Z.of_nat n) mod 2 <= x ->
  pma_bytes pma' x m = pma_bytes pma x m.
Proof.
  intros Ha H. revert x. induction m as [|m IH]; intros x Hx Hr; [done|]. simpl.
  rewrite (pma_byte_outside a n pma pma') by (done || lia). by rewrite IH by lia.
Qed.

Lemma outside_refl a pma n : outside a n pma pma.
Proof. by split. Qed.

Lemma outside_trans a n pma1 pma2 pma3 : outside a n pma1 pma2 -> outside a n pma2 pma3 -> outside a n pma1 pma3.
Proof. intros [L1 H1] [L2 H2]. split; [congruence|]. intros i Hi. by rewrite H2, H1. Qed.

Lemma outside_weaken a n b m pma pma' : outside a n pma pma' -> b <= a -> a + Z.of_nat n <= b + Z.of_nat m ->
  outside b m pma pma'.
Proof. intros [L H] H1 H2. split; [done|]. intros i Hi. apply H. intros Hc. apply Hi. dlia. Qed.

(** A half-word holds two bytes. *)
Lemma two_bytes b0 b1 : 0 <= b0 < 256 -> Z.land (u16 (Z.lor b0 (Z.shiftl b1 8))) 255 = b0.
Proof.
  intros H. unfold u16. apply Z.bits_inj'. intros i Hi. rewrite Z.land_spec.
  replace 255 with (Z.ones 8) by done. destruct (Z_lt_le_dec i 8).
  - rewrite Z.ones_spec_low, andb_true_r, Z.mod_pow2_bits_low by lia.
    rewrite Z.lor_spec, Z.shiftl_spec_low by lia. by rewrite orb_false_r.
  - rewrite Z.ones_spec_high, andb_false_r by lia. symmetry.
    rewrite <- (Z.mod_small b0 (2 ^ 8)) by lia. by apply Z.mod_pow2_bits_high.
Qed.
Lemma two_bytes_high b0 b1 : 0 <= b0 < 256 -> 0 <= b1 < 256 ->
  Z.land (Z.shiftr (u16 (Z.lor b0 (Z.shiftl b1 8))) 8) 255 = b1.
Proof.
  intros H H1. unfold u16. apply Z.bits_inj'. intros i Hi. rewrite Z.land_spec, Z.shiftr_spec by lia.
  replace 255 with (Z.ones 8) by done. destruct (Z_lt_le_dec i 8).
  - rewrite Z.ones_spec_low, andb_true_r, Z.mod_pow2_bits_low by lia.
    rewrite Z.lor_spec, Z.shiftl_spec by lia.
    rewrite <- (Z.mod_small b0 (2 ^ 8)) by lia. rewrite Z.mod_pow2_bits_high by lia. simpl. f_equal. lia.
  - rewrite Z.ones_spec_high, andb_false_r by lia. symmetry.
    rewrite <- (Z.mod_small b1 (2 ^ 8)) by lia. by apply Z.mod_pow2_bits_high.
Qed.
(** ** The loops of the driver *)

(** [bs] is readable at [p]. *)
Definition bytes_at (u : usb) (p : ptr) (bs : list Z) : Prop :=
  bs = [] \/ exists o off l rest, p = at_ o off /\ object_bytes o u = Some l /\ drop off l = bs ++ rest.

Section loops.
Context `{!UsbDevice, !Beyond, !UsbClock}.

Lemma usb_load_run u o off l x rest : object_bytes o u = Some l -> drop off l = x :: rest ->
  load (at_ o off) u = Some (x, u).
Proof.
  intros El Ed. unfold load. rewrite (run_deref _ _ _ _ El).
  assert (Hx : l !! off = Some x) by (rewrite <- (Nat.add_0_r off), <- lookup_drop; by rewrite Ed).
  pose proof (lookup_lt_Some _ _ _ Hx). rewrite (proj2 (Nat.eqb_neq _ _)) by lia.
  unfold deref. by rewrite Hx.
Qed.

(** The byte behind the last one can be read, too. *)
Lemma load_behind u o off l x rest : object_bytes o u = Some l -> drop off l = x :: rest ->
  exists y, load (ptr_add (at_ o off) 1) u = Some (y, u).
Proof.
  intros El Ed. simpl. destruct rest as [|y rest].
  - unfold load. rewrite (run_deref _ _ _ _ El).
    assert (length l = (off + 1)%nat) as ->.
    { apply (f_equal length) in Ed. rewrite length_drop in Ed. simpl in Ed. lia. }
    rewrite Nat.eqb_refl. by eexists.
  - exists y. eapply usb_load_run; [done|]. rewrite <- drop_drop, Ed. done.
Qed.

Lemma bytes_at_cons u p x bs : bytes_at u p (x :: bs) ->
  load p u = Some (x, u) /\ (exists y, load (ptr_add p 1) u = Some (y, u)) /\ bytes_at u (ptr_add p 1) bs.
Proof.
  intros [?|(o & off & l & rest & -> & El & Ed)]; [done|].
  split; [by eapply usb_load_run|]. split; [by eapply load_behind|].
  right. exists o, (off + 1)%nat, l, rest. split; [done|]. split; [done|]. by rewrite <- drop_drop, Ed.
Qed.

Lemma ptr_add_add p m n : ptr_add (ptr_add p m) n = ptr_add p (m + n).
Proof. destruct p; [done|]. simpl. f_equal. lia. Qed.

(** Induction on the elements of a list two at a time. *)
Lemma list_pair_ind {A} (P : list A -> Prop) : P [] -> (forall x, P [x]) ->
  (forall x y l, P l -> P (x :: y :: l)) -> forall l, P l.
Proof. intros P0 P1 P2. fix IH 1. intros [|x [|y l]]; [done|apply P1|apply P2, IH]. Qed.

(** Only the device changed. *)
Lemma bytes_at_hw u f p bs : bytes_at u p bs -> bytes_at (set_u_hw f u) p bs.
Proof.
  intros [?|(o & off & l & rest & -> & El & Ed)]; [by left|]. right. exists o, off, l, rest.
  split; [done|]. split; [|done]. by destruct o.
Qed.

Lemma pma_put_run a v h : 0 <= a -> a mod 2 = 0 -> a < 2 * Z.of_nat (length (PMA h)) ->
  pma_put a v h = Some (tt, set_PMA (fun _ => <[Z.to_nat (a / 2) := u16 v]> (PMA h)) h).
Proof.
  intros Ha Hm Hl. unfold pma_put, update. rewrite (proj2 (Nat.ltb_lt _ _)) by dlia. done.
Qed.

Lemma on_hw_run {A} (m : M stm32_usb A) u a h : m (u_hw u) = Some (a, h) ->
  on_hw m u = Some (a, set_u_hw (fun _ => h) u).
Proof. intros E. unfold on_hw, liftM. simpl. rewrite E. by destruct u. Qed.

(** A half-word written at [a]. *)
Lemma put_word_ok a b0 b1 pma : 0 <= a -> a mod 2 = 0 -> a < 2 * Z.of_nat (length pma) ->
  0 <= b0 < 256 ->
  let pma' := <[Z.to_nat (a / 2) := u16 (Z.lor b0 (Z.shiftl b1 8))]> pma in
  pma_byte pma' a = Some b0 /\ (0 <= b1 < 256 -> pma_byte pma' (a + 1) = Some b1) /\
  outside a 1 pma pma'.
Proof.
  intros Ha Hm Hl Hb0 pma'. subst pma'.
  assert (Hi : (Z.to_nat (a / 2) < length pma)%nat) by dlia.
  unfold pma_byte. split_and!.
  - rewrite list_lookup_insert_eq by done. simpl. rewrite Hm. simpl. by rewrite two_bytes.
  - intros Hb1. replace ((a + 1) / 2) with (a / 2) by dlia. rewrite list_lookup_insert_eq by done. simpl.
    replace ((a + 1) mod 2) with 1 by dlia. simpl. by rewrite two_bytes_high.
  - split; [apply length_insert|]. intros i Hi'. apply list_lookup_insert_ne. dlia.
Qed.

Lemma write_words_run bs : forall pmap buf u, Forall (fun b => 0 <= b < 256) bs -> bytes_at u buf bs ->
  0 <= pmap -> pmap mod 2 = 0 -> pmap + Z.of_nat (length bs) <= 2 * Z.of_nat (length (PMA (u_hw u))) ->
  exists pma', write_words pmap buf (length bs) u = Some (tt, set_u_hw (set_PMA (fun _ => pma')) u) /\
    pma_bytes pma' pmap (length bs) = Some bs /\ outside pmap (length bs) (PMA (u_hw u)) pma'.
Proof.
  induction bs as [|x|x y bs IH] using list_pair_ind; intros pmap buf u Hb Hp Ha Hm Hl.
  - exists (PMA (u_hw u)). split; [by destruct u as [? ? [] ?]|]. split; [done|apply outside_refl].
  - apply Forall_cons in Hb as [Hx _].
    destruct (bytes_at_cons _ _ _ _ Hp) as (E0 & (b1 & E1) & _). cbn [length] in *.
    destruct (put_word_ok pmap x b1 (PMA (u_hw u)) Ha Hm ltac:(lia) Hx) as (P0 & _ & Ho).
    eexists. cbn [write_words]. rewrite (run_call _ _ _ _ _ E0), (run_call _ _ _ _ _ E1).
    rewrite (run_call _ _ _ _ _ (on_hw_run _ _ _ _ (pma_put_run _ _ (u_hw u) Ha Hm ltac:(lia)))).
    split; [by destruct u as [? ? [] ?]|]. split; [|done]. simpl. by rewrite P0.
  - apply Forall_cons in Hb as [Hx Hb]. apply Forall_cons in Hb as [Hy Hb]. cbn [length] in *.
    destruct (bytes_at_cons _ _ _ _ Hp) as (E0 & _ & Hp1).
    destruct (bytes_at_cons _ _ _ _ Hp1) as (E1 & _ & Hp2). rewrite ptr_add_add in Hp2.
    destruct (put_word_ok pmap x y (PMA (u_hw u)) Ha Hm ltac:(lia) Hx) as (P0 & P1 & Ho). specialize (P1 Hy).
    cbn [write_words]. rewrite (run_call _ _ _ _ _ E0), (run_call _ _ _ _ _ E1).
    rewrite (run_call _ _ _ _ _ (on_hw_run _ _ _ _ (pma_put_run _ _ (u_hw u) Ha Hm ltac:(lia)))).
    set (pma1 := <[_ := _]> _) in *. set (u1 := set_u_hw _ u).
    destruct (IH (pmap + 2) (ptr_add buf 2) u1) as (pma2 & E & Hbs & Ho2); [done|by apply bytes_at_hw| lia|dlia| |].
    { destruct Ho as [L _]. change (PMA (u_hw u1)) with pma1. rewrite L. lia. }
    change (PMA (u_hw u1)) with pma1 in Ho2. exists pma2. rewrite E. split; [by destruct u as [? ? [] ?]|].
    split.
    + cbn [pma_bytes]. rewrite !(pma_byte_outside (pmap + 2) (length bs) pma1 pma2) by (done || dlia).
      rewrite P0, P1. simpl. replace (pmap + 1 + 1) with (pmap + 2) by lia. by rewrite Hbs.
    + eapply outside_trans; [eapply outside_weaken; [exact Ho|lia|lia]|].
      eapply outside_weaken; [exact Ho2|lia|lia].
Qed.

(** ** Storing a packet *)

(** The objects a packet can be stored to without a change of type. *)
Definition writable (o : object) : Prop := match o with o_mem _ | o_setup => True | _ => False end.

(** [bs] is written to [p]: a buffer of the program or the SETUP packet of the driver. *)
Definition written (u : usb) (p : ptr) (bs : list Z) (u' : usb) : Prop :=
  bs = [] /\ u' = u \/ exists o off l, p = at_ o off /\ writable o /\ object_bytes o u = Some l /\
    (off + length bs <= length l)%nat /\ set_object o (list_inserts off bs l) u = Some u'.

Lemma u8_land z : u8 z = Z.land z 255.
Proof. symmetry. apply (Z.land_ones z 8). lia. Qed.

Lemma set_object_get o l u u' : writable o -> set_object o l u = Some u' -> object_bytes o u' = Some l.
Proof. destruct o; try done; intros _ [= <-]; simpl; [done|]. by rewrite lookup_insert_eq. Qed.

Lemma set_object_set o l l' u u' : writable o -> set_object o l u = Some u' ->
  set_object o l' u' = set_object o l' u.
Proof.
  destruct o; try done; intros _ [= <-]; destruct u as [[] ? ? ?]; simpl; [done|].
  unfold set_u_mem. simpl. by rewrite insert_insert_eq.
Qed.

Lemma set_object_hw o l u u' : set_object o l u = Some u' -> u_hw u' = u_hw u.
Proof. destruct o; by intros [= <-]. Qed.

Lemma usb_store_run u o off l x : writable o -> object_bytes o u = Some l -> (off < length l)%nat ->
  exists u', store (at_ o off) x u = Some (tt, u') /\ set_object o (<[off := x]> l) u = Some u'.
Proof.
  intros Ho El Hl. unfold store. rewrite (run_deref _ _ _ _ El), (proj2 (Nat.ltb_lt _ _)) by done.
  unfold update. destruct (set_object o _ u) eqn:E; [by eexists|by destruct o].
Qed.

Lemma pma_get_run a h w : PMA h !! Z.to_nat (a / 2) = Some w -> pma_get a h = Some (w, h).
Proof. intros E. unfold pma_get, deref. by rewrite E. Qed.

(** The half-word that holds a byte, and the byte after it. *)
Lemma pma_byte_even pma a b : 0 <= a -> a mod 2 = 0 -> pma_byte pma a = Some b ->
  exists w, pma !! Z.to_nat (a / 2) = Some w /\ u8 w = b /\
    forall b', pma_byte pma (a + 1) = Some b' -> u8 (Z.shiftr w 8) = b'.
Proof.
  intros Ha Hm. unfold pma_byte. replace ((a + 1) / 2) with (a / 2) by dlia.
  replace ((a + 1) mod 2) with 1 by dlia. rewrite Hm.
  destruct (pma !! _) as [w|]; [|done]. simpl. intros [= <-]. exists w. rewrite !u8_land.
  split; [done|]. split; [done|]. by intros b' [= <-].
Qed.

Lemma read_words_run bs : forall pmap o off l u, writable o -> object_bytes o u = Some l ->
  (off + length bs <= length l)%nat -> pma_bytes (PMA (u_hw u)) pmap (length bs) = Some bs ->
  0 <= pmap -> pmap mod 2 = 0 ->
  exists u', read_words pmap (at_ o off) (length bs) u = Some (tt, u') /\
    (bs = [] /\ u' = u \/ set_object o (list_inserts off bs l) u = Some u').
Proof.
  induction bs as [|x|x y bs IH] using list_pair_ind; intros pmap o off l u Ho El Hl Hb Ha Hm.
  - exists u. split; [done|by left].
  - cbn [length pma_bytes] in Hb. destruct (pma_byte _ pmap) as [b|] eqn:Eb; [|done]. injection Hb as ->.
    destruct (pma_byte_even _ _ _ Ha Hm Eb) as (w & Ew & Hw & _).
    destruct (usb_store_run u o off l x Ho El) as (u' & Es & E'); [simpl in Hl; lia|].
    exists u'. cbn [read_words length].
    rewrite (run_call _ _ _ _ _ (on_hw_run _ _ _ _ (pma_get_run _ _ _ Ew))), Hw.
    split; [|by right]. by destruct u.
  - cbn [length pma_bytes] in Hb. destruct (pma_byte _ pmap) as [b|] eqn:Eb; [|done]. simpl in Hb.
    destruct (pma_byte _ (pmap + 1)) as [b'|] eqn:Eb'; [|done]. simpl in Hb.
    replace (pmap + 1 + 1) with (pmap + 2) in Hb by lia.
    destruct (pma_bytes _ (pmap + 2) _) as [bs'|] eqn:Ebs; [|done]. injection Hb as -> -> ->.
    destruct (pma_byte_even _ _ _ Ha Hm Eb) as (w & Ew & Hw & Hw').
    cbn [length] in Hl. cbn [read_words length].
    rewrite (run_call _ _ _ _ _ (on_hw_run _ _ _ _ (pma_get_run _ _ _ Ew))), Hw, (Hw' _ Eb').
    replace (set_u_hw (fun _ => u_hw u) u) with u by by destruct u.
    destruct (usb_store_run u o off l x Ho El) as (u1 & Es1 & E1); [lia|].
    destruct (usb_store_run u1 o (off + 1) (<[off:=x]> l) y Ho (set_object_get _ _ _ _ Ho E1)) as (u2 & Es2 & E2);
      [rewrite length_insert; lia|].
    rewrite (run_call _ _ _ _ _ Es1). cbn [ptr_add]. rewrite (run_call _ _ _ _ _ Es2).
    destruct (IH (pmap + 2) o (off + 2)%nat (<[(off + 1)%nat := y]> (<[off := x]> l)) u2) as (u' & E & Hu');
      [done|by eapply set_object_get|by rewrite !length_insert; lia| |lia|dlia|].
    { by rewrite (set_object_hw _ _ _ _ E2), (set_object_hw _ _ _ _ E1). }
    exists u'. split; [done|]. right.
    assert (Hset : forall l', set_object o l' u2 = set_object o l' u).
    { intros l'. by rewrite (set_object_set _ _ _ _ _ Ho E2), (set_object_set _ _ _ _ _ Ho E1). }
    assert (list_inserts off (x :: y :: bs) l =
      list_inserts (off + 2) bs (<[(off + 1)%nat := y]> (<[off := x]> l))) as ->.
    { cbn [list_inserts]. rewrite !list_insert_inserts_lt by lia.
      rewrite Nat.add_1_r, (list_insert_insert_ne l) by lia. f_equal. lia. }
    destruct Hu' as [[-> ->]|Hu']; [|by rewrite <- Hset].
    simpl. rewrite <- E2. symmetry. by eapply set_object_set.
Qed.
End loops.
End UsbBus.
