(* ===== verification/UsbTransfer.v ===== *)
(** * Transfers over an endpoint

    A transfer of the driver is a sequence of packets of at most the size of the endpoint: what
    [usbStartTransmitI] was given is what the host reads, and what the host sends is what the
    buffer of [usbStartReceiveI] holds when the callback of the endpoint is invoked.  [run_in] and
    [run_out] let the host and the interrupt of the device alternate. *)

From S2P Require Import Prelude CLib Prog UsbRegs UsbLld HalUsb UsbIsr UsbBus.

Module UsbTransfer.
Import UsbRegs UsbLld HalUsb UsbIsr UsbBus.

(** ** Packets *)

(** [k] packets of size [max], and the rest. *)
Fixpoint cut (max k : nat) (bs : list Z) : list (list Z) :=
  match k with
  | O => [bs]
  | S k => take max bs :: cut max k (drop max bs)
  end.
(** The packets of a transfer: the last one may be short, and is empty only if it is the only one. *)
Definition packets (max : nat) (bs : list Z) : list (list Z) := cut max ((length bs - 1) / max) bs.

Lemma cut_concat max k bs : concat (cut max k bs) = bs.
Proof.
  revert bs. induction k as [|k IH]; intros bs; simpl; [apply app_nil_r|]. rewrite IH. apply take_drop.
Qed.

Lemma cut_sizes max k bs : (length bs <= max * S k)%nat -> (max * k <= length bs)%nat ->
  exists ps p, cut max k bs = ps ++ [p] /\ length ps = k /\ Forall (fun q => length q = max) ps /\
    (length p <= max)%nat.
Proof.
  revert bs. induction k as [|k IH]; intros bs Hl Hu; simpl.
  - exists [], bs. repeat split; [constructor|lia].
  - destruct (IH (drop max bs)) as (ps & p & -> & Hk & Hf & Hp); [rewrite length_drop; lia..|].
    exists (take max bs :: ps), p. split; [done|]. split; [simpl; lia|]. split; [|done].
    constructor; [|done]. rewrite length_take. lia.
Qed.

(** Packets are whole, except the last one, and make up the transfer. *)
Lemma packets_ok max bs : (0 < max)%nat -> concat (packets max bs) = bs /\
  exists ps p, packets max bs = ps ++ [p] /\ Forall (fun q => length q = max) ps /\ (length p <= max)%nat /\
    (bs <> [] -> p <> []).
Proof.
  intros Hm. split; [apply cut_concat|]. unfold packets.
  pose proof (Nat.div_mod (length bs - 1) max ltac:(lia)). pose proof (Nat.mod_upper_bound (length bs - 1) max).
  destruct (cut_sizes max ((length bs - 1) / max) bs) as (ps & p & E & Hk & Hf & Hp); [nia..|].
  exists ps, p. repeat split; try done. intros Hb ->.
  apply (f_equal (@concat Z)) in E. rewrite cut_concat, concat_app in E. simpl in E. rewrite !app_nil_r in E.
  assert (length bs = max * length ps)%nat.
  { rewrite E. clear -Hf. induction Hf; simpl; [lia|]. rewrite length_app. lia. }
  destruct bs; [done|]. simpl in *. nia.
Qed.

(** ** Endpoints *)

Section transfer.
Context {S : Type} `{!Component S usb, !USBConfig S}.
Context `{!UsbDevice, !Beyond, !UsbClock, !UsbEngine, !UsbDeviceSpec, !UsbEngineSpec}.
Implicit Types (u : usb) (s : S) (ep : nat).

(** Endpoint [ep] is configured as [c], with the state [e] and the register [r]. *)
Record endpoint u ep (c : USBEndpointConfig) (r : Z) : Prop := {
  e_epc : epc (u_drv u) !! ep = Some (Some c);
  e_max : (ep <= USB_MAX_ENDPOINTS)%nat;
  e_epr : epr_is (u_hw u) ep r;
  e_table : BTABLE (u_hw u) = 0
}.

Lemma endpoint_same u u' ep c r : epc (u_drv u') = epc (u_drv u) -> EPR (u_hw u') = EPR (u_hw u) ->
  BTABLE (u_hw u') = BTABLE (u_hw u) -> endpoint u ep c r -> endpoint u' ep c r.
Proof. intros E1 E2 E3 [A1 A2 A3 A4]. split; try congruence. unfold epr_is. by rewrite E2. Qed.

(** Its buffer for transmission is in the packet memory, behind the table of buffers. *)
Record tx_buffer u ep (c : USBEndpointConfig) (st : nat) (a : Z) : Prop := {
  tx_st : in_state c = Some st;
  tx_size : 0 < in_maxsize c < 1024;
  tx_addr : PMA (u_hw u) !! (4 * ep)%nat = Some a;
  tx_low : 64 <= a;
  tx_even : a mod 2 = 0;
  tx_high : a + in_maxsize c <= 2 * Z.of_nat (length (PMA (u_hw u)))
}.

(** What a transmission may change: the state and the register of the endpoint (but for its other
    direction), its counter and its buffer. *)
Record tx_frame ep (st : nat) (a size : Z) u u' : Prop := {
  tf_drv : u_drv u' = u_drv u;
  tf_mem : u_mem u' = u_mem u;
  tf_eps st' : st' <> st -> u_eps u' !! st' = u_eps u !! st';
  tf_regs : u_hw u' = set_PMA (fun _ => PMA (u_hw u')) (set_EPR (fun _ => EPR (u_hw u')) (u_hw u));
  tf_epr ep' : ep' <> ep -> EPR (u_hw u') !! ep' = EPR (u_hw u) !! ep';
  tf_ep r : epr_is (u_hw u) ep r -> exists r', epr_is (u_hw u') ep r' /\ same_bits 0xFF0F r' r;
  tf_len : length (PMA (u_hw u')) = length (PMA (u_hw u));
  tf_pma i : i <> (4 * ep + 1)%nat -> ~ (a / 2 <= Z.of_nat i < (a + size + 1) / 2) ->
    PMA (u_hw u') !! i = PMA (u_hw u) !! i
}.

#[global] Instance tx_frame_refl ep st a size : Reflexive (tx_frame ep st a size).
Proof. intros u. split; try done; [by destruct (u_hw u)|]. intros r Hr. by exists r. Qed.

#[global] Instance tx_frame_trans ep st a size : Transitive (tx_frame ep st a size).
Proof.
  intros u1 u2 u3 [D1 M1 E1 R1 P1 O1 L1 A1] [D2 M2 E2 R2 P2 O2 L2 A2]. split; try congruence.
  - intros st' Hn. by rewrite E2, E1.
  - rewrite R2, R1. done.
  - intros ep' Hn. by rewrite P2, P1.
  - intros r Hr. destruct (O1 r Hr) as (r' & Hr' & B1). destruct (O2 r' Hr') as (r'' & Hr'' & B2).
    exists r''. split; [done|]. unfold same_bits in *. congruence.
  - intros i Hi Ha. by rewrite A2, A1.
Qed.

Lemma descriptor_tx u ep : BTABLE (u_hw u) = 0 ->
  Z.to_nat (TXADDR0 (USB_GET_DESCRIPTOR (u_hw u) ep) / 2) = (4 * ep)%nat /\
  Z.to_nat (TXCOUNT0 (USB_GET_DESCRIPTOR (u_hw u) ep) / 2) = (4 * ep + 1)%nat.
Proof. intros Ht. unfold TXADDR0, TXCOUNT0, USB_GET_DESCRIPTOR. rewrite Ht. split; dlia. Qed.

(** ** Transmission *)

Lemma land_count n : 0 <= n < 1024 -> Z.land n TXCOUNT_COUNT_MASK = n.
Proof. intros Hn. unfold TXCOUNT_COUNT_MASK. change 0x3FF with (Z.ones 10). rewrite Z.land_ones by lia. by apply Z.mod_small. Qed.

(** A packet written to the buffer is what an IN token is answered with. *)
Lemma write_packet u ep c r st a buf bs : endpoint u ep c r -> tx_buffer u ep c st a ->
  bytes_at u buf bs -> Forall (fun b => 0 <= b < 256) bs -> Z.of_nat (length bs) <= in_maxsize c ->
  exists pma, let u' := set_u_hw (set_PMA (fun _ => pma)) u in
    usb_packet_write_from_buffer ep buf (Z.of_nat (length bs)) u = Some (tt, u') /\
    tx_packet ep (u_hw u') = Some bs /\ tx_frame ep st a (in_maxsize c) u u'.
Proof.
  intros [_ He _ Ht] [_ Hs Ea Hlo Hm Hhi] Hp Hb Hl. unfold USB_MAX_ENDPOINTS, USB_ENDOPOINTS_NUMBER in He.
  destruct (descriptor_tx u ep Ht) as [I0 I1].
  set (udp := USB_GET_DESCRIPTOR (u_hw u) ep) in *.
  set (n := Z.of_nat (length bs)) in *.
  assert (Hud : 0 <= TXCOUNT0 udp /\ TXCOUNT0 udp mod 2 = 0 /\ TXCOUNT0 udp < 64).
  { unfold TXCOUNT0, udp, USB_GET_DESCRIPTOR. rewrite Ht. dlia. }
  set (pma1 := <[Z.to_nat (TXCOUNT0 udp / 2) := u16 n]> (PMA (u_hw u))).
  set (u1 := set_u_hw (set_PMA (fun _ => pma1)) u).
  destruct (write_words_run bs a buf u1) as (pma & E & Hbs & Hlen & Ho);
    [done|by apply bytes_at_hw|lia|done|change (PMA (u_hw u1)) with pma1; unfold pma1; rewrite length_insert; lia|].
  change (PMA (u_hw u1)) with pma1 in *.
  assert (Hi1 : forall i, i <> (4 * ep + 1)%nat -> pma1 !! i = PMA (u_hw u) !! i).
  { intros i Hi. unfold pma1. rewrite I1. by apply list_lookup_insert_ne. }
  exists pma. intros u'. split_and!.
  - unfold usb_packet_write_from_buffer. rewrite run_gets. fold udp.
    rewrite (run_call _ _ _ _ _ (on_hw_run _ _ _ _ (pma_get_run _ _ _ ltac:(rewrite I0; exact Ea)))).
    replace (set_u_hw (fun _ => u_hw u) u) with u by by destruct u.
    rewrite (run_call _ _ _ _ _ (on_hw_run _ _ _ _ (pma_put_run _ _ (u_hw u) (proj1 Hud) (proj1 (proj2 Hud)) ltac:(lia)))).
    fold pma1. rewrite i32_id by lia. replace (Z.to_nat n) with (length bs) by (unfold n; lia).
    change (write_words a buf (length bs) u1 = Some (tt, u')). rewrite E. by destruct u as [? ? [] ?].
  - unfold tx_packet. change (USB_GET_DESCRIPTOR (u_hw u') ep) with udp. rewrite I0, I1.
    change (PMA (u_hw u')) with pma.
    assert (E0 : pma !! (4 * ep)%nat = Some a).
    { rewrite Ho, Hi1 by (lia || dlia). done. }
    assert (E1 : pma !! (4 * ep + 1)%nat = Some n).
    { rewrite Ho by dlia. unfold pma1. rewrite I1, list_lookup_insert_eq by dlia.
      unfold u16. by rewrite Z.mod_small by lia. }
    rewrite E0, E1. simpl. rewrite land_count by lia. unfold n. by rewrite Nat2Z.id.
  - split; try done.
    + intros r0 Hr0. by exists r0.
    + change (PMA (u_hw u')) with pma. rewrite Hlen. unfold pma1. apply length_insert.
    + intros i Hi Ha. change (PMA (u_hw u')) with pma. rewrite Ho; [by apply Hi1|]. fold n. dlia.
Qed.

Lemma epc_at_run u ep c r : endpoint u ep c r -> epc_at ep u = Some (c, u).
Proof. intros [E _ _ _]. unfold epc_at, deref. by rewrite E. Qed.
Lemma eps_at_run u st e : u_eps u !! st = Some e -> eps_at (Some st) u = Some (e, u).
Proof. intros E. unfold eps_at, deref. simpl. by rewrite E. Qed.
Lemma set_eps_run u st e f : u_eps u !! st = Some e ->
  set_eps (Some st) f u = Some (tt, set_u_eps (insert st (f e)) u).
Proof. intros E. unfold set_eps. msimpl. by rewrite (run_call _ _ _ _ _ (eps_at_run _ _ _ E)). Qed.

(** The packet [cur] waits for the host and [rest] is left, in the transfer with state [e]. *)
Record sending u ep c r st a (e : ep_state) (cur rest : list Z) : Prop := {
  s_ep : endpoint u ep c r;
  s_tx : tx_buffer u ep c st a;
  s_e : u_eps u !! st = Some e;
  s_last : st_last e = Z.of_nat (length cur);
  s_size : st_size e = st_cnt e + Z.of_nat (length cur) + Z.of_nat (length rest);
  s_cnt : 0 <= st_cnt e /\ st_size e < 2 ^ 32;
  s_buf : bytes_at u (st_buf e) (cur ++ rest);
  s_bytes : Forall (fun b => 0 <= b < 256) (cur ++ rest);
  s_max : Z.of_nat (length cur) <= in_maxsize c;
  s_full : rest <> [] -> Z.of_nat (length cur) = in_maxsize c;
  s_valid : Z.land r EPR_STAT_TX_MASK = EPR_STAT_TX_VALID;
  s_ctr : Z.land r EPR_CTR_MASK = 0;
  s_pkt : tx_packet ep (u_hw u) = Some cur
}.

Lemma sending_drv u u' ep c r st a e cur rest : u_hw u' = u_hw u -> u_eps u' = u_eps u ->
  epc (u_drv u') = epc (u_drv u) -> (forall o, object_bytes o u' = object_bytes o u) ->
  sending u ep c r st a e cur rest -> sending u' ep c r st a e cur rest.
Proof.
  intros E1 E2 E3 E4 [A1 [] A3 A4 A5 A6 A7 A8 A9 A10 A11 A12 A13]. split; try done.
  - eapply (endpoint_same u); by rewrite ?E1.
  - split; try done; by rewrite E1.
  - by rewrite E2.
  - destruct A7 as [?|(o & off & l & x & ? & ? & ?)]; [by left|]. right. exists o, off, l, x. by rewrite E4.
  - by rewrite E1.
Qed.

(** The host reads the packet. *)
Lemma host_in_run u ep c r st a e cur rest : sending u ep c r st a e cur rest ->
  on_hw (host_in ep) u = Some (cur, set_u_hw (put_epr ep (sie_in r)) u) /\
  is_in r (sie_in r) /\ tx_frame ep st a (in_maxsize c) u (set_u_hw (put_epr ep (sie_in r)) u).
Proof.
  intros Hs. destruct (s_ep _ _ _ _ _ _ _ _ _ Hs) as [_ _ He _].
  pose proof (sie_in_spec r (proj2 He)) as Hin. split_and!; [|done|].
  - erewrite on_hw_run; [by destruct u|]. unfold host_in.
    rewrite (run_call _ _ _ _ _ (EPR_get_run _ _ _ He)), (s_valid _ _ _ _ _ _ _ _ _ Hs). simpl.
    rewrite (run_deref _ _ _ _ (s_pkt _ _ _ _ _ _ _ _ _ Hs)). by destruct (u_hw u).
  - split; try done.
    + intros ep' Hn. cbn. by apply list_lookup_insert_ne.
    + intros r0 Hr0. destruct He as [E He], Hr0 as [E0 Hr0]. rewrite E in E0. injection E0 as <-.
      exists (sie_in r). split; [by eapply epr_is_put; [|apply Hin]|].
      destruct Hin as [Hr' Hin]. generalize dependent (sie_in r). intros r' Hr' Hin.
      unfold same_bits, with_bits in *. clear E Hs. bits16.
Qed.

(** A change of the register of the endpoint in the bits of this direction. *)
Lemma tx_frame_epr u ep c r st a size r' : endpoint u ep c r -> 0 <= r' < 2 ^ 16 -> same_bits 0xFF0F r' r ->
  tx_frame ep st a size u (set_u_hw (put_epr ep r') u) /\
  endpoint (set_u_hw (put_epr ep r') u) ep c r'.
Proof.
  intros [Ec Hm He Ht] Hr Hb. split.
  - split; try done.
    + intros ep' Hn. cbn. by apply list_lookup_insert_ne.
    + intros r0 Hr0. destruct He as [E He], Hr0 as [E0 Hr0]. rewrite E in E0. injection E0 as <-.
      exists r'. split; [by eapply epr_is_put|done].
  - split; try done. by eapply epr_is_put.
Qed.
(** A change of the state of the endpoint. *)
Lemma tx_frame_eps u ep c r st a size f e : endpoint u ep c r -> u_eps u !! st = Some e ->
  tx_frame ep st a size u (set_u_eps (insert st (f e)) u) /\
  endpoint (set_u_eps (insert st (f e)) u) ep c r.
Proof.
  intros [Ec Hm He Ht] Ee. split; [|done]. split; try done.
  - intros st' Hn. cbn. by apply lookup_insert_ne.
  - by destruct u as [? ? [] ?].
  - intros r0 Hr0. by exists r0.
Qed.

Lemma with_bits_land m v r : 0 <= m < 2 ^ 16 -> v = Z.land v m -> Z.land (with_bits m v r) m = v.
Proof.
  intros Hm Hv. unfold with_bits. apply Z.bits_inj'. intros i Hi.
  apply (f_equal (fun z => Z.testbit z i)) in Hv. cbv beta in Hv.
  rewrite !Z.land_spec, Z.lor_spec, !Z.land_spec, Z.lxor_spec in *.
  destruct (Z_lt_le_dec i 16) as [Hl|Hl].
  - assert (Z.testbit 0xFFFF i = true) as ->.
    { change 0xFFFF with (Z.ones 16). by apply Z.ones_spec_low. }
    destruct (Z.testbit m i), (Z.testbit r i), (Z.testbit v i); done.
  - rewrite (bits_above16 m) in * by done. by rewrite andb_false_r in *.
Qed.

Lemma same_bits_refl m r : same_bits m r r.
Proof. done. Qed.

(** The packet is written and the endpoint made valid. *)
Lemma push_packet u ep c r st a e cur rest : endpoint u ep c r -> tx_buffer u ep c st a ->
  u_eps u !! st = Some e -> st_last e = Z.of_nat (length cur) ->
  st_size e = st_cnt e + Z.of_nat (length cur) + Z.of_nat (length rest) ->
  0 <= st_cnt e /\ st_size e < 2 ^ 32 -> bytes_at u (st_buf e) (cur ++ rest) ->
  Forall (fun b => 0 <= b < 256) (cur ++ rest) -> Z.of_nat (length cur) <= in_maxsize c ->
  (rest <> [] -> Z.of_nat (length cur) = in_maxsize c) -> Z.land r EPR_CTR_MASK = 0 ->
  exists u1 u2, usb_packet_write_from_buffer ep (st_buf e) (Z.of_nat (length cur)) u = Some (tt, u1) /\
    on_hw (EPR_SET_STAT_TX ep EPR_STAT_TX_VALID) u1 = Some (tt, u2) /\
    sending u2 ep c (with_bits EPR_STAT_TX_MASK EPR_STAT_TX_VALID r) st a e cur rest /\
    tx_frame ep st a (in_maxsize c) u u2.
Proof.
  intros He Ht Ee Hlast Hsize Hcnt Hbuf Hby Hmax Hfull Hctr.
  assert (Hcur : bytes_at u (st_buf e) cur).
  { destruct Hbuf as [Hn|(o & off & l & x & Ep & El & Ed)]; [left; by destruct cur|].
    right. exists o, off, l, (rest ++ x). by rewrite app_assoc. }
  destruct (write_packet u ep c r st a (st_buf e) cur He Ht Hcur) as (pma & E1 & Hpkt & Hf1);
    [by apply Forall_app in Hby as [? _]|done|].
  set (u1 := set_u_hw (set_PMA (fun _ => pma)) u) in *.
  assert (He1 : endpoint u1 ep c r) by by eapply (endpoint_same u).
  set (r2 := with_bits EPR_STAT_TX_MASK EPR_STAT_TX_VALID r).
  assert (Hr2 : 0 <= r2 < 2 ^ 16) by (apply with_bits_same; [done|apply (e_epr _ _ _ _ He)]).
  assert (Hb2 : same_bits 0xFF0F r2 r).
  { destruct (e_epr _ _ _ _ He) as [_ Hr]. unfold r2, same_bits, with_bits. clear -Hr. bits16. }
  destruct (tx_frame_epr u1 ep c r st a (in_maxsize c) r2 He1 Hr2 Hb2) as [Hf2 He2].
  exists u1, (set_u_hw (put_epr ep r2) u1). split; [done|]. split.
  { erewrite on_hw_run; [by destruct u as [? ? [] ?]|].
    by apply EPR_SET_STAT_TX_run; [apply He1|]. }
  split; [|by etrans].
  split; try done.
  - destruct Ht as [T1 T2 T3 T4 T5 T6]. split; try done.
    + change (PMA (u_hw (set_u_hw (put_epr ep r2) u1))) with (PMA (u_hw u1)).
      rewrite (tf_pma _ _ _ _ _ _ Hf1); [done|lia|].
      pose proof (e_max _ _ _ _ He). unfold USB_MAX_ENDPOINTS, USB_ENDOPOINTS_NUMBER in *. dlia.
    + change (length (PMA (u_hw (set_u_hw (put_epr ep r2) u1)))) with (length (PMA (u_hw u1))).
      by rewrite (tf_len _ _ _ _ _ _ Hf1).
  - unfold r2. by apply with_bits_land.
  - destruct (e_epr _ _ _ _ He) as [_ Hr]. unfold r2, with_bits. clear -Hr Hctr. bits16.
Qed.

Lemma tx_buffer_frame u u' ep c st a : (ep <= USB_MAX_ENDPOINTS)%nat ->
  tx_buffer u ep c st a -> tx_frame ep st a (in_maxsize c) u u' -> tx_buffer u' ep c st a.
Proof.
  intros He [T1 T2 T3 T4 T5 T6] Hf. split; try done.
  - rewrite (tf_pma _ _ _ _ _ _ Hf); [done|lia|].
    unfold USB_MAX_ENDPOINTS, USB_ENDOPOINTS_NUMBER in *. dlia.
  - by rewrite (tf_len _ _ _ _ _ _ Hf).
Qed.

Lemma bytes_at_frame u u' ep st a size p bs : tx_frame ep st a size u u' -> bytes_at u p bs -> bytes_at u' p bs.
Proof.
  intros Hf [->|(o & off & l & x & -> & El & Ed)]; [by left|]. right. exists o, off, l, x.
  split; [done|]. split; [|done]. destruct o; simpl in *; rewrite ?(tf_drv _ _ _ _ _ _ Hf), ?(tf_mem _ _ _ _ _ _ Hf); done.
Qed.

Lemma bytes_at_add u p bs bs' : bytes_at u p (bs ++ bs') -> bytes_at u (ptr_add p (length bs)) bs'.
Proof.
  intros [En|(o & off & l & x & -> & El & Ed)]; [left; by destruct bs, bs'|]. right.
  exists o, (off + length bs)%nat, l, x. split; [done|]. split; [done|].
  by rewrite <- drop_drop, Ed, <- app_assoc, drop_app_length.
Qed.

(** After the last packet. *)
Record sent u ep c r st a (e : ep_state) : Prop := {
  n_ep : endpoint u ep c r;
  n_tx : tx_buffer u ep c st a;
  n_e : u_eps u !! st = Some e;
  n_all : st_cnt e = st_size e;
  n_nak : Z.land r EPR_STAT_TX_MASK = EPR_STAT_TX_NAK;
  n_ctr : Z.land r EPR_CTR_MASK = 0
}.

(** The interrupt of a packet the host has read: the next packet, or the end of the transfer. *)
Lemma next_in_run u ep c r st a e cur rest : sending u ep c r st a e cur rest ->
  exists u2 r2 e2, next_in ep c (set_u_hw (put_epr ep (sie_in r)) u) =
      Some (if rest is [] then false else true, u2) /\
    tx_frame ep st a (in_maxsize c) u u2 /\ st_size e2 = st_size e /\
    if rest is [] then sent u2 ep c r2 st a e2
    else sending u2 ep c r2 st a e2 (take (Z.to_nat (in_maxsize c)) rest) (drop (Z.to_nat (in_maxsize c)) rest).
Proof.
  intros Hs. destruct (host_in_run _ _ _ _ _ _ _ _ _ Hs) as (_ & [Hr' Hin] & Hf0).
  destruct Hs as [He Ht Ee Hlast Hsize Hcnt Hbuf Hby Hmax Hfull Hval Hctr _].
  set (r' := sie_in r) in *. set (u0 := set_u_hw (put_epr ep r') u) in *.
  assert (He0 : endpoint u0 ep c r').
  { destruct He as [A1 A2 A3 A4]. split; try done. by eapply epr_is_put. }
  set (r1 := with_bits EPR_CTR_TX 0 r').
  assert (Hr1 : 0 <= r1 < 2 ^ 16) by by apply with_bits_same.
  assert (Hrr : Z.land r1 EPR_CTR_MASK = 0 /\ Z.land r1 EPR_STAT_TX_MASK = EPR_STAT_TX_NAK /\
    same_bits 0xFF0F r1 r').
  { clear -Hr' Hin Hctr. unfold r1, same_bits, with_bits in *. clearbody r'. split_and!; bits16. }
  destruct Hrr as (Hc1 & Hn1 & Hb1).
  destruct (tx_frame_epr u0 ep c r' st a (in_maxsize c) r1 He0 Hr1 Hb1) as [Hf1 He1].
  set (u1 := set_u_hw (put_epr ep r1) u0) in *.
  set (f := fun isp => set_st_cnt (fun c => u32 (c + txlast isp)) isp).
  destruct (tx_frame_eps u1 ep c r1 st a (in_maxsize c) f e He1 Ee) as [Hf2 He2].
  set (u2 := set_u_eps (insert st (f e)) u1) in *.
  assert (Ee2 : u_eps u2 !! st = Some (f e)) by apply lookup_insert_eq.
  assert (Hcf : st_cnt (f e) = st_cnt e + Z.of_nat (length cur)).
  { unfold f, txlast. simpl. rewrite Hlast. apply u32_id. lia. }
  assert (Hfr : tx_frame ep st a (in_maxsize c) u u2) by (do 2 (etrans; [eassumption|]); done).
  assert (Hn : u32 (st_size (f e) - st_cnt (f e)) = Z.of_nat (length rest)).
  { rewrite Hcf. change (st_size (f e)) with (st_size e). rewrite u32_id; lia. }
  assert (Ht2 : tx_buffer u2 ep c st a) by (eapply tx_buffer_frame; [apply He|done..]).
  unfold next_in.
  rewrite (run_call _ _ _ _ _ (on_hw_run _ _ _ _ (EPR_CLEAR_CTR_TX_run _ _ _ (e_epr _ _ _ _ He0)))).
  replace (set_u_hw (fun _ => put_epr ep _ _) u0) with u1 by done.
  rewrite (tx_st _ _ _ _ _ Ht), (run_call _ _ _ _ _ (set_eps_run u1 st e f Ee)). fold u2.
  rewrite (run_call _ _ _ _ _ (eps_at_run _ _ _ Ee2)). rewrite Hn.
  destruct rest as [|x rest0] eqn:Erest.
  { exists u2, r1, (f e). split; [done|]. split; [done|]. split; [done|].
    split; try done. rewrite Hcf. change (st_size (f e)) with (st_size e). simpl in Hsize. lia. }
  set (max := Z.to_nat (in_maxsize c)). set (l := x :: rest0) in *.
  assert (Hmx : Z.of_nat max = in_maxsize c) by (pose proof (tx_size _ _ _ _ _ Ht); lia).
  assert (Hnn : (if in_maxsize c <? Z.of_nat (length l) then in_maxsize c else Z.of_nat (length l)) =
    Z.of_nat (length (take max l))).
  { rewrite length_take. destruct (Z.ltb_spec (in_maxsize c) (Z.of_nat (length l))); lia. }
  rewrite (proj2 (Z.ltb_lt 0 _)) by (unfold l; simpl; lia). rewrite Hnn.
  replace (Z.to_nat (txlast (f e))) with (length cur)
    by (unfold txlast, f; simpl; rewrite Hlast; lia).
  change (st_buf (f e)) with (st_buf e). set (buf := ptr_add (st_buf e) (length cur)).
  set (g := fun isp => set_st_last (fun _ => Z.of_nat (length (take max l))) (set_st_buf (fun _ => buf) isp)).
  rewrite (run_call _ _ _ _ _ (set_eps_run u2 st (f e) g Ee2)).
  destruct (tx_frame_eps u2 ep c r1 st a (in_maxsize c) g (f e) He2 Ee2) as [Hf3 He3].
  set (u3 := set_u_eps (insert st (g (f e))) u2) in *.
  destruct (push_packet u3 ep c r1 st a (g (f e)) (take max l) (drop max l)) as (u4 & u5 & E4 & E5 & Hs5 & Hf5).
  - done.
  - eapply tx_buffer_frame; [apply He|exact Ht2|exact Hf3].
  - apply lookup_insert_eq.
  - done.
  - change (st_size (g (f e))) with (st_size e). change (st_cnt (g (f e))) with (st_cnt (f e)).
    rewrite Hcf, Hsize, length_take, length_drop. lia.
  - change (st_size (g (f e))) with (st_size e). change (st_cnt (g (f e))) with (st_cnt (f e)). lia.
  - rewrite take_drop. change (st_buf (g (f e))) with buf. apply bytes_at_add.
    eapply bytes_at_frame; [etrans; [exact Hfr|exact Hf3]|done].
  - rewrite take_drop. by apply Forall_app in Hby as [_ ?].
  - rewrite length_take. lia.
  - intros Hd. rewrite length_take. assert (max < length l)%nat; [|lia].
    destruct (Nat.lt_ge_cases max (length l)); [done|]. by rewrite drop_ge in Hd by lia.
  - done.
  - rewrite (run_call _ _ _ _ _ E4 : _ = _), (run_call _ _ _ _ _ E5).
    exists u5, (with_bits EPR_STAT_TX_MASK EPR_STAT_TX_VALID r1), (g (f e)).
    split; [done|]. split; [|done]. etrans; [exact Hfr|]. by etrans.
Qed.

(** ** The interrupt *)

Lemma run_lift {A B} (m : M usb A) (k : A -> M S B) s a u : m (proj s) = Some (a, u) ->
  (liftM m ≫= k) s = k a (inj u s).
Proof. intros E. rewrite bind_run. unfold liftM. by rewrite E. Qed.

Lemma bind_ret_unit (m : M S unit) s : (m ≫= fun _ => mret tt) s = m s.
Proof. rewrite bind_run. by destruct (m s) as [[[] ?]|]. Qed.

Lemma inj_proj_eq s u : proj s = u -> inj u s = s.
Proof. intros <-. apply inj_proj. Qed.

(** Serving an endpoint the host has read a packet from. *)
Lemma serve_in s u ep c r st a e cur rest : sending u ep c r st a e cur rest ->
  proj s = set_u_hw (put_epr ep (sie_in r)) u ->
  exists u2 r2 e2, tx_frame ep st a (in_maxsize c) u u2 /\ st_size e2 = st_size e /\
    usb_serve_endpoints ep s =
      (if rest is [] then _usb_isr_invoke_in_cb ep (inj u2 s) else Some (tt, inj u2 s)) /\
    if rest is [] then sent u2 ep c r2 st a e2
    else sending u2 ep c r2 st a e2 (take (Z.to_nat (in_maxsize c)) rest) (drop (Z.to_nat (in_maxsize c)) rest).
Proof.
  intros Hs Hu. destruct (next_in_run _ _ _ _ _ _ _ _ _ Hs) as (u2 & r2 & e2 & E & Hf & He2 & Hend).
  exists u2, r2, e2. split; [done|]. split; [done|]. split; [|done].
  destruct (host_in_run _ _ _ _ _ _ _ _ _ Hs) as (_ & [Hr' Hin] & _).
  pose proof (s_ep _ _ _ _ _ _ _ _ _ Hs) as He. pose proof (s_ctr _ _ _ _ _ _ _ _ _ Hs) as Hctr.
  assert (Hepr : epr_is (u_hw (proj s)) ep (sie_in r)).
  { rewrite Hu. eapply epr_is_put; [apply He|done]. }
  assert (Hb : Z.land (sie_in r) EPR_CTR_TX = EPR_CTR_TX /\ Z.land (sie_in r) EPR_CTR_RX = 0).
  { clear -Hr' Hin Hctr. generalize dependent (sie_in r). intros r' Hr' Hin.
    unfold same_bits, with_bits in *. split; bits16. }
  destruct Hb as [Hb1 Hb2]. unfold usb_serve_endpoints.
  rewrite (run_lift _ _ _ _ _ (on_hw_run _ _ _ _ (EPR_get_run _ _ _ Hepr))).
  replace (set_u_hw (fun _ => u_hw (proj s)) (proj s)) with (proj s) by by destruct (proj s).
  rewrite inj_proj. rewrite (run_lift _ _ _ _ _ eq_refl), inj_proj, Hu.
  change (mjoin (epc (u_drv (set_u_hw (put_epr ep (sie_in r)) u)) !! ep)) with (mjoin (epc (u_drv u) !! ep)).
  rewrite (e_epc _ _ _ _ He), Hb1, Hb2. simpl negb. cbv iota.
  rewrite bind_ret_unit, run_deref with (a := c) by done.
  rewrite <- Hu in E. rewrite (run_lift _ _ _ _ _ E). by destruct rest.
Qed.

(** The host reads [k] packets, each followed by the interrupt of the device. *)
Fixpoint run_in (k ep : nat) : M S (list (list Z)) :=
  match k with
  | O => mret []
  | Datatypes.S k =>
      p ← liftM (on_hw (host_in ep));
      usb_serve_endpoints ep;;
      ps ← run_in k ep;
      mret (p :: ps)
  end.

Lemma run_in_ok k : forall s ep c r st a e cur rest, sending (proj s) ep c r st a e cur rest ->
  (length rest <= Z.to_nat (in_maxsize c) * k)%nat ->
  (forall k', k = Datatypes.S k' -> (Z.to_nat (in_maxsize c) * k' < length rest)%nat) ->
  exists ps u1 r1 e1 last, run_in k ep s = Some (ps, inj u1 s) /\ sending u1 ep c r1 st a e1 last [] /\
    ps ++ [last] = cut (Z.to_nat (in_maxsize c)) k (cur ++ rest) /\ st_size e1 = st_size e /\
    tx_frame ep st a (in_maxsize c) (proj s) u1.
Proof.
  induction k as [|k IH]; intros s ep c r st a e cur rest Hs Hl Hk.
  - assert (rest = []) as -> by (destruct rest; simpl in Hl; [done|lia]).
    exists [], (proj s), r, e, cur. rewrite app_nil_r. split; [by simpl; rewrite inj_proj|].
    split; [done|]. split; [done|]. split; [done|]. reflexivity.
  - specialize (Hk k eq_refl). set (max := Z.to_nat (in_maxsize c)) in *.
    destruct (host_in_run _ _ _ _ _ _ _ _ _ Hs) as (Eh & _ & _).
    set (u0 := set_u_hw (put_epr ep (sie_in r)) (proj s)) in *.
    destruct (serve_in (inj u0 s) _ _ _ _ _ _ _ _ _ Hs (proj_inj _ _)) as (u2 & r2 & e2 & Hf & He2 & E & Hs2).
    assert (Hne : rest <> []) by (intros ->; simpl in Hk; lia).
    assert (Hcur : length cur = max) by (pose proof (s_full _ _ _ _ _ _ _ _ _ Hs Hne); lia).
    assert (E' : usb_serve_endpoints ep (inj u0 s) = Some (tt, inj u2 s)).
    { rewrite E. destruct rest; [done|]. by rewrite inj_inj. }
    assert (Hs2' : sending u2 ep c r2 st a e2 (take max rest) (drop max rest)) by by destruct rest.
    rewrite <- (proj_inj u2 s) in Hs2'.
    destruct (IH _ _ _ _ _ _ _ _ _ Hs2') as (ps & u3 & r3 & e3 & last & E3 & Hs3 & Hps & He3 & Hf3).
    { rewrite length_drop. fold max. lia. }
    { intros k' ->. rewrite length_drop. fold max. lia. }
    exists (cur :: ps), u3, r3, e3, last. cbn [run_in].
    rewrite (run_lift _ _ _ _ _ Eh), (run_call _ _ _ _ _ E'), (run_call _ _ _ _ _ E3), inj_inj.
    split; [done|]. split; [done|]. split; [|split; [congruence|]].
    + simpl. rewrite Hps, take_drop. fold max. by rewrite <- Hcur, take_app_length, drop_app_length.
    + rewrite proj_inj in Hf3. by etrans.
Qed.

(** An endpoint that can start a transmission. *)
Record can_send u ep c r st a : Prop := {
  cs_ep : endpoint u ep c r;
  cs_tx : tx_buffer u ep c st a;
  cs_e : is_Some (u_eps u !! st);
  cs_ctr : Z.land r EPR_CTR_MASK = 0
}.

Definition mark_transmitting ep : usb -> usb := set_u_drv (set_transmitting (fun t => Z.lor t (u16 (bit ep)))).

Lemma start_transmit_at u ep c r st a buf bs : can_send u ep c r st a -> bytes_at u buf bs ->
  Forall (fun b => 0 <= b < 256) bs -> Z.of_nat (length bs) < 2 ^ 32 ->
  exists u1 r1 e1, usbStartTransmitI ep buf (Z.of_nat (length bs)) u = Some (tt, u1) /\
    sending u1 ep c r1 st a e1 (take (Z.to_nat (in_maxsize c)) bs) (drop (Z.to_nat (in_maxsize c)) bs) /\
    st_size e1 = Z.of_nat (length bs) /\ st_buf e1 = buf /\
    tx_frame ep st a (in_maxsize c) (mark_transmitting ep u) u1.
Proof.
  intros [He Ht [e Ee] Hctr] Hbuf Hby Hlen. set (u0 := mark_transmitting ep u).
  set (max := Z.to_nat (in_maxsize c)).
  assert (Hmx : Z.of_nat max = in_maxsize c) by (pose proof (tx_size _ _ _ _ _ Ht); lia).
  assert (He0 : endpoint u0 ep c r) by by eapply (endpoint_same u).
  set (f := fun isp => set_st_cnt (fun _ => 0) (set_st_size (fun _ => Z.of_nat (length bs)) (set_st_buf (fun _ => buf) isp))).
  destruct (tx_frame_eps u0 ep c r st a (in_maxsize c) f e He0 Ee) as [Hf1 He1].
  set (u1 := set_u_eps (insert st (f e)) u0) in *.
  assert (Ee1 : u_eps u1 !! st = Some (f e)) by apply lookup_insert_eq.
  assert (Hnn : (if in_maxsize c <? Z.of_nat (length bs) then in_maxsize c else Z.of_nat (length bs)) =
    Z.of_nat (length (take max bs))).
  { rewrite length_take. destruct (Z.ltb_spec (in_maxsize c) (Z.of_nat (length bs))); lia. }
  set (g := set_st_last (fun _ => Z.of_nat (length (take max bs)))).
  destruct (tx_frame_eps u1 ep c r st a (in_maxsize c) g (f e) He1 Ee1) as [Hf2 He2].
  set (u2 := set_u_eps (insert st (g (f e))) u1) in *.
  destruct (push_packet u2 ep c r st a (g (f e)) (take max bs) (drop max bs)) as (u3 & u4 & E3 & E4 & Hs & Hf3).
  - done.
  - by destruct Ht.
  - apply lookup_insert_eq.
  - done.
  - change (st_size (g (f e))) with (Z.of_nat (length bs)). change (st_cnt (g (f e))) with 0.
    rewrite length_take, length_drop. lia.
  - change (st_size (g (f e))) with (Z.of_nat (length bs)). change (st_cnt (g (f e))) with 0. lia.
  - rewrite take_drop. eapply bytes_at_frame; [by etrans; [exact Hf1|exact Hf2]|].
    destruct Hbuf as [->|(o & off & l & x & -> & El & Ed)]; [by left|]. right. exists o, off, l, x.
    split; [done|]. split; [|done]. by destruct o.
  - by rewrite take_drop.
  - rewrite length_take. lia.
  - intros Hd. rewrite length_take. assert (max < length bs)%nat; [|lia].
    destruct (Nat.lt_ge_cases max (length bs)); [done|]. by rewrite drop_ge in Hd by lia.
  - done.
  - exists u4, (with_bits EPR_STAT_TX_MASK EPR_STAT_TX_VALID r), (g (f e)).
    unfold usbStartTransmitI, set_drv. rewrite run_modify. change (set_u_drv _ u) with u0.
    rewrite (run_call _ _ _ _ _ (epc_at_run _ _ _ _ He0)), (tx_st _ _ _ _ _ Ht).
    rewrite (run_call _ _ _ _ _ (set_eps_run u0 st e f Ee)). fold u1.
    unfold usb_lld_start_in. rewrite (run_call _ _ _ _ _ (epc_at_run _ _ _ _ He1)), (tx_st _ _ _ _ _ Ht).
    rewrite (run_call _ _ _ _ _ (eps_at_run u1 st (f e) Ee1)).
    change (st_size (f e)) with (Z.of_nat (length bs)). rewrite Hnn.
    rewrite (run_call _ _ _ _ _ (set_eps_run u1 st (f e) g Ee1)). fold u2.
    change (st_buf (f e)) with (st_buf (g (f e))). rewrite (run_call _ _ _ _ _ E3).
    do 4 (split; [done|]). by do 2 (etrans; [eassumption|]).
Qed.

Lemma start_transmit_ok u ep c r st a buf bs : can_send u ep c r st a -> bytes_at u buf bs ->
  Forall (fun b => 0 <= b < 256) bs -> Z.of_nat (length bs) < 2 ^ 32 ->
  exists u1 r1 e1, usbStartTransmitI ep buf (Z.of_nat (length bs)) u = Some (tt, u1) /\
    sending u1 ep c r1 st a e1 (take (Z.to_nat (in_maxsize c)) bs) (drop (Z.to_nat (in_maxsize c)) bs) /\
    st_size e1 = Z.of_nat (length bs) /\ tx_frame ep st a (in_maxsize c) (mark_transmitting ep u) u1.
Proof.
  intros Hc Hbuf Hby Hlen.
  destruct (start_transmit_at _ _ _ _ _ _ _ _ Hc Hbuf Hby Hlen) as (u1 & r1 & e1 & ? & ? & ? & _ & ?). by exists u1, r1, e1.
Qed.

Lemma sending_run s ep c r st a e bs : let max := Z.to_nat (in_maxsize c) in
  sending (proj s) ep c r st a e (take max bs) (drop max bs) ->
  exists ps last s1 s2 u2 r2 e2, run_in ((length bs - 1) / max) ep s = Some (ps, s1) /\
    liftM (on_hw (host_in ep)) s1 = Some (last, s2) /\ ps ++ [last] = packets max bs /\
    usb_serve_endpoints ep s2 = _usb_isr_invoke_in_cb ep (inj u2 s) /\
    sent u2 ep c r2 st a e2 /\ st_size e2 = st_size e /\ tx_frame ep st a (in_maxsize c) (proj s) u2.
Proof.
  intros max Hs1. assert (Hmx : (0 < max)%nat) by (pose proof (tx_size _ _ _ _ _ (s_tx _ _ _ _ _ _ _ _ _ Hs1)); lia).
  pose proof (Nat.div_mod (length bs - 1) max ltac:(lia)) as Hd.
  pose proof (Nat.mod_upper_bound (length bs - 1) max ltac:(lia)) as Hm.
  destruct (run_in_ok ((length bs - 1) / max) _ _ _ _ _ _ _ _ _ Hs1) as (ps & u2 & r2 & e2 & last & E2 & Hs2 & Hps & Hz2 & Hf2).
  { rewrite length_drop. fold max. nia. }
  { intros k' Hk. rewrite length_drop. fold max. rewrite Hk in Hd. nia. }
  destruct (host_in_run _ _ _ _ _ _ _ _ _ Hs2) as (Eh & _ & _). set (u3 := set_u_hw _ u2) in *.
  destruct (serve_in (inj u3 s) _ _ _ _ _ _ _ _ _ Hs2 (proj_inj _ _)) as (u4 & r4 & e4 & Hf4 & Hz4 & E4 & Hend).
  fold max in Hps. rewrite take_drop in Hps.
  exists ps, last, (inj u2 s), (inj u3 s), u4, r4, e4. split_and!; try done.
  - unfold liftM. rewrite proj_inj, Eh. by rewrite inj_inj.
  - rewrite E4. by rewrite inj_inj.
  - congruence.
  - by etrans.
Qed.

(** C22: A transfer of [n] bytes over an IN endpoint: the host reads exactly the bytes of the buffer, in
    packets that are as large as the endpoint allows except the last one; the interrupts in between
    invoke no callback, the one after the last packet invokes the callback of the endpoint, in a
    state that counts all bytes as sent. *)
Theorem transmit_ok s ep c r st a buf bs : can_send (proj s) ep c r st a -> bytes_at (proj s) buf bs ->
  Forall (fun b => 0 <= b < 256) bs -> Z.of_nat (length bs) < 2 ^ 32 ->
  exists ps last s1 s2 u2 r2 e2,
    (liftM (usbStartTransmitI ep buf (Z.of_nat (length bs)));;
     run_in ((length bs - 1) / Z.to_nat (in_maxsize c)) ep) s = Some (ps, s1) /\
    liftM (on_hw (host_in ep)) s1 = Some (last, s2) /\
    ps ++ [last] = packets (Z.to_nat (in_maxsize c)) bs /\ concat (ps ++ [last]) = bs /\
    usb_serve_endpoints ep s2 = _usb_isr_invoke_in_cb ep (inj u2 s) /\
    sent u2 ep c r2 st a e2 /\ st_size e2 = Z.of_nat (length bs) /\
    tx_frame ep st a (in_maxsize c) (mark_transmitting ep (proj s)) u2.
Proof.
  intros Hc Hbuf Hby Hlen.
  destruct (start_transmit_ok _ _ _ _ _ _ _ _ Hc Hbuf Hby Hlen) as (u1 & r1 & e1 & E1 & Hs1 & Hz1 & Hf1).
  rewrite <- (proj_inj u1 s) in Hs1.
  destruct (sending_run _ _ _ _ _ _ _ _ Hs1) as (ps & last & s1 & s2 & u2 & r2 & e2 & E2 & Eh & Hps & E3 & Hend & Hz & Hf).
  rewrite proj_inj in Hf. rewrite inj_inj in E3. exists ps, last, s1, s2, u2, r2, e2. split_and!; try done.
  - by rewrite (run_lift _ _ _ _ _ E1).
  - rewrite Hps. apply cut_concat.
  - congruence.
  - by etrans.
Qed.

(** ** Reception *)

Record rx_buffer u ep (c : USBEndpointConfig) (st : nat) (a : Z) : Prop := {
  rx_st : out_state c = Some st;
  rx_size : 0 < out_maxsize c < 1024;
  rx_addr : PMA (u_hw u) !! (4 * ep + 2)%nat = Some a;
  rx_low : 64 <= a;
  rx_even : a mod 2 = 0;
  rx_high : a + out_maxsize c <= 2 * Z.of_nat (length (PMA (u_hw u)))
}.

(** What a reception may change, apart from the buffers of the program. *)
Record rx_frame ep (st : nat) (a size : Z) u u' : Prop := {
  rf_drv : u_drv u' = u_drv u;
  rf_eps st' : st' <> st -> u_eps u' !! st' = u_eps u !! st';
  rf_regs : u_hw u' = set_PMA (fun _ => PMA (u_hw u')) (set_EPR (fun _ => EPR (u_hw u')) (u_hw u));
  rf_epr ep' : ep' <> ep -> EPR (u_hw u') !! ep' = EPR (u_hw u) !! ep';
  rf_ep r : epr_is (u_hw u) ep r -> exists r', epr_is (u_hw u') ep r' /\ same_bits 0x07FF r' r;
  rf_len : length (PMA (u_hw u')) = length (PMA (u_hw u));
  rf_pma i : i <> (4 * ep + 3)%nat -> ~ (a / 2 <= Z.of_nat i < (a + size + 1) / 2) ->
    PMA (u_hw u') !! i = PMA (u_hw u) !! i
}.

#[global] Instance rx_frame_refl ep st a size : Reflexive (rx_frame ep st a size).
Proof. intros u. split; try done; [by destruct (u_hw u)|]. intros r Hr. by exists r. Qed.

#[global] Instance rx_frame_trans ep st a size : Transitive (rx_frame ep st a size).
Proof.
  intros u1 u2 u3 [D1 E1 R1 P1 O1 L1 A1] [D2 E2 R2 P2 O2 L2 A2]. split; try congruence.
  - intros st' Hn. by rewrite E2, E1.
  - rewrite R2, R1. done.
  - intros ep' Hn. by rewrite P2, P1.
  - intros r Hr. destruct (O1 r Hr) as (r' & Hr' & B1). destruct (O2 r' Hr') as (r'' & Hr'' & B2).
    exists r''. split; [done|]. unfold same_bits in *. congruence.
  - intros i Hi Ha. by rewrite A2, A1.
Qed.

Lemma descriptor_rx u ep : BTABLE (u_hw u) = 0 ->
  Z.to_nat (RXADDR0 (USB_GET_DESCRIPTOR (u_hw u) ep) / 2) = (4 * ep + 2)%nat /\
  Z.to_nat (RXCOUNT0 (USB_GET_DESCRIPTOR (u_hw u) ep) / 2) = (4 * ep + 3)%nat.
Proof. intros Ht. unfold RXADDR0, RXCOUNT0, USB_GET_DESCRIPTOR. rewrite Ht. split; dlia. Qed.

(** The place of a buffer of the program, and its contents after [bs] was stored there. *)
Definition room u (p : ptr) (n : nat) : Prop :=
  n = O \/ exists m off l, p = at_ (o_mem m) off /\ u_mem u !! m = Some l /\ (off + n <= length l)%nat.
Definition stored (p : ptr) (bs : list Z) (mem : gmap nat (list Z)) : gmap nat (list Z) :=
  match p with
  | at_ (o_mem m) off =>
      match mem !! m with Some l => <[m := list_inserts off bs l]> mem | None => mem end
  | _ => mem
  end.

Lemma stored_nil p mem : stored p [] mem = mem.
Proof.
  destruct p as [|[] off]; try done. simpl. destruct (mem !! a) eqn:E; [|done]. by apply insert_id.
Qed.

Lemma stored_app p bs bs' mem : stored p (bs ++ bs') mem = stored (ptr_add p (length bs)) bs' (stored p bs mem).
Proof.
  destruct p as [|[] off]; try done. simpl. destruct (mem !! a) as [l|] eqn:E; [|by rewrite E].
  rewrite lookup_insert_eq, insert_insert_eq, list_inserts_app_l. do 2 f_equal. lia.
Qed.

Lemma room_stored u u' p bs n : room u p (length bs + n) -> u_mem u' = stored p bs (u_mem u) ->
  room u' (ptr_add p (length bs)) n.
Proof.
  intros [Hn|(m & off & l & -> & El & Hl)] Hm; [left; lia|]. right. simpl in Hm. rewrite El in Hm.
  exists m, (off + length bs)%nat, (list_inserts off bs l). split; [done|]. rewrite Hm, lookup_insert_eq.
  split; [done|]. rewrite length_inserts. lia.
Qed.

(** A packet in the packet memory is moved to the buffer. *)
Lemma read_packet u ep c r st a p bs w : endpoint u ep c r -> rx_buffer u ep c st a ->
  room u p (length bs) -> PMA (u_hw u) !! (4 * ep + 3)%nat = Some w ->
  Z.land w RXCOUNT_COUNT_MASK = Z.of_nat (length bs) ->
  pma_bytes (PMA (u_hw u)) a (length bs) = Some bs ->
  usb_packet_read_to_buffer ep p u =
    Some (Z.of_nat (length bs), set_u_mem (stored p bs) u).
Proof.
  intros [_ _ _ Ht] [_ _ Ea Hlo Hm _] Hr Ew Hw Hb. destruct (descriptor_rx u ep Ht) as [I2 I3].
  unfold usb_packet_read_to_buffer. rewrite run_gets. set (udp := USB_GET_DESCRIPTOR (u_hw u) ep) in *.
  rewrite (run_call _ _ _ _ _ (on_hw_run _ _ _ _ (pma_get_run _ _ _ ltac:(rewrite I2; exact Ea)))).
  replace (set_u_hw (fun _ => u_hw u) u) with u by by destruct u.
  rewrite (run_call _ _ _ _ _ (on_hw_run _ _ _ _ (pma_get_run _ _ _ ltac:(rewrite I3; exact Ew)))).
  replace (set_u_hw (fun _ => u_hw u) u) with u by by destruct u.
  rewrite Hw, Nat2Z.id. destruct Hr as [Hn|(m & off & l & -> & El & Hl)].
  { destruct bs; [|done]. simpl read_words. rewrite run_ret. unfold mret, M_ret. do 2 f_equal.
    destruct u; unfold set_u_mem; simpl. by rewrite stored_nil. }
  destruct (read_words_run bs a (o_mem m) off l u) as (u' & E & Hu'); try done; [lia|].
  rewrite (run_call _ _ _ _ _ E). unfold mret, M_ret. do 2 f_equal.
  destruct Hu' as [[-> ->]|Hu'].
  - destruct u; unfold set_u_mem; simpl. by rewrite <- (stored_nil (at_ (o_mem m) off)) at 1.
  - simpl in Hu'. injection Hu' as <-. destruct u; unfold set_u_mem; simpl in *. by rewrite El.
Qed.

(** The endpoint waits for [k] packets, the next one into [p]. *)
Record awaiting u ep c r st a (e : ep_state) (p : ptr) (k : Z) : Prop := {
  a_ep : endpoint u ep c r;
  a_rx : rx_buffer u ep c st a;
  a_count : is_Some (PMA (u_hw u) !! (4 * ep + 3)%nat);
  a_e : u_eps u !! st = Some e;
  a_buf : st_buf e = p;
  a_pkts : rxpkts e = k;
  a_some : 1 <= k;
  a_valid : Z.land r EPR_STAT_RX_MASK = EPR_STAT_RX_VALID;
  a_ctr : Z.land r EPR_CTR_MASK = 0
}.

(** A packet [pkt] is in the packet memory. *)
Record holding u ep a (pkt : list Z) : Prop := {
  h_bytes : pma_bytes (PMA (u_hw u)) a (length pkt) = Some pkt;
  h_count : exists w, PMA (u_hw u) !! (4 * ep + 3)%nat = Some w /\
    Z.land w RXCOUNT_COUNT_MASK = Z.of_nat (length pkt)
}.

Lemma u16_count w : Z.land (u16 w) RXCOUNT_COUNT_MASK = Z.land w RXCOUNT_COUNT_MASK.
Proof.
  unfold u16, RXCOUNT_COUNT_MASK. change 0x3FF with (Z.ones 10). rewrite !Z.land_ones by lia. dlia.
Qed.

(** The engine stores a packet. *)
Lemma rx_packet_run u ep c r st a pkt : endpoint u ep c r -> rx_buffer u ep c st a ->
  is_Some (PMA (u_hw u) !! (4 * ep + 3)%nat) ->
  Z.of_nat (length pkt) <= out_maxsize c -> Forall (fun b => 0 <= b < 256) pkt ->
  exists pma, rx_packet ep pkt (u_hw u) = Some (tt, set_PMA (fun _ => pma) (u_hw u)) /\
    holding (set_u_hw (set_PMA (fun _ => pma)) u) ep a pkt /\
    length pma = length (PMA (u_hw u)) /\
    (forall i, i <> (4 * ep + 3)%nat -> ~ (a / 2 <= Z.of_nat i < (a + out_maxsize c + 1) / 2) ->
      pma !! i = PMA (u_hw u) !! i).
Proof.
  intros [_ He _ Ht] [_ Hs Ea Hlo Hm Hhi] [w Ew] Hl Hb. destruct (descriptor_rx u ep Ht) as [I2 I3].
  unfold USB_MAX_ENDPOINTS, USB_ENDOPOINTS_NUMBER in He.
  unfold rx_packet. rewrite run_gets. set (udp := USB_GET_DESCRIPTOR (u_hw u) ep) in *.
  rewrite (run_call _ _ _ _ _ (pma_get_run _ _ _ ltac:(rewrite I2; exact Ea))).
  rewrite (run_call _ _ _ _ _ (pma_get_run _ _ _ ltac:(rewrite I3; exact Ew))).
  rewrite run_modify.
  destruct (sie_store_spec a pkt (PMA (u_hw u)) ltac:(lia) Hm ltac:(lia) Hb) as [Hp [Hlen Ho]].
  set (pma1 := sie_store a pkt (PMA (u_hw u))) in *.
  assert (Hud : 0 <= RXCOUNT0 udp /\ RXCOUNT0 udp mod 2 = 0 /\ RXCOUNT0 udp < 64).
  { unfold RXCOUNT0, udp, USB_GET_DESCRIPTOR. rewrite Ht. dlia. }
  rewrite pma_put_run; [|lia|lia|simpl; fold pma1; lia].
  set (v := u16 (sie_count w _)). simpl PMA. fold pma1. rewrite I3.
  assert (Hout : outside (RXCOUNT0 udp) 1 pma1 (<[(4 * ep + 3)%nat := v]> pma1)).
  { split; [apply length_insert|]. intros i Hi. apply list_lookup_insert_ne.
    unfold RXCOUNT0, udp, USB_GET_DESCRIPTOR in Hi. rewrite Ht in Hi. dlia. }
  exists (<[(4 * ep + 3)%nat := v]> pma1). split; [done|]. split; [split|split].
  - simpl. rewrite (pma_bytes_outside (RXCOUNT0 udp) 1 pma1); [done|lia|done|lia|]. right. dlia.
  - exists v. split; [apply list_lookup_insert_eq; dlia|]. unfold v. rewrite u16_count.
    apply sie_count_spec. lia.
  - rewrite length_insert. done.
  - intros i Hi Ha. rewrite list_lookup_insert_ne by done. apply Ho. dlia.
Qed.

Lemma rx_frame_epr u ep c r st a size r' : endpoint u ep c r -> 0 <= r' < 2 ^ 16 -> same_bits 0x07FF r' r ->
  rx_frame ep st a size u (set_u_hw (put_epr ep r') u) /\
  endpoint (set_u_hw (put_epr ep r') u) ep c r'.
Proof.
  intros [Ec Hm He Ht] Hr Hb. split.
  - split; try done.
    + intros ep' Hn. cbn. by apply list_lookup_insert_ne.
    + intros r0 Hr0. destruct He as [E He], Hr0 as [E0 Hr0]. rewrite E in E0. injection E0 as <-.
      exists r'. split; [by eapply epr_is_put|done].
  - split; try done. by eapply epr_is_put.
Qed.

Lemma rx_buffer_frame u u' ep c st a : (ep <= USB_MAX_ENDPOINTS)%nat ->
  rx_buffer u ep c st a -> rx_frame ep st a (out_maxsize c) u u' -> rx_buffer u' ep c st a.
Proof.
  intros He [T1 T2 T3 T4 T5 T6] Hf. split; try done.
  - rewrite (rf_pma _ _ _ _ _ _ Hf); [done|lia|].
    unfold USB_MAX_ENDPOINTS, USB_ENDOPOINTS_NUMBER in *. dlia.
  - by rewrite (rf_len _ _ _ _ _ _ Hf).
Qed.

(** The host sends a packet. *)
Lemma host_out_run u ep c r st a e p k pkt : awaiting u ep c r st a e p k ->
  Z.of_nat (length pkt) <= out_maxsize c -> Forall (fun b => 0 <= b < 256) pkt ->
  exists u', on_hw (host_out ep pkt) u = Some (tt, u') /\ endpoint u' ep c (sie_out r) /\
    is_out r (sie_out r) /\ holding u' ep a pkt /\ rx_frame ep st a (out_maxsize c) u u' /\
    u_mem u' = u_mem u /\ u_eps u' = u_eps u.
Proof.
  intros [He Hrx Hc Ee _ _ _ Hv Hctr] Hl Hb. pose proof (sie_out_spec r (proj2 (e_epr _ _ _ _ He))) as Hout.
  destruct (rx_packet_run u ep c r st a pkt He Hrx Hc Hl Hb) as (pma & E & Hh & Hlen & Hpma).
  set (u1 := set_u_hw (set_PMA (fun _ => pma)) u) in *.
  assert (He1 : endpoint u1 ep c r) by by eapply (endpoint_same u).
  assert (Hb1 : same_bits 0x07FF (sie_out r) r).
  { destruct Hout as [Hr' Hout], (e_epr _ _ _ _ He) as [_ Hr]. generalize dependent (sie_out r).
    intros r' Hr' Hout. clear -Hr Hr' Hout. unfold same_bits, with_bits in *. bits16. }
  destruct (rx_frame_epr u1 ep c r st a (out_maxsize c) (sie_out r) He1 (proj1 Hout) Hb1) as [Hf2 He2].
  exists (set_u_hw (put_epr ep (sie_out r)) u1). split_and!; try done.
  - erewrite on_hw_run; [by destruct u as [? ? [] ?]|]. unfold host_out.
    rewrite (run_call _ _ _ _ _ (EPR_get_run _ _ _ (e_epr _ _ _ _ He))), Hv. simpl.
    by rewrite (run_call _ _ _ _ _ E).
  - destruct Hh as [B1 B2]. exact (Build_holding (set_u_hw (put_epr ep (sie_out r)) u1) ep a pkt B1 B2).
  - etrans; [|exact Hf2]. split; try done. intros r0 Hr0. by exists r0.
Qed.

(** The state of the endpoint after a packet of [n] bytes. *)
Definition rx_step (n : Z) (osp : ep_state) : ep_state :=
  set_rxpkts (fun k => u16 (k - 1)) (set_st_size (fun z => u32 (z - n))
    (set_st_cnt (fun z => u32 (z + n)) (set_st_buf (fun p => ptr_add p (Z.to_nat n)) osp))).

Lemma rxpkts_step n osp : 1 <= rxpkts osp -> rxpkts (rx_step n osp) = rxpkts osp - 1.
Proof.
  unfold rx_step, rxpkts, set_rxpkts. simpl. set (w := st_last osp). intros Hk.
  unfold u16 in *. dlia.
Qed.

(** The interrupt of a packet of the host, its flag cleared: the packet is in the buffer, and the transfer
    is over after a short packet or the last one. *)
Lemma next_out_run u ep c r st a e p k pkt : endpoint u ep c r -> rx_buffer u ep c st a ->
  holding u ep a pkt -> u_eps u !! st = Some e -> st_buf e = p -> rxpkts e = k -> 1 <= k ->
  room u p (length pkt) -> Z.of_nat (length pkt) <= out_maxsize c -> Z.land r EPR_CTR_MASK = 0 ->
  exists u2 r2, let e2 := rx_step (Z.of_nat (length pkt)) e in
    next_out ep c u = Some (negb ((Z.of_nat (length pkt) <? out_maxsize c) || (k =? 1)), u2) /\
    rx_frame ep st a (out_maxsize c) u u2 /\ u_mem u2 = stored p pkt (u_mem u) /\
    endpoint u2 ep c r2 /\ u_eps u2 !! st = Some e2 /\ Z.land r2 EPR_CTR_MASK = 0 /\
    if (Z.of_nat (length pkt) <? out_maxsize c) || (k =? 1) then True
    else awaiting u2 ep c r2 st a e2 (ptr_add p (length pkt)) (k - 1).
Proof.
  intros He Hrx [Hb (w & Ew & Hw)] Ee Hp Hk Hk1 Hroom Hl Hctr. set (n := Z.of_nat (length pkt)) in *.
  pose proof (read_packet u ep c r st a p pkt w He Hrx Hroom Ew Hw Hb) as Er.
  set (u1 := set_u_mem (stored p pkt) u) in *. set (e2 := rx_step n e).
  set (u2 := set_u_eps (insert st e2) u1).
  assert (Ee2 : u_eps u2 !! st = Some e2) by apply lookup_insert_eq.
  assert (Hk2 : rxpkts e2 = k - 1) by (unfold e2; rewrite rxpkts_step; lia).
  assert (Hf1 : rx_frame ep st a (out_maxsize c) u u2).
  { split; try done; [|by destruct u as [? ? [] ?]|by intros r0 Hr0; exists r0].
    intros st' Hn. cbn. by apply lookup_insert_ne. }
  assert (He1 : endpoint u2 ep c r) by by eapply (endpoint_same u).
  unfold next_out. rewrite (rx_st _ _ _ _ _ Hrx).
  rewrite (run_call _ _ _ _ _ (eps_at_run _ _ _ Ee)), Hp, (run_call _ _ _ _ _ Er).
  rewrite (run_call _ _ _ _ _ (set_eps_run u1 st e (rx_step n) Ee)). fold e2 u2.
  rewrite (run_call _ _ _ _ _ (eps_at_run u2 st e2 Ee2)), Hk2. fold n.
  replace (k - 1 =? 0) with (k =? 1) by (destruct (Z.eqb_spec k 1), (Z.eqb_spec (k - 1) 0); lia).
  destruct ((n <? out_maxsize c) || (k =? 1)) eqn:Eend.
  { exists u2, r. by split_and!. }
  apply orb_false_iff in Eend as [Hn Hk3].
  set (r3 := with_bits EPR_STAT_RX_MASK EPR_STAT_RX_VALID r).
  assert (Hr3 : 0 <= r3 < 2 ^ 16) by (apply with_bits_same; [done|apply (e_epr _ _ _ _ He)]).
  assert (Hb3 : same_bits 0x07FF r3 r /\ Z.land r3 EPR_CTR_MASK = 0).
  { destruct (e_epr _ _ _ _ He) as [_ Hr]. unfold r3, same_bits, with_bits. clear -Hr Hctr. split; bits16. }
  destruct Hb3 as [Hb3 Hc3].
  destruct (rx_frame_epr u2 ep c r st a (out_maxsize c) r3 He1 Hr3 Hb3) as [Hf3 He3].
  exists (set_u_hw (put_epr ep r3) u2), r3.
  assert (Hf4 : rx_frame ep st a (out_maxsize c) u (set_u_hw (put_epr ep r3) u2)) by by etrans.
  split_and!; try done.
  - by rewrite (run_call _ _ _ _ _ (on_hw_run _ _ _ _
      (EPR_SET_STAT_RX_run _ _ _ EPR_STAT_RX_VALID (e_epr _ _ _ _ He1) eq_refl))).
  - split; try done.
    + eapply rx_buffer_frame; [apply He|exact Hrx|exact Hf4].
    + unfold e2, rx_step. simpl. rewrite Hp. unfold n. by rewrite Nat2Z.id.
    + lia.
    + unfold r3. by apply with_bits_land.
Qed.

(** After the last packet, [n] bytes are counted. *)
Record received u ep c r st a (n : Z) : Prop := {
  v_ep : endpoint u ep c r;
  v_rx : rx_buffer u ep c st a;
  v_cnt : exists e, u_eps u !! st = Some e /\ st_cnt e = n;
  v_ctr : Z.land r EPR_CTR_MASK = 0
}.

Lemma holding_hw u ep a pkt r : holding u ep a pkt -> holding (set_u_hw (put_epr ep r) u) ep a pkt.
Proof. intros [B1 B2]. exact (Build_holding (set_u_hw (put_epr ep r) u) ep a pkt B1 B2). Qed.

(** A packet from the host, and the interrupt. *)
Lemma serve_out s ep c r st a e p k pkt : awaiting (proj s) ep c r st a e p k ->
  Z.of_nat (length pkt) <= out_maxsize c -> Forall (fun b => 0 <= b < 256) pkt ->
  room (proj s) p (length pkt) -> 0 <= st_cnt e -> st_cnt e + Z.of_nat (length pkt) < 2 ^ 32 ->
  exists u1 u2 r2 e2, on_hw (host_out ep pkt) (proj s) = Some (tt, u1) /\
    rx_frame ep st a (out_maxsize c) (proj s) u2 /\ u_mem u2 = stored p pkt (u_mem (proj s)) /\
    st_cnt e2 = st_cnt e + Z.of_nat (length pkt) /\
    usb_serve_endpoints ep (inj u1 s) =
      (if (Z.of_nat (length pkt) <? out_maxsize c) || (k =? 1)
       then _usb_isr_invoke_out_cb ep (inj u2 s) else Some (tt, inj u2 s)) /\
    if (Z.of_nat (length pkt) <? out_maxsize c) || (k =? 1) then received u2 ep c r2 st a (st_cnt e2)
    else awaiting u2 ep c r2 st a e2 (ptr_add p (length pkt)) (k - 1).
Proof.
  intros Ha Hl Hb Hroom Hc0 Hc1.
  destruct (host_out_run _ _ _ _ _ _ _ _ _ pkt Ha Hl Hb) as (u1 & E1 & He1 & [Hr' Hout] & Hh & Hf1 & Hm1 & Hx1).
  destruct Ha as [He Hrx Hc Ee Hp Hk Hk1 Hv Hctr]. set (r' := sie_out r) in *.
  assert (Hbits : Z.land r' EPR_CTR_TX = 0 /\ Z.land r' EPR_CTR_RX = EPR_CTR_RX /\ Z.land r' EPR_SETUP = 0 /\
    same_bits 0x07FF (with_bits EPR_CTR_RX 0 r') r' /\ Z.land (with_bits EPR_CTR_RX 0 r') EPR_CTR_MASK = 0).
  { clearbody r'. clear -Hr' Hout Hctr. unfold same_bits, with_bits in *. split_and!; bits16. }
  destruct Hbits as (B1 & B2 & B3 & B4 & B5). set (r1 := with_bits EPR_CTR_RX 0 r') in *.
  assert (Hr1 : 0 <= r1 < 2 ^ 16) by by apply with_bits_same.
  destruct (rx_frame_epr u1 ep c r' st a (out_maxsize c) r1 He1 Hr1 B4) as [Hf2 He2].
  set (u2 := set_u_hw (put_epr ep r1) u1) in *.
  assert (Hf : rx_frame ep st a (out_maxsize c) (proj s) u2) by by etrans.
  assert (Hroom2 : room u2 p (length pkt)).
  { destruct Hroom as [Hn|(m & off & l & -> & El & Hl')]; [by left|]. right. exists m, off, l.
    split; [done|]. split; [|done]. change (u_mem u2) with (u_mem u1). by rewrite Hm1. }
  destruct (next_out_run u2 ep c r1 st a e p k pkt) as (u3 & r3 & E3 & Hf3 & Hm3 & He3 & Ee3 & Hc3 & Hend); try done.
  { eapply rx_buffer_frame; [apply He|exact Hrx|exact Hf]. }
  { by apply holding_hw. }
  { change (u_eps u2) with (u_eps u1). by rewrite Hx1. }
  assert (Hcnt : st_cnt (rx_step (Z.of_nat (length pkt)) e) = st_cnt e + Z.of_nat (length pkt)).
  { unfold rx_step. simpl. apply u32_id. lia. }
  exists u1, u3, r3, (rx_step (Z.of_nat (length pkt)) e). split; [done|]. split; [by etrans|].
  split; [by rewrite Hm3; change (u_mem u2) with (u_mem u1); rewrite Hm1|]. split; [done|]. split.
  - unfold usb_serve_endpoints.
    pose proof (e_epr _ _ _ _ He1) as Hepr. rewrite <- (proj_inj u1 s) in Hepr.
    rewrite (run_lift _ _ _ _ _ (on_hw_run _ _ _ _ (EPR_get_run _ _ _ Hepr))).
    replace (set_u_hw (fun _ => u_hw (proj (inj u1 s))) (proj (inj u1 s))) with (proj (inj u1 s))
      by by destruct (proj (inj u1 s)).
    rewrite inj_proj, (run_lift _ _ _ _ _ eq_refl), inj_proj, proj_inj, (e_epc _ _ _ _ He1), B1, B2, B3.
    simpl negb. cbv iota. rewrite run_ret.
    rewrite (run_lift _ _ _ _ _ (on_hw_run _ _ _ _ (EPR_CLEAR_CTR_RX_run _ _ _ Hepr))), proj_inj.
    change (set_u_hw (fun _ => put_epr ep (with_bits EPR_CTR_RX 0 r') (u_hw u1)) u1) with u2.
    rewrite run_deref with (a := c) by done. rewrite inj_inj.
    rewrite <- (proj_inj u2 s) in E3. rewrite (run_lift _ _ _ _ _ E3), inj_inj.
    by destruct ((Z.of_nat (length pkt) <? out_maxsize c) || (k =? 1)).
  - destruct ((Z.of_nat (length pkt) <? out_maxsize c) || (k =? 1)); [|done]. split; try done.
    + eapply rx_buffer_frame; [apply He|exact Hrx|]. by etrans.
    + by eexists.
Qed.

(** The host sends packets, each followed by the interrupt of the device. *)
Fixpoint run_out (ps : list (list Z)) (ep : nat) : M S unit :=
  match ps with
  | [] => mret tt
  | p :: ps =>
      liftM (on_hw (host_out ep p));;
      usb_serve_endpoints ep;;
      run_out ps ep
  end.

Lemma run_out_ok ps : forall s ep c r st a e p k n, awaiting (proj s) ep c r st a e p k ->
  Forall (fun q => Z.of_nat (length q) = out_maxsize c) ps -> Forall (Forall (fun b => 0 <= b < 256)) ps ->
  Z.of_nat (length ps) < k -> room (proj s) p (length (concat ps) + n) ->
  0 <= st_cnt e -> st_cnt e + Z.of_nat (length (concat ps)) < 2 ^ 32 ->
  exists u1 r1 e1, run_out ps ep s = Some (tt, inj u1 s) /\
    awaiting u1 ep c r1 st a e1 (ptr_add p (length (concat ps))) (k - Z.of_nat (length ps)) /\
    st_cnt e1 = st_cnt e + Z.of_nat (length (concat ps)) /\
    u_mem u1 = stored p (concat ps) (u_mem (proj s)) /\
    rx_frame ep st a (out_maxsize c) (proj s) u1.
Proof.
  induction ps as [|q ps IH]; intros s ep c r st a e p k n Ha Hf Hb Hk Hroom Hc0 Hc1.
  - exists (proj s), r, e. simpl. rewrite inj_proj, stored_nil, Z.sub_0_r, Z.add_0_r.
    split; [done|]. split; [|done]. by destruct p; simpl; rewrite ?Nat.add_0_r.
  - apply Forall_cons in Hf as [Hq Hf]. apply Forall_cons in Hb as [Hbq Hb].
    cbn [concat] in *. rewrite length_app in *. cbn [length] in Hk.
    destruct (serve_out s ep c r st a e p k q Ha) as (u1 & u2 & r2 & e2 & E1 & Hf2 & Hm2 & Hc2 & E2 & Hend);
      [lia|done| |lia|lia|].
    { destruct Hroom as [Hn|(m & off & l & -> & El & Hl)]; [left; lia|]. right. exists m, off, l. split_and!; done || lia. }
    rewrite (proj2 (orb_false_iff _ _)) in E2, Hend by lia.
    rewrite <- (proj_inj u2 s) in Hend.
    destruct (IH (inj u2 s) ep c r2 st a e2 (ptr_add p (length q)) (k - 1) n Hend Hf Hb) as (u3 & r3 & e3 & E3 & Ha3 & Hc3 & Hm3 & Hf3).
    { lia. }
    { rewrite proj_inj. eapply room_stored; [|exact Hm2]. by rewrite Nat.add_assoc. }
    { lia. } { lia. }
    exists u3, r3, e3. cbn [run_out]. rewrite (run_lift _ _ _ _ _ E1), (run_call _ _ _ _ _ E2), E3, inj_inj.
    split; [done|]. split; [|split; [lia|split]].
    + rewrite ptr_add_add in Ha3. cbn [length]. replace (k - Z.of_nat (Datatypes.S (length ps))) with (k - 1 - Z.of_nat (length ps)) by lia.
      done.
    + rewrite Hm3, proj_inj, Hm2. symmetry. apply stored_app.
    + rewrite proj_inj in Hf3. by etrans.
Qed.

(** An endpoint that can start a reception. *)
Record can_receive u ep c r st a : Prop := {
  cr_ep : endpoint u ep c r;
  cr_rx : rx_buffer u ep c st a;
  cr_count : is_Some (PMA (u_hw u) !! (4 * ep + 3)%nat);
  cr_e : is_Some (u_eps u !! st);
  cr_ctr : Z.land r EPR_CTR_MASK = 0
}.

Definition mark_receiving ep : usb -> usb := set_u_drv (set_receiving (fun t => Z.lor t (u16 (bit ep)))).

(** The packets of a reception of [n] bytes. *)
Definition rx_packets (max n : Z) : Z := if n =? 0 then 1 else (n + max - 1) / max.

Lemma start_receive_ok u ep c r st a p n : can_receive u ep c r st a ->
  0 <= n < 2 ^ 31 -> rx_packets (out_maxsize c) n < 2 ^ 16 ->
  exists u1 r1 e1, usbStartReceiveI ep p n u = Some (tt, u1) /\
    awaiting u1 ep c r1 st a e1 p (rx_packets (out_maxsize c) n) /\ st_cnt e1 = 0 /\ u_mem u1 = u_mem u /\
    rx_frame ep st a (out_maxsize c) (mark_receiving ep u) u1.
Proof.
  intros [He Hrx Hc [e Ee] Hctr] Hn Hk. set (u0 := mark_receiving ep u).
  pose proof (rx_size _ _ _ _ _ Hrx) as Hmx.
  assert (He0 : endpoint u0 ep c r) by by eapply (endpoint_same u).
  set (f := fun osp => set_st_cnt (fun _ => 0) (set_st_size (fun _ => n) (set_st_buf (fun _ => p) osp))).
  set (k := rx_packets (out_maxsize c) n) in *.
  assert (Hk1 : 1 <= k).
  { unfold k, rx_packets. destruct (Z.eqb_spec n 0); [lia|].
    assert (1 * out_maxsize c <= n + out_maxsize c - 1) by lia. apply Z.div_le_lower_bound; lia. }
  set (g := set_rxpkts (fun _ => k)).
  set (u1 := set_u_eps (insert st (f e)) u0). set (u2 := set_u_eps (insert st (g (f e))) u1).
  assert (Ee1 : u_eps u1 !! st = Some (f e)) by apply lookup_insert_eq.
  assert (Ee2 : u_eps u2 !! st = Some (g (f e))) by apply lookup_insert_eq.
  assert (Hg : rxpkts (g (f e)) = k).
  { unfold g, rxpkts, set_rxpkts. simpl. set (w := st_last e). unfold u16 in *. dlia. }
  assert (He2 : endpoint u2 ep c r) by by eapply (endpoint_same u).
  assert (Hf2 : rx_frame ep st a (out_maxsize c) u0 u2).
  { split; try done; [|by destruct u as [? ? [] ?]|by intros r0 Hr0; exists r0].
    intros st' Hne. cbn. by rewrite !lookup_insert_ne. }
  set (r3 := with_bits EPR_STAT_RX_MASK EPR_STAT_RX_VALID r).
  assert (Hr3 : 0 <= r3 < 2 ^ 16) by (apply with_bits_same; [done|apply (e_epr _ _ _ _ He)]).
  assert (Hb3 : same_bits 0x07FF r3 r /\ Z.land r3 EPR_CTR_MASK = 0).
  { destruct (e_epr _ _ _ _ He) as [_ Hr]. unfold r3, same_bits, with_bits. clear -Hr Hctr. split; bits16. }
  destruct Hb3 as [Hb3 Hc3].
  destruct (rx_frame_epr u2 ep c r st a (out_maxsize c) r3 He2 Hr3 Hb3) as [Hf3 He3].
  exists (set_u_hw (put_epr ep r3) u2), r3, (g (f e)). split_and!; try done; [| |by etrans].
  - unfold usbStartReceiveI, set_drv. rewrite run_modify. change (set_u_drv _ u) with u0.
    rewrite (run_call _ _ _ _ _ (epc_at_run _ _ _ _ He0)), (rx_st _ _ _ _ _ Hrx).
    rewrite (run_call _ _ _ _ _ (set_eps_run u0 st e f Ee)). fold u1.
    unfold usb_lld_start_out. rewrite (run_call _ _ _ _ _ (epc_at_run u1 ep c r (endpoint_same u0 u1 ep c r eq_refl eq_refl eq_refl He0))).
    rewrite (rx_st _ _ _ _ _ Hrx), (run_call _ _ _ _ _ (eps_at_run u1 st (f e) Ee1)).
    change (st_size (f e)) with n.
    assert (E : (if n =? 0 then set_eps (Some st) (set_rxpkts (fun _ => 1))
      else if out_maxsize c =? 0 then undefined
      else set_eps (Some st) (set_rxpkts (fun _ => u16 (u32 (n + out_maxsize c - 1) / out_maxsize c)))) =
      set_eps (Some st) g).
    { clearbody r3. unfold g, k, rx_packets in *. destruct (Z.eqb_spec n 0); [done|].
      rewrite (proj2 (Z.eqb_neq _ 0)) by lia. rewrite u32_id by lia. unfold u16.
      rewrite Z.mod_small; [done|]. split; [apply Z.div_pos|]; lia. }
    rewrite E, (run_call _ _ _ _ _ (set_eps_run u1 st (f e) g Ee1)). fold u2.
    by rewrite (on_hw_run _ _ _ _ (EPR_SET_STAT_RX_run _ _ _ EPR_STAT_RX_VALID (e_epr _ _ _ _ He2) eq_refl)).
  - assert (Hf4 : rx_frame ep st a (out_maxsize c) u0 (set_u_hw (put_epr ep r3) u2)) by by etrans.
    split; try done.
    + eapply rx_buffer_frame; [apply He| |exact Hf4]. by destruct Hrx.
    + unfold r3. by apply with_bits_land.
Qed.

(** The packets of a reception that was started; [k] are expected. *)
Lemma awaiting_run s ep c r st a e p k ps last : awaiting (proj s) ep c r st a e p k -> st_cnt e = 0 ->
  Forall (fun q => Z.of_nat (length q) = out_maxsize c) ps -> Z.of_nat (length last) <= out_maxsize c ->
  Forall (Forall (fun b => 0 <= b < 256)) (ps ++ [last]) -> Z.of_nat (length ps) < k ->
  Z.of_nat (length last) < out_maxsize c \/ Z.of_nat (length ps) + 1 = k ->
  room (proj s) p (length (concat (ps ++ [last]))) -> Z.of_nat (length (concat (ps ++ [last]))) < 2 ^ 32 ->
  exists s1 s2 u2 r2,
    run_out ps ep s = Some (tt, s1) /\
    liftM (on_hw (host_out ep last)) s1 = Some (tt, s2) /\
    usb_serve_endpoints ep s2 = _usb_isr_invoke_out_cb ep (inj u2 s) /\
    received u2 ep c r2 st a (Z.of_nat (length (concat (ps ++ [last])))) /\
    u_mem u2 = stored p (concat (ps ++ [last])) (u_mem (proj s)) /\
    rx_frame ep st a (out_maxsize c) (proj s) u2.
Proof.
  intros Ha1 Hc1 Hps Hlast Hb Hlen Hend Hroom Htot. apply Forall_app in Hb as [Hb Hbl].
  apply Forall_cons in Hbl as [Hbl _]. rewrite concat_app in *. cbn [concat] in *. rewrite app_nil_r in *.
  rewrite length_app in *.
  destruct (run_out_ok ps _ _ _ _ _ _ _ _ _ (length last) Ha1 Hps Hb Hlen Hroom ltac:(lia) ltac:(lia))
    as (u2 & r2 & e2 & E2 & Ha2 & Hc2 & Hm2 & Hf2).
  rewrite <- (proj_inj u2 s) in Ha2.
  destruct (serve_out (inj u2 s) ep c r2 st a e2 _ _ last Ha2) as (u3 & u4 & r4 & e4 & E3 & Hf4 & Hm4 & Hc4 & E4 & Hr4);
    [done|done| |lia|lia|].
  { rewrite proj_inj. by eapply room_stored. }
  assert (Hdone : (Z.of_nat (length last) <? out_maxsize c) || (k - Z.of_nat (length ps) =? 1) = true)
    by (apply orb_true_iff; lia).
  rewrite Hdone in E4, Hr4. rewrite proj_inj in Hm4, Hf4.
  exists (inj u2 s), (inj u3 s), u4, r4. split_and!.
  - done.
  - unfold liftM. by rewrite E3, inj_inj.
  - rewrite !inj_inj in E4. done.
  - replace (Z.of_nat _) with (st_cnt e4) by lia. done.
  - rewrite Hm4, Hm2. symmetry. apply stored_app.
  - by etrans.
Qed.

Lemma receive_run s ep c r st a p n ps last : can_receive (proj s) ep c r st a ->
  0 <= n < 2 ^ 31 -> rx_packets (out_maxsize c) n < 2 ^ 16 ->
  Forall (fun q => Z.of_nat (length q) = out_maxsize c) ps -> Z.of_nat (length last) <= out_maxsize c ->
  Forall (Forall (fun b => 0 <= b < 256)) (ps ++ [last]) ->
  Z.of_nat (length ps) < rx_packets (out_maxsize c) n ->
  Z.of_nat (length last) < out_maxsize c \/ Z.of_nat (length ps) + 1 = rx_packets (out_maxsize c) n ->
  room (proj s) p (length (concat (ps ++ [last]))) -> Z.of_nat (length (concat (ps ++ [last]))) < 2 ^ 32 ->
  exists s1 s2 u2 r2,
    (liftM (usbStartReceiveI ep p n);; run_out ps ep) s = Some (tt, s1) /\
    liftM (on_hw (host_out ep last)) s1 = Some (tt, s2) /\
    usb_serve_endpoints ep s2 = _usb_isr_invoke_out_cb ep (inj u2 s) /\
    received u2 ep c r2 st a (Z.of_nat (length (concat (ps ++ [last])))) /\
    u_mem u2 = stored p (concat (ps ++ [last])) (u_mem (proj s)) /\
    rx_frame ep st a (out_maxsize c) (mark_receiving ep (proj s)) u2.
Proof.
  intros Hc Hn Hk Hps Hlast Hb Hlen Hend Hroom Htot.
  destruct (start_receive_ok _ _ _ _ _ _ p n Hc Hn Hk) as (u1 & r1 & e1 & E1 & Ha1 & Hc1 & Hm1 & Hf1).
  rewrite <- (proj_inj u1 s) in Ha1.
  destruct (awaiting_run (inj u1 s) ep c r1 st a e1 p _ ps last Ha1 Hc1) as (s1 & s2 & u2 & r2 & E2 & E3 & E4 & Hr & Hm & Hf); try done.
  { rewrite proj_inj. destruct Hroom as [Hz|(m & off & l & -> & El & Hl)]; [by left|]. right.
    exists m, off, l. by rewrite Hm1. }
  rewrite proj_inj in Hm, Hf. rewrite inj_inj in E4. exists s1, s2, u2, r2. split_and!; try done.
  - by rewrite (run_lift _ _ _ _ _ E1).
  - by rewrite Hm, Hm1.
  - by etrans.
Qed.

(** A reception of [n] bytes over an OUT endpoint: the packets of the host -- whole ones and then a short
    one, or as many as [n] asks for -- end up one behind the other in the buffer; the interrupts in
    between invoke no callback, the one after the last packet invokes the callback of the endpoint,
    which finds the number of bytes received. *)
Theorem receive_ok s ep c r st a p n ps last : can_receive (proj s) ep c r st a ->
  0 <= n < 2 ^ 31 -> rx_packets (out_maxsize c) n < 2 ^ 16 ->
  Forall (fun q => Z.of_nat (length q) = out_maxsize c) ps -> Z.of_nat (length last) <= out_maxsize c ->
  Forall (Forall (fun b => 0 <= b < 256)) (ps ++ [last]) ->
  Z.of_nat (length ps) < rx_packets (out_maxsize c) n ->
  Z.of_nat (length last) < out_maxsize c \/ Z.of_nat (length ps) + 1 = rx_packets (out_maxsize c) n ->
  room (proj s) p (length (concat (ps ++ [last]))) -> Z.of_nat (length (concat (ps ++ [last]))) < 2 ^ 32 ->
  exists s1 s2 u2 r2,
    (liftM (usbStartReceiveI ep p n);; run_out ps ep) s = Some (tt, s1) /\
    liftM (on_hw (host_out ep last)) s1 = Some (tt, s2) /\
    usb_serve_endpoints ep s2 = _usb_isr_invoke_out_cb ep (inj u2 s) /\
    received u2 ep c r2 st a (Z.of_nat (length (concat (ps ++ [last])))) /\
    u_mem u2 = stored p (concat (ps ++ [last])) (u_mem (proj s)) /\
    rx_frame ep st a (out_maxsize c) (mark_receiving ep (proj s)) u2.
Proof. apply receive_run. Qed.

(** ** The two directions of an endpoint *)

Lemma pma_bytes_words pma pma' n : forall a, 0 <= a ->
  (forall i, a / 2 <= Z.of_nat i < (a + Z.of_nat n + 1) / 2 -> pma' !! i = pma !! i) ->
  pma_bytes pma' a n = pma_bytes pma a n.
Proof.
  induction n as [|n IH]; intros a Ha Hw; [done|]. simpl. rewrite (IH (a + 1)) by (lia || (intros i Hi; apply Hw; dlia)).
  unfold pma_byte. rewrite (Hw (Z.to_nat (a / 2))) by dlia. done.
Qed.

(** A register after a change of other bits. *)
Lemma register_after u u' ep m c r r' : endpoint u ep c r -> endpoint u' ep c r' ->
  (forall r, epr_is (u_hw u) ep r -> exists r', epr_is (u_hw u') ep r' /\ same_bits m r' r) -> same_bits m r' r.
Proof.
  intros He He' Hex. destruct (Hex r (e_epr _ _ _ _ He)) as (r1 & [E1 _] & Hb). destruct (e_epr _ _ _ _ He') as [E2 _].
  rewrite E1 in E2. by injection E2 as <-.
Qed.
Lemma same_bits_sub m m' r r' v : same_bits m r' r -> Z.land m m' = m' -> Z.land r m' = v -> Z.land r' m' = v.
Proof. unfold same_bits. intros Hs <-. rewrite !Z.land_assoc. congruence. Qed.

(** A transmission leaves a reception alone. *)
Lemma rx_buffer_tx u u' ep c st a st2 b size : (ep <= USB_MAX_ENDPOINTS)%nat -> 64 <= a -> tx_frame ep st a size u u' ->
  rx_buffer u ep c st2 b -> rx_buffer u' ep c st2 b.
Proof.
  unfold USB_MAX_ENDPOINTS, USB_ENDOPOINTS_NUMBER. intros He Ha Hf [R1 R2 R3 R4 R5 R6].
  split; try done; [|by rewrite (tf_len _ _ _ _ _ _ Hf)]. by rewrite (tf_pma _ _ _ _ _ _ Hf) by dlia.
Qed.
Lemma awaiting_tx u u' ep c r r' st a st2 b e p k size : tx_frame ep st a size u u' -> 64 <= a -> st2 <> st ->
  endpoint u' ep c r' -> Z.land r' EPR_CTR_MASK = 0 ->
  awaiting u ep c r st2 b e p k -> awaiting u' ep c r' st2 b e p k.
Proof.
  intros Hf Ha Hst He' Hctr [A1 A2 A3 A4 A5 A6 A7 A8 A9]. pose proof (e_max _ _ _ _ A1) as Hm. split; try done.
  - by eapply rx_buffer_tx.
  - unfold USB_MAX_ENDPOINTS, USB_ENDOPOINTS_NUMBER in Hm. by rewrite (tf_pma _ _ _ _ _ _ Hf) by dlia.
  - by rewrite (tf_eps _ _ _ _ _ _ Hf).
  - eapply same_bits_sub; [by eapply register_after, Hf|done|done].
Qed.
Lemma can_receive_tx u u' ep c r r' st a st2 b size : tx_frame ep st a size u u' -> 64 <= a -> st2 <> st ->
  endpoint u' ep c r' -> Z.land r' EPR_CTR_MASK = 0 -> can_receive u ep c r st2 b -> can_receive u' ep c r' st2 b.
Proof.
  intros Hf Ha Hst He' Hctr [A1 A2 A3 A4 A5]. pose proof (e_max _ _ _ _ A1) as Hm. split; try done.
  - by eapply rx_buffer_tx.
  - unfold USB_MAX_ENDPOINTS, USB_ENDOPOINTS_NUMBER in Hm. by rewrite (tf_pma _ _ _ _ _ _ Hf) by dlia.
  - by rewrite (tf_eps _ _ _ _ _ _ Hf).
Qed.

(** A reception leaves a transmission alone, when their buffers in the packet memory do not overlap. *)
Lemma tx_buffer_rx u u' ep c st a st2 b size : (ep <= USB_MAX_ENDPOINTS)%nat -> 64 <= b -> rx_frame ep st2 b size u u' ->
  tx_buffer u ep c st a -> tx_buffer u' ep c st a.
Proof.
  unfold USB_MAX_ENDPOINTS, USB_ENDOPOINTS_NUMBER. intros He Hb Hf [R1 R2 R3 R4 R5 R6].
  split; try done; [|by rewrite (rf_len _ _ _ _ _ _ Hf)]. by rewrite (rf_pma _ _ _ _ _ _ Hf) by dlia.
Qed.
Lemma can_send_rx u u' ep c r r' st a st2 b size : rx_frame ep st2 b size u u' -> 64 <= b -> st <> st2 ->
  endpoint u' ep c r' -> Z.land r' EPR_CTR_MASK = 0 -> can_send u ep c r st a -> can_send u' ep c r' st a.
Proof.
  intros Hf Hb Hst He' Hctr [A1 A2 A3 A4]. split; try done; [by eapply tx_buffer_rx, A2; [apply A1|..]|].
  by rewrite (rf_eps _ _ _ _ _ _ Hf).
Qed.
Lemma sending_rx u u' ep c r r' st a st2 b e cur rest size : rx_frame ep st2 b size u u' -> 64 <= b -> st <> st2 ->
  b mod 2 = 0 -> a + in_maxsize c <= b \/ b + size <= a -> u_mem u' = u_mem u ->
  endpoint u' ep c r' -> Z.land r' EPR_CTR_MASK = 0 ->
  sending u ep c r st a e cur rest -> sending u' ep c r' st a e cur rest.
Proof.
  intros Hf Hb Hst Hev Hsep Hmem He' Hctr [A1 A2 A3 A4 A5 A6 A7 A8 A9 A10 A11 A12 A13].
  pose proof (e_max _ _ _ _ A1) as Hm. unfold USB_MAX_ENDPOINTS, USB_ENDOPOINTS_NUMBER in Hm. split; try done.
  - by eapply tx_buffer_rx, A2; [apply A1|..].
  - by rewrite (rf_eps _ _ _ _ _ _ Hf).
  - destruct A7 as [?|(o & off & l & x & ? & El & ?)]; [by left|]. right. exists o, off, l, x. split; [done|].
    split; [|done]. destruct o; cbn [object_bytes] in *; rewrite ?(rf_drv _ _ _ _ _ _ Hf), ?Hmem; done.
  - eapply same_bits_sub; [by eapply register_after, Hf|done|done].
  - destruct (descriptor_tx u ep (e_table _ _ _ _ A1)) as [I0 I1]. unfold tx_packet in *.
    assert (Hd : USB_GET_DESCRIPTOR (u_hw u') ep = USB_GET_DESCRIPTOR (u_hw u) ep).
    { unfold USB_GET_DESCRIPTOR. by rewrite (e_table _ _ _ _ He'), (e_table _ _ _ _ A1). }
    rewrite Hd, I0, I1 in *. rewrite !(rf_pma _ _ _ _ _ _ Hf) by dlia. rewrite (tx_addr _ _ _ _ _ A2) in *.
    cbn [mbind option_bind] in *. destruct (PMA (u_hw u) !! (4 * ep + 1)%nat) as [n|]; [|done].
    cbn [mbind option_bind] in *. rewrite <- A13. pose proof (pma_bytes_length _ _ _ _ A13) as Hn. rewrite <- Hn.
    destruct A2 as [_ Hsz _ Hlo Hae _]. apply pma_bytes_words; [lia|]. intros i Hi.
    apply (rf_pma _ _ _ _ _ _ Hf); dlia.
Qed.
End transfer.
End UsbTransfer.
