(* ===== verification/UsbControl.v ===== *)
(** * Control transfers over endpoint zero

    A control transfer is a SETUP packet with a request, an optional data stage and a status
    stage.  [control_read], [control_write] and [control_set] are the transfers as the host
    conducts them, with the interrupt of the device after every packet; the theorems say what
    the host gets, for any request the handlers of the driver or the program answer, and what the
    standard requests do. *)

From S2P Require Import Prelude CLib Prog UsbRegs UsbLld HalUsb UsbIsr UsbBus UsbTransfer.

Module UsbControl.
Import UsbRegs UsbLld HalUsb UsbIsr UsbBus UsbTransfer.

Section control.
Context {S : Type} `{!Component S usb, !USBConfig S}.
Context `{!UsbDevice, !Beyond, !UsbClock, !UsbEngine, !UsbDeviceSpec, !UsbEngineSpec}.
Implicit Types (u : usb) (s : S).

(** ** The host *)

(** Data to the host: [k] packets, then an empty status packet from the host. *)
Definition control_read (req : list Z) (k : nat) : M S (list (list Z)) :=
  liftM (on_hw (host_setup 0 req));;
  usb_serve_endpoints 0;;
  ps ← run_in k 0;
  liftM (on_hw (host_out 0 []));;
  usb_serve_endpoints 0;;
  mret ps.

(** Data from the host, then a status packet to the host. *)
Definition control_write (req : list Z) (ps : list (list Z)) : M S (list Z) :=
  liftM (on_hw (host_setup 0 req));;
  usb_serve_endpoints 0;;
  run_out ps 0;;
  st ← liftM (on_hw (host_in 0));
  usb_serve_endpoints 0;;
  mret st.

(** ** Endpoint zero *)

Record ep0_ok u (r ta ra : Z) : Prop := {
  z_ep : endpoint u 0 ep0config r;
  z_tx : tx_buffer u 0 ep0config ep0_state ta;
  z_rx : rx_buffer u 0 ep0config ep0_state ra;
  z_count : is_Some (PMA (u_hw u) !! 3%nat);
  z_e : is_Some (u_eps u !! ep0_state);
  z_ctr : Z.land r EPR_CTR_MASK = 0;
  z_setup : length (ud_setup (u_drv u)) = 8%nat
}.

Lemma can_send_ep0 u r ta ra : ep0_ok u r ta ra -> can_send u 0 ep0config r ep0_state ta.
Proof. intros []. by split. Qed.
Lemma can_receive_ep0 u r ta ra : ep0_ok u r ta ra -> can_receive u 0 ep0config r ep0_state ra.
Proof. intros []. by split. Qed.

(** The driver's own state apart from the stage of the transfer and the flags of endpoint zero. *)
Definition core (d : USBDriver) : USBDriver :=
  set_ep0state (fun _ => USB_EP0_STP_WAITING) (set_transmitting (fun t => Z.land t 0xFFFE)
    (set_receiving (fun t => Z.land t 0xFFFE) d)).

(** What a control transfer leaves alone when its handler changes nothing. *)
Record ep0_frame u u' : Prop := {
  zf_drv : core (u_drv u') = core (u_drv u);
  zf_mem : u_mem u' = u_mem u;
  zf_eps st : st <> ep0_state -> u_eps u' !! st = u_eps u !! st;
  zf_regs : u_hw u' = set_PMA (fun _ => PMA (u_hw u')) (set_EPR (fun _ => EPR (u_hw u')) (u_hw u));
  zf_epr ep : ep <> 0%nat -> EPR (u_hw u') !! ep = EPR (u_hw u) !! ep
}.

#[global] Instance ep0_frame_refl : Reflexive ep0_frame.
Proof. intros u. split; try done. by destruct (u_hw u). Qed.
#[global] Instance ep0_frame_trans : Transitive ep0_frame.
Proof.
  intros u1 u2 u3 [D1 M1 E1 R1 P1] [D2 M2 E2 R2 P2]. split; try congruence.
  - intros st Hn. by rewrite E2, E1.
  - rewrite R2, R1. done.
  - intros ep Hn. by rewrite P2, P1.
Qed.

Lemma ep0_frame_drv u f : core (f (u_drv u)) = core (u_drv u) -> ep0_frame u (set_u_drv f u).
Proof. intros E. split; try done. by destruct u as [? ? [] ?]. Qed.

Lemma ep0_frame_tx u u' ta : tx_frame 0 ep0_state ta (in_maxsize ep0config) u u' -> ep0_frame u u'.
Proof. intros [D M E R P _ _ _]. split; try done. by rewrite D. Qed.
Lemma ep0_frame_rx u u' ra : rx_frame 0 ep0_state ra (out_maxsize ep0config) u u' -> u_mem u' = u_mem u ->
  ep0_frame u u'.
Proof. intros [D E R P _ _ _] M. split; try done. by rewrite D. Qed.

Lemma core_bits t : Z.land (Z.lor t 1) 0xFFFE = Z.land t 0xFFFE /\
  Z.land (u16 (Z.land t (Z.lnot 1))) 0xFFFE = Z.land t 0xFFFE.
Proof.
  assert (Hu : forall z, u16 z = Z.land z 0xFFFF) by (intros z; symmetry; apply (Z.land_ones z 16); lia).
  rewrite Hu. split; bits16.
Qed.

(** Changes of the driver's state that endpoint zero does not notice. *)
Lemma ep0_drv u f r ta ra : ep0_ok u r ta ra -> epc (f (u_drv u)) = epc (u_drv u) ->
  length (ud_setup (f (u_drv u))) = 8%nat -> ep0_ok (set_u_drv f u) r ta ra.
Proof.
  intros [He [] [] Hc Hs Hr Hl] Ec Hl'. split; try done. by eapply (endpoint_same u).
Qed.

(** After a transmission and after a reception. *)
Lemma ep0_sent u u' r r' ta ra : ep0_ok u r ta ra -> tx_frame 0 ep0_state ta (in_maxsize ep0config) u u' ->
  can_send u' 0 ep0config r' ep0_state ta -> ep0_ok u' r' ta ra.
Proof.
  intros [He Ht [R1 R2 R3 R4 R5 R6] Hc Hs Hr Hl] Hf [N1 N2 N3 N4]. split; try done.
  - pose proof (tx_low _ _ _ _ _ Ht). split; try done.
    + rewrite (tf_pma _ _ _ _ _ _ Hf); [done|lia|dlia].
    + by rewrite (tf_len _ _ _ _ _ _ Hf).
  - rewrite (tf_pma _ _ _ _ _ _ Hf); [done|lia|]. pose proof (tx_low _ _ _ _ _ Ht). dlia.
  - by rewrite (tf_drv _ _ _ _ _ _ Hf).
Qed.

Lemma ep0_received u u' r r' ta ra n : ep0_ok u r ta ra -> rx_frame 0 ep0_state ra (out_maxsize ep0config) u u' ->
  received u' 0 ep0config r' ep0_state ra n -> ep0_ok u' r' ta ra.
Proof.
  intros [He [T1 T2 T3 T4 T5 T6] Hrx [w Hc] Hs Hr Hl] Hf [N1 N2 (e & N3 & _) N4]. split; try done.
  - pose proof (rx_low _ _ _ _ _ Hrx). split; try done.
    + rewrite (rf_pma _ _ _ _ _ _ Hf); [done|lia|dlia].
    + by rewrite (rf_len _ _ _ _ _ _ Hf).
  - apply lookup_lt_is_Some. rewrite (rf_len _ _ _ _ _ _ Hf). by eapply lookup_lt_Some.
  - by rewrite (rf_drv _ _ _ _ _ _ Hf).
Qed.

(** ** The SETUP stage *)

Lemma read_setup_run u r ta ra req : ep0_ok u r ta ra -> length req = 8%nat -> holding u 0 ra req ->
  usb_lld_read_setup 0 (at_ o_setup 0) u = Some (tt, set_u_drv (set_ud_setup (fun _ => req)) u).
Proof.
  intros [[_ _ _ Ht] _ [_ _ Ea Hlo Hm _] _ _ _ Hl] Hreq [Hb _]. destruct (descriptor_rx u 0 Ht) as [I2 _].
  unfold usb_lld_read_setup. rewrite run_gets.
  rewrite (run_call _ _ _ _ _ (on_hw_run _ _ _ _ (pma_get_run _ _ _ ltac:(rewrite I2; exact Ea)))).
  replace (set_u_hw (fun _ => u_hw u) u) with u by by destruct u.
  destruct (read_words_run req ra o_setup 0 (ud_setup (u_drv u)) u) as (u' & E & Hu'); try done; [lia..|].
  rewrite <- Hreq, E. destruct Hu' as [[-> _]|Hu']; [done|]. injection Hu' as <-. do 2 f_equal.
  destruct u as [[] ? ? ?]. unfold set_u_drv, set_ud_setup. simpl. do 2 f_equal. simpl in Hl.
  rewrite <- (app_nil_r req) at 1. rewrite list_inserts_0_l; [done|]. congruence.
Qed.

(** What the driver does with a request. *)
Definition answer : M S unit :=
  ok ← handle_request;
  if ok : bool then start_transfer else ep0_error.

(** Both directions answer with NAK. *)
Definition naks (r : Z) : Prop :=
  Z.land r EPR_STAT_TX_MASK = EPR_STAT_TX_NAK /\ Z.land r EPR_STAT_RX_MASK = EPR_STAT_RX_NAK.

Lemma setup_stage s r ta ra req : ep0_ok (proj s) r ta ra -> length req = 8%nat ->
  Forall (fun b => 0 <= b < 256) req ->
  exists u0 u1 r1, on_hw (host_setup 0 req) (proj s) = Some (tt, u0) /\
    usb_serve_endpoints 0 (inj u0 s) = answer (inj u1 s) /\
    ep0_ok u1 r1 ta ra /\ ud_setup (u_drv u1) = req /\
    ep0_frame (set_u_drv (set_ud_setup (fun _ => req)) (proj s)) u1 /\ naks r1.
Proof.
  intros Hok Hreq Hb. pose proof Hok as [He Htx Hrx Hc Hs Hctr Hl].
  destruct (rx_packet_run (proj s) 0 ep0config r ep0_state ra req He Hrx Hc) as (pma & E & Hh & Hlen & Hpma);
    [rewrite Hreq; done|done|].
  set (u := proj s) in *. set (u1 := set_u_hw (set_PMA (fun _ => pma)) u) in *.
  assert (He1 : endpoint u1 0 ep0config r) by by eapply (endpoint_same u).
  pose proof (sie_setup_spec r (proj2 (e_epr _ _ _ _ He))) as [Hr' Hset]. set (r' := sie_setup r) in *.
  set (r2 := with_bits EPR_CTR_RX 0 r').
  assert (Hbits : Z.land r' EPR_CTR_TX = 0 /\ Z.land r' EPR_CTR_RX = EPR_CTR_RX /\ Z.land r' EPR_SETUP = EPR_SETUP /\
    Z.land r2 EPR_CTR_MASK = 0 /\ naks r2).
  { unfold r2, naks. clearbody r'. clear -Hr' Hset Hctr. unfold same_bits, with_bits in *. split_and!; bits16. }
  destruct Hbits as (B1 & B2 & B3 & B4 & Hnk).
  assert (Hr2 : 0 <= r2 < 2 ^ 16) by by apply with_bits_same.
  set (u2 := set_u_hw (put_epr 0 r') u1). set (u3 := set_u_hw (put_epr 0 r2) u2).
  set (st0 := ep0state (u_drv u3)).
  set (u4 := if decide (st0 <> USB_EP0_STP_WAITING) then set_u_drv (set_ep0state (fun _ => USB_EP0_STP_WAITING)) u3 else u3).
  assert (Hok3 : ep0_ok u3 r2 ta ra).
  { assert (Hp : forall i, i <> 3%nat -> Z.of_nat i < 32 -> pma !! i = PMA (u_hw u) !! i).
    { intros i Hi Hi'. apply Hpma; [done|]. pose proof (rx_low _ _ _ _ _ Hrx). dlia. }
    split; try done.
    - destruct He as [A1 A2 A3 A4]. split; try done. do 2 eapply epr_is_put; done.
    - destruct Htx as [T1 T2 T3 T4 T5 T6]. split; try done; simpl; [by rewrite Hp|by rewrite Hlen].
    - destruct Hrx as [T1 T2 T3 T4 T5 T6]. split; try done; simpl; [by rewrite Hp|by rewrite Hlen].
    - destruct (h_count _ _ _ _ Hh) as (w & Ew & _). by exists w. }
  assert (Hok4 : ep0_ok u4 r2 ta ra).
  { unfold u4. destruct (decide _); [|done]. by apply ep0_drv. }
  assert (Hh4 : holding u4 0 ra req).
  { destruct Hh as [B5 B6]. unfold u4. destruct (decide _); by split. }
  exists u2, (set_u_drv (set_ud_setup (fun _ => req)) u4), r2. split; [|split; [|split; [|split; [|split; [|exact Hnk]]]]].
  - erewrite on_hw_run; [by destruct u as [? ? [] ?]|]. unfold host_setup.
    rewrite (run_call _ _ _ _ _ (EPR_get_run _ _ _ (e_epr _ _ _ _ He))).
    by rewrite (run_call _ _ _ _ _ E).
  - unfold usb_serve_endpoints.
    assert (Hepr : epr_is (u_hw (proj (inj u2 s))) 0 r').
    { rewrite proj_inj. eapply epr_is_put; [apply He1|done]. }
    rewrite (run_lift _ _ _ _ _ (on_hw_run _ _ _ _ (EPR_get_run _ _ _ Hepr))).
    replace (set_u_hw (fun _ => u_hw (proj (inj u2 s))) (proj (inj u2 s))) with (proj (inj u2 s))
      by by destruct (proj (inj u2 s)).
    rewrite inj_proj, (run_lift _ _ _ _ _ eq_refl), inj_proj, proj_inj.
    change (mjoin (epc (u_drv u2) !! 0%nat)) with (mjoin (epc (u_drv u) !! 0%nat)).
    rewrite (e_epc _ _ _ _ He), B1, B2, B3. simpl negb. cbv iota. rewrite run_ret.
    rewrite (run_lift _ _ _ _ _ (on_hw_run _ _ _ _ (EPR_CLEAR_CTR_RX_run _ _ _ Hepr))), proj_inj, inj_inj.
    change (set_u_hw (fun _ => put_epr 0 (with_bits EPR_CTR_RX 0 r') (u_hw u2)) u2) with u3.
    unfold _usb_isr_invoke_setup_cb.
    pose proof (epc_at_run _ _ _ _ (z_ep _ _ _ _ Hok3)) as Ec. rewrite <- (proj_inj u3 s) in Ec.
    rewrite (run_lift _ _ _ _ _ Ec), proj_inj, inj_inj. rewrite run_deref with (a := cb_ep0setup) by done.
    simpl invoke_ep. unfold _usb_ep0setup. rewrite (run_lift _ _ _ _ _ eq_refl), !proj_inj, inj_inj. fold st0.
    assert (E4 : (if decide (st0 <> USB_EP0_STP_WAITING) then set_ep0 USB_EP0_STP_WAITING else mret tt) (inj u3 s) =
      Some (tt, inj u4 s)).
    { unfold u4. destruct (decide _); [|done]. unfold set_ep0, liftM. simpl. by rewrite proj_inj, inj_inj. }
    rewrite (run_call _ _ _ _ _ E4).
    pose proof (read_setup_run _ _ _ _ _ Hok4 Hreq Hh4) as Er. rewrite <- (proj_inj u4 s) in Er.
    rewrite (run_lift _ _ _ _ _ Er), proj_inj, inj_inj. done.
  - by apply ep0_drv.
  - by unfold u4; destruct (decide _).
  - unfold u4. split; simpl.
    + destruct u as [[] ? ? ?]. unfold core, set_ud_setup, set_ep0state. simpl. by destruct (decide _).
    + by destruct (decide _).
    + intros st Hst. by destruct (decide _).
    + destruct u as [? ? [] ?]. by destruct (decide _).
    + intros ep Hep. destruct (decide _); simpl; by rewrite !list_lookup_insert_ne by done.
Qed.

(** ** Stages *)

Definition ep0_size : nat := 64.

Lemma run_in_S k ep : run_in (Datatypes.S k) ep =
  (p ← liftM (on_hw (host_in ep)); usb_serve_endpoints ep;; ps ← run_in k ep; mret (p :: ps)).
Proof. reflexivity. Qed.

Lemma run_in_snoc k ep s : run_in (Datatypes.S k) ep s =
  (ps ← run_in k ep; p ← liftM (on_hw (host_in ep)); usb_serve_endpoints ep;; mret (ps ++ [p])) s.
Proof.
  revert s. induction k as [|k IH]; intros s.
  - simpl. rewrite run_ret, !bind_run. destruct (liftM _ s) as [[p s1]|]; [|done].
    rewrite !bind_run. by destruct (usb_serve_endpoints ep s1) as [[[] s2]|].
  - rewrite (run_in_S (Datatypes.S k)), (bind_run (run_in (Datatypes.S k) ep)).
    assert (run_in (Datatypes.S k) ep s = (p ← liftM (on_hw (host_in ep)); usb_serve_endpoints ep;;
      ps ← run_in k ep; mret (p :: ps)) s) as -> by by rewrite run_in_S.
    rewrite !bind_run. destruct (liftM _ s) as [[p s1]|]; [|done].
    rewrite !bind_run. destruct (usb_serve_endpoints ep s1) as [[[] s2]|]; [|done].
    rewrite !bind_run, IH, !bind_run. destruct (run_in k ep s2) as [[ps s3]|]; [|done].
    rewrite !bind_run. cbv [mret M_ret]. rewrite ?bind_run.
    destruct (liftM (on_hw (host_in ep)) s3) as [[q s4]|]; [|done]. rewrite !bind_run.
    destruct (usb_serve_endpoints ep s4) as [[[] s5]|]; [|done]. reflexivity.
Qed.

Lemma run_in_app m n ep s : run_in (m + n) ep s =
  (ps ← run_in m ep; qs ← run_in n ep; mret (ps ++ qs)) s.
Proof.
  revert s. induction m as [|m IH]; intros s; cbn [Nat.add run_in].
  - rewrite run_ret, bind_run. by destruct (run_in n ep s) as [[qs s1]|].
  - rewrite !bind_run. destruct (liftM _ s) as [[p s1]|]; [|done].
    rewrite !bind_run. destruct (usb_serve_endpoints ep s1) as [[[] s2]|]; [|done].
    rewrite !bind_run, IH, !bind_run. destruct (run_in m ep s2) as [[ps s3]|]; [|done].
    cbv [mret M_ret]. rewrite !bind_run. by destruct (run_in n ep s3) as [[qs s4]|].
Qed.

Lemma length_cut max k bs : length (cut max k bs) = Datatypes.S k.
Proof. revert bs. induction k as [|k IH]; intros bs; simpl; [done|]. by rewrite IH. Qed.

(** The result of [m], for which [a] was already computed. *)
Definition with_result {A} (a : A) (r : option (unit * S)) : option (A * S) :=
  match r with Some (_, s) => Some (a, s) | None => None end.

Definition packet_count (bs : list Z) : nat := Datatypes.S ((length bs - 1) / ep0_size).

Lemma ep0_stage u st r ta ra : ep0_ok u r ta ra ->
  ep0_ok (set_u_drv (set_ep0state (fun _ => st)) u) r ta ra /\
  ep0_frame u (set_u_drv (set_ep0state (fun _ => st)) u).
Proof. intros Hok. split; [apply ep0_drv; [done|done|apply Hok]|by apply ep0_frame_drv]. Qed.

Lemma set_ep0_run st s : set_ep0 st s = Some (tt, inj (set_u_drv (set_ep0state (fun _ => st)) (proj s)) s).
Proof. reflexivity. Qed.

Lemma core_flags f g d : (forall t, Z.land (f t) 0xFFFE = Z.land t 0xFFFE) ->
  (forall t, Z.land (g t) 0xFFFE = Z.land t 0xFFFE) -> core (set_transmitting f (set_receiving g d)) = core d.
Proof.
  intros Hf Hg. destruct d. unfold core, set_ep0state, set_transmitting, set_receiving. simpl.
  by rewrite Hf, Hg.
Qed.
Lemma core_transmitting f d : (forall t, Z.land (f t) 0xFFFE = Z.land t 0xFFFE) ->
  core (set_transmitting f d) = core d.
Proof. intros Hf. rewrite <- (core_flags f (fun t => t) d) by done. by destruct d. Qed.

(** Bytes sent over endpoint zero, and the stage [st] entered: after the last packet the driver's
    [_usb_ep0in] runs. *)
Lemma ep0_transmit s r ta ra buf bs st : ep0_ok (proj s) r ta ra -> bytes_at (proj s) buf bs ->
  Forall (fun b => 0 <= b < 256) bs -> Z.of_nat (length bs) < 2 ^ 32 ->
  exists u2 r2, (liftM (usbStartTransmitI 0 buf (Z.of_nat (length bs)));; set_ep0 st;; run_in (packet_count bs) 0) s =
      with_result (packets ep0_size bs) (_usb_ep0in 0 (inj u2 s)) /\
    ep0_ok u2 r2 ta ra /\ ep0_frame (proj s) u2 /\ ep0state (u_drv u2) = st.
Proof.
  intros Hok Hbuf Hby Hlen.
  destruct (start_transmit_ok _ _ _ _ _ _ _ _ (can_send_ep0 _ _ _ _ Hok) Hbuf Hby Hlen)
    as (u0 & r0 & e0 & E0 & Hs0 & _ & Hf0).
  set (u1 := set_u_drv (set_ep0state (fun _ => st)) u0).
  assert (Hs1 : sending u1 0 ep0config r0 ep0_state ta e0 (take (Z.to_nat (in_maxsize ep0config)) bs)
    (drop (Z.to_nat (in_maxsize ep0config)) bs)).
  { by apply (sending_drv u0). }
  rewrite <- (proj_inj u1 s) in Hs1.
  destruct (sending_run _ _ _ _ _ _ _ _ Hs1) as (ps & last & s1 & s2 & u2 & r2 & e2 & E1 & E2 & Hps & E3 & Hsent & _ & Hf).
  rewrite proj_inj in Hf. rewrite inj_inj in E3.
  set (f := set_transmitting (fun t => u16 (Z.land t (Z.lnot (bit 0))))).
  assert (Hok0 : ep0_ok (mark_transmitting 0 (proj s)) r ta ra) by (apply ep0_drv; [done|done|apply Hok]).
  assert (Hok1 : ep0_ok u0 r0 ta ra).
  { eapply ep0_sent; [exact Hok0|exact Hf0|]. by destruct Hs0. }
  destruct (ep0_stage u0 st _ _ _ Hok1) as [Hok2 Hfr2]. fold u1 in Hok2, Hfr2.
  assert (Hok3 : ep0_ok u2 r2 ta ra).
  { eapply ep0_sent; [exact Hok2|exact Hf|]. by destruct Hsent. }
  assert (Hok4 : ep0_ok (set_u_drv f u2) r2 ta ra) by (apply ep0_drv; [done|done|apply Hok3]).
  exists (set_u_drv f u2), r2. split_and!; [|done| |].
  - unfold packet_count. change (Z.to_nat (in_maxsize ep0config)) with ep0_size in *.
    rewrite (run_lift _ _ _ _ _ E0), (run_call _ _ _ _ _ (set_ep0_run st _)), proj_inj, inj_inj. fold u1.
    rewrite run_in_snoc, (run_call _ _ _ _ _ E1), (run_call _ _ _ _ _ E2), bind_run, E3, Hps.
    unfold _usb_isr_invoke_in_cb, set_drv.
    rewrite (run_lift _ _ _ _ _ eq_refl), proj_inj, inj_inj. fold f.
    pose proof (epc_at_run _ _ _ _ (z_ep _ _ _ _ Hok4)) as Ec. rewrite <- (proj_inj (set_u_drv f u2) s) in Ec.
    rewrite (run_lift _ _ _ _ _ Ec), proj_inj, inj_inj. reflexivity.
  - etrans; [apply (ep0_frame_drv _ (set_transmitting (fun t => Z.lor t (u16 (bit 0)))));
      apply core_transmitting, core_bits|].
    etrans; [eapply ep0_frame_tx, Hf0|]. etrans; [exact Hfr2|]. etrans; [eapply ep0_frame_tx, Hf|].
    apply ep0_frame_drv, core_transmitting, core_bits.
  - simpl. by rewrite (tf_drv _ _ _ _ _ _ Hf).
Qed.


(** The same in the stage the driver already is in. *)
Lemma ep0_transmit_same s r ta ra buf bs : ep0_ok (proj s) r ta ra -> bytes_at (proj s) buf bs ->
  Forall (fun b => 0 <= b < 256) bs -> Z.of_nat (length bs) < 2 ^ 32 ->
  exists u2 r2, (liftM (usbStartTransmitI 0 buf (Z.of_nat (length bs)));; run_in (packet_count bs) 0) s =
      with_result (packets ep0_size bs) (_usb_ep0in 0 (inj u2 s)) /\
    ep0_ok u2 r2 ta ra /\ ep0_frame (proj s) u2 /\ ep0state (u_drv u2) = ep0state (u_drv (proj s)).
Proof.
  intros Hok Hbuf Hby Hlen.
  destruct (start_transmit_ok _ _ _ _ _ _ _ _ (can_send_ep0 _ _ _ _ Hok) Hbuf Hby Hlen)
    as (u0 & _ & _ & E0 & _ & _ & Hf0).
  destruct (ep0_transmit s r ta ra buf bs (ep0state (u_drv (proj s))) Hok Hbuf Hby Hlen)
    as (u2 & r2 & E & Hok2 & Hf2 & Hst2).
  exists u2, r2. split_and!; try done. rewrite <- E, !(run_lift _ _ _ _ _ E0).
  rewrite (run_call _ _ _ _ _ (set_ep0_run _ _)), proj_inj, inj_inj. f_equal. f_equal.
  pose proof (f_equal ep0state (tf_drv _ _ _ _ _ _ Hf0)) as Hst. simpl in Hst. rewrite <- Hst.
  by destruct u0 as [[] ? ? ?].
Qed.

(** Bytes received over endpoint zero: after the last packet [_usb_ep0out] runs. *)
Lemma ep0_receive s r ta ra p n ps last : ep0_ok (proj s) r ta ra -> 0 <= n < 2 ^ 16 ->
  Forall (fun q => length q = ep0_size) ps -> (length last <= ep0_size)%nat ->
  Forall (Forall (fun b => 0 <= b < 256)) (ps ++ [last]) ->
  Z.of_nat (length ps) < rx_packets 64 n ->
  (length last < ep0_size)%nat \/ Z.of_nat (length ps) + 1 = rx_packets 64 n ->
  room (proj s) p (length (concat (ps ++ [last]))) ->
  exists u2 r2, (liftM (usbStartReceiveI 0 p n);; run_out (ps ++ [last]) 0) s = _usb_ep0out 0 (inj u2 s) /\
    ep0_ok u2 r2 ta ra /\
    ep0_frame (set_u_mem (stored p (concat (ps ++ [last]))) (proj s)) u2 /\
    ep0state (u_drv u2) = ep0state (u_drv (proj s)) /\
    usbGetReceiveTransactionSizeX 0 u2 = Some (Z.of_nat (length (concat (ps ++ [last]))), u2).
Proof.
  intros Hok Hn Hps Hlast Hb Hlen Hend Hroom.
  assert (Hrx : rx_packets (out_maxsize ep0config) n < 2 ^ 16).
  { change (out_maxsize ep0config) with 64. unfold rx_packets. destruct (n =? 0); [lia|]. dlia. }
  assert (Hps' : Forall (fun q => Z.of_nat (length q) = out_maxsize ep0config) ps).
  { eapply Forall_impl; [exact Hps|]. intros q Hq. simpl in *. rewrite Hq. done. }
  assert (Htot : Z.of_nat (length (concat (ps ++ [last]))) < 2 ^ 32).
  { assert (length (concat (ps ++ [last])) <= 64 * (length ps + 1))%nat.
    { rewrite concat_app, length_app. simpl. rewrite app_nil_r. unfold ep0_size in *.
      assert (length (concat ps) = 64 * length ps)%nat; [|lia]. clear -Hps. induction Hps; simpl; [lia|].
      rewrite length_app. lia. }
    change (out_maxsize ep0config) with 64 in *. unfold ep0_size in *. lia. }
  destruct (receive_run s 0 ep0config r ep0_state ra p n ps last (can_receive_ep0 _ _ _ _ Hok))
    as (s1 & s2 & u2 & r2 & E1 & E2 & E3 & Hv & Hm & Hf); try done; try (simpl; unfold ep0_size in *; lia).
  set (f := set_receiving (fun t => u16 (Z.land t (Z.lnot (bit 0))))).
  assert (Hok1 : ep0_ok (mark_receiving 0 (proj s)) r ta ra) by (apply ep0_drv; [done|done|apply Hok]).
  pose proof (ep0_received _ _ _ _ _ _ _ Hok1 Hf Hv) as Hok2.
  assert (Hok3 : ep0_ok (set_u_drv f u2) r2 ta ra) by (apply ep0_drv; [done|done|apply Hok2]).
  assert (Hcore : forall g d, (forall t, Z.land (g t) 0xFFFE = Z.land t 0xFFFE) -> core (set_receiving g d) = core d).
  { intros g d Hg. destruct d. unfold core, set_ep0state, set_transmitting, set_receiving. simpl. by rewrite Hg. }
  exists (set_u_drv f u2), r2. split_and!.
  - assert (Hrun : forall qs s0, run_out (qs ++ [last]) 0 s0 =
      (run_out qs 0;; liftM (on_hw (host_out 0 last));; usb_serve_endpoints 0) s0).
    { induction qs as [|q qs IH]; intros s0; cbn [run_out app].
      - rewrite run_ret, !bind_run. destruct (liftM _ s0) as [[[] s3]|]; [|done]. apply bind_ret_unit.
      - rewrite !run_assoc, !bind_run. destruct (liftM _ s0) as [[[] s3]|]; [|done].
        rewrite !run_assoc, !bind_run. destruct (usb_serve_endpoints 0 s3) as [[[] s4]|]; [|done].
        rewrite IH, bind_run. done. }
    rewrite bind_run in E1 |- *. destruct (liftM (usbStartReceiveI 0 p n) s) as [[[] s0]|]; [|done].
    rewrite Hrun, (run_call _ _ _ _ _ E1), (run_call _ _ _ _ _ E2), E3.
    unfold _usb_isr_invoke_out_cb, set_drv.
    rewrite (run_lift _ _ _ _ _ eq_refl), proj_inj, inj_inj. fold f.
    pose proof (epc_at_run _ _ _ _ (z_ep _ _ _ _ Hok3)) as Ec. rewrite <- (proj_inj (set_u_drv f u2) s) in Ec.
    rewrite (run_lift _ _ _ _ _ Ec), proj_inj, inj_inj. reflexivity.
  - done.
  - destruct Hf as [D E R P _ _ _]. split; try done.
    + simpl. unfold f. rewrite Hcore by (intros; apply core_bits). rewrite D. simpl.
      rewrite Hcore; [done|]. intros t. apply core_bits.
  - simpl. by rewrite (rf_drv _ _ _ _ _ _ Hf).
  - unfold usbGetReceiveTransactionSizeX. rewrite (run_call _ _ _ _ _ (epc_at_run _ _ _ _ (z_ep _ _ _ _ Hok3))).
    destruct (v_cnt _ _ _ _ _ _ _ Hv) as (e & Ee & Hcnt). simpl out_state.
    rewrite (run_call _ _ _ _ _ (eps_at_run (set_u_drv f u2) _ _ Ee)). by rewrite Hcnt.
Qed.

(** ** Requests with data for the host *)

Definition wLength (req : list Z) : Z := Z.lor (nth 6 req 0) (Z.shiftl (nth 7 req 0) 8).
Definition bmRequestType (req : list Z) : Z := nth 0 req 0.

Lemma setup_at_run u req i : ud_setup (u_drv u) = req -> length req = 8%nat -> (i < 8)%nat ->
  setup_at i u = Some (nth i req 0, u).
Proof.
  intros <- Hl Hi. unfold setup_at, deref. destruct (lookup_lt_is_Some_2 (ud_setup (u_drv u)) i) as [x Hx]; [lia|].
  rewrite Hx. by rewrite (nth_lookup_Some _ _ _ _ Hx).
Qed.
Lemma get_hword_run u req : ud_setup (u_drv u) = req -> length req = 8%nat ->
  get_hword 6 u = Some (wLength req, u).
Proof.
  intros Hu Hl. unfold get_hword. rewrite (run_call _ _ _ _ _ (setup_at_run u req 6 Hu Hl ltac:(lia))).
  by rewrite (run_call _ _ _ _ _ (setup_at_run u req 7 Hu Hl ltac:(lia))).
Qed.

(** The handlers have set up a transfer of [bs] at [buf]. *)
Record answers (req : list Z) (s : S) (buf : ptr) (n : Z) (endcb : option usbcallback_t) (s' : S)
    (r ta ra : Z) : Prop := {
  an_run : handle_request s = Some (true, s');
  an_ok : ep0_ok (proj s') r ta ra;
  an_setup : ud_setup (u_drv (proj s')) = req;
  an_next : ep0next (u_drv (proj s')) = buf;
  an_n : ep0n (u_drv (proj s')) = n;
  an_end : ep0endcb (u_drv (proj s')) = endcb
}.

(** A standard request that no hook handles is left to the default handler. *)
Definition unhooked s : Prop := forall f, requests_hook_cb = Some f -> f s = Some (false, s).
Definition request_key (req : list Z) : Z :=
  Z.lor (Z.land (nth 0 req 0) (Z.lor USB_RTYPE_RECIPIENT_MASK USB_RTYPE_TYPE_MASK)) (Z.shiftl (nth 1 req 0) 8).

Lemma lift_same {A B} (m : M usb A) (k : A -> M S B) s a : m (proj s) = Some (a, proj s) ->
  (liftM m ≫= k) s = k a s.
Proof. intros E. by rewrite (run_lift _ _ _ _ _ E), inj_proj. Qed.

Lemma lift_setup {B} (k : Z -> M S B) s req i : ud_setup (u_drv (proj s)) = req -> length req = 8%nat ->
  (i < 8)%nat -> (liftM (setup_at i) ≫= k) s = k (nth i req 0) s.
Proof. intros Hs Hl Hi. apply lift_same. by apply setup_at_run. Qed.

Lemma config_set_run {B} (k : unit -> M S B) s : ud_config (u_drv (proj s)) = true -> (config_set ≫= k) s = k tt s.
Proof.
  intros Hc. unfold config_set. rewrite run_assoc, (lift_same (drv ud_config) _ s true); [done|].
  unfold drv, gets. by rewrite Hc.
Qed.

Lemma handle_request_std s req : ud_config (u_drv (proj s)) = true -> ud_setup (u_drv (proj s)) = req ->
  length req = 8%nat -> unhooked s -> Z.land (nth 0 req 0) USB_RTYPE_TYPE_MASK = USB_RTYPE_TYPE_STD ->
  handle_request s = default_handler s.
Proof.
  intros Hc Hs Hl Hh Ht. unfold handle_request. rewrite (config_set_run _ _ Hc).
  rewrite (run_call _ _ s false s); [|destruct requests_hook_cb as [f|] eqn:E; [by apply Hh|done]].
  cbv iota. rewrite (lift_setup _ _ _ _ Hs Hl) by lia. by rewrite Ht.
Qed.

(** The driver with a transfer set up. *)
Definition prepared (p : ptr) (n : Z) (endcb : option usbcallback_t) : usb -> usb :=
  set_u_drv (fun d => set_ep0endcb (fun _ => endcb) (set_ep0n (fun _ => n) (set_ep0next (fun _ => p) d))).

(** The descriptor the callback gives is the data of the transfer. *)
Lemma get_descriptor_run s req dp : ud_config (u_drv (proj s)) = true -> ud_setup (u_drv (proj s)) = req ->
  length req = 8%nat -> unhooked s -> Z.land (nth 0 req 0) USB_RTYPE_TYPE_MASK = USB_RTYPE_TYPE_STD ->
  (request_key req =? HalUsb.req USB_RTYPE_RECIPIENT_DEVICE USB_REQ_GET_DESCRIPTOR) ||
    (request_key req =? HalUsb.req USB_RTYPE_RECIPIENT_INTERFACE USB_REQ_GET_DESCRIPTOR) = true ->
  get_descriptor_cb (nth 3 req 0) (nth 2 req 0) (Z.lor (nth 4 req 0) (Z.shiftl (nth 5 req 0) 8)) s =
    Some (dp, s) ->
  handle_request s =
    match dp with Some (p, n) => Some (true, inj (prepared p n None (proj s)) s) | None => Some (false, s) end.
Proof.
  intros Hc Hs Hl Hh Ht Hk Hcb. rewrite (handle_request_std _ _ Hc Hs Hl Hh Ht). unfold default_handler.
  rewrite !(lift_setup _ _ _ _ Hs Hl) by lia. fold (request_key req). cbv zeta.
  rewrite Hk, !(lift_setup _ _ _ _ Hs Hl) by lia.
  rewrite (lift_same _ _ s (Z.lor (nth 4 req 0) (Z.shiftl (nth 5 req 0) 8))).
  - rewrite (config_set_run _ _ Hc), (run_call _ _ _ _ _ Hcb). destruct dp as [[p n]|]; [|done].
    by rewrite (run_lift _ _ _ _ _ eq_refl).
  - unfold get_hword. rewrite (run_call _ _ _ _ _ (setup_at_run _ _ 4 Hs Hl ltac:(lia))).
    by rewrite (run_call _ _ _ _ _ (setup_at_run _ _ 5 Hs Hl ltac:(lia))).
Qed.

(** The packets the host gets: at most as many bytes as it asked for, and an empty packet behind
    whole ones if there are fewer. *)
Definition reply (req bs : list Z) : list (list Z) :=
  let data := take (Z.to_nat (wLength req)) bs in
  if decide (data = []) then []
  else packets ep0_size data ++
    (if (Z.of_nat (length data) <? wLength req) && (length data `mod` ep0_size =? 0)%nat then [[]] else []).

(** The status stage of a transfer of data to the host. *)
Lemma status_stage s r ta ra : ep0_ok (proj s) r ta ra -> ep0endcb (u_drv (proj s)) = None ->
  exists u1 r1, (wait_status;; liftM (on_hw (host_out 0 []));; usb_serve_endpoints 0) s = Some (tt, inj u1 s) /\
    ep0_ok u1 r1 ta ra /\ ep0_frame (proj s) u1 /\ ep0state (u_drv u1) = USB_EP0_STP_WAITING.
Proof.
  intros Hok Hend. set (u0 := set_u_drv (set_ep0state (fun _ => USB_EP0_OUT_WAITING_STS)) (proj s)).
  assert (Hok0 : ep0_ok u0 r ta ra) by (apply ep0_drv; [done|done|apply Hok]).
  rewrite <- (proj_inj u0 s) in Hok0.
  destruct (ep0_receive (inj u0 s) r ta ra null 0 [] []) as (u2 & r2 & E & Hok2 & Hf2 & Hst2 & Hsz); try done.
  { simpl. lia. } { by repeat constructor. } { by right. } { by left. }
  rewrite proj_inj in Hf2, Hst2. simpl in Hst2.
  set (u3 := set_u_drv (set_ep0state (fun _ => USB_EP0_STP_WAITING)) u2).
  exists u3, r2. split_and!; try done.
  - unfold wait_status, set_ep0, set_drv. rewrite !run_assoc, (run_lift _ _ _ _ _ eq_refl). fold u0.
    assert (E' : (liftM (usbStartReceiveI 0 null 0);; liftM (on_hw (host_out 0 []));; usb_serve_endpoints 0) (inj u0 s) =
      _usb_ep0out 0 (inj u2 s)).
    { rewrite inj_inj in E. rewrite <- E. cbn [run_out app]. rewrite !bind_run.
      destruct (liftM (usbStartReceiveI 0 null 0) _) as [[[] s1]|]; [|done]. rewrite !bind_run.
      destruct (liftM _ s1) as [[[] s2]|]; [|done]. by rewrite bind_ret_unit. }
    rewrite E'. unfold _usb_ep0out. rewrite (run_lift _ _ _ _ _ eq_refl), proj_inj, inj_inj, Hst2.
    rewrite <- (proj_inj u2 s) in Hsz. rewrite (run_lift _ _ _ _ _ Hsz), proj_inj, inj_inj. simpl.
    unfold end_transfer. rewrite (run_lift _ _ _ _ _ eq_refl), proj_inj, inj_inj.
    assert (ep0endcb (u_drv u2) = None) as ->.
    { pose proof (zf_drv _ _ Hf2) as Hd. apply (f_equal ep0endcb) in Hd. simpl in Hd. congruence. }
    rewrite run_ret. unfold set_ep0, set_drv, liftM. simpl. by rewrite proj_inj, inj_inj.
  - apply ep0_drv; [done|done|apply Hok2].
  - etrans; [by apply (ep0_frame_drv (proj s) (set_ep0state (fun _ => USB_EP0_OUT_WAITING_STS)))|].
    etrans; [|by apply (ep0_frame_drv u2 (set_ep0state (fun _ => USB_EP0_STP_WAITING)))].
    destruct Hf2 as [D M E2 R P]. split; try done.
Qed.

(** The number of bytes that are transferred. *)
Definition clip (req : list Z) (n : Z) : Z := if wLength req <? n then wLength req else n.

(** The stage after the handlers. *)
Lemma start_transfer_run req s buf n endcb s' r ta ra : answers req s buf n endcb s' r ta ra ->
  length req = 8%nat ->
  let u := set_u_drv (set_ep0n (fun n => if wLength req <? n then wLength req else n)) (proj s') in
  answer s = (if Z.land (bmRequestType req) USB_RTYPE_DIR_MASK =? USB_RTYPE_DIR_DEV2HOST then
      if negb (clip req n =? 0) then set_ep0 USB_EP0_IN_TX;; liftM (usbStartTransmitI 0 buf (clip req n))
      else wait_status
    else if negb (clip req n =? 0) then set_ep0 USB_EP0_OUT_RX;; liftM (usbStartReceiveI 0 buf (clip req n))
      else set_ep0 USB_EP0_IN_SENDING_STS;; liftM (usbStartTransmitI 0 null 0)) (inj u s') /\
  ep0_ok u r ta ra /\ ep0n (u_drv u) = clip req n.
Proof.
  intros [Hrun Hok Hset Hnext Hn Hend] Hreq u. split; [|split; [|by simpl; rewrite Hn]].
  - unfold answer. rewrite (run_call _ _ _ _ _ Hrun). unfold start_transfer.
    rewrite (run_lift _ _ _ _ _ (get_hword_run _ _ Hset Hreq)), inj_proj. unfold set_drv.
    rewrite (run_lift _ _ _ _ _ eq_refl). fold u.
    rewrite (run_lift _ _ _ _ _ eq_refl), proj_inj, inj_inj.
    rewrite (run_lift _ _ _ _ _ eq_refl), proj_inj, inj_inj.
    pose proof (setup_at_run u req 0 Hset Hreq ltac:(lia)) as E. rewrite <- (proj_inj u s') in E.
    rewrite (run_lift _ _ _ _ _ E), proj_inj, inj_inj. assert (ep0n (u_drv u) = clip req n) as -> by (unfold u; simpl; by rewrite Hn).
    assert (ep0next (u_drv u) = buf) as -> by (unfold u; simpl; by rewrite Hnext). done.
  - apply ep0_drv; [done|done|apply Hok].
Qed.

Lemma wLength_nonneg req : Forall (fun b => 0 <= b < 256) req -> 0 <= wLength req.
Proof.
  intros Hb. assert (forall i, 0 <= nth i req 0).
  { intros i. rewrite nth_lookup. destruct (req !! i) as [x|] eqn:E; simpl; [|lia].
    apply (Forall_lookup_1 _ _ _ _ Hb) in E. lia. }
  unfold wLength. apply Z.lor_nonneg. split; [done|]. by apply Z.shiftl_nonneg.
Qed.

Lemma with_result_bind {A B} (a : A) r (k : A -> M S B) :
  match with_result a r with Some (a, s) => k a s | None => None end =
  match r with Some (_, s) => k a s | None => None end.
Proof. by destruct r as [[[] s]|]. Qed.

(** The data stage of a transfer to the host, up to the wait for the status. *)
Lemma data_in_stage s r ta ra req buf bs : ep0_ok (proj s) r ta ra ->
  ud_setup (u_drv (proj s)) = req -> length req = 8%nat -> ep0n (u_drv (proj s)) = Z.of_nat (length bs) ->
  bytes_at (proj s) buf bs -> Forall (fun b => 0 <= b < 256) bs -> Z.of_nat (length bs) < 2 ^ 32 ->
  let ps := packets ep0_size bs ++
    (if (Z.of_nat (length bs) <? wLength req) && (length bs `mod` ep0_size =? 0)%nat then [[]] else []) in
  exists u1 r1,
    (set_ep0 USB_EP0_IN_TX;; liftM (usbStartTransmitI 0 buf (Z.of_nat (length bs)));; run_in (length ps) 0) s =
      with_result ps (wait_status (inj u1 s)) /\
    ep0_ok u1 r1 ta ra /\ ep0_frame (proj s) u1.
Proof.
  intros Hok Hset Hreq Hn Hbuf Hby Hlen ps.
  destruct (ep0_stage (proj s) USB_EP0_IN_TX r ta ra Hok) as [Hok0 Hf0].
  set (u0 := set_u_drv (set_ep0state (fun _ => USB_EP0_IN_TX)) (proj s)) in *.
  rewrite (run_call _ _ _ _ _ (set_ep0_run _ _)). fold u0. rewrite <- (proj_inj u0 s) in Hok0.
  destruct (ep0_transmit_same (inj u0 s) r ta ra buf bs Hok0) as (u2 & r2 & E & Hok2 & Hf2 & Hst2); try done.
  { rewrite proj_inj. destruct Hbuf as [->|(o & off & l & x & -> & El & Ed)]; [by left|]. right.
    exists o, off, l, x. split; [done|]. split; [by destruct o|done]. }
  rewrite proj_inj in Hf2, Hst2. rewrite inj_inj in E.
  assert (Hcore : core (u_drv u2) = core (u_drv (proj s))) by apply (zf_drv _ _ Hf2).
  pose proof (f_equal ud_setup Hcore) as Hset2. pose proof (f_equal ep0n Hcore) as Hn2. simpl in Hset2, Hn2.
  rewrite Hset in Hset2. rewrite Hn in Hn2.
  assert (Ein : _usb_ep0in 0 (inj u2 s) =
    (if (Z.of_nat (length bs) <? wLength req) && (Z.of_nat (length bs) mod 64 =? 0)
     then liftM (usbStartTransmitI 0 null 0);; set_ep0 USB_EP0_IN_WAITING_TX0 else wait_status) (inj u2 s)).
  { unfold _usb_ep0in. rewrite (run_lift _ _ _ _ _ eq_refl), proj_inj, inj_inj, Hst2. cbn [ep0state set_ep0state u_drv set_u_drv u0].
    pose proof (get_hword_run u2 req Hset2 Hreq) as Eg. rewrite <- (proj_inj u2 s) in Eg.
    rewrite (run_lift _ _ _ _ _ Eg), proj_inj, inj_inj, (run_lift _ _ _ _ _ eq_refl), proj_inj, inj_inj, Hn2.
    pose proof (epc_at_run _ _ _ _ (z_ep _ _ _ _ Hok2)) as Ec. rewrite <- (proj_inj u2 s) in Ec.
    by rewrite (run_lift _ _ _ _ _ Ec), proj_inj, inj_inj. }
  assert (Hc : length (packets ep0_size bs) = packet_count bs) by apply length_cut.
  assert (Hz : (Z.of_nat (length bs) mod 64 =? 0) = (length bs `mod` ep0_size =? 0)%nat).
  { unfold ep0_size. pose proof (Nat2Z.inj_mod (length bs) 64) as Hm. change (Z.of_nat 64) with 64 in Hm. rewrite <- Hm.
    by destruct (length bs `mod` 64)%nat. }
  rewrite Hz in Ein. unfold ps.
  destruct ((Z.of_nat (length bs) <? wLength req) && (length bs `mod` ep0_size =? 0)%nat).
  2: { exists u2, r2. rewrite app_nil_r, Hc, E, Ein. split; [done|]. split; [done|]. by etrans. }
  rewrite <- (proj_inj u2 s) in Hok2.
  destruct (ep0_transmit (inj u2 s) r2 ta ra null [] USB_EP0_IN_WAITING_TX0 Hok2) as (u3 & r3 & E3 & Hok3 & Hf3 & Hst3);
    [by left|by constructor|done|].
  rewrite proj_inj in Hf3. rewrite inj_inj in E3. exists u3, r3. split; [|split; [done|by do 2 (etrans; [eassumption|])]].
  assert (E4 : (liftM (usbStartTransmitI 0 null 0);; set_ep0 USB_EP0_IN_WAITING_TX0;; run_in 1 0) (inj u2 s) =
    with_result [[]] (wait_status (inj u3 s))).
  { etrans; [exact E3|]. f_equal. unfold _usb_ep0in.
    by rewrite (run_lift _ _ _ _ _ eq_refl), proj_inj, inj_inj, Hst3. }
  rewrite <- run_assoc, bind_run, <- Ein in E4.
  rewrite length_app, Hc. change (length [[]]) with 1%nat. rewrite bind_run in E |- *.
  destruct (liftM (usbStartTransmitI 0 buf _) _) as [[[] s1]|].
  - rewrite run_in_app, bind_run, E, with_result_bind. destruct (_usb_ep0in 0 (inj u2 s)) as [[[] s2]|].
    + rewrite bind_run, E4, with_result_bind. by destruct (wait_status _) as [[[] s5]|].
    + by destruct (wait_status _) as [[[] s5]|].
  - destruct (_usb_ep0in 0 (inj u2 s)) as [[[] s2]|]; [done|]. by destruct (wait_status _) as [[[] s5]|].
Qed.

Lemma bytes_at_drv u f p bs : (forall o, object_bytes o (set_u_drv f u) = object_bytes o u) ->
  bytes_at u p bs -> bytes_at (set_u_drv f u) p bs.
Proof.
  intros Hf [->|(o & off & l & x & -> & El & Ed)]; [by left|]. right. exists o, off, l, x. by rewrite Hf.
Qed.
Lemma bytes_at_take u p bs n : bytes_at u p bs -> bytes_at u p (take n bs).
Proof.
  intros [->|(o & off & l & x & -> & El & Ed)]; [left; by rewrite take_nil|]. right.
  exists o, off, l, (drop n bs ++ x). split; [done|]. split; [done|]. by rewrite app_assoc, take_drop.
Qed.

(** The state in which the request [req] is handled, from [s]. *)
Record requested (req : list Z) (s s1 : S) (r ta ra : Z) : Prop := {
  rq_state : exists u1, s1 = inj u1 s;
  rq_ok : ep0_ok (proj s1) r ta ra;
  rq_setup : ud_setup (u_drv (proj s1)) = req;
  rq_naks : naks r;
  rq_frame : ep0_frame (set_u_drv (set_ud_setup (fun _ => req)) (proj s)) (proj s1)
}.

(** What is left after a transfer of data to the host whose handlers ended in [s2]. *)
Record finished (req : list Z) (s2 s3 : S) : Prop := {
  fi_state : exists u3, s3 = inj u3 s2;
  fi_ok : exists r ta ra, ep0_ok (proj s3) r ta ra;
  fi_frame : ep0_frame (set_u_drv (set_ep0n (fun n => if wLength req <? n then wLength req else n)) (proj s2)) (proj s3);
  fi_stage : ep0state (u_drv (proj s3)) = USB_EP0_STP_WAITING
}.

Lemma read_run s1 s2 r ta ra req buf bs : answers req s1 buf (Z.of_nat (length bs)) None s2 r ta ra ->
  length req = 8%nat -> Forall (fun b => 0 <= b < 256) req ->
  Z.land (bmRequestType req) USB_RTYPE_DIR_MASK = USB_RTYPE_DIR_DEV2HOST ->
  bytes_at (proj s2) buf bs -> Forall (fun b => 0 <= b < 256) bs -> Z.of_nat (length bs) < 2 ^ 32 ->
  exists s3, (answer;; ps ← run_in (length (reply req bs)) 0; liftM (on_hw (host_out 0 []));; usb_serve_endpoints 0;;
    mret ps) s1 = Some (reply req bs, s3) /\ finished req s2 s3.
Proof.
  intros Ha Hreq Hbr Hdir Hbuf Hby Hlen.
  destruct (start_transfer_run _ _ _ _ _ _ _ _ _ Ha Hreq) as (E & Hok & Hn).
  set (u := set_u_drv (set_ep0n (fun n => if wLength req <? n then wLength req else n)) (proj s2)) in *.
  assert (Hcl : clip req (Z.of_nat (length bs)) = Z.of_nat (length (take (Z.to_nat (wLength req)) bs))).
  { pose proof (wLength_nonneg req Hbr). unfold clip. rewrite length_take.
    destruct (Z.ltb_spec (wLength req) (Z.of_nat (length bs))); lia. }
  rewrite Hcl in E, Hn. unfold reply. set (data := take (Z.to_nat (wLength req)) bs) in *.
  rewrite bind_run, E, Hdir. clear E. change (USB_RTYPE_DIR_DEV2HOST =? USB_RTYPE_DIR_DEV2HOST) with true. cbv iota.
  assert (Hend : forall u' r', ep0_ok u' r' ta ra -> ep0_frame u u' -> exists s3, finished req s2 s3 /\
    (wait_status;; liftM (on_hw (host_out 0 []));; usb_serve_endpoints 0) (inj u' s2) = Some (tt, s3)).
  { intros u' r' Hok' Hf'. rewrite <- (proj_inj u' s2) in Hok'.
    destruct (status_stage (inj u' s2) r' ta ra Hok') as (u3 & r3 & E3 & Hok3 & Hf3 & Hst3).
    { rewrite proj_inj. pose proof (f_equal ep0endcb (zf_drv _ _ Hf')) as He. simpl in He.
      rewrite He. apply (an_end _ _ _ _ _ _ _ _ _ Ha). }
    rewrite proj_inj in Hf3. rewrite inj_inj in E3. exists (inj u3 s2). split; [|done].
    split; rewrite ?proj_inj; [by eexists|by eexists _, _, _|by etrans|done]. }
  destruct (decide (data = [])) as [Hd|Hd].
  - rewrite Hd. simpl. destruct (Hend u r Hok) as (s3 & Hfin & E3); [done|]. exists s3. split; [|done].
    rewrite bind_run in E3. destruct (wait_status (inj u s2)) as [[[] s4]|]; [|done].
    rewrite run_ret, !bind_run in *. destruct (liftM _ s4) as [[[] s5]|]; [|done]. rewrite !bind_run.
    by rewrite E3.
  - assert (Hnz : negb (Z.of_nat (length data) =? 0) = true) by (destruct data; [done|simpl; lia]).
    rewrite Hnz. rewrite <- (proj_inj u s2) in Hok, Hn.
    destruct (data_in_stage (inj u s2) r ta ra req buf data Hok) as (u3 & r3 & E3 & Hok3 & Hf3); try done.
    { rewrite proj_inj. apply (an_setup _ _ _ _ _ _ _ _ _ Ha). }
    { rewrite proj_inj. apply bytes_at_take. apply bytes_at_drv; [by intros []|done]. }
    { by apply Forall_take. }
    { unfold data. rewrite length_take. lia. }
    rewrite proj_inj in Hf3. rewrite inj_inj in E3.
    destruct (Hend u3 r3 Hok3 Hf3) as (s3 & Hfin & E4). exists s3. split; [|done].
    rewrite <- run_assoc, bind_run in E3.
    destruct ((set_ep0 USB_EP0_IN_TX;; liftM (usbStartTransmitI 0 buf _)) (inj u s2)) as [[[] s4]|].
    + rewrite bind_run, E3, with_result_bind. rewrite bind_run in E4.
      destruct (wait_status (inj u3 s2)) as [[[] s5]|]; [|done].
      rewrite !bind_run in *. destruct (liftM _ s5) as [[[] s6]|]; [|done]. rewrite !bind_run. by rewrite E4.
    + rewrite bind_run in E4. by destruct (wait_status (inj u3 s2)) as [[[] s5]|].
Qed.

(** C25: A control transfer with data for the host.  Whatever handler of the driver or of the program sets up
    [bs] as the answer to a request: the host, asking for [wLength] bytes, reads the first bytes of
    [bs], at most that many, in packets of 64 bytes, closed by an empty packet when the answer is shorter than asked
    for but made of whole packets; the status stage completes, and endpoint zero waits for the
    next request. *)
Theorem control_read_ok s r ta ra req bs : ep0_ok (proj s) r ta ra ->
  length req = 8%nat -> Forall (fun b => 0 <= b < 256) req ->
  Z.land (bmRequestType req) USB_RTYPE_DIR_MASK = USB_RTYPE_DIR_DEV2HOST ->
  Forall (fun b => 0 <= b < 256) bs -> Z.of_nat (length bs) < 2 ^ 32 ->
  (forall s1 r1, requested req s s1 r1 ta ra -> exists buf s2 r2 ta2 ra2,
    answers req s1 buf (Z.of_nat (length bs)) None s2 r2 ta2 ra2 /\ bytes_at (proj s2) buf bs) ->
  exists s1 r1 s2 s3, requested req s s1 r1 ta ra /\ handle_request s1 = Some (true, s2) /\
    control_read req (length (reply req bs)) s = Some (reply req bs, s3) /\ finished req s2 s3.
Proof.
  intros Hok Hreq Hbr Hdir Hby Hlen Hans.
  destruct (setup_stage s r ta ra req Hok Hreq Hbr) as (u0 & u1 & r1 & E0 & E1 & Hok1 & Hset & Hf1 & Hnak).
  assert (Hrq : requested req s (inj u1 s) r1 ta ra).
  { split; rewrite ?proj_inj; try done. by eexists. }
  destruct (Hans _ _ Hrq) as (buf & s2 & r2 & ta2 & ra2 & Ha & Hbuf).
  destruct (read_run _ _ _ _ _ _ _ _ Ha Hreq Hbr Hdir Hbuf Hby Hlen) as (s3 & E3 & Hfin).
  exists (inj u1 s), r1, s2, s3. split; [done|]. split; [apply Ha|]. split; [|done].
  unfold control_read. rewrite (run_lift _ _ _ _ _ E0), <- E3, !bind_run. by rewrite E1.
Qed.

(** ** Requests without data, and with data from the host *)

(** The status stage of a transfer from the host: an empty packet, then the end of the transfer. *)
Lemma status_in_stage s r ta ra : ep0_ok (proj s) r ta ra ->
  exists u1 r1, (set_ep0 USB_EP0_IN_SENDING_STS;; liftM (usbStartTransmitI 0 null 0);;
      st ← liftM (on_hw (host_in 0)); usb_serve_endpoints 0;; mret st) s =
      with_result [] (end_transfer (inj u1 s)) /\
    ep0_ok u1 r1 ta ra /\ ep0_frame (proj s) u1.
Proof.
  intros Hok. destruct (ep0_stage (proj s) USB_EP0_IN_SENDING_STS r ta ra Hok) as [Hok0 Hf0].
  set (u0 := set_u_drv (set_ep0state (fun _ => USB_EP0_IN_SENDING_STS)) (proj s)) in *.
  rewrite <- (proj_inj u0 s) in Hok0.
  destruct (ep0_transmit_same (inj u0 s) r ta ra null [] Hok0) as (u2 & r2 & E & Hok2 & Hf2 & Hst2);
    [by left|by constructor|done|].
  rewrite proj_inj in Hf2, Hst2. rewrite inj_inj in E.
  exists u2, r2. split; [|split; [done|by etrans]].
  rewrite (run_call _ _ _ _ _ (set_ep0_run _ _)). fold u0.
  assert (Ein : _usb_ep0in 0 (inj u2 s) = end_transfer (inj u2 s)).
  { unfold _usb_ep0in. by rewrite (run_lift _ _ _ _ _ eq_refl), proj_inj, inj_inj, Hst2. }
  rewrite Ein in E. change (Z.of_nat (length [])) with 0 in E. rewrite bind_run in E. rewrite bind_run.
  destruct (liftM (usbStartTransmitI 0 null 0) _) as [[[] s1]|]; [|by destruct (end_transfer _) as [[[] s2]|]].
  change (run_in (packet_count []) 0) with
    (p ← liftM (on_hw (host_in 0)); usb_serve_endpoints 0;; ps ← mret []; mret (p :: ps)) in E.
  rewrite bind_run in E. rewrite bind_run. destruct (liftM (on_hw (host_in 0)) s1) as [[p s2]|];
    [|by destruct (end_transfer _) as [[[] s3]|]].
  rewrite bind_run in E. rewrite bind_run. destruct (usb_serve_endpoints 0 s2) as [[[] s3]|];
    [|by destruct (end_transfer _) as [[[] s4]|]].
  rewrite run_ret in E. destruct (end_transfer _) as [[[] s4]|]; [|done]. by injection E as -> ->.
Qed.

(** The data stage of a transfer from the host. *)
Lemma data_out_stage s r ta ra buf n ps last : ep0_ok (proj s) r ta ra -> 0 < n < 2 ^ 16 ->
  Forall (fun q => length q = ep0_size) ps -> (length last <= ep0_size)%nat ->
  Forall (Forall (fun b => 0 <= b < 256)) (ps ++ [last]) ->
  Z.of_nat (length ps) < rx_packets 64 n ->
  (length last < ep0_size)%nat \/ Z.of_nat (length ps) + 1 = rx_packets 64 n ->
  room (proj s) buf (length (concat (ps ++ [last]))) ->
  exists u1 r1, (set_ep0 USB_EP0_OUT_RX;; liftM (usbStartReceiveI 0 buf n);; run_out (ps ++ [last]) 0;;
      st ← liftM (on_hw (host_in 0)); usb_serve_endpoints 0;; mret st) s =
      with_result [] (end_transfer (inj u1 s)) /\
    ep0_ok u1 r1 ta ra /\ ep0_frame (set_u_mem (stored buf (concat (ps ++ [last]))) (proj s)) u1.
Proof.
  intros Hok Hn Hps Hlast Hb Hlen Hend Hroom.
  destruct (ep0_stage (proj s) USB_EP0_OUT_RX r ta ra Hok) as [Hok0 Hf0].
  set (u0 := set_u_drv (set_ep0state (fun _ => USB_EP0_OUT_RX)) (proj s)) in *.
  rewrite <- (proj_inj u0 s) in Hok0.
  destruct (ep0_receive (inj u0 s) r ta ra buf n ps last Hok0) as (u2 & r2 & E & Hok2 & Hf2 & Hst2 & _); try done; [lia| |].
  { by rewrite proj_inj. }
  rewrite proj_inj in Hf2, Hst2. rewrite inj_inj in E.
  rewrite <- (proj_inj u2 s) in Hok2.
  destruct (status_in_stage (inj u2 s) r2 ta ra Hok2) as (u3 & r3 & E3 & Hok3 & Hf3).
  rewrite proj_inj in Hf3. rewrite inj_inj in E3. exists u3, r3. split; [|split; [done|]].
  - rewrite (run_call _ _ _ _ _ (set_ep0_run _ _)). fold u0. rewrite <- run_assoc, bind_run, E.
    assert (Eout : _usb_ep0out 0 (inj u2 s) =
      (set_ep0 USB_EP0_IN_SENDING_STS;; liftM (usbStartTransmitI 0 null 0)) (inj u2 s)).
    { unfold _usb_ep0out. by rewrite (run_lift _ _ _ _ _ eq_refl), proj_inj, inj_inj, Hst2. }
    rewrite Eout. rewrite <- run_assoc, bind_run in E3. exact E3.
  - etrans; [|exact Hf3]. destruct Hf2 as [D M E2 R P]. split; try done.
Qed.

(** A control transfer from the host, up to its end: the packets of the host are in the buffer the
    handlers named -- at most as many bytes are expected as the buffer and the request have --
    and the status packet was sent.  Then the callback of the transfer runs, after which endpoint zero
    waits for the next request. *)
Theorem control_write_ok s r ta ra req buf n endcb ps : ep0_ok (proj s) r ta ra ->
  length req = 8%nat -> Forall (fun b => 0 <= b < 256) req ->
  Z.land (bmRequestType req) USB_RTYPE_DIR_MASK <> USB_RTYPE_DIR_DEV2HOST ->
  0 <= n < 2 ^ 16 ->
  (clip req n = 0 -> ps = []) ->
  (clip req n <> 0 -> exists qs last, ps = qs ++ [last] /\ Forall (fun q => length q = ep0_size) qs /\
    (length last <= ep0_size)%nat /\ Z.of_nat (length qs) < rx_packets 64 (clip req n) /\
    ((length last < ep0_size)%nat \/ Z.of_nat (length qs) + 1 = rx_packets 64 (clip req n))) ->
  Forall (Forall (fun b => 0 <= b < 256)) ps ->
  (forall s1 r1, requested req s s1 r1 ta ra -> exists s2 r2 ta2 ra2,
    answers req s1 buf n endcb s2 r2 ta2 ra2 /\ room (proj s2) buf (length (concat ps))) ->
  exists s1 r1 s2 u3 r3 ta3 ra3, requested req s s1 r1 ta ra /\ handle_request s1 = Some (true, s2) /\
    control_write req ps s = with_result [] (end_transfer (inj u3 s2)) /\
    ep0_ok u3 r3 ta3 ra3 /\ ep0endcb (u_drv u3) = endcb /\
    ep0_frame (set_u_mem (stored buf (concat ps))
      (set_u_drv (set_ep0n (fun n => if wLength req <? n then wLength req else n)) (proj s2))) u3.
Proof.
  intros Hok Hreq Hbr Hdir Hn Hnone Hsome Hby Hans.
  destruct (setup_stage s r ta ra req Hok Hreq Hbr) as (u0 & u1 & r1 & E0 & E1 & Hok1 & Hset & Hf1 & Hnak).
  assert (Hrq : requested req s (inj u1 s) r1 ta ra).
  { split; rewrite ?proj_inj; try done. by eexists. }
  destruct (Hans _ _ Hrq) as (s2 & r2 & ta2 & ra2 & Ha & Hroom).
  destruct (start_transfer_run _ _ _ _ _ _ _ _ _ Ha Hreq) as (E & Hok2 & _).
  set (u := set_u_drv (set_ep0n (fun n => if wLength req <? n then wLength req else n)) (proj s2)) in *.
  rewrite (proj2 (Z.eqb_neq _ _) Hdir) in E. rewrite <- (proj_inj u s2) in Hok2.
  pose proof (wLength_nonneg req Hbr) as Hw.
  assert (Hcl : 0 <= clip req n <= n) by (unfold clip; destruct (Z.ltb_spec (wLength req) n); lia).
  assert (Hgoal : exists u3 r3, control_write req ps s = with_result [] (end_transfer (inj u3 s2)) /\
    ep0_ok u3 r3 ta2 ra2 /\ ep0_frame (set_u_mem (stored buf (concat ps)) u) u3).
  { unfold control_write. rewrite (run_lift _ _ _ _ _ E0), bind_run, E1, E. clear E E0 E1.
    destruct (Z.eqb_spec (clip req n) 0) as [Hz|Hz]; cbv [negb].
    - rewrite (Hnone Hz). destruct (status_in_stage (inj u s2) r2 ta2 ra2 Hok2) as (u3 & r3 & E3 & Hok3 & Hf3).
      rewrite proj_inj in Hf3. rewrite inj_inj in E3. exists u3, r3. split; [|split; [done|]].
      + rewrite <- E3. symmetry. rewrite <- run_assoc, bind_run. symmetry.
        match goal with |- match ?x with _ => _ end = _ => destruct x as [[[] s3]|] end; [|done]. reflexivity.
      + simpl. etrans; [|exact Hf3]. split; try done; [symmetry; apply stored_nil|].
        change (u_hw (set_u_mem (stored buf []) u)) with (u_hw u). by destruct (u_hw u).
    - destruct (Hsome Hz) as (qs & last & -> & Hq & Hl & Hlt & Hend).
      destruct (data_out_stage (inj u s2) r2 ta2 ra2 buf (clip req n) qs last Hok2) as (u3 & r3 & E3 & Hok3 & Hf3); try done; [lia| |].
      { rewrite proj_inj. destruct Hroom as [Hr|(m & off & l & -> & El & Hl')]; [by left|]. right. by exists m, off, l. }
      rewrite proj_inj in Hf3. rewrite inj_inj in E3. exists u3, r3. split; [|done].
      rewrite <- E3, <- run_assoc, bind_run. done. }
  destruct Hgoal as (u3 & r3 & E3 & Hok3 & Hf3).
  exists (inj u1 s), r1, s2, u3, r3, ta2, ra2. split; [done|]. split; [apply Ha|]. split; [done|].
  split; [done|]. split; [|done]. pose proof (f_equal ep0endcb (zf_drv _ _ Hf3)) as He. simpl in He.
  rewrite He. apply (an_end _ _ _ _ _ _ _ _ _ Ha).
Qed.
End control.
End UsbControl.
