(* ===== verification/UsbRequests.v ===== *)
(** * The standard requests

    What the driver answers to the standard requests of chapter 9 of the USB specification when the
    program has no hook for them: [standard_answer] is the table of the requests that read, and
    the theorems say that the host gets what the table has, or a stall. *)

From S2P Require Import Prelude CLib Prog UsbRegs UsbLld HalUsb UsbIsr UsbBus UsbTransfer UsbControl.

Module UsbRequests.
Import UsbRegs UsbLld HalUsb UsbIsr UsbBus UsbTransfer UsbControl.

(** ** Requests *)

Definition recipient (rq : list Z) : Z := Z.land (nth 0 rq 0) 31.
Definition request (rq : list Z) : Z := nth 1 rq 0.
Definition standard (rq : list Z) : Prop := Z.land (nth 0 rq 0) USB_RTYPE_TYPE_MASK = USB_RTYPE_TYPE_STD.
Definition byte_list (bs : list Z) : Prop := Forall (fun b => 0 <= b < 256) bs.

Lemma byte_at i bs : byte_list bs -> 0 <= nth i bs 0 < 256.
Proof.
  intros Hb. destruct (nth_in_or_default i bs 0) as [Hi| ->]; [|lia].
  unfold byte_list in Hb. rewrite Forall_forall in Hb. apply Hb, list_elem_of_In, Hi.
Qed.

Lemma req_parts a b : 0 <= a < 256 -> 0 <= b -> req a b = a + 256 * b.
Proof.
  intros Ha Hb. unfold req. rewrite Z.shiftl_mul_pow2 by lia. pose proof (Z.add_lor_land a (b * 2 ^ 8)) as E.
  assert (Hz : Z.land a (b * 2 ^ 8) = 0); [|lia].
  apply Z.bits_inj'. intros i Hi. rewrite Z.land_spec, Z.bits_0. destruct (Z_lt_le_dec i 8).
  - by rewrite Z.mul_pow2_bits_low, andb_false_r.
  - rewrite <- (Z.mod_small a (2 ^ 8)) by lia. by rewrite Z.mod_pow2_bits_high.
Qed.
Lemma req_eqb a b c d : 0 <= a < 256 -> 0 <= b -> 0 <= c < 256 -> 0 <= d ->
  (req a b =? req c d) = (a =? c) && (b =? d).
Proof. intros Ha Hb Hc Hd. rewrite !req_parts by lia. lia. Qed.

Lemma key_parts rq : byte_list rq -> standard rq ->
  request_key rq = req (recipient rq) (request rq) /\ 0 <= recipient rq < 32 /\ 0 <= request rq.
Proof.
  intros Hb Hs. pose proof (byte_at 0 _ Hb). pose proof (byte_at 1 _ Hb). unfold standard in Hs.
  split; [|split; [|unfold request; lia]].
  - unfold request_key, req, recipient, request. f_equal. rewrite Z.land_lor_distr_r, Hs.
    change USB_RTYPE_TYPE_STD with 0. by rewrite Z.lor_0_r.
  - unfold recipient. change 31 with (Z.ones 5). rewrite Z.land_ones by lia. apply Z.mod_pos_bound. lia.
Qed.

(** The request is number [b] of recipient [a]: device, interface or endpoint. *)
Definition asks (rq : list Z) (a b : Z) : bool := (recipient rq =? a) && (request rq =? b).

Lemma key_is rq a b : byte_list rq -> standard rq -> 0 <= a < 256 -> 0 <= b ->
  (request_key rq =? req a b) = asks rq a b.
Proof. intros Hb Hs Ha H0. destruct (key_parts rq Hb Hs) as (-> & H1 & H2). by rewrite req_eqb by lia. Qed.

(** ** The table *)

Section table.
(** The descriptors of the device. *)
Variable descriptors : Z -> Z -> Z -> option (list Z).

(** The status of an endpoint: halted or not; [None] when it is disabled.  Endpoint zero is active when a
    request is handled. *)
Definition endpoint_answer (u : usb) (address : Z) : option (list Z) :=
  let ep := Z.to_nat (Z.land address 15) in
  if (ep =? 0)%nat then Some [0; 0]
  else
    r ← EPR (u_hw u) !! ep;
    let st := Z.land r (if Z.land address 128 =? 0 then EPR_STAT_RX_MASK else EPR_STAT_TX_MASK) in
    if st =? 0 then None
    else if st =? (if Z.land address 128 =? 0 then EPR_STAT_RX_STALL else EPR_STAT_TX_STALL)
    then Some [1; 0] else Some [0; 0].

Definition standard_answer (u : usb) (rq : list Z) : option (list Z) :=
  if asks rq 0 0 then Some [ud_status (u_drv u) mod 256; ud_status (u_drv u) / 256]
  else if asks rq 0 6 || asks rq 1 6 then
    descriptors (nth 3 rq 0) (nth 2 rq 0) (nth 4 rq 0 + 256 * nth 5 rq 0)
  else if asks rq 0 8 then Some [ud_configuration (u_drv u)]
  else if asks rq 1 0 || asks rq 2 12 then Some [0; 0]
  else if asks rq 2 0 then endpoint_answer u (nth 4 rq 0)
  else None.
End table.

(** The requests that change something. *)
Definition writes (rq : list Z) : bool :=
  asks rq 0 1 || asks rq 0 3 || asks rq 0 5 || asks rq 0 9 || asks rq 2 1 || asks rq 2 3.

Section answers.
Context {S : Type} `{!Component S usb, !USBConfig S}.
Context `{!UsbDevice, !Beyond, !UsbClock, !UsbEngine, !UsbDeviceSpec, !UsbEngineSpec}.
Implicit Types (u : usb) (s : S).

(** No hook handles a request, and the callback gives the descriptors of a table. *)
Context (descriptors : Z -> Z -> Z -> option (list Z)).
Record plain : Prop := {
  p_hook s : unhooked s;
  p_descriptors s t i lang : get_descriptor_cb t i lang s =
    Some ((fun d => (at_ (o_const d) 0, Z.of_nat (length d))) <$> descriptors t i lang, s)
}.

Lemma setup_transfer_run u p n endcb : usbSetupTransfer p n endcb u = Some (tt, prepared p n endcb u).
Proof. reflexivity. Qed.

Ltac by_numbers rq := rewrite ?(key_is rq) in * by done;
  cbv delta [USB_RTYPE_RECIPIENT_DEVICE USB_RTYPE_RECIPIENT_INTERFACE USB_RTYPE_RECIPIENT_ENDPOINT
    USB_REQ_GET_STATUS USB_REQ_CLEAR_FEATURE USB_REQ_SET_FEATURE USB_REQ_SET_ADDRESS USB_REQ_GET_DESCRIPTOR
    USB_REQ_GET_CONFIGURATION USB_REQ_SET_CONFIGURATION USB_REQ_SYNCH_FRAME] in *.

(** The requests that call no callback. *)
Lemma simple_requests s rq m : ud_config (u_drv (proj s)) = true -> ud_setup (u_drv (proj s)) = rq ->
  length rq = 8%nat -> byte_list rq -> standard rq -> unhooked s ->
  simple_request (request_key rq) = m -> asks rq 0 6 || asks rq 1 6 || asks rq 0 9 = false ->
  handle_request s = (if m is Some m then liftM m else mret false) s.
Proof.
  intros Hc Hs Hl Hb Ht Hh Hm Hn. rewrite (handle_request_std _ _ Hc Hs Hl Hh Ht). unfold default_handler.
  rewrite !(lift_setup _ _ _ _ Hs Hl) by lia. fold (request_key rq). cbv zeta. rewrite Hm.
  apply orb_false_elim in Hn as [[N1 N2]%orb_false_elim N3].
  by_numbers rq. rewrite N1, N2, N3. by destruct m.
Qed.

(** What a request of a known number is. *)
Lemma asks_ne rq a b c d : asks rq a b = true -> (a =? c) && (b =? d) = false -> asks rq c d = false.
Proof. unfold asks. intros [E1%Z.eqb_eq E2%Z.eqb_eq]%andb_true_iff Hne. by rewrite E1, E2. Qed.

Ltac other E :=
  repeat match goal with |- context [asks ?rq ?c ?d] => rewrite (asks_ne rq _ _ c d E eq_refl) end;
  rewrite ?E; simpl.

Lemma status_bytes u : 0 <= ud_status (u_drv u) < 2 ^ 16 ->
  object_bytes o_status u = Some [ud_status (u_drv u) mod 256; ud_status (u_drv u) / 256].
Proof.
  intros Hs. simpl. change 255 with (Z.ones 8). by rewrite Z.land_ones, Z.shiftr_div_pow2 by lia.
Qed.

Lemma whole_object u o bs : object_bytes o u = Some bs -> bytes_at u (at_ o 0) bs.
Proof. intros E. right. exists o, 0%nat, bs, []. by rewrite app_nil_r. Qed.

(** The status of an endpoint. *)
Lemma endpoint_status_ok s rq r : length (EPR (u_hw (proj s))) = 8%nat -> epr_is (u_hw (proj s)) 0 r -> naks r ->
  byte_list rq -> Z.land (nth 4 rq 0) 15 < 8 ->
  (if negb (Z.land (nth 4 rq 0) 0x80 =? 0) then
      st ← usb_lld_get_status_in (Z.to_nat (Z.land (nth 4 rq 0) 0x0F)); endpoint_status st
    else st ← usb_lld_get_status_out (Z.to_nat (Z.land (nth 4 rq 0) 0x0F)); endpoint_status st) (proj s) =
  Some (match endpoint_answer (proj s) (nth 4 rq 0) with
    | Some bs => (true, prepared (at_ (o_const bs) 0) (Z.of_nat (length bs)) None (proj s))
    | None => (false, proj s)
    end).
Proof.
  intros Hlen [Hr _] [Hn1 Hn2] Hb Hep. unfold endpoint_answer.
  set (ep := Z.to_nat (Z.land (nth 4 rq 0) 15)).
  assert (Hlt : (ep < length (EPR (u_hw (proj s))))%nat).
  { unfold ep. rewrite Hlen. change 15 with (Z.ones 4) in *. rewrite Z.land_ones in * by lia. dlia. }
  destruct (lookup_lt_is_Some_2 _ _ Hlt) as [x Hx].
  assert (Hg : on_hw (EPR_get ep) (proj s) = Some (x, proj s)).
  { unfold on_hw, liftM, EPR_get, deref. change (proj (proj s)) with (u_hw (proj s)). rewrite Hx. by destruct (proj s). }
  assert (Hz : ep = 0%nat -> x = r) by (intros ->; congruence).
  rewrite Hx. cbn [mbind option_bind].
  destruct (Z.land (nth 4 rq 0) 128 =? 0); cbv [negb];
    [unfold usb_lld_get_status_out|unfold usb_lld_get_status_in];
    rewrite run_assoc, (run_call _ _ _ _ _ Hg), run_ret; cbv zeta.
  - destruct (Nat.eqb_spec ep 0) as [E|_]; [rewrite (Hz E), Hn2; reflexivity|].
    change EPR_STAT_RX_DIS with 0. destruct (Z.land x EPR_STAT_RX_MASK =? 0); [done|].
    by destruct (Z.land x EPR_STAT_RX_MASK =? EPR_STAT_RX_STALL).
  - destruct (Nat.eqb_spec ep 0) as [E|_]; [rewrite (Hz E), Hn1; reflexivity|].
    change EPR_STAT_TX_DIS with 0. destruct (Z.land x EPR_STAT_TX_MASK =? 0); [done|].
    by destruct (Z.land x EPR_STAT_TX_MASK =? EPR_STAT_TX_STALL).
Qed.

Record asked s (rq : list Z) (r : Z) : Prop := {
  as_config : ud_config (u_drv (proj s)) = true;
  as_setup : ud_setup (u_drv (proj s)) = rq;
  as_length : length rq = 8%nat;
  as_bytes : byte_list rq;
  as_standard : standard rq;
  as_status : 0 <= ud_status (u_drv (proj s)) < 2 ^ 16;
  as_epr : length (EPR (u_hw (proj s))) = 8%nat;
  as_ep0 : epr_is (u_hw (proj s)) 0 r;
  as_naks : naks r;
  as_endpoint : asks rq 2 0 = true -> Z.land (nth 4 rq 0) 15 < 8
}.

(** The handlers set up the transfer of what the table has, and fail otherwise. *)
Lemma handler_answers s rq r : plain -> asked s rq r ->
  match standard_answer descriptors (proj s) rq with
  | Some bs => exists p, handle_request s = Some (true, inj (prepared p (Z.of_nat (length bs)) None (proj s)) s) /\
      bytes_at (proj s) p bs
  | None => writes rq = false -> handle_request s = Some (false, s)
  end.
Proof.
  intros [Hhook Hd] [Hc Hs Hl Hb Ht Hst Hlen Hr Hn Hep].
  destruct (asks rq 0 6 || asks rq 1 6) eqn:E1.
  { pose proof (fun Hk => get_descriptor_run s rq _ Hc Hs Hl (Hhook s) Ht Hk (Hd s _ _ _)) as E.
    by_numbers rq. specialize (E E1). unfold standard_answer. rewrite E1.
    assert (Hn0 : asks rq 0 0 = false).
    { apply orb_true_iff in E1 as [E1|E1]; by other E1. }
    rewrite Hn0. pose proof (byte_at 4 rq Hb). pose proof (byte_at 5 rq Hb).
    change (Z.lor (nth 4 rq 0) (Z.shiftl (nth 5 rq 0) 8)) with (req (nth 4 rq 0) (nth 5 rq 0)) in E.
    rewrite req_parts in E by lia.
    destruct (descriptors _ _ _) as [d|]; simpl in E; [|done].
    eexists. split; [exact E|]. by apply whole_object. }
  destruct (asks rq 0 9) eqn:E2.
  { unfold standard_answer, writes. by other E2. }
  pose proof (simple_requests s rq _ Hc Hs Hl Hb Ht (Hhook s) eq_refl) as E.
  rewrite E1, E2 in E. specialize (E eq_refl). rewrite E; clear E. unfold standard_answer. rewrite E1.
  unfold simple_request. by_numbers rq.
  assert (Hlift : forall m u, m (proj s) = Some (true, u) -> liftM m s = Some (true, inj u s)).
  { intros m u E. unfold liftM. by rewrite E. }
  destruct (asks rq 0 0) eqn:A1.
  { eexists. split; [by apply Hlift|]. apply whole_object, status_bytes, Hst. }
  destruct (asks rq 0 1) eqn:A2; [unfold writes; by other A2|].
  destruct (asks rq 0 3) eqn:A3; [unfold writes; by other A3|].
  destruct (asks rq 0 5) eqn:A4; [unfold writes; by other A4|].
  destruct (asks rq 0 8) eqn:A5.
  { eexists. split; [by apply Hlift|]. by apply whole_object. }
  destruct (asks rq 1 0 || asks rq 2 12) eqn:A6.
  { eexists. split; [by apply Hlift|]. by apply whole_object. }
  destruct (asks rq 2 0) eqn:A7.
  { unfold liftM. rewrite (run_call _ _ _ _ _ (setup_at_run _ _ 4 Hs Hl ltac:(lia))).
    rewrite (endpoint_status_ok s rq r) by auto.
    destruct (endpoint_answer (proj s) (nth 4 rq 0)) as [bs|]; [|intros _; by rewrite inj_proj].
    eexists. split; [done|]. by apply whole_object. }
  destruct (asks rq 2 1) eqn:A8; [unfold writes; by other A8|].
  destruct (asks rq 2 3) eqn:A9; [unfold writes; by other A9|]. done.
Qed.

(** ** What is left alone *)

(** The driver's state apart from endpoint zero. *)
Definition rest (d : USBDriver) : USBDriver :=
  set_ud_setup (fun _ => []) (set_ep0endcb (fun _ => None) (set_ep0n (fun _ => 0)
    (set_ep0next (fun _ => null) (core d)))).

Lemma rest_fields d d' : rest d' = rest d -> ud_status d' = ud_status d /\
  ud_configuration d' = ud_configuration d /\ ud_config d' = ud_config d /\ epc d' = epc d.
Proof.
  intros D. split; [exact (f_equal ud_status D)|]. split; [exact (f_equal ud_configuration D)|].
  split; [exact (f_equal ud_config D)|exact (f_equal epc D)].
Qed.

Record unchanged u u' : Prop := {
  un_drv : rest (u_drv u') = rest (u_drv u);
  un_mem : u_mem u' = u_mem u;
  un_eps st : st <> ep0_state -> u_eps u' !! st = u_eps u !! st;
  un_regs : u_hw u' = set_PMA (fun _ => PMA (u_hw u')) (set_EPR (fun _ => EPR (u_hw u')) (u_hw u));
  un_epr ep : ep <> 0%nat -> EPR (u_hw u') !! ep = EPR (u_hw u) !! ep
}.

#[global] Instance unchanged_trans : Transitive unchanged.
Proof.
  intros u1 u2 u3 [D1 M1 E1 R1 P1] [D2 M2 E2 R2 P2]. split; try congruence.
  - intros st Hn. by rewrite E2, E1.
  - rewrite R2, R1. done.
  - intros ep Hn. by rewrite P2, P1.
Qed.

Lemma frame_unchanged u u' : ep0_frame u u' -> unchanged u u'.
Proof. intros [D M E R P]. split; try done. unfold rest. by rewrite D. Qed.
Lemma drv_unchanged u f : rest (f (u_drv u)) = rest (u_drv u) -> unchanged u (set_u_drv f u).
Proof. intros E. split; try done. by destruct u as [? ? [] ?]. Qed.

Lemma answer_unchanged u u' rq : unchanged u u' -> standard_answer descriptors u' rq = standard_answer descriptors u rq.
Proof.
  intros [D M E R P]. unfold standard_answer, endpoint_answer.
  destruct (rest_fields _ _ D) as (-> & -> & _ & _).
  destruct (Nat.eqb_spec (Z.to_nat (Z.land (nth 4 rq 0) 15)) 0) as [|Hn]; [done|]. by rewrite P.
Qed.

(** ** The error response *)

Definition stalled (r : Z) : Prop :=
  Z.land r EPR_STAT_TX_MASK = EPR_STAT_TX_STALL /\ Z.land r EPR_STAT_RX_MASK = EPR_STAT_RX_STALL.

Lemma ep0_put u r r' ta ra : ep0_ok u r ta ra -> 0 <= r' < 2 ^ 16 -> Z.land r' EPR_CTR_MASK = 0 ->
  ep0_ok (set_u_hw (put_epr 0 r') u) r' ta ra /\ ep0_frame u (set_u_hw (put_epr 0 r') u).
Proof.
  intros [[A1 A2 A3 A4] [] [] Hc Hs Hr Hl] Hr' Hctr. split.
  - split; try done. split; try done. by apply (epr_is_put _ _ r).
  - split; try done. intros ep Hep. by apply list_lookup_insert_ne.
Qed.

Lemma ep0_error_run s r ta ra : ep0_ok (proj s) r ta ra ->
  exists u r', ep0_error s = (_usb_isr_invoke_event_cb USB_EVENT_STALLED;; set_ep0 USB_EP0_ERROR) (inj u s) /\
    ep0_ok u r' ta ra /\ ep0_frame (proj s) u /\ stalled r'.
Proof.
  intros Hok. pose proof (e_epr _ _ _ _ (z_ep _ _ _ _ Hok)) as Hr. pose proof (z_ctr _ _ _ _ Hok) as Hctr.
  set (rt := with_bits EPR_STAT_TX_MASK EPR_STAT_TX_STALL r).
  set (rr := with_bits EPR_STAT_RX_MASK EPR_STAT_RX_STALL rt).
  assert (Hrt : 0 <= rt < 2 ^ 16) by by apply with_bits_same; [|apply Hr].
  assert (Hrr : 0 <= rr < 2 ^ 16) by by apply with_bits_same.
  assert (Hbits : Z.land rt EPR_CTR_MASK = 0 /\ Z.land rr EPR_CTR_MASK = 0 /\ stalled rr).
  { destruct Hr as [_ Hr]. unfold rr, rt, stalled, with_bits. clear -Hr Hctr. split_and!; bits16. }
  destruct Hbits as (C1 & C2 & Hst).
  destruct (ep0_put (proj s) r rt ta ra Hok Hrt C1) as [Hok1 Hf1]. set (u1 := set_u_hw (put_epr 0 rt) (proj s)) in *.
  destruct (ep0_put u1 rt rr ta ra Hok1 Hrr C2) as [Hok2 Hf2]. set (u2 := set_u_hw (put_epr 0 rr) u1) in *.
  exists u2, rr. split; [|split; [done|split; [by etrans|done]]]. unfold ep0_error, usb_lld_stall_in, usb_lld_stall_out.
  rewrite (run_lift _ _ _ _ _ (on_hw_run _ _ _ _ (EPR_SET_STAT_TX_run _ _ _ _ Hr eq_refl))).
  change (set_u_hw _ (proj s)) with u1.
  assert (E : on_hw (EPR_SET_STAT_RX 0 EPR_STAT_RX_STALL) (proj (inj u1 s)) = Some (tt, u2)).
  { rewrite proj_inj. pose proof (e_epr _ _ _ _ (z_ep _ _ _ _ Hok1)) as Hr1.
    by rewrite (on_hw_run _ _ _ _ (EPR_SET_STAT_RX_run _ _ _ EPR_STAT_RX_STALL Hr1 eq_refl)). }
  by rewrite (run_lift _ _ _ _ _ E), inj_inj.
Qed.

(** ** The transfers *)

Lemma reply_concat rq bs : concat (reply rq bs) = take (Z.to_nat (wLength rq)) bs.
Proof.
  unfold reply. destruct (decide _) as [->|_]; [done|]. rewrite concat_app. unfold packets. rewrite cut_concat.
  destruct (_ && _); simpl; by rewrite app_nil_r.
Qed.

(** A device that is configured as a whole, with endpoint zero ready. *)
Record device s (r ta ra : Z) : Prop := {
  dv_ep0 : ep0_ok (proj s) r ta ra;
  dv_config : ud_config (u_drv (proj s)) = true;
  dv_status : 0 <= ud_status (u_drv (proj s)) < 2 ^ 16;
  dv_configuration : 0 <= ud_configuration (u_drv (proj s)) < 256;
  dv_epr : length (EPR (u_hw (proj s))) = 8%nat;
  dv_descriptors t i l d : descriptors t i l = Some d -> byte_list d /\ Z.of_nat (length d) < 2 ^ 32
}.

Lemma byte_list1 a : 0 <= a < 256 -> byte_list [a].
Proof. intros Ha. by apply Forall_singleton. Qed.
Lemma byte_list2 a b : 0 <= a < 256 -> 0 <= b < 256 -> byte_list [a; b].
Proof. intros Ha Hb. apply Forall_cons. split; [done|]. by apply byte_list1. Qed.

Lemma answer_bytes s r ta ra rq bs : device s r ta ra -> standard_answer descriptors (proj s) rq = Some bs ->
  byte_list bs /\ Z.of_nat (length bs) < 2 ^ 32.
Proof.
  intros [_ _ Hs Hc _ Hd]. unfold standard_answer, endpoint_answer.
  repeat case_match; try (intros [= <-]; (split; [first [apply byte_list1|apply byte_list2]; dlia|done])); try done;
    [by apply Hd| |];
    (destruct (EPR (u_hw (proj s)) !! _) as [x|]; [|done]; simpl; repeat case_match; try done;
     intros [= <-]; (split; [apply byte_list2; lia|done])).
Qed.

Lemma requested_asked s s1 r r1 ta ra rq : device s r ta ra -> requested rq s s1 r1 ta ra -> length rq = 8%nat ->
  byte_list rq -> standard rq -> (asks rq 2 0 = true -> Z.land (nth 4 rq 0) 15 < 8) ->
  asked s1 rq r1 /\ unchanged (proj s) (proj s1).
Proof.
  intros [Hok Hc Hs _ Hl _] [_ Hok1 Hsetup Hn Hf] Hlen Hb Ht Hep.
  assert (Hu : unchanged (proj s) (proj s1)).
  { etrans; [|by apply frame_unchanged]. by apply (drv_unchanged _ (set_ud_setup (fun _ => rq))). }
  split; [|done]. destruct (rest_fields _ _ (un_drv _ _ Hu)) as (D1 & D2 & D3 & _). split; try done.
  - by rewrite D3.
  - by rewrite D1.
  - pose proof (e_epr _ _ _ _ (z_ep _ _ _ _ Hok1)) as [Hi _]. apply lookup_lt_Some in Hi.
    apply Nat.le_antisymm.
    + apply lookup_ge_None. rewrite (un_epr _ _ Hu) by done. apply lookup_ge_None. lia.
    + destruct (decide (length (EPR (u_hw (proj s1))) <= 7)%nat) as [Hlt|]; [|lia].
      apply lookup_ge_None in Hlt. rewrite (un_epr _ _ Hu) in Hlt by done. apply lookup_ge_None in Hlt. lia.
  - apply (z_ep _ _ _ _ Hok1).
Qed.

Lemma prepared_answers s s1 rq r ta ra p n cb : requested rq s s1 r ta ra ->
  handle_request s1 = Some (true, inj (prepared p n cb (proj s1)) s1) ->
  answers rq s1 p n cb (inj (prepared p n cb (proj s1)) s1) r ta ra.
Proof.
  intros Hrq E. split; rewrite ?proj_inj; try done; [|apply Hrq].
  apply (ep0_drv (proj s1) (fun d => set_ep0endcb (fun _ => cb) (set_ep0n (fun _ => n) (set_ep0next (fun _ => p) d))));
    [apply Hrq|done|]. cbn. pose proof (z_setup _ _ _ _ (rq_ok _ _ _ _ _ _ Hrq)) as Hl. exact Hl.
Qed.


End answers.

(** CLEAR_FEATURE of a halted OUT endpoint: the status is written to the field of the other direction, so that
    the IN direction of the endpoint is disabled, and the halted OUT direction becomes valid, although no
    reception was started. *)
Lemma usb_lld_clear_out_in `{!UsbDevice, !UsbDeviceSpec} u ep r : epr_is (u_hw u) ep r ->
  Z.land r EPR_STAT_RX_MASK = EPR_STAT_RX_STALL ->
  exists r', usb_lld_clear_out ep u = Some (tt, set_u_hw (put_epr ep r') u) /\
    Z.land r' EPR_STAT_TX_MASK = EPR_STAT_TX_DIS /\ Z.land r' EPR_STAT_RX_MASK = EPR_STAT_RX_VALID.
Proof.
  intros He Hs. pose proof He as [Hg Hr]. exists (with_bits EPR_STAT_TX_MASK EPR_STAT_TX_DIS (Z.lxor r EPR_STAT_RX_NAK)).
  split.
  - unfold usb_lld_clear_out. rewrite (run_call _ _ _ _ _ (on_hw_run _ _ _ _ (EPR_get_run _ _ _ He))).
    replace (set_u_hw (fun _ => u_hw u) u) with u by by destruct u. rewrite Hs. cbv [EPR_STAT_RX_STALL EPR_STAT_RX_VALID].
    simpl. unfold on_hw, liftM, EPR_SET_STAT_TX.
    change (proj u) with (u_hw u). rewrite (run_call _ _ _ _ _ (EPR_get_run _ _ _ He)), (EPR_put_run _ _ _ _ He).
    rewrite set_stat_tx_rx by done. done.
  - split; unfold with_bits; clear -Hr Hs; bits16.
Qed.
End UsbRequests.
