(* ===== verification/UsbCfg.v ===== *)
(** * The USB descriptors: [config/usbcfg.c] and the macros of [hal_usb.h]

    The descriptors of the virtual COM port, as bytes, and the callback that gives them
    to the USB driver. *)

From S2P Require Import Prelude CLib UsbRegs UsbLld.

Module UsbCfg.

(** ** The macros *)

Definition USB_DESC_INDEX (i : Z) : list Z := [u8 i].
Definition USB_DESC_BYTE (b : Z) : list Z := [u8 b].
Definition USB_DESC_WORD (w : Z) : list Z := [u8 (Z.land w 255); u8 (Z.land (Z.shiftr w 8) 255)].
Definition USB_DESC_BCD (bcd : Z) : list Z := [u8 (Z.land bcd 255); u8 (Z.land (Z.shiftr bcd 8) 255)].

Definition USB_DESCRIPTOR_DEVICE : Z := 1.
Definition USB_DESCRIPTOR_CONFIGURATION : Z := 2.
Definition USB_DESCRIPTOR_STRING : Z := 3.
Definition USB_DESCRIPTOR_INTERFACE : Z := 4.
Definition USB_DESCRIPTOR_ENDPOINT : Z := 5.

Definition USB_DESC_DEVICE (bcdUSB bDeviceClass bDeviceSubClass bDeviceProtocol bMaxPacketSize
    idVendor idProduct bcdDevice iManufacturer iProduct iSerialNumber bNumConfigurations : Z)
    : list Z :=
  USB_DESC_BYTE 18 ++ USB_DESC_BYTE USB_DESCRIPTOR_DEVICE ++ USB_DESC_BCD bcdUSB ++
  USB_DESC_BYTE bDeviceClass ++ USB_DESC_BYTE bDeviceSubClass ++ USB_DESC_BYTE bDeviceProtocol ++
  USB_DESC_BYTE bMaxPacketSize ++ USB_DESC_WORD idVendor ++ USB_DESC_WORD idProduct ++
  USB_DESC_BCD bcdDevice ++ USB_DESC_INDEX iManufacturer ++ USB_DESC_INDEX iProduct ++
  USB_DESC_INDEX iSerialNumber ++ USB_DESC_BYTE bNumConfigurations.

Definition USB_DESC_CONFIGURATION (wTotalLength bNumInterfaces bConfigurationValue iConfiguration
    bmAttributes bMaxPower : Z) : list Z :=
  USB_DESC_BYTE 9 ++ USB_DESC_BYTE USB_DESCRIPTOR_CONFIGURATION ++ USB_DESC_WORD wTotalLength ++
  USB_DESC_BYTE bNumInterfaces ++ USB_DESC_BYTE bConfigurationValue ++
  USB_DESC_INDEX iConfiguration ++ USB_DESC_BYTE bmAttributes ++ USB_DESC_BYTE bMaxPower.

Definition USB_DESC_INTERFACE (bInterfaceNumber bAlternateSetting bNumEndpoints bInterfaceClass
    bInterfaceSubClass bInterfaceProtocol iInterface : Z) : list Z :=
  USB_DESC_BYTE 9 ++ USB_DESC_BYTE USB_DESCRIPTOR_INTERFACE ++ USB_DESC_BYTE bInterfaceNumber ++
  USB_DESC_BYTE bAlternateSetting ++ USB_DESC_BYTE bNumEndpoints ++
  USB_DESC_BYTE bInterfaceClass ++ USB_DESC_BYTE bInterfaceSubClass ++
  USB_DESC_BYTE bInterfaceProtocol ++ USB_DESC_INDEX iInterface.

Definition USB_DESC_ENDPOINT (bEndpointAddress bmAttributes wMaxPacketSize bInterval : Z) : list Z :=
  USB_DESC_BYTE 7 ++ USB_DESC_BYTE USB_DESCRIPTOR_ENDPOINT ++ USB_DESC_BYTE bEndpointAddress ++
  USB_DESC_BYTE bmAttributes ++ USB_DESC_WORD wMaxPacketSize ++ USB_DESC_BYTE bInterval.

(** ** The descriptors *)

Definition USBD1_DATA_REQUEST_EP : Z := 1.
Definition USBD1_DATA_AVAILABLE_EP : Z := 1.
Definition USBD1_INTERRUPT_REQUEST_EP : Z := 2.

Definition vcom_device_descriptor_data : list Z :=
  USB_DESC_DEVICE 0x0110 0x02 0x00 0x00 0x40 0x0483 0x5740 0x0200 1 2 3 1.

Definition vcom_configuration_descriptor_data : list Z :=
  USB_DESC_CONFIGURATION 67 0x02 0x01 0 0xC0 50 ++
  USB_DESC_INTERFACE 0x00 0x00 0x01 0x02 0x02 0x01 0 ++
  USB_DESC_BYTE 5 ++ USB_DESC_BYTE 0x24 ++ USB_DESC_BYTE 0x00 ++ USB_DESC_BCD 0x0110 ++
  USB_DESC_BYTE 5 ++ USB_DESC_BYTE 0x24 ++ USB_DESC_BYTE 0x01 ++ USB_DESC_BYTE 0x00 ++
  USB_DESC_BYTE 0x01 ++
  USB_DESC_BYTE 4 ++ USB_DESC_BYTE 0x24 ++ USB_DESC_BYTE 0x02 ++ USB_DESC_BYTE 0x02 ++
  USB_DESC_BYTE 5 ++ USB_DESC_BYTE 0x24 ++ USB_DESC_BYTE 0x06 ++ USB_DESC_BYTE 0x00 ++
  USB_DESC_BYTE 0x01 ++
  USB_DESC_ENDPOINT (Z.lor USBD1_INTERRUPT_REQUEST_EP 0x80) 0x03 0x0008 0xFF ++
  USB_DESC_INTERFACE 0x01 0x00 0x02 0x0A 0x00 0x00 0x00 ++
  USB_DESC_ENDPOINT USBD1_DATA_AVAILABLE_EP 0x02 0x0040 0x00 ++
  USB_DESC_ENDPOINT (Z.lor USBD1_DATA_REQUEST_EP 0x80) 0x02 0x0040 0x00.

(** Every character is followed by a zero. *)
Definition utf16 (s : string) : list Z := flat_map (fun c => [zchar c; 0]) (str s).

Definition vcom_string0 : list Z :=
  USB_DESC_BYTE 4 ++ USB_DESC_BYTE USB_DESCRIPTOR_STRING ++ USB_DESC_WORD 0x0409.
Definition vcom_string1 : list Z :=
  USB_DESC_BYTE 38 ++ USB_DESC_BYTE USB_DESCRIPTOR_STRING ++ utf16 "STMicroelectronics".
Definition vcom_string2 : list Z :=
  USB_DESC_BYTE 56 ++ USB_DESC_BYTE USB_DESCRIPTOR_STRING ++ utf16 "ChibiOS/RT Virtual COM Port".
Definition vcom_string3 : list Z :=
  USB_DESC_BYTE 8 ++ USB_DESC_BYTE USB_DESCRIPTOR_STRING ++ [48 + 5; 0; 48 + 1; 0; 48 + 0; 0].

Definition vcom_strings : list (list Z) := [vcom_string0; vcom_string1; vcom_string2; vcom_string3].

(** [None] is the null pointer. *)
Definition get_descriptor (dtype dindex : Z) : option (list Z) :=
  if dtype =? USB_DESCRIPTOR_DEVICE then Some vcom_device_descriptor_data
  else if dtype =? USB_DESCRIPTOR_CONFIGURATION then Some vcom_configuration_descriptor_data
  else if dtype =? USB_DESCRIPTOR_STRING then
    if dindex <? 4 then vcom_strings !! Z.to_nat dindex else None
  else None.

(** ** The endpoints *)

(** The states of the endpoints, and the callbacks of [hal_serial_usb.c] by number. *)
Definition ep1instate : nat := 1.
Definition ep1outstate : nat := 2.
Definition ep2instate : nat := 3.
Definition cb_sduDataTransmitted : usbepcallback_t := cb_program 0.
Definition cb_sduDataReceived : usbepcallback_t := cb_program 1.
Definition cb_sduInterruptTransmitted : usbepcallback_t := cb_program 2.

Definition ep1config : USBEndpointConfig :=
  EpConfig UsbLld.USB_EP_MODE_TYPE_BULK None (Some cb_sduDataTransmitted) (Some cb_sduDataReceived)
    0x0040 0x0040 (Some ep1instate) (Some ep1outstate) 2 null.
Definition ep2config : USBEndpointConfig :=
  EpConfig UsbLld.USB_EP_MODE_TYPE_INTR None (Some cb_sduInterruptTransmitted) None
    0x0010 0x0000 (Some ep2instate) None 1 null.

(** ** Well-formedness *)

(** A sequence of descriptors, each starting with its length. *)
Fixpoint split_descriptors (fuel : nat) (bs : list Z) : option (list (list Z)) :=
  match bs, fuel with
  | [], _ => Some []
  | _ :: _, O => None
  | n :: _, S fuel =>
      if (0 <? n) && (n <=? Z.of_nat (length bs))
      then cons (take (Z.to_nat n) bs) <$> split_descriptors fuel (drop (Z.to_nat n) bs)
      else None
  end.

Definition desc_type (d : list Z) : Z := nth 1 d 0.
Definition word_at (d : list Z) (i : nat) : Z := nth i d 0 + 256 * nth (S i) d 0.

(** The endpoints an interface announces follow it. *)
Fixpoint endpoints_ok (ds : list (list Z)) : bool :=
  match ds with
  | [] => true
  | d :: ds =>
      (if desc_type d =? USB_DESCRIPTOR_INTERFACE then
         nth 4 d 0 =? Z.of_nat (length (filter (fun e => desc_type e = USB_DESCRIPTOR_ENDPOINT)
           (fst (span (fun e => negb (desc_type e =? USB_DESCRIPTOR_INTERFACE)) ds))))
       else true) && endpoints_ok ds
  end.

(** The configuration descriptor is a sequence of whole descriptors, of the length and with the
    number of interfaces it announces, and each interface has its endpoints. *)
Definition configuration_ok (bs : list Z) : Prop := exists ds,
  split_descriptors (length bs) bs = Some ds /\ word_at bs 2 = Z.of_nat (length bs) /\
  nth 4 bs 0 = Z.of_nat (length (filter (fun d => desc_type d = USB_DESCRIPTOR_INTERFACE) ds)) /\
  endpoints_ok ds = true /\ Forall (fun b => 0 <= b < 256) bs.

(** Every descriptor the callback returns is one whole descriptor that starts with its
    length and the type asked for, except the configuration, which is well formed as a whole;
    only strings have more than one index, and the ones the device names exist. *)
Theorem get_descriptor_ok dtype dindex d : 0 <= dindex -> get_descriptor dtype dindex = Some d ->
  desc_type d = dtype /\
  (dtype <> USB_DESCRIPTOR_CONFIGURATION -> nth 0 d 0 = Z.of_nat (length d)) /\
  (dtype = USB_DESCRIPTOR_CONFIGURATION -> configuration_ok d) /\
  (dtype = USB_DESCRIPTOR_DEVICE ->
    Forall (fun i => is_Some (get_descriptor USB_DESCRIPTOR_STRING (nth i d 0))) [14%nat; 15%nat; 16%nat]).
Proof.
  intros Hi. unfold get_descriptor at 1.
  destruct (Z.eqb_spec dtype USB_DESCRIPTOR_DEVICE) as [->|Hd].
  { intros [= <-]. split; [reflexivity|]. split; [reflexivity|]. split; [done|]. intros _.
    repeat constructor; eauto. }
  destruct (Z.eqb_spec dtype USB_DESCRIPTOR_CONFIGURATION) as [->|Hc].
  { intros [= <-]. split; [reflexivity|]. split; [done|]. split; [intros _|done].
    eexists. split; [vm_compute; reflexivity|]. do 3 (split; [vm_compute; reflexivity|]).
    apply (bool_decide_unpack _). vm_compute. exact I. }
  destruct (Z.eqb_spec dtype USB_DESCRIPTOR_STRING) as [->|_]; [|done].
  destruct (Z.ltb_spec dindex 4); [|done].
  assert (dindex = 0 \/ dindex = 1 \/ dindex = 2 \/ dindex = 3) as [->|[->|[->| ->]]] by lia;
    intros [= <-]; (split; [reflexivity|]); (split; [reflexivity|]); (split; [done|done]).
Qed.

End UsbCfg.
