(* ===== verification/HalBuffers.v ===== *)
(** * I/O buffers queues: [os/hal/src/hal_buffers.c]

    Queues of buffers between a thread, which reads or writes bytes, and a driver, which fills or
    empties whole buffers.  A buffer has its size in front of its data.  The pointers of the code are
    offsets in the array of the buffers, an object of the memory that the USB driver reads
    and writes ([u_mem]); the waiting threads of queue [qp] are the queue [q_io qp] of the kernel. *)

From S2P Require Import Prelude CLib Prog ThreadQueue Kernel ChVt ChSchd ChThreads HalQueues UsbRegs UsbLld.

(** [struct io_buffers_queue] *)
Record io_buffers_queue := BQueue {
  bq_suspended : bool;
  bq_bcounter : Z;
  bq_bwrptr : nat;
  bq_brdptr : nat;
  bq_btop : nat;
  bq_bsize : nat;
  bq_bn : Z;
  bq_mem : nat;
  bq_buffers : nat;
  bq_ptr : option nat;
  bq_top : option nat;
  bq_link : nat
}.
Definition set_suspended (v : bool) (q : io_buffers_queue) : io_buffers_queue :=
  BQueue v (bq_bcounter q) (bq_bwrptr q) (bq_brdptr q) (bq_btop q) (bq_bsize q) (bq_bn q) (bq_mem q)
    (bq_buffers q) (bq_ptr q) (bq_top q) (bq_link q).
Definition set_bcounter (v : Z) (q : io_buffers_queue) : io_buffers_queue :=
  BQueue (bq_suspended q) v (bq_bwrptr q) (bq_brdptr q) (bq_btop q) (bq_bsize q) (bq_bn q) (bq_mem q)
    (bq_buffers q) (bq_ptr q) (bq_top q) (bq_link q).
Definition set_bwrptr (v : nat) (q : io_buffers_queue) : io_buffers_queue :=
  BQueue (bq_suspended q) (bq_bcounter q) v (bq_brdptr q) (bq_btop q) (bq_bsize q) (bq_bn q) (bq_mem q)
    (bq_buffers q) (bq_ptr q) (bq_top q) (bq_link q).
Definition set_brdptr (v : nat) (q : io_buffers_queue) : io_buffers_queue :=
  BQueue (bq_suspended q) (bq_bcounter q) (bq_bwrptr q) v (bq_btop q) (bq_bsize q) (bq_bn q) (bq_mem q)
    (bq_buffers q) (bq_ptr q) (bq_top q) (bq_link q).
Definition set_current (p t : option nat) (q : io_buffers_queue) : io_buffers_queue :=
  BQueue (bq_suspended q) (bq_bcounter q) (bq_bwrptr q) (bq_brdptr q) (bq_btop q) (bq_bsize q) (bq_bn q)
    (bq_mem q) (bq_buffers q) p t (bq_link q).

Abbreviation buffers_queues := (gmap nat io_buffers_queue).

(** [notify] of the input queues and of the output queues. *)
Class BQNotify (S : Type) := {
  ibq_notify : nat -> M S unit;
  obq_notify : nat -> M S unit
}.

Module HalBuffers.
Import ChSchd ChThreads HalQueues.

Definition sizeof_size_t : nat := 4.
Definition BQ_BUFFER_SIZE (n size : nat) : nat := (size + sizeof_size_t) * n.

Definition bqSizeX (q : io_buffers_queue) : Z := bq_bn q.
Definition bqSpaceI (q : io_buffers_queue) : Z := bq_bcounter q.
Definition bqIsSuspendedX (q : io_buffers_queue) : bool := bq_suspended q.
Definition ibqIsEmptyI (q : io_buffers_queue) : bool := bqSpaceI q =? 0.
Definition ibqIsFullI (q : io_buffers_queue) : bool :=
  (bq_bwrptr q =? bq_brdptr q)%nat && negb (bq_bcounter q =? 0).
Definition obqIsEmptyI (q : io_buffers_queue) : bool :=
  (bq_bwrptr q =? bq_brdptr q)%nat && negb (bq_bcounter q =? 0).
Definition obqIsFullI (q : io_buffers_queue) : bool := bqSpaceI q =? 0.

(** [bwrptr += bsize; if (bwrptr >= btop) bwrptr = buffers], and the same of [brdptr]. *)
Definition advance (q : io_buffers_queue) (p : nat) : nat :=
  if (bq_btop q <=? p + bq_bsize q)%nat then bq_buffers q else (p + bq_bsize q)%nat.
Definition step_wr (q : io_buffers_queue) : io_buffers_queue := set_bwrptr (advance q (bq_bwrptr q)) q.
Definition step_rd (q : io_buffers_queue) : io_buffers_queue := set_brdptr (advance q (bq_brdptr q)) q.

(** A [size_t] in memory, little endian. *)
Definition size_bytes (z : Z) : list Z :=
  [u8 z; u8 (Z.shiftr z 8); u8 (Z.shiftr z 16); u8 (Z.shiftr z 24)].
Definition bytes_size (bs : list Z) : Z := foldr (fun b z => b + 256 * z) 0 bs.

Section operations.
Context {S : Type} `{!Component S ch_system, !Component S buffers_queues, !Component S usb}.

Definition bq (qp : nat) : M S io_buffers_queue := deref (fun s => proj (K := buffers_queues) s !! qp).
Definition set_bq (qp : nat) (q : io_buffers_queue) : M S unit := alter (insert (M := buffers_queues) qp q).
Definition on_bq (qp : nat) (f : io_buffers_queue -> io_buffers_queue) : M S unit :=
  q ← bq qp; set_bq qp (f q).

(** [memcpy] from and to an array, and the size field of a buffer. *)
Definition mem_read (a off n : nat) : M S (list Z) :=
  bs ← deref (fun s => u_mem (proj s) !! a); deref (fun _ => memcpy_from bs off n).
Definition mem_write (a off : nat) (bs : list Z) : M S unit :=
  old ← deref (fun s => u_mem (proj s) !! a);
  new ← deref (fun _ => memcpy_to old off bs);
  liftM (modify (set_u_mem (insert a new))).
Definition size_read (a off : nat) : M S Z := bs ← mem_read a off sizeof_size_t; mret (bytes_size bs).
Definition size_write (a off : nat) (z : Z) : M S unit := mem_write a off (size_bytes z).

Definition bqSuspendI (qp : nat) : M S unit :=
  on_bq qp (set_suspended true);;
  liftM (chThdDequeueAllI (q_io qp) MSG_RESET).
Definition bqResumeX (qp : nat) : M S unit := on_bq qp (set_suspended false).

(** ** Input *)

Definition ibqObjectInit (qp : nat) (suspended : bool) (mem bp size n link : nat) : M S unit :=
  liftM (chThdQueueObjectInit (q_io qp));;
  set_bq qp (BQueue suspended 0 bp bp (bp + (size + sizeof_size_t) * n) (size + sizeof_size_t) (Z.of_nat n)
    mem bp None None link).

Definition ibqResetI (qp : nat) : M S unit :=
  on_bq qp (fun q => set_current None None (set_bwrptr (bq_buffers q) (set_brdptr (bq_buffers q) (set_bcounter 0 q))));;
  liftM (chThdDequeueAllI (q_io qp) MSG_RESET).

Definition ibqGetEmptyBufferI (qp : nat) : M S ptr :=
  q ← bq qp;
  mret (if ibqIsFullI q then null else at_ (o_mem (bq_mem q)) (bq_bwrptr q + sizeof_size_t)).

Definition ibqPostFullBufferI (qp : nat) (size : Z) : M S unit :=
  q ← bq qp;
  size_write (bq_mem q) (bq_bwrptr q) size;;
  on_bq qp (fun q => step_wr (set_bcounter (u32 (bq_bcounter q + 1)) q));;
  liftM (chThdDequeueNextI (q_io qp) MSG_OK).

(** [while (blocked) { if (suspended) return MSG_RESET; msg = ...; if (msg < MSG_OK) return msg; }] *)
Definition wait_buffer (blocked : io_buffers_queue -> bool) (qp : nat) (timeout : Z) : prog S (option Z) :=
  Loop (fun _ : unit =>
    q ← Atom (bq qp);
    if blocked q then
      if bq_suspended q then mret (inr (Some MSG_RESET))
      else
        msg ← lift (chThdEnqueueTimeoutS (q_io qp) timeout);
        mret (if msg <? MSG_OK then inr (Some msg) else inl tt)
    else mret (inr None)) tt.

(** The current buffer is the next full one. *)
Definition take_full (qp : nat) : M S unit :=
  q ← bq qp;
  n ← size_read (bq_mem q) (bq_brdptr q);
  let p := (bq_brdptr q + sizeof_size_t)%nat in
  set_bq qp (set_current (Some p) (Some (p + Z.to_nat n)%nat) q).

Definition ibqGetFullBufferTimeoutS (qp : nat) (timeout : Z) : prog S Z :=
  r ← wait_buffer ibqIsEmptyI qp timeout;
  match r with
  | Some msg => mret msg
  | None => Atom (take_full qp);; mret MSG_OK
  end.
Definition ibqGetFullBufferTimeout (qp : nat) (timeout : Z) : prog S Z :=
  locked (ibqGetFullBufferTimeoutS qp timeout).

Context `{!BQNotify S}.

Definition ibqReleaseEmptyBufferS (qp : nat) : M S unit :=
  on_bq qp (fun q => step_rd (set_bcounter (u32 (bq_bcounter q - 1)) q));;
  on_bq qp (fun q => set_current None (bq_top q) q);;
  ibq_notify qp.
Definition ibqReleaseEmptyBuffer (qp : nat) : prog S unit := locked (Atom (ibqReleaseEmptyBufferS qp)).

(** [if (ptr == NULL) { msg = ...; if (msg != MSG_OK) ... }]: [Some msg] is the early return. *)
Definition acquire (get : nat -> Z -> prog S Z) (qp : nat) (timeout : Z) : prog S (option Z) :=
  q ← Atom (bq qp);
  match bq_ptr q with
  | None => msg ← get qp timeout; mret (if msg =? MSG_OK then None else Some msg)
  | Some _ => mret None
  end.

(** [memcpy(bp, ptr, n); ptr += n; if (ptr >= top) ...] *)
Definition get_bytes (qp n : nat) : M S (list Z) :=
  q ← bq qp;
  p ← deref (fun _ => bq_ptr q);
  t ← deref (fun _ => bq_top q);
  bs ← mem_read (bq_mem q) p n;
  set_bq qp (set_current (Some (p + n)%nat) (Some t) q);;
  (if (t <=? p + n)%nat then ibqReleaseEmptyBufferS qp else mret tt);;
  mret bs.

Definition ibqGetTimeout (qp : nat) (timeout : Z) : prog S Z :=
  locked (
    r ← acquire ibqGetFullBufferTimeoutS qp timeout;
    match r with
    | Some msg => mret msg
    | None => bs ← Atom (get_bytes qp 1); mret (nth 0 bs 0)
    end).

(** The size of a chunk, of [left] bytes still wanted: at most what the current buffer has, and 64. *)
Definition chunk (qp : nat) (left : Z) : M S nat :=
  q ← bq qp;
  p ← deref (fun _ => bq_ptr q);
  t ← deref (fun _ => bq_top q);
  let size := u32 (Z.of_nat t - Z.of_nat p) in
  let size := if left <? size then left else size in
  mret (Z.to_nat (if 64 <? size then 64 else size)).

Definition read_chunk (qp : nat) (n : Z) (timeout : Z) (got : list Z) : prog S (list Z + list Z) :=
  r ← acquire ibqGetFullBufferTimeoutS qp timeout;
  match r with
  | Some _ => mret (inr got)
  | None =>
      bs ← Atom (size ← chunk qp (n - Z.of_nat (length got)); get_bytes qp size);
      let got := got ++ bs in
      if n <=? Z.of_nat (length got) then mret (inr got) else Yield unlocked;; mret (inl got)
  end.

(** The bytes read. *)
Definition ibqReadTimeout (qp : nat) (n timeout : Z) : prog S (list Z) :=
  locked (Loop (read_chunk qp n timeout) []).

(** ** Output *)

Definition obqObjectInit (qp : nat) (suspended : bool) (mem bp size n link : nat) : M S unit :=
  liftM (chThdQueueObjectInit (q_io qp));;
  set_bq qp (BQueue suspended (Z.of_nat n) bp bp (bp + (size + sizeof_size_t) * n) (size + sizeof_size_t)
    (Z.of_nat n) mem bp None None link).

Definition obqResetI (qp : nat) : M S unit :=
  on_bq qp (fun q => set_current None None (set_bwrptr (bq_buffers q) (set_brdptr (bq_buffers q)
    (set_bcounter (bqSizeX q) q))));;
  liftM (chThdDequeueAllI (q_io qp) MSG_RESET).

(** The buffer and its size. *)
Definition obqGetFullBufferI (qp : nat) : M S (option (ptr * Z)) :=
  q ← bq qp;
  if obqIsEmptyI q then mret None
  else
    n ← size_read (bq_mem q) (bq_brdptr q);
    mret (Some (at_ (o_mem (bq_mem q)) (bq_brdptr q + sizeof_size_t), n)).

Definition obqReleaseEmptyBufferI (qp : nat) : M S unit :=
  on_bq qp (fun q => step_rd (set_bcounter (u32 (bq_bcounter q + 1)) q));;
  liftM (chThdDequeueNextI (q_io qp) MSG_OK).

Definition take_empty (qp : nat) : M S unit :=
  on_bq qp (fun q => set_current (Some (bq_bwrptr q + sizeof_size_t)%nat) (Some (bq_bwrptr q + bq_bsize q)%nat) q).

Definition obqGetEmptyBufferTimeoutS (qp : nat) (timeout : Z) : prog S Z :=
  r ← wait_buffer obqIsFullI qp timeout;
  match r with
  | Some msg => mret msg
  | None => Atom (take_empty qp);; mret MSG_OK
  end.
Definition obqGetEmptyBufferTimeout (qp : nat) (timeout : Z) : prog S Z :=
  locked (obqGetEmptyBufferTimeoutS qp timeout).

(** The size field is written and the buffer posted: [obqPostFullBufferS] without the notification. *)
Definition post_full (qp : nat) (size : Z) : M S unit :=
  q ← bq qp;
  size_write (bq_mem q) (bq_bwrptr q) size;;
  on_bq qp (fun q => step_wr (set_bcounter (u32 (bq_bcounter q - 1)) q));;
  on_bq qp (fun q => set_current None (bq_top q) q).

Definition obqPostFullBufferS (qp : nat) (size : Z) : M S unit := post_full qp size;; obq_notify qp.
Definition obqPostFullBuffer (qp : nat) (size : Z) : prog S unit := locked (Atom (obqPostFullBufferS qp size)).

Definition put_bytes (qp : nat) (bs : list Z) : M S unit :=
  q ← bq qp;
  p ← deref (fun _ => bq_ptr q);
  t ← deref (fun _ => bq_top q);
  mem_write (bq_mem q) p bs;;
  set_bq qp (set_current (Some (p + length bs)%nat) (Some t) q);;
  (if (t <=? p + length bs)%nat
   then obqPostFullBufferS qp (Z.of_nat (bq_bsize q - sizeof_size_t)) else mret tt).

Definition obqPutTimeout (qp : nat) (b timeout : Z) : prog S Z :=
  locked (
    r ← acquire obqGetEmptyBufferTimeoutS qp timeout;
    match r with
    | Some msg => mret msg
    | None => Atom (put_bytes qp [b]);; mret MSG_OK
    end).

(** The loop's variable is what is left to write of [max] bytes. *)
Definition write_chunk (qp max : nat) (timeout : Z) (left : list Z) : prog S (list Z + nat) :=
  r ← acquire obqGetEmptyBufferTimeoutS qp timeout;
  match r with
  | Some _ => mret (inr (max - length left)%nat)
  | None =>
      n ← Atom (size ← chunk qp (Z.of_nat (length left)); put_bytes qp (take size left);; mret size);
      let left := drop n left in
      if (length left =? 0)%nat then mret (inr max) else Yield unlocked;; mret (inl left)
  end.

(** The number of bytes written. *)
Definition obqWriteTimeout (qp : nat) (bs : list Z) (timeout : Z) : prog S nat :=
  locked (Loop (write_chunk qp (length bs) timeout) bs).

(** What was written of the current buffer. *)
Definition filled (q : io_buffers_queue) (p : nat) : Z :=
  u32 (Z.of_nat p - (Z.of_nat (bq_bwrptr q) + Z.of_nat sizeof_size_t)).

Definition obqTryFlushI (qp : nat) : M S bool :=
  q ← bq qp;
  match bq_ptr q with
  | Some p =>
      if obqIsEmptyI q && (0 <? filled q p) then post_full qp (filled q p);; mret true else mret false
  | None => mret false
  end.

Definition obqFlush (qp : nat) : prog S unit :=
  locked (Atom (
    q ← bq qp;
    match bq_ptr q with
    | Some p => if 0 <? filled q p then obqPostFullBufferS qp (filled q p) else mret tt
    | None => mret tt
    end)).
End operations.
End HalBuffers.
