(* ===== verification/BuffersSpec.v ===== *)
(** * Buffers queues are streams of bytes

    The contents of a queue of [HalBuffers.v] as a list of buffers and the rest of the buffer that is
    read or written now, and what the operations do to it: bytes are neither lost nor repeated nor
    reordered between the thread and the driver, whatever the two sides do in between. *)

From S2P Require Import Prelude CLib Prog ThreadQueue Kernel ChVt ChSchd ChThreads HalQueues UsbRegs UsbLld HalBuffers.

Module BuffersSpec.
Import ChSchd ChThreads HalQueues HalBuffers.
#[local] Abbreviation take := firstn.
#[local] Abbreviation drop := skipn.

(** ** Arrays *)

(** The [n] bytes at [p]. *)
Definition bytes (l : list Z) (p n : nat) : list Z := take n (drop p l).

Lemma bytes_length l p n : (p + n <= length l)%nat -> length (bytes l p n) = n.
Proof. intros Hl. unfold bytes. rewrite length_take, length_drop. lia. Qed.

Lemma bytes_lookup l p n i : bytes l p n !! i = if decide (i < n)%nat then l !! (p + i)%nat else None.
Proof.
  unfold bytes. destruct (decide (i < n)%nat).
  - rewrite lookup_take_lt by done. apply lookup_drop.
  - apply lookup_take_ge. lia.
Qed.

Lemma memcpy_from_run l p n : (p + n <= length l)%nat -> memcpy_from l p n = Some (bytes l p n).
Proof. intros Hl. unfold memcpy_from. by rewrite (proj2 (Nat.leb_le _ _) Hl). Qed.

(** A write changes the bytes written and nothing else. *)
Lemma memcpy_to_run l p bs : (p + length bs <= length l)%nat -> exists l', memcpy_to l p bs = Some l' /\
  length l' = length l /\ bytes l' p (length bs) = bs /\
  forall i, ~ (p <= i < p + length bs)%nat -> l' !! i = l !! i.
Proof.
  intros Hl. unfold memcpy_to. rewrite (proj2 (Nat.leb_le _ _) Hl). eexists. split; [done|]. split_and!.
  - rewrite !length_app, length_take, length_drop. lia.
  - unfold bytes. rewrite drop_app_length' by (rewrite length_take; lia). apply take_app_length.
  - intros i Hi. destruct (decide (i < p)%nat).
    + rewrite lookup_app_l by (rewrite length_take; lia). by apply lookup_take_lt.
    + rewrite lookup_app_r by (rewrite length_take; lia).
      rewrite lookup_app_r by (rewrite length_take; lia). rewrite lookup_drop, length_take. f_equal. lia.
Qed.

Lemma bytes_same l l' p n : (forall i, (p <= i < p + n)%nat -> l' !! i = l !! i) -> bytes l' p n = bytes l p n.
Proof.
  intros H. apply list_eq. intros i. rewrite !bytes_lookup. destruct (decide (i < n)%nat); [|done].
  apply H. lia.
Qed.

Lemma bytes_app l p n m : bytes l p (n + m) = bytes l p n ++ bytes l (p + n) m.
Proof. unfold bytes. rewrite <- take_take_drop, drop_drop. do 3 f_equal. Qed.

Lemma bytes_split l p n : drop p l = bytes l p n ++ drop (p + n) l.
Proof. unfold bytes. by rewrite <- (drop_drop l n p), take_drop. Qed.

(** ** Sizes *)

Lemma size_round_trip z : 0 <= z < 2 ^ 32 -> bytes_size (size_bytes z) = z.
Proof.
  intros Hz. unfold size_bytes, bytes_size, u8. cbn [foldr]. rewrite !Z.shiftr_div_pow2 by lia. dlia.
Qed.
Lemma size_bytes_length z : length (size_bytes z) = sizeof_size_t.
Proof. done. Qed.

(** The buffer in front of [p]: its size and its data. *)
Definition size_at (l : list Z) (p : nat) : Z := bytes_size (bytes l p sizeof_size_t).
Definition data_at (l : list Z) (p : nat) : list Z := bytes l (p + sizeof_size_t) (Z.to_nat (size_at l p)).

Lemma size_at_same l l' p : (forall i, (p <= i < p + sizeof_size_t)%nat -> l' !! i = l !! i) ->
  size_at l' p = size_at l p.
Proof. intros H. unfold size_at. by rewrite (bytes_same l l'). Qed.
Lemma data_at_same l l' p n : (forall i, (p <= i < p + sizeof_size_t + n)%nat -> l' !! i = l !! i) ->
  size_at l p <= Z.of_nat n -> data_at l' p = data_at l p.
Proof.
  intros H Hs. unfold data_at. rewrite (size_at_same l l') by (intros; apply H; lia).
  apply bytes_same. intros i Hi. apply H. lia.
Qed.

(** ** The ring of buffers *)

Record shape (N : nat) (q : io_buffers_queue) (l : list Z) : Prop := {
  sh_size : (sizeof_size_t < bq_bsize q)%nat;
  sh_small : Z.of_nat (bq_bsize q) < 2 ^ 32;
  sh_pos : (0 < N)%nat;
  sh_count : Z.of_nat N < 2 ^ 32;
  sh_bn : bq_bn q = Z.of_nat N;
  sh_top : bq_btop q = (bq_buffers q + bq_bsize q * N)%nat;
  sh_room : (bq_btop q <= length l)%nat
}.

Definition slot (q : io_buffers_queue) (k : nat) : nat := (bq_buffers q + bq_bsize q * k)%nat.
(** The capacity of a buffer. *)
Definition capacity (q : io_buffers_queue) : nat := bq_bsize q - sizeof_size_t.

Lemma slot_room N q l k : shape N q l -> (k < N)%nat -> (slot q k + sizeof_size_t + capacity q <= length l)%nat.
Proof. intros [H1 _ _ _ _ H4 H5] Hk. unfold slot, capacity, sizeof_size_t in *. nia. Qed.

Lemma slot_apart N q l j k i : shape N q l -> (j < N)%nat -> (k < N)%nat -> j <> k ->
  (slot q j <= i < slot q j + bq_bsize q)%nat -> ~ (slot q k <= i < slot q k + bq_bsize q)%nat.
Proof. intros _ Hj Hk Hn Hi. unfold slot in *. nia. Qed.

Lemma advance_slot N q l k : shape N q l -> (k < N)%nat -> advance q (slot q k) = slot q (ring_index N k 1).
Proof.
  intros [H1 _ _ _ _ H4 _] Hk. unfold advance, slot, ring_index. rewrite H4.
  destruct (Nat.leb_spec (bq_buffers q + bq_bsize q * N) (bq_buffers q + bq_bsize q * k + bq_bsize q)), (Nat.ltb_spec (k + 1) N); nia.
Qed.

Lemma ring_index_lt N i k : (i < N)%nat -> (k <= N)%nat -> (ring_index N i k < N)%nat.
Proof. unfold ring_index. nbool; lia. Qed.
Lemma ring_index_step N i k : (i < N)%nat -> (k < N)%nat -> ring_index N (ring_index N i 1) k = ring_index N i (S k).
Proof. unfold ring_index. nbool; lia. Qed.
Lemma ring_index_next N i k : (i < N)%nat -> (k < N)%nat -> ring_index N (ring_index N i k) 1 = ring_index N i (S k).
Proof. unfold ring_index. nbool; lia. Qed.
Lemma ring_index_inj N i j k : (i < N)%nat -> (j < N)%nat -> (k < N)%nat -> ring_index N i j = ring_index N i k -> j = k.
Proof. unfold ring_index. nbool; lia. Qed.

(** [f] full buffers from slot [i] on. *)
Definition buffers (q : io_buffers_queue) (l : list Z) (N i f : nat) : list (list Z) :=
  (fun k => data_at l (slot q (ring_index N i k))) <$> seq 0 f.

Record full_ok (q : io_buffers_queue) (l : list Z) (N i f : nat) : Prop := {
  fu_shape : shape N q l;
  fu_i : (i < N)%nat;
  fu_f : (f <= N)%nat;
  fu_rd : bq_brdptr q = slot q i;
  fu_wr : bq_bwrptr q = slot q (ring_index N i f);
  fu_sizes k : (k < f)%nat -> 0 < size_at l (slot q (ring_index N i k)) <= Z.of_nat (capacity q)
}.

Lemma buffers_snoc q l N i f : buffers q l N i (S f) = buffers q l N i f ++ [data_at l (slot q (ring_index N i f))].
Proof. unfold buffers. by rewrite seq_S, fmap_app. Qed.
Lemma buffers_cons q l N i f : (i < N)%nat -> (S f <= N)%nat ->
  buffers q l N i (S f) = data_at l (slot q i) :: buffers q l N (ring_index N i 1) f.
Proof.
  intros Hi Hf. unfold buffers. cbn [seq]. rewrite fmap_cons. f_equal.
  - do 2 f_equal. unfold ring_index. nbool; lia.
  - rewrite <- fmap_S_seq, <- list_fmap_compose. apply list_fmap_ext. intros k ? [-> Hk]%lookup_seq.
    unfold compose. do 2 f_equal. symmetry. apply ring_index_step; lia.
Qed.

Lemma buffers_same q q' l l' N i f : full_ok q l N i f -> bq_buffers q' = bq_buffers q -> bq_bsize q' = bq_bsize q ->
  (forall k x, (k < f)%nat -> (slot q (ring_index N i k) <= x < slot q (ring_index N i k) + bq_bsize q)%nat ->
    l' !! x = l !! x) ->
  buffers q' l' N i f = buffers q l N i f /\
  (forall k, (k < f)%nat -> size_at l' (slot q (ring_index N i k)) = size_at l (slot q (ring_index N i k))).
Proof.
  intros Hf E1 E2 H. pose proof (sh_size _ _ _ (fu_shape _ _ _ _ _ Hf)) as Hsz. split.
  - apply list_fmap_ext. intros k ? [-> Hk]%lookup_seq. cbn [Nat.add].
    assert (slot q' (ring_index N i k) = slot q (ring_index N i k)) as -> by (unfold slot; by rewrite E1, E2).
    apply (data_at_same _ _ _ (capacity q)).
    + intros x Hx. apply (H k); [lia|]. unfold capacity, sizeof_size_t in *. lia.
    + by apply Hf.
  - intros k Hk. apply size_at_same. intros x Hx. apply (H k); [done|]. lia.
Qed.

(** ** The contents *)

(** An input queue holds the bytes [bs]: the rest of the current buffer and the full buffers. *)
Definition input (q : io_buffers_queue) (l bs : list Z) : Prop := exists N i f,
  full_ok q l N i f /\ bq_bcounter q = Z.of_nat f /\
  match bq_ptr q with
  | None => bs = concat (buffers q l N i f)
  | Some p => exists t, (0 < f)%nat /\ bq_top q = Some t /\
      t = (slot q i + sizeof_size_t + Z.to_nat (size_at l (slot q i)))%nat /\
      (slot q i + sizeof_size_t <= p < t)%nat /\
      bs = bytes l p (t - p) ++ concat (buffers q l N (ring_index N i 1) (f - 1))
  end.

(** An output queue holds full buffers; the bytes [part] are written to the next one, up to [p]. *)
Definition output_upto (q : io_buffers_queue) (l : list Z) (full : list (list Z)) (part : list Z) (p : nat) : Prop :=
  exists N i f, full_ok q l N i f /\ bq_bcounter q = Z.of_nat N - Z.of_nat f /\ full = buffers q l N i f /\ (f < N)%nat /\
    (bq_bwrptr q + sizeof_size_t <= p <= bq_bwrptr q + bq_bsize q)%nat /\
    part = bytes l (bq_bwrptr q + sizeof_size_t) (p - (bq_bwrptr q + sizeof_size_t)).

(** An output queue holds full buffers and the part of a buffer that was written. *)
Definition output (q : io_buffers_queue) (l : list Z) (full : list (list Z)) (part : list Z) : Prop :=
  match bq_ptr q with
  | None => part = [] /\ exists N i f, full_ok q l N i f /\ bq_bcounter q = Z.of_nat N - Z.of_nat f /\ full = buffers q l N i f
  | Some p => output_upto q l full part p /\ bq_top q = Some (bq_bwrptr q + bq_bsize q)%nat /\
      (p < bq_bwrptr q + bq_bsize q)%nat
  end.

Lemma of_nat_zero f : (Z.of_nat f =? 0) = (f =? 0)%nat.
Proof. by destruct f. Qed.

(** Full and empty. *)
Lemma full_ring q l N i f c : full_ok q l N i f -> (c =? 0) = (f =? 0)%nat ->
  (bq_bwrptr q =? bq_brdptr q)%nat && negb (c =? 0) = (f =? N)%nat.
Proof.
  intros [[H1 _ H2 _ _ _ _] Hi Hf Hr Hw _] Hc. rewrite Hc, Hr, Hw. unfold slot, ring_index.
  destruct (Nat.eqb_spec f N), (Nat.eqb_spec f 0); nbool; rewrite ?andb_true_r, ?andb_false_r;
    first [apply Nat.eqb_eq|apply Nat.eqb_neq|lia|idtac]; nia.
Qed.
Lemma empty_ring q l N i f c : full_ok q l N i f -> c = Z.of_nat N - Z.of_nat f ->
  (bq_bwrptr q =? bq_brdptr q)%nat && negb (c =? 0) = (f =? 0)%nat.
Proof.
  intros [[H1 _ H2 _ _ _ _] Hi Hf Hr Hw _] ->. rewrite Hr, Hw. unfold slot, ring_index.
  destruct (Z.eqb_spec (Z.of_nat N - Z.of_nat f) 0), (Nat.eqb_spec f 0); nbool; rewrite ?andb_true_r, ?andb_false_r;
    first [apply Nat.eqb_eq|apply Nat.eqb_neq|lia|idtac]; nia.
Qed.

(** The queue with a buffer more, and a buffer less. *)
Lemma buffer_post_ok q l l' N i f n c : full_ok q l N i f -> (f < N)%nat -> 0 < n <= Z.of_nat (capacity q) ->
  memcpy_to l (bq_bwrptr q) (size_bytes n) = Some l' ->
  full_ok (step_wr (set_bcounter c q)) l' N i (S f) /\
  buffers (step_wr (set_bcounter c q)) l' N i (S f) =
    buffers q l N i f ++ [bytes l (bq_bwrptr q + sizeof_size_t) (Z.to_nat n)].
Proof.
  intros Hf Hlt Hn E. pose proof Hf as [Hs Hi Hle Hr Hw Hsz]. pose proof (sh_size _ _ _ Hs) as Hb.
  pose proof (sh_small _ _ _ Hs) as Hsm.
  assert (Hj : (ring_index N i f < N)%nat) by (apply ring_index_lt; lia).
  pose proof (slot_room _ _ _ _ Hs Hj) as Hroom. rewrite <- Hw in Hroom.
  destruct (memcpy_to_run l (bq_bwrptr q) (size_bytes n)) as (l1 & E1 & Hlen & Hby & Hout);
    [rewrite size_bytes_length; lia|]. rewrite E in E1. injection E1 as <-.
  assert (Hat : size_at l' (bq_bwrptr q) = n).
  { unfold size_at. rewrite <- (size_bytes_length n), Hby. apply size_round_trip. unfold capacity in *. lia. }
  assert (Hsame : forall k x, (k < f)%nat ->
    (slot q (ring_index N i k) <= x < slot q (ring_index N i k) + bq_bsize q)%nat -> l' !! x = l !! x).
  { intros k x Hk Hx. apply Hout. rewrite size_bytes_length, Hw. intros Hc.
    apply (slot_apart N q l (ring_index N i k) (ring_index N i f) x Hs); try done; [apply ring_index_lt; lia| |lia].
    intros Hd. apply ring_index_inj in Hd; lia. }
  destruct (buffers_same q (step_wr (set_bcounter c q)) l l' N i f Hf eq_refl eq_refl Hsame) as [Hbs Hss].
  split; [split|]; try done.
  - destruct Hs as [? ? ? ? ? ? ?]. split; try done. by rewrite Hlen.
  - cbn. change (advance (set_bcounter c q) (bq_bwrptr q)) with (advance q (bq_bwrptr q)). rewrite Hw.
    rewrite (advance_slot N q l) by done. by rewrite ring_index_next by lia.
  - intros k Hk. change (slot (step_wr (set_bcounter c q))) with (slot q).
    change (capacity (step_wr (set_bcounter c q))) with (capacity q).
    destruct (decide (k = f)) as [->|]; [rewrite <- Hw, Hat; lia|]. rewrite Hss by lia. apply Hsz. lia.
  - rewrite buffers_snoc, Hbs. do 2 f_equal. change (slot (step_wr (set_bcounter c q))) with (slot q).
    rewrite <- Hw. unfold data_at. rewrite Hat. apply bytes_same. intros x Hx. apply Hout. rewrite size_bytes_length. lia.
Qed.

Lemma buffer_release_ok q l N i f c : full_ok q l N i (S f) ->
  full_ok (step_rd (set_bcounter c q)) l N (ring_index N i 1) f /\
  buffers (step_rd (set_bcounter c q)) l N (ring_index N i 1) f = buffers q l N (ring_index N i 1) f.
Proof.
  intros [Hs Hi Hle Hr Hw Hsz]. split; [|done]. split.
  - by destruct Hs.
  - apply ring_index_lt; lia.
  - lia.
  - cbn. change (advance (set_bcounter c q) (bq_brdptr q)) with (advance q (bq_brdptr q)). rewrite Hr.
    by apply (advance_slot N q l).
  - cbn. rewrite Hw. unfold slot. cbn. do 2 f_equal. symmetry. apply ring_index_step; lia.
  - intros k Hk. change (slot (step_rd (set_bcounter c q))) with (slot q).
    rewrite ring_index_step by lia. apply Hsz. lia.
Qed.

(** *** Input *)

Lemma full_current p t q l N i f : full_ok q l N i f -> full_ok (set_current p t q) l N i f.
Proof. intros [Hs ? ? ? ? ?]. split; try done. by destruct Hs. Qed.

Lemma input_full q l bs : input q l bs -> exists N i f, full_ok q l N i f /\ bq_bcounter q = Z.of_nat f /\
  ibqIsFullI q = (f =? N)%nat.
Proof.
  intros (N & i & f & Hf & Hc & _). exists N, i, f. split; [done|]. split; [done|].
  eapply full_ring; [done|]. rewrite Hc. apply of_nat_zero.
Qed.

(** The driver writes into the empty buffer it was given. *)
Lemma input_free q l l' bs : input q l bs -> ibqIsFullI q = false -> length l' = length l ->
  (forall x, ~ (bq_bwrptr q + sizeof_size_t <= x < bq_bwrptr q + bq_bsize q)%nat -> l' !! x = l !! x) ->
  input q l' bs.
Proof.
  intros (N & i & f & Hf & Hc & Hp) Hn Hlen Hout. pose proof Hf as [Hs Hi Hle Hr Hw Hsz].
  assert (Hlt : f <> N).
  { intros ->. unfold ibqIsFullI in Hn. rewrite (full_ring q l N i N) in Hn; [by rewrite Nat.eqb_refl in Hn|done|].
    rewrite Hc. apply of_nat_zero. }
  assert (Hsame : forall k x, (k < f)%nat ->
    (slot q (ring_index N i k) <= x < slot q (ring_index N i k) + bq_bsize q)%nat -> l' !! x = l !! x).
  { intros k x Hk Hx. apply Hout. rewrite Hw. intros Hcc.
    apply (slot_apart N q l (ring_index N i k) (ring_index N i f) x Hs); try done; [apply ring_index_lt; lia..| |lia].
    intros Hd. apply ring_index_inj in Hd; lia. }
  destruct (buffers_same q q l l' N i f Hf eq_refl eq_refl Hsame) as [Hbs Hss].
  exists N, i, f. split; [split; try done; [by destruct Hs as [? ? ? ? ? ? ?]; split; try done; rewrite Hlen|]|split; [done|]].
  - intros k Hk. rewrite Hss by done. by apply Hsz.
  - destruct (bq_ptr q) as [p|]; [|by rewrite Hbs]. destruct Hp as (t & H0 & Ht & Et & Hpt & ->).
    assert (E0 : ring_index N i 0 = i) by (unfold ring_index; nbool; lia).
    pose proof (Hss 0%nat H0) as E1. rewrite E0 in E1. exists t. rewrite E1. do 4 (split; [done|]). f_equal.
    + symmetry. apply bytes_same. intros x Hx. apply (Hsame 0%nat); [done|]. rewrite E0.
      pose proof (Hsz 0%nat H0) as Hz. rewrite E0 in Hz. pose proof (sh_size _ _ _ Hs).
      unfold capacity, sizeof_size_t in *. lia.
    + destruct f as [|f]; [lia|]. cbn [Nat.sub]. rewrite Nat.sub_0_r.
      rewrite (buffers_cons q l'), (buffers_cons q l) in Hbs by lia. injection Hbs as _ ->. done.
Qed.

(** A buffer is posted. *)
Lemma input_post q l l' bs n : input q l bs -> ibqIsFullI q = false -> 0 < n <= Z.of_nat (capacity q) ->
  memcpy_to l (bq_bwrptr q) (size_bytes n) = Some l' ->
  input (step_wr (set_bcounter (u32 (bq_bcounter q + 1)) q)) l' (bs ++ bytes l (bq_bwrptr q + sizeof_size_t) (Z.to_nat n)).
Proof.
  intros (N & i & f & Hf & Hc & Hp) Hn Hsize E. pose proof Hf as [Hs Hi Hle Hr Hw Hsz].
  assert (Hlt : f <> N).
  { intros ->. unfold ibqIsFullI in Hn. rewrite (full_ring q l N i N) in Hn; [by rewrite Nat.eqb_refl in Hn|done|].
    rewrite Hc. apply of_nat_zero. }
  destruct (buffer_post_ok q l l' N i f n (u32 (bq_bcounter q + 1)) Hf ltac:(lia) Hsize E) as [Hf' Hb'].
  exists N, i, (S f). split; [done|]. split.
  { cbn. rewrite Hc. pose proof (sh_count _ _ _ Hs). unfold u32. rewrite Z.mod_small; lia. }
  change (bq_ptr (step_wr _)) with (bq_ptr q). destruct (bq_ptr q) as [p|].
  - destruct Hp as (t & H0 & Ht & Et & Hpt & ->).
    assert (Hsame : forall x, (slot q i <= x < slot q i + bq_bsize q)%nat -> l' !! x = l !! x).
    { destruct (memcpy_to_run l (bq_bwrptr q) (size_bytes n)) as (l1 & E1 & _ & _ & Hout).
      - pose proof (slot_room _ _ _ (ring_index N i f) Hs ltac:(apply ring_index_lt; lia)). rewrite <- Hw in *.
        rewrite size_bytes_length. lia.
      - rewrite E in E1. injection E1 as <-. intros x Hx. apply Hout. rewrite size_bytes_length, Hw. intros Hcc.
        pose proof (sh_size _ _ _ Hs).
        apply (slot_apart N q l i (ring_index N i f) x Hs); try done; [apply ring_index_lt; lia| |lia].
        unfold ring_index. nbool; lia. }
    assert (E1 : size_at l' (slot q i) = size_at l (slot q i)).
    { apply size_at_same. intros x Hx. apply Hsame. pose proof (sh_size _ _ _ Hs). lia. }
    exists t. change (slot (step_wr _)) with (slot q). rewrite E1. split; [lia|]. do 3 (split; [done|]).
    destruct f as [|f]; [lia|]. rewrite (buffers_cons _ l'), (buffers_cons q l) in Hb' by lia. cbn [app] in Hb'. injection Hb' as _ Hb'.
    cbn [Nat.sub]. rewrite Nat.sub_0_r, Hb', concat_app. cbn [concat]. rewrite app_nil_r, app_assoc. do 2 f_equal.
    symmetry. apply bytes_same. intros x Hx. apply Hsame.
    assert (E0 : ring_index N i 0 = i) by (unfold ring_index; nbool; lia).
    pose proof (Hsz 0%nat ltac:(lia)) as Hz. rewrite E0 in Hz. pose proof (sh_size _ _ _ Hs). unfold capacity, sizeof_size_t in *. lia.
  - rewrite Hb', Hp, concat_app. cbn. by rewrite app_nil_r.
Qed.

(** The thread takes the oldest buffer. *)
Lemma input_take_full q l bs : input q l bs -> bq_ptr q = None -> ibqIsEmptyI q = false ->
  let p := (bq_brdptr q + sizeof_size_t)%nat in
  input (set_current (Some p) (Some (p + Z.to_nat (size_at l (bq_brdptr q)))%nat) q) l bs.
Proof.
  intros (N & i & f & Hf & Hc & Hp) Ep He p. pose proof Hf as [Hs Hi Hle Hr Hw Hsz]. rewrite Ep in Hp.
  assert (H0 : (0 < f)%nat) by (unfold ibqIsEmptyI, bqSpaceI in He; rewrite Hc in He; destruct f; [done|lia]).
  assert (E0 : ring_index N i 0 = i) by (unfold ring_index; nbool; lia).
  exists N, i, f. split; [by apply full_current|]. split; [done|]. cbn [bq_ptr bq_top set_current].
  exists (p + Z.to_nat (size_at l (bq_brdptr q)))%nat. subst p. rewrite Hr. change (slot (set_current _ _ q)) with (slot q).
  split; [done|]. do 2 (split; [done|]). pose proof (Hsz 0%nat H0) as Hz. rewrite E0 in Hz. split; [lia|].
  rewrite Hp. destruct f as [|f]; [lia|]. rewrite buffers_cons by lia. cbn [concat Nat.sub]. rewrite Nat.sub_0_r.
  change (buffers (set_current _ _ q)) with (buffers q). f_equal. unfold data_at. f_equal. lia.
Qed.

(** What the current buffer has left is the beginning of the contents. *)
Lemma input_current q l bs p : input q l bs -> bq_ptr q = Some p -> exists t, bq_top q = Some t /\
  (p < t <= length l)%nat /\ Z.of_nat (t - p) < 2 ^ 32 /\
  bytes l p (t - p) = take (t - p) bs /\ (t - p <= length bs)%nat.
Proof.
  intros (N & i & f & Hf & Hc & Hp) Ep. rewrite Ep in Hp. destruct Hp as (t & H0 & Ht & Et & Hpt & ->).
  pose proof Hf as [Hs Hi Hle Hr Hw Hsz]. assert (E0 : ring_index N i 0 = i) by (unfold ring_index; nbool; lia).
  pose proof (Hsz 0%nat H0) as Hz. rewrite E0 in Hz. pose proof (slot_room _ _ _ _ Hs Hi) as Hroom.
  pose proof (sh_small _ _ _ Hs). pose proof (sh_size _ _ _ Hs). exists t. split; [done|].
  assert (Hl : (p + (t - p) <= length l)%nat) by lia.
  split; [lia|]. split; [unfold capacity, sizeof_size_t in *; lia|].
  pose proof (bytes_length l p (t - p) Hl) as Hb. split.
  - rewrite <- Hb at 2. by rewrite take_app_length.
  - rewrite length_app. lia.
Qed.

(** [n] bytes are read of it. *)
Lemma input_read q l bs p t n : input q l bs -> bq_ptr q = Some p -> bq_top q = Some t -> (n <= t - p)%nat ->
  let q1 := set_current (Some (p + n)%nat) (Some t) q in
  bytes l p n = take n bs /\ (n <= length bs)%nat /\
  if (t <=? p + n)%nat
  then input (set_current None (Some t) (step_rd (set_bcounter (u32 (bq_bcounter q1 - 1)) q1))) l (drop n bs)
  else input q1 l (drop n bs).
Proof.
  intros (N & i & f & Hf & Hc & Hp) Ep Et Hn q1. rewrite Ep, Et in Hp. destruct Hp as (? & H0 & [= <-] & Ett & Hpt & ->).
  pose proof Hf as [Hs Hi Hle Hr Hw Hsz]. assert (E0 : ring_index N i 0 = i) by (unfold ring_index; nbool; lia).
  pose proof (Hsz 0%nat H0) as Hz. rewrite E0 in Hz. pose proof (slot_room _ _ _ _ Hs Hi) as Hroom.
  assert (Hl : (p + n <= length l)%nat) by lia. pose proof (bytes_length l p n Hl) as Hb.
  replace (t - p)%nat with (n + (t - (p + n)))%nat by lia. rewrite bytes_app, <- app_assoc.
  rewrite take_app_length' by done. rewrite drop_app_length' by done. split; [done|]. split; [rewrite length_app; lia|].
  destruct (Nat.leb_spec t (p + n)).
  - replace (t - (p + n))%nat with 0%nat by lia. cbn [app]. unfold bytes at 1. rewrite take_0. cbn [app].
    destruct f as [|f]; [lia|]. cbn [Nat.sub]. rewrite Nat.sub_0_r.
    destruct (buffer_release_ok q1 l N i f (u32 (bq_bcounter q1 - 1))) as [Hf' Hb']; [by apply full_current|].
    exists N, (ring_index N i 1), f. split; [by apply full_current|]. split; [|done].
    cbn. rewrite Hc. pose proof (sh_count _ _ _ Hs). unfold u32. rewrite Z.mod_small; lia.
  - exists N, i, f. split; [by apply full_current|]. split; [done|]. cbn [bq_ptr bq_top set_current]. exists t. change (slot q1) with (slot q).
    do 3 (split; [done|]). split; [lia|]. done.
Qed.

(** *** Output *)

Lemma output_full q l full part : output q l full part -> exists N i f, full_ok q l N i f /\
  bq_bcounter q = Z.of_nat N - Z.of_nat f /\ full = buffers q l N i f.
Proof. unfold output. destruct (bq_ptr q); [|by intros [_ H]]. intros [(N & i & f & ? & ? & ? & _) _]. by exists N, i, f. Qed.

(** The thread takes an empty buffer. *)
Lemma output_take_empty q l full part : output q l full part -> bq_ptr q = None -> obqIsFullI q = false ->
  part = [] /\ output (set_current (Some (bq_bwrptr q + sizeof_size_t)%nat) (Some (bq_bwrptr q + bq_bsize q)%nat) q) l full [].
Proof.
  intros Ho Ep He. unfold output in Ho. rewrite Ep in Ho. destruct Ho as (-> & N & i & f & Hf & Hc & Hb). split; [done|].
  pose proof (sh_size _ _ _ (fu_shape _ _ _ _ _ Hf)) as Hsz. split; [|split; [done|cbn [bq_bwrptr bq_bsize set_current]; lia]].
  exists N, i, f. split; [by apply full_current|]. do 2 (split; [done|]). split.
  - pose proof (fu_f _ _ _ _ _ Hf). unfold obqIsFullI, bqSpaceI in He. lia.
  - cbn [bq_bwrptr bq_bsize set_current]. split; [lia|]. by rewrite Nat.sub_diag.
Qed.

Lemma output_current q l full part p : output q l full part -> bq_ptr q = Some p -> exists t, bq_top q = Some t /\
  t = (bq_bwrptr q + bq_bsize q)%nat /\ (p < t <= length l)%nat /\ Z.of_nat (t - p) < 2 ^ 32 /\ output_upto q l full part p.
Proof.
  intros Ho Ep. unfold output in Ho. rewrite Ep in Ho. destruct Ho as (Ho & Ht & Hp). exists (bq_bwrptr q + bq_bsize q)%nat.
  do 2 (split; [done|]). pose proof Ho as (N & i & f & Hf & _ & _ & Hlt & Hpp & _).
  pose proof Hf as [Hs Hi Hle Hr Hw Hsz]. pose proof (sh_small _ _ _ Hs). pose proof (sh_size _ _ _ Hs).
  pose proof (slot_room _ _ _ (ring_index N i f) Hs ltac:(apply ring_index_lt; lia)) as Hroom. rewrite <- Hw in Hroom.
  unfold capacity in Hroom. split; [lia|]. split; [lia|done].
Qed.

(** It writes into it. *)
Lemma output_write q l l' full part p bs p1 t1 : output_upto q l full part p -> (p + length bs <= bq_bwrptr q + bq_bsize q)%nat ->
  memcpy_to l p bs = Some l' -> output_upto (set_current p1 t1 q) l' full (part ++ bs) (p + length bs).
Proof.
  intros (N & i & f & Hf & Hc & -> & Hlt & Hp & ->) Hl E. pose proof Hf as [Hs Hi Hle Hr Hw Hsz].
  pose proof (slot_room _ _ _ (ring_index N i f) Hs ltac:(apply ring_index_lt; lia)) as Hroom. rewrite <- Hw in Hroom.
  pose proof (sh_size _ _ _ Hs). unfold capacity in Hroom.
  destruct (memcpy_to_run l p bs) as (l1 & E1 & Hlen & Hby & Hout); [lia|]. rewrite E in E1. injection E1 as <-.
  assert (Hsame : forall k x, (k < f)%nat ->
    (slot q (ring_index N i k) <= x < slot q (ring_index N i k) + bq_bsize q)%nat -> l' !! x = l !! x).
  { intros k x Hk Hx. apply Hout. intros Hcc.
    apply (slot_apart N q l (ring_index N i k) (ring_index N i f) x Hs); try done; [apply ring_index_lt; lia..| |lia].
    intros Hd. apply ring_index_inj in Hd; lia. }
  destruct (buffers_same q q l l' N i f Hf eq_refl eq_refl Hsame) as [Hbs Hss].
  exists N, i, f. split.
  { apply full_current. split; try done; [by destruct Hs as [? ? ? ? ? ? ?]; split; try done; rewrite Hlen|].
    intros k Hk. rewrite Hss by done. by apply Hsz. }
  cbn. split; [done|]. split; [by rewrite <- Hbs|]. split; [done|]. split; [lia|].
  replace (p + length bs - (bq_bwrptr q + sizeof_size_t))%nat
    with ((p - (bq_bwrptr q + sizeof_size_t)) + length bs)%nat by lia.
  rewrite bytes_app. replace (bq_bwrptr q + sizeof_size_t + (p - (bq_bwrptr q + sizeof_size_t)))%nat with p by lia.
  rewrite Hby. f_equal. symmetry. apply bytes_same. intros x Hx. apply Hout. lia.
Qed.

(** The buffer written so far is posted. *)
Lemma output_post q l l' full part p t : output_upto q l full part p -> (bq_bwrptr q + sizeof_size_t < p)%nat ->
  memcpy_to l (bq_bwrptr q) (size_bytes (Z.of_nat (length part))) = Some l' ->
  output (set_current None t (step_wr (set_bcounter (u32 (bq_bcounter q - 1)) q))) l' (full ++ [part]) [].
Proof.
  intros (N & i & f & Hf & Hc & -> & Hlt & Hp & ->) Hpos. pose proof Hf as [Hs Hi Hle Hr Hw Hsz].
  pose proof (slot_room _ _ _ (ring_index N i f) Hs ltac:(apply ring_index_lt; lia)) as Hroom. rewrite <- Hw in Hroom.
  pose proof (sh_size _ _ _ Hs). unfold capacity in Hroom. rewrite bytes_length by lia. intros E.
  destruct (buffer_post_ok q l l' N i f (Z.of_nat (p - (bq_bwrptr q + sizeof_size_t))) (u32 (bq_bcounter q - 1)) Hf Hlt ltac:(unfold capacity; lia) E) as [Hf' Hb'].
  split; [done|]. exists N, i, (S f). split; [by apply full_current|]. split.
  - change (u32 (bq_bcounter q - 1) = Z.of_nat N - Z.of_nat (S f)). rewrite Hc. pose proof (sh_count _ _ _ Hs).
    unfold u32. rewrite Z.mod_small; lia.
  - change (buffers (set_current _ _ ?q)) with (buffers q). rewrite Hb'. by rewrite Nat2Z.id.
Qed.

(** The buffer to transmit is the oldest. *)
Lemma output_get q l full part : output q l full part ->
  obqIsEmptyI q = match full with [] => true | _ => false end /\
  match full with
  | [] => True
  | b :: _ => size_at l (bq_brdptr q) = Z.of_nat (length b) /\ data_at l (bq_brdptr q) = b /\
      (0 < length b <= capacity q)%nat /\ (bq_brdptr q + sizeof_size_t + length b <= length l)%nat
  end.
Proof.
  intros (N & i & f & Hf & Hc & ->)%output_full. pose proof Hf as [Hs Hi Hle Hr Hw Hsz].
  unfold obqIsEmptyI. rewrite (empty_ring q l N i f) by done. destruct f as [|f]; [done|]. rewrite buffers_cons by lia.
  split; [done|]. assert (E0 : ring_index N i 0 = i) by (unfold ring_index; nbool; lia).
  pose proof (Hsz 0%nat ltac:(lia)) as Hz. rewrite E0, <- Hr in Hz. pose proof (slot_room _ _ _ _ Hs Hi) as Hroom.
  rewrite <- Hr in *. unfold data_at. rewrite bytes_length by lia. split; [lia|]. split; [done|]. lia.
Qed.

Lemma output_release q l b full part : output q l (b :: full) part ->
  output (step_rd (set_bcounter (u32 (bq_bcounter q + 1)) q)) l full part.
Proof.
  assert (Hx : forall N i f, full_ok q l N i f -> bq_bcounter q = Z.of_nat N - Z.of_nat f -> b :: full = buffers q l N i f ->
    exists f', f = S f' /\ full_ok (step_rd (set_bcounter (u32 (bq_bcounter q + 1)) q)) l N (ring_index N i 1) f' /\
      u32 (bq_bcounter q + 1) = Z.of_nat N - Z.of_nat f' /\
      full = buffers (step_rd (set_bcounter (u32 (bq_bcounter q + 1)) q)) l N (ring_index N i 1) f').
  { intros N i f Hf Hc Hb. destruct f as [|f]; [done|]. exists f. split; [done|]. pose proof Hf as [Hs Hi Hle Hr Hw Hsz].
    destruct (buffer_release_ok q l N i f (u32 (bq_bcounter q + 1)) Hf) as [Hf' Hb']. split; [done|].
    rewrite buffers_cons in Hb by lia. injection Hb as _ ->. split; [|done].
    rewrite Hc. pose proof (sh_count _ _ _ Hs). unfold u32. rewrite Z.mod_small; lia. }
  unfold output. change (bq_ptr (step_rd _)) with (bq_ptr q). destruct (bq_ptr q) as [p|].
  - intros [(N & i & f & Hf & Hc & Hb & Hlt & Hp & Hpart) Ht]. split; [|done].
    destruct (Hx N i f Hf Hc Hb) as (f' & -> & Hf' & Hc' & Hb'). exists N, (ring_index N i 1), f'.
    do 3 (split; [done|]). split; [lia|done].
  - intros (Hpart & N & i & f & Hf & Hc & Hb). split; [done|].
    destruct (Hx N i f Hf Hc Hb) as (f' & -> & Hf' & Hc' & Hb'). by exists N, (ring_index N i 1), f'.
Qed.

Lemma output_filled q l full part p : output q l full part -> bq_ptr q = Some p -> filled q p = Z.of_nat (length part).
Proof.
  intros Ho Ep. destruct (output_current _ _ _ _ _ Ho Ep) as (t & _ & -> & Hp & H32 & N & i & f & Hf & _ & _ & _ & Hpp & ->).
  pose proof (sh_small _ _ _ (fu_shape _ _ _ _ _ Hf)). rewrite bytes_length by lia. unfold filled, u32. rewrite Z.mod_small; lia.
Qed.

End BuffersSpec.
