(* ===== verification/BuffersThreads.v ===== *)
(** * Threads and drivers on buffers queues

    The streams of [BuffersSpec.v] in the state: reading and writing threads against a driver that
    does its part of the work between any two of their steps. *)

From S2P Require Import Prelude CLib Prog ThreadQueue Kernel ChVt ChSchd ChThreads HalQueues UsbRegs UsbLld HalBuffers.
From S2P Require Import BuffersSpec.

Module BuffersThreads.
Import ChSchd ChThreads HalQueues HalBuffers BuffersSpec.
#[local] Abbreviation take := firstn.
#[local] Abbreviation drop := skipn.

Section streams.
Context {S : Type} `{!Component S ch_system, !Component S buffers_queues, !Component S usb}.
Context `{!Apart S ch_system buffers_queues, !Apart S ch_system usb, !Apart S buffers_queues usb}.
Implicit Types (s : S) (qp : nat) (q : io_buffers_queue) (l bs : list Z).

(** ** Running the parts *)

Definition bqueue (s : S) (qp : nat) : option io_buffers_queue := proj (K := buffers_queues) s !! qp.
Definition array (s : S) (a : nat) : option (list Z) := u_mem (proj s) !! a.
Definition with_bq (qp : nat) (q : io_buffers_queue) (s : S) : S := inj (insert (M := buffers_queues) qp q (proj s)) s.
Definition with_array (a : nat) (l : list Z) (s : S) : S := inj (set_u_mem (insert a l) (proj s)) s.

Lemma bq_run qp s q : bqueue s qp = Some q -> bq qp s = Some (q, s).
Proof. intros E. unfold bq, deref. unfold bqueue in E. by rewrite E. Qed.
Lemma set_bq_run qp q s : set_bq qp q s = Some (tt, with_bq qp q s).
Proof. reflexivity. Qed.
Lemma on_bq_run qp f s q : bqueue s qp = Some q -> on_bq qp f s = Some (tt, with_bq qp (f q) s).
Proof. intros E. unfold on_bq. by erewrite run_call by by apply bq_run. Qed.

Lemma mem_read_run a off n s l : array s a = Some l -> (off + n <= length l)%nat ->
  mem_read a off n s = Some (bytes l off n, s).
Proof.
  intros E Hn. unfold mem_read. erewrite run_deref by apply E. unfold deref. by rewrite memcpy_from_run.
Qed.
Lemma mem_write_run a off bs s l l' : array s a = Some l -> memcpy_to l off bs = Some l' ->
  mem_write a off bs s = Some (tt, with_array a l' s).
Proof. intros E E'. unfold mem_write. erewrite run_deref by apply E. by erewrite run_deref by apply E'. Qed.
Lemma size_read_run a off s l : array s a = Some l -> (off + sizeof_size_t <= length l)%nat ->
  size_read a off s = Some (size_at l off, s).
Proof. intros E Hn. unfold size_read. by erewrite run_call by by eapply mem_read_run. Qed.

Lemma bqueue_with qp q s : bqueue (with_bq qp q s) qp = Some q.
Proof. unfold bqueue, with_bq. rewrite proj_inj. apply lookup_insert_eq. Qed.
Lemma with_with_bq qp q q' s : with_bq qp q (with_bq qp q' s) = with_bq qp q s.
Proof. unfold with_bq. rewrite proj_inj, inj_inj. f_equal. apply insert_insert_eq. Qed.
Lemma array_bq qp q s : array (with_bq qp q s) = array s.
Proof. unfold array, with_bq. by rewrite (apart_l (A := buffers_queues) (B := usb)). Qed.
Lemma bqueue_array a l s : bqueue (with_array a l s) = bqueue s.
Proof. unfold bqueue, with_array. by rewrite (apart_r (A := buffers_queues) (B := usb)). Qed.
Lemma array_with a l s : array (with_array a l s) a = Some l.
Proof. unfold array, with_array. rewrite proj_inj. apply lookup_insert_eq. Qed.
Lemma bqueue_kern (k : ch_system) s : bqueue (inj k s) = bqueue s.
Proof. unfold bqueue. by rewrite (apart_l k). Qed.
Lemma array_kern (k : ch_system) s : array (inj k s) = array s.
Proof. unfold array. by rewrite (apart_l k). Qed.

(** ** The streams in the state *)

Definition input_at (qp : nat) (s : S) (bs : list Z) : Prop := exists q l,
  bqueue s qp = Some q /\ array s (bq_mem q) = Some l /\ input q l bs.
Definition output_at (qp : nat) (s : S) (full : list (list Z)) (part : list Z) : Prop := exists q l,
  bqueue s qp = Some q /\ array s (bq_mem q) = Some l /\ output q l full part.
(** There is no current buffer. *)
Definition idle (qp : nat) (s : S) : Prop := exists q, bqueue s qp = Some q /\ bq_ptr q = None.

Lemma input_at_kern qp (k : ch_system) s bs : input_at qp s bs -> input_at qp (inj k s) bs.
Proof. unfold input_at. rewrite bqueue_kern, array_kern. done. Qed.
Lemma output_at_kern qp (k : ch_system) s full part : output_at qp s full part -> output_at qp (inj k s) full part.
Proof. unfold output_at. rewrite bqueue_kern, array_kern. done. Qed.
Lemma idle_kern qp (k : ch_system) s : idle qp s -> idle qp (inj k s).
Proof. unfold idle. by rewrite bqueue_kern. Qed.
(** ** Waiting *)

Lemma wait_buffer_exec R (T : S -> S -> Prop) `{!PreOrder T} blocked qp timeout s r s' :
  (forall (k : ch_system) s, T s (inj k s)) -> (forall w s s', R w s s' -> T s s') ->
  exec R (wait_buffer blocked qp timeout) s r s' ->
  T s s' /\ match r with
           | Some m => m < MSG_OK
           | None => exists q, bqueue s' qp = Some q /\ blocked q = false
           end.
Proof.
  intros Hk HR. unfold wait_buffer. cbn [exec].
  eapply (loop_exec_inv (fun _ s1 => T s s1) (fun r s1 => T s s1 /\ match r with
    | Some m => m < MSG_OK | None => exists q, bqueue s1 qp = Some q /\ blocked q = false end)); [|done].
  intros [] s1 r1 s2 HT (q & s3 & E & Hx). cbn in E. unfold bq, deref in E.
  destruct (proj s1 !! qp) as [q0|] eqn:Hq; [|done]. injection E as <- <-.
  destruct (blocked q0) eqn:Hb.
  - destruct (bq_suspended q0).
    + destruct Hx as [-> ->]. done.
    + destruct Hx as (m & s3 & H1 & [-> ->]).
      assert (HT3 : T s s3) by (etransitivity; [done|by eapply (exec_lift_rel (K := ch_system)), H1]).
      by destruct (Z.ltb_spec m MSG_OK).
  - destruct Hx as [-> ->]. split; [done|]. by exists q0.
Qed.

(** The queue is ready: there is nothing to wait for. *)
Lemma wait_buffer_ready R blocked qp timeout s q : bqueue s qp = Some q -> blocked q = false ->
  exec R (wait_buffer blocked qp timeout) s None s.
Proof.
  intros Hq Hb. cbn [exec wait_buffer]. apply loop_done. cbn [exec mbind prog_bind].
  exists q, s. rewrite (bq_run _ _ _ Hq). split; [done|]. by rewrite Hb.
Qed.

Lemma chunk_run qp s q p t left : bqueue s qp = Some q -> bq_ptr q = Some p -> bq_top q = Some t ->
  (p < t)%nat -> Z.of_nat (t - p) < 2 ^ 32 -> 0 <= left ->
  exists n, chunk qp left s = Some (n, s) /\ (n <= t - p)%nat /\ Z.of_nat n <= left /\ (0 < left -> (0 < n)%nat).
Proof.
  intros Hq Hp Ht Hlt H32 Hl. unfold chunk. erewrite run_call by by apply bq_run.
  erewrite run_deref by apply Hp. erewrite run_deref by apply Ht. cbv zeta.
  assert (u32 (Z.of_nat t - Z.of_nat p) = Z.of_nat (t - p)) as -> by (unfold u32; rewrite Z.mod_small; lia).
  eexists. split; [reflexivity|]. destruct (Z.ltb_spec left (Z.of_nat (t - p))), (Z.ltb_spec 64 left), (Z.ltb_spec 64 (Z.of_nat (t - p))); lia.
Qed.
Definition byte (b : Z) : Prop := 0 <= b < 256.

Lemma memcpy_to_bytes l p bs l' : memcpy_to l p bs = Some l' -> Forall byte bs -> Forall byte l -> Forall byte l'.
Proof.
  unfold memcpy_to. destruct (p + length bs <=? length l)%nat; [|done]. intros [= <-] Hb Hl.
  apply Forall_app. split; [by apply Forall_take|]. apply Forall_app. split; [done|by apply Forall_drop].
Qed.
Lemma size_bytes_bytes z : Forall byte (size_bytes z).
Proof. repeat constructor; apply Z.mod_pos_bound; lia. Qed.

(** ** Reading *)

(** The queue and the memory are left alone. *)
Definition quiet (qp : nat) (s s' : S) : Prop := bqueue s' qp = bqueue s qp /\ forall a, array s' a = array s a.

Section reader.
Context `{!BQNotify S} (qp : nat) (I : S -> Prop).

(** What the driver needs of the state, [I]: the operations of the reader keep it, and then the notification
    works and keeps it too. *)
Record in_client : Prop := {
  ci_kern (k : ch_system) s : I s -> I (inj k s);
  ci_bq q q' s : I s -> bqueue s qp = Some q -> bq_link q' = bq_link q -> bq_mem q' = bq_mem q ->
    bq_bsize q' = bq_bsize q -> bq_bwrptr q' = bq_bwrptr q -> (ibqIsFullI q = false -> ibqIsFullI q' = false) -> I (with_bq qp q' s)
}.
Context (Hclient : in_client).
Context (Hnotify : forall s bs, I s -> input_at qp s bs -> idle qp s ->
  exists s', ibq_notify qp s = Some (tt, s') /\ I s' /\ quiet qp s s').

(** A state in which the queue holds [bs]. *)
Definition reader (bs : list Z) (s : S) : Prop := I s /\ input_at qp s bs.
(** It has a current buffer. *)
Definition reading_now (bs : list Z) (s : S) : Prop := I s /\ exists q l p t, bqueue s qp = Some q /\
  array s (bq_mem q) = Some l /\ input q l bs /\ bq_ptr q = Some p /\ bq_top q = Some t.

Lemma reading_now_reader bs s : reading_now bs s -> reader bs s.
Proof. intros [HI (q & l & p & t & ? & ? & ? & _)]. split; [done|]. by exists q, l. Qed.

(** The driver meanwhile: the contents only grow, and a buffer is made current by the reader only. *)
Definition step_in (s s' : S) : Prop := forall bs, reader bs s ->
  (exists added, reader (bs ++ added) s') /\ (idle qp s -> idle qp s').
Lemma step_in_reader bs s s' : step_in s s' -> reader bs s -> exists added, reader (bs ++ added) s'.
Proof. intros HT Hr. by destruct (HT _ Hr). Qed.
#[local] Instance step_in_preorder : PreOrder step_in.
Proof.
  split.
  - intros s bs Hr. split; [|done]. exists []. by rewrite app_nil_r.
  - intros s1 s2 s3 H1 H2 bs Hr. destruct (H1 _ Hr) as [(a1 & Hr1) Hi1]. destruct (H2 _ Hr1) as [(a2 & Hr2) Hi2].
    split; [|auto]. exists (a1 ++ a2). by rewrite app_assoc.
Qed.
Lemma step_in_kern (k : ch_system) s : step_in s (inj k s).
Proof.
  intros bs [HI Hi]. split; [|apply idle_kern]. exists []. rewrite app_nil_r.
  split; [by apply (ci_kern Hclient)|by apply input_at_kern].
Qed.

Lemma take_full_ok s bs q : reader bs s -> bqueue s qp = Some q -> bq_ptr q = None -> ibqIsEmptyI q = false ->
  exists s', take_full qp s = Some (tt, s') /\ reading_now bs s'.
Proof.
  intros [HI (q' & l & Hq' & Ha & Hi)] Hq Hp He. rewrite Hq in Hq'. injection Hq' as <-.
  pose proof (input_take_full q l bs Hi Hp He) as Hi'. cbv zeta in Hi'.
  destruct (input_current _ _ _ _ Hi' eq_refl) as (t & [= <-] & Hl & _).
  eexists. split.
  { unfold take_full. erewrite run_call by by apply bq_run.
    erewrite run_call by (eapply size_read_run; [done|lia]). cbv zeta. apply set_bq_run. }
  split; [by eapply (ci_bq Hclient)|]. do 4 eexists. rewrite bqueue_with. split; [done|]. rewrite array_bq.
  split; [exact Ha|]. done.
Qed.

Lemma ibqGetFull_exec R timeout s bs m s' : (forall w s s', R w s s' -> step_in s s') ->
  reader bs s -> idle qp s -> exec R (ibqGetFullBufferTimeoutS qp timeout) s m s' ->
  exists added, match decide (m = MSG_OK) with
    | left _ => reading_now (bs ++ added) s'
    | right _ => m < MSG_OK /\ reader (bs ++ added) s'
    end.
Proof.
  intros HR Hrd Hidle (r & s1 & Hw & Hr).
  destruct (wait_buffer_exec R step_in _ _ _ _ _ _ step_in_kern HR Hw) as [HT Hb].
  destruct (step_in_reader _ _ _ HT Hrd) as (a & Hrd1). exists a. destruct r as [m'|].
  - destruct Hr as [-> ->]. case_decide; [lia|done].
  - destruct Hb as (q & Hq & He). assert (Hp : bq_ptr q = None).
    { destruct (HT _ Hrd) as [_ Hid].
      destruct (Hid Hidle) as (q' & Hq' & Hp'). by simplify_eq. }
    destruct (take_full_ok _ _ _ Hrd1 Hq Hp He) as (s2 & E & Hnow). destruct Hr as (? & s3 & E' & -> & ->).
    cbn in E'. rewrite E in E'. injection E' as _ <-. case_decide; [done|lia].
Qed.

Lemma acquire_in_exec R timeout s bs r s' : (forall w s s', R w s s' -> step_in s s') ->
  reader bs s -> exec R (acquire ibqGetFullBufferTimeoutS qp timeout) s r s' ->
  exists added, match r with
    | None => reading_now (bs ++ added) s'
    | Some m => m < MSG_OK /\ reader (bs ++ added) s'
    end.
Proof.
  intros HR Hrd (q & s1 & E & H). pose proof Hrd as [HI (q' & l & Hq & Ha & Hi)].
  cbn in E. rewrite (bq_run _ _ _ Hq) in E. injection E as <- <-. destruct (bq_ptr q') as [p|] eqn:Hp.
  - destruct H as [-> ->]. exists []. rewrite app_nil_r. split; [done|].
    destruct (input_current _ _ _ _ Hi Hp) as (t & Ht & _). by exists q', l, p, t.
  - destruct H as (m & s2 & H & -> & ->). assert (Hidle : idle qp s) by by exists q'.
    destruct (ibqGetFull_exec R timeout s bs m s2 HR Hrd Hidle H) as (a & Hm). exists a.
    case_decide as Hd; [by subst m|]. destruct (Z.eqb_spec m MSG_OK); [done|]. done.
Qed.

(** The queue is not empty: no waiting. *)
Lemma acquire_in_ready R timeout s bs : reader bs s -> bs <> [] ->
  exists s', exec R (acquire ibqGetFullBufferTimeoutS qp timeout) s None s' /\ reading_now bs s'.
Proof.
  intros Hrd Hbs. pose proof Hrd as [HI (q & l & Hq & Ha & Hi)]. destruct (bq_ptr q) as [p|] eqn:Hp.
  - exists s. split; [|split; [done|]].
    + exists q, s. split; [by apply bq_run|]. by rewrite Hp.
    + destruct (input_current _ _ _ _ Hi Hp) as (t & Ht & _). by exists q, l, p, t.
  - assert (He : ibqIsEmptyI q = false).
    { pose proof Hi as (N & i & f & Hf & Hc & Hb). rewrite Hp in Hb. unfold ibqIsEmptyI, bqSpaceI. rewrite Hc.
      by destruct f; [subst bs|]. }
    destruct (take_full_ok _ _ _ Hrd Hq Hp He) as (s' & E & Hnow). exists s'. split; [|done].
    exists q, s. split; [by apply bq_run|]. rewrite Hp. exists MSG_OK, s'. split; [|done].
    exists None, s. split; [by eapply wait_buffer_ready|]. exists tt, s'. done.
Qed.

(** A released buffer is room. *)
Lemma release_room q l bs t : input q l bs -> ibqIsFullI q = false -> bq_ptr q <> None -> forall p,
  ibqIsFullI (set_current p t (step_rd (set_bcounter (u32 (bq_bcounter q - 1)) q))) = false.
Proof.
  intros (N & i & f & Hf & Hc & Hp) Hnf Hne p. destruct (bq_ptr q); [|done]. destruct Hp as (_ & H0 & _).
  destruct f as [|f]; [lia|]. pose proof (sh_count _ _ _ (fu_shape _ _ _ _ _ Hf)). pose proof (fu_f _ _ _ _ _ Hf).
  destruct (buffer_release_ok q l N i f (u32 (bq_bcounter q - 1)) Hf) as [Hf' _].
  unfold ibqIsFullI. rewrite (full_ring _ l N (ring_index N i 1) f).
  - apply Nat.eqb_neq. lia.
  - by apply full_current.
  - cbn. rewrite Hc. rewrite <- of_nat_zero. f_equal. unfold u32. rewrite Z.mod_small; lia.
Qed.

(** Some bytes of the current buffer. *)
Lemma get_chunk_ok bs s left : reading_now bs s -> 0 <= left -> exists n s',
  (size ← chunk qp left; get_bytes qp size) s = Some (take n bs, s') /\ reader (drop n bs) s' /\
  Z.of_nat n <= left /\ (n <= length bs)%nat /\ (0 < left -> (0 < n)%nat).
Proof.
  intros [HI (q & l & p & t & Hq & Ha & Hi & Hp & Ht)] Hleft.
  destruct (input_current _ _ _ _ Hi Hp) as (t' & Ht' & Hpt & H32 & _). rewrite Ht in Ht'. injection Ht' as <-.
  destruct (chunk_run qp s q p t left) as (n & En & Hn & Hnl & Hn0); [done..|lia|done|done|].
  destruct (input_read _ _ _ _ _ n Hi Hp Ht Hn) as (Hby & Hlen & Hi'). cbv zeta in Hi'. exists n.
  erewrite run_call by apply En. unfold get_bytes. cbv beta. erewrite run_call by by apply bq_run.
  erewrite run_deref by apply Hp. erewrite run_deref by apply Ht.
  erewrite run_call by (eapply mem_read_run; [done|lia]). erewrite run_call by apply set_bq_run. rewrite Hby.
  set (q1 := set_current (Some (p + n)%nat) (Some t) q) in *. set (s1 := with_bq qp q1 s).
  assert (HI1 : I s1) by by eapply (ci_bq Hclient).
  assert (Hq1 : bqueue s1 qp = Some q1) by apply bqueue_with.
  assert (Ha1 : array s1 (bq_mem q) = Some l) by (unfold s1; by rewrite array_bq).
  destruct (t <=? p + n)%nat.
  - set (q2 := step_rd (set_bcounter (u32 (bq_bcounter q1 - 1)) q1)) in *.
    set (s2 := with_bq qp (set_current None (bq_top q2) q2) s).
    destruct (Hnotify s2 (drop n bs)) as (s' & E & HI' & Hqq & Haa).
    { subst s2. eapply (ci_bq Hclient); [done..|]. intros Hnf.
      exact (release_room q l bs (bq_top q2) Hi Hnf ltac:(by rewrite Hp) None). }
    { exists (set_current None (bq_top q2) q2), l. unfold s2. rewrite bqueue_with, array_bq. done. }
    { exists (set_current None (bq_top q2) q2). unfold s2. by rewrite bqueue_with. }
    exists s'. split; [|split; [split; [done|]|done]].
    2: { exists (set_current None (bq_top q2) q2), l. rewrite Hqq, Haa. unfold s2. by rewrite bqueue_with, array_bq. }
    assert (E2 : ibqReleaseEmptyBufferS qp s1 = Some (tt, s')).
    { unfold ibqReleaseEmptyBufferS. erewrite run_call by (apply on_bq_run, Hq1).
      erewrite run_call by (apply on_bq_run, bqueue_with). unfold s1. rewrite !with_with_bq. exact E. }
    by erewrite run_call by apply E2.
  - exists s1. split; [done|]. split; [|done]. split; [done|]. by exists q1, l.
Qed.

(** [c]: what was in the queue; at most [n] bytes are read. *)
Definition reading (n : Z) (c got : list Z) (s : S) : Prop := exists bs a,
  reader bs s /\ Z.of_nat (length got) <= n /\ got ++ bs = c ++ a.

Lemma reading_step n c got s s' : reading n c got s -> step_in s s' -> reading n c got s'.
Proof.
  intros (bs & a & Hr & Hl & Hc) HT. destruct (step_in_reader _ _ _ HT Hr) as (a' & Hr').
  exists (bs ++ a'), (a ++ a'). by rewrite !app_assoc, Hc.
Qed.

Lemma read_chunk_ok R n c timeout got s r s' : (forall w s s', R w s s' -> step_in s s') ->
  reading n c got s -> exec R (read_chunk qp n timeout got) s r s' ->
  match r with inl got' | inr got' => reading n c got' s' end.
Proof.
  intros HR (bs & a & Hrd & Hl & Hc) (r1 & s1 & H1 & H).
  destruct (acquire_in_exec R timeout s bs r1 s1 HR Hrd H1) as (a' & Hr1). destruct r1 as [m|].
  { destruct Hr1 as [_ Hr1]. destruct H as [-> ->]. exists (bs ++ a'), (a ++ a'). by rewrite !app_assoc, Hc. }
  destruct H as (x & s2 & E & H).
  destruct (get_chunk_ok _ _ (n - Z.of_nat (length got)) Hr1 ltac:(lia)) as (k & s3 & E3 & Hr3 & Hk & Hlen & _).
  cbn in E. rewrite E3 in E. injection E as <- <-.
  assert (Hnow : reading n c (got ++ take k (bs ++ a')) s3).
  { exists (drop k (bs ++ a')), (a ++ a'). split; [done|]. rewrite length_app, length_take. split; [lia|].
    by rewrite <- app_assoc, take_drop, !app_assoc, Hc. }
  cbv zeta in H. destruct (Z.leb_spec n (Z.of_nat (length (got ++ take k (bs ++ a'))))).
  - destruct H as [-> ->]. done.
  - destruct H as (? & s4 & HR4 & -> & ->). eapply reading_step; [done|by eapply HR].
Qed.

(** [ibqReadTimeout], for the theorem below and its clients. *)
Lemma read_ok n timeout s bs : 0 < n -> reader bs s ->
  (forall R got s', (forall w s s', R w s s' -> step_in s s') ->
    exec R (ibqReadTimeout qp n timeout) s got s' ->
    exists rest added, reader rest s' /\ Z.of_nat (length got) <= n /\ got ++ rest = bs ++ added) /\
  (n <= Z.of_nat (length bs) -> exists s', exec alone (ibqReadTimeout qp n timeout) s (take (Z.to_nat n) bs) s' /\
    reader (drop (Z.to_nat n) bs) s').
Proof.
  intros Hn Hrd. split.
  - intros R got s' HR (got' & s2 & Hloop & (? & s3 & HR3 & -> & ->)).
    assert (HQ : reading n bs got' s2).
    { eapply (loop_exec_inv (reading n bs) (reading n bs)), Hloop.
      + intros x0 s0 r s1 H0 H1. by apply (read_chunk_ok R n bs timeout x0 s0 r s1 HR H0) in H1; destruct r.
      + exists bs, []. split; [done|]. split; [cbn; lia|]. by rewrite app_nil_r. }
    destruct (reading_step _ _ _ _ _ HQ (HR _ _ _ HR3)) as (rest & a & ? & ? & ?). by exists rest, a.
  - intros Hlen.
    assert (Hgo : forall m got s bs, Z.to_nat (n - Z.of_nat (length got)) = m -> Z.of_nat (length got) < n ->
      n - Z.of_nat (length got) <= Z.of_nat (length bs) -> reader bs s -> exists s',
      loop_exec (fun x => exec alone (read_chunk qp n timeout x)) got s (got ++ take m bs) s' /\ reader (drop m bs) s').
    { clear s bs Hrd Hlen. intros m. induction (lt_wf m) as [m _ IH]. intros got s bs Hm Hgot Hlen Hrd.
      destruct (acquire_in_ready alone timeout s bs Hrd) as (s1 & H1 & Hnow); [intros ->; cbn in *; lia|].
      destruct (get_chunk_ok _ _ (n - Z.of_nat (length got)) Hnow ltac:(lia)) as (k & s2 & E & Hr2 & Hk & Hkl & Hk0).
      specialize (Hk0 ltac:(lia)). assert (Hlt : length (take k bs) = k) by (rewrite length_take; lia).
      destruct (decide (k = m)) as [->|Hne].
      - exists s2. split; [|done]. apply loop_done. exists None, s1. split; [done|]. exists (take m bs), s2.
        split; [done|]. cbv zeta. rewrite length_app, Hlt. rewrite (proj2 (Z.leb_le _ _)) by lia. done.
      - destruct (IH (m - k)%nat ltac:(lia) (got ++ take k bs) s2 (drop k bs)) as (s' & Hl & Hr').
        + rewrite length_app. lia.
        + rewrite length_app. lia.
        + rewrite length_app, length_drop. lia.
        + done.
        + exists s'. rewrite drop_drop in Hr'. replace (k + (m - k))%nat with m in Hr' by lia. split; [|done].
          rewrite <- app_assoc, take_take_drop in Hl. replace (k + (m - k))%nat with m in Hl by lia.
          eapply loop_more, Hl. exists None, s1. split; [done|]. exists (take k bs), s2. split; [done|]. cbv zeta.
          rewrite length_app, Hlt. rewrite (proj2 (Z.leb_gt _ _)) by lia. exists tt, s2. done. }
    destruct (Hgo (Z.to_nat n) [] s bs) as (s' & Hl & Hr'); [cbn; lia..|done|].
    exists s'. split; [|done]. exists (take (Z.to_nat n) bs), s'. split; [done|]. exists tt, s'. done.
Qed.
(** [ibqReadTimeout] loses, repeats and reorders nothing, across buffers: whatever the driver posts
    while it runs, the bytes it returns followed by those still in the queue are the bytes that were
    there followed by those that arrived.  It never returns more than asked for, and when they are
    all there it returns them at once, in chunks of at most 64 bytes. *)
Theorem ibqReadTimeout_ok n timeout s bs : 0 < n -> reader bs s ->
  (forall R got s', (forall w s s', R w s s' -> step_in s s') ->
    exec R (ibqReadTimeout qp n timeout) s got s' ->
    exists rest added, reader rest s' /\ Z.of_nat (length got) <= n /\ got ++ rest = bs ++ added) /\
  (n <= Z.of_nat (length bs) -> exists s', exec alone (ibqReadTimeout qp n timeout) s (take (Z.to_nat n) bs) s' /\
    reader (drop (Z.to_nat n) bs) s').
Proof. apply read_ok. Qed.
End reader.

Section writer.
Context `{!BQNotify S} (qp : nat) (I : list (list Z) -> S -> Prop).

(** What the driver needs of the full buffers and of the state: the operations of the writer keep it. *)
Record out_client : Prop := {
  co_kern full (k : ch_system) s : I full s -> I full (inj k s);
  co_bq full q q' s : I full s -> bqueue s qp = Some q -> bq_link q' = bq_link q -> bq_mem q' = bq_mem q ->
    bq_brdptr q' = bq_brdptr q -> I full (with_bq qp q' s);
  co_mem full q l l' s : I full s -> bqueue s qp = Some q -> array s (bq_mem q) = Some l -> length l' = length l ->
    (Forall byte l -> Forall byte l') -> I full (with_array (bq_mem q) l' s);
  co_post full b s : I full s -> I (full ++ [b]) s
}.
Context (Hclient : out_client).
Context (Hnotify : forall s full, I full s -> output_at qp s full [] -> idle qp s ->
  exists s', obq_notify qp s = Some (tt, s') /\ I full s' /\ quiet qp s s').

(** The bytes on their way, oldest first. *)
Definition writer (bs : list Z) (s : S) : Prop := exists full part,
  I full s /\ output_at qp s full part /\ bs = concat full ++ part.
(** [ld] bytes of the [n] buffers of [cap] bytes are taken. *)
Definition loaded (n : Z) (cap ld : nat) (q : io_buffers_queue) (full : list (list Z)) (part : list Z) : Prop :=
  bq_bn q = n /\ capacity q = cap /\ ld = (length full * cap + length part)%nat.
Definition writer_at (n : Z) (cap ld : nat) (bs : list Z) (s : S) : Prop := exists q l full part, I full s /\
  bqueue s qp = Some q /\ array s (bq_mem q) = Some l /\ output q l full part /\ bs = concat full ++ part /\
  loaded n cap ld q full part.
Definition writing_now (n : Z) (cap ld : nat) (bs : list Z) (s : S) : Prop := exists q l full part p t, I full s /\
  bqueue s qp = Some q /\ array s (bq_mem q) = Some l /\ output q l full part /\ bs = concat full ++ part /\
  loaded n cap ld q full part /\ bq_ptr q = Some p /\ bq_top q = Some t.

Lemma writer_at_writer n cap ld bs s : writer_at n cap ld bs s -> writer bs s.
Proof. intros (q & l & full & part & HI & Hq & Ha & Ho & -> & _). exists full, part. split; [done|]. by split; [exists q, l|]. Qed.

(** The driver meanwhile: bytes are only removed from the front. *)
Definition step_out (s s' : S) : Prop := forall bs, writer bs s ->
  (exists n, writer (drop n bs) s') /\ (idle qp s -> idle qp s').
Lemma step_out_writer bs s s' : step_out s s' -> writer bs s -> exists n, writer (drop n bs) s'.
Proof. intros HT Hw. by destruct (HT _ Hw). Qed.
#[local] Instance step_out_preorder : PreOrder step_out.
Proof.
  split.
  - intros s bs Hw. split; [|done]. by exists O.
  - intros s1 s2 s3 H1 H2 bs Hw. destruct (H1 _ Hw) as [(n1 & Hw1) Hi1]. destruct (H2 _ Hw1) as [(n2 & Hw2) Hi2].
    split; [|auto]. exists (n1 + n2)%nat. by rewrite <- drop_drop.
Qed.
Lemma step_out_kern (k : ch_system) s : step_out s (inj k s).
Proof.
  intros bs (full & part & HI & Ho & ->). split; [|apply idle_kern]. exists O, full, part.
  split; [by apply (co_kern Hclient)|]. split; [by apply output_at_kern|done].
Qed.

Lemma take_empty_ok s q l full part : I full s -> bqueue s qp = Some q -> array s (bq_mem q) = Some l -> output q l full part ->
  bq_ptr q = None -> obqIsFullI q = false ->
  exists s', take_empty qp s = Some (tt, s') /\
    writing_now (bq_bn q) (capacity q) (length full * capacity q + length part) (concat full ++ part) s'.
Proof.
  intros HI Hq Ha Ho Hp He. destruct (output_take_empty q l full part Ho Hp He) as [-> Ho'].
  eexists. split; [unfold take_empty; by apply on_bq_run|].
  do 6 eexists. split; [by eapply (co_bq Hclient)|]. rewrite bqueue_with, array_bq. by do 5 (split; [done|]).
Qed.

Lemma acquire_out_exec R timeout s bs r s' : (forall w s s', R w s s' -> step_out s s') ->
  writer bs s -> exec R (acquire obqGetEmptyBufferTimeoutS qp timeout) s r s' ->
  exists n, match r with
    | None => exists b cap ld, writing_now b cap ld (drop n bs) s'
    | Some m => m < MSG_OK /\ writer (drop n bs) s'
    end.
Proof.
  intros HR Hwr (q & s1 & E & H). pose proof Hwr as (full & part & HI & (q' & l & Hq & Ha & Ho) & ->).
  cbn in E. rewrite (bq_run _ _ _ Hq) in E. injection E as <- <-. destruct (bq_ptr q') as [p|] eqn:Hp.
  - destruct H as [-> ->]. exists O. destruct (output_current _ _ _ _ _ Ho Hp) as (t & Ht & _). do 3 eexists. by exists q', l, full, part, p, t.
  - destruct H as (m & s2 & (r1 & s3 & Hw & Hr) & -> & ->). assert (Hidle : idle qp s) by by exists q'.
    destruct (wait_buffer_exec R step_out _ _ _ _ _ _ step_out_kern HR Hw) as [HT Hb].
    destruct (HT _ Hwr) as [(n & full' & part' & HI3 & (q3 & l3 & Hq3 & Ha3 & Ho3) & E3) Hid].
    exists n. rewrite E3. destruct r1 as [m'|].
    + destruct Hr as [-> ->]. destruct (Z.eqb_spec m' MSG_OK); [lia|]. split; [done|].
      exists full', part'. split; [done|]. split; [by exists q3, l3|done].
    + destruct Hb as (q4 & Hq4 & He). destruct (Hid Hidle) as (q5 & Hq5 & Hp5).
      rewrite Hq3 in Hq4, Hq5. injection Hq4 as <-. injection Hq5 as <-.
      destruct (take_empty_ok s3 q3 l3 full' part' HI3 Hq3 Ha3 Ho3 Hp5 He) as (s4 & E4 & Hnow).
      destruct Hr as (? & s5 & E5 & -> & ->). cbn in E5. rewrite E4 in E5. injection E5 as _ <-. by do 3 eexists.
Qed.

(** There is room: no waiting. *)
Lemma acquire_out_ready R timeout s n cap ld bs : writer_at n cap ld bs s -> (ld < Z.to_nat n * cap)%nat ->
  exists s', exec R (acquire obqGetEmptyBufferTimeoutS qp timeout) s None s' /\ writing_now n cap ld bs s'.
Proof.
  intros (q & l & full & part & HI & Hq & Ha & Ho & -> & Hld) Hroom. destruct (bq_ptr q) as [p|] eqn:Hp.
  - exists s. split.
    + exists q, s. split; [by apply bq_run|]. by rewrite Hp.
    + destruct (output_current _ _ _ _ _ Ho Hp) as (t & Ht & _). by exists q, l, full, part, p, t.
  - destruct Hld as (<- & <- & ->). assert (He : obqIsFullI q = false).
    { destruct (output_full _ _ _ _ Ho) as (N & i & f & [Hs _ Hf _ _ _] & Hc & Ef). unfold obqIsFullI, bqSpaceI. rewrite Hc.
      rewrite (sh_bn _ _ _ Hs), Nat2Z.id in Hroom. apply (f_equal length) in Ef. unfold buffers in Ef.
      rewrite length_fmap, length_seq in Ef. rewrite Ef in Hroom. apply Z.eqb_neq. nia. }
    destruct (take_empty_ok _ _ _ _ _ HI Hq Ha Ho Hp He) as (s' & E & Hnow). exists s'. split; [|done].
    exists q, s. split; [by apply bq_run|]. rewrite Hp. exists MSG_OK, s'. split; [|done].
    exists None, s. split; [by eapply wait_buffer_ready|]. exists tt, s'. done.
Qed.

(** What was written of the current buffer is posted. *)
Lemma post_full_ok s q l full part p : I full s -> bqueue s qp = Some q -> array s (bq_mem q) = Some l ->
  output_upto q l full part p -> (bq_bwrptr q + sizeof_size_t < p)%nat ->
  exists s' q' l', post_full qp (Z.of_nat (length part)) s = Some (tt, s') /\ I (full ++ [part]) s' /\ bqueue s' qp = Some q' /\
    array s' (bq_mem q') = Some l' /\ output q' l' (full ++ [part]) [] /\ bq_ptr q' = None /\
    bq_bn q' = bq_bn q /\ capacity q' = capacity q.
Proof.
  intros HI Hq Ha Ho Hp. pose proof Ho as (N & i & f & Hf & _ & _ & Hlt & _).
  pose proof Hf as [Hs Hi Hle Hr Hw Hsz].
  pose proof (slot_room _ _ _ (ring_index N i f) Hs ltac:(apply ring_index_lt; lia)) as Hroom. rewrite <- Hw in Hroom.
  destruct (memcpy_to_run l (bq_bwrptr q) (size_bytes (Z.of_nat (length part)))) as (l' & E & Hlen & _);
    [rewrite size_bytes_length; lia|].
  pose proof (output_post q l l' full part p (bq_top q) Ho Hp E) as Ho'.
  set (q1 := step_wr (set_bcounter (u32 (bq_bcounter q - 1)) q)) in *.
  set (s1 := with_array (bq_mem q) l' s). assert (Hq1 : bqueue s1 qp = Some q) by (unfold s1; by rewrite bqueue_array).
  exists (with_bq qp (set_current None (bq_top q1) q1) s1), (set_current None (bq_top q1) q1), l'. split.
  { unfold post_full. erewrite run_call by by apply bq_run. unfold size_write.
    erewrite run_call by by apply (mem_write_run _ _ _ s l l').
    erewrite run_call by by apply on_bq_run. fold q1 s1. erewrite on_bq_run by apply bqueue_with.
    by rewrite with_with_bq. }
  split.
  { eapply (co_bq Hclient); [|apply Hq1|done..]. apply (co_post Hclient). eapply (co_mem Hclient); [done..|].
    apply (memcpy_to_bytes _ _ _ _ E), size_bytes_bytes. }
  rewrite bqueue_with, array_bq. split; [done|]. split; [apply array_with|done].
Qed.

Lemma output_upto_length q l full part p : output_upto q l full part p ->
  length part = (p - (bq_bwrptr q + sizeof_size_t))%nat.
Proof.
  intros (N & i & f & [Hs Hi Hle Hr Hw Hsz] & _ & _ & Hlt & Hp & ->).
  pose proof (slot_room _ _ _ (ring_index N i f) Hs ltac:(apply ring_index_lt; lia)) as Hroom. rewrite <- Hw in Hroom.
  pose proof (sh_size _ _ _ Hs). unfold capacity in Hroom. apply bytes_length. lia.
Qed.

(** Some bytes are written into the current buffer. *)
Lemma put_bytes_ok s q l full part p t bs : I full s -> bqueue s qp = Some q -> array s (bq_mem q) = Some l ->
  output q l full part -> bq_ptr q = Some p -> bq_top q = Some t -> (0 < length bs <= t - p)%nat -> Forall byte bs ->
  exists s', put_bytes qp bs s = Some (tt, s') /\
    writer_at (bq_bn q) (capacity q) (length full * capacity q + length part + length bs) (concat full ++ part ++ bs) s'.
Proof.
  intros HI Hq Ha Ho Hp Ht Hbs Hby. destruct (output_current _ _ _ _ _ Ho Hp) as (t' & Ht' & Et & Hpt & H32 & Hupto).
  rewrite Ht in Ht'. injection Ht' as <-.
  destruct (memcpy_to_run l p bs) as (l' & E & Hlen & _); [lia|].
  set (q1 := set_current (Some (p + length bs)%nat) (Some t) q).
  pose proof (output_write q l l' full part p bs (Some (p + length bs)%nat) (Some t) Hupto ltac:(lia) E) as Hup1. fold q1 in Hup1.
  set (s1 := with_array (bq_mem q) l' s). set (s2 := with_bq qp q1 s1).
  assert (HI2 : I full s2).
  { eapply (co_bq Hclient); [|unfold s1; rewrite bqueue_array; apply Hq|done..].
    eapply (co_mem Hclient); [done..|]. by eapply memcpy_to_bytes. }
  assert (Hq2 : bqueue s2 qp = Some q1) by apply bqueue_with.
  assert (Ha2 : array s2 (bq_mem q1) = Some l') by (unfold s2; rewrite array_bq; apply array_with).
  unfold put_bytes. erewrite run_call by by apply bq_run. erewrite run_deref by apply Hp. erewrite run_deref by apply Ht.
  erewrite run_call by (eapply mem_write_run; done). erewrite run_call by apply set_bq_run. fold q1 s1 s2.
  pose proof Hupto as (N & i & f & Hf & _ & _ & _ & Hpp & _).
  destruct (Nat.leb_spec t (p + length bs)).
  - destruct (post_full_ok s2 q1 l' full (part ++ bs) (p + length bs) HI2 Hq2 Ha2 Hup1)
      as (s3 & q3 & l3 & E3 & HI3 & Hq3 & Ha3 & Ho3 & Hp3 & Hbn3 & Hcap3); [cbn; lia|].
    pose proof (output_upto_length _ _ _ _ _ Hup1) as Hl1. cbn in Hl1.
    destruct (Hnotify s3 (full ++ [part ++ bs]) HI3) as (s4 & E4 & HI4 & Hqq & Haa); [by exists q3, l3|by exists q3|].
    exists s4. split.
    + unfold obqPostFullBufferS. rewrite Hl1 in E3.
      replace (bq_bsize q - sizeof_size_t)%nat with (p + length bs - (bq_bwrptr q + sizeof_size_t))%nat by (unfold sizeof_size_t in *; lia).
      by erewrite run_call by apply E3.
    + exists q3, l3, (full ++ [part ++ bs]), []. split; [done|]. rewrite Hqq, Haa. do 3 (split; [done|]). split.
      { by rewrite concat_app, concat_cons, app_nil_r, app_nil_r. }
      split; [done|]. split; [done|]. rewrite !length_app in *. cbn [length]. unfold capacity. lia.
  - exists s2. split; [done|]. exists q1, l', full, (part ++ bs). do 3 (split; [done|]). split.
    + split; [done|]. cbn. rewrite Et. split; [done|lia].
    + split; [done|]. split; [done|]. split; [done|]. rewrite length_app. change (capacity q1) with (capacity q). lia.
Qed.

Lemma put_chunk_ok b cap ld c s left : writing_now b cap ld c s -> left <> [] -> Forall byte left -> exists n s',
  (size ← chunk qp (Z.of_nat (length left)); put_bytes qp (take size left);; mret size) s = Some (n, s') /\
  writer_at b cap (ld + n) (c ++ take n left) s' /\ (0 < n <= length left)%nat.
Proof.
  intros (q & l & full & part & p & t & HI & Hq & Ha & Ho & -> & (<- & <- & ->) & Hp & Ht) Hne Hby.
  assert (Hpos : (0 < length left)%nat) by (destruct left; [done|cbn; lia]).
  destruct (output_current _ _ _ _ _ Ho Hp) as (t' & Ht' & Et & Hpt & H32 & _). rewrite Ht in Ht'. injection Ht' as <-.
  destruct (chunk_run qp s q p t (Z.of_nat (length left))) as (n & En & Hn & Hnl & Hn0); [done..|lia|done|lia|].
  specialize (Hn0 ltac:(lia)).
  destruct (put_bytes_ok s q l full part p t (take n left)) as (s' & E & Hw); [done..|rewrite length_take; lia|by apply Forall_take|].
  exists n, s'. erewrite run_call by apply En. erewrite run_call by apply E. rewrite <- app_assoc. split; [done|]. split; [|lia].
  by rewrite length_take, Nat.min_l in Hw by lia.
Qed.

(** [c]: what was in the queue; of [bs], [rest] is still to be written. *)
Definition writing (c bs rest : list Z) (s : S) : Prop := exists i done,
  writer (drop i (c ++ done)) s /\ bs = done ++ rest /\ (i <= length (c ++ done))%nat.

Lemma writing_mono c bs rest m i dn s : writer (drop m (drop i (c ++ dn))) s -> bs = dn ++ rest ->
  writing c bs rest s.
Proof.
  intros Hw Hbs. exists ((i + m) `min` length (c ++ dn))%nat, dn. split; [|split; [done|lia]].
  rewrite drop_drop in Hw. destruct (Nat.min_spec (i + m) (length (c ++ dn))) as [[? ->]|[? ->]]; [done|].
  rewrite drop_ge in Hw by lia. by rewrite drop_ge by lia.
Qed.
Lemma writing_step c bs rest s s' : writing c bs rest s -> step_out s s' -> writing c bs rest s'.
Proof.
  intros (i & dn & Hw & Hbs & Hi) HT. destruct (step_out_writer _ _ _ HT Hw) as (m & Hw'). by eapply writing_mono.
Qed.

Lemma write_chunk_ok R c bs timeout rest s r s' : (forall w s s', R w s s' -> step_out s s') -> rest <> [] -> Forall byte rest ->
  writing c bs rest s -> exec R (write_chunk qp (length bs) timeout rest) s r s' ->
  match r with
  | inl rest' => rest' <> [] /\ Forall byte rest' /\ writing c bs rest' s'
  | inr n => (n <= length bs)%nat /\ writing c bs (drop n bs) s'
  end.
Proof.
  intros HR Hne Hby (i & dn & Hw & Hbs & Hi) (r1 & s1 & H1 & H).
  destruct (acquire_out_exec R timeout s _ r1 s1 HR Hw H1) as (m & Hr1). destruct r1 as [msg|].
  { destruct Hr1 as [_ Hr1]. destruct H as [-> ->]. split; [lia|]. apply (writing_mono c bs _ m i dn); [done|].
    rewrite Hbs at 1. f_equal. rewrite Hbs, length_app. replace (_ - _)%nat with (length dn) by lia. by rewrite drop_app_length. }
  destruct H as (x & s2 & E & H). destruct Hr1 as (b & cap & ld & Hr1).
  destruct (put_chunk_ok _ _ _ _ _ rest Hr1 Hne Hby) as (k & s3 & E3 & Hw3%writer_at_writer & Hk).
  cbn in E. rewrite E3 in E. injection E as <- <-. cbv zeta in H.
  assert (Hnow : writing c bs (drop k rest) s3).
  { assert (Hw4 : writer (drop (m `min` (length (drop i (c ++ dn)))) (drop i (c ++ (dn ++ take k rest)))) s3).
    { rewrite (app_assoc c dn), (drop_app_le (c ++ dn)) by done. rewrite drop_app_le by lia.
      destruct (Nat.min_spec m (length (drop i (c ++ dn)))) as [[? ->]|[? ->]]; [done|].
      rewrite (drop_ge _ m) in Hw3 by lia. by rewrite drop_all. }
    eapply writing_mono; [done|]. by rewrite <- app_assoc, take_drop. }
  destruct (Nat.eqb_spec (length (drop k rest)) 0) as [E0|E0].
  - destruct H as [-> ->]. split; [done|]. rewrite drop_all. apply nil_length_inv in E0. by rewrite E0 in Hnow.
  - destruct H as (? & s4 & HR4 & -> & ->). split; [by intros E1; rewrite E1 in E0|].
    split; [by apply Forall_drop|]. eapply writing_step; [done|by eapply HR].
Qed.

(** [obqTryFlushI] posts what was written of the current buffer when nothing else is to be
    transmitted, and else leaves the state alone. *)
Lemma obqTryFlushI_ok s full part : I full s -> output_at qp s full part ->
  if decide (full = [] /\ part <> [])
  then exists s', obqTryFlushI qp s = Some (true, s') /\ I [part] s' /\ output_at qp s' [part] [] /\ idle qp s'
  else obqTryFlushI qp s = Some (false, s).
Proof.
  intros HI (q & l & Hq & Ha & Ho). destruct (output_get _ _ _ _ Ho) as [He _]. unfold obqTryFlushI.
  assert (Hnone : bq_ptr q = None -> part = []) by (intros Hp; unfold output in Ho; rewrite Hp in Ho; by destruct Ho).
  erewrite run_call by by apply bq_run. destruct (bq_ptr q) as [p|] eqn:Hp.
  2: { case_decide as Hd; [|done]. by destruct Hd as [_ Hd]; destruct (Hd (Hnone eq_refl)). }
  destruct (output_current _ _ _ _ _ Ho Hp) as (t & _ & _ & _ & _ & Hup).
  rewrite (output_filled _ _ _ _ _ Ho Hp), He. pose proof (output_upto_length _ _ _ _ _ Hup) as Hl.
  case_decide as Hd.
  - destruct Hd as [-> Hd]. assert (Hpos : (0 < length part)%nat) by (destruct part; [done|cbn; lia]).
    rewrite (proj2 (Z.ltb_lt 0 (Z.of_nat (length part)))) by lia. cbn [andb].
    destruct (post_full_ok s q l [] part p) as (s' & q' & l' & E & HI' & Hq' & Ha' & Ho' & Hp' & _); [done..|lia|].
    exists s'. erewrite run_call by apply E. split; [done|]. split; [done|]. split; [by exists q', l'|by exists q'].
  - destruct full as [|b full]; [|done]. destruct part; [done|]. by destruct Hd.
Qed.
(** There is room for what is left. *)
Lemma write_all timeout max b cap : forall left ld c s (bs : list Z), left <> [] -> Forall byte left -> length bs = max ->
  writer_at b cap ld c s -> (ld + length left <= Z.to_nat b * cap)%nat ->
  exists s', loop_exec (fun x => exec alone (write_chunk qp max timeout x)) left s max s' /\
    writer_at b cap (ld + length left) (c ++ left) s'.
Proof.
  intros left. induction (well_founded_ltof _ (@length Z) left) as [left _ IH]. unfold ltof in IH.
  intros ld c s bs Hne Hby Hbs Hwr Hroom.
  assert (Hpos : (0 < length left)%nat) by (destruct left; [done|cbn; lia]).
  destruct (acquire_out_ready alone timeout s b cap ld c Hwr) as (s1 & H1 & Hnow); [lia|].
  destruct (put_chunk_ok _ _ _ _ _ left Hnow Hne Hby) as (k & s2 & E & Hw2 & Hk).
  destruct (decide (k = length left)) as [->|Hk'].
  - exists s2. rewrite take_ge in Hw2 by done. split; [|done]. apply loop_done. exists None, s1. split; [done|].
    exists (length left), s2. split; [done|]. cbv zeta. by rewrite drop_all.
  - assert (Hl : length (drop k left) = (length left - k)%nat) by apply length_drop.
    destruct (IH (drop k left) ltac:(lia) (ld + k)%nat (c ++ take k left) s2 bs) as (s' & Hloop & Hw').
    { intros E0. rewrite E0 in Hl. cbn in Hl. lia. }
    { by apply Forall_drop. }
    { done. }
    { done. }
    { lia. }
    exists s'. rewrite <- app_assoc, take_drop, Hl in Hw'. replace (ld + k + (length left - k))%nat with (ld + length left)%nat in Hw' by lia.
    split; [|done]. eapply loop_more, Hloop. exists None, s1. split; [done|]. exists k, s2. split; [done|]. cbv zeta.
    rewrite Hl. destruct (Nat.eqb_spec (length left - k) 0); [lia|]. exists tt, s2. done.
Qed.

(** [obqWriteTimeout], for the theorem below and its clients. *)
Lemma write_ok bs timeout s c : bs <> [] -> Forall byte bs ->
  (forall R n s', writer c s -> (forall w s s', R w s s' -> step_out s s') ->
    exec R (obqWriteTimeout qp bs timeout) s n s' ->
    (n <= length bs)%nat /\ exists i, writer (drop i (c ++ take n bs)) s') /\
  (forall b cap ld, writer_at b cap ld c s -> (ld + length bs <= Z.to_nat b * cap)%nat ->
    exists s', exec alone (obqWriteTimeout qp bs timeout) s (length bs) s' /\ writer_at b cap (ld + length bs) (c ++ bs) s').
Proof.
  intros Hne Hby. split.
  - intros R n s' Hwr HR (n' & s2 & Hloop & (? & s3 & HR3 & -> & ->)).
    assert (HQ : (n' <= length bs)%nat /\ writing c bs (drop n' bs) s2).
    { eapply (loop_exec_inv (fun rest s => rest <> [] /\ Forall byte rest /\ writing c bs rest s)
        (fun n s => (n <= length bs)%nat /\ writing c bs (drop n bs) s)), Hloop.
      + intros x0 s0 r s1 (Hx & Hxb & H0) H1. exact (write_chunk_ok R c bs timeout x0 s0 r s1 HR Hx Hxb H0 H1).
      + do 2 (split; [done|]). exists O, []. rewrite app_nil_r. split; [done|]. split; [done|lia]. }
    destruct HQ as [Hn HQ]. split; [done|].
    destruct (writing_step _ _ _ _ _ HQ (HR _ _ _ HR3)) as (i & dn & Hw & Hbs & _). exists i.
    rewrite <- (take_drop n' bs) in Hbs at 1. apply app_inv_tail in Hbs. by rewrite Hbs.
  - intros b cap ld Hwr Hroom.
    destruct (write_all timeout (length bs) b cap bs ld c s bs Hne Hby eq_refl Hwr Hroom) as (s' & Hl & Hw').
    exists s'. split; [|done]. exists (length bs), s'. split; [done|]. exists tt, s'. done.
Qed.

(** One byte: a call that fails writes nothing. *)
Lemma put_ok b timeout s c : byte b ->
  (forall R m s', writer c s -> (forall w s s', R w s s' -> step_out s s') ->
    exec R (obqPutTimeout qp b timeout) s m s' ->
    exists i, writer (drop i (if m =? MSG_OK then c ++ [b] else c)) s') /\
  (forall n cap ld, writer_at n cap ld c s -> (ld < Z.to_nat n * cap)%nat ->
    exists s', exec alone (obqPutTimeout qp b timeout) s MSG_OK s' /\ writer_at n cap (ld + 1) (c ++ [b]) s').
Proof.
  intros Hby.
  assert (Hput : forall s n cap ld bs, writing_now n cap ld bs s ->
    exists s', put_bytes qp [b] s = Some (tt, s') /\ writer_at n cap (ld + 1) (bs ++ [b]) s').
  { intros s0 n cap ld bs (q & l & full & part & p & t & HI & Hq & Ha & Ho & -> & (<- & <- & ->) & Hp & Ht).
    destruct (output_current _ _ _ _ _ Ho Hp) as (t' & Ht' & _ & Hpt & _). rewrite Ht in Ht'. injection Ht' as <-.
    destruct (put_bytes_ok s0 q l full part p t [b]) as (s' & E & Hw); [done..|cbn; lia|by constructor|].
    exists s'. rewrite <- app_assoc. done. }
  split.
  - intros R m s' Hw HR (m' & s1 & (r & s2 & H1 & H2) & (? & s3 & HR3 & -> & ->)).
    destruct (acquire_out_exec R timeout s c r s2 HR Hw H1) as (i & Hr). destruct r as [e|].
    + destruct Hr as [He Hr], H2 as [-> ->]. destruct (step_out_writer _ _ _ (HR _ _ _ HR3) Hr) as (j & Hj).
      exists (i + j)%nat. rewrite <- drop_drop. by destruct (Z.eqb_spec e MSG_OK); [lia|].
    + destruct Hr as (n & cap & ld & Hnow). destruct (Hput _ _ _ _ _ Hnow) as (s4 & E4 & Hw4%writer_at_writer).
      destruct H2 as (? & s5 & E5 & -> & ->). cbn in E5. rewrite E4 in E5. injection E5 as _ <-.
      destruct (step_out_writer _ _ _ (HR _ _ _ HR3) Hw4) as (j & Hj). exists (i `min` length c + j)%nat.
      change (MSG_OK =? MSG_OK) with true. rewrite <- drop_drop, drop_app_le by lia.
      destruct (Nat.min_spec i (length c)) as [[? ->]|[? ->]]; [done|]. rewrite (drop_ge c) in Hj by lia. by rewrite drop_all.
  - intros n cap ld Hw Hroom. destruct (acquire_out_ready alone timeout s n cap ld c Hw Hroom) as (s1 & H1 & Hnow).
    destruct (Hput _ _ _ _ _ Hnow) as (s' & E & Hw'). exists s'. split; [|done].
    exists MSG_OK, s'. split; [|by exists tt, s']. exists None, s1. split; [done|]. by exists tt, s'.
Qed.
(** [obqWriteTimeout] writes a prefix of its bytes, once and in order, behind what was in the queue,
    whatever the driver transmits, releases and flushes meanwhile, and returns its length; the
    bytes cross buffers, which are posted when they are full.  When there is room for all of them they are
    written at once. *)
Theorem obqWriteTimeout_ok bs timeout s c : bs <> [] -> Forall byte bs ->
  (forall R n s', writer c s -> (forall w s s', R w s s' -> step_out s s') ->
    exec R (obqWriteTimeout qp bs timeout) s n s' ->
    (n <= length bs)%nat /\ exists i, writer (drop i (c ++ take n bs)) s') /\
  (forall b cap ld, writer_at b cap ld c s -> (ld + length bs <= Z.to_nat b * cap)%nat ->
    exists s', exec alone (obqWriteTimeout qp bs timeout) s (length bs) s' /\ writer_at b cap (ld + length bs) (c ++ bs) s').
Proof. apply write_ok. Qed.
End writer.

(** ** Drivers *)

(** A thread that waits for the queue is told. *)
Lemma tell_ok qp s : sched_ok (proj s) -> queue_waits (proj s) (q_io qp) ->
  exists k, liftM (chThdDequeueNextI (q_io qp) MSG_OK) s = Some (tt, inj k s) /\
    notified (q_io qp) (proj s) k /\ sched_ok k.
Proof.
  intros Hok Hw. destruct (chThdDequeueNextI_ok (q_io qp) (proj s)) as (k & E & Hn & Hok' & _); [done..|].
  exists k. split; [|done]. unfold liftM. by rewrite E.
Qed.

Lemma proj_with_bq qp q s : proj (K := ch_system) (with_bq qp q s) = proj s.
Proof. apply (apart_r (B := buffers_queues)). Qed.
Lemma proj_with_array a l s : proj (K := ch_system) (with_array a l s) = proj s.
Proof. apply (apart_r (B := usb)). Qed.

(** The buffer a driver posts is behind what is in the input queue, and the first thread that waits is told. *)
Lemma ibqPostFullBufferI_ok qp n s q l bs : sched_ok (proj s) -> queue_waits (proj s) (q_io qp) ->
  bqueue s qp = Some q -> array s (bq_mem q) = Some l -> input q l bs -> ibqIsFullI q = false ->
  0 < n <= Z.of_nat (capacity q) ->
  exists l' k, let q1 := step_wr (set_bcounter (u32 (bq_bcounter q + 1)) q) in
    ibqPostFullBufferI qp n s = Some (tt, inj k (with_bq qp q1 (with_array (bq_mem q) l' s))) /\
    input q1 l' (bs ++ bytes l (bq_bwrptr q + sizeof_size_t) (Z.to_nat n)) /\
    notified (q_io qp) (proj s) k /\ sched_ok k.
Proof.
  intros Hok Hw Hq Ha Hi Hfull Hn. destruct (input_full _ _ _ Hi) as (N & i & f & Hf & _ & Ef).
  pose proof Hf as [Hs Hi' Hle Hr Hwr Hsz].
  pose proof (slot_room _ _ _ (ring_index N i f) Hs ltac:(apply ring_index_lt; lia)) as Hroom. rewrite <- Hwr in Hroom.
  destruct (memcpy_to_run l (bq_bwrptr q) (size_bytes n)) as (l' & E & _); [rewrite size_bytes_length; lia|].
  pose proof (input_post q l l' bs n Hi Hfull Hn E) as Hi1. exists l'.
  set (q1 := step_wr (set_bcounter (u32 (bq_bcounter q + 1)) q)) in *. set (s0 := with_array (bq_mem q) l' s).
  assert (Hq0 : bqueue s0 qp = Some q) by (unfold s0; by rewrite bqueue_array).
  destruct (tell_ok qp (with_bq qp q1 s0)) as (k & Ek & Hn' & Hok'); try (unfold s0; by rewrite proj_with_bq, proj_with_array).
  unfold s0 in Hn'. rewrite proj_with_bq, proj_with_array in Hn'. exists k. cbv zeta. split; [|done].
  unfold ibqPostFullBufferI. erewrite run_call by by apply bq_run. unfold size_write.
  erewrite run_call by by eapply mem_write_run. erewrite run_call by by apply on_bq_run. exact Ek.
Qed.

Lemma obqReleaseEmptyBufferI_run qp s q : bqueue s qp = Some q -> sched_ok (proj s) -> queue_waits (proj s) (q_io qp) ->
  exists k, obqReleaseEmptyBufferI qp s = Some (tt, inj k (with_bq qp (step_rd (set_bcounter (u32 (bq_bcounter q + 1)) q)) s)) /\
    notified (q_io qp) (proj s) k /\ sched_ok k.
Proof.
  intros Hq Hok Hw. set (q1 := step_rd (set_bcounter (u32 (bq_bcounter q + 1)) q)).
  destruct (tell_ok qp (with_bq qp q1 s)) as (k & Ek & Hn & Hok'); [by rewrite proj_with_bq..|]. rewrite proj_with_bq in Hn.
  exists k. split; [|done]. unfold obqReleaseEmptyBufferI. erewrite run_call by by apply on_bq_run. exact Ek.
Qed.

(** The buffer a driver is given to transmit is the oldest full one, at the size that was posted; releasing it
    removes it, and the first thread that waits is told. *)
Lemma obqGetFullBufferI_ok qp s q l full part : bqueue s qp = Some q -> array s (bq_mem q) = Some l -> output q l full part ->
  match full with
  | [] => obqGetFullBufferI qp s = Some (None, s)
  | b :: full' =>
      (exists p, obqGetFullBufferI qp s = Some (Some (at_ (o_mem (bq_mem q)) p, Z.of_nat (length b)), s) /\
        p = (bq_brdptr q + sizeof_size_t)%nat /\ bytes l p (length b) = b /\ (p + length b <= length l)%nat /\ (0 < length b <= capacity q)%nat) /\
      (sched_ok (proj s) -> queue_waits (proj s) (q_io qp) ->
        exists s1 k, obqReleaseEmptyBufferI qp s = Some (tt, inj k s1) /\ output_at qp s1 full' part /\
          (idle qp s -> idle qp s1) /\ notified (q_io qp) (proj s) k /\ sched_ok k)
  end.
Proof.
  intros Hq Ha Ho. destruct (output_get _ _ _ _ Ho) as [He Hfull]. destruct full as [|b full'].
  { unfold obqGetFullBufferI. erewrite run_call by by apply bq_run. by rewrite He. }
  destruct Hfull as (Hz & Hd & Hl & Hroom). split.
  - exists (bq_brdptr q + sizeof_size_t)%nat. split.
    { unfold obqGetFullBufferI. erewrite run_call by by apply bq_run. rewrite He.
      erewrite run_call by (eapply size_read_run; [done|lia]). by rewrite Hz. }
    split; [done|]. split; [|done]. unfold data_at in Hd. by rewrite Hz, Nat2Z.id in Hd.
  - intros Hok Hw. pose proof (output_release _ _ _ _ _ Ho) as Ho1.
    set (q1 := step_rd (set_bcounter (u32 (bq_bcounter q + 1)) q)) in *.
    destruct (obqReleaseEmptyBufferI_run qp s q Hq Hok Hw) as (k & Ek & Hn).
    exists (with_bq qp q1 s), k. split; [done|]. split; [|split; [|done]].
    + exists q1, l. rewrite bqueue_with, array_bq. done.
    + intros (q' & Hq' & Hp). simplify_eq. exists q1. by rewrite bqueue_with.
Qed.

End streams.
End BuffersThreads.
