(* ===== verification/SerialUsb.v ===== *)
(** * The serial driver over USB: [os/hal/src/hal_serial_usb.c], and the callbacks of [config/usbcfg.c]

    Bytes of a thread go through a queue of buffers to the bulk IN endpoint, bytes of the bulk OUT
    endpoint through another to a thread; a transfer is started when a buffer is ready and the
    endpoint is idle: by the notification of the queue, by the callback of the previous transfer
    or, for a buffer that is partly filled, by the start of a frame. *)

From S2P Require Import Prelude CLib Prog ThreadQueue Kernel ChVt ChSchd ChThreads ChEvents HalQueues HalSerial.
From S2P Require Import UsbRegs UsbLld HalUsb HalBuffers UsbCfg.

Inductive sdustate_t := SDU_UNINIT | SDU_STOP | SDU_READY.

(** [SerialUSBConfig]; the driver is [USBD1]. *)
Record SerialUSBConfig := SduConfig { bulk_in : nat; bulk_out : nat; int_in : nat }.

(** [struct SerialUSBDriver]: its event source, its queues and their buffers by name. *)
Record SerialUSBDriver := SduDriver {
  sdu_event : nat;
  sdu_state : sdustate_t;
  sdu_ibqueue : nat;
  sdu_obqueue : nat;
  sdu_ib : nat;
  sdu_ob : nat;
  sdu_config : option SerialUSBConfig
}.
Definition set_sdu_state (v : sdustate_t) (d : SerialUSBDriver) : SerialUSBDriver :=
  SduDriver (sdu_event d) v (sdu_ibqueue d) (sdu_obqueue d) (sdu_ib d) (sdu_ob d) (sdu_config d).
Definition set_sdu_config (v : option SerialUSBConfig) (d : SerialUSBDriver) : SerialUSBDriver :=
  SduDriver (sdu_event d) (sdu_state d) (sdu_ibqueue d) (sdu_obqueue d) (sdu_ib d) (sdu_ob d) v.

Abbreviation sdu_drivers := (gmap nat SerialUSBDriver).

Module SerialUsb.
Import ChSchd ChThreads ChEvents HalSerial UsbRegs UsbLld HalUsb HalBuffers UsbCfg.

Definition SERIAL_USB_BUFFERS_SIZE : nat := 256.
Definition SERIAL_USB_BUFFERS_NUMBER : nat := 2.
Definition CHN_CONNECTED : Z := 1.
Definition CHN_DISCONNECTED : Z := 2.
Definition CDC_SET_LINE_CODING : Z := 0x20.
Definition CDC_GET_LINE_CODING : Z := 0x21.
Definition CDC_SET_CONTROL_LINE_STATE : Z := 0x22.

(** [static cdc_linecoding_t linecoding], in memory. *)
Definition linecoding : nat := 1.
Definition linecoding_init : list Z := [0x00; 0x96; 0x00; 0x00; 0; 0; 8].

Section driver.
Context {S : Type} `{!Component S ch_system, !Component S buffers_queues, !Component S usb, !Component S sdu_drivers}.
Context `{!UsbDevice, !Beyond, !UsbClock}.

Definition sdu (sdup : nat) : M S SerialUSBDriver := deref (fun s => proj (K := sdu_drivers) s !! sdup).
Definition set_sdu (sdup : nat) (d : SerialUSBDriver) : M S unit := alter (insert (M := sdu_drivers) sdup d).
(** [sdup->config], dereferenced. *)
Definition sdu_cfg (sdup : nat) : M S SerialUSBConfig := d ← sdu sdup; deref (fun _ => sdu_config d).

Definition chnAddFlagsI (sdup : nat) (flags : Z) : M S unit :=
  d ← sdu sdup; liftM (chEvtBroadcastFlagsI (sdu_event d) flags).

(** [usbGetDriverStateI(...) != USB_ACTIVE || state != SDU_READY] *)
Definition not_ready (sdup : nat) : M S bool :=
  sdu_cfg sdup;;
  st ← liftM usbGetDriverStateI;
  d ← sdu sdup;
  mret (negb (bool_decide (st = USB_ACTIVE)) || match sdu_state d with SDU_READY => false | _ => true end).

Definition sdu_start_receive (sdup : nat) : M S bool :=
  bad ← not_ready sdup;
  if bad : bool then mret true
  else
    c ← sdu_cfg sdup;
    busy ← liftM (usbGetReceiveStatusI (bulk_in c));
    if busy : bool then mret true
    else
      d ← sdu sdup;
      buf ← ibqGetEmptyBufferI (sdu_ibqueue d);
      match buf with
      | null => mret true
      | _ => liftM (usbStartReceiveI (bulk_out c) buf (Z.of_nat SERIAL_USB_BUFFERS_SIZE));; mret false
      end.

Definition ibnotify (qp : nat) : M S unit :=
  q ← bq qp;
  sdu_start_receive (bq_link q);; mret tt.

(** A full buffer of the output queue is transmitted. *)
Definition transmit_full (qp ep : nat) : M S bool :=
  b ← obqGetFullBufferI qp;
  match b with
  | Some (buf, n) => liftM (usbStartTransmitI ep buf n);; mret true
  | None => mret false
  end.

Definition obnotify (qp : nat) : M S unit :=
  q ← bq qp;
  let sdup := bq_link q in
  bad ← not_ready sdup;
  if bad : bool then mret tt
  else
    c ← sdu_cfg sdup;
    busy ← liftM (usbGetTransmitStatusI (bulk_in c));
    if busy : bool then mret tt
    else d ← sdu sdup; transmit_full (sdu_obqueue d) (bulk_in c);; mret tt.

#[global] Instance sdu_notify : BQNotify S := { ibq_notify := ibnotify; obq_notify := obnotify }.

(** ** The driver *)

Definition sduObjectInit (sdup : nat) (d : SerialUSBDriver) : M S unit :=
  liftM (chEvtObjectInit (sdu_event d));;
  set_sdu sdup (set_sdu_state SDU_STOP d);;
  ibqObjectInit (sdu_ibqueue d) true (sdu_ib d) 0 SERIAL_USB_BUFFERS_SIZE SERIAL_USB_BUFFERS_NUMBER sdup;;
  obqObjectInit (sdu_obqueue d) true (sdu_ob d) 0 SERIAL_USB_BUFFERS_SIZE SERIAL_USB_BUFFERS_NUMBER sdup.

(** [usbp->in_params[i] = p], [usbp->out_params[i] = p] *)
Definition in_param (i : nat) (p : option nat) : M S unit :=
  liftM (if (i <? USB_MAX_ENDPOINTS)%nat then set_drv (set_in_params (fun l => <[i := p]> l)) else undefined).
Definition out_param (i : nat) (p : option nat) : M S unit :=
  liftM (if (i <? USB_MAX_ENDPOINTS)%nat then set_drv (set_out_params (fun l => <[i := p]> l)) else undefined).
Definition set_params (c : SerialUSBConfig) (p : option nat) : M S unit :=
  in_param (bulk_in c - 1) p;;
  out_param (bulk_out c - 1) p;;
  if (0 <? int_in c)%nat then in_param (int_in c - 1) p else mret tt.

Definition sduStart (sdup : nat) (config : SerialUSBConfig) : prog S unit :=
  locked (Atom (
    set_params config (Some sdup);;
    d ← sdu sdup;
    set_sdu sdup (set_sdu_state SDU_READY (set_sdu_config (Some config) d)))).

Definition sduStop (sdup : nat) : prog S unit :=
  Atom (sdu_cfg sdup);;
  locked (
    Atom (
      c ← sdu_cfg sdup;
      set_params c None;;
      d ← sdu sdup;
      set_sdu sdup (set_sdu_state SDU_STOP (set_sdu_config None d));;
      chnAddFlagsI sdup CHN_DISCONNECTED;;
      ibqResetI (sdu_ibqueue d);;
      obqResetI (sdu_obqueue d));;
    lift chSchRescheduleS).

Definition sduSuspendHookI (sdup : nat) : M S unit :=
  chnAddFlagsI sdup CHN_DISCONNECTED;;
  d ← sdu sdup;
  bqSuspendI (sdu_ibqueue d);;
  bqSuspendI (sdu_obqueue d).

Definition sduWakeupHookI (sdup : nat) : M S unit :=
  chnAddFlagsI sdup CHN_CONNECTED;;
  d ← sdu sdup;
  bqResumeX (sdu_ibqueue d);;
  bqResumeX (sdu_obqueue d).

Definition sduConfigureHookI (sdup : nat) : M S unit :=
  d ← sdu sdup;
  ibqResetI (sdu_ibqueue d);;
  bqResumeX (sdu_ibqueue d);;
  obqResetI (sdu_obqueue d);;
  bqResumeX (sdu_obqueue d);;
  chnAddFlagsI sdup CHN_CONNECTED;;
  sdu_start_receive sdup;; mret tt.

Definition sduRequestsHook : M S bool :=
  s0 ← liftM (setup_at 0);
  if Z.land s0 USB_RTYPE_TYPE_MASK =? USB_RTYPE_TYPE_CLASS then
    s1 ← liftM (setup_at 1);
    if (s1 =? CDC_GET_LINE_CODING) || (s1 =? CDC_SET_LINE_CODING) then
      liftM (usbSetupTransfer (at_ (o_mem linecoding) 0) (Z.of_nat (length linecoding_init)) None);; mret true
    else if s1 =? CDC_SET_CONTROL_LINE_STATE then
      liftM (usbSetupTransfer null 0 None);; mret true
    else mret false
  else mret false.

Definition sduSOFHookI (sdup : nat) : M S unit :=
  bad ← not_ready sdup;
  if bad : bool then mret tt
  else
    c ← sdu_cfg sdup;
    busy ← liftM (usbGetTransmitStatusI (bulk_in c));
    if busy : bool then mret tt
    else
      d ← sdu sdup;
      flushed ← obqTryFlushI (sdu_obqueue d);
      if flushed : bool then
        b ← obqGetFullBufferI (sdu_obqueue d);
        '(buf, n) ← deref (fun _ => b);
        liftM (usbStartTransmitI (bulk_in c) buf n)
      else mret tt.

(** The state of the endpoint [ep]'s IN direction. *)
Definition in_ep (ep : nat) : M S (USBEndpointConfig * ep_state) :=
  c ← liftM (epc_at ep); e ← liftM (eps_at (in_state c)); mret (c, e).

Definition sduDataTransmitted (ep : nat) : M S unit :=
  sdup ← liftM (deref (fun u => in_params (u_drv u) !! (ep - 1)%nat));
  match sdup with
  | None => mret tt
  | Some sdup =>
      chnAddFlagsI sdup CHN_OUTPUT_EMPTY;;
      '(c, e) ← in_ep ep;
      d ← sdu sdup;
      (if 0 <? st_size e then obqReleaseEmptyBufferI (sdu_obqueue d) else mret tt);;
      sent ← transmit_full (sdu_obqueue d) ep;
      if sent : bool then mret tt
      else if (0 <? st_size e) && (Z.land (st_size e) (u32 (in_maxsize c - 1)) =? 0) then
        liftM (usbStartTransmitI ep (at_ o_setup 0) 0)
      else mret tt
  end.

Definition sduDataReceived (ep : nat) : M S unit :=
  sdup ← liftM (deref (fun u => out_params (u_drv u) !! (ep - 1)%nat));
  match sdup with
  | None => mret tt
  | Some sdup =>
      c ← sdu_cfg sdup;
      size ← liftM (usbGetReceiveTransactionSizeX (bulk_out c));
      (if 0 <? size then
         chnAddFlagsI sdup CHN_INPUT_AVAILABLE;;
         d ← sdu sdup;
         ibqPostFullBufferI (sdu_ibqueue d) size
       else mret tt);;
      sdu_start_receive sdup;; mret tt
  end.

Definition sduInterruptTransmitted (ep : nat) : M S unit := mret tt.

(** ** The channel *)

Definition _writet (sdup : nat) (bs : list Z) (timeout : Z) : prog S nat :=
  d ← Atom (sdu sdup); obqWriteTimeout (sdu_obqueue d) bs timeout.
Definition _readt (sdup : nat) (n timeout : Z) : prog S (list Z) :=
  d ← Atom (sdu sdup); ibqReadTimeout (sdu_ibqueue d) n timeout.
Definition _putt (sdup : nat) (b timeout : Z) : prog S Z :=
  d ← Atom (sdu sdup); obqPutTimeout (sdu_obqueue d) b timeout.
Definition _gett (sdup : nat) (timeout : Z) : prog S Z :=
  d ← Atom (sdu sdup); ibqGetTimeout (sdu_ibqueue d) timeout.
Definition _write (sdup : nat) (bs : list Z) : prog S nat := _writet sdup bs TIME_INFINITE.
Definition _read (sdup : nat) (n : Z) : prog S (list Z) := _readt sdup n TIME_INFINITE.
Definition _put (sdup : nat) (b : Z) : prog S Z := _putt sdup b TIME_INFINITE.
Definition _get (sdup : nat) : prog S Z := _gett sdup TIME_INFINITE.
(** [SDU_LLD_IMPLEMENTS_CTL] is not defined. *)
Definition _ctl (sdup : nat) (operation : Z) : M S Z := mret MSG_OK.
Definition sduControl (sdup : nat) (operation : Z) : M S Z := _ctl sdup operation.

(** ** The configuration: [config/usbcfg.c] *)

Definition SDU1 : nat := 0.
Definition serusbcfg : SerialUSBConfig :=
  SduConfig (Z.to_nat USBD1_DATA_REQUEST_EP) (Z.to_nat USBD1_DATA_AVAILABLE_EP) (Z.to_nat USBD1_INTERRUPT_REQUEST_EP).

Definition usb_event (event : usbevent_t) : M S unit :=
  match event with
  | USB_EVENT_CONFIGURED =>
      liftM (usbInitEndpointI (Z.to_nat USBD1_DATA_REQUEST_EP) ep1config);;
      liftM (usbInitEndpointI (Z.to_nat USBD1_INTERRUPT_REQUEST_EP) ep2config);;
      sduConfigureHookI SDU1
  | USB_EVENT_RESET | USB_EVENT_ADDRESS | USB_EVENT_UNCONFIGURED | USB_EVENT_SUSPEND | USB_EVENT_WAKEUP
  | USB_EVENT_STALLED => mret tt
  end.

Definition sof_handler : M S unit := sduSOFHookI SDU1.

#[global] Instance usbcfg : USBConfig S := {
  event_cb := Some usb_event;
  get_descriptor_cb dtype dindex _ :=
    mret ((fun d => (at_ (o_const d) 0, Z.of_nat (length d))) <$> get_descriptor dtype dindex);
  requests_hook_cb := Some sduRequestsHook;
  sof_cb := Some sof_handler;
  ep_program n ep :=
    match n with
    | O => sduDataTransmitted ep
    | 1%nat => sduDataReceived ep
    | _ => sduInterruptTransmitted ep
    end;
  end_of_transfer _ := mret tt
}.
End driver.
End SerialUsb.
