(* ===== verification/SerialUsbSpec.v ===== *)
(** * The serial port over USB is a pair of byte streams

    The serial driver on the USB driver and a host: what a thread writes is what the host reads on
    the bulk IN endpoint, what the host sends to the bulk OUT endpoint is what a thread
    reads, with the transfers started and ended by the driver's callbacks. *)

From S2P Require Import Prelude CLib Prog ThreadQueue Kernel ChVt ChSchd ChThreads ChEvents HalQueues HalSerial.
From S2P Require Import UsbRegs UsbLld HalUsb UsbIsr UsbBus UsbTransfer UsbCfg HalBuffers BuffersSpec BuffersThreads SerialUsb.

Module SerialUsbSpec.
Import ChSchd ChThreads ChEvents HalQueues HalSerial UsbRegs UsbLld HalUsb UsbIsr UsbBus UsbTransfer UsbCfg HalBuffers BuffersSpec BuffersThreads SerialUsb.
#[local] Abbreviation take := firstn.
#[local] Abbreviation drop := skipn.

Section spec.
Context {S : Type} `{!Component S ch_system, !Component S buffers_queues, !Component S usb, !Component S sdu_drivers}.
Context `{!Apart S ch_system buffers_queues, !Apart S ch_system usb, !Apart S ch_system sdu_drivers}.
Context `{!Apart S buffers_queues usb, !Apart S buffers_queues sdu_drivers, !Apart S usb sdu_drivers}.
Context `{!UsbDevice, !Beyond, !UsbClock, !UsbEngine, !UsbDeviceSpec, !UsbEngineSpec}.
Implicit Types (s : S) (u : usb).

(** ** The endpoint *)

Definition bulk : nat := 1.
Definition maxsize : nat := 64.

Definition busy_in (u : usb) : bool := negb (Z.land (transmitting (u_drv u)) (u16 (bit bulk)) =? 0).
Definition busy_out (u : usb) : bool := negb (Z.land (receiving (u_drv u)) (u16 (bit bulk)) =? 0).

Definition in_ready (u : usb) : Prop := exists r a, can_send u bulk ep1config r ep1instate a.
Definition out_ready (u : usb) : Prop := exists r a, can_receive u bulk ep1config r ep1outstate a.

(** The buffer [b] is being transmitted. *)
Definition transmits (u : usb) (b : list Z) : Prop := exists r a e,
  sending u bulk ep1config r ep1instate a e (take maxsize b) (drop maxsize b) /\ st_size e = Z.of_nat (length b).
(** A buffer is received at [p]. *)
Definition receives (u : usb) (p : ptr) : Prop := exists r a e,
  awaiting u bulk ep1config r ep1outstate a e p 4 /\ st_cnt e = 0.

(** The device is configured, and its bulk endpoint belongs to the driver [sdup]. *)
Definition bound (sdup : nat) (dr : USBDriver) : Prop :=
  ud_state dr = USB_ACTIVE /\ in_params dr !! 0%nat = Some (Some sdup) /\ out_params dr !! 0%nat = Some (Some sdup).

(** The driver is started and the device configured. *)
Record up (sdup : nat) (d : SerialUSBDriver) (s : S) : Prop := {
  up_drv : proj (K := sdu_drivers) s !! sdup = Some d;
  up_state : sdu_state d = SDU_READY;
  up_cfg : sdu_config d = Some serusbcfg;
  up_active : bound sdup (u_drv (proj s))
}.

Lemma sdu_run sdup d s : up sdup d s -> sdu sdup s = Some (d, s).
Proof. intros [E _ _ _]. unfold sdu, deref. by rewrite E. Qed.
Lemma sdu_cfg_run sdup d s : up sdup d s -> sdu_cfg sdup s = Some (serusbcfg, s).
Proof. intros Hup. unfold sdu_cfg. erewrite run_call by (eapply sdu_run, Hup). unfold deref. by rewrite (up_cfg _ _ _ Hup). Qed.
Lemma not_ready_run sdup d s : up sdup d s -> not_ready sdup s = Some (false, s).
Proof.
  intros Hup. unfold not_ready. erewrite run_call by (eapply sdu_cfg_run, Hup).
  erewrite run_lift by reflexivity. rewrite inj_proj. erewrite run_call by (eapply sdu_run, Hup).
  by rewrite (proj1 (up_active _ _ _ Hup)), (up_state _ _ _ Hup).
Qed.
Lemma busy_in_run s : liftM (usbGetTransmitStatusI bulk) s = Some (busy_in (proj s), s).
Proof. unfold liftM, usbGetTransmitStatusI, drv. rewrite run_gets. unfold mret, M_ret. by rewrite inj_proj. Qed.
Lemma busy_out_run s : liftM (usbGetReceiveStatusI bulk) s = Some (busy_out (proj s), s).
Proof. unfold liftM, usbGetReceiveStatusI, drv. rewrite run_gets. unfold mret, M_ret. by rewrite inj_proj. Qed.

Lemma up_usb sdup d s u : up sdup d s -> bound sdup (u_drv u) -> up sdup d (inj u s).
Proof.
  intros [E1 E2 E3 E4] Hu. split; try done; [|by rewrite proj_inj]. by rewrite (apart_l u).
Qed.
Lemma up_kern sdup d s (k : ch_system) : up sdup d s -> up sdup d (inj k s).
Proof.
  intros [E1 E2 E3 E4]. split; try done; [by rewrite (apart_l k)|]. by rewrite (apart_l (B := usb) k).
Qed.
Lemma up_with_bq sdup d s qp q : up sdup d s -> up sdup d (with_bq qp q s).
Proof.
  intros [E1 E2 E3 E4]. unfold with_bq. split; try done; [by rewrite (apart_l (A := buffers_queues))|].
  by rewrite (apart_l (A := buffers_queues) (B := usb)).
Qed.
Lemma up_with_array sdup d s a l : up sdup d s -> up sdup d (with_array a l s).
Proof. intros Hup. unfold with_array. apply up_usb; [done|]. apply Hup. Qed.

Lemma bit_set t : negb (Z.land (Z.lor t (u16 (bit bulk))) (u16 (bit bulk)) =? 0) = true.
Proof.
  apply negb_true_iff, Z.eqb_neq. change (u16 (bit bulk)) with 2. intros E.
  apply (f_equal (fun z => Z.testbit z 1)) in E. rewrite Z.land_spec, Z.lor_spec in E. change (Z.testbit 2 1) with true in E.
  rewrite orb_true_r in E. done.
Qed.
Lemma bit_clear t : negb (Z.land (u16 (Z.land t (Z.lnot (bit bulk)))) (u16 (bit bulk)) =? 0) = false.
Proof.
  apply negb_false_iff, Z.eqb_eq. change (u16 (bit bulk)) with 2. change (bit bulk) with 2. apply Z.bits_inj. intros i.
  rewrite Z.land_spec, Z.bits_0. destruct (decide (i = 1)) as [->|Hi].
  - unfold u16. rewrite Z.mod_pow2_bits_low, Z.land_spec, Z.lnot_spec by lia. by rewrite andb_false_r.
  - apply andb_false_intro2. destruct (Z.testbit 2 i) eqn:E; [|done].
    destruct i as [|[]|]; try done; by destruct p.
Qed.

(** ** The notifications *)

(** The buffer [b] at [p] is being transmitted, as long as the memory is left alone. *)
Definition flight (u : usb) (b : list Z) (p : ptr) : Prop := exists m r a e,
  sending (set_u_mem m u) bulk ep1config r ep1instate a e (take maxsize b) (drop maxsize b) /\
  st_size e = Z.of_nat (length b) /\ st_buf e = p.

Lemma flight_mem u f b p : flight u b p -> flight (set_u_mem f u) b p.
Proof. intros (m & r & a & e & Hs & ?). exists (fun x => m (u_mem u)), r, a, e. done. Qed.

Lemma flight_transmits u b p : flight u b p -> bytes_at u p b -> transmits u b.
Proof.
  intros (m & r & a & e & [[] [] A3 A4 A5 A6 A7 A8 A9 A10 A11 A12 A13] & ? & <-) Hb. exists r, a, e. split; [|done].
  split; try done. by rewrite take_drop.
Qed.

(** ** What one direction leaves to the other *)

(** The buffers of the endpoint in the packet memory do not overlap. *)
Definition separate (u : usb) : Prop := forall a b, PMA (u_hw u) !! (4 * bulk)%nat = Some a ->
  PMA (u_hw u) !! (4 * bulk + 2)%nat = Some b -> a + 64 <= b \/ b + 64 <= a.

Record tx_kept u u' : Prop := {
  tk_bound sdup : bound sdup (u_drv u) -> bound sdup (u_drv u');
  tk_busy : busy_in u' = busy_in u;
  tk_flight b p : flight u b p -> flight u' b p;
  tk_ready : in_ready u -> in_ready u';
  tk_sep : separate u -> separate u'
}.
Record rx_kept u u' : Prop := {
  rk_bound sdup : bound sdup (u_drv u) -> bound sdup (u_drv u');
  rk_busy : busy_out u' = busy_out u;
  rk_receives p : receives u p -> receives u' p;
  rk_ready : out_ready u -> out_ready u';
  rk_sep : separate u -> separate u'
}.
#[global] Instance tx_kept_preorder : PreOrder tx_kept.
Proof. split; [by split|]. intros u1 u2 u3 [] []. split; auto; congruence. Qed.
#[global] Instance rx_kept_preorder : PreOrder rx_kept.
Proof. split; [by split|]. intros u1 u2 u3 [] []. split; auto; congruence. Qed.

(** The memory of the program, and the flags of the other direction. *)
Lemma tx_kept_mem u f : tx_kept u (set_u_mem f u).
Proof.
  split; try done; [apply flight_mem|]. intros (r & a & [[] [] ? ?]). by exists r, a.
Qed.
Lemma rx_kept_mem u f : rx_kept u (set_u_mem f u).
Proof.
  split; try done.
  - intros p (r & a & e & [[] [] ? ? ? ? ? ? ?] & ?). by exists r, a, e.
  - intros (r & a & [[] [] ? ? ?]). by exists r, a.
Qed.
Lemma tx_kept_flags u f : tx_kept u (set_u_drv (set_receiving f) u).
Proof.
  split; try done.
  - intros b p (m & r & a & e & Hs & Hx). exists m, r, a, e. split; [|done]. by eapply sending_drv, Hs.
  - intros (r & a & [[] [] ? ?]). by exists r, a.
Qed.
Lemma rx_kept_flags u f : rx_kept u (set_u_drv (set_transmitting f) u).
Proof.
  split; try done.
  - intros p (r & a & e & [[] [] ? ? ? ? ? ? ?] & ?). by exists r, a, e.
  - intros (r & a & [[] [] ? ? ?]). by exists r, a.
Qed.

(** The packets of the other direction. *)
Lemma tx_kept_rx u u' b r' : rx_frame bulk ep1outstate b 64 u u' -> rx_buffer u bulk ep1config ep1outstate b ->
  endpoint u' bulk ep1config r' -> Z.land r' EPR_CTR_MASK = 0 -> separate u -> tx_kept u u'.
Proof.
  intros Hf Hbuf He Hc Hsep. pose proof (rx_low _ _ _ _ _ Hbuf) as Hb. split.
  - intros sdup. by rewrite (rf_drv _ _ _ _ _ _ Hf).
  - unfold busy_in. by rewrite (rf_drv _ _ _ _ _ _ Hf).
  - intros x p (m & r & a & e & Hs & Hx). exists (fun _ => m (u_mem u)), r', a, e. split; [|done].
    eapply (sending_rx (set_u_mem m u)); [|exact Hb|done|apply Hbuf| | | |exact Hc|exact Hs].
    + destruct Hf. by split.
    + apply Hsep; [apply (tx_addr _ _ _ _ _ (s_tx _ _ _ _ _ _ _ _ _ Hs))|apply Hbuf].
    + done.
    + destruct He. by split.
  - intros (r & a & Hcan). exists r', a. by eapply can_send_rx.
  - intros _ a c. rewrite !(rf_pma _ _ _ _ _ _ Hf) by (cbn; dlia). apply Hsep.
Qed.
Lemma rx_kept_tx u u' a r' : tx_frame bulk ep1instate a 64 u u' -> 64 <= a ->
  endpoint u' bulk ep1config r' -> Z.land r' EPR_CTR_MASK = 0 -> rx_kept u u'.
Proof.
  intros Hf Ha He Hc. split.
  - intros sdup. by rewrite (tf_drv _ _ _ _ _ _ Hf).
  - unfold busy_out. by rewrite (tf_drv _ _ _ _ _ _ Hf).
  - intros p (r & b & e & Haw & Hx). exists r', b, e. split; [|done]. by eapply awaiting_tx.
  - intros (r & b & Hcan). exists r', b. by eapply can_receive_tx.
  - intros Hsep x c. rewrite !(tf_pma _ _ _ _ _ _ Hf) by (cbn; dlia). apply Hsep.
Qed.

(** In the whole state. *)
Record tx_same (d : SerialUSBDriver) s s' : Prop := {
  ts_drv : proj (K := sdu_drivers) s' = proj s;
  ts_queue : bqueue s' (sdu_obqueue d) = bqueue s (sdu_obqueue d);
  ts_array q : bqueue s (sdu_obqueue d) = Some q -> array s' (bq_mem q) = array s (bq_mem q);
  ts_usb : tx_kept (proj s) (proj s')
}.
Record rx_same (d : SerialUSBDriver) s s' : Prop := {
  rs_drv : proj (K := sdu_drivers) s' = proj s;
  rs_queue : bqueue s' (sdu_ibqueue d) = bqueue s (sdu_ibqueue d);
  rs_array q : bqueue s (sdu_ibqueue d) = Some q -> array s' (bq_mem q) = array s (bq_mem q);
  rs_usb : rx_kept (proj s) (proj s')
}.
#[global] Instance tx_same_preorder d : PreOrder (tx_same d).
Proof.
  split; [by split|]. intros s1 s2 s3 [A1 B1 C1 D1] [A2 B2 C2 D2]. split; [congruence..| |by etrans].
  intros q Hq. rewrite C2 by congruence. by apply C1.
Qed.
#[global] Instance rx_same_preorder d : PreOrder (rx_same d).
Proof.
  split; [by split|]. intros s1 s2 s3 [A1 B1 C1 D1] [A2 B2 C2 D2]. split; [congruence..| |by etrans].
  intros q Hq. rewrite C2 by congruence. by apply C1.
Qed.

(** The two directions have their own queues, arrays and packet buffers. *)
Record two_ways (d : SerialUSBDriver) s : Prop := {
  sp_queues : sdu_ibqueue d <> sdu_obqueue d;
  sp_arrays : sdu_ib d <> sdu_ob d;
  sp_in q : bqueue s (sdu_ibqueue d) = Some q -> bq_mem q = sdu_ib d;
  sp_out q : bqueue s (sdu_obqueue d) = Some q -> bq_mem q = sdu_ob d;
  sp_sep : separate (proj s)
}.

Record tx_inv (sdup : nat) (d : SerialUSBDriver) (full : list (list Z)) (s : S) : Prop := {
  ti_up : up sdup d s;
  ti_queue : exists q, bqueue s (sdu_obqueue d) = Some q /\ bq_link q = sdup /\
    (forall l, array s (bq_mem q) = Some l -> Forall byte l) /\
    (busy_in (proj s) = true -> exists b p, flight (proj s) b p /\
      (b = [] \/ (exists rest, full = b :: rest) /\ p = at_ (o_mem (bq_mem q)) (bq_brdptr q + sizeof_size_t)));
  ti_idle : busy_in (proj s) = false -> in_ready (proj s)
}.

Lemma in_ready_mem u f : in_ready u -> in_ready (set_u_mem f u).
Proof. intros (r & a & [[] [] ? ?]). by exists r, a. Qed.

Lemma proj_usb_kern (k : ch_system) s : proj (K := usb) (inj k s) = proj s.
Proof. apply (apart_l k). Qed.
Lemma proj_usb_bq qp q s : proj (K := usb) (with_bq qp q s) = proj s.
Proof. apply (apart_l (A := buffers_queues)). Qed.
Lemma array_other a a' l s : a <> a' -> array (with_array a l s) a' = array s a'.
Proof. intros Hne. unfold array, with_array. rewrite proj_inj. by apply lookup_insert_ne. Qed.

(** The steps of one direction. *)
Lemma tx_same_kern d (k : ch_system) s : tx_same d s (inj k s).
Proof. split; rewrite ?bqueue_kern, ?array_kern, ?proj_usb_kern; try done. apply (apart_l k). Qed.
Lemma rx_same_kern d (k : ch_system) s : rx_same d s (inj k s).
Proof. split; rewrite ?bqueue_kern, ?array_kern, ?proj_usb_kern; try done. apply (apart_l k). Qed.
Lemma bqueue_other qp qp' q s : qp <> qp' -> bqueue (with_bq qp q s) qp' = bqueue s qp'.
Proof. intros Hne. unfold bqueue, with_bq. rewrite proj_inj. by apply lookup_insert_ne. Qed.
Lemma tx_same_bq d q s : sdu_ibqueue d <> sdu_obqueue d -> tx_same d s (with_bq (sdu_ibqueue d) q s).
Proof.
  intros Hne. split; rewrite ?array_bq, ?proj_usb_bq; try done; [|by apply bqueue_other].
  apply (apart_l (A := buffers_queues) (B := sdu_drivers)).
Qed.
Lemma rx_same_bq d q s : sdu_ibqueue d <> sdu_obqueue d -> rx_same d s (with_bq (sdu_obqueue d) q s).
Proof.
  intros Hne. split; rewrite ?array_bq, ?proj_usb_bq; try done; [|by apply bqueue_other].
  apply (apart_l (A := buffers_queues) (B := sdu_drivers)).
Qed.
Lemma proj_sdu_usb u s : proj (K := sdu_drivers) (inj u s) = proj s.
Proof. apply (apart_l u). Qed.
Lemma tx_same_usb d u s : tx_kept (proj s) u ->
  (forall q, bqueue s (sdu_obqueue d) = Some q -> u_mem u !! bq_mem q = u_mem (proj s) !! bq_mem q) -> tx_same d s (inj u s).
Proof.
  intros Hk Hm. split; rewrite ?proj_inj, ?proj_sdu_usb; try done.
  - unfold bqueue. by rewrite (apart_r (A := buffers_queues) u).
  - intros q Hq. unfold array. rewrite proj_inj. by apply Hm.
Qed.
Lemma rx_same_usb d u s : rx_kept (proj s) u ->
  (forall q, bqueue s (sdu_ibqueue d) = Some q -> u_mem u !! bq_mem q = u_mem (proj s) !! bq_mem q) -> rx_same d s (inj u s).
Proof.
  intros Hk Hm. split; rewrite ?proj_inj, ?proj_sdu_usb; try done.
  - unfold bqueue. by rewrite (apart_r (A := buffers_queues) u).
  - intros q Hq. unfold array. rewrite proj_inj. by apply Hm.
Qed.
Lemma tx_same_array d l s : two_ways d s -> tx_same d s (with_array (sdu_ib d) l s).
Proof.
  intros [_ Hne _ Ho _]. apply tx_same_usb; [apply tx_kept_mem|]. intros q Hq. rewrite (Ho q Hq). by apply lookup_insert_ne.
Qed.
Lemma rx_same_array d l s : two_ways d s -> rx_same d s (with_array (sdu_ob d) l s).
Proof.
  intros [_ Hne Hi _ _]. apply rx_same_usb; [apply rx_kept_mem|]. intros q Hq. rewrite (Hi q Hq). by apply lookup_insert_ne.
Qed.

Lemma two_ways_kern d (k : ch_system) s : two_ways d s -> two_ways d (inj k s).
Proof. intros []. split; rewrite ?bqueue_kern, ?proj_usb_kern; done. Qed.
Lemma two_ways_usb d u s : two_ways d s -> separate u -> two_ways d (inj u s).
Proof.
  intros [] ?. assert (E : bqueue (inj u s) = bqueue s) by (unfold bqueue; by rewrite (apart_r (A := buffers_queues) u)).
  split; rewrite ?E, ?proj_inj; done.
Qed.
Lemma two_ways_array d a l s : two_ways d s -> two_ways d (with_array a l s).
Proof. intros Hw. apply two_ways_usb; [done|]. apply Hw. Qed.
Lemma two_ways_bq d qp q q' s : two_ways d s -> bqueue s qp = Some q -> bq_mem q' = bq_mem q -> two_ways d (with_bq qp q' s).
Proof.
  intros [W1 W2 W3 W4 W5] Hq Hm. split; rewrite ?proj_usb_bq; try done.
  - intros q0. destruct (decide (qp = sdu_ibqueue d)) as [->|?]; [|rewrite bqueue_other by done; apply W3].
    rewrite bqueue_with. intros [= <-]. rewrite Hm. by apply W3.
  - intros q0. destruct (decide (qp = sdu_obqueue d)) as [->|?]; [|rewrite bqueue_other by done; apply W4].
    rewrite bqueue_with. intros [= <-]. rewrite Hm. by apply W4.
Qed.

(** What the steps of the transmission have left since [s0]. *)
Definition rx_left (d : SerialUSBDriver) (s0 s : S) : Prop := two_ways d s0 -> two_ways d s /\ rx_same d s0 s.
Definition tx_left (d : SerialUSBDriver) (s0 s : S) : Prop := two_ways d s0 -> two_ways d s /\ tx_same d s0 s.
Lemma rx_left_refl d s : rx_left d s s.
Proof. by intros Hw. Qed.
Lemma tx_left_refl d s : tx_left d s s.
Proof. by intros Hw. Qed.
Lemma rx_left_kern d s0 s (k : ch_system) : rx_left d s0 s -> rx_left d s0 (inj k s).
Proof. intros Hl Hw. destruct (Hl Hw). split; [by apply two_ways_kern|]. etrans; [done|apply rx_same_kern]. Qed.
Lemma tx_left_kern d s0 s (k : ch_system) : tx_left d s0 s -> tx_left d s0 (inj k s).
Proof. intros Hl Hw. destruct (Hl Hw). split; [by apply two_ways_kern|]. etrans; [done|apply tx_same_kern]. Qed.
Lemma rx_left_bq d s0 s q q' : rx_left d s0 s -> bqueue s (sdu_obqueue d) = Some q -> bq_mem q' = bq_mem q ->
  rx_left d s0 (with_bq (sdu_obqueue d) q' s).
Proof.
  intros Hl Hq Hm Hw. destruct (Hl Hw) as [Hw' Hs]. split; [by eapply two_ways_bq|]. etrans; [done|apply rx_same_bq, Hw'].
Qed.
Lemma tx_left_bq d s0 s q q' : tx_left d s0 s -> bqueue s (sdu_ibqueue d) = Some q -> bq_mem q' = bq_mem q ->
  tx_left d s0 (with_bq (sdu_ibqueue d) q' s).
Proof.
  intros Hl Hq Hm Hw. destruct (Hl Hw) as [Hw' Hs]. split; [by eapply two_ways_bq|]. etrans; [done|apply tx_same_bq, Hw'].
Qed.
Lemma rx_left_array d s0 s q l : rx_left d s0 s -> bqueue s (sdu_obqueue d) = Some q -> rx_left d s0 (with_array (bq_mem q) l s).
Proof.
  intros Hl Hq Hw. destruct (Hl Hw) as [Hw' Hs]. split; [by apply two_ways_array|]. rewrite (sp_out _ _ Hw' q Hq).
  etrans; [done|by apply rx_same_array].
Qed.
Lemma tx_left_array d s0 s q l : tx_left d s0 s -> bqueue s (sdu_ibqueue d) = Some q -> tx_left d s0 (with_array (bq_mem q) l s).
Proof.
  intros Hl Hq Hw. destruct (Hl Hw) as [Hw' Hs]. split; [by apply two_ways_array|]. rewrite (sp_in _ _ Hw' q Hq).
  etrans; [done|by apply tx_same_array].
Qed.
Lemma rx_left_usb d s0 s u : rx_left d s0 s -> rx_kept (proj s) u -> u_mem u = u_mem (proj s) -> rx_left d s0 (inj u s).
Proof.
  intros Hl Hk Hm Hw. destruct (Hl Hw) as [Hw' Hs]. split; [apply two_ways_usb; [done|apply Hk, Hw']|].
  etrans; [done|]. apply rx_same_usb; [done|]. intros. by rewrite Hm.
Qed.
Lemma tx_left_usb d s0 s u : tx_left d s0 s -> (separate (proj s) -> tx_kept (proj s) u) -> u_mem u = u_mem (proj s) ->
  tx_left d s0 (inj u s).
Proof.
  intros Hl Hk Hm Hw. destruct (Hl Hw) as [Hw' Hs]. specialize (Hk (sp_sep _ _ Hw')).
  split; [apply two_ways_usb; [done|apply Hk, Hw']|]. etrans; [done|]. apply tx_same_usb; [done|]. intros. by rewrite Hm.
Qed.

Lemma up_same sdup d s s' : proj (K := sdu_drivers) s' = proj s ->
  (bound sdup (u_drv (proj s)) -> bound sdup (u_drv (proj s'))) -> up sdup d s -> up sdup d s'.
Proof. intros E Hb []. split; try done; [by rewrite E|auto]. Qed.

(** The transmission does not notice the steps of the reception. *)
Lemma tx_inv_same sdup d full s s' : tx_same d s s' -> tx_inv sdup d full s -> tx_inv sdup d full s'.
Proof.
  intros [E1 E2 E3 [K1 K2 K3 K4 _]] [Hup (q & Hq & Hl & Hby & Hbusy) Hid]. split.
  - eapply up_same; [done|apply K1|done].
  - exists q. rewrite E2, (E3 q Hq), K2. do 3 (split; [done|]). intros Hb. destruct (Hbusy Hb) as (b & p & Hfl & Hx).
    exists b, p. auto.
  - rewrite K2. auto.
Qed.
Lemma output_at_same d s s' full part : tx_same d s s' -> output_at (sdu_obqueue d) s full part ->
  output_at (sdu_obqueue d) s' full part.
Proof. intros [E1 E2 E3 _] (q & l & Hq & Ha & Ho). exists q, l. by rewrite E2, (E3 q Hq). Qed.
Lemma idle_out_same d s s' : tx_same d s s' -> idle (sdu_obqueue d) s -> idle (sdu_obqueue d) s'.
Proof. intros [_ E2 _ _] (q & Hq & Hp). exists q. by rewrite E2. Qed.

(** The operations of a writer keep the invariant. *)
Lemma tx_client sdup d : out_client (sdu_obqueue d) (tx_inv sdup d).
Proof.
  split.
  - intros full k s [Hup (q & Hq & Hl & Hby & Hbusy) Hid].
    split; [by apply up_kern| |by rewrite proj_usb_kern]. exists q. by rewrite bqueue_kern, array_kern, proj_usb_kern.
  - intros full q q' s [Hup (q0 & Hq0 & Hl & Hby & Hbusy) Hid] Hq E1 E2 E3. simplify_eq.
    split; [by apply up_with_bq| |by rewrite proj_usb_bq]. exists q'. rewrite bqueue_with, array_bq, proj_usb_bq, E1, E2, E3. done.
  - intros full q l l' s [Hup (q0 & Hq0 & Hl & Hby & Hbusy) Hid] Hq Ha Hlen Hf. simplify_eq.
    split; [by apply up_with_array| |unfold with_array; rewrite proj_inj; intros Hb; by apply in_ready_mem, Hid].
    exists q0. rewrite bqueue_array. do 2 (split; [done|]). split.
    + intros l1. rewrite array_with. intros [= <-]. by eapply Hf, Hby.
    + unfold with_array. rewrite proj_inj. intros Hb. destruct (Hbusy Hb) as (b & p & Hfl & Hx). exists b, p.
      split; [by apply flight_mem|done].
  - intros full b s [Hup (q & Hq & Hl & Hby & Hbusy) Hid]. split; [done| |done]. exists q. do 3 (split; [done|]).
    intros Hb. destruct (Hbusy Hb) as (b' & p & Hfl & Hx). exists b', p. split; [done|].
    destruct Hx as [?|[(rest & ->) ?]]; [by left|right]. split; [by exists (rest ++ [b])|done].
Qed.

(** A transmission that was started leaves the reception alone. *)
Lemma started_kept u u' r a r1 e1 cur rest : can_send u bulk ep1config r ep1instate a ->
  sending u' bulk ep1config r1 ep1instate a e1 cur rest ->
  tx_frame bulk ep1instate a (in_maxsize ep1config) (mark_transmitting bulk u) u' -> rx_kept u u'.
Proof.
  intros [_ Ht _ _] [] Hf. transitivity (mark_transmitting bulk u); [apply rx_kept_flags|].
  eapply rx_kept_tx; [exact Hf|by destruct Ht|done|done].
Qed.

(** A full buffer of the output queue is transmitted, if there is one. *)
Lemma transmit_full_ok d s q l full part : bqueue s (sdu_obqueue d) = Some q -> array s (bq_mem q) = Some l ->
  output q l full part -> Forall byte l -> in_ready (proj s) ->
  match full with
  | [] => transmit_full (sdu_obqueue d) bulk s = Some (false, s)
  | b :: _ => exists u, transmit_full (sdu_obqueue d) bulk s = Some (true, inj u s) /\
      flight u b (at_ (o_mem (bq_mem q)) (bq_brdptr q + sizeof_size_t)) /\ busy_in u = true /\ rx_kept (proj s) u /\
      exists a, tx_frame bulk ep1instate a (in_maxsize ep1config) (mark_transmitting bulk (proj s)) u
  end.
Proof.
  intros Hq Ha Ho Hby (r & a & Hcan). pose proof (obqGetFullBufferI_ok (sdu_obqueue d) s q l full part Hq Ha Ho) as Hget.
  unfold transmit_full. destruct full as [|b full].
  { by erewrite run_call by apply Hget. }
  destruct Hget as [(p & Eg & Hp & Hb & Hl & Hpos) _]. erewrite run_call by apply Eg.
  destruct (start_transmit_at (proj s) bulk ep1config r ep1instate a (at_ (o_mem (bq_mem q)) p) b Hcan)
    as (u & r1 & e1 & E & Hs & Hz & Hbuf & Hf).
  - right. exists (o_mem (bq_mem q)), p, l, (drop (p + length b) l). split; [done|]. split; [exact Ha|].
    by rewrite (bytes_split l p (length b)), Hb.
  - rewrite <- Hb. by apply Forall_take, Forall_drop.
  - destruct (output_full _ _ _ _ Ho) as (N & i & f & [Hsh _ _ _ _ _] & _).
    pose proof (sh_small _ _ _ Hsh). unfold capacity in *. lia.
  - exists u. split; [by erewrite run_lift by apply E|]. rewrite <- Hp. split; [|split; [|split; [|by exists a]]].
    + exists (fun m => m), r1, a, e1. replace (set_u_mem (fun m => m) u) with u by by destruct u. done.
    + unfold busy_in. rewrite (tf_drv _ _ _ _ _ _ Hf). apply bit_set.
    + by eapply started_kept.
Qed.

(** Only the endpoint changes. *)
Lemma tx_frame_up sdup d s u a : up sdup d s ->
  tx_frame bulk ep1instate a (in_maxsize ep1config) (mark_transmitting bulk (proj s)) u -> up sdup d (inj u s).
Proof. intros Hup Hf. apply up_usb; [done|]. rewrite (tf_drv _ _ _ _ _ _ Hf). apply Hup. Qed.
Lemma inj_usb_quiet qp s u : u_mem u = u_mem (proj s) -> quiet qp s (inj u s).
Proof.
  intros Hm. split.
  - unfold bqueue. by rewrite (apart_r (A := buffers_queues) u).
  - intros a. unfold array. by rewrite proj_inj, Hm.
Qed.

(** The notification starts a transmission when the endpoint is idle, and keeps the invariant. *)
Lemma obnotify_ok sdup d s full : tx_inv sdup d full s -> output_at (sdu_obqueue d) s full [] -> idle (sdu_obqueue d) s ->
  exists s', obnotify (sdu_obqueue d) s = Some (tt, s') /\ tx_inv sdup d full s' /\ quiet (sdu_obqueue d) s s' /\
    rx_left d s s'.
Proof.
  intros [Hup (q & Hq & Hl & Hby & Hbusy) Hid] (q' & l & Hq' & Ha & Ho) _. rewrite Hq in Hq'. injection Hq' as <-.
  assert (E : obnotify (sdu_obqueue d) s = (if busy_in (proj s) then Some (tt, s)
    else (transmit_full (sdu_obqueue d) bulk;; mret tt) s)).
  { unfold obnotify. erewrite run_call by by apply bq_run. rewrite Hl. erewrite run_call by by eapply not_ready_run. cbv iota.
    erewrite run_call by by eapply sdu_cfg_run. change (bulk_in serusbcfg) with bulk. erewrite run_call by apply busy_in_run.
    destruct (busy_in (proj s)); [done|]. by erewrite run_call by by eapply sdu_run. }
  rewrite E. destruct (busy_in (proj s)) eqn:Eb.
  { exists s. split; [done|]. split; [|split; [done|apply rx_left_refl]]. split; [done| |by rewrite Eb]. exists q. rewrite Eb. done. }
  pose proof (transmit_full_ok d s q l full [] Hq Ha Ho (Hby _ Ha) (Hid eq_refl)) as Ht. destruct full as [|b full].
  { exists s. split; [by erewrite run_call by apply Ht|]. split; [|split; [done|apply rx_left_refl]].
    split; [done| |by rewrite Eb]. exists q. rewrite Eb. done. }
  destruct Ht as (u & Et & Hfl & Hbu & Hk & a & Hf). exists (inj u s). split; [by erewrite run_call by apply Et|].
  pose proof (inj_usb_quiet (sdu_obqueue d) s u (tf_mem _ _ _ _ _ _ Hf)) as [Hqq Haa].
  split; [|split; [by split|apply rx_left_usb; [apply rx_left_refl|done|apply Hf]]].
  split; [by eapply tx_frame_up| |by rewrite proj_inj, Hbu]. exists q. rewrite Hqq. split; [done|]. split; [done|].
  split; [intros l1; rewrite Haa; apply Hby|]. rewrite proj_inj. intros _. exists b, (at_ (o_mem (bq_mem q)) (bq_brdptr q + sizeof_size_t)).
  split; [done|]. right. split; [by exists full|done].
Qed.

(** ** The end of a transfer *)

(** What the callbacks need of the kernel; nobody listens to the events of the driver. *)
Record calm (d : SerialUSBDriver) (k : ch_system) : Prop := {
  ca_sched : sched_ok k;
  ca_in : queue_waits k (q_io (sdu_ibqueue d));
  ca_out : queue_waits k (q_io (sdu_obqueue d));
  ca_event : k_srcs k !! sdu_event d = Some []
}.

Lemma chnAddFlagsI_run sdup d s flags : up sdup d s -> k_srcs (proj (K := ch_system) s) !! sdu_event d = Some [] ->
  chnAddFlagsI sdup flags s = Some (tt, s).
Proof.
  intros Hup He. unfold chnAddFlagsI. erewrite run_call by by eapply sdu_run. unfold liftM, chEvtBroadcastFlagsI, source.
  erewrite run_deref by apply He. cbn. unfold mret, M_ret. by rewrite inj_proj.
Qed.

(** The next buffer is transmitted, or an empty packet if [zlp], or nothing. *)
Lemma next_transfer_ok sdup d s q l full part (zlp : bool) : up sdup d s -> bqueue s (sdu_obqueue d) = Some q -> bq_link q = sdup ->
  array s (bq_mem q) = Some l -> output q l full part -> Forall byte l -> in_ready (proj s) -> busy_in (proj s) = false ->
  exists u, (sent ← transmit_full (sdu_obqueue d) bulk;
    if sent : bool then mret tt
    else if zlp then liftM (usbStartTransmitI bulk (at_ o_setup 0) 0) else mret tt) s = Some (tt, inj u s) /\
    tx_inv sdup d full (inj u s) /\ quiet (sdu_obqueue d) s (inj u s) /\ u_mem u = u_mem (proj s) /\
    busy_in u = match full with [] => zlp | _ => true end /\ rx_kept (proj s) u.
Proof.
  intros Hup Hq Hl Ha Ho Hby Hid Hb. pose proof (transmit_full_ok d s q l full part Hq Ha Ho Hby Hid) as Ht.
  assert (Hfin : forall u b p a, tx_frame bulk ep1instate a (in_maxsize ep1config) (mark_transmitting bulk (proj s)) u ->
    flight u b p -> (b = [] \/ (exists rest, full = b :: rest) /\ p = at_ (o_mem (bq_mem q)) (bq_brdptr q + sizeof_size_t)) ->
    busy_in u = true -> tx_inv sdup d full (inj u s) /\ quiet (sdu_obqueue d) s (inj u s) /\ u_mem u = u_mem (proj s)).
  { intros u b p a Hf Hfl Hbp Hbu. pose proof (inj_usb_quiet (sdu_obqueue d) s u (tf_mem _ _ _ _ _ _ Hf)) as [Hqq Haa].
    split; [|split; [by split|apply Hf]]. split; [by eapply tx_frame_up| |by rewrite proj_inj, Hbu]. exists q.
    rewrite Hqq. do 2 (split; [done|]). split; [intros l1; rewrite Haa, Ha; by intros [= <-]|]. rewrite proj_inj. intros _.
    by exists b, p. }
  destruct full as [|b full].
  - erewrite run_call by apply Ht. destruct zlp.
    + destruct Hid as (r & a & Hcan).
      destruct (start_transmit_at (proj s) bulk ep1config r ep1instate a (at_ o_setup 0) [] Hcan) as (u & r1 & e1 & E & Hs & Hz & Hbuf & Hf);
        [by left|done|cbn; lia|].
      assert (Hbu : busy_in u = true) by (unfold busy_in; rewrite (tf_drv _ _ _ _ _ _ Hf); apply bit_set).
      exists u. split; [change (Z.of_nat (length [])) with 0 in E; unfold liftM; by rewrite E|].
      destruct (Hfin u [] (at_ o_setup 0) a Hf) as (? & ? & ?); [|by left|done|do 4 (split; [done|]); by eapply started_kept].
      exists (fun m => m), r1, a, e1. replace (set_u_mem (fun m => m) u) with u by by destruct u. done.
    + exists (proj s). rewrite inj_proj. split; [done|]. split; [|done]. split; [done| |done]. exists q. rewrite Hb.
      do 2 (split; [done|]). split; [|done]. rewrite Ha. by intros ? [= <-].
  - destruct Ht as (u & E & Hfl & Hbu & Hk & a & Hf). exists u. split; [by erewrite run_call by apply E|].
    destruct (Hfin u b (at_ (o_mem (bq_mem q)) (bq_brdptr q + sizeof_size_t)) a Hf Hfl) as (? & ? & ?); [|done|done].
    right. split; [by exists full|done].
Qed.

(** A transfer of whole packets is ended by an empty one, unless more follows. *)
Definition ends_whole (b : list Z) : bool := (0 <? Z.of_nat (length b)) && (Z.of_nat (length b) mod 64 =? 0).
(** The buffers left when [b] was transmitted; an empty packet is not in the queue. *)
Definition left_over (b : list Z) (full : list (list Z)) : list (list Z) := match b with [] => full | _ => tail full end.

Lemma land63 z : Z.land z (u32 (0x40 - 1)) = z mod 64.
Proof. change (u32 (0x40 - 1)) with (Z.ones 6). by rewrite Z.land_ones by lia. Qed.

Lemma in_ep_run s c e : epc (u_drv (proj s)) !! bulk = Some (Some c) -> in_state c = Some ep1instate ->
  u_eps (proj s) !! ep1instate = Some e -> in_ep bulk s = Some ((c, e), s).
Proof.
  intros Hc Hi He. unfold in_ep. erewrite (run_lift _ _ _ c) by (unfold epc_at, deref; by rewrite Hc).
  rewrite inj_proj, Hi. erewrite run_lift by by apply eps_at_run. by rewrite inj_proj.
Qed.

(** [sduDataTransmitted] after the transmission of [b]. *)
Lemma sduDataTransmitted_ok sdup d s q l full part b e : up sdup d s -> calm d (proj s) ->
  bqueue s (sdu_obqueue d) = Some q -> bq_link q = sdup -> array s (bq_mem q) = Some l -> output q l full part -> Forall byte l ->
  in_ready (proj s) -> busy_in (proj s) = false -> epc (u_drv (proj s)) !! bulk = Some (Some ep1config) ->
  u_eps (proj s) !! ep1instate = Some e -> st_size e = Z.of_nat (length b) -> (b = [] \/ exists rest, full = b :: rest) ->
  exists s', sduDataTransmitted bulk s = Some (tt, s') /\ tx_inv sdup d (left_over b full) s' /\
    output_at (sdu_obqueue d) s' (left_over b full) part /\ (idle (sdu_obqueue d) s -> idle (sdu_obqueue d) s') /\
    busy_in (proj s') = match left_over b full with [] => ends_whole b | _ => true end /\
    sched_ok (proj s') /\ (b <> [] -> notified (q_io (sdu_obqueue d)) (proj s) (proj s')) /\ rx_left d s s'.
Proof.
  intros Hup Hcalm Hq Hl Ha Ho Hby Hid Hb Hepc Heps Hsz Hbf.
  assert (E : sduDataTransmitted bulk s = ((if 0 <? Z.of_nat (length b) then obqReleaseEmptyBufferI (sdu_obqueue d) else mret tt);;
    sent ← transmit_full (sdu_obqueue d) bulk;
    if sent : bool then mret tt
    else if ends_whole b then liftM (usbStartTransmitI bulk (at_ o_setup 0) 0) else mret tt) s).
  { unfold sduDataTransmitted. destruct (up_active _ _ _ Hup) as (_ & Hin & _).
    erewrite (run_lift _ _ _ (Some sdup)) by (unfold deref; cbn [bulk Nat.sub]; by rewrite Hin). rewrite inj_proj. cbv iota.
    erewrite run_call by (eapply chnAddFlagsI_run; [done|apply Hcalm]).
    erewrite run_call by by eapply in_ep_run. cbv iota. erewrite run_call by by eapply sdu_run.
    rewrite Hsz. change (in_maxsize ep1config) with 0x40. by rewrite land63. }
  rewrite E. destruct b as [|x b].
  - change (0 <? Z.of_nat (length [])) with false. cbv iota. rewrite run_ret. cbn [left_over].
    destruct (next_transfer_ok sdup d s q l full part (ends_whole []) Hup Hq Hl Ha Ho Hby Hid Hb) as (u & E1 & Hinv & [Hqq Haa] & Hm & Hbu & Hk).
    exists (inj u s). split; [exact E1|]. split; [done|]. split; [exists q, l; by rewrite Hqq, Haa|].
    split; [intros (q' & Hq' & Hp); exists q'; by rewrite Hqq|]. rewrite proj_inj. split; [done|].
    rewrite (apart_r (A := ch_system) u). split; [apply Hcalm|]. split; [done|].
    by apply rx_left_usb; [apply rx_left_refl|..].
  - rewrite (proj2 (Z.ltb_lt 0 _)) by (cbn [length]; lia). destruct Hbf as [|[rest ->]]; [done|]. cbn [left_over tail].
    destruct (obqReleaseEmptyBufferI_run (sdu_obqueue d) s q Hq) as (k & E1 & Hn & Hok); [apply Hcalm..|].
    erewrite run_call by apply E1. set (q1 := step_rd (set_bcounter (u32 (bq_bcounter q + 1)) q)) in *.
    set (s1 := inj k (with_bq (sdu_obqueue d) q1 s)).
    assert (Hu1 : proj (K := usb) s1 = proj s) by (unfold s1; by rewrite proj_usb_kern, proj_usb_bq).
    assert (Hq1 : bqueue s1 (sdu_obqueue d) = Some q1) by (unfold s1; by rewrite bqueue_kern, bqueue_with).
    assert (Ha1 : array s1 (bq_mem q1) = Some l) by (unfold s1; by rewrite array_kern, array_bq).
    pose proof (output_release _ _ _ _ _ Ho) as Ho1. fold q1 in Ho1.
    destruct (next_transfer_ok sdup d s1 q1 l rest part (ends_whole (x :: b))) as (u & E2 & Hinv & [Hqq Haa] & Hm & Hbu & Hk); rewrite ?Hu1; try done.
    { by apply up_kern, up_with_bq. }
    exists (inj u s1). split; [exact E2|]. split; [done|]. split; [exists q1, l; by rewrite Hqq, Haa|].
    split; [intros (q' & Hq' & Hp); simplify_eq; exists q1; by rewrite Hqq|]. rewrite proj_inj. split; [done|].
    rewrite (apart_r (A := ch_system) u). assert (Hleft : rx_left d s (inj u s1)).
    { apply rx_left_usb; [|done|done]. apply rx_left_kern. eapply rx_left_bq; [apply rx_left_refl|done|done]. }
    unfold s1 in *. rewrite proj_inj. auto.
Qed.

(** What the callback of the interrupt finds. *)
Lemma cleared_in d sdup u s : bound sdup (u_drv u) -> up sdup d s ->
  let u' := set_u_drv (set_transmitting (fun t => u16 (Z.land t (Z.lnot (bit bulk))))) u in
  up sdup d (inj u' s) /\ busy_in u' = false /\ (in_ready u -> in_ready u').
Proof.
  intros Hb Hup u'. split; [by apply up_usb|]. split; [apply bit_clear|].
  intros (r & a & [[] [] ? ?]). by exists r, a.
Qed.

(** The host reads the packets [ps] of a transfer of [b], each followed by the interrupt of the device. *)
Definition host_reads (b : list Z) (ps : list (list Z)) (s s' : S) : Prop := exists qs last s1 s2,
  run_in ((length b - 1) / maxsize) bulk s = Some (qs, s1) /\ liftM (on_hw (host_in bulk)) s1 = Some (last, s2) /\
  usb_serve_endpoints bulk s2 = Some (tt, s') /\ ps = qs ++ [last].

(** A transfer to the host, for the theorem below and its clients. *)
Lemma transmit_step sdup d full part s : tx_inv sdup d full s -> output_at (sdu_obqueue d) s full part ->
  busy_in (proj s) = true -> calm d (proj s) ->
  exists b p s', flight (proj s) b p /\ (b = [] \/ exists rest, full = b :: rest) /\ host_reads b (packets maxsize b) s s' /\
    concat (packets maxsize b) = b /\
    tx_inv sdup d (left_over b full) s' /\ output_at (sdu_obqueue d) s' (left_over b full) part /\
    (idle (sdu_obqueue d) s -> idle (sdu_obqueue d) s') /\
    busy_in (proj s') = match left_over b full with [] => ends_whole b | _ => true end /\
    sched_ok (proj s') /\ (b <> [] -> notified (q_io (sdu_obqueue d)) (proj s) (proj s')) /\ rx_left d s s'.
Proof.
  intros [Hup (q & Hq & Hl & Hby & Hbusy) _] (q' & l & Hq' & Ha & Ho) Hb Hcalm. rewrite Hq in Hq'. injection Hq' as <-.
  destruct (Hbusy Hb) as (b & p & Hfl & Hbp). exists b, p.
  assert (Hat : bytes_at (proj s) p b).
  { destruct Hbp as [->|[(rest & ->) ->]]; [by left|]. right. destruct (output_get _ _ _ _ Ho) as [_ (Hz & Hd & _ & Hr)].
    exists (o_mem (bq_mem q)), (bq_brdptr q + sizeof_size_t)%nat, l, (drop (bq_brdptr q + sizeof_size_t + length b) l).
    split; [done|]. split; [exact Ha|]. rewrite (bytes_split l _ (length b)). f_equal.
    unfold data_at in Hd. by rewrite Hz, Nat2Z.id in Hd. }
  destruct (flight_transmits _ _ _ Hfl Hat) as (r & a & e & Hs & Hz).
  destruct (sending_run s bulk ep1config r ep1instate a e b Hs) as (ps & last & s1 & s2 & u2 & r2 & e2 & E1 & E2 & Hps & E3 & Hsent & Hz2 & Hf).
  destruct (cleared_in d sdup u2 s) as (Hup2 & Hb2 & Hr2); [rewrite (tf_drv _ _ _ _ _ _ Hf); apply Hup|done|].
  set (u3 := set_u_drv _ u2) in *.
  destruct (inj_usb_quiet (sdu_obqueue d) s u3) as [Hqq Haa]; [apply (tf_mem _ _ _ _ _ _ Hf)|].
  destruct (sduDataTransmitted_ok sdup d (inj u3 s) q l full part b e2) as (s' & E4 & Hinv & Hout & Hidle & Hbu & Hok & Hn & Hleft); try done.
  - by rewrite (apart_r (A := ch_system) u3).
  - by rewrite Hqq.
  - by rewrite Haa.
  - by apply Hby.
  - rewrite proj_inj. apply Hr2. exists r2, a. destruct Hsent. by split.
  - by rewrite proj_inj.
  - rewrite proj_inj. apply (n_ep _ _ _ _ _ _ _ Hsent).
  - rewrite proj_inj. apply (n_e _ _ _ _ _ _ _ Hsent).
  - congruence.
  - destruct Hbp as [?|[? _]]; [by left|by right].
  - exists s'. split; [done|]. split; [destruct Hbp as [?|[? _]]; [by left|by right]|]. split.
    { exists ps, last, s1, s2. do 2 (split; [done|]). split; [|done]. rewrite E3. unfold _usb_isr_invoke_in_cb. erewrite run_lift by reflexivity. rewrite proj_inj, inj_inj. fold u3.
      erewrite (run_lift _ _ _ ep1config) by (unfold epc_at, deref; rewrite proj_inj; change (epc (u_drv u3)) with (epc (u_drv u2)); by rewrite (e_epc _ _ _ _ (n_ep _ _ _ _ _ _ _ Hsent))).
      rewrite inj_inj. exact E4. }
    rewrite (apart_r (A := ch_system) u3) in Hn. split; [apply cut_concat|]. do 2 (split; [done|]). split.
    { intros (q' & Hq' & Hp). apply Hidle. exists q'. by rewrite Hqq. }
    do 3 (split; [done|]). intros Hw.
    assert (Hl3 : rx_left d s (inj u3 s)).
    { apply rx_left_usb; [apply rx_left_refl| |apply (tf_mem _ _ _ _ _ _ Hf)].
      transitivity u2; [|apply rx_kept_flags]. destruct Hsent, Hs. eapply rx_kept_tx; [exact Hf|by eapply tx_low|done|done]. }
    destruct (Hl3 Hw) as [Hw3 Hs3]. destruct (Hleft Hw3) as [Hw4 Hs4]. split; [done|]. by etrans.
Qed.

(** They do not touch the transmission either. *)
Lemma tx_client_busy sdup d v : out_client (sdu_obqueue d) (fun full s => tx_inv sdup d full s /\ busy_in (proj s) = v).
Proof.
  destruct (tx_client sdup d) as [C1 C2 C3 C4]. split.
  - intros full k s [Hi Hv]. split; [by apply C1|by rewrite proj_usb_kern].
  - intros full q q' s [Hi Hv] Hq ? ? ?. split; [by eapply C2|by rewrite proj_usb_bq].
  - intros full q l l' s [Hi Hv] ? ? ? ?. split; [by eapply C3|]. unfold with_array. by rewrite proj_inj.
  - intros full b s [Hi Hv]. split; [by apply C4|done].
Qed.

(** Nor the reception. *)
Lemma out_client_and (qp : nat) (I : list (list Z) -> S -> Prop) (P : S -> Prop) : out_client qp I ->
  (forall (k : ch_system) s, P s -> P (inj k s)) ->
  (forall q q' s, P s -> bqueue s qp = Some q -> bq_mem q' = bq_mem q -> P (with_bq qp q' s)) ->
  (forall q l s, P s -> bqueue s qp = Some q -> P (with_array (bq_mem q) l s)) ->
  out_client qp (fun full s => I full s /\ P s).
Proof.
  intros [C1 C2 C3 C4] P1 P2 P3. split.
  - intros full k s [Hi Hp]. auto.
  - intros full q q' s [Hi Hp] Hq ? ? ?. split; [by eapply C2|by eapply P2].
  - intros full q l l' s [Hi Hp] Hq ? ? ?. split; [by eapply C3|by eapply P3].
  - intros full b s [Hi Hp]. auto.
Qed.
Lemma tx_client_from sdup d v s0 :
  out_client (sdu_obqueue d) (fun full s => (tx_inv sdup d full s /\ busy_in (proj s) = v) /\ rx_left d s0 s).
Proof.
  apply out_client_and; [apply tx_client_busy|intros; by apply rx_left_kern|intros; by eapply rx_left_bq|
    intros; by eapply rx_left_array].
Qed.

(** The start of a frame: when nothing is transmitted and no buffer is full, what was written of the current
    one is transmitted. *)
Lemma sduSOFHookI_ok sdup d full part s : tx_inv sdup d full s -> output_at (sdu_obqueue d) s full part ->
  if decide (busy_in (proj s) = false /\ full = [] /\ part <> [])
  then exists s', sduSOFHookI sdup s = Some (tt, s') /\ tx_inv sdup d [part] s' /\ output_at (sdu_obqueue d) s' [part] [] /\
    idle (sdu_obqueue d) s' /\ busy_in (proj s') = true /\ rx_left d s s'
  else sduSOFHookI sdup s = Some (tt, s).
Proof.
  intros Hinv Hout. pose proof Hinv as [Hup _ _].
  pose proof (obqTryFlushI_ok (sdu_obqueue d) _ (tx_client_from sdup d (busy_in (proj s)) s) s full part
    (conj (conj Hinv eq_refl) (rx_left_refl d s)) Hout) as Hflush.
  assert (E : forall r, (if busy_in (proj s) then r = Some (tt, s) else
      (flushed ← obqTryFlushI (sdu_obqueue d);
       if flushed : bool then
         b ← obqGetFullBufferI (sdu_obqueue d);
         '(buf, n) ← deref (fun _ => b);
         liftM (usbStartTransmitI bulk buf n)
       else mret tt) s = r) -> sduSOFHookI sdup s = r).
  { intros r Hr. unfold sduSOFHookI. erewrite run_call by by eapply not_ready_run. cbv iota.
    erewrite run_call by by eapply sdu_cfg_run. change (bulk_in serusbcfg) with bulk. erewrite run_call by apply busy_in_run.
    destruct (busy_in (proj s)); [done|]. by erewrite run_call by by eapply sdu_run. }
  destruct (busy_in (proj s)) eqn:Eb.
  { clear Hflush. case_decide as Hd; [by destruct Hd|]. by apply E. }
  case_decide as Hd; case_decide as Hd'; try tauto.
  - destruct Hflush as (s1 & E1 & [[Hinv1 Eb1] Hleft] & Hout1 & Hidle1). pose proof Hinv1 as [Hup1 (q & Hq & Hl & Hby & _) Hid1].
    destruct Hout1 as (q' & l & Hq' & Ha & Ho). rewrite Hq in Hq'. injection Hq' as <-.
    destruct (obqGetFullBufferI_ok (sdu_obqueue d) s1 q l [part] [] Hq Ha Ho) as [(p & Eg & _) _].
    destruct (next_transfer_ok sdup d s1 q l [part] [] false) as (u & E2 & Hinv2 & [Hqq Haa] & Hm & Hbu & Hk); try done; [by eapply Hby|by apply Hid1|].
    exists (inj u s1). split.
    + apply E. erewrite run_call by apply E1. cbv iota. unfold transmit_full in E2. rewrite run_assoc in E2.
      erewrite run_call in E2 by apply Eg. cbv iota beta in E2. erewrite run_call by apply Eg. rewrite run_deref with (a := (_, _)) by done.
      rewrite run_assoc in E2. apply bind_inv in E2 as ([] & s2 & E3 & E4). rewrite run_ret in E4. injection E4 as ->. done.
    + split; [done|]. split; [exists q, l; by rewrite Hqq, Haa|].
      split; [|split; [by rewrite proj_inj|by apply rx_left_usb]]. destruct Hidle1 as (q' & Hq' & Hp). exists q'. by rewrite Hqq.
  - apply E. by erewrite run_call by apply Hflush.
Qed.

(** ** A writing thread *)

(** What happens while the thread waits: the kernel, the host that reads, and the start of a frame. *)
Inductive driver_out (sdup : nat) (d : SerialUSBDriver) : S -> S -> Prop :=
  | do_kernel (k : ch_system) s : driver_out sdup d s (inj k s)
  | do_host b p s s' : busy_in (proj s) = true -> flight (proj s) b p -> calm d (proj s) ->
      host_reads b (packets maxsize b) s s' -> driver_out sdup d s s'
  | do_frame s s' : sduSOFHookI sdup s = Some (tt, s') -> driver_out sdup d s s'.

Lemma flight_length u b b' p p' : flight u b p -> flight u b' p' -> length b = length b'.
Proof.
  intros (m & r & a & e & Hs & Hz & _) (m' & r' & a' & e' & Hs' & Hz' & _).
  pose proof (s_e _ _ _ _ _ _ _ _ _ Hs) as E1. pose proof (s_e _ _ _ _ _ _ _ _ _ Hs') as E2.
  change (u_eps (set_u_mem m u)) with (u_eps u) in E1. change (u_eps (set_u_mem m' u)) with (u_eps u) in E2.
  rewrite E1 in E2. injection E2 as <-. lia.
Qed.

Lemma host_reads_fun b b' ps ps' s s1 s2 : length b = length b' -> host_reads b ps s s1 -> host_reads b' ps' s s2 -> s1 = s2.
Proof.
  intros Hl (qs & last & t1 & t2 & E1 & E2 & E3 & _) (qs' & last' & t1' & t2' & E1' & E2' & E3' & _). congruence.
Qed.

Lemma driver_out_step sdup d s s' : driver_out sdup d s s' -> step_out (sdu_obqueue d) (tx_inv sdup d) s s'.
Proof.
  intros [k s0|b p s0 s1 Hb Hfl Hcalm Hreads|s0 s1 E].
  - apply step_out_kern, tx_client.
  - intros bs (full & part & Hinv & Hout & ->).
    destruct (transmit_step sdup d full part s0 Hinv Hout Hb Hcalm) as
      (b' & p' & s2 & Hfl' & Hbf & Hr' & Hcat & Hinv' & Hout' & Hid & _).
    rewrite (host_reads_fun _ _ _ _ _ _ _ (flight_length _ _ _ _ _ Hfl Hfl') Hreads Hr'). split; [|done].
    exists (length b'), (left_over b' full), part. do 2 (split; [done|]). destruct b' as [|x b']; [done|].
    destruct Hbf as [|[rest ->]]; [done|]. cbn [left_over tail concat]. by rewrite <- app_assoc, drop_app_length.
  - intros bs (full & part & Hinv & Hout & ->). pose proof (sduSOFHookI_ok sdup d full part s0 Hinv Hout) as Hf.
    case_decide as Hd.
    + destruct Hf as (s2 & E' & Hinv' & Hout' & Hid & _). rewrite E in E'. injection E' as <-. split; [|done].
      exists O, [part], []. do 2 (split; [done|]). destruct Hd as (_ & -> & _). cbn. by rewrite app_nil_r, app_nil_r.
    + rewrite E in Hf. injection Hf as <-. split; [|done]. exists O, full, part. done.
Qed.

Lemma rtc_step_out sdup d s s' : rtc (driver_out sdup d) s s' -> step_out (sdu_obqueue d) (tx_inv sdup d) s s'.
Proof.
  induction 1 as [|s1 s2 s3 H12 _ IH]; [intros bs Hw; split; [by exists O|done]|].
  apply driver_out_step in H12. intros bs Hw. destruct (H12 _ Hw) as [(n & Hn) Hi]. destruct (IH _ Hn) as [(m & Hm) Hi'].
  split; [|auto]. exists (n + m)%nat. by rewrite <- drop_drop.
Qed.


(** ** Reception *)

(** While a buffer is received the next free one of the input queue is where it goes. *)
Record rx_inv (sdup : nat) (d : SerialUSBDriver) (s : S) : Prop := {
  ri_up : up sdup d s;
  ri_queue : exists q, bqueue s (sdu_ibqueue d) = Some q /\ bq_link q = sdup /\ capacity q = SERIAL_USB_BUFFERS_SIZE /\
    (busy_out (proj s) = true -> ibqIsFullI q = false /\
      receives (proj s) (at_ (o_mem (bq_mem q)) (bq_bwrptr q + sizeof_size_t)));
  ri_idle : busy_out (proj s) = false -> out_ready (proj s)
}.

(** The reception does not notice the steps of the transmission. *)
Lemma rx_inv_same sdup d s s' : rx_same d s s' -> rx_inv sdup d s -> rx_inv sdup d s'.
Proof.
  intros [E1 E2 E3 [K1 K2 K3 K4 _]] [Hup (q & Hq & Hl & Hc & Hbusy) Hid]. split.
  - eapply up_same; [done|apply K1|done].
  - exists q. rewrite E2, K2. do 3 (split; [done|]). intros Hb. destruct (Hbusy Hb) as [Hnf Hr]. auto.
  - rewrite K2. auto.
Qed.
Lemma input_at_same d s s' bs : rx_same d s s' -> input_at (sdu_ibqueue d) s bs -> input_at (sdu_ibqueue d) s' bs.
Proof. intros [E1 E2 E3 _] (q & l & Hq & Ha & Hi). exists q, l. by rewrite E2, (E3 q Hq). Qed.
Lemma idle_in_same d s s' : rx_same d s s' -> idle (sdu_ibqueue d) s -> idle (sdu_ibqueue d) s'.
Proof. intros [_ E2 _ _] (q & Hq & Hp). exists q. by rewrite E2. Qed.

(** A reception that was started leaves the transmission alone. *)
Lemma awaiting_kept u u' r b r1 e1 p k : can_receive u bulk ep1config r ep1outstate b ->
  awaiting u' bulk ep1config r1 ep1outstate b e1 p k ->
  rx_frame bulk ep1outstate b (out_maxsize ep1config) (mark_receiving bulk u) u' -> separate u -> tx_kept u u'.
Proof.
  intros [_ Ht _ _ _] [] Hf Hsep. transitivity (mark_receiving bulk u); [apply tx_kept_flags|].
  eapply tx_kept_rx; [exact Hf|by destruct Ht|done|done|exact Hsep].
Qed.

Lemma rx_client sdup d : in_client (sdu_ibqueue d) (rx_inv sdup d).
Proof.
  split.
  - intros k s [Hup (q & Hq & Hl & Hc & Hbusy) Hid].
    split; [by apply up_kern| |by rewrite proj_usb_kern]. exists q. by rewrite bqueue_kern, proj_usb_kern.
  - intros q q' s [Hup (q0 & Hq0 & Hl & Hc & Hbusy) Hid] Hq E1 E2 E3 E4 Hf. rewrite Hq in Hq0. injection Hq0 as <-.
    split; [by apply up_with_bq| |by rewrite proj_usb_bq]. exists q'. unfold capacity. rewrite bqueue_with, proj_usb_bq, E1, E2, E3, E4.
    do 3 (split; [done|]). intros Hb. destruct (Hbusy Hb) as [Hnf Hr]. split; [by apply Hf|done].
Qed.

Lemma rx_frame_up sdup d s u a : up sdup d s ->
  rx_frame bulk ep1outstate a (out_maxsize ep1config) (mark_receiving bulk (proj s)) u -> up sdup d (inj u s).
Proof. intros Hup Hf. apply up_usb; [done|]. rewrite (rf_drv _ _ _ _ _ _ Hf). apply Hup. Qed.

(** A reception is started if there is a free buffer. *)
Lemma sdu_start_receive_ok sdup d s q : up sdup d s -> bqueue s (sdu_ibqueue d) = Some q -> bq_link q = sdup ->
  capacity q = SERIAL_USB_BUFFERS_SIZE -> busy_out (proj s) = false -> out_ready (proj s) ->
  if ibqIsFullI q then sdu_start_receive sdup s = Some (true, s)
  else exists u, sdu_start_receive sdup s = Some (false, inj u s) /\ rx_inv sdup d (inj u s) /\
    u_mem u = u_mem (proj s) /\ busy_out u = true /\ (separate (proj s) -> tx_kept (proj s) u).
Proof.
  intros Hup Hq Hl Hc Hb (r & a & Hcan).
  assert (E : forall x, (buf ← ibqGetEmptyBufferI (sdu_ibqueue d);
      match buf with
      | null => mret true
      | _ => liftM (usbStartReceiveI bulk buf 256);; mret false
      end) s = x -> sdu_start_receive sdup s = x).
  { intros x Hx. unfold sdu_start_receive. erewrite run_call by by eapply not_ready_run. cbv iota.
    erewrite run_call by by eapply sdu_cfg_run. change (bulk_in serusbcfg) with bulk. erewrite run_call by apply busy_out_run.
    rewrite Hb. by erewrite run_call by by eapply sdu_run. }
  unfold ibqGetEmptyBufferI in E. destruct (ibqIsFullI q) eqn:Ef.
  - apply E. rewrite run_assoc. erewrite run_call by by apply bq_run. by rewrite run_ret, Ef.
  - set (p := at_ (o_mem (bq_mem q)) (bq_bwrptr q + sizeof_size_t)).
    destruct (start_receive_ok (proj s) bulk ep1config r ep1outstate a p 256 Hcan) as (u & r1 & e1 & E1 & Haw & Hcnt & Hm & Hf);
      [lia|done|].
    assert (Hbu : busy_out u = true) by (unfold busy_out; rewrite (rf_drv _ _ _ _ _ _ Hf); apply bit_set).
    exists u. split.
    + apply E. rewrite run_assoc. erewrite run_call by by apply bq_run. rewrite run_ret, Ef. fold p. unfold p at 1. cbv iota beta.
      fold p. by erewrite run_lift by apply E1.
    + split; [|split; [done|split; [done|by eapply awaiting_kept]]]. split; [by eapply rx_frame_up| |by rewrite proj_inj, Hbu].
      destruct (inj_usb_quiet (sdu_ibqueue d) s u Hm) as [Hqq _]. exists q. rewrite Hqq, proj_inj. do 3 (split; [done|]).
      intros _. split; [done|]. by exists r1, a, e1.
Qed.

(** The notification of a reader that released a buffer. *)
Lemma ibnotify_ok sdup d s bs : rx_inv sdup d s -> input_at (sdu_ibqueue d) s bs -> idle (sdu_ibqueue d) s ->
  exists s', ibnotify (sdu_ibqueue d) s = Some (tt, s') /\ rx_inv sdup d s' /\ quiet (sdu_ibqueue d) s s' /\
    tx_left d s s'.
Proof.
  intros Hinv _ _. pose proof Hinv as [Hup (q & Hq & Hl & Hc & Hbusy) Hid]. unfold ibnotify.
  erewrite run_call by by apply bq_run. rewrite Hl. destruct (busy_out (proj s)) eqn:Eb.
  - exists s. split; [|split; [done|split; [done|apply tx_left_refl]]]. unfold sdu_start_receive. rewrite run_assoc. erewrite run_call by by eapply not_ready_run. cbv iota.
    rewrite run_assoc. erewrite run_call by by eapply sdu_cfg_run. change (bulk_in serusbcfg) with bulk.
    rewrite run_assoc. erewrite run_call by apply busy_out_run. by rewrite Eb.
  - pose proof (sdu_start_receive_ok sdup d s q Hup Hq Hl Hc Eb (Hid eq_refl)) as Hs. destruct (ibqIsFullI q).
    + exists s. split; [by erewrite run_call by apply Hs|]. split; [done|]. split; [done|apply tx_left_refl].
    + destruct Hs as (u & E & Hinv' & Hm & _ & Hk). exists (inj u s). split; [by erewrite run_call by apply E|].
      split; [done|]. split; [by apply inj_usb_quiet|]. apply tx_left_usb; [apply tx_left_refl|done|done].
Qed.

(** A packet sequence for a buffer: whole packets, then a short one or as many as the buffer holds. *)
Record buffer_packets (ps : list (list Z)) (last : list Z) : Prop := {
  bp_whole : Forall (fun p => length p = maxsize) ps;
  bp_last : (length last <= maxsize)%nat;
  bp_bytes : Forall (Forall byte) (ps ++ [last]);
  bp_room : (length ps < 4)%nat;
  bp_end : (length last < maxsize)%nat \/ length ps = 3%nat
}.

Lemma buffer_packets_length ps last : buffer_packets ps last -> (length (concat (ps ++ [last])) <= SERIAL_USB_BUFFERS_SIZE)%nat.
Proof.
  intros [Hw Hl _ Hr _]. rewrite concat_app, length_app. cbn [concat]. rewrite app_nil_r.
  assert (Hc : length (concat ps) = (maxsize * length ps)%nat).
  { clear Hr. induction Hw as [|p ps Hp _ IH]; [done|]. cbn [concat length]. rewrite length_app, Hp, IH. lia. }
  rewrite Hc. unfold maxsize, SERIAL_USB_BUFFERS_SIZE in *. lia.
Qed.

Lemma inserts_bytes l off data : (off + length data <= length l)%nat ->
  bytes (list_inserts off data l) off (length data) = data /\ length (list_inserts off data l) = length l /\
  forall x, ~ (off <= x < off + length data)%nat -> list_inserts off data l !! x = l !! x.
Proof.
  intros Hl. split; [|split; [apply length_inserts|]].
  - apply list_eq. intros i. rewrite bytes_lookup. case_decide.
    + rewrite list_lookup_inserts by lia. f_equal. lia.
    + symmetry. apply lookup_ge_None. lia.
  - intros x Hx. destruct (decide (x < off)%nat); [by apply list_lookup_inserts_lt|].
    apply list_lookup_inserts_ge. lia.
Qed.

Lemma stored_array s u a off data l : array s a = Some l -> u_mem u = stored (at_ (o_mem a) off) data (u_mem (proj s)) ->
  array (inj u s) a = Some (list_inserts off data l).
Proof. intros Ha Hm. unfold array in *. rewrite proj_inj, Hm. cbn. rewrite Ha. apply lookup_insert_eq. Qed.

Lemma usbGetReceiveTransactionSizeX_run u e : epc (u_drv u) !! bulk = Some (Some ep1config) -> u_eps u !! ep1outstate = Some e ->
  usbGetReceiveTransactionSizeX bulk u = Some (st_cnt e, u).
Proof.
  intros Hc He. unfold usbGetReceiveTransactionSizeX. erewrite run_call by (unfold epc_at, deref; by rewrite Hc).
  by erewrite run_call by by apply eps_at_run.
Qed.

(** A buffer is received whenever one is free. *)
Definition receiving_on (d : SerialUSBDriver) (s : S) : Prop := exists q, bqueue s (sdu_ibqueue d) = Some q /\
  busy_out (proj s) = negb (ibqIsFullI q).

(** [sduDataReceived] after a reception of [n] bytes into the free buffer. *)
Lemma sduDataReceived_ok sdup d s q l bs n e : up sdup d s -> calm d (proj s) ->
  bqueue s (sdu_ibqueue d) = Some q -> bq_link q = sdup -> capacity q = SERIAL_USB_BUFFERS_SIZE ->
  array s (bq_mem q) = Some l -> input q l bs -> ibqIsFullI q = false ->
  out_ready (proj s) -> busy_out (proj s) = false -> epc (u_drv (proj s)) !! bulk = Some (Some ep1config) ->
  u_eps (proj s) !! ep1outstate = Some e -> st_cnt e = Z.of_nat n -> (n <= SERIAL_USB_BUFFERS_SIZE)%nat ->
  exists s', sduDataReceived bulk s = Some (tt, s') /\ rx_inv sdup d s' /\ receiving_on d s' /\
    input_at (sdu_ibqueue d) s' (bs ++ bytes l (bq_bwrptr q + sizeof_size_t) n) /\
    (idle (sdu_ibqueue d) s -> idle (sdu_ibqueue d) s') /\ sched_ok (proj s') /\
    ((0 < n)%nat -> notified (q_io (sdu_ibqueue d)) (proj s) (proj s')) /\ tx_left d s s'.
Proof.
  intros Hup Hcalm Hq Hl Hc Ha Hi Hnf Hid Hb Hepc Heps Hn Hle.
  assert (E : sduDataReceived bulk s = ((if 0 <? Z.of_nat n then ibqPostFullBufferI (sdu_ibqueue d) (Z.of_nat n) else mret tt);;
    sdu_start_receive sdup;; mret tt) s).
  { unfold sduDataReceived. destruct (up_active _ _ _ Hup) as (_ & _ & Hout).
    erewrite (run_lift _ _ _ (Some sdup)) by (unfold deref; cbn [bulk Nat.sub]; by rewrite Hout). rewrite inj_proj. cbv iota.
    erewrite run_call by by eapply sdu_cfg_run. change (bulk_out serusbcfg) with bulk.
    erewrite run_lift by by apply usbGetReceiveTransactionSizeX_run. rewrite inj_proj, Hn.
    destruct (0 <? Z.of_nat n); [|done]. rewrite run_assoc. erewrite run_call by (eapply chnAddFlagsI_run; [done|apply Hcalm]).
    rewrite run_assoc. by erewrite run_call by by eapply sdu_run. }
  assert (Hgo : forall s1 q1 l1 bs1, up sdup d s1 -> proj (K := usb) s1 = set_u_mem (fun _ => u_mem (proj s1)) (proj s) ->
    bqueue s1 (sdu_ibqueue d) = Some q1 -> bq_link q1 = sdup -> capacity q1 = SERIAL_USB_BUFFERS_SIZE ->
    array s1 (bq_mem q1) = Some l1 -> input q1 l1 bs1 ->
    exists s', (sdu_start_receive sdup;; mret tt) s1 = Some (tt, s') /\ rx_inv sdup d s' /\ receiving_on d s' /\ input_at (sdu_ibqueue d) s' bs1 /\
      bqueue s' (sdu_ibqueue d) = Some q1 /\ proj (K := ch_system) s' = proj s1 /\ (forall s0, tx_left d s0 s1 -> tx_left d s0 s')).
  { intros s1 q1 l1 bs1 Hup1 Hu1 Hq1 Hl1 Hc1 Ha1 Hi1.
    assert (Hb1 : busy_out (proj s1) = false) by (rewrite Hu1; exact Hb).
    assert (Hid1 : out_ready (proj s1)) by (rewrite Hu1; destruct Hid as (r & a & [[] [] ? ? ?]); by exists r, a).
    pose proof (sdu_start_receive_ok sdup d s1 q1 Hup1 Hq1 Hl1 Hc1 Hb1 Hid1) as Hs. destruct (ibqIsFullI q1) eqn:Ef.
    - exists s1. split; [by erewrite run_call by apply Hs|]. split.
      + split; [done| |done]. exists q1. do 3 (split; [done|]). by rewrite Hb1.
      + split; [exists q1; by rewrite Hb1, Ef|]. split; [by exists q1, l1|done].
    - destruct Hs as (u & E1 & Hinv & Hm & Hbu & Hk). exists (inj u s1). split; [by erewrite run_call by apply E1|]. split; [done|].
      destruct (inj_usb_quiet (sdu_ibqueue d) s1 u Hm) as [Hqq Haa].
      split; [exists q1; by rewrite Hqq, proj_inj, Hbu, Ef|]. split; [exists q1, l1; by rewrite Hqq, Haa|].
      split; [by rewrite Hqq|]. split; [apply (apart_r (A := ch_system) u)|]. intros s0 Hleft. by apply tx_left_usb. }
  rewrite E. destruct n as [|n].
  - change (0 <? Z.of_nat 0) with false. cbv iota. rewrite run_ret. unfold bytes. rewrite take_0, app_nil_r.
    destruct (Hgo s q l bs Hup ltac:(by destruct (proj (K := usb) s)) Hq Hl Hc Ha Hi) as (s' & E' & Hinv & Hon & Hin & Hqq & Hk & Hleft).
    exists s'. do 4 (split; [done|]). split; [intros (q' & Hq' & Hp); rewrite Hq in Hq'; injection Hq' as <-; by exists q|]. rewrite Hk.
    split; [apply Hcalm|]. split; [lia|apply Hleft, tx_left_refl].
  - rewrite (proj2 (Z.ltb_lt 0 _)) by lia.
    destruct (ibqPostFullBufferI_ok (sdu_ibqueue d) (Z.of_nat (Datatypes.S n)) s q l bs) as (l' & k & E1 & Hi1 & Hno & Hok);
      [apply Hcalm..|done|done|done|done|rewrite Hc; lia|].
    erewrite run_call by apply E1. rewrite Nat2Z.id in Hi1.
    set (q1 := step_wr (set_bcounter (u32 (bq_bcounter q + 1)) q)) in *.
    set (s1 := inj k (with_bq (sdu_ibqueue d) q1 (with_array (bq_mem q) l' s))).
    destruct (Hgo s1 q1 l' (bs ++ bytes l (bq_bwrptr q + sizeof_size_t) (Datatypes.S n))) as (s' & E' & Hinv & Hon & Hin & Hqq & Hk & Hleft); try done.
    { by apply up_kern, up_with_bq, up_with_array. }
    { unfold s1. rewrite proj_usb_kern, proj_usb_bq. unfold with_array. rewrite proj_inj. by destruct (proj (K := usb) s). }
    { unfold s1. by rewrite bqueue_kern, bqueue_with. }
    { unfold s1. rewrite array_kern, array_bq. apply array_with. }
    exists s'. do 4 (split; [done|]). split.
    + intros (q' & Hq' & Hp). rewrite Hq in Hq'. injection Hq' as <-. by exists q1.
    + rewrite Hk. assert (Hl1 : tx_left d s s').
      { apply Hleft. unfold s1. apply tx_left_kern. eapply tx_left_bq; [|by rewrite bqueue_array|done].
        eapply tx_left_array; [apply tx_left_refl|done]. }
      unfold s1. rewrite proj_inj. done.
Qed.

Lemma cleared_out d sdup u s : bound sdup (u_drv u) -> up sdup d s ->
  let u' := set_u_drv (set_receiving (fun t => u16 (Z.land t (Z.lnot (bit bulk))))) u in
  up sdup d (inj u' s) /\ busy_out u' = false /\ (out_ready u -> out_ready u').
Proof.
  intros Hb Hup u'. split; [by apply up_usb|]. split; [apply bit_clear|].
  intros (r & a & [[] [] ? ? ?]). by exists r, a.
Qed.

(** The host sends the packets of a buffer, each followed by the interrupt of the device. *)
Definition host_sends (ps : list (list Z)) (last : list Z) (s s' : S) : Prop := exists s1 s2,
  run_out ps bulk s = Some (tt, s1) /\ liftM (on_hw (host_out bulk last)) s1 = Some (tt, s2) /\
  usb_serve_endpoints bulk s2 = Some (tt, s').

(** A transfer from the host, for the theorem below and its clients. *)
Lemma receive_step sdup d s bs ps last : rx_inv sdup d s -> input_at (sdu_ibqueue d) s bs ->
  busy_out (proj s) = true -> calm d (proj s) -> buffer_packets ps last ->
  exists s', host_sends ps last s s' /\ rx_inv sdup d s' /\ receiving_on d s' /\
    input_at (sdu_ibqueue d) s' (bs ++ concat (ps ++ [last])) /\ (idle (sdu_ibqueue d) s -> idle (sdu_ibqueue d) s') /\
    sched_ok (proj s') /\ (concat (ps ++ [last]) <> [] -> notified (q_io (sdu_ibqueue d)) (proj s) (proj s')) /\
    tx_left d s s'.
Proof.
  intros [Hup (q & Hq & Hl & Hc & Hbusy) _] (q' & l & Hq' & Ha & Hi) Hb Hcalm Hps. rewrite Hq in Hq'. injection Hq' as <-.
  destruct (Hbusy Hb) as [Hnf (r & a & e & Haw & Hcnt)]. pose proof (buffer_packets_length ps last Hps) as Hlen.
  set (data := concat (ps ++ [last])) in *. set (off := (bq_bwrptr q + sizeof_size_t)%nat) in *.
  assert (Hroom : (off + length data <= length l)%nat).
  { destruct (input_full _ _ _ Hi) as (N & i & f & [Hs Hi' Hf _ Hw _] & _).
    pose proof (slot_room _ _ _ (ring_index N i f) Hs ltac:(apply ring_index_lt; lia)). unfold off. rewrite Hw. lia. }
  destruct Hps as [Hw Hla Hby Hk He].
  destruct (awaiting_run s bulk ep1config r ep1outstate a e _ 4 ps last Haw Hcnt) as (s1 & s2 & u2 & r2 & E1 & E2 & E3 & Hrec & Hm & Hf).
  { eapply Forall_impl; [exact Hw|]. intros x Hx. cbn. unfold maxsize in Hx. lia. }
  { cbn. unfold maxsize in Hla. lia. }
  { exact Hby. }
  { lia. }
  { cbn. unfold maxsize in *. lia. }
  { right. exists (bq_mem q), off, l. done. }
  { unfold SERIAL_USB_BUFFERS_SIZE in Hlen. fold data. lia. }
  fold data in Hrec, Hm. destruct (cleared_out d sdup u2 s) as (Hup2 & Hb2 & Hr2); [rewrite (rf_drv _ _ _ _ _ _ Hf); apply Hup|done|].
  set (u3 := set_u_drv _ u2) in *. destruct Hrec as [Hep Hrx (e2 & Ee2 & Hc2) Hctr].
  destruct (inserts_bytes l off data Hroom) as (Hby1 & Hlen1 & Hsame).
  set (l' := list_inserts off data l) in *.
  assert (Hq3 : bqueue (inj u3 s) (sdu_ibqueue d) = Some q).
  { unfold bqueue. by rewrite (apart_r (A := buffers_queues) u3). }
  assert (Hcap : (length data <= bq_bsize q - sizeof_size_t)%nat) by (unfold capacity in Hc; rewrite Hc; done).
  assert (Hi' : input q l' bs).
  { apply (input_free q l l' bs Hi Hnf Hlen1). intros x Hx. apply Hsame. unfold off. lia. }
  destruct (sduDataReceived_ok sdup d (inj u3 s) q l' bs (length data) e2) as (s' & E4 & Hinv & Hon & Hin & Hid & Hok & Hno & Hleft); try done.
  - by rewrite (apart_r (A := ch_system) u3).
  - by apply stored_array.
  - rewrite proj_inj. apply Hr2. exists r2, a. split; try done.
    destruct (a_count _ _ _ _ _ _ _ _ _ Haw) as [w Ew]. apply lookup_lt_Some in Ew. apply lookup_lt_is_Some.
    by rewrite (rf_len _ _ _ _ _ _ Hf).
  - by rewrite proj_inj.
  - rewrite proj_inj. apply (e_epc _ _ _ _ Hep).
  - by rewrite proj_inj.
  - exists s'. split.
    { exists s1, s2. do 2 (split; [done|]). rewrite E3. unfold _usb_isr_invoke_out_cb.
      erewrite run_lift by reflexivity. rewrite proj_inj, inj_inj. fold u3.
      erewrite (run_lift _ _ _ ep1config) by (unfold epc_at, deref; rewrite proj_inj; change (epc (u_drv u3)) with (epc (u_drv u2));
        by rewrite (e_epc _ _ _ _ Hep)).
      rewrite inj_inj. exact E4. }
    do 2 (split; [done|]). fold off in Hin. rewrite Hby1 in Hin. split; [done|]. split.
    { intros (q' & Hq' & Hp). apply Hid. exists q'. by rewrite Hq3, <- Hq. }
    split; [done|]. split; [intros Hne; rewrite (apart_r (A := ch_system) u3) in Hno; apply Hno; destruct data; [done|cbn; lia]|].
    intros Hw'. assert (Hl3 : tx_left d s (inj u3 s)).
    { intros _. assert (Hkept : tx_kept (proj s) u3).
      { transitivity u2; [|apply tx_kept_flags]. destruct Haw. eapply tx_kept_rx; [exact Hf|done|done|done|apply Hw']. }
      split; [apply two_ways_usb; [done|apply Hkept, Hw']|]. apply tx_same_usb; [done|]. intros q' Hq'.
      change (u_mem u3) with (u_mem u2). rewrite Hm. unfold stored. cbn. unfold array in Ha. rewrite Ha. apply lookup_insert_ne.
      rewrite (sp_in _ _ Hw' q Hq), (sp_out _ _ Hw' q' Hq'). apply Hw'. }
    destruct (Hl3 Hw') as [Hw3 Hs3]. destruct (Hleft Hw3) as [Hw4 Hs4]. split; [done|]. by etrans.
Qed.

(** ** A reading thread *)

(** What happens while the thread waits: the kernel, and the host that sends. *)
Inductive driver_in (sdup : nat) (d : SerialUSBDriver) : S -> S -> Prop :=
  | di_kernel (k : ch_system) s : driver_in sdup d s (inj k s)
  | di_host ps last s s' : busy_out (proj s) = true -> calm d (proj s) -> buffer_packets ps last ->
      host_sends ps last s s' -> driver_in sdup d s s'.

Lemma rtc_step_in sdup d s s' : rtc (driver_in sdup d) s s' -> step_in (sdu_ibqueue d) (rx_inv sdup d) s s'.
Proof.
  induction 1 as [s1|s1 s2 s3 H12 _ IH]; intros bs Hr; [split; [exists []; by rewrite app_nil_r|done]|].
  assert (H12' : (exists a, reader (sdu_ibqueue d) (rx_inv sdup d) (bs ++ a) s2) /\
    (idle (sdu_ibqueue d) s1 -> idle (sdu_ibqueue d) s2)).
  { destruct H12 as [k s0|ps last s0 s4 Hb Hcalm Hps (t1 & t2 & E1 & E2 & E3)].
    - by apply (step_in_kern (sdu_ibqueue d) _ (rx_client sdup d)).
    - destruct Hr as [Hinv Hin]. destruct (receive_step sdup d s0 bs ps last Hinv Hin Hb Hcalm Hps)
        as (s' & (t1' & t2' & E1' & E2' & E3') & Hinv' & _ & Hin' & Hid & _).
      replace s4 with s' by congruence. split; [|done]. exists (concat (ps ++ [last])). by split. }
  destruct H12' as [(a & Ha) Hi]. destruct (IH _ Ha) as [(a' & Ha') Hi']. split; [|auto].
  exists (a ++ a'). by rewrite app_assoc.
Qed.



(** C21: What the host sends to the bulk endpoint, in whole packets and a short one or until the buffer is full, is
    behind what is in the input queue after the last interrupt; the reader that waits is woken, and the
    next reception is started if there is a free buffer.  Packets without data change nothing. *)
Theorem sdu_receive_ok sdup d s bs ps last : rx_inv sdup d s -> input_at (sdu_ibqueue d) s bs ->
  busy_out (proj s) = true -> calm d (proj s) -> buffer_packets ps last ->
  exists s', host_sends ps last s s' /\ rx_inv sdup d s' /\ receiving_on d s' /\
    input_at (sdu_ibqueue d) s' (bs ++ concat (ps ++ [last])) /\ (idle (sdu_ibqueue d) s -> idle (sdu_ibqueue d) s') /\
    sched_ok (proj s') /\ (concat (ps ++ [last]) <> [] -> notified (q_io (sdu_ibqueue d)) (proj s) (proj s')).
Proof.
  intros Hinv Hin Hb Hc Hps. destruct (receive_step _ _ _ _ _ _ Hinv Hin Hb Hc Hps) as (s' & Hx).
  exists s'. by destruct_and!.
Qed.
End spec.
End SerialUsbSpec.
