(* ===== verification/SerialPort.v ===== *)
(** * The serial port over USB in both directions

    A thread that reads and writes the port while the host sends and reads: the transfers of one
    direction leave the other alone, since each has its own queue, buffers and half of the endpoint. *)

From S2P Require Import Prelude CLib Prog ThreadQueue Kernel ChVt ChSchd ChThreads ChEvents HalQueues HalSerial.
From S2P Require Import UsbRegs UsbLld HalUsb UsbIsr UsbBus UsbTransfer UsbCfg HalBuffers BuffersSpec BuffersThreads SerialUsb.
From S2P Require Import SerialUsbSpec.

Module SerialPort.
Import ChSchd ChThreads ChEvents HalQueues HalSerial UsbRegs UsbLld HalUsb UsbIsr UsbBus UsbTransfer UsbCfg HalBuffers BuffersSpec BuffersThreads SerialUsb SerialUsbSpec.
#[local] Abbreviation take := firstn.
#[local] Abbreviation drop := skipn.

Section port.
Context {S : Type} `{!Component S ch_system, !Component S buffers_queues, !Component S usb, !Component S sdu_drivers}.
Context `{!Apart S ch_system buffers_queues, !Apart S ch_system usb, !Apart S ch_system sdu_drivers}.
Context `{!Apart S buffers_queues usb, !Apart S buffers_queues sdu_drivers, !Apart S usb sdu_drivers}.
Context `{!UsbDevice, !Beyond, !UsbClock, !UsbEngine, !UsbDeviceSpec, !UsbEngineSpec}.
Context (sdup : nat) (d : SerialUSBDriver).
Implicit Types (s : S) (u : usb).

(** ** Reading leaves writing alone, and writing reading *)

Section other.
(** A property of one direction. *)
Context (P : S -> Prop).

Definition rx_and (s : S) : Prop := rx_inv sdup d s /\ two_ways d s /\ P s.
Definition tx_and (full : list (list Z)) (s : S) : Prop := tx_inv sdup d full s /\ two_ways d s /\ P s.

Lemma left_tx s s' : (forall s s', tx_same d s s' -> P s -> P s') -> tx_left d s s' -> two_ways d s /\ P s -> two_ways d s' /\ P s'.
Proof. intros HP Hl [Hw Hp]. destruct (Hl Hw) as [? Hs]. split; [done|]. by eapply HP. Qed.
Lemma left_rx s s' : (forall s s', rx_same d s s' -> P s -> P s') -> rx_left d s s' -> two_ways d s /\ P s -> two_ways d s' /\ P s'.
Proof. intros HP Hl [Hw Hp]. destruct (Hl Hw) as [? Hs]. split; [done|]. by eapply HP. Qed.

Lemma rx_and_client : (forall s s', tx_same d s s' -> P s -> P s') -> in_client (sdu_ibqueue d) rx_and.
Proof.
  intros HP. destruct (rx_client sdup d) as [C1 C2]. split.
  - intros k s [Hi Hx]. split; [by apply C1|]. eapply (left_tx _ _ HP), Hx. apply tx_left_kern, tx_left_refl.
  - intros q q' s [Hi Hx] Hq ? Hm ? ? ?. split; [by eapply C2|]. eapply (left_tx _ _ HP), Hx.
    eapply tx_left_bq; [apply tx_left_refl|done|done].
Qed.
Lemma rx_and_notify : (forall s s', tx_same d s s' -> P s -> P s') ->
  forall s bs, rx_and s -> input_at (sdu_ibqueue d) s bs -> idle (sdu_ibqueue d) s ->
  exists s', ibnotify (sdu_ibqueue d) s = Some (tt, s') /\ rx_and s' /\ quiet (sdu_ibqueue d) s s'.
Proof.
  intros HP s bs [Hi Hx] Hin Hid. destruct (ibnotify_ok sdup d s bs Hi Hin Hid) as (s' & E & Hi' & Hq & Hl).
  exists s'. split; [done|]. split; [|done]. split; [done|]. by eapply left_tx.
Qed.

Lemma tx_and_client : (forall s s', rx_same d s s' -> P s -> P s') -> out_client (sdu_obqueue d) tx_and.
Proof.
  intros HP. apply out_client_and; [apply tx_client|..].
  - intros k s Hx. eapply (left_rx _ _ HP), Hx. apply rx_left_kern, rx_left_refl.
  - intros q q' s Hx Hq Hm. eapply (left_rx _ _ HP), Hx. eapply rx_left_bq; [apply rx_left_refl|done|done].
  - intros q l s Hx Hq. eapply (left_rx _ _ HP), Hx. eapply rx_left_array; [apply rx_left_refl|done].
Qed.
Lemma tx_and_notify : (forall s s', rx_same d s s' -> P s -> P s') ->
  forall s full, tx_and full s -> output_at (sdu_obqueue d) s full [] -> idle (sdu_obqueue d) s ->
  exists s', obnotify (sdu_obqueue d) s = Some (tt, s') /\ tx_and full s' /\ quiet (sdu_obqueue d) s s'.
Proof.
  intros HP s full [Hi Hx] Ho Hid. destruct (obnotify_ok sdup d s full Hi Ho Hid) as (s' & E & Hi' & Hq & Hl).
  exists s'. split; [done|]. split; [|done]. split; [done|]. by eapply left_rx.
Qed.
End other.

(** ** The port *)

Definition incoming : list Z -> S -> Prop := reader (sdu_ibqueue d) (rx_inv sdup d).
Definition outgoing : list Z -> S -> Prop := writer (sdu_obqueue d) (tx_inv sdup d).
(** [n] buffers of [cap] bytes, of which [ld] are taken. *)
Definition outgoing_at (n : Z) (cap ld : nat) : list Z -> S -> Prop := writer_at (sdu_obqueue d) (tx_inv sdup d) n cap ld.

(** The bytes to be read, and those on their way to the host. *)
Definition terminal (bs c : list Z) (s : S) : Prop := two_ways d s /\ incoming bs s /\ outgoing c s.

Lemma incoming_same bs s s' : rx_same d s s' -> incoming bs s -> incoming bs s'.
Proof. intros Hs [Hi Hin]. split; [by eapply rx_inv_same|by eapply input_at_same]. Qed.
Lemma outgoing_same c s s' : tx_same d s s' -> outgoing c s -> outgoing c s'.
Proof.
  intros Hs (full & part & Hi & Ho & ->). exists full, part. split; [by eapply tx_inv_same|].
  split; [by eapply output_at_same|done].
Qed.
Lemma outgoing_at_same n cap ld c s s' : tx_same d s s' -> outgoing_at n cap ld c s -> outgoing_at n cap ld c s'.
Proof.
  intros Hs (q & l & full & part & Hi & Hq & Ha & Ho & -> & Hld). pose proof Hs as [_ E2 E3 _].
  exists q, l, full, part. rewrite E2, (E3 q Hq). split; [by eapply tx_inv_same|]. by repeat (split; [done|]).
Qed.

(** ** The host and the kernel meanwhile *)

Definition driver_step (s s' : S) : Prop := driver_in sdup d s s' \/ driver_out sdup d s s'.

(** What they do to the port. *)
Definition moved (s s' : S) : Prop := forall bs c, terminal bs c s ->
  (exists a i, terminal (bs ++ a) (drop i c) s') /\
  (idle (sdu_ibqueue d) s -> idle (sdu_ibqueue d) s') /\ (idle (sdu_obqueue d) s -> idle (sdu_obqueue d) s').

#[global] Instance moved_preorder : PreOrder moved.
Proof.
  split.
  - intros s bs c Ht. split; [|done]. exists [], O. by rewrite app_nil_r.
  - intros s1 s2 s3 H12 H23 bs c Ht. destruct (H12 _ _ Ht) as [(a & i & Ht2) [Ha Hb]].
    destruct (H23 _ _ Ht2) as [(a' & i' & Ht3) [Ha' Hb']]. split; [|auto]. exists (a ++ a'), (i + i')%nat.
    by rewrite <- drop_drop, app_assoc.
Qed.

Lemma moved_kern (k : ch_system) s : moved s (inj k s).
Proof.
  intros bs c (Hw & [Hi Hin] & (full & part & Hti & Hto & ->)). split; [|split; apply idle_kern]. exists [], O.
  rewrite app_nil_r. split; [by apply two_ways_kern|]. split.
  - split; [by apply (ci_kern _ _ (rx_client sdup d))|by apply input_at_kern].
  - exists full, part. split; [by apply (co_kern _ _ (tx_client sdup d))|]. split; [by apply output_at_kern|done].
Qed.

Lemma driver_in_left s s' : rx_inv sdup d s -> (exists bs, input_at (sdu_ibqueue d) s bs) -> driver_in sdup d s s' -> tx_left d s s'.
Proof.
  intros Hi (bs & Hin) Hst. revert Hi Hin. destruct Hst as [k s0|ps last s0 s1 Hb Hcalm Hps (t1 & t2 & E1 & E2 & E3)]; intros Hi Hin.
  - apply tx_left_kern, tx_left_refl.
  - destruct (receive_step sdup d s0 bs ps last Hi Hin Hb Hcalm Hps)
      as (s' & (t1' & t2' & E1' & E2' & E3') & _ & _ & _ & _ & _ & _ & Hl). by replace s1 with s' by congruence.
Qed.
Lemma driver_out_left s s' full part : tx_inv sdup d full s -> output_at (sdu_obqueue d) s full part ->
  driver_out sdup d s s' -> rx_left d s s'.
Proof.
  intros Hi Ho Hst. revert Hi Ho. destruct Hst as [k s0|b p s0 s1 Hb Hfl Hcalm Hreads|s0 s1 E]; intros Hi Ho.
  - apply rx_left_kern, rx_left_refl.
  - destruct (transmit_step sdup d full part s0 Hi Ho Hb Hcalm) as
      (b' & p' & s2 & Hfl' & _ & Hr' & _ & _ & _ & _ & _ & _ & _ & Hl).
    by rewrite (host_reads_fun _ _ _ _ _ _ _ (flight_length _ _ _ _ _ Hfl Hfl') Hreads Hr').
  - pose proof (sduSOFHookI_ok sdup d full part s0 Hi Ho) as Hf. case_decide as Hd.
    + destruct Hf as (s2 & E' & _ & _ & _ & _ & Hl). by replace s1 with s2 by congruence.
    + replace s1 with s0 by congruence. apply rx_left_refl.
Qed.

Lemma driver_step_moved s s' : driver_step s s' -> moved s s'.
Proof.
  intros Hst bs c (Hw & Hin & Hout). destruct Hst as [Hst|Hst].
  - pose proof Hin as [Hi Hat].
    destruct (driver_in_left s s' Hi (ex_intro _ bs Hat) Hst Hw) as [Hw' Hs].
    destruct (rtc_step_in sdup d s s' (rtc_once _ _ Hst) bs Hin) as [(a & Ha) Hid]. split.
    + exists a, O. split; [done|]. split; [done|]. by eapply outgoing_same.
    + split; [done|]. by eapply idle_out_same.
  - pose proof Hout as (full & part & Hi & Ho & ->).
    destruct (driver_out_left s s' full part Hi Ho Hst Hw) as [Hw' Hs].
    destruct (rtc_step_out sdup d s s' (rtc_once _ _ Hst) _ Hout) as [(i & Hd) Hid]. split.
    + exists [], i. rewrite app_nil_r. split; [done|]. split; [|done]. by eapply incoming_same.
    + split; [by eapply idle_in_same|done].
Qed.
Lemma rtc_moved s s' : rtc driver_step s s' -> moved s s'.
Proof. induction 1 as [|s1 s2 s3 H12 _ IH]; [done|]. etransitivity; [by apply driver_step_moved|done]. Qed.
(** ** A thread that reads and writes single bytes *)

Definition terminal_at (n : Z) (cap ld : nat) (bs c : list Z) (s : S) : Prop :=
  two_ways d s /\ incoming bs s /\ outgoing_at n cap ld c s.
Lemma terminal_at_terminal n cap ld bs c s : terminal_at n cap ld bs c s -> terminal bs c s.
Proof. intros (? & ? & ?%writer_at_writer). done. Qed.

(** What the thread relies on while others run. *)
Context (R : why -> S -> S -> Prop).
Definition host_only : Prop := forall w s s', R w s s' -> rtc driver_step s s'.

Lemma sdu_up bs s : incoming bs s -> sdu sdup s = Some (d, s).
Proof. intros [[Hup _ _] _]. by eapply sdu_run. Qed.

(** The other direction, as a property of this one. *)
Definition rest_out (c : list Z) (s : S) : Prop := exists i, outgoing (drop i c) s.
Definition rest_in (bs : list Z) (s : S) : Prop := exists a, incoming (bs ++ a) s.
Lemma rest_out_same c s s' : tx_same d s s' -> rest_out c s -> rest_out c s'.
Proof. intros Hs (i & Ho). exists i. by eapply outgoing_same. Qed.
Lemma rest_in_same bs s s' : rx_same d s s' -> rest_in bs s -> rest_in bs s'.
Proof. intros Hs (a & Hi). exists a. by eapply incoming_same. Qed.

Lemma rtc_step_in_and c s s' : rtc driver_step s s' -> step_in (sdu_ibqueue d) (rx_and (rest_out c)) s s'.
Proof.
  intros Hst bs [(Hi & Hw & i & Ho) Hin]. destruct (rtc_moved _ _ Hst bs (drop i c)) as [(a & j & Hw' & [Hi' Hin'] & Ho') [Hid _]].
  { by split; [|split]. }
  split; [|done]. exists a. split; [|done]. split; [done|]. split; [done|]. exists (i + j)%nat. by rewrite <- drop_drop.
Qed.
Lemma rtc_step_out_and bs s s' : rtc driver_step s s' -> step_out (sdu_obqueue d) (tx_and (rest_in bs)) s s'.
Proof.
  intros Hst c (full & part & (Hi & Hw & a & Hin) & Ho & ->).
  destruct (rtc_moved _ _ Hst (bs ++ a) (concat full ++ part)) as [(a' & j & Hw' & Hin' & (full' & part' & Hi' & Ho' & E)) [_ Hid]].
  { split; [done|]. split; [done|]. by exists full, part. }
  split; [|done]. exists j. rewrite E. exists full', part'. split; [|done]. split; [done|]. split; [done|].
  exists (a ++ a'). by rewrite app_assoc.
Qed.

(** A byte is read: nothing is lost in either direction. *)
Lemma port_read bs c s got s' : host_only -> terminal bs c s -> exec R (_read sdup 1) s got s' ->
  exists rest a i, terminal rest (drop i c) s' /\ (length got <= 1)%nat /\ got ++ rest = bs ++ a.
Proof.
  intros HR (Hw & Hin & Ho) (d' & s1 & E & Hx). cbn in E. rewrite (sdu_up _ _ Hin) in E. injection E as <- <-.
  destruct (read_ok (BQNotify0 := sdu_notify) (sdu_ibqueue d) (rx_and (rest_out c)) (rx_and_client _ (rest_out_same c))
    (rx_and_notify _ (rest_out_same c)) 1 TIME_INFINITE s bs ltac:(lia)) as [Hany _].
  { destruct Hin as [Hi Hin]. split; [|done]. split; [done|]. split; [done|]. by exists O. }
  destruct (Hany R got s') as (rest & a & [(Hi' & Hw' & i & Ho') Hin'] & Hl & Hgot); [|done|].
  { intros w s1 s2 Hr. by eapply rtc_step_in_and, HR. }
  exists rest, a, i. split; [by split; [|split]|]. split; [lia|done].
Qed.
Lemma port_read_ready n cap ld b bs c s : terminal_at n cap ld (b :: bs) c s ->
  exists s', exec alone (_read sdup 1) s [b] s' /\ terminal_at n cap ld bs c s'.
Proof.
  intros (Hw & Hin & Ho).
  destruct (read_ok (BQNotify0 := sdu_notify) (sdu_ibqueue d) (rx_and (outgoing_at n cap ld c))
    (rx_and_client _ (outgoing_at_same n cap ld c)) (rx_and_notify _ (outgoing_at_same n cap ld c))
    1 TIME_INFINITE s (b :: bs) ltac:(lia)) as [_ Hnow].
  { destruct Hin as [Hi Hin]. by split. }
  destruct Hnow as (s' & Hx & [(Hi' & Hw' & Ho') Hin']); [cbn; lia|]. exists s'. split; [|by split; [|split]].
  exists d, s. split; [by apply (sdu_up (b :: bs))|]. exact Hx.
Qed.

(** A byte is written, or not when the call fails. *)
Lemma port_put b bs c s m s' : host_only -> byte b -> terminal bs c s -> exec R (_put sdup b) s m s' ->
  exists a i, terminal (bs ++ a) (drop i (if m =? MSG_OK then c ++ [b] else c)) s'.
Proof.
  intros HR Hb (Hw & Hin & Ho) (d' & s1 & E & Hx). cbn in E. rewrite (sdu_up _ _ Hin) in E. injection E as <- <-.
  destruct (put_ok (BQNotify0 := sdu_notify) (sdu_obqueue d) (tx_and (rest_in bs)) (tx_and_client _ (rest_in_same bs))
    (tx_and_notify _ (rest_in_same bs)) b TIME_INFINITE s c Hb) as [Hany _].
  destruct (Hany R m s') as (i & full & part & (Hi' & Hw' & a & Hin') & Ho' & E); [| |done|].
  - destruct Ho as (full & part & Hi & Ho & ->). exists full, part. split; [|done]. split; [done|]. split; [done|].
    exists []. by rewrite app_nil_r.
  - intros w s1 s2 Hr. by eapply rtc_step_out_and, HR.
  - exists a, i. split; [done|]. split; [done|]. by exists full, part.
Qed.
Lemma port_put_ready n cap ld b bs c s : byte b -> terminal_at n cap ld bs c s -> (ld < Z.to_nat n * cap)%nat ->
  exists s', exec alone (_put sdup b) s MSG_OK s' /\ terminal_at n cap (ld + 1) bs (c ++ [b]) s'.
Proof.
  intros Hb (Hw & Hin & (q & l & full & part & Hi & Hx)) Hroom.
  destruct (put_ok (BQNotify0 := sdu_notify) (sdu_obqueue d) (tx_and (incoming bs)) (tx_and_client _ (incoming_same bs))
    (tx_and_notify _ (incoming_same bs)) b TIME_INFINITE s c Hb) as [_ Hnow].
  destruct (Hnow n cap ld) as (s' & Hp & (q' & l' & full' & part' & (Hi' & Hw' & Hin') & Hx')); [|done|].
  { exists q, l, full, part. split; [|done]. by split; [|split]. }
  exists s'. split.
  - exists d, s. split; [by eapply sdu_up|exact Hp].
  - split; [done|]. split; [done|]. exists q', l', full', part'. by split.
Qed.
End port.
End SerialPort.
