(* ===== verification/UsbDriver.v ===== *)
(** * The USB drivers implement the interface of the application

    [DebugShell.c] connects the serial port [SDU1] to the bus: the class [Usb] of [AppState] by the
    drivers.  What the application supposes of them, [UsbSpec], holds of everything that is not
    a part of the kernel or of the drivers. *)

From S2P Require Import Prelude CLib Prog ThreadQueue Kernel ChSchd ChThreads ChEvents HalSerial.
From S2P Require Import AppState UsbRegs UsbLld HalUsb HalBuffers UsbCfg SerialUsb.

Module UsbDriver.
Import ChSchd ChThreads ChEvents UsbRegs UsbLld HalUsb HalBuffers SerialUsb.

Section driver.
Context {S : Type} `{!Component S ch_system, !Component S buffers_queues, !Component S usb, !Component S sdu_drivers}.
Context `{!UsbDevice, !Beyond, !UsbClock}.
(** The object [SDU1]. *)
Context (sdu1 : SerialUSBDriver).

#[export] Instance usb_driver : AppState.Usb S := {
  AppState.sduObjectInit := SerialUsb.sduObjectInit SDU1 sdu1;
  AppState.sduStart := SerialUsb.sduStart SDU1 serusbcfg;
  AppState.sduStop := SerialUsb.sduStop SDU1;
  AppState.usbStart := HalUsb.usbStart;
  AppState.usbStop := HalUsb.usbStop;
  AppState.usbConnectBus := HalUsb.usbConnectBus;
  AppState.usbDisconnectBus := HalUsb.usbDisconnectBus
}.

Section frame.
Context {X : Type} (f : S -> X).
Context (f_kern : forall (k : ch_system) s, f (inj k s) = f s) (f_queues : forall (b : buffers_queues) s, f (inj b s) = f s).
Context (f_usb : forall (u : usb) s, f (inj u s) = f s) (f_sdu : forall (m : sdu_drivers) s, f (inj m s) = f s).
#[local] Abbreviation keeps := (moves (same f)).

Lemma keeps_kern {A} (m : K A) : keeps (liftM m).
Proof using f_kern. intros s a s'. unfold liftM. destruct (m (proj s)) as [[b k]|]; [|done]. intros [= _ <-]. apply f_kern. Qed.
Lemma keeps_usb {A} (m : M usb A) : keeps (liftM m).
Proof using f_usb. intros s a s'. unfold liftM. destruct (m (proj s)) as [[b k]|]; [|done]. intros [= _ <-]. apply f_usb. Qed.
Lemma keeps_set_bq qp q : keeps (set_bq qp q).
Proof using f_queues. intros s [] s' [= <-]. apply f_queues. Qed.
Lemma keeps_set_sdu sdup d : keeps (set_sdu sdup d).
Proof using f_sdu. intros s [] s' [= <-]. apply f_sdu. Qed.
Lemma keeps_bq qp : keeps (bq qp).
Proof. apply moves_deref. exact _. Qed.
Lemma keeps_sdu sdup : keeps (sdu sdup).
Proof. apply moves_deref. exact _. Qed.
#[local] Hint Resolve keeps_kern keeps_usb keeps_set_bq keeps_set_sdu keeps_bq keeps_sdu : moves.

Lemma keeps_on_bq qp g : keeps (on_bq qp g).
Proof using f_queues. unfold on_bq. moves_tac. Qed.
#[local] Hint Resolve keeps_on_bq : moves.
Lemma keeps_in_param i p : keeps (in_param i p).
Proof using f_usb. apply keeps_usb. Qed.
Lemma keeps_out_param i p : keeps (out_param i p).
Proof using f_usb. apply keeps_usb. Qed.
#[local] Hint Resolve keeps_in_param keeps_out_param : moves.
Lemma keeps_reset qp : keeps (ibqResetI qp) /\ keeps (obqResetI qp).
Proof using f_kern f_queues. unfold ibqResetI, obqResetI. split; moves_tac. Qed.
Lemma keeps_init qp b mem bp size n link : keeps (ibqObjectInit qp b mem bp size n link) /\ keeps (obqObjectInit qp b mem bp size n link).
Proof using f_kern f_queues. unfold ibqObjectInit, obqObjectInit. split; moves_tac. Qed.
Lemma keeps_flags sdup flags : keeps (chnAddFlagsI sdup flags).
Proof using f_kern. unfold chnAddFlagsI. moves_tac. Qed.
Lemma keeps_cfg sdup : keeps (sdu_cfg sdup).
Proof. unfold sdu_cfg. moves_tac. Qed.

Lemma keeps_ibq_reset qp : keeps (ibqResetI qp).
Proof using f_kern f_queues. apply keeps_reset. Qed.
Lemma keeps_obq_reset qp : keeps (obqResetI qp).
Proof using f_kern f_queues. apply keeps_reset. Qed.
#[local] Hint Resolve keeps_ibq_reset keeps_obq_reset keeps_flags keeps_cfg : moves.

(** The drivers work on the kernel, the queues and their own state only. *)
Lemma usb_driver_spec : UsbSpec f.
Proof using All.
  split.
  - intros s s'. apply (fun Hm => Hm s tt s'). change (keeps (SerialUsb.sduObjectInit SDU1 sdu1)).
    unfold SerialUsb.sduObjectInit. apply moves_bind; [exact _|auto with moves|intros _].
    apply moves_bind; [exact _|auto with moves|intros _].
    apply moves_bind; [exact _|apply keeps_init|intros _]. apply keeps_init.
  - split; [|intros []; by split]. cbn [within]. moves_tac.
  - split; [by apply keeps_cfg|intros ?]. split; [split|intros []; by split].
    + cbn [within]. moves_tac.
    + intros _. apply within_lift. intros k s. apply f_kern.
  - split; [|intros []; by split]. cbn [within]. moves_tac.
  - split; [split|intros []; by split].
    + cbn [within]. moves_tac.
    + intros _. apply within_lift. intros k s. apply f_kern.
  - cbn [within]. apply keeps_usb.
  - cbn [within]. apply keeps_usb.
Qed.
End frame.
End driver.
End UsbDriver.
