(* ===== verification/ShellPort.v ===== *)
(** * The shell on the serial port over USB

    [DebugShell.c] runs the shell on [SDU1]: the channel of [AppState] and the stream of [Shell] by the
    virtual methods of hal_serial_usb.c.  A line the host types is the line the shell gets, and the
    echo is what the host reads. *)

From S2P Require Import Prelude CLib Chprintf Prog ThreadQueue Kernel ChVt ChSchd ChThreads ChEvents HalQueues HalSerial.
From S2P Require Import AppState Shell UsbRegs UsbLld HalUsb UsbBus UsbTransfer UsbCfg HalBuffers BuffersSpec BuffersThreads SerialUsb.
From S2P Require Import SerialUsbSpec SerialPort.

Module ShellPort.
Import ChThreads UsbRegs UsbLld HalUsb UsbBus HalBuffers BuffersSpec BuffersThreads SerialUsb SerialUsbSpec SerialPort Shell.
#[local] Abbreviation take := firstn.
#[local] Abbreviation drop := skipn.

Section shell.
Context {S : Type} `{!Component S ch_system, !Component S buffers_queues, !Component S usb, !Component S sdu_drivers}.
Context `{!Apart S ch_system buffers_queues, !Apart S ch_system usb, !Apart S ch_system sdu_drivers}.
Context `{!Apart S buffers_queues usb, !Apart S buffers_queues sdu_drivers, !Apart S usb sdu_drivers}.
Context `{!UsbDevice, !Beyond, !UsbClock, !UsbEngine, !UsbDeviceSpec, !UsbEngineSpec}.
Implicit Types (s : S).

(** [streamRead(chp, &c, 1)] and [streamPut], with the parameter of type [uint8_t]; [sdStart] is not
    a method of a channel. *)
#[export] Instance port_stream : Stream S := fun chp =>
  got ← _read chp 1; mret (match got with [] => None | b :: _ => Some (charz b) end).
#[export] Instance port_serial : Serial S := {
  sdStart := fun _ => Atom (fun _ => None);
  streamPut := fun chp b => _put chp (u8 b);
  chnGetTimeout := fun chp timeout => _gett chp timeout;
  chnGetEventSource := fun chp => d ← sdu chp; mret (sdu_event d)
}.

Section line.
Context (chp : nat) (d : SerialUSBDriver).

(** ** While the host types and reads *)

Section others.
Context (R : why -> S -> S -> Prop) (HR : host_only chp d R).
(** [bs] was there to be read and [c] on its way. *)
Context (bs c : list Z).

(** Since then [k] was read and [o] written, of which [w] was not refused. *)
Definition port_io (k : list (option ascii)) (o : list Z) (s : S) : Prop := exists got rest sent w i,
  terminal chp d rest (drop i (c ++ w)) s /\ bs ++ sent = got ++ rest /\ omap id k = map charz got /\
  w `sublist_of` map u8 o.

Lemma port_io_read k o s r s' : port_io k o s -> exec R (streamRead chp) s r s' -> port_io (k ++ [r]) o s'.
Proof.
  intros (got & rest & sent & w & i & Ht & E & Ek & Ew) (g & s1 & Hx & -> & ->).
  destruct (port_read chp d R _ _ s g s1 HR Ht Hx) as (rest' & a & j & Ht' & Hl & Eg).
  exists (got ++ g), rest', (sent ++ a), w, (i + j)%nat. rewrite <- drop_drop. split; [done|].
  split; [by rewrite app_assoc, E, <- app_assoc, <- Eg, app_assoc|]. split; [|done].
  rewrite omap_app, Ek, map_app. f_equal. destruct g as [|b [|]]; done || cbn in Hl; lia.
Qed.
Lemma port_io_put k o b s m s' : port_io k o s -> exec R (streamPut chp b) s m s' -> port_io k (o ++ [b]) s'.
Proof.
  intros (got & rest & sent & w & i & Ht & E & Ek & Ew) Hx.
  destruct (port_put chp d R (u8 b) _ _ s m s' HR ltac:(apply Z.mod_pos_bound; lia) Ht Hx) as (a & j & Ht').
  destruct (m =? MSG_OK).
  - exists got, (rest ++ a), (sent ++ a), (w ++ [u8 b]), (i `min` length (c ++ w) + j)%nat.
    rewrite !app_assoc, E, map_app. split; [|split; [done|split; [done|by apply sublist_app]]].
    rewrite <- drop_drop, drop_app_le by lia.
    destruct (Nat.min_spec i (length (c ++ w))) as [[? ->]|[? ->]]; [done|].
    rewrite (drop_ge (c ++ w)) in Ht' by lia. by rewrite drop_all.
  - exists got, (rest ++ a), (sent ++ a), w, (i + j)%nat. rewrite <- drop_drop, !app_assoc, E, map_app.
    split; [done|]. split; [done|]. split; [done|]. by apply sublist_inserts_r.
Qed.
End others.
(** ** A line *)

Lemma echo_key_u8 limit text x : map u8 (echo_key limit text x) = echo_key limit text x.
Proof.
  unfold echo_key. destruct (classify x); [by case_decide| |done].
  destruct (_ <? _)%nat; [|done]. cbn [map]. by rewrite u8_id by apply zchar_range.
Qed.
Lemma echo_u8 limit keys : forall text, map u8 (echo limit text keys) = echo limit text keys.
Proof. induction keys as [|x keys IH]; intros text; cbn [echo]; [done|]. by rewrite map_app, echo_key_u8, IH. Qed.

(** The end of a line is its first one. *)
Lemma first_end keys keys' r r' : Forall (fun x => ends_line x = false) keys -> Forall (fun x => ends_line x = false) keys' ->
  keys ++ CR :: r = keys' ++ CR :: r' -> keys = keys'.
Proof.
  intros Hk. revert keys'. induction Hk as [|x keys Hx Hk IH]; intros [|y keys'] Hk' E; [done|..]; cbn [Datatypes.app] in E.
  - injection E as <- _. apply Forall_cons in Hk' as [Hy _]. by vm_compute in Hy.
  - injection E as -> _. by vm_compute in Hx.
  - injection E as -> E. apply Forall_cons in Hk' as [_ Hk']. f_equal. by apply IH.
Qed.

(** From [bs] to be read and [c] on its way: [got] was read, [rest] is left of what was there and was [sent] since, the
    part [w] of the echo was not refused, and [i] bytes have left. *)
Definition line_read (bs c : list Z) (stop : bool) (line' : list ascii) (s' : S) : Prop :=
  exists keys got rest sent w i, let echoed := echo (SHELL_MAX_LINE_LENGTH - 1) [] keys in
    Forall (fun x => ends_line x = false) keys /\ bs ++ sent = got ++ rest /\ terminal chp d rest (drop i (c ++ w)) s' /\
    if stop then
      (map charz got = keys /\ w `sublist_of` echoed) \/
      exists e, zchar e = 4 /\ map charz got = keys ++ [e] /\ w `sublist_of` echoed ++ [94; 68]
    else map charz got = keys ++ [CR] /\ w `sublist_of` echoed ++ [13; 10] /\
      cstr line' = Some (typed (SHELL_MAX_LINE_LENGTH - 1) keys).

Lemma line_any R bs c line s stop line' s' : host_only chp d R -> length line = SHELL_MAX_LINE_LENGTH ->
  terminal chp d bs c s -> exec R (shellGetLine chp line SHELL_MAX_LINE_LENGTH) s (stop, line') s' ->
  line_read bs c stop line' s'.
Proof.
  intros HR Hline Ht Hx.
  destruct (getline_ok R chp (port_io bs c) (port_io_read R HR bs c) (port_io_put R HR bs c) line SHELL_MAX_LINE_LENGTH [] [] s
    stop line' s') as (keys & Hends & _ & _ & _ & Hr); [unfold SHELL_MAX_LINE_LENGTH; lia|done| |done|].
  { exists [], bs, [], [], O. rewrite !app_nil_r. done. }
  assert (Hk : forall e, omap id (map Some keys ++ [e]) = keys ++ match e with Some e => [e] | None => [] end).
  { intros e. rewrite omap_app. f_equal. clear. induction keys as [|x keys IH]; [done|]. cbn in *. by rewrite IH. }
  cbn [Datatypes.app] in Hr. cbn zeta. destruct stop.
  - destruct Hr as [(got & rest & sent & w & i & Ht' & E & Ek & Ew)|(e & He & got & rest & sent & w & i & Ht' & E & Ek & Ew)];
      rewrite Hk in Ek; rewrite ?map_app, echo_u8 in Ew; exists keys, got, rest, sent, w, i.
    + rewrite app_nil_r in Ek. do 3 (split; [done|]). by left.
    + do 3 (split; [done|]). right. by exists e.
  - destruct Hr as [(got & rest & sent & w & i & Ht' & E & Ek & Ew) Hc]. rewrite Hk in Ek. rewrite map_app, echo_u8 in Ew.
    exists keys, got, rest, sent, w, i. do 3 (split; [done|]). done.
Qed.

End line.
End shell.
End ShellPort.
