(* ===== verification/Firmware.v ===== *)
(** * The program: [source/main.c], and the machine it runs on

    [main] initialises the system and creates the threads.  [machine] is the whole
    system: the state, and for each thread that has started what is left of its program.
    The processor runs the current thread of the kernel up to its next yield; an
    interrupt handler runs between two such steps, and its epilogue may preempt. *)

From S2P Require Import Prelude CLib Prog ThreadQueue Kernel ChVt ChSchd ChThreads ChSys.
From S2P Require Import ChEvents HalQueues HalSerial AppState Sim8xx BoardMonitor.
From S2P Require Import GpsReader SystemThread Peripherals.

Module Firmware.
Import ChSchd ChThreads ChSys HalSerial Sim8xx BoardMonitor GpsReader SystemThread Peripherals.

(** [mmc_lld_is_card_inserted], [mmc_lld_is_write_protected] of [board/board.c]. *)
Definition mmc_lld_is_card_inserted (g : gpio_t) : bool :=
  if decide (PAL_HIGH = palReadLine LINE_SDC_CARD_DETECT g) then true else false.
Definition mmc_lld_is_write_protected : bool := false.

(** The callbacks of the virtual timers. *)
Definition vt_call (f : vtfunc_t) (par : nat) : K unit :=
  match f with
  | vt_wakeup => wakeup par
  | vt_callback 0 => sim_timer_cb
  | vt_callback 1 => monitor_timer_callback
  | vt_callback 2 => gps_timer_callback
  | vt_callback _ => undefined
  end.

Section main.
Context {S : Type} `{!Component S ch_system, !Component S app}.
Context `{!Serial S, !FatFs S, !Mmc S, !Usb S, !Heap S}.
(** [halInit], and the thread of the shell. *)
Context (halInit : M S unit) (shellThread : prog S Empty_set).

Definition heartBeat_turn : prog S unit :=
  Atom (gpio (palToggleLine LINE_LED_3_GREEN));;
  lift (chThdSleepMilliseconds 500).
Definition heartBeatThread : prog S Empty_set :=
  Loop (fun _ : unit => heartBeat_turn;; mret (inl tt)) tt.

Definition main_init : prog S unit :=
  Atom halInit;;
  lift chSysInit;;
  Atom systemThreadInit;;
  lift boardMonitorThreadInit;;
  peripheralManagerThreadInit;;
  Atom (liftM gpsReaderThreadInit);;
  lift (chThdCreateStatic HeartBeatThread NORMALPRIO);;
  lift (chThdCreateStatic SystemThread NORMALPRIO);;
  lift (chThdCreateStatic BoardMonitorThread NORMALPRIO);;
  lift (chThdCreateStatic PeripheralManagerThread NORMALPRIO);;
  lift (chThdCreateStatic GpsReaderThread NORMALPRIO).

Definition main : prog S Empty_set :=
  main_init;;
  Loop (fun _ : unit => lift (chThdSleepMilliseconds 1000);; mret (inl tt)) tt.

(** The functions of the threads; the heap gives 6 to the modem's reader and 7 to the
    shell. *)
Definition thread_body (t : tid) : prog S Empty_set :=
  match t with
  | 0 => main
  | 1 => heartBeatThread
  | 2 => systemThread
  | 3 => boardMonitorThread
  | 4 => peripheralManagerThread
  | 5 => gpsReaderThread
  | 6 => sim8xxReaderThread
  | 7 => shellThread
  | _ => _idle_thread
  end%nat.

(** ** The machine *)

(** What is left of the programs of the threads, by thread. *)
Record machine := Machine {
  m_state : S;
  m_progs : list (prog S Empty_set)
}.

Definition reset (s : S) : machine := Machine s (map thread_body (seq 0 9)).

Fixpoint set_nth {A} (n : nat) (a : A) (l : list A) : list A :=
  match n, l with
  | O, _ :: l => a :: l
  | Datatypes.S n, b :: l => b :: set_nth n a l
  | _, [] => []
  end.

(** One step of the processor. *)
Definition cpu_step (m : machine) : option machine :=
  let t := k_current (proj (m_state m)) in
  match nth_error (m_progs m) t with
  | Some p =>
      match run p (m_state m) with
      | Some (Done e, _) => match e with end
      | Some (More p, s) | Some (Yielded _ p, s) => Some (Machine s (set_nth t p (m_progs m)))
      | None => None
      end
  | None => None
  end.

(** An interrupt. *)
Definition irq (h : M S unit) (m : machine) : option machine :=
  match (h;; liftM irq_epilogue) (m_state m) with
  | Some (_, s) => Some (Machine s (m_progs m))
  | None => None
  end.

(** The interrupt of the system timer.  Every timer fires at most once, but for those the
    callbacks set again. *)
Definition st_irq : M S unit :=
  k ← gets proj;
  liftM (chSysTimerHandlerI vt_call (length (k_vtlist k) + length (k_vtlist k) + 2)).

(** What can happen. *)
Inductive step (others : M S unit -> Prop) : machine -> machine -> Prop :=
  | step_cpu m m' : cpu_step m = Some m' -> step others m m'
  | step_irq h m m' : others h -> irq h m = Some m' -> step others m m'.

(** The processor runs until it is idle. *)
Fixpoint settle (fuel : nat) (m : machine) : option machine :=
  if (k_current (proj (m_state m)) =? idle_thread)%nat then Some m
  else match fuel with
       | O => None
       | Datatypes.S fuel =>
           match cpu_step m with Some m => settle fuel m | None => None end
       end.

Definition at_time (t : Z) : M S unit := alter (set_k_now (fun _ => t)).

(** An interrupt of the idle system and what it leads to. *)
Definition interrupt (h : M S unit) (m : machine) : option machine :=
  match irq h m with Some m => settle 1000 m | None => None end.

(** The idle system up to the time [t]: one interrupt per alarm of the timer. *)
Fixpoint advance (fuel : nat) (t : Z) (m : machine) : option machine :=
  match fuel with
  | O => None
  | Datatypes.S fuel =>
      let k : ch_system := proj (m_state m) in
      match k_alarm k with
      | Some a =>
          if a <=? t then
            match interrupt (at_time a;; st_irq) m with
            | Some m => advance fuel t m
            | None => None
            end
          else interrupt (at_time t) m
      | None => interrupt (at_time t) m
      end
  end.
End main.
#[global] Arguments Machine {S} _ _.
#[global] Arguments m_state {S} _.
#[global] Arguments m_progs {S} _.
End Firmware.
