(* ===== verification/Machine.v ===== *)
(** * The machine: all threads and interrupts together

    The theorems on threads assume what the others do.  Here the assumption is
    discharged: a rely/guarantee argument over the steps of the machine of [Firmware],
    with what each thread and each interrupt of this program leaves alone. *)

From S2P Require Import Prelude CLib Prog ThreadQueue Kernel ChVt ChSchd ChThreads ChSys ChMbox ChEvents.
From S2P Require Import HalQueues HalSerial AppState Sim8xx BoardMonitor GpsReader SystemThread.
From S2P Require Import Peripherals ChHeap Shell Firmware.

Module Machine.
Import ChSchd ChThreads ChSys ChMbox ChEvents ChHeap Shell HalSerial Sim8xx BoardMonitor GpsReader SystemThread Peripherals Firmware.

(** ** Rely and guarantee of one program

    [guar T R p Q s]: whatever [p] does from [s], while the others do steps of [R], are
    steps of [T], and [Q] holds at its end.  The others may also run at the end of a turn
    of a loop, as interrupts of the machine may. *)

Fixpoint guar {S A} (T R : S -> S -> Prop) (p : prog S A) : (A -> S -> Prop) -> S -> Prop :=
  match p with
  | Ret a => fun Q s => Q a s
  | Bind p k => fun Q s => guar T R p (fun a => guar T R (k a) Q) s
  | Atom m => fun Q s => forall a s', m s = Some (a, s') -> T s s' /\ Q a s'
  | Yield w => fun Q s => forall s', R s s' -> Q tt s'
  | Loop body x => fun Q s => exists J, J x s /\
      (forall x s s', J x s -> R s s' -> J x s') /\
      forall x s, J x s ->
        guar T R (body x) (fun r s => match r with inl x => J x s | inr a => Q a s end) s
  end.

Section guar.
Context {S : Type} (T R : S -> S -> Prop) `{!PreOrder T, !PreOrder R}.

Lemma guar_mono {A} (p : prog S A) : forall (Q Q' : A -> S -> Prop) s,
  (forall a s, Q a s -> Q' a s) -> guar T R p Q s -> guar T R p Q' s.
Proof.
  induction p as [A a|A B p IHp k IHk|A m|w|X A body IH x]; intros Q Q' s HQ; simpl.
  - apply HQ.
  - apply IHp. intros a s'. by apply IHk.
  - intros H a s' E. destruct (H a s' E). auto.
  - auto.
  - intros (J & HJ & HR & Hb). exists J. split_and!; [done..|]. intros y s' Hy.
    eapply IH, Hb, Hy. intros [x'|a] s''; auto.
Qed.

(** Up to the next yield or end of a turn. *)
Lemma guar_run {A} (p : prog S A) : forall (Q : A -> S -> Prop) s o s',
  guar T R p Q s -> run p s = Some (o, s') ->
  T s s' /\
  match o with
  | Done a => Q a s'
  | More p' | Yielded _ p' => forall s2, R s' s2 -> guar T R p' Q s2
  end.
Proof.
  induction p as [A a|A B p IHp k IHk|A m|w|X A body IH x]; intros Q s o s' H E; simpl in H, E.
  - by simplify_eq.
  - destruct (run p s) as [[[a|p'|w p'] s1]|] eqn:E1; [| | |done];
      destruct (IHp _ _ _ _ H E1) as [HT Ho].
    + destruct (IHk _ _ _ _ _ Ho E) as [HT' ?]. split; [by etransitivity|done].
    + simplify_eq. done.
    + simplify_eq. done.
  - destruct (m s) as [[a s1]|] eqn:E1; [|done]. simplify_eq. by apply H.
  - by simplify_eq.
  - destruct H as (J & HJ & HR & Hb). pose proof (Hb _ _ HJ) as H.
    destruct (run (body x) s) as [[[[x'|a]|p'|w p'] s1]|] eqn:E1; simplify_eq;
      destruct (IH _ _ _ _ _ H E1) as [HT Ho]; (split; [done|]).
    + intros s2 H2. exists J. eauto.
    + done.
    + intros s2 H2. simpl. eapply guar_mono, Ho, H2. intros [x'|a] s3; simpl; eauto 8.
    + intros s2 H2. simpl. eapply guar_mono, Ho, H2. intros [x'|a] s3; simpl; eauto 8.
Qed.

(** A program within [R]. *)
Lemma within_run {A} (p : prog S A) : forall s o s', within R p -> run p s = Some (o, s') ->
  R s s' /\ match o with Done _ => True | More p' | Yielded _ p' => within R p' end.
Proof.
  induction p as [A a|A B p IHp k IHk|A m|w|X A body IH x]; intros s o s' H E; simpl in H, E.
  - by simplify_eq.
  - destruct H as [Hp Hk].
    destruct (run p s) as [[[a|p'|w p'] s1]|] eqn:E1; [| | |done]; destruct (IHp _ _ _ Hp E1) as [HR Ho].
    + destruct (IHk _ _ _ _ (Hk a) E) as [HR' ?]. split; [by etransitivity|done].
    + by simplify_eq.
    + by simplify_eq.
  - destruct (m s) as [[a s1]|] eqn:E1; [|done]. simplify_eq. split; [by eapply H|done].
  - by simplify_eq.
  - destruct (run (body x) s) as [[[[x'|a]|p'|w p'] s1]|] eqn:E1; simplify_eq;
      destruct (IH _ _ _ _ (H _) E1) as [HR Ho]; (split; [done|]); simpl;
      [done|done|split; [done|by intros [x'|a]]..].
Qed.

(** It keeps what its steps and those of the others keep. *)
Lemma guar_within {A} (p : prog S A) : forall (Q : A -> S -> Prop) s,
  within R p -> (forall s s', R s s' -> T s s') ->
  (forall a s', R s s' -> Q a s') -> guar T R p Q s.
Proof.
  induction p as [A a|A B p IHp k IHk|A m|w|X A body IH x]; intros Q s H HT HQ; simpl in *.
  - by apply HQ.
  - destruct H as [Hp Hk]. apply IHp; [done..|]. intros a s1 H1. apply IHk; [done..|].
    intros b s2 H2. apply HQ. by etransitivity.
  - intros a s' E. apply H in E. auto.
  - auto.
  - exists (fun _ s' => R s s'). split; [done|]. split; [intros; by etransitivity|].
    intros y s1 H1. apply IH; [done..|]. intros [x'|a] s2 H2; [by etransitivity|].
    apply HQ. by etransitivity.
Qed.
End guar.

(** ** Rely and guarantee of the machine *)

Lemma nth_set_nth {A} n (a b : A) l i : nth_error (set_nth n a l) i = Some b ->
  (i = n /\ b = a) \/ (i <> n /\ nth_error l i = Some b).
Proof.
  revert n i. induction l as [|c l IH]; intros [|n] [|i]; simpl; try done; auto.
  - intros [= <-]. by left.
  - intros H. apply IH in H as [[-> ->]|[? ?]]; auto.
Qed.

Section machine.
Context {S : Type} `{!Component S ch_system, !Component S app}.
Context (T R : S -> S -> Prop) `{!PreOrder T, !PreOrder R} (HRT : forall s s', R s s' -> T s s').
Context (others : M S unit -> Prop).
Context (Hirq : forall h, others h -> moves R h) (Hepi : moves R (liftM irq_epilogue)).
Implicit Types (m : machine (S := S)) (t : tid).

(** Of the threads, all but [t] do steps of [R], and [t] does steps of [T]. *)
Definition disciplined t m : Prop :=
  (forall i p, nth_error (m_progs m) i = Some p -> i <> t -> within R p) /\
  (forall p s, nth_error (m_progs m) t = Some p -> R (m_state m) s ->
     guar T R p (fun _ _ => True) s).

(** What was done leaves the programs, or one of them has moved on. *)
Lemma disciplined_others t m s : R (m_state m) s -> disciplined t m ->
  disciplined t (Machine s (m_progs m)).
Proof. intros HR [H1 H2]. split; [exact H1|]. intros p s' Hp Hs. eapply H2; [exact Hp|]. by etransitivity. Qed.

Lemma cpu_step_ok t m m' : cpu_step m = Some m' -> disciplined t m ->
  T (m_state m) (m_state m') /\ disciplined t m'.
Proof.
  unfold cpu_step. set (c := k_current (proj (m_state m))). intros E [H1 H2].
  destruct (nth_error (m_progs m) c) as [p|] eqn:Hp; [|done].
  destruct (run p (m_state m)) as [[o s]|] eqn:Er; [|done].
  assert (exists p', m' = Machine s (set_nth c p' (m_progs m)) /\
    (o = More p' \/ exists w, o = Yielded w p')) as (p' & -> & Ho)
    by (destruct o as [e|p'|w p']; [destruct e| |]; simplify_eq; eauto).
  clear E. cbn [m_state m_progs]. destruct (decide (c = t)) as [Hc|Hc].
  - rewrite Hc in *. destruct (guar_run T R _ _ _ _ _ (H2 p (m_state m) Hp (reflexivity _)) Er) as [HT Hn].
    split; [done|]. split; cbn [m_state m_progs].
    + intros i q [[-> _]|[_ Hq]]%nth_set_nth Hi; [done|]. by eapply H1.
    + intros q s' [[_ ->]|[? _]]%nth_set_nth Hs; [|done].
      destruct Ho as [->|[w ->]]; by apply Hn.
  - destruct (within_run R _ _ _ _ (H1 _ _ Hp Hc) Er) as [HR Hn]. split; [by apply HRT|].
    split; cbn [m_state m_progs].
    + intros i q [[-> ->]|[_ Hq]]%nth_set_nth Hi; [by destruct Ho as [->|[w ->]]|]. by eapply H1.
    + intros q s' [[-> _]|[_ Hq]]%nth_set_nth Hs; [done|]. eapply H2; [exact Hq|]. by etransitivity.
Qed.

Lemma irq_ok t h m m' : others h -> irq h m = Some m' -> disciplined t m ->
  T (m_state m) (m_state m') /\ disciplined t m'.
Proof.
  intros Hh E Hm. unfold irq in E. destruct ((h;; liftM irq_epilogue) (m_state m)) as [[[] s]|] eqn:Er; [|done].
  injection E as <-. assert (HR : R (m_state m) s).
  { refine (moves_bind R h (fun _ => liftM irq_epilogue) (Hirq h Hh) (fun _ => Hepi) _ _ _ Er). }
  split; [by apply HRT|by apply disciplined_others].
Qed.

Lemma steps_ok t m m' : rtc (step others) m m' -> disciplined t m ->
  T (m_state m) (m_state m') /\ disciplined t m'.
Proof.
  induction 1 as [m|m m1 m' H _ IH]; intros Hm; [by split|].
  assert (T (m_state m) (m_state m1) /\ disciplined t m1) as [H1 Hm1]
    by (destruct H; eauto using cpu_step_ok, irq_ok).
  destruct (IH Hm1) as [H2 ?]. split; [by etransitivity|done].
Qed.
End machine.

(** *** The executable runs are runs *)
Lemma steps_trans {A : Type} (R : A -> A -> Prop) x y z : rtc R x y -> rtc R y z -> rtc R x z.
Proof. induction 1; [done|]. intros. eapply rtc_l; eauto. Qed.

Section runs.
Context {S : Type} `{!Component S ch_system}.
Context (others : M S unit -> Prop).
Implicit Types (m : machine (S := S)).

Lemma settle_steps fuel : forall m m', settle fuel m = Some m' -> rtc (step others) m m'.
Proof.
  induction fuel as [|fuel IH]; intros m m'; cbn [settle]; destruct (_ =? _)%nat;
    [intros [= <-]; apply rtc_refl|done|intros [= <-]; apply rtc_refl|].
  destruct (cpu_step m) as [m1|] eqn:E; [|done]. intros H. eapply rtc_l; [by apply step_cpu|by apply IH].
Qed.

Lemma interrupt_steps h m m' : others h -> interrupt h m = Some m' -> rtc (step others) m m'.
Proof.
  intros Hh. unfold interrupt. destruct (irq h m) as [m1|] eqn:E; [|done]. intros H.
  eapply rtc_l; [by eapply step_irq|by eapply settle_steps].
Qed.

Lemma advance_steps (Htime : forall t, others (at_time t)) (Hst : forall t, others (at_time t;; st_irq))
  fuel t : forall m m', advance fuel t m = Some m' -> rtc (step others) m m'.
Proof.
  induction fuel as [|fuel IH]; intros m m'; cbn [advance]; [done|].
  assert (Hend : interrupt (at_time t) m = Some m' -> rtc (step others) m m')
    by (apply interrupt_steps, Htime).
  destruct (k_alarm _) as [a|]; [|exact Hend]. destruct (a <=? t); [|exact Hend].
  destruct (interrupt (at_time a;; st_irq) m) as [m1|] eqn:E; [|intros H; discriminate H]. intros H.
  eapply steps_trans; [eapply interrupt_steps, E; apply Hst|by apply IH].
Qed.
End runs.

(** ** What the threads leave alone

    [f] observes a part of the application. *)

Section frames.
Context {S : Type} `{!Component S ch_system, !Component S app, !Apart S ch_system app}.
Context `{!Serial S, !SerialSpec S, !FatFs S, !FatFsSpec S, !Mmc S, !Usb S, !Heap S}.
Context {X : Type} (f : app -> X).
Let T : S -> S -> Prop := same (fun s => f (proj s)).
Context `{!MmcSpec (fun s : S => f (proj s)), !UsbSpec (fun s : S => f (proj s))}.
Context `{!HeapSpec (fun s : S => f (proj s))}.

#[local] Instance T_preorder : PreOrder T. Proof. apply same_preorder. Qed.

Lemma within_bind {A B} (p : prog S A) (k : A -> prog S B) :
  within T p -> (forall a, within T (k a)) -> within T (p ≫= k).
Proof. by split. Qed.
Lemma within_ret {A} (a : A) : within T (mret a).
Proof. done. Qed.
Lemma within_loop {Y A} (body : Y -> prog S (Y + A)) y :
  (forall y, within T (body y)) -> within T (Loop body y).
Proof. done. Qed.
Lemma within_atom {A} (m : M S A) : moves T m -> within T (Atom m).
Proof. done. Qed.
Lemma moves_kernel {A} (m : M ch_system A) : moves T (liftM m).
Proof. exact (frame_lift f A (Atom m)). Qed.
Lemma moves_appl : moves T appl.
Proof. by intros s a s' [= _ <-]. Qed.
Lemma moves_on_app g : (forall a, f (g a) = f a) -> moves T (on_app g).
Proof. intros Hg s [] s'. by apply frame_on_app. Qed.

(** Follow the structure of a program; [f] does not observe what it sets. *)
Ltac frame_step :=
  match goal with
  | H : ?P |- ?P => exact H
  | H : within _ ?p |- within _ ?p => exact H
  | H : forall _, within _ (?p _) |- within _ (?p _) => apply H
  | H : forall _ _, within _ (?p _ _) |- within _ (?p _ _) => apply H
  | H : forall _ _ _, within _ (?p _ _ _) |- within _ (?p _ _ _) => apply H
  | |- within _ (lift _) => apply frame_lift
  | |- within _ (Atom config) => apply frame_config
  | |- within _ (chprintf _ _ _) => apply frame_print
  | |- within _ resume_reader => apply frame_resume
  | |- within _ (mret _) => exact I
  | |- within _ (Yield _) => exact I
  | |- within _ (_ ≫= _) => apply within_bind; [|intros ?]
  | |- within _ (Loop _ _) => apply within_loop; intros ?
  | |- within _ (Atom _) => apply within_atom
  | |- within _ (match ?x with _ => _ end) => destruct x
  | |- moves _ (liftM _) => apply moves_kernel
  | H : forall A (m : M _ A), moves _ (liftM m) |- moves _ (liftM _) => apply H
  | |- moves _ appl => apply moves_appl
  | |- moves _ (on_app _) => apply moves_on_app; intros ?; solve [reflexivity | auto]
  | |- moves _ (_ ≫= _) => apply (moves_bind T); [|intros ?]
  | |- moves _ (mret _) => apply (moves_ret T)
  | |- moves _ (deref _) => apply (moves_deref T)
  | |- moves _ undefined => apply (moves_undefined T)
  | |- moves _ (match ?x with _ => _ end) => destruct x
  end.
Ltac frame_tac := repeat frame_step.

Lemma log_frame name data : within T (save_buffer name data).
Proof.
  destruct (fat_frame T) as (Ho & Hw & Hc & _); [by intros; apply frame_app|].
  unfold save_buffer. frame_tac; auto.
Qed.

(** *** The modem's reader: it changes the driver only *)
Lemma reader_frame : (forall g a, f (set_SIM8D1 g a) = f a) -> within T sim8xxReaderThread.
Proof.
  intros Hsim. destruct (serial_frame T _) as (_ & _ & Hget & Hsrc); [by intros; apply frame_app|].
  assert (Hstore : forall c, moves T (store_char c)).
  { intros c. apply (moves_update T). intros s s' E. simplify_option_eq.
    unfold T, same. by rewrite proj_inj, Hsim. }
  pose proof log_frame as Hlog.
  unfold sim8xxReaderThread, reader_turn, collect, process_message, process_response, process_urc,
    rx_status, drain, on_sim.
  frame_tac; [exact (Hsrc _)|apply Hstore].
Qed.

(** *** The polling thread: its counters *)
Lemma dispatch_frame (hs : list (Z -> prog S unit)) events :
  (forall i h id, hs !! i = Some h -> within T (h id)) -> within T (chEvtDispatch hs events).
Proof.
  intros Hh. unfold chEvtDispatch. generalize 32%nat as fuel. intros fuel.
  generalize 0%nat as eid. revert events.
  induction fuel as [|fuel IH]; intros events eid; cbn [dispatch_loop].
  - destruct (events =? 0); [done|]. frame_tac.
  - destruct (events =? 0); [done|]. destruct (negb _); [|by apply IH].
    destruct (hs !! eid) as [h|] eqn:E; [|frame_tac].
    apply within_bind; [by eapply Hh|]. intros _. apply IH.
Qed.

Lemma monitor_frame : (forall g a, f (set_sdcard_counter g a) = f a) ->
  (forall g a, f (set_usb_counter g a) = f a) -> within T boardMonitorThread.
Proof.
  intros Hsd Husb. unfold boardMonitorThread. frame_tac. apply dispatch_frame.
  intros [|?] h id [= <-]. unfold timerEventHandler, checkSdcard, checkUsb, isSdcardInserted,
    isUsbConnected, readLine. frame_tac.
Qed.

(** *** The GPS reader: the command, its error and the dashboard *)
Lemma gps_frame : (forall g a, f (set_cmd g a) = f a) -> (forall g a, f (set_error g a) = f a) ->
  (forall g a, f (set_position g a) = f a) -> within T gpsReaderThread.
Proof.
  intros Hcmd Herr Hpos. pose proof (execute_frame f Hcmd) as Hex. pose proof log_frame as Hlog.
  unfold gpsReaderThread, gps_update, parse_response, create_request, on_cmd, set_err, savePosition,
    dbLock, dbUnlock, logGpsData, saveBuffer.
  frame_tac.
Qed.

Lemma power_frame create err : (forall g a, f (set_cmd g a) = f a) ->
  (forall g a, f (set_error g a) = f a) -> within T (gps_power create err).
Proof.
  intros Hcmd Herr. pose proof (execute_frame f Hcmd) as Hex.
  unfold gps_power, create_request, on_cmd, set_err. frame_tac.
Qed.

(** *** The modem's power: the driver and a line *)
Lemma modem_frame : (forall g a, f (set_SIM8D1 g a) = f a) -> (forall g a, f (set_a_gpio g a) = f a) ->
  within T connectModem /\ within T disconnectModem.
Proof.
  intros Hsim Hgpio. pose proof (connected_frame f Hsim) as Hc. pose proof (toggle_frame f Hgpio) as Ht.
  unfold connectModem, disconnectModem. split; frame_tac.
Qed.

(** *** The peripheral manager: the file system's flag, the shell and a lamp *)
Lemma heap_thread_frame prio : within T (chThdCreateFromHeap prio).
Proof. pose proof heap_frame as Hh. unfold chThdCreateFromHeap, ChSchd.chSchWakeupS, locked. frame_tac. Qed.

Lemma manager_frame : (forall g a, f (set_fsReady g a) = f a) -> (forall g a, f (set_a_gpio g a) = f a) ->
  (forall g a, f (set_shelltp g a) = f a) -> within T peripheralManagerThread.
Proof.
  intros Hfs Hgpio Hshell. pose proof heap_thread_frame as Hheap.
  destruct (fat_frame T) as (_ & _ & _ & _ & _ & Hmount & _); [by intros; apply frame_app|].
  pose proof (mmcStart_frame (f := fun s : S => f (proj s))) as H1.
  pose proof (mmcConnect_frame (f := fun s : S => f (proj s))) as H2.
  pose proof (mmcDisconnect_frame (f := fun s : S => f (proj s))) as H3.
  pose proof (mmcStop_frame (f := fun s : S => f (proj s))) as H4.
  pose proof (sduStart_frame (f := fun s : S => f (proj s))) as H5.
  pose proof (sduStop_frame (f := fun s : S => f (proj s))) as H6.
  pose proof (usbStart_frame (f := fun s : S => f (proj s))) as H7.
  pose proof (usbStop_frame (f := fun s : S => f (proj s))) as H8.
  pose proof (usbConnectBus_frame (f := fun s : S => f (proj s))) as H9.
  pose proof (usbDisconnectBus_frame (f := fun s : S => f (proj s))) as H10.
  unfold peripheralManagerThread, manager_setup, debugShellInit, sdcardInit.
  frame_tac; [apply mmcObjectInit_frame|intros s [] s'; apply sduObjectInit_frame|].
  apply dispatch_frame. intros i h id Hi.
  destruct i as [|[|[|[|[|i]]]]]; try done; injection Hi as <-;
    unfold sdcardInsertedHandler, sdcardRemovedHandler, usbConnectedHandler, usbDisconnectedHandler,
      debugShellTerminatedHandler, sdcardMount, sdcardUnmount, debugShellStart, debugShellStop,
      debugShellTerminated, shell_wait, gpio; frame_tac.
Qed.

(** *** The shell: the path of its command [tree] *)
Lemma tree_frame fuel chp args : (forall g a, f (set_fbuff g a) = f a) -> within T (sdcardCmdTree fuel chp args).
Proof.
  intros Hbuf. destruct (fat_frame T) as (_ & _ & _ & Hopen & Hread & _ & Hfree & Hcs); [by intros; apply frame_app|].
  assert (Hscan : forall fuel, within T (scanFiles fuel chp)).
  { clear fuel. induction fuel as [|fuel IH]; cbn [scanFiles]; unfold on_fbuff; frame_tac. }
  unfold sdcardCmdTree, on_fbuff. frame_tac. apply Hscan.
Qed.

Section shell_frame.
Context `{!Component S memory, !Apart S memory app, !Stream S}.
Context (mtx_of : Z -> nat) (default_heap : Z) (build : build_info).
Context (cmd_threads cmd_test : nat -> list ascii -> list nat -> prog S unit).
Context (sc_commands : option (list (ShellCommand S))).
Context (Hread : forall chp, within T (streamRead chp)).
Context (Hthreads : forall chp line argv, within T (cmd_threads chp line argv)).
Context (Htest : forall chp line argv, within T (cmd_test chp line argv)).
Context (Hcmds : forall scp c chp line argv, sc_commands = Some scp -> In c scp -> within T (sc_function c chp line argv)).

Lemma moves_memory {A} (m : M memory A) : moves T (liftM m).
Proof.
  intros s a s'. unfold liftM. destruct (m (proj s)) as [[b k]|]; [|done]. intros [= <- <-].
  unfold T, same. by rewrite (apart_l k).
Qed.
Lemma put_frame chp b : within T (streamPut chp b).
Proof. destruct (serial_frame T _) as (_ & Hput & _); [by intros; apply frame_app|]. apply Hput. Qed.

Lemma getline_frame chp line size : within T (shellGetLine chp line size).
Proof. pose proof put_frame as Hput. unfold shellGetLine, getline_turn. frame_tac. Qed.

Lemma cmdexec_frame scp chp name line argv :
  (forall c, In c scp -> within T (sc_function c chp line argv)) -> within T (cmdexec scp chp name line argv).
Proof.
  induction scp as [|c scp IH]; intros Hc; cbn [cmdexec]; [done|].
  pose proof (Hc c ltac:(by left)) as H. frame_tac. intros c' Hin. apply Hc. by right.
Qed.

Lemma local_frame c chp line argv :
  In c (shell_local_commands mtx_of default_heap build cmd_threads cmd_test) -> within T (sc_function c chp line argv).
Proof.
  pose proof (@moves_memory) as Hm.
  intros Hc. cbn in Hc.
  repeat (destruct Hc as [<-|Hc]; [cbn [sc_function]|]); [..|done];
    unfold cmd_exit, cmd_info, cmd_echo, cmd_systime, cmd_mem, shellUsage, shellExit, never, chHeapStatus, H_LOCK, H_UNLOCK, locked;
    frame_tac.
Qed.

Lemma shell_frame chp line :
  within T (Shell.shellThread mtx_of default_heap build cmd_threads cmd_test sc_commands chp line).
Proof.
  pose proof getline_frame as Hget.
  assert (Hlist : forall scp, within T (list_commands chp scp)).
  { induction scp as [|c scp IH]; cbn [list_commands]; frame_tac. }
  unfold Shell.shellThread, shell_line, shell_parsed, unknown_command, shellUsage, shellExit, never. frame_tac.
  - apply cmdexec_frame. intros c Hc. by apply local_frame.
  - apply cmdexec_frame. intros c Hc. by eapply Hcmds.
Qed.
End shell_frame.

(** *** The main thread and the lamp *)
Lemma heartBeat_frame : (forall g a, f (set_a_gpio g a) = f a) -> within T heartBeatThread.
Proof. intros Hgpio. unfold heartBeatThread, heartBeat_turn, gpio. frame_tac. Qed.

Lemma main_frame halInit : moves T halInit -> (forall g a, f (set_SIM8D1 g a) = f a) ->
  (forall g a, f (set_position g a) = f a) -> within T (main halInit).
Proof.
  intros Hhal Hsim Hpos. pose proof heap_thread_frame as Hheap.
  destruct (serial_frame T _) as (Hstart & _); [by intros; apply frame_app|].
  unfold main, main_init, systemThreadInit, dbInit, peripheralManagerThreadInit, sim8xxInit, sim8xxStart, on_sim.
  frame_tac.
Qed.
End frames.

(** ** The system's state machine *)

(** One event of the abstract machine. *)
Definition sys_step (a b : SystemState_t) : Prop := exists evt, b = next_state a evt.

Section system.
Context {S : Type} `{!Component S ch_system, !Component S app, !Apart S ch_system app}.
Context `{!Serial S, !SerialSpec S, !FatFs S, !FatFsSpec S, !Mmc S, !Usb S, !Heap S}.
Context `{!MmcSpec (sysst (S := S)), !UsbSpec (sysst (S := S)), !HeapSpec (sysst (S := S))}.
Let R : S -> S -> Prop := same sysst.
Let T (s s' : S) : Prop := rtc sys_step (sysst s) (sysst s').

#[local] Instance R_preorder : PreOrder R. Proof. apply same_preorder. Qed.
#[local] Instance system_preorder : PreOrder T.
Proof. split; [intros s; apply rtc_refl|]. unfold T. intros s1 s2 s3 H1 H2. by etransitivity. Qed.

Lemma same_T s s' : R s s' -> T s s'.
Proof. intros H. unfold T. rewrite H. apply rtc_refl. Qed.

Lemma init_handler_guar evt (Q : SystemState_t -> S -> Prop) s :
  (forall s', R s s' -> Q (next_state SYSTEM_INIT evt) s') -> guar T R (systemInitHandler evt) Q s.
Proof.
  intros HQ. unfold systemInitHandler, next_state in *.
  destruct (modem_frame (S := S) sys_state) as [Hc Hd]; [done..|].
  assert (Hp : forall create err, within R (gps_power create err))
    by (intros; by apply (power_frame sys_state)).
  assert (Hl : forall A (p : prog ch_system A), within R (lift p)) by apply (frame_lift sys_state).
  destruct (evt =? SYS_EVT_IGNITION_ON); [|destruct (evt =? SYS_EVT_IGNITION_OFF)].
  - apply (guar_within T R connectModem); [done|apply same_T|]. intros [] s1 H1.
    apply (guar_within T R gpsReaderStart); [by split; [apply Hp|intros []; apply Hl]|apply same_T|]. intros [] s2 H2. apply HQ. by etransitivity.
  - apply (guar_within T R gpsReaderStop); [by split; [apply Hl|intros []; apply Hp]|apply same_T|]. intros [] s1 H1.
    apply (guar_within T R disconnectModem); [done|apply same_T|]. intros [] s2 H2. apply HQ. by etransitivity.
  - by apply HQ.
Qed.

(** The thread of [SystemThread.c] does steps of the abstract machine only. *)
Lemma systemThread_guar s : guar T R systemThread (fun _ _ => True) s.
Proof.
  exists (fun _ _ => True). split; [done|]. split; [done|]. intros [] s0 _.
  assert (Hl : forall A (p : prog ch_system A), within R (lift p)) by apply (frame_lift sys_state).
  apply (guar_within T R (lift (chMBFetchTimeout systemMailbox TIME_INFINITE))); [done|apply same_T|].
  intros [msg oevt] s1 _. cbn beta iota. destruct (msg =? MSG_OK); [|done].
  destruct oevt as [evt|]; [|done]. intros a s2 [= <- <-]. split; [reflexivity|].
  assert (Hset : forall st s', R s1 s' -> T s' (inj (set_sys_state (fun _ => st) (proj s')) s') <->
    rtc sys_step (sysst s1) st).
  { intros st s' H. unfold T, sysst. rewrite proj_inj. unfold R, same, sysst in H. by rewrite H. }
  assert (Hend : forall st s', R s1 s' -> rtc sys_step (sysst s1) st ->
    guar T R (Atom (on_app (set_sys_state (fun _ => st)));; mret (inl tt))
      (fun (r : unit + Empty_set) s => match r with inl _ | inr _ => True end) s').
  { intros st s' H Hst b s3 E. unfold on_app, alter, modify in E. injection E as _ <-.
    split; [by apply Hset|done]. }
  fold (sysst s1). destruct (sysst s1).
  - apply (init_handler_guar evt). intros s' H. apply (Hend _ _ H).
    apply rtc_once. by exists evt.
  - apply (Hend _ s1); [reflexivity|apply rtc_refl].
  - apply (Hend _ s1); [reflexivity|apply rtc_refl].
  - apply (Hend _ s1); [reflexivity|apply rtc_refl].
Qed.

(** What the abstract machine can do. *)
Lemma sys_steps_ok a b : rtc sys_step a b ->
  match a with SYSTEM_INIT => b <> SYSTEM_TRACKING | st => b = st end.
Proof.
  induction 1 as [a|a a1 b [evt ->] _ IH]; [by destruct a|].
  destruct a; [|exact IH..]. unfold next_state in IH.
  destruct (evt =? SYS_EVT_IGNITION_ON); [by subst|]. by destruct (evt =? SYS_EVT_IGNITION_OFF); [subst|].
Qed.

Context (halInit : M S unit) (shellThread : prog S Empty_set).

Lemma reset_disciplined s : moves R halInit -> within R shellThread ->
  disciplined T R 2 (reset halInit shellThread s).
Proof.
  intros Hhal Hshell. split; cbn [reset m_progs m_state].
  - intros i p Hp Hi.
    destruct i as [|[|[|[|[|[|[|[|[|i]]]]]]]]]; cbn in Hp; [injection Hp as <-..|by destruct i].
    + by apply (main_frame sys_state).
    + by apply (heartBeat_frame sys_state).
    + done.
    + by apply (monitor_frame sys_state).
    + by apply (manager_frame sys_state).
    + by apply (gps_frame sys_state).
    + by apply (reader_frame sys_state).
    + done.
    + by repeat split.
  - intros p s' [= <-] _. apply systemThread_guar.
Qed.

(** C6: in every run of the whole machine, whatever the order in which threads and interrupts
    run, the variable [state] of the system thread follows its state machine: from any reachable
    machine on it does steps of [sys_step]; so it never is [SYSTEM_TRACKING] after
    [SYSTEM_INIT], and [SYSTEM_PARKING] and [SYSTEM_RIDING] are never left.  The interrupts, the
    shell and [halInit] do not write the variable. *)
Theorem system_refines others s m m' :
  moves R halInit -> within R shellThread -> (forall h, others h -> moves R h) ->
  rtc (step others) (reset halInit shellThread s) m -> rtc (step others) m m' ->
  rtc sys_step (sysst (m_state m)) (sysst (m_state m')) /\
  match sysst (m_state m) with
  | SYSTEM_INIT => sysst (m_state m') <> SYSTEM_TRACKING
  | st => sysst (m_state m') = st
  end.
Proof.
  intros Hhal Hshell Hirq H1 H2.
  assert (Hepi : moves R (liftM irq_epilogue)) by apply (moves_kernel sys_state).
  apply (steps_ok T R same_T others Hirq Hepi 2) in H1 as [_ Hd]; [|by apply reset_disciplined].
  apply (steps_ok T R same_T others Hirq Hepi 2) in H2 as [HT _]; [|done].
  split; [exact HT|]. pose proof (sys_steps_ok _ _ HT) as H. by destruct (sysst (m_state m)).
Qed.
End system.
End Machine.
