(* ===== verification/Board.v ===== *)
(** * A board to run the program on

    The state of the whole system, its components, and drivers for the parts behind the
    interfaces: a modem at the other end of the serial line, a card reader without card
    and a USB bus nobody enumerates.  [main] runs on it from reset, by computation. *)

From S2P Require Import Prelude CLib CDouble AtUtil AtCommands Prog ThreadQueue Kernel.
From S2P Require Import ChVt ChSchd ChSem ChThreads ChSys ChMbox ChEvents ChMtx Checks.
From S2P Require Import HalQueues HalSerial AppState Sim8xx BoardMonitor GpsReader.
From S2P Require Import SystemThread Peripherals ChHeap Shell SerialChannel Firmware.

(** The components of the state. *)
Record board := Brd {
  b_ch : ch_system;
  b_queues : io_queues;
  b_serial : sdrivers;
  b_app : app;
  b_mem : memory
}.

#[global] Instance board_ch : Component board ch_system.
Proof. by refine (Build_Component _ _ b_ch (fun k s => Brd k (b_queues s) (b_serial s) (b_app s) (b_mem s)) _ _ _); intros; destruct s. Defined.
#[global] Instance board_queues : Component board io_queues.
Proof. by refine (Build_Component _ _ b_queues (fun q s => Brd (b_ch s) q (b_serial s) (b_app s) (b_mem s)) _ _ _); intros; destruct s. Defined.
#[global] Instance board_serial : Component board sdrivers.
Proof. by refine (Build_Component _ _ b_serial (fun d s => Brd (b_ch s) (b_queues s) d (b_app s) (b_mem s)) _ _ _); intros; destruct s. Defined.
#[global] Instance board_app : Component board app.
Proof. by refine (Build_Component _ _ b_app (fun a s => Brd (b_ch s) (b_queues s) (b_serial s) a (b_mem s)) _ _ _); intros; destruct s. Defined.
#[global] Instance board_mem : Component board memory.
Proof. by refine (Build_Component _ _ b_mem (fun m s => Brd (b_ch s) (b_queues s) (b_serial s) (b_app s) m) _ _ _); intros; destruct s. Defined.

#[global] Instance ch_queues_apart : Apart board ch_system io_queues. Proof. by split. Qed.
#[global] Instance ch_serial_apart : Apart board ch_system sdrivers. Proof. by split. Qed.
#[global] Instance ch_app_apart : Apart board ch_system app. Proof. by split. Qed.
#[global] Instance queues_serial_apart : Apart board io_queues sdrivers. Proof. by split. Qed.
#[global] Instance queues_app_apart : Apart board io_queues app. Proof. by split. Qed.
#[global] Instance serial_app_apart : Apart board sdrivers app. Proof. by split. Qed.
#[global] Instance mem_app_apart : Apart board memory app. Proof. by split. Qed.
#[global] Instance ch_mem_apart : Apart board ch_system memory. Proof. by split. Qed.

(** The notification enables an interrupt; that interrupt is a step of the machine. *)
#[global] Instance board_notify : QNotify board := fun _ => mret tt.
#[global] Instance board_lld : SerialLLD board := {
  sd_lld_start _ := mret tt;
  sd_lld_stop _ := mret tt
}.
#[global] Instance board_lld_spec : SerialChannel.LldSpec (S := board).
Proof. split; [intros qp s; by exists s|by intros sdp s s' [= <-]]. Qed.

(** No card: the calls fail. *)
#[global] Instance board_fat : FatFs board := {
  DIR := unit;
  f_mount := mret 3;
  f_open _ := mret 3;
  f_write _ := mret 3;
  f_close := mret 3;
  f_getfree := mret (3, 0);
  f_opendir _ := mret (3, tt);
  f_readdir _ := mret (3, ([], false), tt);
  csize := mret 0
}.
#[global] Instance board_fat_spec : FatFsSpec board.
Proof. intros T HT. repeat split. intros s a s' [= _ <-]. by apply HT. Qed.
#[global] Instance board_mmc : Mmc board := {
  mmcObjectInit := mret tt;
  mmcStart := mret tt;
  mmcConnect := mret true;
  mmcDisconnect := mret false;
  mmcStop := mret tt
}.
(** The host is a line nobody reads from or writes to, behind two queues. *)
Definition sdu1_host : SerialDriver := SerialDrv SD_UNINIT 9 2 3.
#[global] Instance board_usb : Usb board := {
  sduObjectInit := HalSerial.sdObjectInit Peripherals.SDU1 sdu1_host;
  sduStart := mret tt;
  sduStop := mret tt;
  usbStart := mret tt;
  usbStop := mret tt;
  usbConnectBus := mret tt;
  usbDisconnectBus := mret tt
}.
#[global] Instance board_usb_spec {X} (f : app -> X) : UsbSpec (fun s : board => f (proj s)).
Proof. split; try done. by intros s s' [= <-]. Qed.

(** Nobody types: a read of the shell waits. *)
#[global] Instance board_stream : Shell.Stream board := fun _ =>
  Loop (fun _ : unit => lift (ChThreads.chThdSleepMilliseconds 1000);; mret (inl tt)) tt.

(** The first thread made is the modem's reader, the next one the shell. *)
#[global] Instance board_heap : Heap board :=
  Atom (gets (fun s =>
    match k_threads (b_ch s) !! 6%nat with None => Some 6%nat | Some _ => Some 7%nat end)).

Module Board.
Import ChVt ChSchd ChSem ChSys ChEvents ChMtx Checks HalQueues HalSerial Sim8xx BoardMonitor Peripherals Shell Firmware.

(** ** Reset *)

(** Memory after reset: static data is zero, the counters of the debouncing are at their
    initial values.  The event source of the shell is used before it is initialised. *)
Definition ch_reset : ch_system :=
  Ch ∅ [] 0 ∅ ∅ ∅ (list_to_map [(SIM8D1_writer, None); (SIM8D1_reader, None)])
    {[ shell_terminated := [] ]} ∅ ∅ []
    (list_to_map [(guard_timer, VTimer None 0); (monitorTimer, VTimer None 0); (gpsTimer, VTimer None 0)])
    0 0 None.

(** The lines: no card, no USB power; the outputs as [board/board.h] sets them. *)
Definition gpio_reset : gpio_t := Gpio (fun _ => false) (fun _ => true).

Definition app_reset : app :=
  App gpio_reset (Sim SIM8XX_UNINIT None (zeros 512) 0)
    (Command (zeros 512) (zeros 512) SIM8XX_OK) GPS_ERROR_NO_ERROR GpsReader.position_zero SYSTEM_INIT
    DEBOUNCE_COUNTER_START DEBOUNCE_COUNTER_START false (zeros 1024) None.

Definition board_reset : board := Brd ch_reset ∅ ∅ app_reset (Memory ∅ (MemCore 0 0)).

(** The serial driver [SD1]: its event source and queues. *)
Definition sd1_event : nat := 8.
Definition sd1_iqueue : nat := 0.
Definition sd1_oqueue : nat := 1.

(** The part of [halInit] the model has: [sdInit]. *)
Definition halInit : M board unit :=
  sdObjectInit SD1 (SerialDrv SD_UNINIT sd1_event sd1_iqueue sd1_oqueue).

(** The shell of the program, with no mutexes and no memory for a heap; the commands that
    are not modelled do nothing. *)
Definition no_command (chp : nat) (line : list ascii) (argv : list nat) : prog board unit := mret tt.
Definition build : build_info :=
  BuildInfo "5.1.0" "GCC" "ARMv7E-M" "Cortex-M4" "Advanced kernel mode" "STM32L4xx"
    "G-track GPS tracker v1.0" "date" "time".
Definition shellThread : prog board Empty_set :=
  Shell.shellThread (fun _ => O) 0 build no_command no_command (Some (commands 8)) SDU1 (zeros SHELL_MAX_LINE_LENGTH).

Abbreviation board_machine := (machine (S := board)).
Definition start : board_machine := reset halInit shellThread board_reset.

(** ** What happens on the board *)

(** Steps that may fail, in sequence. *)
Definition and_then (m : option board_machine) (f : board_machine -> option board_machine)
    : option board_machine :=
  match m with Some x => f x | None => None end.
#[local] Notation "m >> f" := (and_then m f) (at level 50, left associativity).

Definition set_line (l : ioline_t) (b : bool) : M board unit :=
  alter (set_a_gpio (fun g => Gpio (fun l' => if decide (l' = l) then b else IDR g l') (ODR g))).
Definition input (l : ioline_t) (b : bool) : board_machine -> option board_machine :=
  interrupt (set_line l b).

(** The transmitter takes the bytes of the output queue, the receiver is given bytes, one
    interrupt each. *)
Fixpoint transmit (fuel : nat) : M board unit :=
  match fuel with
  | O => mret tt
  | S fuel => b ← sdRequestDataI SD1; if b <? 0 then mret tt else transmit fuel
  end.
Definition tx : board_machine -> option board_machine :=
  interrupt (transmit SERIAL_BUFFERS_SIZE).
Fixpoint receive (bs : list ascii) (m : board_machine) : option board_machine :=
  match bs with
  | [] => Some m
  | b :: bs => interrupt (sdIncomingDataI SD1 (zchar b)) m >> receive bs
  end.

(** The time in milliseconds; the alarms up to then are at most [fuel]. *)
Definition wait_until (ms : Z) : board_machine -> option board_machine :=
  advance 2000 (chTimeMS2I ms).

Definition line (text : string) : list ascii := str text ++ CRLF.

Definition boot : option board_machine := settle 1000 start.

(** USB power is connected two seconds after the start. *)
Definition ignition : option board_machine :=
  boot >> wait_until 2000 >> input LINE_USB_VBUS_SENSE true >> wait_until 2200.

(** The modem answers. *)
Definition connected : option board_machine :=
  ignition >> tx >> receive (line "" ++ line "OK") >> wait_until 2600.
Definition riding : option board_machine :=
  connected >> tx >> receive (line "AT+CGNSPWR=1" ++ line "OK") >> wait_until 2900.

Definition report : list ascii :=
  line "+CGNSINF: 1,1,20180612103045.000,47.497912,19.040235,101.300,12.50,180.0,1,,0.9,1.2,0.8,,11,7,,,42,,".
Definition located : option board_machine :=
  riding >> tx >> receive (line "AT+CGNSINF" ++ report ++ line "" ++ line "OK").

(** The modem does not answer for two seconds. *)
Definition silent : option board_machine := ignition >> wait_until 7000.

(** The modem sends lines that are no status: 600 characters. *)
Definition flooded (n : nat) : option board_machine := boot >> wait_until 2000 >> receive (replicate n "x"%char).

(** ** Runs of the program *)

(** A run ends without undefined behaviour, in a state with [P]. *)
Definition reaches (P : board -> Prop) (o : option board_machine) : Prop :=
  match o with Some m => P (m_state m) | None => False end.

Lemma reaches_check (c : board -> bool) (P : board -> Prop) o :
  (forall s, c s = true -> P s) ->
  match o with Some m => c (m_state m) | None => false end = true -> reaches P o.
Proof. intros Hc. destruct o; [apply Hc|done]. Qed.

(** All invariants of the kernel. *)
Record kernel_ok (k : ch_system) : Prop := {
  ko_top : top k;
  ko_vt : vt_ok k;
  ko_sems : sems_ok k;
  ko_evt : evt_ok k;
  ko_mtx : mtx_ok k
}.
Definition kernel_check (k : ch_system) : bool :=
  top_check k && vt_check k && sems_check k && evt_check k && mtx_check k.
Lemma kernel_check_ok k : kernel_check k = true -> kernel_ok k.
Proof.
  unfold kernel_check. intros H. checks. split;
    [by apply top_check_ok|by apply vt_check_ok|by apply sems_check_ok|by apply evt_check_ok|by apply mtx_check_ok].
Qed.

(** The output queue of the serial line. *)
Definition sent (s : board) : option (list ascii) :=
  (fun q => charz <$> oq_content q) <$> b_queues s !! sd1_oqueue.

(** Each thread waits for what its loop waits for. *)
Definition idle_state (s : board) : Prop :=
  let k := b_ch s in
  k_current k = idle_thread /\ k_rlist k = [] /\
  SystemThread ∈ queue_of k (q_mb_r systemMailbox) /\
  wview k BoardMonitorThread = Some (CH_STATE_WTOREVT, u_ewmask ALL_EVENTS) /\
  queue_of k (q_sem gpsSem) = [GpsReaderThread] /\
  wview k 6%nat = Some (CH_STATE_WTOREVT, u_ewmask (EVENT_MASK 7)) /\
  fst <$> wview k HeartBeatThread = Some CH_STATE_SLEEPING /\
  fst <$> wview k mainthread = Some CH_STATE_SLEEPING /\
  remaining k monitorTimer = Some (chTimeMS2I POLLING_DELAY) /\
  sim_state (SIM8D1 (b_app s)) = SIM8XX_READY /\ sys_state (b_app s) = SYSTEM_INIT.

#[global] Instance idle_state_dec s : Decision (idle_state s) := _.

(** [P] with all invariants, decided. *)
Definition sound (P : board -> Prop) (s : board) : Prop := kernel_ok (b_ch s) /\ P s.
Lemma sound_run (P : board -> Prop) `{!forall s, Decision (P s)} o :
  match o with Some m => kernel_check (b_ch (m_state m)) && bool_decide (P (m_state m)) | None => false end = true ->
  reaches (sound P) o.
Proof.
  refine (reaches_check (fun s => kernel_check (b_ch s) && bool_decide (P s)) (sound P) o _).
  intros s Hs. checks. split; [by apply kernel_check_ok|done].
Qed.


(** What the tracker shows of a report, and what it asks next. *)
Definition located_state (s : board) : Prop :=
  let a := b_app s in
  sys_state a = SYSTEM_RIDING /\ error a = GPS_ERROR_NO_ERROR /\
  cstr (request (cmd a)) = Some (str "AT+CGNSINF") /\ status (cmd a) = SIM8XX_OK /\
  cstr (p_date (position a)) = Some (str "20180612103045.000") /\
  Some (p_latitude (position a)) = AtUtil.atAsciiToDouble (str "47.497912" ++ [NUL]) 0 /\
  p_gpsSatInView (position a) = 11 /\
  queue_of (b_ch s) (q_sem gpsSem) = [GpsReaderThread].
#[global] Instance located_state_dec s : Decision (located_state s) := _.


(** A command is on its way and the semaphore that keeps commands apart is available. *)
Definition guard_lost (s : board) : Prop :=
  wview (b_ch s) SystemThread = Some (CH_STATE_SUSPENDED, u_wttrp SIM8D1_writer) /\
  k_sems (b_ch s) !! SIM8D1_sync = Some 1.
#[global] Instance guard_lost_dec s : Decision (guard_lost s) := _.

(** A modem that does not answer loses the guard time: the time-out of the probe and the
    power toggle that follows both signal [sync], so while the next probe is on its way the
    semaphore is available, where it is 0 during any other command. *)
Theorem silent_guard_lost : reaches (sound guard_lost) silent.
Proof. apply (sound_run guard_lost). vm_compute. reflexivity. Qed.

(** The reader does not bound what it collects: after 511 characters without a status
    line it goes on, and the next one leaves the 512 bytes of [rxbuf] without end, which the
    search for a status reads past. *)
Theorem flooded_undefined :
  reaches (fun s => rxlength (SIM8D1 (b_app s)) = 511%nat) (flooded 511) /\ flooded 512 = None.
Proof.
  split; [|vm_compute; reflexivity].
  apply (reaches_check (fun s => (rxlength (SIM8D1 (b_app s)) =? 511)%nat)); [|vm_compute; reflexivity].
  intros s. apply Nat.eqb_eq.
Qed.
End Board.
