(* ===== verification/Witnesses.v ===== *)
(** * The theorems at work: the kernel

    Each theorem with hypotheses is applied to a state where they hold: the states the
    program itself reaches on the board ([Board.v]), or what a few calls make of them. *)

From S2P Require Import Prelude CLib Prog ThreadQueue Kernel ChVt ChSchd ChSem ChThreads.
From S2P Require Import ChSys ChMbox ChEvents ChMtx Checks HalQueues HalSerial AppState.
From S2P Require Import Sim8xx BoardMonitor Firmware Board.

Module Witnesses.
Import ChVt ChSchd ChSem ChThreads ChSys ChMbox ChEvents ChMtx Checks BoardMonitor Firmware Board.
#[local] Abbreviation take := firstn.

(** ** States *)

Definition end_of (o : option board_machine) : board :=
  match o with Some m => m_state m | None => board_reset end.
Definition after {A} (m : K A) (k : ch_system) : ch_system :=
  match m k with Some (_, k') => k' | None => k end.
Definition th_of (k : ch_system) (t : tid) : thread_t := default (new_thread 0) (k_threads k !! t).

(** The idle system after the start. *)
Definition k_boot : ch_system := b_ch (end_of boot).
(** The main thread running, a thread of its priority and the idle thread ready. *)
Definition k_main : ch_system :=
  after (start_main;; chThdCreateI idle_thread IDLEPRIO;; chThdCreateI HeartBeatThread NORMALPRIO) ch_reset.
(** The GPS reader has just been made ready by an interrupt. *)
Definition k_woken : ch_system := after (chSemSignalI gpsSem) k_boot.

(** What is computed; by nothing else. *)
#[local] Opaque k_boot k_main k_woken.
Ltac comp := vm_compute; reflexivity.

Lemma k_boot_sched : sched_ok k_boot. Proof. apply sched_check_ok. comp. Qed.
Lemma k_boot_sems : sems_ok k_boot. Proof. apply sems_check_ok. comp. Qed.
Lemma k_boot_evt : evt_ok k_boot. Proof. apply evt_check_ok. comp. Qed.
Lemma k_boot_mtx : mtx_ok k_boot. Proof. apply mtx_check_ok. comp. Qed.
Lemma k_boot_vt : vt_ok k_boot. Proof. apply vt_check_ok. comp. Qed.
Lemma k_main_sched : sched_ok k_main. Proof. apply sched_check_ok. comp. Qed.
Lemma k_main_sems : sems_ok k_main. Proof. apply sems_check_ok. comp. Qed.

(** ** Queues *)

(** Three threads with their priorities, and an empty queue. *)
Definition three : gmap nat Z := list_to_map [(1%nat, 5); (2%nat, 5); (3%nat, 9)].
Definition empty_queue : ThreadQueue.heap :=
  ThreadQueue.Heap {[0%nat := 0%nat]} {[0%nat := 0%nat]} (<[0%nat := 0]> three).

(** Two threads, then one of higher priority, which leaves first. *)
Lemma queue_refines_witness : exists h', ThreadQueue.do_ops 0 8
    [ThreadQueue.op_ready 1; ThreadQueue.op_ready 2; ThreadQueue.op_ready 3; ThreadQueue.op_fifo]
    empty_queue = Some ([None; None; None; Some 3%nat], h') /\
  ThreadQueue.represents 0 three h' [1; 2]%nat.
Proof.
  apply (ThreadQueue.queue_refines 0 three _ 8 empty_queue []).
  - split; [|split; [done|split; [done|split]]].
    + split; [apply NoDup_singleton|repeat constructor..].
    + intros x p H. apply elem_of_map_to_list in H. revert H. apply (Forall_forall (fun y => 0 < snd y)).
      by apply (bool_decide_eq_true_1 _).
    + by intros x ?%elem_of_nil.
  - comp.
  - cbn. lia.
Defined.

(** ** The scheduler *)

Lemma chSysInit_ok_witness : exists k', exec alone chSysInit ch_reset tt k' /\ k_current k' = mainthread.
Proof. destruct (chSysInit_ok ch_reset eq_refl) as (k' & E & _ & _ & Hc & _). exists k'. exact (conj E Hc). Defined.

Lemma wakeup_now_ok_witness : exists k', wakeup_now GpsReaderThread MSG_OK k_boot = Some (true, k') /\
  k_current k' = GpsReaderThread /\ top k'.
Proof.
  destruct (wakeup_now_ok GpsReaderThread MSG_OK k_boot (th_of k_boot GpsReaderThread))
    as (k' & E & _ & Htop & _ & Hc & _).
  - apply k_boot_sched.
  - apply top_check_ok. comp.
  - comp.
  - by vm_compute.
  - by vm_compute.
  - exists k'. split; [rewrite E; comp|]. split; [rewrite Hc; comp|exact Htop].
Defined.

Lemma chSchRescheduleS_ok_witness : exists k' p,
  run chSchRescheduleS k_woken = Some (Yielded switched p, k') /\ k_current k' = GpsReaderThread.
Proof.
  destruct (proj2 (chSchRescheduleS_ok k_woken (sched_check_ok k_woken ltac:(comp))))
    as (n & l & k' & p & Hl & E & _ & _ & Hc & _).
  - intros Htop. specialize (Htop GpsReaderThread). vm_compute in Htop. by apply Htop; [left|].
  - exists k', p. split; [exact E|]. vm_compute in Hl. injection Hl as <- _. exact Hc.
Defined.

Lemma chSchDoYieldS_ok_witness : exists k' p,
  run chSchDoYieldS k_main = Some (Yielded switched p, k') /\ k_current k' = HeartBeatThread.
Proof.
  destruct (chSchDoYieldS_ok k_main HeartBeatThread [idle_thread]) as (k' & p & E & _ & Hc & _).
  - apply k_main_sched.
  - comp.
  - by vm_compute.
  - exists k', p. exact (conj E Hc).
Defined.

Lemma irq_epilogue_ok_witness : exists k', irq_epilogue k_woken = Some (tt, k') /\ top k'.
Proof.
  destruct (irq_epilogue_ok k_woken (sched_check_ok k_woken ltac:(comp))) as (k' & E & _ & Ht & _).
  exists k'. exact (conj E Ht).
Defined.

Lemma chThdCreateStatic_ok_witness : exists p k',
  run (chThdCreateStatic SystemThread NORMALPRIO) k_main = Some (Yielded unlocked p, k') /\
  k_current k' = mainthread.
Proof.
  destruct (chThdCreateStatic_ok SystemThread NORMALPRIO k_main) as (p & k' & E & _ & _ & Hc & _).
  - apply k_main_sched.
  - apply top_check_ok. comp.
  - comp.
  - done.
  - exists p, k'. split; [rewrite E; comp|rewrite Hc; comp].
Defined.

Lemma chSchGoSleepTimeoutS_ok_witness : exists p k',
  run (chSchGoSleepTimeoutS CH_STATE_SLEEPING 100) k_main = Some (Yielded switched p, k') /\
  k_current k' = HeartBeatThread /\ remaining k' (vt_stack mainthread) = Some 100.
Proof.
  destruct (chSchGoSleepTimeoutS_ok CH_STATE_SLEEPING 100 k_main HeartBeatThread [idle_thread]
    (th_of k_main mainthread)) as (p & k' & E & _ & _ & _ & Hc & _ & Hr & _).
  - apply k_main_sched.
  - apply vt_check_ok. comp.
  - vm_compute. by intros ?%elem_of_nil.
  - by vm_compute.
  - vm_compute. by intros [].
  - comp.
  - by intros [|].
  - comp.
  - exists p, k'. exact (conj E (conj Hc Hr)).
Defined.

(** ** Timers *)

Lemma chVTDoSetI_deadline_witness : exists k', chVTDoSetI guard_timer 2500 timer_cb 0 k_boot = Some (tt, k') /\
  remaining k' guard_timer = Some 2500 /\ remaining k' monitorTimer = Some 100.
Proof.
  destruct (chVTDoSetI_deadline guard_timer 2500 timer_cb 0 k_boot) as (k' & E & _ & _ & Hr & Hw).
  - apply k_boot_vt.
  - intros H. apply (bool_decide_eq_true_2 _) in H. by vm_compute in H.
  - lia.
  - by vm_compute.
  - exists k'. split; [exact E|]. split; [exact Hr|]. rewrite Hw by done. comp.
Defined.

Lemma chVTDoResetI_deadline_witness : exists k', chVTDoResetI monitorTimer k_boot = Some (tt, k') /\
  remaining k' monitorTimer = None /\ remaining k' (vt_stack HeartBeatThread) = Some 5000.
Proof.
  destruct (chVTDoResetI_deadline monitorTimer k_boot) as (k' & E & _ & _ & Hr & Hw).
  - apply k_boot_vt.
  - apply (bool_decide_eq_true_1 _). comp.
  - exists k'. split; [exact E|]. split; [exact Hr|]. rewrite Hw by done. comp.
Defined.

(** Ten milliseconds after the start the polling timer is due, and no other. *)
Definition k_due : ch_system := set_k_now (fun _ => 100) k_boot.

(** ** Semaphores *)

Lemma chSemSignalI_ok_witness : exists k', chSemSignalI gpsSem k_boot = Some (tt, k') /\
  k_sems k' !! gpsSem = Some 0 /\ queue_of k' (q_sem gpsSem) = [] /\ k_rlist k' = [GpsReaderThread].
Proof.
  destruct (chSemSignalI_ok gpsSem (-1) k_boot) as (k' & E & _ & Hs & _ & Hn).
  - apply k_boot_sems.
  - comp.
  - lia.
  - destruct Hn as (t & l & Hq & Hq' & Hre); [lia|]. vm_compute in Hq. injection Hq as <- <-.
    exists k'. split; [exact E|]. split; [exact Hs|]. split; [exact Hq'|].
    apply Permutation_singleton_r. rewrite (re_rlist _ _ _ _ Hre). comp.
Defined.

Definition k_sem : ch_system := after (chSemObjectInit gpsSem 0) k_main.
Lemma chSemWaitS_ok_witness : exists p k',
  run (chSemWaitS gpsSem) k_sem = Some (Yielded switched p, k') /\
  k_current k' = HeartBeatThread /\ queue_of k' (q_sem gpsSem) = [mainthread].
Proof.
  destruct (chSemWaitS_ok gpsSem 0 HeartBeatThread [idle_thread] k_sem) as [_ H].
  - apply sems_check_ok. comp.
  - comp.
  - lia.
  - comp.
  - destruct H as (p & k' & E & _ & _ & Hc & _ & Hq & _); [lia|].
    exists p, k'. exact (conj E (conj Hc Hq)).
Defined.

Lemma wakeup_sem_ok_witness : exists k', wakeup GpsReaderThread k_boot = Some (tt, k') /\
  k_sems k' !! gpsSem = Some 0 /\ GpsReaderThread ∈ k_rlist k'.
Proof.
  destruct (wakeup_sem_ok gpsSem (-1) GpsReaderThread k_boot) as (k' & E & _ & Hs & _ & Hl & _).
  - apply k_boot_sems.
  - comp.
  - apply (bool_decide_eq_true_1 _). comp.
  - exists k'. exact (conj E (conj Hs Hl)).
Defined.

(** ** Threads *)

(** The GPS reader suspended on a reference, the main thread running. *)
Definition k_susp : ch_system :=
  after (set_tref SIM8D1_writer (Some GpsReaderThread);; _thread_init GpsReaderThread NORMALPRIO;;
         set_state GpsReaderThread CH_STATE_SUSPENDED;; set_u GpsReaderThread (u_wttrp SIM8D1_writer)) k_main.
Lemma chThdResumeI_ok_witness : exists k', chThdResumeI SIM8D1_writer MSG_OK k_susp = Some (tt, k') /\
  k_trefs k' !! SIM8D1_writer = Some None /\ t_u <$> k_threads k' !! GpsReaderThread = Some (u_msg MSG_OK).
Proof.
  destruct (chThdResumeI_ok SIM8D1_writer (Some GpsReaderThread) MSG_OK k_susp) as (k' & E & Hr & Hre).
  - apply sched_check_ok. comp.
  - comp.
  - intros t [= <-]. apply waits_check_ok. comp.
  - exists k'. split; [exact E|]. split; [exact Hr|exact (re_msg _ _ _ _ Hre)].
Defined.

Lemma chThdSuspendS_ok_witness : exists p k',
  run (chThdSuspendS SIM8D1_reader) k_main = Some (Yielded switched p, k') /\
  k_trefs k' !! SIM8D1_reader = Some (Some mainthread) /\ k_current k' = HeartBeatThread.
Proof.
  destruct (chThdSuspendS_ok SIM8D1_reader k_main HeartBeatThread [idle_thread])
    as (p & k' & E & _ & _ & Hc & Hr & _).
  - apply k_main_sched.
  - comp.
  - exists p, k'. exact (conj E (conj Hr Hc)).
Defined.

Lemma chThdDequeueAllI_ok_witness : exists k',
  chThdDequeueAllI (q_mb_r systemMailbox) MSG_RESET k_boot = Some (tt, k') /\
  queue_of k' (q_mb_r systemMailbox) = [] /\
  t_u <$> k_threads k' !! SystemThread = Some (u_msg MSG_RESET).
Proof.
  destruct (chThdDequeueAllI_ok (q_mb_r systemMailbox) MSG_RESET k_boot) as (k' & E & _ & Hq & _ & Hm).
  - apply k_boot_sched.
  - apply (bool_decide_eq_true_1 _). comp.
  - apply queue_waits_ok. comp.
  - exists k'. split; [exact E|]. split; [exact Hq|]. apply Hm. apply (bool_decide_eq_true_1 _). comp.
Defined.

(** ** Mutexes *)

(** A thread of lower priority owns the mutex of the dashboard... *)
Definition k_owned : ch_system :=
  after (_thread_init SystemThread LOWPRIO;; chSchReadyI SystemThread;;
         chMtxObjectInit dashboard_lock;; ChMtx.take dashboard_lock SystemThread) k_main.
(** ... the main thread waits for it, and the owner runs. *)
Definition k_contended : ch_system := after (lock_or_sleep dashboard_lock;; go_sleep CH_STATE_SLEEPING) k_owned.
(** Nobody waits. *)
Definition k_unlocked : ch_system := after (chMtxObjectInit dashboard_lock) k_main.
Definition k_locked : ch_system := after (lock_or_sleep dashboard_lock) k_unlocked.

Lemma lock_free_ok_witness : exists k', lock_or_sleep dashboard_lock k_unlocked = Some (false, k') /\
  owner_of k' dashboard_lock = Some mainthread.
Proof.
  destruct (lock_free_ok dashboard_lock (Mutex None None) k_unlocked) as (k' & E & _ & Ho & _).
  - apply mtx_check_ok. comp.
  - comp.
  - done.
  - exists k'. exact (conj E Ho).
Defined.

Lemma lock_owned_ok_witness : exists k', lock_or_sleep dashboard_lock k_owned = Some (true, k') /\
  NORMALPRIO <= prio_of k' SystemThread.
Proof.
  destruct (lock_owned_ok dashboard_lock (Mutex (Some SystemThread) None) SystemThread k_owned)
    as (k' & E & _ & _ & _ & _ & _ & Hp & _).
  - apply mtx_check_ok. comp.
  - apply no_wtcond_check_ok. comp.
  - comp.
  - done.
  - by vm_compute.
  - exists k'. split; [exact E|]. etransitivity; [|exact Hp]. by vm_compute.
Defined.

Lemma unlock_free_ok_witness : exists k', unlock_mtx dashboard_lock k_locked = Some (false, k') /\
  owner_of k' dashboard_lock = None.
Proof.
  destruct (unlock_free_ok dashboard_lock (Mutex (Some mainthread) None) k_locked (th_of k_locked mainthread))
    as (k' & E & _ & Ho & _).
  - apply mtx_check_ok. comp.
  - comp.
  - comp.
  - comp.
  - comp.
  - exists k'. exact (conj E Ho).
Defined.

Lemma unlock_waited_ok_witness : exists k', unlock_mtx dashboard_lock k_contended = Some (true, k') /\
  owner_of k' dashboard_lock = Some mainthread /\ prio_of k' SystemThread = LOWPRIO.
Proof.
  destruct (unlock_waited_ok dashboard_lock (Mutex (Some SystemThread) None) k_contended
    (th_of k_contended SystemThread) mainthread [])
    as (k' & ls & E & _ & Ho & _ & _ & _ & _ & Hc & Hls & Hp & _).
  - apply mtx_check_ok. comp.
  - comp.
  - comp.
  - comp.
  - comp.
  - by vm_compute.
  - exists k'. split; [exact E|]. split; [exact Ho|].
    assert (Hcur : k_current k_contended = SystemThread) by comp. rewrite Hcur in Hp, Hls.
    destruct ls as [|x ls]; [rewrite Hp; comp|]. exfalso.
    destruct (proj1 (Hls x) ltac:(left)) as [Hx Hne].
    apply Hne. apply list_elem_of_singleton.
    apply (owns_check_ok k_contended SystemThread [dashboard_lock]); [comp|exact Hx].
Defined.

(** ** Mailboxes *)

Definition system_mb (k : ch_system) : mailbox_t := default (Mailbox [] 0 0 0 false) (k_mbs k !! systemMailbox).
Definition k_posted : ch_system := after (chMBPostI systemMailbox SYS_EVT_IGNITION_ON) k_boot.

Lemma chMBPostI_ok_witness : exists k' mb',
  chMBPostI systemMailbox SYS_EVT_IGNITION_ON k_boot = Some (MSG_OK, k') /\
  k_mbs k' !! systemMailbox = Some mb' /\ contents mb' = [SYS_EVT_IGNITION_ON].
Proof.
  pose proof (chMBPostI_ok systemMailbox (system_mb k_boot) SYS_EVT_IGNITION_ON k_boot) as H.
  assert (Hr : mb_reset (system_mb k_boot) = false) by comp. rewrite Hr in H.
  assert (Hc : contents (system_mb k_boot) = []) by comp. rewrite Hc in H.
  rewrite decide_True in H by (vm_compute; lia).
  destruct H as (k' & mb' & E & Hmb & _ & Hmc & _).
  - apply k_boot_sched.
  - comp.
  - split; vm_compute; lia.
  - apply queue_waits_ok. comp.
  - exists k', mb'. exact (conj E (conj Hmb Hmc)).
Defined.

Lemma chMBFetchI_ok_witness : exists k', chMBFetchI systemMailbox k_posted =
  Some ((MSG_OK, Some SYS_EVT_IGNITION_ON), k').
Proof.
  pose proof (chMBFetchI_ok systemMailbox (system_mb k_posted) k_posted) as H.
  assert (Hr : mb_reset (system_mb k_posted) = false) by comp. rewrite Hr in H.
  assert (Hc : contents (system_mb k_posted) = [SYS_EVT_IGNITION_ON]) by comp. rewrite Hc in H.
  destruct H as (k' & mb' & E & _).
  - apply sched_check_ok. comp.
  - comp.
  - split; vm_compute; lia.
  - apply queue_waits_ok. comp.
  - exists k'. exact E.
Defined.

(** ** Events *)

Lemma chEvtSignalI_ok_witness : exists k', chEvtSignalI BoardMonitorThread 1 k_boot = Some (tt, k') /\
  epending_of k' BoardMonitorThread = Some 1.
Proof.
  destruct (chEvtSignalI_ok BoardMonitorThread 1 k_boot (th_of k_boot BoardMonitorThread))
    as (k' & E & _ & _ & _ & _ & He & _).
  - apply k_boot_evt.
  - comp.
  - exists k'. split; [exact E|]. rewrite He. comp.
Defined.

Lemma chEvtBroadcastFlagsI_ok_witness : exists k',
  chEvtBroadcastFlagsI monitorTimerEvent 0 k_boot = Some (tt, k') /\
  epending_of k' BoardMonitorThread = Some 1 /\ epending_of k' GpsReaderThread = Some 0.
Proof.
  destruct (chEvtBroadcastFlagsI_ok monitorTimerEvent 0 [timerEventListener] k_boot)
    as (k' & E & _ & He & _).
  - apply k_boot_evt.
  - comp.
  - intros elp ->%list_elem_of_singleton. apply listens_check_ok. comp.
  - apply NoDup_singleton.
  - exists k'. split; [exact E|]. rewrite !He. split; comp.
Defined.


(** Two handlers, of events 0 and 2. *)
Definition two_handlers : list (Z -> prog (list Z) unit) :=
  [fun id => Atom (modify (cons id)); fun _ => Atom undefined; fun id => Atom (modify (cons id))].
Lemma chEvtDispatch_order_witness : chEvtDispatch two_handlers 5 ≡ call_all two_handlers [0; 2]%nat.
Proof.
  apply (chEvtDispatch_order two_handlers 5).
  - lia.
  - intros j. destruct j as [|[|[|j]]]; [by eexists|done|by eexists|].
    intros H. exfalso. rewrite Z.bits_above_log2 in H; [done|lia|].
    change (Z.log2 5) with 2. lia.
Defined.
End Witnesses.
