(* ===== verification/AppWitnesses.v ===== *)
(** * The theorems at work: the drivers and the application

    As [Witnesses.v], for the theorems about programs: what the others do at a yield is a
    function of the state ([Prog.drive]), which answers for the modem and the timers. *)

From S2P Require Import Prelude CLib CDouble AtUtil Chprintf AtCommands Prog ThreadQueue.
From S2P Require Import Kernel ChVt ChSchd ChSem ChThreads ChSys ChMbox ChEvents ChMtx.
From S2P Require Import Checks HalQueues HalSerial AppState Sim8xx BoardMonitor GpsReader.
From S2P Require Import SystemThread Peripherals SerialChannel UsbCfg Firmware Board.
From S2P Require Import Machine Witnesses.

Module AppWitnesses.
Import ChVt ChSchd ChSem ChThreads ChSys ChMbox ChEvents Checks HalQueues HalSerial Sim8xx BoardMonitor
  GpsReader SystemThread Peripherals Firmware Machine Board Witnesses.
#[local] Abbreviation take := firstn.

(** ** Reports *)

Definition header : list ascii := str "+CGNSINF:".
Definition fields : list (list ascii) :=
  str <$> ["1"; "1"; "20180612103045.000"; "47.497912"; "19.040235"; "101.300"; "12.50"; "180.0"; "1";
           ""; "0.9"; "1.2"; "0.8"; ""; "11"; "7"; ""; ""; "42"; ""; ""]%string.
Definition report_text : list ascii :=
  header ++ " "%char :: AtCgnsinf.render AtCgnsinf.delims fields ++ [LF] ++ CRLF ++ str "OK" ++ CRLF.

Lemma atCgnsinfParse_report_witness :
  AtCgnsinf.atCgnsinfParse (report_text ++ [NUL]) =
    Some (report_text ++ [NUL], AtCgnsinf.report fields, true).
Proof.
  apply (AtCgnsinf.atCgnsinfParse_report _ header fields ([LF] ++ CRLF ++ str "OK" ++ CRLF)).
  - comp.
  - apply (bool_decide_eq_false_1 (_ ∈ _)). comp.
  - done.
  - apply (bool_decide_eq_true_1 _). comp.
Defined.

Lemma atCgnsinfParse_safe_witness : exists d ok,
  AtCgnsinf.atCgnsinfParse (str "+CGNSINF: 1,,x" ++ [NUL]) = Some (str "+CGNSINF: 1,,x" ++ [NUL], d, ok) /\
  length (AtCgnsinf.date d) = 19%nat.
Proof. apply (AtCgnsinf.atCgnsinfParse_safe _ (str "+CGNSINF: 1,,x")). comp. Defined.

(** Cut inside the longitude. *)
Definition cut_text : list ascii :=
  header ++ " "%char :: AtCgnsinf.render AtCgnsinf.delims (take 4 fields) ++ str "19.0".
Lemma atCgnsinfParse_truncated_witness :
  AtCgnsinf.atCgnsinfParse (cut_text ++ [NUL]) = Some (cut_text ++ [NUL],
    AtCgnsinf.apply_fields AtCgnsinf.field_specs (take 4 fields) AtCgnsinf.resp_zero, false).
Proof.
  eapply (AtCgnsinf.atCgnsinfParse_truncated _ header (take 4 fields) (str "19.0")).
  - comp.
  - apply (bool_decide_eq_false_1 (_ ∈ _)). comp.
  - apply (bool_decide_eq_true_1 _). comp.
  - reflexivity.
  - done.
  - apply (bool_decide_eq_false_1 (_ ∈ _)). comp.
Defined.

Lemma atAsciiToDouble_integer_witness :
  AtUtil.atAsciiToDouble (str "180." ++ [NUL]) 0 = Some (d_of_Z 180).
Proof.
  apply (AtUtil.atAsciiToDouble_integer _ 0 (str "180") (str ".")); [reflexivity|by right|done| |done].
  by repeat constructor.
Defined.

Lemma chprintf_atoi_witness : exists t, Chprintf.chprintf "%d" [Chprintf.va_int (-42)] = Some t /\ strtol_l t = -42.
Proof. apply (Chprintf.chprintf_atoi (-42)). by unfold INT_MIN, INT_MAX. Defined.

Lemma chsnprintf_bounded_witness : exists s', Chprintf.chsnprintf (zeros 8) 8 "%s,%d"
    [Chprintf.va_str (str "position" ++ [NUL]); Chprintf.va_int 7] = Some (s', 10) /\
  length s' = 8%nat /\ cstr s' = Some (str "positio").
Proof.
  apply (Chprintf.chsnprintf_bounded (zeros 8) "%s,%d"
    [Chprintf.va_str (str "position" ++ [NUL]); Chprintf.va_int 7] (str "position,7")).
  - cbn. lia.
  - reflexivity.
  - apply (bool_decide_eq_false_1 (_ ∈ _)). comp.
Defined.

Lemma get_descriptor_ok_witness : exists d, UsbCfg.get_descriptor UsbCfg.USB_DESCRIPTOR_CONFIGURATION 0 = Some d /\
  UsbCfg.configuration_ok d.
Proof.
  eexists. split; [reflexivity|].
  by refine (proj1 (proj2 (proj2 (UsbCfg.get_descriptor_ok UsbCfg.USB_DESCRIPTOR_CONFIGURATION 0 _ _ eq_refl))) eq_refl).
Defined.

Lemma sim8xxGetStatus_reply_witness :
  let data := str "AT" ++ CRLF ++ str "ERROR" ++ CRLF ++ NUL :: zeros 8 in
  sim8xxGetStatus data = Some (SIM8XX_ERROR, data).
Proof.
  apply (sim8xxGetStatus_reply (str "AT") (str "ERROR") (zeros 8)).
  - apply (bool_decide_eq_false_1 (_ ∈ _)). comp.
  - apply (bool_decide_eq_false_1 (_ ∈ _)). comp.
  - reflexivity.
  - done.
Defined.

(** ** States of the board *)

Definition run_on {A} (m : M board A) (s : board) : board :=
  match m s with Some (_, s') => s' | None => s end.

(** The modem driver is ready, the main thread runs. *)
Definition s_app : board :=
  run_on (halInit;; sim8xxInit;; systemThreadInit;; liftM gpsReaderThreadInit;; liftM boardEventsInit;;
          on_app (set_SIM8D1 (set_sim_config (fun _ => Some (SimConfig SD1 LINE_WAVESHARE_POWER))));;
          on_app (set_cmd (fun _ => sim8xxCommandInit));;
          create_request AtCgnspwr.atCgnspwrCreateOn)
    (Brd k_main ∅ ∅ app_reset (b_mem board_reset)).
(** Two bytes were received. *)
Definition s_rx : board := run_on (iqPutI sd1_iqueue 79;; iqPutI sd1_iqueue 75) s_app.
#[local] Opaque s_app s_rx.

(** The answer of the modem is in [rxbuf], the thread that waits runs again with [MSG_OK],
    the others are ready. *)
Definition answered (reply : list ascii) (s : board) : board :=
  let k := b_ch s in
  Brd (set_k_current (fun _ => mainthread) (set_k_rlist (fun _ => [HeartBeatThread; idle_thread])
        (set_k_threads (base.alter (set_t_u (fun _ => u_msg MSG_OK)) mainthread) k)))
    (b_queues s) (b_serial s)
    (set_SIM8D1 (set_rxbuf (fun _ => reply ++ zeros (512 - length reply))) (b_app s)) (b_mem s).
(** What the others do. *)
Definition modem (reply : list ascii) (w : why) (s : board) : board :=
  match w with unlocked => s | switched => answered reply s end.

(** Nothing but the modem's buffer and the kernel changes. *)
Lemma modem_same {X} (f : app -> X) reply : (forall g a, f (set_SIM8D1 g a) = f a) ->
  forall w s s', s' = modem reply w s -> same (fun s : board => f (proj s)) s s'.
Proof. intros Hf [] s s' ->; [apply Hf|done]. Qed.

(** The result of a program, when it has one. *)
Definition result {A} (others : why -> board -> board) (p : prog board A) (s : board) (d : A) : A * board :=
  default (d, s) (drive others 5000 p s).
Lemma driven {A} others (p : prog board A) s d :
  match drive others 5000 p s with Some _ => true | None => false end = true ->
  exec (fun w s s' => s' = others w s) p s (fst (result others p s d)) (snd (result others p s d)).
Proof.
  unfold result. destruct (drive others 5000 p s) as [[a s']|] eqn:E; [|done]. intros _.
  eapply drive_exec, E. by intros w t.
Qed.
Lemma driven_unit others (p : prog board unit) s :
  match drive others 5000 p s with Some _ => true | None => false end = true ->
  exec (fun w s s' => s' = others w s) p s tt (snd (result others p s tt)).
Proof. intros H. apply (driven _ _ _ tt) in H. by destruct (fst (result others p s tt)). Qed.

(** The execution, by computation. *)
Ltac driven_as E others p s :=
  assert (E : exec (fun w t t' => t' = others w t) p s tt (snd (result others p s tt)))
    by (apply driven_unit; vm_compute; reflexivity).

(** Nobody else does anything. *)
Definition idle_others (w : why) (s : board) : board := s.

(** ** Queues and the serial driver *)

Definition the_queue (s : board) (qp : nat) : io_queue := default (IOQueue 0 [] 0 0) (b_queues s !! qp).
Lemma board_notify_ok qp (s : board) : exists s', q_notify qp s = Some (tt, s') /\ queue s' qp = queue s qp.
Proof. by exists s. Qed.

Lemma iqPutI_ok_witness : exists s' q', iqPutI sd1_iqueue 13 s_rx = Some (MSG_OK, s') /\
  queue s' sd1_iqueue = Some q' /\ iq_content q' = [79; 75; 13].
Proof.
  pose proof (iqPutI_ok sd1_iqueue 13 s_rx (the_queue s_rx sd1_iqueue)) as H.
  assert (Hc : iq_content (the_queue s_rx sd1_iqueue) = [79; 75]) by comp. rewrite Hc in H.
  rewrite decide_True in H by (vm_compute; lia).
  destruct H as (s' & q' & E & Hq & _ & Hc' & _).
  - apply sched_check_ok. comp.
  - apply queue_waits_ok. comp.
  - comp.
  - split; vm_compute; lia.
  - exists s', q'. exact (conj E (conj Hq Hc')).
Defined.


Lemma iqGetTimeout_ok_witness : exists s', exec alone (iqGetTimeout sd1_iqueue TIME_INFINITE) s_rx 79 s'.
Proof.
  destruct (iqGetTimeout_ok sd1_iqueue (board_notify_ok sd1_iqueue) TIME_INFINITE s_rx
    (the_queue s_rx sd1_iqueue)) as [H _].
  - comp.
  - split; vm_compute; lia.
  - destruct (H 79 [75]) as (s' & q' & E & _); [comp|]. exists s'. exact E.
Defined.

Lemma oqWriteTimeout_ok_witness : exists s' q',
  exec alone (oqWriteTimeout sd1_oqueue [97; 116; 13] TIME_INFINITE) s_rx 3%nat s' /\
  queue s' sd1_oqueue = Some q' /\ oq_content q' = [97; 116; 13].
Proof.
  destruct (oqWriteTimeout_ok sd1_oqueue (board_notify_ok sd1_oqueue) [97; 116; 13] TIME_INFINITE s_rx
    (the_queue s_rx sd1_oqueue)) as [_ H].
  - comp.
  - split; [split; vm_compute; lia|vm_compute; lia].
  - assert (Hc : oq_content (the_queue s_rx sd1_oqueue) = []) by comp. rewrite Hc in H.
    destruct H as (s' & q' & E & Hq & _ & Hc'); [vm_compute; lia|]. exists s', q'. exact (conj E (conj Hq Hc')).
Defined.

Lemma iq_read_get_all_witness : iq_read (the_queue s_rx sd1_iqueue) 5 =
  get_all (5 `min` q_counter (the_queue s_rx sd1_iqueue)) (the_queue s_rx sd1_iqueue).
Proof. apply iq_read_get_all. split; vm_compute; lia. Defined.

Lemma oq_write_put_all_witness : let q := the_queue s_rx sd1_oqueue in
  oq_write q [1; 2] = q' ← put_all (take (2 `min` q_counter q) [1; 2]) q; Some (2 `min` q_counter q, q')%nat.
Proof. apply (oq_write_put_all (the_queue s_rx sd1_oqueue) [1; 2]); [split; vm_compute; lia|vm_compute; lia]. Defined.

Lemma sdIncomingDataI_ok_witness : exists s', sdIncomingDataI SD1 79 (end_of boot) = Some (tt, s') /\
  epending_of (HalQueues.kern s') 6 = Some 128.
Proof.
  destruct (sdIncomingDataI_ok SD1 79 (end_of boot)
    (default (SerialDrv SD_STOP 0 0 0) (b_serial (end_of boot) !! SD1))
    (the_queue (end_of boot) sd1_iqueue) [serial_event_listener]) as (s' & q' & E & _ & _ & _ & _ & He).
  - comp.
  - comp.
  - split; vm_compute; lia.
  - apply evt_check_ok. comp.
  - comp.
  - split; [comp|]. split; [apply NoDup_singleton|].
    intros elp ->%list_elem_of_singleton. apply listens_check_ok. comp.
  - exists s'. split; [exact E|]. rewrite He. comp.
Defined.

(** ** The modem *)

Lemma drain_ok_witness : exists s', exec alone drain s_rx tt s' /\
  take 2 (rxbuf (sim s')) = str "OK" /\ rxlength (sim s') = 2%nat.
Proof.
  destruct (drain_ok (SimConfig SD1 LINE_WAVESHARE_POWER) [79; 75] s_rx) as (s' & E & _ & Hs).
  - comp.
  - exists (default (SerialDrv SD_STOP 0 0 0) (b_serial s_rx !! SD1)), (the_queue s_rx sd1_iqueue).
    split; [comp|]. split; [comp|]. split; [split; vm_compute; lia|].
    assert (Hc : iq_content (the_queue s_rx sd1_iqueue) = [79; 75]) by comp. rewrite Hc.
    repeat constructor; lia.
  - comp.
  - vm_compute. lia.
  - exists s'. split; [exact E|]. rewrite Hs. split; comp.
Defined.

(** A response has been collected. *)
Definition s_full : board :=
  run_on (on_sim (set_rxbuf (fun _ => CRLF ++ str "OK" ++ CRLF ++ zeros 506))) s_app.


(** ** The GPS reader and the system thread *)

Definition says_ok : list ascii := CRLF ++ str "OK" ++ CRLF.

Lemma gpsPowerOn_ok_witness :
  let s' := snd (result (modem says_ok) gpsPowerOn s_app tt) in
  exec (fun w s s' => s' = modem says_ok w s) gpsPowerOn s_app tt s' /\
  status (command s') = SIM8XX_OK /\ cstr (request (command s')) = Some (str "AT+CGNSPWR=1").
Proof.
  driven_as E (modem says_ok) gpsPowerOn s_app.
  assert (Hl : length (request (command s_app)) = 512%nat) by comp.
  split; [exact E|]. destruct (gpsPowerOn_ok _ _ _ Hl (modem_same (fun a => (cmd a, error a)) _ (fun _ _ => eq_refl)) E)
    as (Hs & _ & Hr). exact (conj Hs Hr).
Defined.

Lemma gps_update_ok_witness :
  let reply := str "AT+CGNSINF" ++ CRLF ++ report_text in
  let s' := snd (result (modem reply) gps_update s_app tt) in
  exec (fun w s s' => s' = modem reply w s) gps_update s_app tt s' /\
  cstr (request (command s')) = Some (str "AT+CGNSINF").
Proof.
  driven_as E (modem (str "AT+CGNSINF" ++ CRLF ++ report_text)) gps_update s_app.
  split; [exact E|].
  assert (Hl : length (p_date (position (proj s_app))) = 19%nat) by comp.
  assert (HR : forall w s s', s' = modem (str "AT+CGNSINF" ++ CRLF ++ report_text) w s -> same gps_data s s')
    by exact (modem_same (fun a => (cmd a, error a, position a)) _ (fun _ _ => eq_refl)).
  destruct (gps_update_ok _ _ _ Hl HR E) as [H _]. exact H.
Defined.

(** The ignition event is in the mailbox. *)
Definition s_event : board := run_on (liftM (chMBPostI systemMailbox SYS_EVT_IGNITION_ON)) s_app.
Definition s_parked : board := run_on (on_app (set_sys_state (fun _ => SYSTEM_PARKING))) s_event.
#[local] Opaque s_event s_parked.

Lemma system_absorbing_witness :
  let R := fun w s s' => s' = idle_others w s in
  let s' := snd (result idle_others system_turn s_parked tt) in
  rtc (turn R) s_parked s' /\ sysst s' = SYSTEM_PARKING.
Proof.
  driven_as E idle_others system_turn s_parked.
  assert (Ht : rtc (turn (fun w s s' => s' = idle_others w s)) s_parked
    (snd (result idle_others system_turn s_parked tt))) by exact (rtc_once _ _ E).
  split; [exact Ht|].
  assert (H := fun HR => system_absorbing _ _ _ HR Ht).
  assert (Hst : sysst s_parked = SYSTEM_PARKING) by comp. rewrite Hst in H. apply H. by intros w s s' ->.
Defined.

Lemma system_riding_witness :
  let s' := snd (result (modem says_ok) system_turn s_event tt) in
  exec (fun w s s' => s' = modem says_ok w s) system_turn s_event tt s' /\ sysst s' = SYSTEM_RIDING /\
  cstr (request (command s')) = Some (str "AT+CGNSPWR=1").
Proof.
  driven_as E (modem says_ok) system_turn s_event.
  assert (Hr : sysst (snd (result (modem says_ok) system_turn s_event tt)) = SYSTEM_RIDING) by comp.
  split; [exact E|]. split; [exact Hr|].
  assert (Hl : length (request (command s_event)) = 512%nat) by comp.
  assert (Hi : sysst s_event = SYSTEM_INIT) by comp.
  exact (proj2 (proj2 (system_riding _ _ _ (modem_same sys_state _ (fun _ _ => eq_refl))
    (modem_same (fun a => (cmd a, error a)) _ (fun _ _ => eq_refl)) Hl Hi E Hr))).
Defined.

(** *** On the board *)

#[local] Instance sysst_mmc : MmcSpec (sysst (S := board)).
Proof. split; [by intros s a s' [= _ <-]|done..]. Qed.
#[local] Instance sysst_heap : HeapSpec (sysst (S := board)).
Proof. by intros s a s' [= _ <-]. Qed.

(** What the interrupts of the board may do. *)
Definition quiet (h : M board unit) : Prop := moves (same sysst) h.
Lemma quiet_kernel (m : K unit) : quiet (liftM m).
Proof. apply (moves_kernel sys_state). Qed.
Lemma quiet_time t : quiet (at_time t).
Proof. by intros s [] s' [= <-]. Qed.
Lemma quiet_st t : quiet (at_time t;; st_irq).
Proof.
  intros s [] s' ([] & s1 & H1%quiet_time & H2)%bind_inv.
  unfold st_irq in H2. rewrite run_gets in H2. apply quiet_kernel in H2. unfold same in *. congruence.
Qed.
Lemma quiet_line l b : quiet (set_line l b).
Proof. by intros s [] s' [= <-]. Qed.

Lemma and_then_inv o f m' : and_then o f = Some m' -> exists m, o = Some m /\ f m = Some m'.
Proof. destruct o as [m|]; [by exists m|done]. Qed.

(** The ignition is switched on.  The names of the runs are unfolded before what they run. *)
#[local] Strategy expand [boot ignition wait_until input start and_then].
Lemma system_refines_witness :
  exists m m', boot = Some m /\ ignition = Some m' /\
    rtc (step quiet) m m' /\ sysst (m_state m) = SYSTEM_INIT /\
    sysst (m_state m') <> SYSTEM_TRACKING.
Proof.
  assert (Hrun : match ignition with Some _ => true | None => false end = true) by comp.
  destruct ignition as [m'|] eqn:E; [clear Hrun|discriminate Hrun].
  assert (Hi := E). unfold ignition in E.
  apply and_then_inv in E as (m3 & E & H3). apply and_then_inv in E as (m2 & E & H2).
  apply and_then_inv in E as (m & E & H1).
  assert (Hm : rtc (step quiet) start m) by exact (settle_steps quiet _ _ _ E).
  assert (Hm' : rtc (step quiet) m m').
  { eapply steps_trans; [exact (advance_steps quiet quiet_time quiet_st _ _ _ _ H1)|].
    eapply steps_trans; [exact (interrupt_steps quiet _ _ _ (quiet_line _ _) H2)|].
    exact (advance_steps quiet quiet_time quiet_st _ _ _ _ H3). }
  assert (Hst : sysst (m_state m) = SYSTEM_INIT).
  { assert (H : match boot with Some m => sysst (m_state m) | None => SYSTEM_TRACKING end = SYSTEM_INIT) by comp.
    by rewrite E in H. }
  exists m, m'. split; [done|]. split; [done|]. split; [exact Hm'|]. split; [exact Hst|].
  assert (Hhal : moves (same sysst) halInit) by by intros s [] s' [= <-].
  assert (Hsh : within (same sysst) shellThread).
  { apply (shell_frame sys_state); [|done..|].
    - intros chp []. split; [apply (frame_lift sys_state)|done].
    - intros scp c chp line argv [= <-] [<-|[]]. by apply (tree_frame sys_state). }
  pose proof (system_refines halInit shellThread quiet board_reset m m' Hhal Hsh (fun _ H => H) Hm Hm') as H.
  rewrite Hst in H. exact (proj2 H).
Defined.

(** ** The board monitor *)

(** Nine high samples were seen, and the lines are high. *)
Definition s_high : board :=
  run_on (set_line LINE_SDC_CARD_DETECT true;; set_line LINE_USB_VBUS_SENSE true;;
          on_app (set_sdcard_counter (fun _ => 1));; on_app (set_usb_counter (fun _ => 1))) s_event.
#[local] Opaque s_high.
Definition nine : list bool := replicate 9 true.

Lemma checkSdcard_debounce_witness :
  told (Some (chEvtBroadcastI besSdcardInserted)) (set_sdcard_counter (fun _ => 0)) checkSdcard s_high.
Proof.
  assert (Hc : sdcard_counter (ap s_high) = debounced nine) by comp.
  assert (H := checkSdcard_debounce nine s_high Hc).
  assert (Hx : IDR (a_gpio (ap s_high)) LINE_SDC_CARD_DETECT = true) by comp.
  cbv zeta in H. rewrite Hx in H. exact H.
Defined.

Lemma checkUsb_debounce_witness :
  told (Some (usb_event besUsbConnected SYS_EVT_IGNITION_ON)) (set_usb_counter (fun _ => 0)) checkUsb s_high.
Proof.
  assert (Hc : usb_counter (ap s_high) = debounced nine) by comp.
  assert (H := checkUsb_debounce nine s_high Hc).
  assert (Hx : IDR (a_gpio (ap s_high)) LINE_USB_VBUS_SENSE = true) by comp.
  cbv zeta in H. rewrite Hx in H. exact H.
Defined.

(** The polling timer has fired. *)
Definition k_fired : ch_system := after (chVTDoResetI monitorTimer) k_boot.
#[local] Opaque k_fired.
Lemma monitorTimerCallback_rearms_witness : exists k', monitor_timer_callback k_fired = Some (tt, k') /\
  remaining k' monitorTimer = Some 100 /\ epending_of k' BoardMonitorThread = Some 1.
Proof.
  destruct (monitorTimerCallback_rearms k_fired [timerEventListener]) as (k' & E & Hr & _ & He).
  - apply evt_check_ok. comp.
  - apply vt_check_ok. comp.
  - apply (bool_decide_eq_false_1 (_ ∈ _)). comp.
  - apply (bool_decide_eq_true_1 (is_Some _)). comp.
  - by vm_compute.
  - comp.
  - intros elp ->%list_elem_of_singleton. apply listens_check_ok. comp.
  - exists k'. split; [exact E|]. split; [exact Hr|]. rewrite He. comp.
Defined.

(** ** The peripheral manager *)

(** A file and a directory with a file. *)
Definition tree_fat : FatFs board := {|
  DIR := list (list ascii * bool);
  f_mount := mret 0;
  f_open _ := mret 0;
  f_write _ := mret 0;
  f_close := mret 0;
  f_getfree := mret (0, 0);
  f_opendir path := mret (0, if decide (path = []) then [(str "LOG", true); (str "A.TXT", false)]
                             else [(str "B.TXT", false)]);
  f_readdir dir := mret (match dir with
                         | [] => (0, ([], false), [])
                         | e :: dir => (0, e, dir) end);
  csize := mret 0
|}.
#[local] Instance tree_fat_spec : FatFsSpec board (FatFs0 := tree_fat).
Proof. intros T HT. repeat split. intros s a s' [= _ <-]. by apply HT. Qed.

(** The transmitter empties the output queue when the thread waits for it. *)
Definition transmitter (w : why) (s : board) : board :=
  match w with
  | unlocked => s
  | switched =>
      let s := answered [] s in
      Brd (b_ch s) (<[sd1_oqueue := IOQueue 16 (replicate 16 0) 0 0]> (b_queues s)) (b_serial s) (b_app s) (b_mem s)
  end.

Lemma scanFiles_restores_witness :
  let p := scanFiles (FatFs0 := tree_fat) 3 SD1 in
  let r := result transmitter p s_app 1 in
  exec (fun w s s' => s' = transmitter w s) p s_app (fst r) (snd r) /\
  fst r = 0 /\ cstr (path (snd r)) = Some [].
Proof.
  assert (E : exec (fun w s s' => s' = transmitter w s) (scanFiles (FatFs0 := tree_fat) 3 SD1) s_app
    (fst (result transmitter (scanFiles (FatFs0 := tree_fat) 3 SD1) s_app 1))
    (snd (result transmitter (scanFiles (FatFs0 := tree_fat) 3 SD1) s_app 1)))
    by (apply driven; vm_compute; reflexivity).
  assert (HR : forall w s s', s' = transmitter w s -> same (path (S := board)) s s') by by intros [] s s' ->.
  assert (Hp : cstr (path s_app) = Some []) by comp.
  split; [exact E|]. split; [comp|].
  exact (scanFiles_restores (FatFs0 := tree_fat) _ SD1 3 _ _ _ [] HR Hp E).
Defined.

#[local] Instance heard_usb : UsbSpec (heard (S := board)).
Proof.
  split; try done. intros s s' [= <-]. unfold same, heard, unheard. cbn. by rewrite lookup_insert_ne.
Qed.
Lemma manager_setup_unheard_witness :
  let s' := snd (result (modem []) manager_setup s_app tt) in
  exec (fun w s s' => s' = modem [] w s) manager_setup s_app tt s' /\ heard s' = Some [].
Proof.
  driven_as E (modem []) manager_setup s_app.
  assert (HR : forall w s s', s' = modem [] w s -> same (heard (S := board)) s s') by by intros [] s s' ->.
  split; [exact E|]. exact (manager_setup_unheard _ _ _ HR E).
Defined.

(** The shell runs. *)
Definition s_shell : board :=
  run_on (liftM (chThdCreateSuspendedI 7 (NORMALPRIO + 1));; on_app (set_shelltp (fun _ => Some 7%nat))) s_app.
#[local] Opaque s_shell.
Lemma debugShell_reconnect_witness :
  let p := debugShellStop;; debugShellStart in
  let s' := snd (result (modem []) p s_shell tt) in
  exec (fun w s s' => s' = modem [] w s) p s_shell tt s' /\ shell s' = Some 7%nat.
Proof.
  driven_as E (modem []) (debugShellStop (S := board);; debugShellStart) s_shell.
  assert (Hs : shell s_shell = Some 7%nat) by comp.
  assert (Ht : threads s_shell !! 7%nat = Some (th_of (b_ch s_shell) 7)) by comp.
  assert (Hf : t_state (th_of (b_ch s_shell) 7) <> CH_STATE_FINAL) by by vm_compute.
  split; [exact E|].
  exact (debugShell_reconnect _ _ _ 7 _ (modem_same shelltp [] (fun _ _ => eq_refl)) Hs Ht Hf E).
Defined.

Lemma debugShellTerminated_null_witness : run (debugShellTerminated (S := board)) s_app = None.
Proof. apply (debugShellTerminated_null s_app). comp. Defined.
End AppWitnesses.
