(* ===== verification/HeapWitnesses.v ===== *)
(** * The theorems at work: memory

    As [Witnesses.v], for the theorems about the heap: a heap of 512 bytes in a state of
    the kernel and the memory. *)

From S2P Require Import Prelude CLib Prog ThreadQueue Kernel ChSchd ChMtx ChHeap Witnesses.

Module HeapWitnesses.
Import ChHeap Witnesses.

(** The kernel and the memory. *)
#[global] Instance pair_ch : Component (ch_system * memory) ch_system.
Proof.
  refine {| proj := fst; inj := fun k s => (k, snd s) |}; [done| |done]. by intros [].
Defined.
#[global] Instance pair_mem : Component (ch_system * memory) memory.
Proof.
  refine {| proj := snd; inj := fun k s => (fst s, k) |}; [done| |done]. by intros [].
Defined.
#[global] Instance pair_apart : Apart (ch_system * memory) ch_system memory.
Proof. by split. Qed.

(** The descriptor at 1024, the buffer at 4096, the mutex 0. *)
Definition heapp : Z := 1024.
Definition mtx_of (p : Z) : nat := 0.
Definition no_memory : memory := Memory ∅ (MemCore 8192 8192).
Definition s_heap : ch_system * memory :=
  match chHeapObjectInit mtx_of heapp 4096 512 (k_main, no_memory) with
  | Some (_, s) => s
  | None => (k_main, no_memory)
  end.

(** Nobody else runs. *)
Definition nobody {S} (w : why) (s : S) : S := s.
Definition ran {A} (p : prog (ch_system * memory) A) (s : ch_system * memory) : ch_system * memory :=
  match drive nobody 1000 p s with Some (_, s') => s' | None => s end.
Lemma ran_exec {A} (p : prog (ch_system * memory) A) s a :
  match drive nobody 1000 p s with Some (b, _) => Some b | None => None end = Some a ->
  exec (fun w s s' => s' = nobody w s) p s a (ran p s).
Proof.
  unfold ran. destruct (drive nobody 1000 p s) as [[b s']|] eqn:E; [|done]. intros [= <-].
  eapply drive_exec, E. done.
Qed.

Lemma nobody_mem (w : why) (s s' : ch_system * memory) : s' = nobody w s -> same mem s s'.
Proof. by intros ->. Qed.

(** 20 bytes on a multiple of 16, and the state that has them in use. *)
Definition alloc_20 : prog (ch_system * memory) (option Z) := chHeapAllocAligned mtx_of heapp 0 20 16.
Definition s_used : ch_system * memory := ran alloc_20 s_heap.
#[local] Opaque s_heap s_used.

Lemma s_heap_inv : heap_inv 4608 4095 heapp [(4096, 63)] (mem s_heap).
Proof. constructor; [|cbn [chain fst snd]; split_and!; comp|comp]. cbn [spaced fst snd]. split_and!; try (vm_compute; congruence). by exists 512. Qed.
Lemma s_used_inv : heap_inv 4608 4095 heapp [(4096, 0); (4136, 58)] (mem s_used).
Proof.
  constructor; [|cbn [chain fst snd]; split_and!; comp|comp].
  cbn [spaced fst snd]. split_and!; try (vm_compute; congruence); [by exists 512|by exists 517].
Qed.

Lemma chHeapAllocAligned_ok_witness :
  exec (fun w s s' => s' = nobody w s) alloc_20 s_heap (Some 4112) (ran alloc_20 s_heap) /\
  (16 | 4112) /\ used heapp 20 (4104, 3) (mem (ran alloc_20 s_heap)) /\
  heap_inv 4608 4095 heapp [(4096, 0); (4136, 58)] (mem (ran alloc_20 s_heap)).
Proof.
  assert (E : exec (fun w s s' => s' = nobody w s) alloc_20 s_heap (Some 4112) (ran alloc_20 s_heap))
    by (apply ran_exec; comp).
  split; [exact E|].
  destruct (chHeapAllocAligned_ok 4608 16 4 eq_refl ltac:(lia) ltac:(lia) mtx_of heapp (fun w s s' => s' = nobody w s)
    nobody_mem 4095 0 heapp 20 16 [(4096, 63)] s_heap (Some 4112) (ran alloc_20 s_heap)
    eq_refl eq_refl ltac:(lia) s_heap_inv ltac:(left; vm_compute; congruence) ltac:(lia) ltac:(lia) E)
    as (_ & H1 & _ & _ & H2 & H3 & _).
  split; [exact H1|]. split; [exact H2|exact H3].
Defined.


(** Taken and given back. *)
Definition take_and_give : prog (ch_system * memory) unit :=
  r ← chHeapAllocAligned mtx_of heapp 0 20 16;
  match r with Some p => chHeapFree mtx_of p | None => mret tt end.
End HeapWitnesses.
