(* ===== verification/ShellWitnesses.v ===== *)
(** * The theorems at work: the shell

    As [Witnesses.v]: a terminal with a script of keys, which keeps what was read and
    written. *)

From S2P Require Import Prelude CLib Chprintf Prog ThreadQueue Kernel ChHeap AppState Sim8xx Shell Witnesses.
From S2P Require Import HeapWitnesses.

Module ShellWitnesses.
Import ChHeap Shell Witnesses HeapWitnesses.

Record term := Term {
  t_sys : ch_system * memory;
  t_script : list ascii;
  t_keys : list (option ascii);
  t_out : list Z
}.
#[global] Instance term_ch : Component term ch_system.
Proof.
  refine {| proj := fun t => fst (t_sys t);
            inj := fun k t => Term (k, snd (t_sys t)) (t_script t) (t_keys t) (t_out t) |};
    [done| |done]. by intros [[] ???].
Defined.
#[global] Instance term_mem : Component term memory.
Proof.
  refine {| proj := fun t => snd (t_sys t);
            inj := fun m t => Term (fst (t_sys t), m) (t_script t) (t_keys t) (t_out t) |};
    [done| |done]. by intros [[] ???].
Defined.

(** The next key of the script; the stream is reset at its end. *)
Definition next_key (t : term) : option ascii * term :=
  (hd_error (t_script t), Term (t_sys t) (tl (t_script t)) (t_keys t ++ [hd_error (t_script t)]) (t_out t)).
#[global] Instance term_stream : Stream term := fun _ => Atom (fun t => Some (next_key t)).
#[global] Instance term_serial : Serial term := {|
  sdStart := fun _ => mret tt;
  streamPut := fun _ b => Atom (fun t => Some (MSG_OK, Term (t_sys t) (t_script t) (t_keys t) (t_out t ++ [b])));
  chnGetTimeout := fun _ _ => mret MSG_TIMEOUT;
  chnGetEventSource := fun _ => mret O
|}.

(** What was read and written. *)
Definition term_io (k : list (option ascii)) (o : list Z) (t : term) : Prop := t_keys t = k /\ t_out t = o.
Lemma term_read k o (t : term) r t' : term_io k o t -> exec (fun w s s' => s' = nobody w s) (streamRead 1) t r t' ->
  term_io (k ++ [r]) o t'.
Proof. intros [<- <-]. cbn. unfold next_key. by intros [= <- <-]. Qed.
Lemma term_put k o b (t : term) r t' : term_io k o t -> exec (fun w s s' => s' = nobody w s) (streamPut 1 b) t r t' ->
  term_io k (o ++ [b]) t'.
Proof. intros [<- <-]. cbn. by intros [= <- <-]. Qed.

(** [tre], a typing error and its correction, and a carriage return. *)
Definition script : list ascii := str "trx" ++ [ascii_of_nat 8] ++ str "ee" ++ [CR].
Definition t_start : term := Term s_heap script [] [].
Definition t_end : term := match drive nobody 1000 (shellGetLine 1 (zeros 64) 64) t_start with
                           | Some (_, t) => t | None => t_start end.
#[local] Opaque t_end.

Lemma shellGetLine_ok_witness :
  exec (fun w s s' => s' = nobody w s) (shellGetLine 1 (zeros 64) 64) t_start
    (false, str "tree" ++ zeros 60) t_end /\
  exists cs, cstr (str "tree" ++ zeros 60) = Some (typed 63 cs) /\ t_keys t_end = map Some cs ++ [Some CR].
Proof.
  assert (E : exec (fun w s s' => s' = nobody w s) (shellGetLine 1 (zeros 64) 64) t_start
    (false, str "tree" ++ zeros 60) t_end).
  { eapply (drive_exec _ nobody 1000); [done|]. vm_compute. reflexivity. }
  split; [exact E|].
  destruct (shellGetLine_ok (fun w s s' => s' = nobody w s) 1 term_io term_read term_put
    (zeros 64) 64 [] [] t_start false (str "tree" ++ zeros 60) t_end ltac:(lia) eq_refl (conj eq_refl eq_refl) E)
    as (cs & _ & _ & _ & _ & [H1 _] & H2).
  exists cs. split; [exact H2|exact H1].
Defined.

Definition tree_x : list ascii := str " tree  x".
Lemma tree_x_no_nul : NUL ∉ tree_x.
Proof. apply (bool_decide_unpack _). vm_compute. exact I. Qed.

Lemma parse_line_ok_witness : (NUL ∉ tree_x) /\ exists cmd args many line,
  parse_line (tree_x ++ NUL :: zeros 55) = Some (cmd, args, many, line) /\
  (p ← cmd; cstr_at line p) = Some (str "tree") /\ mapM (cstr_at line) args = Some [str "x"].
Proof.
  split; [exact tree_x_no_nul|].
  destruct (parse_line_ok tree_x (zeros 55) tree_x_no_nul) as (cmd & args & many & line & E & Em & H).
  exists cmd, args, many, line. split; [exact E|]. subst many. exact H.
Defined.

(** A shell with the command [tree], which does nothing here. *)
Definition build : build_info := BuildInfo "5.1.0" "GCC" "ARMv7E-M" "Cortex-M4" EmptyString "STM32" "G-track" EmptyString EmptyString.
Definition nothing (chp : nat) (line : list ascii) (argv : list nat) : prog term unit := mret tt.
Definition the_commands : option (list (ShellCommand term)) := Some [ShellCmd "tree" nothing].

Lemma shell_line_ok_witness : (NUL ∉ tree_x) /\ exists p args line,
  cstr_at line p = Some (str "tree") /\ mapM (cstr_at line) args = Some [str "x"] /\
  shell_line mtx_of heapp build nothing nothing the_commands 1 (tree_x ++ NUL :: zeros 55) ≡
    dispatch mtx_of heapp build nothing nothing the_commands 1 (str "tree") [str "x"] p args line.
Proof.
  split; [exact tree_x_no_nul|].
  destruct (shell_line_ok mtx_of heapp build nothing nothing the_commands 1 tree_x (zeros 55) tree_x_no_nul)
    as (p & args & many & line & H).
  exists p, args, line. exact H.
Defined.
End ShellWitnesses.
