(* ===== verification/MmcWitnesses.v ===== *)
(** * The theorems at work: the card reader

    As [Witnesses.v]: a bus that answers from a script of bytes, and records its events. *)

From S2P Require Import Prelude CLib Prog ThreadQueue Kernel ChSchd HalMmcsd AppState HalMmcSpi MmcProtocol CardRegisters Peripherals CardDriver.
From S2P Require Import Board Witnesses HeapWitnesses.

Module MmcWitnesses.
Import HalMmcsd HalMmcSpi MmcProtocol CardRegisters CardDriver Witnesses HeapWitnesses.
#[local] Abbreviation take := firstn.

(** The kernel, the card driver, the answers to come and the events so far. *)
Record reader := Reader { r_ch : ch_system; r_mmc : MMCDriver; r_script : list Z; r_bus : list ev }.
#[global] Instance reader_ch : Component reader ch_system.
Proof.
  refine {| proj := r_ch; inj := fun k s => Reader k (r_mmc s) (r_script s) (r_bus s) |}; [done| |done]. by intros [].
Defined.
#[global] Instance reader_mmc : Component reader MMCDriver.
Proof.
  refine {| proj := r_mmc; inj := fun d s => Reader (r_ch s) d (r_script s) (r_bus s) |}; [done| |done]. by intros [].
Defined.
#[global] Instance reader_apart : Apart reader ch_system MMCDriver.
Proof. by split. Qed.

Definition log (e : ev) : M reader unit := modify (fun s => Reader (r_ch s) (r_mmc s) (r_script s) (r_bus s ++ [e])).
(** The next bytes of the script; the line is high behind its end. *)
Definition answer (n : nat) (s : reader) : list Z := take n (map u8 (r_script s) ++ replicate n 255).
#[global] Instance reader_spi : Spi reader := {|
  spiStart := fun p cfg => Atom (log (EvStart p cfg));
  spiStop := fun p => Atom (log (EvStop p));
  spiSelect := fun p => Atom (log (EvSelect p));
  spiUnselect := fun p => Atom (log (EvUnselect p));
  spiSend := fun p bs => Atom (log (EvSend p bs));
  spiReceive := fun p n => Atom (fun s =>
    Some (answer n s, Reader (r_ch s) (r_mmc s) (drop n (r_script s)) (r_bus s ++ [EvReceive p (answer n s)])));
  spiIgnore := fun p n => Atom (log (EvIgnore p n))
|}.

Lemma answer_ok n s : length (answer n s) = n /\ Forall byte (answer n s).
Proof.
  unfold answer. split.
  - rewrite length_take, length_app, length_map, length_replicate. lia.
  - apply Forall_take, Forall_app. split.
    + apply Forall_forall. intros x (y & -> & _)%list_elem_of_fmap. apply Z.mod_pos_bound. lia.
    + apply Forall_replicate. unfold byte. lia.
Qed.

Definition alone_here (w : why) (s s' : reader) : Prop := s' = nobody w s.
#[global] Instance reader_spec : SpiSpec alone_here r_bus.
Proof.
  split; try done; try (intros p n s u s'; by intros [= <- <-]); try (intros p s u s'; by intros [= <- <-]).
  intros p n s bs s' [= <- <-]. split; [done|]. apply answer_ok.
Qed.
Lemma reader_others w s s' : alone_here w s s' -> r_bus s' = r_bus s /\ proj (K := MMCDriver) s' = proj s.
Proof. by intros ->. Qed.

Definition ran_reader {A} (p : prog reader A) (s : reader) : reader :=
  match drive nobody 1000 p s with Some (_, s') => s' | None => s end.
Lemma ran_reader_exec {A} (p : prog reader A) s a :
  match drive nobody 1000 p s with Some (b, _) => Some b | None => None end = Some a ->
  exec alone_here p s a (ran_reader p s).
Proof.
  unfold ran_reader. destruct (drive nobody 1000 p s) as [[b s']|] eqn:E; [|done]. intros [= <-]. eapply drive_exec, E. done.
Qed.

Definition sd_cfg : MMCConfig := MmcConfig 2 1 0.
Definition d_stopped : MMCDriver := MmcDriver BLK_STOP None false [] [] 0.
Definition d_active : MMCDriver := MmcDriver BLK_ACTIVE (Some sd_cfg) false [] [] 0.

(** A version 2 card of 8 GB, which needs two attempts to become idle. *)
Definition csd_8gb : list Z := [64; 14; 0; 50; 91; 89; 0; 0; 59; 55; 127; 128; 10; 64; 0; 141].
Definition cid_8gb : list Z := [3; 83; 68; 83; 85; 48; 56; 71; 128; 1; 2; 3; 4; 1; 18; 55].
Definition connect_script : list Z :=
  [255; 255; 1] ++ [255; 1; 0; 0; 1; 170] ++ [255; 1] ++ [255; 0; 192; 255; 128; 0] ++ [255; 0; 192; 255; 128; 0] ++
  [255; 0] ++ [255; 255; 0] ++ [255; 0; 255; 254] ++ csd_8gb ++ [255; 0; 254] ++ cid_8gb.
Definition s_active : reader := Reader k_main d_active connect_script [].
Definition s_ready : reader := ran_reader mmcConnect s_active.
Lemma connects : exec alone_here mmcConnect s_active HAL_SUCCESS s_ready.
Proof. unfold s_ready. apply ran_reader_exec. comp. Qed.
#[local] Opaque s_ready.

Lemma mmcConnect_ok_witness :
  mmc_config (r_mmc s_active) = Some sd_cfg /\ exec alone_here mmcConnect s_active HAL_SUCCESS s_ready /\
  mmc_state (r_mmc s_ready) = BLK_READY /\ block_addresses (r_mmc s_ready) = true /\ capacity (r_mmc s_ready) = 15523840.
Proof.
  split; [done|]. split; [exact connects|].
  destruct (mmcConnect_ok alone_here r_bus reader_others sd_cfg s_active HAL_SUCCESS s_ready eq_refl connects) as (t & _ & _ & H1 & _).
  split; [exact H1|]. by split; comp.
Defined.
(** Two blocks are read, from block 5, and two are written. *)
Definition block_a : list Z := map (fun i => Z.of_nat i mod 256) (seq 0 512).
Definition block_b : list Z := replicate 512 90.
Definition d_ready : MMCDriver := MmcDriver BLK_READY (Some sd_cfg) false [] [] 0.
Definition s_read : reader :=
  Reader k_main d_ready ([255; 255; 0] ++ [255; 254] ++ block_a ++ [254] ++ block_b ++ [255; 0]) [].
Definition s_read_end : reader := ran_reader (mmc_read 5 2) s_read.
Lemma reads : exec alone_here (mmc_read 5 2) s_read (Some (block_a ++ block_b)) s_read_end.
Proof. unfold s_read_end. apply ran_reader_exec. comp. Qed.
Definition s_write : reader := Reader k_main d_ready ([0; 255; 0] ++ [229; 0; 0; 255] ++ [5; 255]) [].
Definition s_write_end : reader := ran_reader (mmc_write 5 (block_b ++ block_a) 2) s_write.
Lemma writes : exec alone_here (mmc_write 5 (block_b ++ block_a) 2) s_write HAL_SUCCESS s_write_end.
Proof. unfold s_write_end. apply ran_reader_exec. comp. Qed.
#[local] Opaque s_read_end s_write_end.

Lemma mmc_read_ok_witness :
  mmc_config (r_mmc s_read) = Some sd_cfg /\ exec alone_here (mmc_read 5 2) s_read (Some (block_a ++ block_b)) s_read_end /\
  exists blocks t, reading sd_cfg 2560 blocks t /\ length blocks = 2%nat /\ block_a ++ block_b = concat blocks.
Proof.
  split; [done|]. split; [exact reads|].
  destruct (mmc_read_ok alone_here r_bus reader_others sd_cfg s_read 5 2 (Some (block_a ++ block_b)) s_read_end ltac:(lia) eq_refl reads)
    as (t & _ & _ & blocks & H1 & H2 & H3).
  exists blocks, t. split; [exact H1|]. by split.
Defined.

Lemma mmc_write_ok_witness :
  mmc_config (r_mmc s_write) = Some sd_cfg /\ exec alone_here (mmc_write 5 (block_b ++ block_a) 2) s_write HAL_SUCCESS s_write_end /\
  exists t, writing sd_cfg 2560 [block_b; block_a] t.
Proof.
  split; [done|]. split; [exact writes|].
  destruct (mmc_write_ok alone_here r_bus reader_others sd_cfg s_write 5 (block_b ++ block_a) 2 HAL_SUCCESS s_write_end ltac:(lia) eq_refl writes)
    as (t & _ & _ & _ & H).
  exists t. exact H.
Defined.


Lemma csd_words : Forall word (words_of csd_8gb).
Proof. repeat constructor; vm_compute; congruence. Qed.
Lemma get_capacity_ok_witness :
  length (words_of csd_8gb) = 4%nat /\ exists n, _mmcsd_get_capacity (words_of csd_8gb) = Some n /\ n = card_capacity (number (words_of csd_8gb)) /\ 0 <= n < 2 ^ 32.
Proof. split; [done|]. exact (get_capacity_ok (words_of csd_8gb) eq_refl csd_words). Defined.

(** The card of the script: "SU08G" of February 2017, blocks of 512 bytes in both directions. *)
Definition cid_card : unpacked_sdc_cid_t := SdcCid 3 0x5344 [83; 85; 48; 56; 71] 8 0 0x01020304 2 2017 27.
Definition csd_card : unpacked_sdc_csd_20_t :=
  Csd20 1 14 0 0x32 0x5B5 9 0 0 0 0 15159 1 127 0 0 2 9 0 0 0 0 0 0 70.

Lemma cid_holds : holds cid_8gb (sdc_cid cid_card).
Proof. split; [done|]. split; [|split; [|done]]; repeat constructor; done. Qed.
Lemma csd_holds : holds csd_8gb (sdc_csd_20 csd_card).
Proof. split; [done|]. split; [|split; [|done]]; repeat constructor; done. Qed.

Definition cid_unset : unpacked_sdc_cid_t := SdcCid 0 0 [0; 0; 0; 0; 0] 0 0 0 0 0 0.
Definition csd_unset : unpacked_sdc_csd_20_t := Csd20 0 0 0 0 0 0 0 0 0 0 0 0 0 0 0 0 0 0 0 0 0 0 0 0.

(** *** A card without a file system *)

Record rider := Rider { m_reader : reader; m_app : app }.
#[global] Instance rider_ch : Component rider ch_system.
Proof.
  refine {| proj := fun s => r_ch (m_reader s); inj := fun k s => Rider (inj k (m_reader s)) (m_app s) |}; [done| |done]. by intros [[] ?].
Defined.
#[global] Instance rider_mmc : Component rider MMCDriver.
Proof.
  refine {| proj := fun s => r_mmc (m_reader s); inj := fun d s => Rider (inj d (m_reader s)) (m_app s) |}; [done| |done]. by intros [[] ?].
Defined.
#[global] Instance rider_reader : Component rider reader.
Proof. refine {| proj := m_reader; inj := fun r s => Rider r (m_app s) |}; [done| |done]. by intros []. Defined.
#[global] Instance rider_app : Component rider app.
Proof. refine {| proj := m_app; inj := fun a s => Rider (m_reader s) a |}; [done| |done]. by intros []. Defined.
#[global] Instance rider_apart : Apart rider ch_system MMCDriver.
Proof. by split. Qed.
#[global] Instance rider_app_apart : Apart rider app MMCDriver.
Proof. by split. Qed.
#[global] Instance rider_spi : Spi rider := {|
  spiStart p cfg := lift (K := reader) (spiStart p cfg);
  spiStop p := lift (K := reader) (spiStop p);
  spiSelect p := lift (K := reader) (spiSelect p);
  spiUnselect p := lift (K := reader) (spiUnselect p);
  spiSend p bs := lift (K := reader) (spiSend p bs);
  spiReceive p n := lift (K := reader) (spiReceive p n);
  spiIgnore p n := lift (K := reader) (spiIgnore p n)
|}.
Definition alone_there (w : why) (s s' : rider) : Prop := s' = nobody w s.
Definition rider_bus (s : rider) : list ev := r_bus (m_reader s).
#[global] Instance rider_spec : SpiSpec alone_there rider_bus.
Proof.
  split; try done; try (intros p n s u s'; by intros [= <- <-]); try (intros p s u s'; by intros [= <- <-]).
  intros p n s bs s' [= <- <-].
  split; [done|]. apply answer_ok.
Qed.
Lemma rider_others w s s' : alone_there w s s' -> rider_bus s' = rider_bus s /\ proj (K := MMCDriver) s' = proj s.
Proof. by intros ->. Qed.
(** The file system finds no volume: [FR_NO_FILESYSTEM]. *)
#[global] Instance rider_fat : FatFs rider := {
  DIR := unit;
  f_mount := mret 13;
  f_open _ := mret 3;
  f_write _ := mret 3;
  f_close := mret 3;
  f_getfree := mret (3, 0);
  f_opendir _ := mret (3, tt);
  f_readdir _ := mret (3, ([], false), tt);
  csize := mret 0
}.
Definition s_card : rider := Rider (Reader k_main d_stopped connect_script []) Board.app_reset.
Definition s_unmounted : rider :=
  match drive nobody 1000 Peripherals.sdcardMount s_card with Some (_, s') => s' | None => s_card end.
Lemma mounts : exec alone_there Peripherals.sdcardMount s_card tt s_unmounted.
Proof.
  assert (H : match drive nobody 1000 Peripherals.sdcardMount s_card with Some (b, _) => Some b | None => None end = Some tt) by comp.
  unfold s_unmounted. destruct (drive nobody 1000 Peripherals.sdcardMount s_card) as [[b s']|] eqn:E; [|done].
  eapply drive_exec; [|destruct b; exact E]. done.
Qed.
Lemma unmounted_stopped : mmc_state (r_mmc (m_reader s_unmounted)) = BLK_STOP.
Proof. comp. Qed.
#[local] Opaque s_unmounted.

End MmcWitnesses.
