(* ===== verification/UsbWitnesses.v ===== *)
(** * The theorems at work: the USB device

    A concrete device with the documented behaviour, a host, and the driver after the reset of the
    bus, as it comes out of [_usb_reset]. *)

From S2P Require Import Prelude CLib Prog UsbRegs UsbLld HalUsb UsbIsr UsbBus UsbTransfer UsbControl UsbRequests UsbCfg.

Module UsbWitnesses.
Import UsbRegs UsbLld HalUsb UsbIsr UsbBus UsbTransfer UsbControl UsbRequests.
#[local] Abbreviation take := firstn.

(** ** The device *)

Definition epr_pending (r : Z) : bool := negb (Z.land r EPR_CTR_MASK =? 0).
(** The first endpoint with a completed transaction. *)
Fixpoint first_pending (i : Z) (l : list Z) : option Z :=
  match l with
  | [] => None
  | r :: l => if epr_pending r then Some i else first_pending (i + 1) l
  end.

#[global] Instance stm32_device : UsbDevice := {
  epr_write r w := Z.lor (Z.lor (Z.land (Z.lxor r w) epr_toggles) (Z.land (Z.land r w) EPR_CTR_MASK))
    (Z.lor (Z.land r EPR_SETUP) (Z.land w epr_plain));
  istr_write r w := Z.land r w;
  istr_read h := Z.lor (Z.land (ISTR h) 0x7F00)
    (if first_pending 0 (EPR h) is Some ep then Z.lor ISTR_CTR (Z.land ep ISTR_EP_ID_MASK) else 0);
  cntr_write w h := set_CNTR (fun _ => w) h
}.

Lemma first_pending_some l : forall i ep, 0 <= i -> first_pending i l = Some ep ->
  i <= ep < i + Z.of_nat (length l) /\ exists r, l !! Z.to_nat (ep - i) = Some r /\ Z.land r EPR_CTR_MASK <> 0.
Proof.
  induction l as [|r l IH]; intros i ep Hi E; [done|]. simpl in E. unfold epr_pending in E.
  destruct (Z.eqb_spec (Z.land r EPR_CTR_MASK) 0) as [Hz|Hz]; simpl in E.
  - destruct (IH (i + 1) ep ltac:(lia) E) as (H1 & r' & H2 & H3). split; [simpl; lia|]. exists r'. split; [|done].
    replace (Z.to_nat (ep - i)) with (S (Z.to_nat (ep - (i + 1)))) by lia. done.
  - injection E as <-. split; [simpl; lia|]. exists r. split; [|done]. by rewrite Z.sub_diag.
Qed.
Lemma first_pending_none l i : first_pending i l = None -> forall k r, l !! k = Some r -> Z.land r EPR_CTR_MASK = 0.
Proof.
  revert i. induction l as [|r l IH]; intros i E k r' Hk; [done|]. simpl in E. unfold epr_pending in E.
  destruct (Z.eqb_spec (Z.land r EPR_CTR_MASK) 0) as [Hz|Hz]; simpl in E; [|done].
  destruct k as [|k]; simpl in Hk; [by injection Hk as <-|]. by eapply IH.
Qed.

Lemma istr_bits a b : 0 <= b < 16 -> Z.land (Z.lor (Z.land a 0x7F00) (Z.lor ISTR_CTR b)) ISTR_CTR <> 0 /\
  Z.land (Z.lor (Z.land a 0x7F00) (Z.lor ISTR_CTR b)) ISTR_EP_ID_MASK = b.
Proof.
  intros Hb. split.
  - intros E. apply (f_equal (fun z => Z.testbit z 15)) in E. rewrite Z.land_spec, !Z.lor_spec, !Z.land_spec in E.
    change (Z.testbit ISTR_CTR 15) with true in E. simpl in E. by rewrite !orb_true_r in E.
  - rewrite Z.land_lor_distr_l, <- Z.land_assoc. change (Z.land 0x7F00 ISTR_EP_ID_MASK) with 0.
    rewrite Z.land_0_r, Z.lor_0_l, Z.land_lor_distr_l. change (Z.land ISTR_CTR ISTR_EP_ID_MASK) with 0.
    rewrite Z.lor_0_l. change ISTR_EP_ID_MASK with (Z.ones 4). rewrite Z.land_ones by lia. by apply Z.mod_small.
Qed.

Lemma id_range ep : 0 <= Z.land ep ISTR_EP_ID_MASK < 16.
Proof. change ISTR_EP_ID_MASK with (Z.ones 4). rewrite Z.land_ones by lia. apply Z.mod_pos_bound. lia. Qed.

#[global] Instance stm32_device_spec : UsbDeviceSpec.
Proof.
  split; [done| | |done].
  - intros h Hl. simpl. split.
    + intros Hb. destruct (first_pending 0 (EPR h)) as [ep|] eqn:E.
      * destruct (first_pending_some (EPR h) 0 ep ltac:(lia) E) as (_ & r & H1 & H2). by exists (Z.to_nat (ep - 0)), r.
      * rewrite Z.lor_0_r, <- Z.land_assoc in Hb. by rewrite Z.land_0_r in Hb.
    + intros (ep & r & Hr & Hc). destruct (first_pending 0 (EPR h)) as [ep'|] eqn:E.
      * apply istr_bits, id_range.
      * by destruct Hc; eapply first_pending_none.
  - intros h Hl. simpl. intros Hb. destruct (first_pending 0 (EPR h)) as [ep|] eqn:E.
    + destruct (first_pending_some (EPR h) 0 ep ltac:(lia) E) as (Hi & r & H1 & H2). rewrite Hl in Hi. change (Z.of_nat (S USB_ENDOPOINTS_NUMBER)) with 8 in Hi.
      rewrite (proj2 (istr_bits (ISTR h) _ (id_range ep))). change ISTR_EP_ID_MASK with (Z.ones 4).
      rewrite Z.land_ones, Z.mod_small by lia. exists r. by rewrite Z.sub_0_r in H1.
    + rewrite Z.lor_0_r, <- Z.land_assoc in Hb. by rewrite Z.land_0_r in Hb.
Qed.

(** ** The engine *)

Definition put_byte (pma : list Z) (a b : Z) : list Z :=
  base.alter (fun w => if a mod 2 =? 0 then Z.lor (Z.land w 0xFF00) b else Z.lor (Z.land w 0xFF) (Z.shiftl b 8)) (Z.to_nat (a / 2)) pma.
Fixpoint put_bytes (a : Z) (bs : list Z) (pma : list Z) : list Z :=
  match bs with [] => pma | b :: bs => put_bytes (a + 1) bs (put_byte pma a b) end.

#[global] Instance stm32_engine : UsbEngine := {
  sie_in r := Z.lxor (with_bits (Z.lor EPR_STAT_TX_MASK EPR_CTR_TX) (Z.lor EPR_STAT_TX_NAK EPR_CTR_TX) r) EPR_DTOG_TX;
  sie_out r := Z.lxor (with_bits (Z.lor (Z.lor EPR_STAT_RX_MASK EPR_CTR_RX) EPR_SETUP)
    (Z.lor EPR_STAT_RX_NAK EPR_CTR_RX) r) EPR_DTOG_RX;
  sie_setup r := with_bits (Z.lor (Z.lor (Z.lor EPR_STAT_RX_MASK EPR_STAT_TX_MASK) (Z.lor EPR_CTR_RX EPR_SETUP))
      (Z.lor EPR_DTOG_RX EPR_DTOG_TX))
    (Z.lor (Z.lor (Z.lor EPR_STAT_RX_NAK EPR_STAT_TX_NAK) (Z.lor EPR_CTR_RX EPR_SETUP)) (Z.lor EPR_DTOG_RX EPR_DTOG_TX)) r;
  sie_store a bs pma := put_bytes a bs pma;
  sie_count c n := Z.lor (Z.land c 0xFC00) n
}.

Lemma lxor_16 r m : 0 <= r < 2 ^ 16 -> 0 <= m < 2 ^ 16 -> 0 <= Z.lxor r m < 2 ^ 16.
Proof.
  intros Hr Hm. assert (Z.lxor r m = Z.lxor r m mod 2 ^ 16) as ->; [|apply Z.mod_pos_bound; lia].
  apply Z.bits_inj'. intros i Hi. destruct (Z_lt_le_dec i 16).
  - by rewrite Z.mod_pow2_bits_low.
  - rewrite Z.mod_pow2_bits_high by lia. by rewrite Z.lxor_spec, (bits_above16 m), (bits_above16 r).
Qed.

Lemma put_bytes_length bs : forall a pma, length (put_bytes a bs pma) = length pma.
Proof. induction bs as [|b bs IH]; intros a pma; [done|]. simpl. rewrite IH. apply length_alter. Qed.

Lemma low_high w b : 0 <= b < 256 ->
  Z.land (Z.lor (Z.land w 0xFF00) b) 255 = b /\ Z.land (Z.shiftr (Z.lor (Z.land w 0xFF) (Z.shiftl b 8)) 8) 255 = b /\
  Z.land (Z.lor (Z.land w 0xFF) (Z.shiftl b 8)) 255 = Z.land w 255 /\
  Z.land (Z.shiftr (Z.lor (Z.land w 0xFF00) b) 8) 255 = Z.land (Z.shiftr w 8) 255.
Proof.
  intros Hb. assert (Hsm : b = Z.land b 255).
  { change 255 with (Z.ones 8). rewrite Z.land_ones by lia. by rewrite Z.mod_small. }
  assert (Hh : Z.shiftr b 8 = 0) by (rewrite Z.shiftr_div_pow2 by lia; apply Z.div_small; lia).
  split_and!.
  - rewrite Z.land_lor_distr_l, <- Z.land_assoc. change (Z.land 0xFF00 255) with 0. by rewrite Z.land_0_r, Z.lor_0_l.
  - rewrite Z.shiftr_lor, Z.shiftr_land, Z.shiftr_shiftl_l by lia. change (Z.shiftr 0xFF 8) with 0.
    by rewrite Z.land_0_r, Z.lor_0_l, Z.shiftl_0_r.
  - rewrite Z.land_lor_distr_l, <- Z.land_assoc. change (Z.land 0xFF 255) with 255.
    assert (Z.land (Z.shiftl b 8) 255 = 0) as ->; [|by rewrite Z.lor_0_r].
    change 255 with (Z.ones 8). rewrite Z.land_ones, Z.shiftl_mul_pow2 by lia. by apply Z.mod_mul.
  - rewrite Z.shiftr_lor, Z.shiftr_land, Hh, Z.lor_0_r, <- Z.land_assoc. done.
Qed.

Lemma put_byte_get pma a b x : 0 <= a -> 0 <= x -> a / 2 < Z.of_nat (length pma) -> 0 <= b < 256 ->
  pma_byte (put_byte pma a b) x = if decide (x = a) then Some b else pma_byte pma x.
Proof.
  intros Ha Hx Hl Hb. unfold pma_byte, put_byte.
  destruct (decide (x / 2 = a / 2)) as [Hd|Hd].
  - rewrite Hd, list_lookup_alter_eq. destruct (lookup_lt_is_Some_2 pma (Z.to_nat (a / 2)) ltac:(dlia)) as [w Ew].
    rewrite Ew. simpl. destruct (low_high w b Hb) as (L1 & L2 & L3 & L4).
    destruct (decide (x = a)) as [->|Hn].
    + destruct (Z.eqb_spec (a mod 2) 0); by rewrite ?L1, ?L2.
    + destruct (Z.eqb_spec (x mod 2) 0), (Z.eqb_spec (a mod 2) 0); try dlia; by rewrite ?L3, ?L4.
  - rewrite list_lookup_alter_ne by dlia. by destruct (decide (x = a)) as [->|].
Qed.

Lemma put_bytes_get bs : forall pma a, 0 <= a -> a + Z.of_nat (length bs) <= 2 * Z.of_nat (length pma) ->
  Forall (fun b => 0 <= b < 256) bs ->
  pma_bytes (put_bytes a bs pma) a (length bs) = Some bs /\
  (forall x, 0 <= x < a -> pma_byte (put_bytes a bs pma) x = pma_byte pma x) /\
  (forall i, ~ (a / 2 <= Z.of_nat i < (a + Z.of_nat (length bs) + 1) / 2) -> put_bytes a bs pma !! i = pma !! i).
Proof.
  induction bs as [|b bs IH]; intros pma a Ha Hl Hb; [done|]. cbn [length put_bytes pma_bytes] in *.
  inversion Hb as [|? ? Hb0 Hbs]; subst.
  destruct (IH (put_byte pma a b) (a + 1)) as (I1 & I2 & I3); [lia|unfold put_byte; rewrite length_alter; lia|done|].
  assert (Hp : forall x, 0 <= x -> pma_byte (put_byte pma a b) x = if decide (x = a) then Some b else pma_byte pma x).
  { intros x Hx. apply put_byte_get; [lia|lia|dlia|done]. }
  split_and!.
  - rewrite I1, I2, Hp by lia. by rewrite decide_True.
  - intros x Hx. rewrite I2, Hp by lia. by rewrite decide_False by lia.
  - intros i Hi. rewrite I3 by dlia. unfold put_byte. apply list_lookup_alter_ne. dlia.
Qed.

#[global] Instance stm32_engine_spec : UsbEngineSpec.
Proof.
  split.
  - intros r Hr. split; [apply lxor_16; [by apply with_bits_same|done]|]. simpl. unfold same_bits, with_bits. bits16.
  - intros r Hr. split; [apply lxor_16; [by apply with_bits_same|done]|]. simpl. unfold same_bits, with_bits. bits16.
  - intros r Hr. split; [by apply with_bits_same|]. simpl. unfold same_bits, with_bits. bits16.
  - intros a bs pma Ha _ Hl Hb. destruct (put_bytes_get bs pma a Ha Hl Hb) as (H1 & _ & H3).
    split; [exact H1|]. split; [apply put_bytes_length|exact H3].
  - intros c n Hn. simpl. unfold RXCOUNT_COUNT_MASK. rewrite Z.land_lor_distr_l, <- Z.land_assoc.
    change (Z.land 0xFC00 0x03FF) with 0. rewrite Z.land_0_r, Z.lor_0_l. change 0x3FF with (Z.ones 10).
    rewrite Z.land_ones by lia. by apply Z.mod_small.
Qed.

(** ** The driver after the reset of the bus *)

#[global] Instance usb_self : Component usb usb.
Proof. by refine {| proj := fun u => u; inj := fun u _ => u |}. Defined.
#[global] Instance quiet_beyond : Beyond := fun _ => 0.
#[global] Instance quiet_clock : UsbClock := {
  rccEnableUSB := mret tt; rccDisableUSB := mret tt; nvicEnableVector := mret tt; nvicDisableVector := mret tt
}.
(** A device with the descriptors of the repository and no other callback. *)
#[global] Instance plain_config : USBConfig usb := {
  event_cb := None;
  get_descriptor_cb dtype dindex _ :=
    mret ((fun d => (at_ (o_const d) 0, Z.of_nat (length d))) <$> UsbCfg.get_descriptor dtype dindex);
  requests_hook_cb := None;
  sof_cb := None;
  ep_program _ _ := mret tt;
  end_of_transfer _ := mret tt
}.

Definition blank : usb :=
  Usb (Drv USB_STOP false 0 0 (replicate 8 None) (replicate 7 None) (replicate 7 None) USB_EP0_STP_WAITING null 0 None
        (replicate 8 0) 0 0 0 USB_STOP 0)
      (list_to_map (map (fun i => (i, EpState 0 0 null 0)) (seq 0 5)))
      (Hw (replicate 8 0) 0 0 0 0 0 0 (replicate 512 0))
      {[ 1%nat := replicate 100 0 ]}.
(** A bulk endpoint with both directions. *)
Definition bulk1 : USBEndpointConfig := EpConfig USB_EP_MODE_TYPE_BULK None None None 64 64 (Some 1%nat) (Some 2%nat) 2 null.
Definition bring_up : M usb unit :=
  usbObjectInit;;
  set_drv (set_ud_config (fun _ => true));;
  invalidate_endpoints;;
  usb_lld_start false;;
  set_drv (set_ud_state (fun _ => USB_READY));;
  _usb_reset;;
  set_drv (set_ud_state (fun _ => USB_ACTIVE));;
  usbInitEndpointI 1 bulk1.
Definition ran_usb (m : M usb unit) (u : usb) : usb := match m u with Some (_, u') => u' | None => u end.
Definition u_up : usb := Eval vm_compute in ran_usb bring_up blank.
Lemma u_up_ok : bring_up blank = Some (tt, u_up).
Proof. vm_compute. reflexivity. Qed.

Definition r0 : Z := Eval vm_compute in nth 0 (EPR (u_hw u_up)) 0.
Definition r1 : Z := Eval vm_compute in nth 1 (EPR (u_hw u_up)) 0.

Ltac concrete := vm_compute; first [reflexivity | split; congruence | congruence | lia].

Lemma ep0_up : ep0_ok (proj u_up) r0 64 128.
Proof. split; [split; [..|split]|split|split|..]; try concrete; by eexists. Qed.

Lemma up_requested req s1 r ta ra : requested req u_up s1 r ta ra -> ud_config (u_drv s1) = true /\ ud_setup (u_drv s1) = req.
Proof. intros [_ _ Hs _ Hf]. split; [|done]. exact (f_equal ud_config (zf_drv _ _ Hf)). Qed.

(** ** The theorems *)

(** The register of endpoint 1; the device completes a transmission before the write. *)
Lemma epr_macros_ok_witness :
  r1 = 0x2021 /\ stm32_device.(epr_write) 0xA0A1 (epr_set_stat_tx r1 EPR_STAT_TX_VALID) = 0xA0B1 /\
  epr_write 0xA0A1 (epr_clear_ctr_rx r1) = 0x20A1.
Proof.
  split; [done|].
  destruct (epr_macros_ok r1 0xA0A1 ltac:(done) ltac:(done) eq_refl) as (H1 & _ & _ & H2 & _).
  split; [exact (H1 eq_refl EPR_STAT_TX_VALID eq_refl)|exact H2].
Defined.

Definition hello : list Z := map (fun i => Z.of_nat i mod 256) (seq 0 100).
Lemma bytes_ok l : forallb (fun b => (0 <=? b) && (b <? 256)) l = true -> Forall (fun b => 0 <= b < 256) l.
Proof.
  intros E. apply Forall_forall. intros x Hx. rewrite forallb_forall in E. specialize (E x). 
  apply list_elem_of_In in Hx. specialize (E Hx). lia.
Qed.

Lemma send_up : can_send (proj u_up) 1 bulk1 r1 1 192.
Proof. split; [split|split|..]; try concrete; by eexists. Qed.
Lemma receive_up : can_receive (proj u_up) 1 bulk1 r1 2 256.
Proof. split; [split|split|..]; try concrete; by eexists. Qed.

Lemma transmit_ok_witness : can_send (proj u_up) 1 bulk1 r1 1 192 /\ exists ps last s1 s2 u2,
  (liftM (usbStartTransmitI 1 (at_ (o_const hello) 0) 100);; run_in 1 1) u_up = Some (ps, s1) /\
  liftM (on_hw (host_in 1)) s1 = Some (last, s2) /\ ps ++ [last] = [take 64 hello; drop 64 hello] /\
  usb_serve_endpoints 1 s2 = _usb_isr_invoke_in_cb 1 u2.
Proof.
  split; [exact send_up|].
  destruct (transmit_ok u_up 1 bulk1 r1 1 192 (at_ (o_const hello) 0) hello send_up) as (ps & last & s1 & s2 & u2 & r2 & e2 & H1 & H2 & H3 & _ & H4 & _).
  - right. exists (o_const hello), 0%nat, hello, []. done.
  - by apply bytes_ok.
  - done.
  - exists ps, last, s1, s2, u2. split; [exact H1|]. split; [exact H2|]. split; [|exact H4]. rewrite H3. reflexivity.
Defined.

Lemma receive_ok_witness : can_receive (proj u_up) 1 bulk1 r1 2 256 /\ exists s1 s2 u2,
  (liftM (usbStartReceiveI 1 (at_ (o_mem 1) 0) 100);; run_out [take 64 hello] 1) u_up = Some (tt, s1) /\
  liftM (on_hw (host_out 1 (drop 64 hello))) s1 = Some (tt, s2) /\
  usb_serve_endpoints 1 s2 = _usb_isr_invoke_out_cb 1 u2 /\ u_mem u2 !! 1%nat = Some hello.
Proof.
  split; [exact receive_up|].
  destruct (receive_ok u_up 1 bulk1 r1 2 256 (at_ (o_mem 1) 0) 100 [take 64 hello] (drop 64 hello) receive_up)
    as (s1 & s2 & u2 & r2 & H1 & H2 & H3 & _ & H4 & _).
  - done.
  - done.
  - by constructor.
  - concrete.
  - apply Forall_cons; split; [by apply bytes_ok|]. apply Forall_singleton. by apply bytes_ok.
  - done.
  - by left.
  - right. exists 1%nat, 0%nat, (replicate 100 0). split; [done|]. split; [reflexivity|]. vm_compute. lia.
  - done.
  - exists s1, s2, u2. split; [exact H1|]. split; [exact H2|]. split; [exact H3|]. rewrite H4. vm_compute. reflexivity.
Defined.

(** The host asks for the device descriptor, with 64 bytes of room. *)
Definition get_device : list Z := [128; 6; 0; 1; 0; 0; 64; 0].
Lemma control_read_ok_witness :
  ep0_ok (proj u_up) r0 64 128 /\ exists s3, control_read get_device 1 u_up = Some ([UsbCfg.vcom_device_descriptor_data], s3).
Proof.
  split; [exact ep0_up|].
  destruct (control_read_ok u_up r0 64 128 get_device
    UsbCfg.vcom_device_descriptor_data ep0_up) as (s1 & r & s2 & s3 & _ & _ & H & _).
  - reflexivity.
  - by apply bytes_ok.
  - reflexivity.
  - by apply bytes_ok.
  - reflexivity.
  - intros s1 r Hr. destruct (up_requested _ _ _ _ _ Hr) as [Hc Hs].
    eexists (at_ (o_const UsbCfg.vcom_device_descriptor_data) 0), _, r, 64, 128. split.
    + eassert (Hrun : handle_request s1 = _).
      { by apply (get_descriptor_run s1 get_device (Some (at_ (o_const UsbCfg.vcom_device_descriptor_data) 0, 18))). }
      split; [exact Hrun|..]; try done. cbn. apply (ep0_drv s1 (fun d => set_ep0endcb _ (set_ep0n _ (set_ep0next _ d)))); try done.
      * apply Hr.
      * cbn. by rewrite Hs.
    + right. exists (o_const UsbCfg.vcom_device_descriptor_data), 0%nat, UsbCfg.vcom_device_descriptor_data, []. done.
  - exists s3. exact H.
Defined.

(** The descriptors of the repository. *)
Definition vcom (t i lang : Z) : option (list Z) := UsbCfg.get_descriptor t i.
Lemma vcom_bytes t i l d : vcom t i l = Some d -> byte_list d /\ Z.of_nat (length d) < 2 ^ 32.
Proof.
  intros E. assert (Hin : In d (UsbCfg.vcom_device_descriptor_data :: UsbCfg.vcom_configuration_descriptor_data :: UsbCfg.vcom_strings)).
  { unfold vcom, UsbCfg.get_descriptor in E. repeat case_match; try done; try (injection E as <-; cbn; tauto).
    apply list_elem_of_lookup_2, list_elem_of_In in E. cbn in E |- *. tauto. }
  clear E. cbn [In UsbCfg.vcom_strings] in Hin.
  repeat (destruct Hin as [<-|Hin]; [split; [by apply bytes_ok|done]|]). done.
Qed.
Lemma plain_up : plain (S := usb) vcom.
Proof. by split. Qed.
Lemma device_up : device vcom u_up r0 64 128.
Proof. split; try done; [exact ep0_up|exact vcom_bytes]. Qed.

(** GET_STATUS of endpoint 1, which is neither halted nor disabled, and of endpoint 3, which is disabled. *)
Definition get_ep1_status : list Z := [130; 0; 0; 0; 129; 0; 2; 0].
Definition get_ep3_status : list Z := [130; 0; 0; 0; 131; 0; 2; 0].

Definition set_address_7 : list Z := [0; 5; 7; 0; 0; 0; 0; 0].

End UsbWitnesses.
