(* ===== verification/SerialWitnesses.v ===== *)
(** * The theorems at work: the serial port over USB

    The driver after the host has reset the bus and set the configuration, with the callbacks of
    config/usbcfg.c, on the device of [UsbWitnesses.v]. *)

From S2P Require Import Prelude CLib Prog ThreadQueue Kernel ChVt ChSchd ChThreads Checks HalQueues HalSerial.
From S2P Require Import UsbRegs UsbLld HalUsb UsbIsr UsbBus UsbTransfer UsbControl UsbCfg HalBuffers BuffersSpec BuffersThreads SerialUsb SerialUsbSpec.
From S2P Require Import SerialPort Shell ShellPort Witnesses UsbWitnesses.

Module SerialWitnesses.
Import ChSchd ChThreads Checks UsbRegs UsbLld HalUsb UsbIsr UsbBus UsbTransfer UsbControl UsbCfg HalBuffers BuffersSpec BuffersThreads SerialUsb SerialUsbSpec SerialPort Shell ShellPort UsbWitnesses.
#[local] Abbreviation take := firstn.
#[local] Abbreviation drop := skipn.

(** The kernel, the queues, the USB driver and the serial driver. *)
Record port := Port { p_ch : ch_system; p_bq : buffers_queues; p_usb : usb; p_sdu : sdu_drivers }.

#[global] Instance port_ch : Component port ch_system.
Proof.
  by refine {| proj := p_ch; inj := fun k s => Port k (p_bq s) (p_usb s) (p_sdu s) |}; intros; destruct s.
Defined.
#[global] Instance port_bq : Component port buffers_queues.
Proof.
  by refine {| proj := p_bq; inj := fun k s => Port (p_ch s) k (p_usb s) (p_sdu s) |}; intros; destruct s.
Defined.
#[global] Instance port_usb : Component port usb.
Proof.
  by refine {| proj := p_usb; inj := fun k s => Port (p_ch s) (p_bq s) k (p_sdu s) |}; intros; destruct s.
Defined.
#[global] Instance port_sdu : Component port sdu_drivers.
Proof.
  by refine {| proj := p_sdu; inj := fun k s => Port (p_ch s) (p_bq s) (p_usb s) k |}; intros; destruct s.
Defined.
#[global] Instance port_ch_bq : Apart port ch_system buffers_queues. Proof. by split. Qed.
#[global] Instance port_ch_usb : Apart port ch_system usb. Proof. by split. Qed.
#[global] Instance port_ch_sdu : Apart port ch_system sdu_drivers. Proof. by split. Qed.
#[global] Instance port_bq_usb : Apart port buffers_queues usb. Proof. by split. Qed.
#[global] Instance port_bq_sdu : Apart port buffers_queues sdu_drivers. Proof. by split. Qed.
#[global] Instance port_usb_sdu : Apart port usb sdu_drivers. Proof. by split. Qed.

(** ** The start *)

(** The driver, with its event source 900, its queues 50 and 51 and their buffers 2 and 3. *)
Definition sdu1 : SerialUSBDriver := SduDriver 900 SDU_UNINIT 50 51 2 3 None.

Definition start_port : M port unit :=
  sduObjectInit SDU1 sdu1;;
  liftM (usbObjectInit;; set_drv (set_ud_config (fun _ => true));; invalidate_endpoints;; usb_lld_start true;;
    set_drv (set_ud_state (fun _ => USB_READY)));;
  set_params serusbcfg (Some SDU1);;
  d ← sdu SDU1;
  set_sdu SDU1 (set_sdu_state SDU_READY (set_sdu_config (Some serusbcfg) d));;
  _usb_reset.

(** The host sets configuration 1. *)
Definition set_configuration : list Z := [0; 9; 1; 0; 0; 0; 0; 0].

Definition off_port : port := Port Witnesses.k_main ∅
  (set_u_mem (fun m => <[3%nat := replicate 520 0]> (<[2%nat := replicate 520 0]> (<[linecoding := linecoding_init]> m))) blank) ∅.
Definition ran {A} (m : M port A) (s : port) : port := match m s with Some (_, s') => s' | None => s end.
Definition p_up : port := ran (start_port;; control_write set_configuration []) off_port.

(** What is computed; by nothing else. *)
#[local] Opaque p_up.

Definition sdu_on : SerialUSBDriver := SduDriver 900 SDU_READY 50 51 2 3 (Some serusbcfg).
Definition q_in : io_buffers_queue := BQueue false 0 0 0 520 260 2 2 0 None None 0.
Definition q_out : io_buffers_queue := BQueue false 2 0 0 520 260 2 3 0 None None 0.
Definition u_port : usb := Eval vm_compute in p_usb p_up.
Lemma u_port_ok : proj (S := port) (K := usb) p_up = u_port.
Proof. vm_compute. reflexivity. Qed.
Definition e_out : ep_state := EpState 256 0 (at_ (o_mem 2) 4) 4.

(** The host's SET_CONFIGURATION was answered, and the callbacks of the repository were run. *)
Lemma p_up_ok : (start_port;; control_write set_configuration []) off_port = Some ([], p_up).
Proof. vm_compute. reflexivity. Qed.

Lemma up_port : up SDU1 sdu_on p_up.
Proof. split; [vm_compute; reflexivity|done|done|]. rewrite u_port_ok. by split_and!. Qed.

Lemma calm_port : calm sdu_on (proj p_up).
Proof.
  split.
  - apply sched_check_ok. vm_compute. reflexivity.
  - apply queue_waits_ok. vm_compute. reflexivity.
  - apply queue_waits_ok. vm_compute. reflexivity.
  - vm_compute. reflexivity.
Qed.

Lemma shape_port q l : bq_bsize q = 260%nat -> bq_bn q = 2 -> bq_buffers q = 0%nat -> bq_btop q = 520%nat -> length l = 520%nat -> shape 2 q l.
Proof. intros E1 E2 E3 E4 E5. split; rewrite ?E1, ?E2, ?E3, ?E4, ?E5; unfold sizeof_size_t; lia || done. Qed.

Lemma bqueue_in : bqueue p_up 50 = Some q_in. Proof. vm_compute. reflexivity. Qed.
Lemma bqueue_out : bqueue p_up 51 = Some q_out. Proof. vm_compute. reflexivity. Qed.
Lemma array_port a : a = 2%nat \/ a = 3%nat -> array p_up a = Some (replicate 520 0).
Proof. intros [-> | ->]; unfold array; rewrite u_port_ok; vm_compute; reflexivity. Qed.

Lemma input_port : input_at 50 p_up [].
Proof.
  exists q_in, (replicate 520 0). split; [exact bqueue_in|]. split; [apply array_port; by left|].
  exists 2%nat, 0%nat, 0%nat. split; [|done]. split; try done; [by apply shape_port|lia|lia|lia].
Qed.
Lemma output_port : output_at 51 p_up [] [].
Proof.
  exists q_out, (replicate 520 0). split; [exact bqueue_out|]. split; [apply array_port; by right|].
  split; [done|]. exists 2%nat, 0%nat, 0%nat. split; [|done]. split; try done; [by apply shape_port|lia|lia|lia].
Qed.

Lemma rx_port : rx_inv SDU1 sdu_on p_up.
Proof.
  split; [exact up_port| |].
  - exists q_in. split; [exact bqueue_in|]. do 2 (split; [done|]). intros _. split; [done|]. rewrite u_port_ok.
    exists 12321, 256, e_out. split; [|done].
    split; [split|split|..]; try concrete; by eexists.
  - rewrite u_port_ok. intros Hb. vm_compute in Hb. done.
Qed.

Lemma tx_port : tx_inv SDU1 sdu_on [] p_up.
Proof.
  split; [exact up_port| |].
  - exists q_out. split; [exact bqueue_out|]. split; [done|]. split.
    + intros l. rewrite array_port by (by right). intros [= <-]. by apply bytes_ok.
    + rewrite u_port_ok. intros Hb. vm_compute in Hb. done.
  - rewrite u_port_ok. intros _. exists 12321, 192. split; [split|split|..]; try concrete; by eexists.
Qed.

(** ** The theorems *)

(** The host sends two characters. *)
Definition hi : list Z := [104; 105].
Lemma hi_packets : buffer_packets [] hi.
Proof. split; [done|cbn; unfold maxsize; lia| |cbn; lia|left; cbn; unfold maxsize; lia]. apply Forall_singleton. by apply bytes_ok. Qed.

Lemma busy_out_port : busy_out (proj p_up) = true.
Proof. rewrite u_port_ok. reflexivity. Qed.

Lemma sdu_receive_ok_witness : rx_inv SDU1 sdu_on p_up /\ exists s, host_sends [] hi p_up s /\
  rx_inv SDU1 sdu_on s /\ input_at 50 s hi /\ receiving_on sdu_on s.
Proof.
  split; [exact rx_port|].
  destruct (sdu_receive_ok SDU1 sdu_on p_up [] [] hi rx_port input_port busy_out_port calm_port hi_packets)
    as (s & H1 & H2 & H3 & H4 & _).
  exists s. exact (conj H1 (conj H2 (conj H4 H3))).
Defined.

(** A thread reads what they sent. *)
Lemma received_hi : exists s, reader 50 (rx_inv SDU1 sdu_on) hi s.
Proof.
  destruct (receive_step SDU1 sdu_on p_up [] [] hi rx_port input_port busy_out_port calm_port hi_packets) as (s & _ & H1 & _ & H2 & _).
  by exists s.
Qed.


(** A thread writes 300 bytes: a buffer and a part of one. *)
Definition text : list Z := map (fun i => Z.of_nat i mod 256) (seq 0 300).
Lemma text_bytes : Forall byte text.
Proof. by apply bytes_ok. Qed.

Lemma writer_port : writer_at 51 (tx_inv SDU1 sdu_on) 2 256 0 [] p_up.
Proof.
  destruct output_port as (q & l & Hq & Ha & Ho). exists q, l, [], []. split; [exact tx_port|].
  rewrite bqueue_out in Hq. injection Hq as <-.
  exact (conj bqueue_out (conj Ha (conj Ho (conj eq_refl (conj eq_refl (conj eq_refl eq_refl)))))).
Qed.


(** The state then: a buffer is being transmitted. *)
Definition wrote : port :=
  match drive (fun _ s => s) 1000 (_writet SDU1 text TIME_INFINITE) p_up with Some (_, s) => s | None => p_up end.
#[local] Opaque wrote.
Definition u_wrote : usb := Eval vm_compute in p_usb wrote.
Lemma u_wrote_ok : proj (S := port) (K := usb) wrote = u_wrote.
Proof. vm_compute. reflexivity. Qed.

Definition q_wrote : io_buffers_queue := BQueue false 1 260 0 520 260 2 3 0 (Some 308%nat) (Some 520%nat) 0.
Definition l_wrote : list Z := Eval vm_compute in default [] (u_mem u_wrote !! 3%nat).
Definition r_wrote : Z := Eval vm_compute in nth 1 (EPR (u_hw u_wrote)) 0.
Definition e_wrote : ep_state := Eval vm_compute in default (EpState 0 0 null 0) (u_eps u_wrote !! 1%nat).
Definition first_buffer : list Z := Eval vm_compute in take 256 text.

Lemma bqueue_wrote : bqueue wrote 51 = Some q_wrote. Proof. vm_compute. reflexivity. Qed.
Lemma array_wrote : array wrote 3 = Some l_wrote.
Proof. unfold array. rewrite u_wrote_ok. vm_compute. reflexivity. Qed.

Lemma output_wrote : output_at 51 wrote [first_buffer] (drop 256 text).
Proof.
  exists q_wrote, l_wrote. split; [exact bqueue_wrote|]. split; [exact array_wrote|]. split; [|split; [done|cbn; lia]].
  exists 2%nat, 0%nat, 1%nat. split.
  { split.
    - by apply shape_port.
    - lia.
    - lia.
    - reflexivity.
    - reflexivity.
    - intros k Hk. assert (k = 0%nat) as -> by lia. vm_compute. split; congruence. }
  split; [done|]. split; [vm_compute; reflexivity|]. split; [lia|].
  split; [change (264 <= 308 <= 520)%nat; lia|]. vm_compute. reflexivity.
Qed.

Lemma flight_wrote : flight u_wrote first_buffer (at_ (o_mem 3) 4).
Proof.
  exists (fun m => m), r_wrote, 192, e_wrote. split; [|done]. split; [split|split|..]; try concrete.
  - split; [vm_compute; reflexivity|concrete].
  - right. exists (o_mem 3), 4%nat, l_wrote, (drop 260 l_wrote). split; [done|]. split; vm_compute; reflexivity.
  - by apply bytes_ok.
Qed.

Lemma tx_wrote : tx_inv SDU1 sdu_on [first_buffer] wrote.
Proof.
  split.
  - split; [vm_compute; reflexivity|done|done|]. rewrite u_wrote_ok. by split_and!.
  - exists q_wrote. split; [exact bqueue_wrote|]. split; [done|]. split.
    + intros l. change (bq_mem q_wrote) with 3%nat. rewrite array_wrote. intros [= <-]. by apply bytes_ok.
    + intros _. rewrite u_wrote_ok. exists first_buffer, (at_ (o_mem 3) 4). split; [exact flight_wrote|]. right.
      split; [by exists []|done].
  - rewrite u_wrote_ok. intros Hb. vm_compute in Hb. done.
Qed.

Lemma calm_wrote : calm sdu_on (proj wrote).
Proof.
  split; [apply sched_check_ok; vm_compute; reflexivity|apply queue_waits_ok; vm_compute; reflexivity..|vm_compute; reflexivity].
Qed.
Lemma busy_wrote : busy_in (proj wrote) = true.
Proof. rewrite u_wrote_ok. reflexivity. Qed.

(** ** The shell *)

(** Both directions. *)
Lemma two_ways_port : two_ways sdu_on p_up.
Proof.
  split; [done|done|..].
  - intros q. change (sdu_ibqueue sdu_on) with 50%nat. rewrite bqueue_in. by intros [= <-].
  - intros q. change (sdu_obqueue sdu_on) with 51%nat. rewrite bqueue_out. by intros [= <-].
  - rewrite u_port_ok. intros a b. vm_compute. intros [= <-] [= <-]. by left.
Qed.

(** The host types [trx], a rubout, [ee] and a carriage return. *)
Definition keys_tree : list ascii := str "trx" ++ [ascii_of_nat 8] ++ str "ee".
Definition typed_tree : list Z := map zchar (keys_tree ++ [CR]).
Lemma tree_packets : buffer_packets [] typed_tree.
Proof.
  split; [done|cbn; unfold maxsize; lia| |cbn; lia|left; cbn; unfold maxsize; lia].
  apply Forall_singleton. by apply bytes_ok.
Qed.
Lemma typed_port : exists s, terminal_at SDU1 sdu_on 2 256 0 (typed_tree ++ []) [] s.
Proof.
  destruct (receive_step SDU1 sdu_on p_up [] [] typed_tree rx_port input_port busy_out_port calm_port tree_packets)
    as (s & _ & H1 & _ & H2 & _ & _ & _ & Hl).
  destruct (Hl two_ways_port) as [Hw Hs]. exists s. split; [done|]. split; [by split|].
  eapply outgoing_at_same; [exact Hs|exact writer_port].
Qed.

End SerialWitnesses.
